(* ===== verification/_CoqProject ===== *)
-Q . S2P
Prelude.v
Double.v
DoubleExact.v
Text.v
RateLimiter.v
RateLimiterWrappers.v
RateLimiterFactory.v
Termination.v
Sequencer.v
SequencerPacing.v
Statistic.v
WebSocket.v
StreamDecoder.v
BenchmarkClient.v
TcpClient.v
TcpClientProofs.v
TcpClientLife.v
UdpClient.v
UdpEcho.v
GrpcStreamClient.v
WebSocketClient.v
WebSocketClientProofs.v
WebSocketClientLife.v
WebSocketEcho.v
BackendName.v
Service.v
Uri.v
RequestSource.v
RequestSourceProofs.v
Worker.v
Process.v
TestServer.v
ServerChain.v
Redaction.v
Options.v
OptionsMessages.v
OptionsProofs.v
OptionsCommandLine.v
OptionsTheorems.v
ClientFactory.v
OutputFormatter.v
OutputFormatterProofs.v
Bootstrap.v
BootstrapProofs.v
SignalHandler.v
Plugins.v
ClientPool.v
Executables.v
WorkerLoop.v
Run.v
Snapshot.v
Entry.v
