(* ===== verification/Prelude.v ===== *)
(** * Verification of the load-generation engine of sortie

    The C++ engine under [src/engine] (a fork of Nighthawk on Envoy) generates
    load. Options come from a command line or a message; they are validated and
    decide the configuration Envoy is started with and the client that is made. A
    process starts workers; each worker has a sequencer, which asks a
    rate limiter when a request is due and a benchmark client to start it, and
    stops when a termination predicate says so; the client writes requests or
    messages to the target, matches what comes back and records latencies in
    statistics and outcomes in counters, which the process merges and reports.

    ** Conventions

    Code is translated into total Rocq functions on records with the source's
    fields. Field names keep the source's trailing underscore; methods are named
    [Class_method] where the bare name is taken. A [w]-bit integer is a [Z] with
    its wrap-around written out where it can happen ([u32], [u64], [i64] below);
    counters of Envoy are integers. An exception, a failed [RELEASE_ASSERT] and
    undefined behaviour are values of [outcome]. Doubles are the binary64 of
    [Double.v]. What belongs to Envoy, Abseil, HdrHistogram and other code
    outside the repository is an argument, a section variable or a type class:
    the clock, what a connection or a pool does, what a decoder yields. Where
    code runs an event loop, the part before and the part after are two
    functions, and what the loop delivers are steps of a relation, so that the
    theorems are about every order of events. Objects that are shared and
    mutated (the connections of the TCP client) live in a store.

    ** The files

    - [Prelude.v]: machine integers, outcomes and their notation, tactics, lemmas
      on lists changed in place, counting of completion callbacks.
    - [Double.v], [DoubleExact.v]: IEEE binary64 arithmetic, executable, as the
      rate limiters and statistics use it, and when it is exact.
    - [Text.v]: strings, and the interface to Abseil's string functions.
    - [RateLimiter.v]: [common/rate_limiter_impl] and [common/frequency.h]: the
      interface [RateLimiter], the linear limiter (pacing bound, catching up).
      [RateLimiterWrappers.v]: bursting, scheduled start, jitter, ramps and Zipf.
      [RateLimiterFactory.v]: the stack [SequencerFactoryImpl::create] builds.
    - [Termination.v]: [common/termination_predicate_impl] and the factory.
    - [Sequencer.v], [SequencerPacing.v]: [common/sequencer_impl] as a state
      machine of timers, completions and runs; control flow for any limiter that
      keeps its contract, and the end-to-end pacing over the linear limiter.
    - [Statistic.v]: [common/statistic_impl] and the merging of
      [client/process_impl]: what each statistic represents, exactly or within
      the precision of doubles, through combination and serialisation.
    - [WebSocket.v]: [common/websocket]: frames encoded and decoded in pieces.
    - [StreamDecoder.v], [BenchmarkClient.v]: [client/stream_decoder] and
      [client/benchmark_client_impl]: one HTTP request, and the client's books.
    - [TcpClient.v], [TcpClientProofs.v], [TcpClientLife.v]:
      [client/tcp_benchmark_client_impl]: the slots, links and timers, their
      invariants, and the theorems on executions.
    - [UdpClient.v]: [client/udp_benchmark_client_impl]. [UdpEcho.v]:
      [server/udp_echo_filter], and the client and the filter at the two ends of a
      network that reorders, copies and drops.
    - [GrpcStreamClient.v]: [client/grpc_stream_client_impl].
    - [WebSocketClient.v], [WebSocketClientProofs.v], [WebSocketClientLife.v]:
      [client/websocket_stream_client_impl]: handshake, messages and closing, the
      invariants of a connection, and the theorems on executions.
    - [WebSocketEcho.v]: [server/websocket_echo_filter], and the client and the
      filter end to end.
    - [BackendName.v]: [client/backend_name]: names of back ends in the prefixes
      of stats sinks.
    - [Service.v]: [client/service_impl]: the streams and executions of the gRPC
      service as a step relation over all interleavings of their threads.
    - [Uri.v]: [common/uri_impl], [client/sni_utility] and the parts of
      [common/utility] on counters, addresses and gRPC frames.
    - [RequestSource.v], [RequestSourceProofs.v]: [common/request_source_impl],
      [common/request_stream_grpc_client_impl], the plug-ins of
      [request_source], [RequestSourceFactoryImpl] of [client/factories_impl] and
      the request source service of [client/service_impl].
    - [Worker.v]: [common/worker_impl], [common/phase_impl],
      [client/client_worker_impl] and [client/flush_worker_impl]: the thread of a
      worker and its promises, the order of its work, its counters, and the
      flush worker.
    - [Process.v]: [client/process_impl] and [client/output_collector_impl]:
      workers made, cancelled and shut down, snapshots, and the results of a run.
    - [TestServer.v]: the HTTP filters of [server] that make up the test server.
      [ServerChain.v]: the factories of the filters, and the filters in a chain at
      work on whole requests.
    - [Redaction.v]: [client/redaction].
    - [Options.v], [OptionsMessages.v], [OptionsCommandLine.v]:
      [client/options_impl] and [api/client/options.proto]: the message, the
      members with their defaults, validation, the way to a message and back, and
      the constructor from a command line. [OptionsProofs.v],
      [OptionsTheorems.v]: the invariants of constructed options and the theorems.
    - [ClientFactory.v]: the factories of clients and formatters of
      [client/factories_impl], over the options.
    - [OutputFormatter.v], [OutputFormatterProofs.v]:
      [client/output_formatter_impl]: console, CSV, dotted, Prometheus and Fortio
      output.
    - [Bootstrap.v], [BootstrapProofs.v]: [client/process_bootstrap]: the clusters
      of the workers, their transport, HTTP options and circuit breakers, the
      encapsulating Envoy of a tunnel and its subprocess.
    - [SignalHandler.v]: [common/signal_handler] as a step relation over signals,
      the handler's thread and its destructor.
    - [Plugins.v]: [user_defined_output], [stats_sink], and the sinkable statistics.
    - [ClientPool.v]: [Http1PoolImpl] of [client/benchmark_client_impl], the pools
      of [ClusterManagerFactory], and the statistics of a worker.
    - [Executables.v]: [client/client], [client/output_transform_main],
      [client/service_main], [client/remote_process_impl],
      [common/nighthawk_service_client_impl], the creation and [run] of a process
      and tracing, [parseCommand] and [GetAvailablePort] of [common/utility].
    - [WorkerLoop.v]: the worker of [client/client_worker_impl] as the composition
      of sequencer and HTTP client: the target the sequencer calls, streams that end
      at any time, and the callbacks that lead back.
    - [Run.v]: the beginning of [ProcessImpl::runInternal], step by step, with the
      stats sinks and the tracing driver; equivalent to the set-up of [Process.v].
    - [Snapshot.v]: [snapshotStatistics] of a worker and [ProcessImpl::snapshot]:
      what a progress report says.
    - [Entry.v]: the arguments the three programs declare to TCLAP, their way into
      the constructors, and the entry points under [exe] with their exit codes.

    ** What the theorems show

    Pacing: at no time have more requests been started than the rate allows, and
    in an open loop whatever is due is started when the sequencer runs. Limiters:
    what each releases and when, that wrappers keep the contract of
    [timeUntilNextRelease], and where they do not compose. Sequencer: it is
    always woken again or has stopped, and a run returns. Clients: every request,
    message or datagram has exactly one fate, every completion callback runs
    exactly once, the counters add up, windows are kept, wait loops are woken and
    [finish] leaves nothing outstanding; echoes are matched to what they answer
    however they arrive. Statistics: what is merged, summarised and serialised
    represents all the samples. Framing: encoding and decoding are inverse, the
    decoder does not depend on how bytes are cut, and refuses what it must; the
    client and the echo filter agree on the handshake and on every message.
    Service: slots are counted exactly under every interleaving, responses come
    in order and never after their stream, and a cancellation is not lost.
    Process: a cancellation reaches every worker or keeps them from being made,
    every thread is joined at shutdown, snapshots take each answer once, and the
    counters of the workers add up to the global ones. Request sources: what
    each yields, that a remote source loses nothing and does not stall, and the
    headers of the factory's requests. URIs: what is let through is well-formed
    and survives printing. Test server: its replies on every branch. Redaction:
    what is logged says nothing of a key but its size. Options: no command line
    fails an assertion, constructed options have the invariants validation
    promises, the factory makes the client they select without failing one of
    its assertions, and options survive the way through a message, all but the
    tunnel. Configuration: every worker finds its clusters at the resolved
    targets, the circuit breakers let its streams through, the transport speaks
    the protocol of the cluster, and tunnelled traffic reaches the listener of the
    encapsulating Envoy, whose subprocess is terminated. Output: Prometheus text is
    grouped by metric, the Fortio histogram partitions the samples. Signals: the
    callback runs once at most, with the old dispositions back, and the destructor
    ends. Executables: a remote run performs the options sent and reports the one
    answer; a finished run is formatted, shut down and destroyed; every declared
    option is read under its name, and the client never crashes on a command line.
    Compositions: a worker refines its sequencer and its client, and their books
    agree; a run that does not begin leaves no thread behind; a snapshot stands for
    the samples of the workers that answered; UDP load is answered by the echo
    filter over any network, and unexpected datagrams are copies or late; the chain
    of filters answers every request once and leaves its counts as they were.
    Some theorems show where the code does not do what it means to.

    ** Fuel

    The accumulation loops of the rate limiters and the sequencer, the WebSocket
    decoder and [TcpBenchmarkClientImpl::onData] are recursive on fuel: the
    number of bytes buffered for the decoders, of which a turn takes one at
    least, and a number that is given and shown to be enough for the loops of
    limiter and sequencer, whose theorems state that they return. The loops of
    the request source service take as many turns as they have responses and one
    more; the set-up of a remote source returns in the first turn after its
    timeout. The thread of a worker takes a fixed number of steps. The wait for
    the subprocess of a tunnel has as many turns as the code gives it; the
    prefetching of connections has as many as connections may still be made, and
    is shown to end; the rewriting of the Fortio text has the length of the text.

    ** What is not modelled

    The set-up of Envoy's cluster manager, TLS and stats sinks, which say what fails
    but not how, and the classes of [client/process_impl] that stand in for parts
    of an Envoy server; TCLAP itself and the help texts of the options; JSON and YAML output,
    which protobuf and Envoy print, and the JSON the options are read from; sockets,
    [fork] and [waitpid], which are arguments; releasing free memory; Envoy's fault
    filter and filter manager beyond what they document. Header files are modelled
    as far as they have code: the interfaces under [include] are only declarations.
    The Go harness around the engine is outside
    the development. *)

From stdpp Require Export prelude strings pretty gmap list sorting.
From Stdlib Require Export ZArith Lia.

#[global] Open Scope Z_scope.

(** ** Machine integers

    A [w]-bit integer is a [Z]; conversions to a type of that width wrap. *)

Definition wrap_u (w z : Z) : Z := z mod 2 ^ w.

Definition wrap_s (w z : Z) : Z := (z + 2 ^ (w - 1)) mod 2 ^ w - 2 ^ (w - 1).

Definition u8 (z : Z) : Z := wrap_u 8 z.

Definition u16 (z : Z) : Z := wrap_u 16 z.

Definition u32 (z : Z) : Z := wrap_u 32 z.

Definition u64 (z : Z) : Z := wrap_u 64 z.

Definition i64 (z : Z) : Z := wrap_s 64 z.

Definition UINT64_MAX : Z := 2 ^ 64 - 1.

Definition UINT32_MAX : Z := 2 ^ 32 - 1.

Definition INT64_MAX : Z := 2 ^ 63 - 1.

Definition in_u64 (z : Z) : Prop := 0 <= z < 2 ^ 64.

Definition in_i64 (z : Z) : Prop := - 2 ^ 63 <= z < 2 ^ 63.

(** ** Outcomes of code that may not return a value

    A thrown C++ exception carries its class and, where the text matters, its
    message; [Panic] is a [PANIC] or a failed [RELEASE_ASSERT], which ends the
    process; [Undefined] is undefined behaviour of the language (a cast of a
    double outside the range of the integer type). *)

Inductive exn : Type :=
| NighthawkException (what : string)
| UriException (what : string)
| EnvoyException (what : string)
| MalformedArgvException (what : string)
| NoServingException.

Inductive outcome (A : Type) : Type :=
| Ok (a : A)
| Throw (e : exn)
| Panic (what : string)
| Undefined.

Arguments Ok {A} a.
Arguments Throw {A} e.
Arguments Panic {A} what.
Arguments Undefined {A}.

Definition obind {A B : Type} (m : outcome A) (f : A -> outcome B) : outcome B :=
  match m with
  | Ok a => f a
  | Throw e => Throw e
  | Panic w => Panic w
  | Undefined => Undefined
  end.

Definition oguard (b : bool) (e : exn) : outcome unit :=
  if b then Ok tt else Throw e.

Declare Scope outcome_scope.
Delimit Scope outcome_scope with outcome.
#[global] Open Scope outcome_scope.

Notation "'let*' x ':=' m 'in' k" := (obind m (fun x => k))
  (at level 10, x binder, m at level 100, k at level 200)
  : outcome_scope.

Notation "m ';;;' k" := (obind m (fun _ => k))
  (at level 100, right associativity) : outcome_scope.

Definition ofrom_option {A : Type} (o : option A) : outcome A :=
  match o with Some a => Ok a | None => Undefined end.

#[global] Instance exn_eq_dec : EqDecision exn.
Proof. solve_decision. Defined.

(** ** Tactics *)

(** Case analysis on the conditionals and matches of the goal. *)
Ltac split_ifs :=
  repeat match goal with
         | |- context [if ?b then _ else _] =>
             let E := fresh "E" in destruct b eqn:E
         end.

(** The same in a hypothesis. *)
Ltac split_ifs_in H :=
  repeat match type of H with
         | context [if ?b then _ else _] =>
             let E := fresh "E" in destruct b eqn:E
         end.

(** Inverts [obind m f = Ok x] hypotheses. *)
Lemma obind_Ok {A B : Type} (m : outcome A) (f : A -> outcome B) (b : B) :
  obind m f = Ok b -> exists a, m = Ok a /\ f a = Ok b.
Proof. destruct m; naive_solver. Qed.

Lemma obind_Ok_iff {A B : Type} (m : outcome A) (f : A -> outcome B) (b : B) :
  obind m f = Ok b <-> exists a, m = Ok a /\ f a = Ok b.
Proof. split; [apply obind_Ok | intros (a & -> & H); exact H]. Qed.

Lemma obind_assoc {A B C : Type} (m : outcome A) (f : A -> outcome B) (g : B -> outcome C) :
  obind (obind m f) g = obind m (fun a => obind (f a) g).
Proof. by destruct m. Qed.

Ltac inv_bind :=
  repeat match goal with
         | H : obind _ _ = Ok _ |- _ =>
             let a := fresh "a" in
             let Ha := fresh "Hok" in
             apply obind_Ok in H as (a & Ha & H)
         | H : Ok _ = Ok _ |- _ => injection H as H; subst
         | H : Throw _ = Ok _ |- _ => discriminate H
         | H : Panic _ = Ok _ |- _ => discriminate H
         | H : Undefined = Ok _ |- _ => discriminate H
         end.

(** Turns the boolean comparisons of the code into propositions for [lia]. *)
Ltac b2p :=
  repeat match goal with
         | H : (_ && _)%bool = true |- _ => apply andb_prop in H as [? ?]
         | H : (_ || _)%bool = false |- _ => apply orb_false_elim in H as [? ?]
         | H : negb _ = true |- _ => apply negb_true_iff in H
         | H : negb _ = false |- _ => apply negb_false_iff in H
         | H : Z.ltb _ _ = true |- _ => apply Z.ltb_lt in H
         | H : Z.ltb _ _ = false |- _ => apply Z.ltb_ge in H
         | H : Z.leb _ _ = true |- _ => apply Z.leb_le in H
         | H : Z.leb _ _ = false |- _ => apply Z.leb_gt in H
         | H : Z.eqb _ _ = true |- _ => apply Z.eqb_eq in H
         | H : Z.eqb _ _ = false |- _ => apply Z.eqb_neq in H
         | H : bool_decide _ = true |- _ => apply bool_decide_eq_true in H
         | H : bool_decide _ = false |- _ => apply bool_decide_eq_false in H
         end.

(** ** Lemmas on machine integers *)

Create HintDb machine.

Lemma u64_small z : in_u64 z -> u64 z = z.
Proof. intros H. unfold u64, wrap_u, in_u64 in *. by apply Z.mod_small. Qed.

Lemma u64_range z : in_u64 (u64 z).
Proof. unfold u64, wrap_u, in_u64. apply Z.mod_pos_bound. lia. Qed.

Lemma i64_small z : in_i64 z -> i64 z = z.
Proof.
  unfold i64, wrap_s, in_i64. intros H.
  rewrite Z.mod_small; lia.
Qed.

Lemma i64_range z : in_i64 (i64 z).
Proof.
  unfold i64, wrap_s, in_i64.
  pose proof (Z.mod_pos_bound (z + 2 ^ (64 - 1)) (2 ^ 64) ltac:(lia)). lia.
Qed.

Lemma i64_u64 z : i64 (u64 z) = i64 z.
Proof.
  unfold i64, u64, wrap_s, wrap_u.
  rewrite Zplus_mod_idemp_l. done.
Qed.

Lemma u64_mod z : u64 (u64 z) = u64 z.
Proof. apply u64_small, u64_range. Qed.

#[export] Hint Resolve u64_range i64_range : machine.

(** ** Lists changed in place *)

Lemma bind_alter_same {A B} (f : A -> list B) (g : A -> A) i (l : list A) :
  (forall x, f (g x) = f x) -> (alter g i l) ≫= f = l ≫= f.
Proof.
  intros Hg. revert i. induction l as [|x l IH]; intros [|i]; cbn; try done.
  - by rewrite Hg.
  - by rewrite IH.
Qed.

Lemma bind_map_same {A B} (f : A -> list B) (g : A -> A) (l : list A) :
  (forall x, f (g x) = f x) -> (map g l) ≫= f = l ≫= f.
Proof. intros Hg. induction l as [|x l IH]; cbn; [done|]. by rewrite Hg, IH. Qed.

Lemma bind_alter_perm {A B} (f : A -> list B) (g : A -> A) i (l : list A) x :
  l !! i = Some x ->
  f x ++ ((alter g i l) ≫= f) ≡ₚ f (g x) ++ (l ≫= f).
Proof.
  revert i. induction l as [|y l IH]; intros [|i] Hx; cbn in *; try done.
  - injection Hx as ->. solve_Permutation.
  - specialize (IH i Hx). rewrite !(Permutation_app_swap_app (f _) (f y)), IH. done.
Qed.

Lemma filter_alter_length {A} (p : A -> bool) (g : A -> A) (i : nat) (st : list A) l :
  st !! i = Some l ->
  Z.of_nat (length (List.filter p (alter g i st))) =
  Z.of_nat (length (List.filter p st)) - Z.b2z (p l) + Z.b2z (p (g l)).
Proof.
  revert i. induction st as [|x st IH]; intros [|i] H; cbn in *; try done.
  - injection H as ->. destruct (p l), (p (g l)); cbn; lia.
  - specialize (IH i H). change (list_alter g i st) with (alter g i st).
    destruct (p x); cbn; lia.
Qed.

Lemma alter_out {A} (g : A -> A) (i : nat) (l : list A) : l !! i = None -> alter g i l = l.
Proof.
  intros H. apply list_eq. intros k. rewrite list_lookup_alter.
  case_decide as E; [subst; by rewrite H | done].
Qed.

Lemma alter_alter_to {A} (f g h : A -> A) (i : nat) (l : list A) :
  (forall x, l !! i = Some x -> f (g x) = h x) -> alter f i (alter g i l) = alter h i l.
Proof. intros H. rewrite list_alter_alter_eq. by apply list_alter_ext. Qed.

Lemma list_alter_insert_lookup {A} (g : A -> A) (i : nat) (l : list A) x :
  l !! i = Some x -> alter g i l = <[i := g x]> l.
Proof.
  intros Hx. apply list_eq. intros k. rewrite list_lookup_alter, list_lookup_insert.
  apply lookup_lt_Some in Hx as Hl. repeat case_decide; subst; try done; [|lia..]. by rewrite Hx.
Qed.

Lemma bind_insert_same {A B} (f : A -> list B) (i : nat) (l : list A) x y :
  l !! i = Some x -> f y = f x -> <[i := y]> l ≫= f = l ≫= f.
Proof.
  revert i. induction l as [|z l IH]; intros [|i] Hx Hf; cbn in *; try done.
  - injection Hx as ->. by rewrite Hf.
  - f_equal. by apply IH.
Qed.

(** ** Sublists *)

Lemma Forall_sublist {A} (P : A -> Prop) (l l' : list A) : sublist l l' -> Forall P l' -> Forall P l.
Proof. intros Hs. rewrite !Forall_forall. intros Hl x Hx. by eapply Hl, elem_of_sublist. Qed.

Lemma StronglySorted_sublist {A} (R : A -> A -> Prop) (l l' : list A) :
  sublist l l' -> StronglySorted R l' -> StronglySorted R l.
Proof.
  induction 1 as [|x l l' Hl IH|x l l' Hl IH]; intros Hs; [done|..];
    apply StronglySorted_inv in Hs as [Hs Hx]; [|by apply IH].
  constructor; [by apply IH|]. by apply (Forall_sublist _ _ l').
Qed.

(** ** Completion callbacks

    A completion callback is known by a number; how many of some were called
    with success and with failure. *)

Definition successes (l : list (nat * bool)) : Z := Z.of_nat (length (List.filter snd l)).

Definition failures (l : list (nat * bool)) : Z :=
  Z.of_nat (length (List.filter (fun c => negb (snd c)) l)).

Lemma successes_app l1 l2 : successes (l1 ++ l2) = successes l1 + successes l2.
Proof. unfold successes. rewrite List.filter_app, length_app. lia. Qed.

Lemma failures_app l1 l2 : failures (l1 ++ l2) = failures l1 + failures l2.
Proof. unfold failures. rewrite List.filter_app, length_app. lia. Qed.

Lemma successes_one n b : successes [(n, b)] = if b then 1 else 0.
Proof. by destruct b. Qed.

Lemma failures_one n b : failures [(n, b)] = if b then 0 else 1.
Proof. by destruct b. Qed.
