(* ===== verification/Double.v ===== *)
(** * IEEE-754 binary64 arithmetic

    The engine computes with C++ [double]. A double is modelled by the
    executable [spec_float] of the standard library at precision 53 and
    maximal exponent 1024, rounding to nearest even: the arithmetic of the
    targets the engine is built for. This file adds the conversions the
    sources use: from integers, [std::floor], [std::ceil], [std::round] and
    [static_cast<int64_t>]. *)

From Stdlib Require Export SpecFloat.
From S2P Require Import Prelude.

Abbreviation double := spec_float.

Definition prec : Z := 53.

Definition emax : Z := 1024.

Definition dadd (x y : double) : double := SFadd prec emax x y.

Definition dsub (x y : double) : double := SFsub prec emax x y.

Definition dmul (x y : double) : double := SFmul prec emax x y.

Definition ddiv (x y : double) : double := SFdiv prec emax x y.

Definition dsqrt (x : double) : double := SFsqrt prec emax x.

Definition dltb (x y : double) : bool := SFltb x y.

Definition dleb (x y : double) : bool := SFleb x y.

Definition dmax (x y : double) : double := if dltb x y then y else x.

Definition disnan (x : double) : bool :=
  match x with S754_nan => true | _ => false end.

(** The double nearest to an integer: [static_cast<double>]. *)
Definition d_of_Z (z : Z) : double := binary_normalize prec emax z 0 false.

Definition d0 : double := d_of_Z 0.

Definition d1 : double := d_of_Z 1.

Definition d2 : double := d_of_Z 2.

(** [1e9], the number of nanoseconds in a second; exact. *)
Definition d1e9 : double := d_of_Z 1000000000.

(** [0.5], exact. *)
Definition dhalf : double := ddiv d1 d2.

(** The integer part towards minus infinity, plus infinity and zero, and the
    nearest integer with ties away from zero, of a finite double. *)

Definition signed (s : bool) (m : Z) : Z := if s then - m else m.

Definition floorZ (x : double) : option Z :=
  match x with
  | S754_zero _ => Some 0
  | S754_finite s m e =>
      let v := signed s (Zpos m) in
      Some (if 0 <=? e then v * 2 ^ e else v / 2 ^ (- e))
  | _ => None
  end.

Definition ceilZ (x : double) : option Z :=
  match x with
  | S754_zero _ => Some 0
  | S754_finite s m e =>
      let v := signed s (Zpos m) in
      Some (if 0 <=? e then v * 2 ^ e else - ((- v) / 2 ^ (- e)))
  | _ => None
  end.

Definition truncZ (x : double) : option Z :=
  match x with
  | S754_zero _ => Some 0
  | S754_finite s m e =>
      let v := signed s (Zpos m) in
      Some (if 0 <=? e then v * 2 ^ e else Z.quot v (2 ^ (- e)))
  | _ => None
  end.

Definition roundZ (x : double) : option Z :=
  match x with
  | S754_zero _ => Some 0
  | S754_finite s m e =>
      let h := if 0 <=? e then Zpos m * 2 ^ e else (2 * Zpos m + 2 ^ (- e)) / (2 * 2 ^ (- e)) in
      Some (signed s h)
  | _ => None
  end.

(** [std::round] as a double; the rounded value of a finite double is one. *)
Definition dround (x : double) : double :=
  match roundZ x with Some z => d_of_Z z | None => x end.

(** [static_cast<int64_t>] of a double whose integral value is [z]: undefined
    when [z] is not representable (and when there is no value at all). *)
Definition cast_i64 (z : option Z) : outcome Z :=
  match z with
  | Some v => if (- 2 ^ 63 <=? v) && (v <? 2 ^ 63) then Ok v else Undefined
  | None => Undefined
  end.

Lemma cast_i64_range z v : cast_i64 z = Ok v -> in_i64 v.
Proof.
  unfold cast_i64, in_i64. destruct z as [w|]; [|done].
  destruct ((- 2 ^ 63 <=? w) && (w <? 2 ^ 63)) eqn:E; [|done].
  intros [= <-]. b2p. lia.
Qed.

Lemma cast_i64_Some z v : cast_i64 z = Ok v -> z = Some v.
Proof.
  unfold cast_i64. destruct z as [w|]; [|done].
  split_ifs; naive_solver.
Qed.

#[export] Hint Resolve cast_i64_range : machine.
