(* ===== verification/DoubleExact.v ===== *)
(** * Where the double arithmetic of the rate limiters is exact

    Integers below [2^53] are doubles, their sums are exact, and the floor of
    a quotient of two of them, computed in doubles, is the integer quotient:
    rounding cannot carry it over the next integer. This is what lets the
    pacing of [LinearRateLimiter], written with doubles, be stated exactly. *)

From S2P Require Import Prelude Double.

(** ** Digits and shifts *)

Lemma digits2_pos_bounds m :
  2 ^ (Zpos (digits2_pos m) - 1) <= Zpos m < 2 ^ Zpos (digits2_pos m).
Proof.
  induction m as [m IH|m IH|]; cbn [digits2_pos]; [| |cbn; lia].
  all: rewrite Pos2Z.inj_succ, Z.pow_succ_r by lia.
  all: replace (Z.succ (Zpos (digits2_pos m)) - 1) with (Z.succ (Zpos (digits2_pos m) - 1)) by lia.
  all: rewrite Z.pow_succ_r by lia; lia.
Qed.

(** The number of digits is determined by the power of two below. *)
Lemma digits2_pos_unique m d :
  0 < d -> 2 ^ (d - 1) <= Zpos m < 2 ^ d -> Zpos (digits2_pos m) = d.
Proof.
  intros Hd [Hl Hu]. destruct (digits2_pos_bounds m) as [Hl' Hu'].
  assert (~ Zpos (digits2_pos m) < d).
  { intros Hlt. pose proof (Z.pow_le_mono_r 2 (Zpos (digits2_pos m)) (d - 1)). lia. }
  assert (~ d < Zpos (digits2_pos m)).
  { intros Hlt. pose proof (Z.pow_le_mono_r 2 d (Zpos (digits2_pos m) - 1)). lia. }
  lia.
Qed.

Lemma iter_xO m d : Zpos (Pos.iter xO m d) = Zpos m * 2 ^ Zpos d.
Proof.
  induction d as [|d IH] using Pos.peano_ind; [cbn; lia|].
  rewrite Pos.iter_succ, Pos2Z.inj_succ, Z.pow_succ_r by lia.
  rewrite Pos2Z.inj_xO, IH. lia.
Qed.

(** [shl_align] to a smaller exponent scales the mantissa. *)
Lemma shl_align_down m e e' :
  e' <= e -> exists m', shl_align m e e' = (m', e') /\ Zpos m' = Zpos m * 2 ^ (e - e').
Proof.
  intros He. unfold shl_align. destruct (e' - e) as [|d|d] eqn:E; [|lia|].
  - exists m. replace (e - e') with 0 by lia. replace e' with e by lia. cbn. split; [done|lia].
  - exists (Pos.iter xO m d). split; [done|]. rewrite iter_xO. f_equal. f_equal. lia.
Qed.

(** ** The position of a quotient in its binade

    [at_loc A B K m r s]: the quotient [A/B], scaled by [2^K], lies at or
    above [m], at the place between [m] and [m + 1] that the round bit [r] and
    the sticky bit [s] say. *)
Definition at_loc (A B K m : Z) (r s : bool) : Prop :=
  let T := 2 * (A * 2 ^ K) in
  match r, s with
  | false, false => T = 2 * (m * B)
  | false, true => 2 * (m * B) < T < 2 * (m * B) + B
  | true, false => T = 2 * (m * B) + B
  | true, true => 2 * (m * B) + B < T < 2 * (m * B) + 2 * B
  end.

Lemma shr_1_at_loc A B K m r s :
  0 < B -> 0 <= K -> 0 <= m -> at_loc A B (K + 1) m r s ->
  let x := shr_1 (Build_shr_record m r s) in
  shr_m x = m / 2 /\ at_loc A B K (shr_m x) (shr_r x) (shr_s x).
Proof.
  intros HB HK Hm Hloc.
  assert (Hpow : 2 ^ (K + 1) = 2 * 2 ^ K) by (rewrite Z.pow_add_r by lia; lia).
  unfold at_loc in Hloc. cbv zeta in Hloc. rewrite Hpow in Hloc.
  replace (A * (2 * 2 ^ K)) with (2 * (A * 2 ^ K)) in Hloc by lia.
  destruct m as [|[p|p|]|p]; [| | | |lia]; cbn [shr_1 shr_m shr_r shr_s].
  - split; [done|]. unfold at_loc. cbv zeta. destruct r, s; cbn [orb] in *; lia.
  - split; [apply (Z.div_unique_pos _ 2 _ 1); lia|].
    replace (Zpos (xI p) * B) with (2 * (Zpos p * B) + B) in Hloc by lia.
    unfold at_loc. cbv zeta. destruct r, s; cbn [orb] in *; lia.
  - split; [apply (Z.div_unique_pos _ 2 _ 0); lia|].
    replace (Zpos (xO p) * B) with (2 * (Zpos p * B)) in Hloc by lia.
    unfold at_loc. cbv zeta. destruct r, s; cbn [orb] in *; lia.
  - split; [done|]. unfold at_loc. cbv zeta. destruct r, s; cbn [orb] in *; lia.
Qed.

Lemma iter_pos_comm {X : Type} (f : X -> X) p x : f (iter_pos f p x) = iter_pos f p (f x).
Proof. revert x. induction p as [p IH|p IH|]; intros x; cbn; by rewrite ?IH. Qed.

Lemma iter_pos_succ {X : Type} (f : X -> X) p x :
  iter_pos f (Pos.succ p) x = iter_pos f p (f x).
Proof.
  revert x. induction p as [p IH|p IH|]; intros x; [|done|done].
  change (Pos.succ p~1) with (xO (Pos.succ p)). cbn [iter_pos].
  by rewrite !IH, iter_pos_comm.
Qed.

Lemma shr_iter_at_loc A B n K mrs :
  0 < B -> Zpos n <= K -> 0 <= shr_m mrs -> at_loc A B K (shr_m mrs) (shr_r mrs) (shr_s mrs) ->
  let x := iter_pos shr_1 n mrs in
  shr_m x = shr_m mrs / 2 ^ Zpos n /\ at_loc A B (K - Zpos n) (shr_m x) (shr_r x) (shr_s x).
Proof.
  intros HB. revert K mrs. induction n as [|n IH] using Pos.peano_ind; intros K [m r s] HK Hm Hloc.
  - cbn [iter_pos]. replace K with (K - 1 + 1) in Hloc by lia.
    destruct (shr_1_at_loc A B (K - 1) m r s) as [E1 E2]; cbn in *; [lia..|done|].
    by rewrite E1 in *.
  - cbn [shr_m shr_r shr_s] in *. rewrite iter_pos_succ. cbv zeta.
    replace K with (K - 1 + 1) in Hloc by lia.
    destruct (shr_1_at_loc A B (K - 1) m r s) as [E1 E2]; [lia..|done|].
    destruct (IH (K - 1) (shr_1 (Build_shr_record m r s))) as [F1 F2];
      [lia|rewrite E1; apply Z.div_pos; lia|done|].
    split; [|by replace (K - Zpos (Pos.succ n)) with (K - 1 - Zpos n) by lia].
    rewrite F1, E1, Z.div_div, Pos2Z.inj_succ, Z.pow_succ_r by lia. done.
Qed.

(** ** Rounding *)

(** Rounding to nearest at a scale finer than one does not move a quotient
    across an integer: its distance to the next one is at least [1/B], and
    half a unit in the last place is less. *)
Lemma round_nearest_floor A B K m r s :
  0 < B -> 0 <= K -> 0 <= A < 2 ^ 53 -> 2 ^ 52 <= m -> at_loc A B K m r s ->
  let m' := round_nearest_even m (loc_of_shr_record (Build_shr_record m r s)) in
  m' / 2 ^ K = A / B /\ m <= m' <= m + 1.
Proof.
  intros HB HK HA Hm Hloc m'.
  set (P := 2 ^ K) in *. assert (HP : 0 < P) by (apply Z.pow_pos_nonneg; lia).
  set (n := A / B). assert (Hn : n * B <= A <= n * B + B - 1).
  { unfold n. pose proof (Z.div_mod A B). pose proof (Z.mod_pos_bound A B). lia. }
  assert (Hpos : m * B <= A * P < m * B + B) by (unfold at_loc in Hloc; destruct r, s; lia).
  assert (Hlo : n * P <= m).
  { assert (n * P * B < (m + 1) * B) by nia. assert (n * P < m + 1) by nia. lia. }
  assert (Hhi : m < (n + 1) * P) by nia.
  assert (Hm' : m' = m \/ (r = true /\ m' = m + 1)).
  { unfold m'. destruct r, s; cbn; auto. destruct (Z.even m); auto. }
  assert (Hcase : m <= m' <= m + 1 /\ m' < (n + 1) * P).
  { destruct Hm' as [->|[-> ->]]; [lia|]. split; [lia|].
    destruct (decide (m + 1 < (n + 1) * P)) as [|Hge]; [done|exfalso].
    assert (Hhalf : 2 * (m * B) + B <= 2 * (A * P))
      by (unfold at_loc in Hloc; destruct s; fold P in Hloc; lia).
    assert (HBP : 2 * P <= B) by nia. nia. }
  split; [|lia]. symmetry. apply (Z.div_unique_pos _ P n (m' - n * P)); lia.
Qed.

(** [floorZ] of a finite double with a scale at most one. *)
Lemma floorZ_finite m K :
  0 <= K -> floorZ (S754_finite false m (- K)) = Some (Zpos m / 2 ^ K).
Proof.
  intros HK. unfold floorZ, signed. destruct (0 <=? - K) eqn:E; b2p; f_equal.
  - replace K with 0 by lia. cbn. by rewrite Z.mul_1_r, Z.div_1_r.
  - by rewrite Z.opp_involutive.
Qed.

Lemma fexp_normal e : -1074 <= e - 53 -> fexp prec emax e = e - 53.
Proof. unfold fexp, emin, prec, emax. lia. Qed.

(** [shr_fexp] brings a mantissa of at least 53 digits to exactly 53, keeping
    the position of the quotient. *)
Lemma shr_fexp_at_loc A B K m l :
  let x := shr_record_of_loc m l in
  0 < B -> 0 <= K <= 1000 -> 2 ^ 52 <= m < 2 ^ (53 + K) ->
  at_loc A B K m (shr_r x) (shr_s x) ->
  exists m1 r1 s1 K1,
    shr_fexp prec emax m (- K) l = (Build_shr_record m1 r1 s1, - K1) /\
    0 <= K1 <= K /\ 2 ^ 52 <= m1 < 2 ^ 53 /\ m1 = m / 2 ^ (K - K1) /\ at_loc A B K1 m1 r1 s1.
Proof.
  intros x HB HK Hm Hloc. destruct m as [|p|p]; [cbn in Hm; lia| |lia].
  destruct (digits2_pos_bounds p) as [Hl Hu].
  set (d := Zpos (digits2_pos p)) in *.
  assert (Hd : 53 <= d <= 53 + K).
  { split.
    - destruct (decide (53 <= d)); [done|]. pose proof (Z.pow_le_mono_r 2 d 52). lia.
    - destruct (decide (d <= 53 + K)); [done|].
      pose proof (Z.pow_le_mono_r 2 (53 + K) (d - 1)). lia. }
  assert (Hx : shr_m x = Zpos p) by (unfold x; by destruct l as [|[]]).
  unfold shr_fexp, Zdigits2. fold d. fold x. rewrite fexp_normal by lia.
  replace (d + - K - 53 - - K) with (d - 53) by lia.
  destruct (d - 53) as [|n|n] eqn:En; [| |lia]; cbn [shr].
  - exists (Zpos p), (shr_r x), (shr_s x), K. split.
    { destruct x as [m' r' s']. cbn in *. by rewrite Hx. }
    replace d with 53 in * by lia. rewrite Z.sub_diag, Z.div_1_r. repeat split; try lia. done.
  - destruct (shr_iter_at_loc A B n K x) as [E1 E2]; [lia..|rewrite Hx; lia|by rewrite Hx|].
    rewrite Hx in E1. destruct (iter_pos shr_1 n x) as [m1 r1 s1] eqn:Ei. cbn in E1, E2.
    exists m1, r1, s1, (K - Zpos n). split; [f_equal; lia|].
    replace (K - (K - Zpos n)) with (Zpos n) by lia. repeat split; try lia; try done.
    all: rewrite E1.
    + apply Z.div_le_lower_bound; [lia|]. rewrite <- Z.pow_add_r by lia.
      replace (Zpos n + 52) with (d - 1) by lia. lia.
    + apply Z.div_lt_upper_bound; [lia|]. rewrite <- Z.pow_add_r by lia.
      replace (Zpos n + 53) with d by lia. lia.
Qed.

(** A mantissa in range is rounded no further; [2^53] becomes [2^52] one
    binade up. *)
Lemma shr_fexp_exact m K :
  0 <= K <= 1000 -> 2 ^ 52 <= m <= 2 ^ 53 ->
  exists p j, shr_fexp prec emax m (- K) loc_Exact = (Build_shr_record (Zpos p) false false, j - K) /\
    0 <= j <= 1 /\ m = Zpos p * 2 ^ j /\ (m < 2 ^ 53 -> j = 0).
Proof.
  intros HK Hm. destruct m as [|p|p]; [cbn in Hm; lia| |lia].
  destruct (decide (Zpos p < 2 ^ 53)) as [Hlt|Hge].
  - assert (Hd : Zpos (digits2_pos p) = 53) by (apply digits2_pos_unique; lia).
    unfold shr_fexp, Zdigits2. rewrite Hd, fexp_normal by lia.
    replace (53 + - K - 53 - - K) with 0 by lia. cbn [shr shr_record_of_loc].
    exists p, 0. split; [f_equal; lia|]. lia.
  - assert (Hp : p = Pos.pow 2 53) by lia. subst p.
    unfold shr_fexp. replace (Zdigits2 (Zpos (2 ^ 53))) with 54 by done.
    rewrite fexp_normal by lia. replace (54 + - K - 53 - - K) with 1 by lia. cbn [shr].
    exists (2 ^ 52)%positive, 1. split; [|lia]. f_equal. lia.
Qed.

Lemma binary_round_aux_floor A B K q l :
  let x := shr_record_of_loc q l in
  0 < B -> 0 <= A < 2 ^ 53 -> 0 <= K <= 1000 -> 2 ^ 52 <= q < 2 ^ (53 + K) ->
  at_loc A B K q (shr_r x) (shr_s x) ->
  floorZ (binary_round_aux prec emax false q (- K) l) = Some (A / B).
Proof.
  intros x HB HA HK Hq Hloc.
  destruct (shr_fexp_at_loc A B K q l HB HK Hq Hloc)
    as (m1 & r1 & s1 & K1 & E & HK1 & Hm1 & _ & Hloc1).
  unfold binary_round_aux. rewrite E. cbn [shr_m].
  destruct (round_nearest_floor A B K1 m1 r1 s1) as [Hfl Hr]; [lia..|done|].
  set (m2 := round_nearest_even m1 _) in *.
  destruct (shr_fexp_exact m2 K1) as (p & j & E2 & Hj & Hm2 & _); [lia..|].
  rewrite E2. cbn [shr_m]. replace (j - K1 <=? emax - prec) with true by (unfold emax, prec; lia).
  rewrite <- Hfl, Hm2. destruct (decide (j <= K1)).
  - replace (j - K1) with (- (K1 - j)) by lia. rewrite floorZ_finite by lia. f_equal.
    replace K1 with (j + (K1 - j)) at 2 by lia. rewrite Z.pow_add_r, (Z.mul_comm (2 ^ j)) by lia.
    rewrite Z.div_mul_cancel_r; [done|lia|]. assert (0 < 2 ^ j) by (apply Z.pow_pos_nonneg; lia). lia.
  - replace K1 with 0 by lia. replace j with 1 by lia. cbn. f_equal. by rewrite Z.div_1_r.
Qed.

(** ** Integers as doubles *)

(** The canonical form of an integer [z]: a 53-digit mantissa. *)
Definition is_canonical (z : Z) (x : double) : Prop :=
  exists m k, x = S754_finite false m (- k) /\ Zpos m = z * 2 ^ k /\
    2 ^ 52 <= Zpos m < 2 ^ 53 /\ 0 <= k.

Lemma is_canonical_unique z x y : is_canonical z x -> is_canonical z y -> x = y.
Proof.
  intros (m & k & -> & Hm & Hb & Hk) (m' & k' & -> & Hm' & Hb' & Hk').
  assert (Hle : forall k k', 0 <= k -> k < k' -> z * 2 ^ k' < 2 ^ 53 -> 2 ^ 52 <= z * 2 ^ k -> False).
  { intros a b Ha Hab H1 H2. replace b with (a + (b - a)) in H1 by lia.
    rewrite Z.pow_add_r in H1 by lia.
    pose proof (Z.pow_le_mono_r 2 1 (b - a)). nia. }
  assert (k = k').
  { destruct (Z.lt_trichotomy k k') as [|[|]]; [exfalso; eapply (Hle k k')|done|exfalso; eapply (Hle k' k)];
      lia. }
  subst k'. f_equal. lia.
Qed.

Lemma binary_round_aux_canonical z k m :
  0 < z < 2 ^ 53 -> 0 <= k <= 1000 -> m = z * 2 ^ k -> 2 ^ 52 <= m ->
  is_canonical z (binary_round_aux prec emax false m (- k) loc_Exact).
Proof.
  intros Hz Hk Hm Hlow.
  assert (Hup : m < 2 ^ (53 + k)).
  { rewrite Z.pow_add_r by lia. subst m. assert (0 < 2 ^ k) by (apply Z.pow_pos_nonneg; lia). nia. }
  destruct (shr_fexp_at_loc z 1 k m loc_Exact)
    as (m1 & r1 & s1 & K1 & E & HK1 & Hm1 & Hq & Hloc); [lia..|cbn; lia|].
  assert (Hex : m1 = z * 2 ^ K1).
  { rewrite Hq, Hm. replace k with (K1 + (k - K1)) at 1 by lia.
    rewrite Z.pow_add_r, Z.mul_assoc, Z.div_mul by lia. done. }
  unfold at_loc in Hloc. rewrite Hex, Z.mul_1_r in Hloc.
  destruct r1, s1; [lia..|]. clear Hloc.
  unfold binary_round_aux. rewrite E. cbn [shr_m loc_of_shr_record round_nearest_even].
  destruct (shr_fexp_exact m1 K1) as (p & j & E2 & Hj & Hm2 & Hj0); [lia..|].
  rewrite Hj0 in E2, Hm2 by lia. rewrite E2. cbn [shr_m].
  replace (0 - K1 <=? emax - prec) with true by (unfold emax, prec; lia).
  exists p, K1. repeat split; [f_equal; lia|lia..].
Qed.

Lemma binary_normalize_canonical z K :
  0 < z < 2 ^ 53 -> 0 <= K <= 100 ->
  is_canonical z (binary_normalize prec emax (z * 2 ^ K) (- K) false).
Proof.
  intros Hz HK. assert (HP : 0 < 2 ^ K) by (apply Z.pow_pos_nonneg; lia).
  assert (Hpos : 0 < z * 2 ^ K) by nia.
  destruct (z * 2 ^ K) as [|p|p] eqn:Ep; [lia| |lia]. cbn [binary_normalize]. unfold binary_round.
  destruct (digits2_pos_bounds p) as [Hl Hu]. set (d := Zpos (digits2_pos p)) in *.
  assert (Hd : d <= 53 + K).
  { destruct (decide (d <= 53 + K)); [done|]. pose proof (Z.pow_le_mono_r 2 (53 + K) (d - 1)).
    rewrite Z.pow_add_r in H by lia. nia. }
  rewrite fexp_normal by lia. destruct (decide (d <= 53)) as [Hsmall|Hbig].
  - destruct (shl_align_down p (- K) (d + - K - 53)) as (m & E & Hm); [lia|]. rewrite E.
    replace (d + - K - 53) with (- (K + (53 - d))) by lia.
    replace (- K - (d + - K - 53)) with (53 - d) in Hm by lia.
    apply binary_round_aux_canonical; [done|lia| |].
    + rewrite Hm, <- Ep, Z.pow_add_r by lia. lia.
    + rewrite Hm. replace (2 ^ 52) with (2 ^ (d - 1) * 2 ^ (53 - d)) by (rewrite <- Z.pow_add_r; f_equal; lia).
      apply Z.mul_le_mono_nonneg_r; [|done]. lia.
  - unfold shl_align. replace (d + - K - 53 - - K) with (d - 53) by lia.
    destruct (d - 53) as [|n|n] eqn:En; [lia| |lia].
    apply binary_round_aux_canonical; [done|lia|done|].
    pose proof (Z.pow_le_mono_r 2 52 (d - 1)). lia.
Qed.

Lemma d_of_Z_canonical z : 0 < z < 2 ^ 53 -> is_canonical z (d_of_Z z).
Proof.
  intros Hz. pose proof (binary_normalize_canonical z 0 Hz ltac:(lia)) as H.
  cbn [Z.opp] in H. rewrite Z.mul_1_r in H. exact H.
Qed.

(** The exponent of an integer below [2^53] is between [-52] and [0]. *)
Lemma is_canonical_exponent z m k :
  0 < z -> Zpos m = z * 2 ^ k -> Zpos m < 2 ^ 53 -> 0 <= k -> k <= 52.
Proof.
  intros Hz Hm Hb Hk. destruct (decide (k <= 52)); [done|].
  pose proof (Z.pow_le_mono_r 2 53 k). nia.
Qed.

(** ** Exact operations *)

Lemma dadd_exact x y : 0 <= x -> 0 <= y -> x + y < 2 ^ 53 -> dadd (d_of_Z x) (d_of_Z y) = d_of_Z (x + y).
Proof.
  intros Hx Hy Hxy.
  destruct (decide (x = 0)) as [->|Hx0]; destruct (decide (y = 0)) as [->|Hy0]; [reflexivity| | |].
  - rewrite Z.add_0_l. destruct (d_of_Z_canonical y) as (m & k & -> & _); [lia|]. reflexivity.
  - rewrite Z.add_0_r. destruct (d_of_Z_canonical x) as (m & k & -> & _); [lia|]. reflexivity.
  - destruct (d_of_Z_canonical x) as (m & k & -> & Hm & Hmb & Hk); [lia|].
    destruct (d_of_Z_canonical y) as (m' & k' & -> & Hm' & Hmb' & Hk'); [lia|].
    apply is_canonical_exponent in Hm as Hk1; [|lia..].
    apply is_canonical_exponent in Hm' as Hk2; [|lia..].
    apply (is_canonical_unique (x + y)); [|apply d_of_Z_canonical; lia].
    unfold dadd, SFadd. cbv zeta.
    replace (Z.min (- k) (- k')) with (- Z.max k k') by lia. set (K := Z.max k k').
    destruct (shl_align_down m (- k) (- K)) as (n & -> & Hn); [lia|].
    destruct (shl_align_down m' (- k') (- K)) as (n' & -> & Hn'); [lia|].
    cbn [fst cond_Zopp].
    replace (Zpos n + Zpos n') with ((x + y) * 2 ^ K);
      [apply binary_normalize_canonical; lia|].
    rewrite Hn, Hn', Hm, Hm', <- !Z.mul_assoc, <- !Z.pow_add_r by lia.
    replace (k + (- k - - K)) with K by lia. replace (k' + (- k' - - K)) with K by lia. lia.
Qed.

(** The quotient's mantissa and remainder in [SFdiv_core_binary]. *)
Lemma new_location_at_loc A B K q r nb c :
  0 < B -> 0 < c -> nb = B * c -> r = (A * 2 ^ K - q * B) * c -> 0 <= r < nb ->
  let x := shr_record_of_loc q (new_location nb r) in
  at_loc A B K q (shr_r x) (shr_s x).
Proof.
  intros HB Hc Hnb Hr Hrange. set (t := A * 2 ^ K - q * B) in *.
  assert (Ht : 0 <= t < B) by nia.
  assert (Hcmp : Z.compare (2 * r) nb = Z.compare (2 * t) B).
  { subst nb r. replace (2 * (t * c)) with (c * (2 * t)) by lia. rewrite (Z.mul_comm B).
    symmetry. apply Zmult_compare_compat_l. lia. }
  assert (Hz : (r =? 0) = (t =? 0)).
  { destruct (Z.eqb_spec t 0) as [->|]; subst r; [by rewrite Z.mul_0_l|]. apply Z.eqb_neq. nia. }
  unfold at_loc, new_location. cbv zeta.
  destruct (Z.even nb) eqn:Ev; unfold new_location_even, new_location_odd; rewrite Hz;
    destruct (Z.eqb_spec t 0); cbn [shr_record_of_loc shr_r shr_s]; [lia| |lia|].
  - rewrite Hcmp. destruct (Z.compare_spec (2 * t) B); cbn; lia.
  - assert (Hodd : Z.compare (2 * r) nb <> Eq).
    { intros E. apply Z.compare_eq in E. rewrite <- E, Z.even_mul in Ev. done. }
    destruct (Z.compare_spec (2 * r + 1) nb); cbn.
    all: destruct (Z.compare_spec (2 * t) B); rewrite Hcmp in Hodd; try done.
    all: try (assert (Z.compare (2 * r) nb = Gt) by (rewrite Hcmp; by apply Z.compare_gt_iff)).
    all: try (assert (Z.compare (2 * r) nb = Lt) by (rewrite Hcmp; by apply Z.compare_lt_iff)).
    all: rewrite ?Z.compare_gt_iff, ?Z.compare_lt_iff in *; lia.
Qed.

Lemma ddiv_floor_exact x p :
  0 <= x < 2 ^ 53 -> 0 < p < 2 ^ 53 -> floorZ (ddiv (d_of_Z x) (d_of_Z p)) = Some (x / p).
Proof.
  intros Hx Hp.
  destruct (d_of_Z_canonical p) as (m' & k' & -> & Hm' & Hmb' & Hk'); [lia|].
  destruct (decide (x = 0)) as [->|]; [reflexivity|].
  destruct (d_of_Z_canonical x) as (m & k & -> & Hm & Hmb & Hk); [lia|].
  apply is_canonical_exponent in Hm as Hk1; [|lia..].
  apply is_canonical_exponent in Hm' as Hk2; [|lia..].
  unfold ddiv, SFdiv, SFdiv_core_binary, Zdigits2.
  rewrite (digits2_pos_unique m 53), (digits2_pos_unique m' 53) by lia.
  rewrite fexp_normal by lia.
  set (e' := Z.min (53 + - k - (53 + - k') - 53) (- k - - k')).
  set (K := - e'). assert (HK : K = Z.max (53 + k - k') (k - k')) by lia.
  assert (HKr : K = 53 + k - k' /\ 1 <= K <= 105) by lia.
  replace (- k - - k' - e') with 53 by lia. cbv iota.
  rewrite Z.shiftl_mul_pow2 by lia.
  pose proof (Z_div_mod (Zpos m * 2 ^ 53) (Zpos m') ltac:(lia)) as Hdm.
  destruct (Z.div_eucl (Zpos m * 2 ^ 53) (Zpos m')) as [q r].
  destruct Hdm as [Hdm Hr]. replace e' with (- K) by lia.
  assert (HP : 0 < 2 ^ K) by (apply Z.pow_pos_nonneg; lia).
  assert (Hc : 0 < 2 ^ k') by (apply Z.pow_pos_nonneg; lia).
  assert (Hr' : r = (x * 2 ^ K - q * p) * 2 ^ k').
  { assert (Hxk : Zpos m * 2 ^ 53 = x * 2 ^ K * 2 ^ k').
    { rewrite Hm, <- !Z.mul_assoc, <- !Z.pow_add_r by lia. do 2 f_equal. lia. }
    rewrite Hm' in Hdm. lia. }
  apply (binary_round_aux_floor x p); [lia..| |].
  - split; [nia|]. rewrite Z.pow_add_r by lia.
    assert (q * p <= x * 2 ^ K) by nia. nia.
  - apply (new_location_at_loc x p K q r (Zpos m') (2 ^ k')); [lia..|done|lia].
Qed.

(** Products of non-negative integers are exact below [2^53]. *)
Lemma dmul_exact x y :
  0 <= x < 2 ^ 53 -> 0 <= y < 2 ^ 53 -> x * y < 2 ^ 53 -> dmul (d_of_Z x) (d_of_Z y) = d_of_Z (x * y).
Proof.
  intros Hx Hy Hxy.
  destruct (decide (x = 0)) as [->|Hx0].
  { destruct (decide (y = 0)) as [->|Hy0]; [reflexivity|].
    destruct (d_of_Z_canonical y) as (m & k & -> & _); [lia|]. reflexivity. }
  destruct (decide (y = 0)) as [->|Hy0].
  { rewrite Z.mul_0_r. destruct (d_of_Z_canonical x) as (m & k & -> & _); [lia|]. reflexivity. }
  apply (is_canonical_unique (x * y)); [|apply d_of_Z_canonical; nia].
  destruct (d_of_Z_canonical x) as (m & k & -> & Hm & Hmb & Hk); [lia|].
  destruct (d_of_Z_canonical y) as (m' & k' & -> & Hm' & Hmb' & Hk'); [lia|].
  apply is_canonical_exponent in Hm as Hk1; [|lia..].
  apply is_canonical_exponent in Hm' as Hk1'; [|lia..].
  unfold dmul, SFmul. cbn [xorb]. replace (- k + - k') with (- (k + k')) by lia.
  apply binary_round_aux_canonical; [nia|lia| |]; rewrite Pos2Z.inj_mul.
  - rewrite Hm, Hm', Z.pow_add_r by lia. lia.
  - nia.
Qed.

Lemma dmul_one_exact z : 0 < z < 2 ^ 53 -> dmul (d_of_Z z) d1 = d_of_Z z.
Proof. intros Hz. unfold d1. rewrite (dmul_exact z 1) by lia. by rewrite Z.mul_1_r. Qed.

Lemma dmul_one_exact_l z : 0 < z < 2 ^ 53 -> dmul d1 (d_of_Z z) = d_of_Z z.
Proof. intros Hz. unfold d1. rewrite (dmul_exact 1 z) by lia. by rewrite Z.mul_1_l. Qed.

Lemma ddiv_self_exact z : 0 < z < 2 ^ 53 -> ddiv (d_of_Z z) (d_of_Z z) = d1.
Proof.
  intros Hz. destruct (d_of_Z_canonical z) as (m & k & -> & Hm & Hmb & Hk); [lia|].
  apply (is_canonical_unique 1); [|apply d_of_Z_canonical; lia].
  apply is_canonical_exponent in Hm as Hk1; [|lia..].
  unfold ddiv, SFdiv, SFdiv_core_binary, Zdigits2. rewrite (digits2_pos_unique m 53) by lia.
  rewrite fexp_normal by lia. cbn [xorb].
  replace (Z.min _ _) with (-53) by lia. replace (- k - - k - -53) with 53 by lia. cbv iota.
  rewrite Z.shiftl_mul_pow2 by lia.
  pose proof (Z_div_mod (Zpos m * 2 ^ 53) (Zpos m) ltac:(lia)) as Hdm.
  destruct (Z.div_eucl (Zpos m * 2 ^ 53) (Zpos m)) as [q r]. destruct Hdm as [Hdm Hr].
  assert (Hq : q = 2 ^ 53) by nia. assert (Hr0 : r = 0) by nia. subst q r.
  replace (new_location (Zpos m) 0) with loc_Exact
    by (unfold new_location, new_location_even, new_location_odd; by destruct (Z.even _)).
  change (-53) with (- (53)). apply binary_round_aux_canonical; lia.
Qed.

(** A quotient of positive integers is not below zero. *)
Lemma ddiv_not_negative x y :
  0 < x < 2 ^ 53 -> 0 < y < 2 ^ 53 -> dltb (ddiv (d_of_Z x) (d_of_Z y)) (S754_zero false) = false.
Proof.
  intros Hx Hy. destruct (d_of_Z_canonical x) as (m & k & -> & _); [lia|].
  destruct (d_of_Z_canonical y) as (m' & k' & -> & _); [lia|].
  unfold dltb, ddiv, SFdiv.
  destruct (SFdiv_core_binary _ _ _ _ _ _) as [[q e''] l]. cbn [xorb].
  unfold binary_round_aux. destruct (shr_fexp _ _ q _ _) as [mrs e1].
  destruct (shr_fexp _ _ _ e1 _) as [mrs2 e2]. destruct (shr_m mrs2); [done| |done].
  by destruct (e2 <=? emax - prec).
Qed.
