(* ===== verification/Text.v ===== *)
(** * Strings as the sources use them

    The operations of [std::string] the engine's code calls, and the interface
    to the string functions of Abseil, a library outside the repository: the
    class [AbslStrings] has the functions the code calls, [AbslHexLaws] what is
    documented of two of them, and [absl_documented] is an instance written
    from the documentation, which shows that the laws can hold and lets the
    executions shown in the development run. Strings are Rocq [string]s, a
    character being a byte. *)

From Stdlib Require Export Ascii.
From S2P Require Import Prelude.

(** ** Characters *)

Definition code (c : ascii) : Z := Z.of_N (N_of_ascii c).

Definition is_digit (c : ascii) : bool := (48 <=? code c) && (code c <=? 57).

Definition is_upper (c : ascii) : bool := (65 <=? code c) && (code c <=? 90).

Definition is_lower (c : ascii) : bool := (97 <=? code c) && (code c <=? 122).

Definition ascii_tolower (c : ascii) : ascii :=
  if is_upper c then ascii_of_N (N_of_ascii c + 32) else c.

(** White space: tab, newline, vertical tab, form feed, carriage
    return and space. *)
Definition ascii_isspace (c : ascii) : bool :=
  ((9 <=? code c) && (code c <=? 13)) || (code c =? 32).

(** ** Strings *)

Fixpoint smap (f : ascii -> ascii) (s : string) : string :=
  match s with EmptyString => EmptyString | String c s => String (f c) (smap f s) end.

Definition lower_case (s : string) : string := smap ascii_tolower s.

Fixpoint sdrop (n : nat) (s : string) : string :=
  match n, s with
  | O, _ => s
  | S n, String _ s => sdrop n s
  | S _, EmptyString => EmptyString
  end.

Fixpoint stake (n : nat) (s : string) : string :=
  match n, s with
  | O, _ => EmptyString
  | S n, String c s => String c (stake n s)
  | S _, EmptyString => EmptyString
  end.

Fixpoint strip_leading (s : string) : string :=
  match s with
  | String c s' => if ascii_isspace c then strip_leading s' else s
  | EmptyString => EmptyString
  end.

Fixpoint strip_trailing (s : string) : string :=
  match s with
  | EmptyString => EmptyString
  | String c s =>
      match strip_trailing s with
      | EmptyString => if ascii_isspace c then EmptyString else String c EmptyString
      | s' => String c s'
      end
  end.

(** White space taken off both ends. *)
Definition strip_space (s : string) : string := strip_trailing (strip_leading s).

(** ** Integers *)

(** The digits of [s], all of it, on top of [acc]. *)
Fixpoint digits (acc : Z) (s : string) : option Z :=
  match s with
  | EmptyString => Some acc
  | String c s => if is_digit c then digits (10 * acc + (code c - 48)) s else None
  end.

(** A strict parser for an integer type with the given range: white space
    around, one optional sign, one or more digits, no overflow. A type without
    negative values refuses the minus sign. *)
Definition strict_atoi (min max : Z) (s : string) : option Z :=
  let in_range v := if (min <=? v) && (v <=? max) then Some v else None in
  match strip_space s with
  | EmptyString => None
  | String c t =>
      if Ascii.eqb c "-"%char then
        if min =? 0 then None
        else match t with
             | EmptyString => None
             | _ => match digits 0 t with Some v => in_range (- v) | None => None end
             end
      else
        let t := if Ascii.eqb c "+"%char then t else String c t in
        match t with
        | EmptyString => None
        | _ => match digits 0 t with Some v => in_range v | None => None end
        end
  end.

(** The leading digits of [s] on top of [acc], and whether there was one. *)
Fixpoint leading_digits (acc : Z) (s : string) : Z * bool :=
  match s with
  | String c s =>
      if is_digit c then (fst (leading_digits (10 * acc + (code c - 48)) s), true) else (acc, false)
  | EmptyString => (acc, false)
  end.

(** [std::stoi]: leading white space and what follows the number are ignored;
    no number, or one out of range, throws. *)
Definition stoi (s : string) : option Z :=
  let s := strip_leading s in
  let '(neg, s) :=
    match s with
    | String c t =>
        if Ascii.eqb c "-"%char then (true, t) else if Ascii.eqb c "+"%char then (false, t) else (false, s)
    | EmptyString => (false, s)
    end in
  let '(v, any) := leading_digits 0 s in
  let v := if neg then - v else v in
  if any && (- 2 ^ 31 <=? v) && (v <? 2 ^ 31) then Some v else None.

(** ** Lemmas *)

Lemma sapp_nil s : EmptyString +:+ s = s.
Proof. reflexivity. Qed.

Lemma sapp_cons c s t : String c s +:+ t = String c (s +:+ t).
Proof. reflexivity. Qed.

Lemma sapp_nil_r s : s +:+ EmptyString = s.
Proof. induction s as [|c s IH]; [done|]. by rewrite sapp_cons, IH. Qed.

Lemma sapp_assoc s t u : (s +:+ t) +:+ u = s +:+ (t +:+ u).
Proof. induction s as [|c s IH]; [done|]. by rewrite !sapp_cons, IH. Qed.

Create Rewrite HintDb text.

#[export] Hint Rewrite sapp_nil sapp_cons sapp_nil_r sapp_assoc : text.

Lemma stake_sdrop n s : stake n s +:+ sdrop n s = s.
Proof. revert s. induction n as [|n IH]; intros [|c s]; cbn; [done..|]. by rewrite sapp_cons, IH. Qed.

(** ** Hexadecimal *)

(** The value of a hexadecimal digit. *)
Definition hex_value (c : ascii) : option Z :=
  if is_digit c then Some (code c - 48)
  else
    let l := code (ascii_tolower c) in
    if (97 <=? l) && (l <=? 102) then Some (l - 87) else None.

Definition hex_char (v : Z) : ascii :=
  ascii_of_N (Z.to_N (if v <? 10 then 48 + v else 87 + v)).

Fixpoint hex_digits (acc : Z) (s : string) : option Z :=
  match s with
  | EmptyString => Some acc
  | String c s => match hex_value c with Some v => hex_digits (16 * acc + v) s | None => None end
  end.

(** The [n] lowest hexadecimal digits of [v], the highest first. *)
Fixpoint hex_string (n : nat) (v : Z) : string :=
  match n with
  | O => EmptyString
  | S n => hex_string n (v / 16) +:+ String (hex_char (v mod 16)) EmptyString
  end.

(** White space around, an optional plus sign and an optional 0x, one or more
    digits, no overflow of 64 bits. *)
Definition strict_hex (s : string) : option Z :=
  let no_sign := match strip_space s with
                 | String c t => if Ascii.eqb c "+"%char then t else String c t
                 | EmptyString => EmptyString
                 end in
  let digits := match no_sign with
                | String c (String d t) =>
                    if Ascii.eqb c "0"%char && Ascii.eqb (ascii_tolower d) "x"%char then t else no_sign
                | t => t
                end in
  match digits with
  | EmptyString => None
  | _ => match hex_digits 0 digits with
         | Some v => if v <=? UINT64_MAX then Some v else None
         | None => None
         end
  end.

(** ** Abseil *)

(** [absl::SimpleAtoi] for [uint64_t] and [int64_t], [absl::AsciiStrToLower],
    [absl::SimpleHexAtoi] for [uint64_t], and [absl::StrFormat] with ["%016x"]. *)
Class AbslStrings : Type := {
  atoi_u64 : string -> option Z;
  atoi_i64 : string -> option Z;
  AsciiStrToLower : string -> string;
  SimpleHexAtoi : string -> option Z;
  StrFormat_016x : Z -> string;
}.

(** A 64-bit number is formatted in sixteen digits, which are parsed to it. *)
Class AbslHexLaws (H : AbslStrings) : Prop := {
  format_016x_length v : in_u64 v -> String.length (StrFormat_016x v) = 16%nat;
  format_016x_parsed v : in_u64 v -> SimpleHexAtoi (StrFormat_016x v) = Some v;
}.

Definition absl_documented : AbslStrings := {|
  atoi_u64 := strict_atoi 0 UINT64_MAX;
  atoi_i64 := strict_atoi (- 2 ^ 63) INT64_MAX;
  AsciiStrToLower := lower_case;
  SimpleHexAtoi := strict_hex;
  StrFormat_016x := hex_string 16;
|}.

(** *** The laws hold of the documented functions *)

Fixpoint all_chars (P : ascii -> Prop) (s : string) : Prop :=
  match s with EmptyString => True | String c s => P c /\ all_chars P s end.

Lemma all_chars_app P s t : all_chars P (s +:+ t) <-> all_chars P s /\ all_chars P t.
Proof. induction s as [|c s IH]; [by cbn; tauto|]. rewrite sapp_cons. cbn [all_chars]. tauto. Qed.

Lemma all_chars_impl (P Q : ascii -> Prop) s : (forall c, P c -> Q c) -> all_chars P s -> all_chars Q s.
Proof. intros Hpq. induction s as [|c s IH]; cbn; [done|]. intros [Hc Hs]. auto. Qed.

Lemma strip_space_none s : all_chars (fun c => ascii_isspace c = false) s -> strip_space s = s.
Proof.
  intros H. unfold strip_space.
  assert (strip_leading s = s) as -> by (destruct s as [|c s]; cbn in *; [done|]; by destruct H as [-> _]).
  induction s as [|c s IH]; [done|]. destruct H as [Hc H]. cbn. rewrite IH by done.
  destruct s; [by rewrite Hc|done].
Qed.

Lemma hex_digit_cases v :
  0 <= v < 16 ->
  hex_value (hex_char v) = Some v /\ ascii_isspace (hex_char v) = false /\
  Ascii.eqb (hex_char v) "+"%char = false /\ Ascii.eqb (ascii_tolower (hex_char v)) "x"%char = false.
Proof.
  intros H.
  assert (v = 0 \/ v = 1 \/ v = 2 \/ v = 3 \/ v = 4 \/ v = 5 \/ v = 6 \/ v = 7 \/ v = 8 \/ v = 9 \/
          v = 10 \/ v = 11 \/ v = 12 \/ v = 13 \/ v = 14 \/ v = 15) as Hv by lia.
  repeat destruct Hv as [-> | Hv]; try (split_and!; reflexivity). subst. split_and!; reflexivity.
Qed.

Definition hex_digit (c : ascii) : Prop := exists v, 0 <= v < 16 /\ c = hex_char v.

Lemma hex_string_digits n v : all_chars hex_digit (hex_string n v).
Proof.
  revert v. induction n as [|n IH]; intros v; cbn [hex_string]; [done|]. apply all_chars_app.
  split; [apply IH|]. split; [|done]. exists (v mod 16). split; [apply Z.mod_pos_bound; lia|done].
Qed.

Lemma slength_app s t : String.length (s +:+ t) = (String.length s + String.length t)%nat.
Proof. induction s as [|c s IH]; [done|]. rewrite sapp_cons. cbn [String.length]. lia. Qed.

Lemma hex_string_length n v : String.length (hex_string n v) = n.
Proof.
  revert v. induction n as [|n IH]; intros v; [done|]. cbn [hex_string].
  rewrite slength_app, IH. cbn. lia.
Qed.

Lemma hex_digits_app acc s t :
  hex_digits acc (s +:+ t) = hex_digits acc s ≫= (fun v => hex_digits v t).
Proof.
  revert acc. induction s as [|c s IH]; intros acc; [done|]. rewrite sapp_cons. cbn [hex_digits].
  destruct (hex_value c); [apply IH|done].
Qed.

Lemma hex_digits_string n acc v :
  hex_digits acc (hex_string n v) = Some (acc * 16 ^ Z.of_nat n + v mod 16 ^ Z.of_nat n).
Proof.
  revert v. induction n as [|n IH]; intros v.
  - cbn. rewrite Z.mod_1_r. f_equal. lia.
  - cbn [hex_string]. rewrite hex_digits_app, IH. cbn.
    destruct (hex_digit_cases (v mod 16)) as (-> & _); [apply Z.mod_pos_bound; lia|]. f_equal.
    rewrite Nat2Z.inj_succ, Z.pow_succ_r, (Z.rem_mul_r v 16) by lia. lia.
Qed.

Lemma strict_hex_digits s v :
  all_chars hex_digit s -> s <> EmptyString -> hex_digits 0 s = Some v -> v <= UINT64_MAX ->
  strict_hex s = Some v.
Proof.
  intros Hs Hne Hv Hm. unfold strict_hex. rewrite strip_space_none.
  2: { clear - Hs. induction s as [|c s IH]; [done|]. destruct Hs as [(d & Hd & ->) Hs].
       split; [apply hex_digit_cases, Hd|auto]. }
  destruct s as [|c s]; [done|]. destruct Hs as [(d & Hd & ->) Hs].
  destruct (hex_digit_cases d Hd) as (_ & _ & -> & _). cbn zeta.
  destruct s as [|c2 s]; [|destruct Hs as [(d2 & Hd2 & ->) _];
    destruct (hex_digit_cases d2 Hd2) as (_ & _ & _ & ->); rewrite andb_false_r];
    rewrite Hv; by rewrite (proj2 (Z.leb_le _ _) Hm).
Qed.

#[export] Instance absl_documented_hex : AbslHexLaws absl_documented.
Proof.
  split; intros v Hv; cbn [StrFormat_016x SimpleHexAtoi absl_documented].
  - apply hex_string_length.
  - unfold in_u64 in Hv. apply strict_hex_digits; [apply hex_string_digits|done| |unfold UINT64_MAX; lia].
    rewrite hex_digits_string. f_equal. rewrite Z.mod_small; lia.
Qed.

Lemma stake_app s t : stake (String.length s) (s +:+ t) = s.
Proof.
  induction s as [|c s IH]; [by destruct t|]. rewrite sapp_cons. cbn [String.length stake].
  by rewrite IH.
Qed.

Lemma sdrop_app s t : sdrop (String.length s) (s +:+ t) = t.
Proof. induction s as [|c s IH]; [by destruct t|]. rewrite sapp_cons. apply IH. Qed.

(** ** Matching and splitting

    The other string functions of Abseil the engine uses: comparison without
    case, splitting at a character, white space and prefixes taken off, search
    and replacement of one substring. *)

Class AbslMatch : Type := {
  EqualsIgnoreCase : string -> string -> bool;
  StartsWith : string -> string -> bool;
  StartsWithIgnoreCase : string -> string -> bool;
  StripPrefix : string -> string -> string;
  StripAsciiWhitespace : string -> string;
  StrSplit : ascii -> string -> list string;
  StrContains : string -> string -> bool;
  StrReplaceAll : string -> string -> string -> string;
  absl_ascii_tolower : ascii -> ascii;
}.

(** Strings with a separator between them. *)
Fixpoint sjoin (sep : string) (l : list string) : string :=
  match l with
  | [] => EmptyString
  | [s] => s
  | s :: l => s +:+ sep +:+ sjoin sep l
  end.

(** [t] occurs in [s]. *)
Definition occurs (t s : string) : Prop := exists u v, s = u +:+ t +:+ v.

Class AbslMatchLaws {A : AbslMatch} : Prop := {
  equals_refl s : EqualsIgnoreCase s s = true;
  split_whole c s : all_chars (fun d => d <> c) s -> StrSplit c s = [s];
  strip_none s : all_chars (fun c => ascii_isspace c = false) s -> StripAsciiWhitespace s = s;
  contains_occurs s t : StrContains s t = true <-> occurs t s;
  replace_pieces from to s : from <> EmptyString ->
    exists pieces, s = sjoin from pieces /\ StrReplaceAll from to s = sjoin to pieces /\
      Forall (fun p => ~ occurs from p) pieces;
  tolower_documented c : absl_ascii_tolower c = ascii_tolower c;
}.

Fixpoint split_at (c : ascii) (s : string) : list string :=
  match s with
  | EmptyString => [EmptyString]
  | String d s =>
      match split_at c s with
      | w :: ws => if Ascii.eqb c d then EmptyString :: w :: ws else String d w :: ws
      | [] => []
      end
  end.

(** Whether [s] begins with [t]. *)
Fixpoint sprefix (t s : string) : bool :=
  match t, s with
  | EmptyString, _ => true
  | String c t, String d s => Ascii.eqb c d && sprefix t s
  | String _ _, EmptyString => false
  end.

Fixpoint scontains (s t : string) : bool :=
  sprefix t s || match s with EmptyString => false | String _ s => scontains s t end.

(** The pieces of [s] around the occurrences of [from], found from the left
    without overlap; [cur] is the piece being read, [skip] the characters of an
    occurrence still to pass. *)
Fixpoint cut_at (from : string) (skip : nat) (cur s : string) : list string :=
  match s with
  | EmptyString => [cur]
  | String c s' =>
      match skip with
      | S skip => cut_at from skip cur s'
      | O =>
          if sprefix from s then cur :: cut_at from (String.length from - 1) EmptyString s'
          else cut_at from 0 (cur +:+ String c EmptyString) s'
      end
  end.

Definition absl_match_documented : AbslMatch := {|
  EqualsIgnoreCase a b := (lower_case a =? lower_case b)%string;
  StartsWith s t := sprefix t s;
  StartsWithIgnoreCase s t := sprefix (lower_case t) (lower_case s);
  StripPrefix s t := if sprefix t s then sdrop (String.length t) s else s;
  StripAsciiWhitespace := strip_space;
  StrSplit := split_at;
  StrContains := scontains;
  StrReplaceAll from to s := sjoin to (cut_at from 0 EmptyString s);
  absl_ascii_tolower := ascii_tolower;
|}.

(** *** The laws hold of the documented functions *)

Lemma sprefix_spec t s : sprefix t s = true <-> exists v, s = t +:+ v.
Proof.
  revert s. induction t as [|c t IH]; intros s; cbn [sprefix].
  { split; [intros _; by exists s|done]. }
  destruct s as [|d s]; cbn [sprefix].
  { split; [done|]. intros [v Hv]. rewrite sapp_cons in Hv. discriminate. }
  rewrite andb_true_iff, Ascii.eqb_eq, IH. split.
  - intros [-> [v ->]]. exists v. by rewrite sapp_cons.
  - intros [v Hv]. rewrite sapp_cons in Hv. injection Hv as -> ->. eauto.
Qed.

Lemma scontains_spec s t : scontains s t = true <-> occurs t s.
Proof.
  induction s as [|c s IH]; cbn [scontains]; rewrite orb_true_iff, sprefix_spec; [|rewrite IH].
  - split; [|].
    + intros [[v Hv]|]; [|done]. exists EmptyString, v. by rewrite sapp_nil.
    + intros (u & v & Hu). left. destruct u as [|d u]; [|by rewrite sapp_cons in Hu].
      exists v. by rewrite Hu, sapp_nil.
  - split.
    + intros [[v ->]|(u & v & ->)]; [exists EmptyString, v|exists (String c u), v]; by rewrite ?sapp_nil, ?sapp_cons.
    + intros (u & v & Hu). destruct u as [|d u].
      * left. exists v. by rewrite Hu, sapp_nil.
      * right. rewrite sapp_cons in Hu. injection Hu as -> ->. by exists u, v.
Qed.

Lemma sprefix_drop t s : sprefix t s = true -> s = t +:+ sdrop (String.length t) s.
Proof. intros [v ->]%sprefix_spec. by rewrite sdrop_app. Qed.

Lemma cut_at_skip from n cur s :
  (n <= String.length s)%nat -> cut_at from n cur s = cut_at from 0 cur (sdrop n s).
Proof.
  revert s. induction n as [|n IH]; intros s Hn; [by destruct s|].
  destruct s as [|c s]; cbn in *; [lia|]. apply IH. lia.
Qed.

Lemma sjoin_cons sep s l : l <> [] -> sjoin sep (s :: l) = s +:+ sep +:+ sjoin sep l.
Proof. by destruct l. Qed.

Lemma cut_at_nonempty from n cur s : cut_at from n cur s <> [].
Proof.
  revert n cur. induction s as [|c s IH]; intros n cur; cbn [cut_at]; [done|].
  destruct n; [destruct (sprefix _ _)|]; done || apply IH.
Qed.

(** No occurrence of [from] in [cur] followed by [s] begins inside [cur]. *)
Definition cut_ok (from cur s : string) : Prop :=
  forall a b, cur = a +:+ b -> b <> EmptyString -> sprefix from (b +:+ s) = false.

Lemma cut_ok_piece from cur s : from <> EmptyString -> cut_ok from cur s -> ~ occurs from cur.
Proof.
  intros Hf Hok (u & v & E). assert (from +:+ v <> EmptyString) as Hne by (by destruct from).
  specialize (Hok u (from +:+ v) E Hne). apply not_true_iff_false in Hok. apply Hok, sprefix_spec.
  exists (v +:+ s). by rewrite sapp_assoc.
Qed.

Lemma cut_ok_step from cur c s :
  sprefix from (String c s) = false -> cut_ok from cur (String c s) ->
  cut_ok from (cur +:+ String c EmptyString) s.
Proof.
  intros Hp Hok a b E Hb.
  assert (exists b', b = b' +:+ String c EmptyString /\ cur = a +:+ b') as (b' & -> & ->).
  { revert a b E Hb. clear. induction cur as [|d cur IH]; intros a b E Hb.
    - rewrite sapp_nil in E. destruct a as [|e a]; [|rewrite sapp_cons in E; injection E as -> E;
        destruct a; [rewrite sapp_nil in E; by subst|discriminate]].
      exists EmptyString. rewrite !sapp_nil in *. done.
    - destruct a as [|e a].
      + rewrite sapp_nil in E. exists (String d cur). by rewrite sapp_nil.
      + rewrite !sapp_cons in E. injection E as -> E. destruct (IH a b E Hb) as (b' & -> & ->).
        exists b'. by rewrite sapp_cons. }
  rewrite sapp_assoc, sapp_cons, sapp_nil. destruct b' as [|d b']; [by rewrite sapp_nil|].
  by apply (Hok a).
Qed.

Lemma cut_at_pieces from cur s :
  from <> EmptyString -> cut_ok from cur s ->
  cur +:+ s = sjoin from (cut_at from 0 cur s) /\ Forall (fun p => ~ occurs from p) (cut_at from 0 cur s).
Proof.
  intros Hf. remember (String.length s) as n eqn:En. assert (String.length s <= n)%nat as Hn by lia. clear En.
  revert cur s Hn. induction n as [|n IH]; intros cur s Hn Hok.
  - destruct s; [|cbn in Hn; lia]. cbn. rewrite sapp_nil_r.
    split; [done|]. constructor; [by eapply cut_ok_piece|constructor].
  - destruct s as [|c s]; cbn [cut_at].
    { cbn. rewrite sapp_nil_r. split; [done|]. constructor; [by eapply cut_ok_piece|constructor]. }
    cbn in Hn. destruct (sprefix from (String c s)) eqn:Ep.
    + pose proof (sprefix_drop _ _ Ep) as Ed. destruct from as [|d from]; [done|].
      cbn [String.length sdrop] in Ed. cbn [String.length]. replace (S _ - 1)%nat with (String.length from) by lia.
      assert (String.length from <= String.length s)%nat as Hl.
      { pose proof (f_equal String.length Ed) as El. rewrite slength_app in El. cbn in El. lia. }
      rewrite cut_at_skip by done.
      destruct (IH EmptyString (sdrop (String.length from) s)) as [IH1 IH2].
      * assert (forall k u, String.length (sdrop k u) <= String.length u)%nat as Hd
          by (clear; intros k; induction k as [|k IHk]; intros [|? u]; cbn; try lia; specialize (IHk u); lia).
        pose proof (Hd (String.length from) s). lia.
      * intros a b E Hb. destruct a; [rewrite sapp_nil in E; congruence|discriminate].
      * rewrite sjoin_cons by apply cut_at_nonempty. rewrite <- IH1, sapp_nil, <- Ed. split; [done|].
        constructor; [by eapply cut_ok_piece|done].
    + destruct (IH (cur +:+ String c EmptyString) s) as [IH1 IH2]; [lia|by apply cut_ok_step|].
      rewrite <- IH1, sapp_assoc. done.
Qed.

Lemma absl_match_laws : AbslMatchLaws (A := absl_match_documented).
Proof.
  split; cbn.
  - intros s. apply String.eqb_refl.
  - intros c s. induction s as [|d s IH]; cbn; [done|]. intros [Hd Hs]. rewrite IH by done.
    destruct (Ascii.eqb_spec c d); [congruence|done].
  - apply strip_space_none.
  - intros s t. apply scontains_spec.
  - intros from to s Hf. exists (cut_at from 0 EmptyString s).
    destruct (cut_at_pieces from EmptyString s Hf) as [E Hp]; [|by rewrite sapp_nil in E].
    intros a b E Hb. destruct a; [rewrite sapp_nil in E; congruence|discriminate].
  - done.
Qed.
