(* ===== verification/RateLimiter.v ===== *)
(** * Rate limiters: the interface and the two limiters that keep a clock

    Models [engine/include/nighthawk/common/rate_limiter.h], the base class,
    [LinearRateLimiter] and [LinearRampingRateLimiterImpl] of
    [engine/source/common/rate_limiter_impl.{h,cc}], and
    [engine/source/common/frequency.h].

    A limiter's operation reads the clock through its time source. The engine
    hands its limiters a [CachedTimeSourceImpl], whose monotonic time only
    moves when the sequencer refreshes it, so one operation sees one instant:
    the [clock] argument. Times and durations are in nanoseconds. *)

From S2P Require Import Prelude Double DoubleExact.

(** What a time source answers: the (cached) monotonic time and the system
    time. *)
Record clock : Type := Clock { monotonicTime : Z; systemTime : Z }.

(** ** The interface *)

(** [class RateLimiter]. Every operation may update the limiter. *)
Class RateLimiter (S : Type) : Type := {
  tryAcquireOne : clock -> S -> outcome (bool * S);
  releaseOne : clock -> S -> outcome S;
  elapsed : clock -> S -> Z * S;
  firstAcquisitionTime : S -> option Z;
  timeUntilNextRelease : clock -> S -> outcome (option Z * S);
}.

(** [s] refuses every acquisition attempted at a time in [t0, t1). *)
Definition closed_until {S : Type} `{RateLimiter S} (t0 t1 : Z) (s : S) : Prop :=
  forall clk, t0 <= monotonicTime clk < t1 ->
  exists s', tryAcquireOne clk s = Ok (false, s').

(** The documented contract of [timeUntilNextRelease()] for a limiter asked at
    [clk]: the answer is a lower bound on the wait. *)
Definition wait_is_lower_bound {S : Type} `{RateLimiter S} (clk : clock) (s : S) : Prop :=
  forall w s', timeUntilNextRelease clk s = Ok (Some w, s') ->
  closed_until (monotonicTime clk) (monotonicTime clk + w) s'.

(** ** Frequency *)

Record Frequency : Type := mkFrequency { hertz_ : Z; interval_ : double }.

Definition Frequency_ (hertz : Z) : Frequency :=
  mkFrequency hertz (if hertz =? 0 then S754_nan else ddiv d1 (d_of_Z hertz)).

(** ** RateLimiterBaseImpl *)

Record RateLimiterBaseImpl : Type := mkBase {
  start_time_ : option Z;
  first_acquisition_time_ : option Z;
}.

Definition base_init : RateLimiterBaseImpl := mkBase None None.

Definition base_elapsed (clk : clock) (b : RateLimiterBaseImpl) : Z * RateLimiterBaseImpl :=
  let now := monotonicTime clk in
  match start_time_ b with
  | None => (now - now, mkBase (Some now) (Some (systemTime clk)))
  | Some t => (now - t, b)
  end.

Definition started (b : RateLimiterBaseImpl) : bool :=
  match start_time_ b with Some _ => true | None => false end.

(** ** The counters shared by the two pacing limiters *)

(** [acquireable_count_] is an [int64_t] and [acquired_count_] a [uint64_t]. *)
Record counts : Type := mkCounts { acquireable_count_ : Z; acquired_count_ : Z }.

Definition counts_init : counts := mkCounts 0 0.

Definition counts_take (c : counts) : counts :=
  mkCounts (i64 (acquireable_count_ c - 1)) (u64 (acquired_count_ c + 1)).

Definition counts_put_back (c : counts) : counts :=
  mkCounts (i64 (acquireable_count_ c + 1)) (u64 (acquired_count_ c - 1)).

(** The assignment [acquireable_count_ = total - acquired_count_]: the
    subtraction is on [uint64_t] and its result converted to [int64_t]. *)
Definition counts_recompute (total : Z) (c : counts) : counts :=
  mkCounts (i64 (u64 (total - acquired_count_ c))) (acquired_count_ c).

#[global] Arguments counts_take _ : simpl never.
#[global] Arguments counts_put_back _ : simpl never.
#[global] Arguments counts_recompute _ _ : simpl never.

(** ** LinearRateLimiter *)

Record LinearRateLimiter : Type := mkLinear {
  lin_base : RateLimiterBaseImpl;
  lin_counts : counts;
  lin_frequency_ : Frequency;
}.

Definition LinearRateLimiter_new (frequency : Frequency) : outcome LinearRateLimiter :=
  if hertz_ frequency <=? 0
  then Throw (NighthawkException ("frequency must be <= 0, value: " +:+ pretty (hertz_ frequency)))
  else Ok (mkLinear base_init counts_init frequency).

(** A [std::chrono::duration<double>] in seconds, as nanoseconds: the
    conversion the mixed arithmetic with [nanoseconds] performs. *)
Definition seconds_to_ns (x : double) : double := dmul x d1e9.

(** The number of acquisitions due after [e] nanoseconds:
    [floor((elapsed + interval / 2) / interval)]. *)
Definition linear_due (f : Frequency) (e : Z) : outcome Z :=
  let phase_shifted := dadd (d_of_Z e) (seconds_to_ns (ddiv (interval_ f) d2)) in
  cast_i64 (floorZ (ddiv phase_shifted (seconds_to_ns (interval_ f)))).

(** The recursive call is made with a positive [acquireable_count_], so it
    takes the first branch. *)
Definition LinearRateLimiter_tryAcquireOne (clk : clock) (l : LinearRateLimiter) :
    outcome (bool * LinearRateLimiter) :=
  if 0 <? acquireable_count_ (lin_counts l)
  then Ok (true, mkLinear (lin_base l) (counts_take (lin_counts l)) (lin_frequency_ l))
  else
    let '(e, base) := base_elapsed clk (lin_base l) in
    let* due := linear_due (lin_frequency_ l) e in
    let c := counts_recompute due (lin_counts l) in
    if 0 <? acquireable_count_ c
    then Ok (true, mkLinear base (counts_take c) (lin_frequency_ l))
    else Ok (false, mkLinear base c (lin_frequency_ l)).

Definition LinearRateLimiter_releaseOne (clk : clock) (l : LinearRateLimiter) :
    outcome LinearRateLimiter :=
  Ok (mkLinear (lin_base l) (counts_put_back (lin_counts l)) (lin_frequency_ l)).

(** [std::chrono::ceil<nanoseconds>] of a duration in (double) nanoseconds:
    truncate, then add one when the truncation is below. *)
Definition chrono_ceil_ns (x : double) : outcome Z :=
  let* t := cast_i64 (truncZ x) in
  Ok (if dltb (d_of_Z t) x then i64 (t + 1) else t).

Definition LinearRateLimiter_timeUntilNextRelease (clk : clock) (l : LinearRateLimiter) :
    outcome (option Z * LinearRateLimiter) :=
  if (0 <? acquireable_count_ (lin_counts l)) || negb (started (lin_base l))
  then Ok (Some 0, l)
  else
    let i := interval_ (lin_frequency_ l) in
    let due := dsub (dmul i (d_of_Z (u64 (acquired_count_ (lin_counts l) + 1)))) (ddiv i d2) in
    let '(e, base) := base_elapsed clk (lin_base l) in
    let* wait := chrono_ceil_ns (dsub (seconds_to_ns due) (d_of_Z e)) in
    Ok (Some (Z.max 0 wait), mkLinear base (lin_counts l) (lin_frequency_ l)).

#[export] Instance LinearRateLimiter_RateLimiter : RateLimiter LinearRateLimiter := {
  tryAcquireOne := LinearRateLimiter_tryAcquireOne;
  releaseOne := LinearRateLimiter_releaseOne;
  elapsed clk l :=
    let '(e, base) := base_elapsed clk (lin_base l) in
    (e, mkLinear base (lin_counts l) (lin_frequency_ l));
  firstAcquisitionTime l := first_acquisition_time_ (lin_base l);
  timeUntilNextRelease := LinearRateLimiter_timeUntilNextRelease;
}.

(** ** LinearRampingRateLimiterImpl *)

Record LinearRampingRateLimiterImpl : Type := mkRamping {
  ramp_base : RateLimiterBaseImpl;
  ramp_counts : counts;
  ramp_time_ : Z;
  ramp_frequency_ : Frequency;
  target_freq_ns_ : double;
  total_ramp_requests_ : Z;
}.

(** The members are initialised before the constructor's body checks the
    arguments; the cast of the rounded total is undefined for huge ones. *)
Definition LinearRampingRateLimiterImpl_new (ramp_time : Z) (frequency : Frequency) :
    outcome LinearRampingRateLimiterImpl :=
  let target_freq_ns := ddiv (d_of_Z (hertz_ frequency)) d1e9 in
  let* total :=
    cast_i64 (roundZ (ddiv (dmul (d_of_Z ramp_time) target_freq_ns) d2)) in
  if hertz_ frequency <=? 0
  then Throw (NighthawkException ("frequency must be > 0, value: " +:+ pretty (hertz_ frequency)))
  else if ramp_time <=? 0
  then Throw (NighthawkException ("ramp_time must be positive, value: " +:+ pretty ramp_time))
  else Ok (mkRamping base_init counts_init ramp_time frequency target_freq_ns total).

(** The number of acquisitions due after [e] nanoseconds. *)
Definition ramping_due (l : LinearRampingRateLimiterImpl) (e : Z) : outcome Z :=
  if e <? ramp_time_ l then
    let elapsed_fraction :=
      dsub d1 (ddiv (d_of_Z (ramp_time_ l - e)) (d_of_Z (ramp_time_ l))) in
    let current_frequency := dmul elapsed_fraction (d_of_Z (hertz_ (ramp_frequency_ l))) in
    cast_i64 (roundZ (ddiv (dmul (ddiv (d_of_Z e) d1e9) current_frequency) d2))
  else
    cast_i64 (truncZ (dadd (d_of_Z (total_ramp_requests_ l))
                           (dround (dmul (d_of_Z (e - ramp_time_ l)) (target_freq_ns_ l))))).

Definition ramp_with (l : LinearRampingRateLimiterImpl) (b : RateLimiterBaseImpl) (c : counts) :
    LinearRampingRateLimiterImpl :=
  mkRamping b c (ramp_time_ l) (ramp_frequency_ l) (target_freq_ns_ l) (total_ramp_requests_ l).

(** The first branch tests [acquireable_count_] against zero, not for being
    positive. *)
Definition LinearRampingRateLimiterImpl_tryAcquireOne (clk : clock)
    (l : LinearRampingRateLimiterImpl) : outcome (bool * LinearRampingRateLimiterImpl) :=
  if negb (acquireable_count_ (ramp_counts l) =? 0)
  then Ok (true, ramp_with l (ramp_base l) (counts_take (ramp_counts l)))
  else
    let '(e, base) := base_elapsed clk (ramp_base l) in
    let* total := ramping_due l e in
    let c := counts_recompute total (ramp_counts l) in
    if 0 <? acquireable_count_ c
    then Ok (true, ramp_with l base (counts_take c))
    else Ok (false, ramp_with l base c).

Definition LinearRampingRateLimiterImpl_releaseOne (clk : clock)
    (l : LinearRampingRateLimiterImpl) : outcome LinearRampingRateLimiterImpl :=
  Ok (ramp_with l (ramp_base l) (counts_put_back (ramp_counts l))).

Definition LinearRampingRateLimiterImpl_timeUntilNextRelease (clk : clock)
    (l : LinearRampingRateLimiterImpl) : outcome (option Z * LinearRampingRateLimiterImpl) :=
  if (0 <? acquireable_count_ (ramp_counts l)) || negb (started (ramp_base l))
  then Ok (Some 0, l)
  else
    let target := dadd (d_of_Z (acquired_count_ (ramp_counts l))) dhalf in
    let ramp := d_of_Z (ramp_time_ l) in
    let ramping := dsqrt (ddiv (dmul (dmul target d2) ramp) (target_freq_ns_ l)) in
    let due_ns :=
      if dleb ramp ramping
      then dmax ramp (dadd ramp (ddiv (dsub target (d_of_Z (total_ramp_requests_ l)))
                                      (target_freq_ns_ l)))
      else ramping in
    let* due := cast_i64 (ceilZ due_ns) in
    let '(e, base) := base_elapsed clk (ramp_base l) in
    Ok (Some (Z.max 0 (due - e)), ramp_with l base (ramp_counts l)).

#[export] Instance LinearRampingRateLimiterImpl_RateLimiter :
    RateLimiter LinearRampingRateLimiterImpl := {
  tryAcquireOne := LinearRampingRateLimiterImpl_tryAcquireOne;
  releaseOne := LinearRampingRateLimiterImpl_releaseOne;
  elapsed clk l :=
    let '(e, base) := base_elapsed clk (ramp_base l) in (e, ramp_with l base (ramp_counts l));
  firstAcquisitionTime l := first_acquisition_time_ (ramp_base l);
  timeUntilNextRelease := LinearRampingRateLimiterImpl_timeUntilNextRelease;
}.

(** ** The clock *)

Lemma base_elapsed_started clk b e b' :
  base_elapsed clk b = (e, b') -> started b' = true.
Proof. unfold base_elapsed, started. destruct (start_time_ b) eqn:E; intros [= <- <-]; cbn; by rewrite ?E. Qed.

Lemma base_elapsed_id clk b :
  started b = true -> (base_elapsed clk b).2 = b.
Proof. unfold base_elapsed, started. by destruct (start_time_ b). Qed.

(** ** Driving a limiter *)

(** A use of a limiter: an attempt to acquire, a release of what was acquired
    before, or a question. *)
Inductive use : Type :=
| Acquire (clk : clock)
| Release (clk : clock)
| AskElapsed (clk : clock)
| AskWait (clk : clock).

Definition use_clock (u : use) : clock :=
  match u with Acquire clk | Release clk | AskElapsed clk | AskWait clk => clk end.

(** Runs the uses; [n] counts the acquisitions held. A release of what is not
    held breaks the contract of [releaseOne()] and is not a run. *)
Fixpoint drive {S : Type} `{RateLimiter S} (us : list use) (n : Z) (s : S) : outcome (Z * S) :=
  match us with
  | [] => Ok (n, s)
  | Acquire clk :: us =>
      let* p := tryAcquireOne clk s in
      drive us (if fst p then n + 1 else n) (snd p)
  | Release clk :: us =>
      if 0 <? n then let* s := releaseOne clk s in drive us (n - 1) s else Undefined
  | AskElapsed clk :: us => drive us n (snd (elapsed clk s))
  | AskWait clk :: us => let* p := timeUntilNextRelease clk s in drive us n (snd p)
  end.

(** The clocks of the uses never go back, from [t] on, and stay below [t1]. *)
Fixpoint monotone (t t1 : Z) (us : list use) : Prop :=
  match us with
  | [] => True
  | u :: us => t <= monotonicTime (use_clock u) <= t1 /\ monotone (monotonicTime (use_clock u)) t1 us
  end.

(** The loop [while (tryAcquireOne()) ...] at one instant: how many
    acquisitions succeed before the first refusal. [None] when [fuel] is too
    small to reach it. *)
Fixpoint acquire_all {S : Type} `{RateLimiter S} (fuel : nat) (clk : clock) (s : S) :
    outcome (option (Z * S)) :=
  match fuel with
  | O => Ok None
  | S fuel =>
      let* p := tryAcquireOne clk s in
      if fst p
      then let* r := acquire_all fuel clk (snd p) in
           Ok (option_map (fun q => (fst q + 1, snd q)) r)
      else Ok (Some (0, snd p))
  end.

(** ** The counters *)

(** A limiter's counters hold the [n] acquisitions held and what may still be
    acquired, not more than [bound] together. *)
Definition counts_ok (bound n : Z) (c : counts) : Prop :=
  acquired_count_ c = n /\ 0 <= n /\ in_i64 (acquireable_count_ c) /\
  n + Z.max 0 (acquireable_count_ c) <= bound.

Lemma counts_recompute_exact total n c :
  acquired_count_ c = n -> 0 <= total <= INT64_MAX -> 0 <= n <= INT64_MAX ->
  counts_recompute total c = mkCounts (total - n) n.
Proof.
  unfold counts_recompute, INT64_MAX. intros -> ? ?.
  rewrite i64_u64, i64_small; [done|]. unfold in_i64. lia.
Qed.

Lemma counts_take_ok bound n c :
  bound <= INT64_MAX -> counts_ok bound n c -> 0 < acquireable_count_ c ->
  counts_take c = mkCounts (acquireable_count_ c - 1) (n + 1) /\
  counts_ok bound (n + 1) (counts_take c).
Proof.
  unfold counts_ok, counts_take, in_i64, INT64_MAX. intros Hb (Hc & ? & ? & ?) Hpos.
  rewrite Hc, i64_small, u64_small by (unfold in_i64, in_u64; lia).
  cbn. split; [done|]. repeat split; lia.
Qed.

Lemma counts_put_back_ok bound n c :
  0 < n -> bound <= INT64_MAX -> counts_ok bound n c ->
  counts_put_back c = mkCounts (acquireable_count_ c + 1) (n - 1) /\
  counts_ok bound (n - 1) (counts_put_back c).
Proof.
  unfold counts_ok, counts_put_back, in_i64, INT64_MAX. intros Hn Hb (Hc & ? & ? & ?).
  rewrite Hc, i64_small, u64_small by (unfold in_i64, in_u64; lia).
  cbn. split; [done|]. repeat split; lia.
Qed.

Lemma counts_recompute_ok bound total n c :
  0 <= total <= bound -> bound <= INT64_MAX -> counts_ok bound n c ->
  counts_ok bound n (counts_recompute total c).
Proof.
  intros Ht Hb (Hc & Hn & Ha & Hs). unfold INT64_MAX in *.
  rewrite (counts_recompute_exact total n) by (unfold INT64_MAX; lia).
  unfold counts_ok, in_i64. cbn. repeat split; lia.
Qed.

(** A release undoes the acquisition before it. *)
Lemma counts_take_put_back c :
  in_i64 (acquireable_count_ c) -> in_u64 (acquired_count_ c) ->
  counts_put_back (counts_take c) = c.
Proof.
  destruct c as [a q]. unfold counts_put_back, counts_take. cbn. intros Ha Hq. f_equal.
  - unfold i64, wrap_s.
    replace ((a - 1 + 2 ^ (64 - 1)) mod 2 ^ 64 - 2 ^ (64 - 1) + 1 + 2 ^ (64 - 1))
      with ((a - 1 + 2 ^ (64 - 1)) mod 2 ^ 64 + 1) by lia.
    rewrite Zplus_mod_idemp_l.
    replace (a - 1 + 2 ^ (64 - 1) + 1) with (a + 2 ^ (64 - 1)) by lia.
    apply (i64_small a Ha).
  - unfold u64, wrap_u. rewrite Zminus_mod_idemp_l.
    replace (q + 1 - 1) with q by lia. apply (u64_small q Hq).
Qed.

(** The clock of a limiter started in [t0, t]. *)
Definition clock_ok (t0 t : Z) (b : RateLimiterBaseImpl) : Prop :=
  match start_time_ b with Some st => t0 <= st <= t | None => True end.

Lemma base_elapsed_ok t0 t clk b e b' :
  t0 <= t -> clock_ok t0 t b -> t <= monotonicTime clk ->
  base_elapsed clk b = (e, b') ->
  0 <= e <= monotonicTime clk - t0 /\ clock_ok t0 (monotonicTime clk) b'.
Proof.
  unfold clock_ok, base_elapsed. intros Ht Hb Hnow.
  destruct (start_time_ b) as [st|] eqn:E; intros [= <- <-]; cbn; rewrite ?E; lia.
Qed.

(** ** Pacing of the linear limiter *)

Section LinearPacing.

Context (f : Frequency) (t0 T bound : Z).

(** Within the first [T] nanoseconds, at most [bound] acquisitions fall due. *)
Hypothesis due_bounded :
  forall e d, 0 <= e <= T -> linear_due f e = Ok d -> 0 <= d <= bound.

Hypothesis bound_i64 : 0 <= bound <= INT64_MAX.

Definition linear_ok (t n : Z) (l : LinearRateLimiter) : Prop :=
  lin_frequency_ l = f /\ counts_ok bound n (lin_counts l) /\ clock_ok t0 t (lin_base l).

Lemma linear_acquire_ok t n clk l b l' :
  t0 <= t -> linear_ok t n l -> t <= monotonicTime clk <= t0 + T ->
  tryAcquireOne clk l = Ok (b, l') ->
  linear_ok (monotonicTime clk) (if b then n + 1 else n) l'.
Proof.
  intros Ht (Hf & Hc & Hb) Hnow Ht'. cbn in Ht'.
  unfold LinearRateLimiter_tryAcquireOne in Ht'.
  assert (Hb' : clock_ok t0 (monotonicTime clk) (lin_base l))
    by (unfold clock_ok in *; destruct (start_time_ _); lia).
  destruct (0 <? acquireable_count_ (lin_counts l)) eqn:Ea; b2p.
  { injection Ht' as <- <-. pose proof (counts_take_ok _ _ _ (proj2 bound_i64) Hc Ea) as [_ ?].
    done. }
  destruct (base_elapsed clk (lin_base l)) as [e base] eqn:Ee.
  apply (base_elapsed_ok t0 t) in Ee as [He Hbase]; [|done..|lia].
  inv_bind. rewrite Hf in *. rename a into d.
  assert (Hd : 0 <= d <= bound) by (eapply due_bounded; [|done]; lia).
  pose proof (counts_recompute_ok _ _ _ _ Hd (proj2 bound_i64) Hc) as Hr.
  destruct (0 <? acquireable_count_ (counts_recompute d (lin_counts l))) eqn:Ep; b2p;
    injection Ht' as <- <-; [|done].
  pose proof (counts_take_ok _ _ _ (proj2 bound_i64) Hr Ep) as [_ ?]. done.
Qed.

Lemma linear_release_ok t n clk l l' :
  0 < n -> linear_ok t n l -> t <= monotonicTime clk ->
  releaseOne clk l = Ok l' -> linear_ok (monotonicTime clk) (n - 1) l'.
Proof.
  intros Hn (Hf & Hc & Hb) Ht [= <-]. split; [done|split]; cbn.
  - apply (counts_put_back_ok bound n); [done|apply bound_i64|done].
  - unfold clock_ok in *. cbn. destruct (start_time_ _); lia.
Qed.

Lemma linear_base_ok t n clk l :
  t0 <= t -> linear_ok t n l -> t <= monotonicTime clk ->
  linear_ok (monotonicTime clk) n
    (mkLinear (base_elapsed clk (lin_base l)).2 (lin_counts l) (lin_frequency_ l)).
Proof.
  intros Ht (Hf & Hc & Hb) Hnow. repeat split; [done|apply Hc..|]. cbn.
  destruct (base_elapsed clk (lin_base l)) as [e b] eqn:E.
  by apply (base_elapsed_ok t0 t) in E as [_ ?].
Qed.

Lemma linear_ask_ok t n clk l w l' :
  t0 <= t -> linear_ok t n l -> t <= monotonicTime clk ->
  timeUntilNextRelease clk l = Ok (w, l') -> linear_ok (monotonicTime clk) n l'.
Proof.
  intros Ht Hl Hnow Hw. cbn in Hw. unfold LinearRateLimiter_timeUntilNextRelease in Hw.
  destruct (_ || _).
  - injection Hw as <- <-. destruct Hl as (Hf & Hc & Hb). split; [done|split; [done|]].
    unfold clock_ok in *. destruct (start_time_ _); lia.
  - pose proof (linear_base_ok t n clk l Ht Hl Hnow) as Hok.
    destruct (base_elapsed clk (lin_base l)) as [e b]. inv_bind. done.
Qed.

Lemma linear_drive_ok us t n m l l' :
  t0 <= t -> linear_ok t n l -> monotone t (t0 + T) us ->
  drive us n l = Ok (m, l') -> exists t', linear_ok t' m l'.
Proof.
  revert t n l. induction us as [|u us IH]; intros t n l Ht Hl Hm Hd; [|destruct u]; cbn in *.
  - injection Hd as <- <-. eauto.
  - destruct Hm as [Hnow Hm]. inv_bind. destruct a as [b l1].
    eapply (IH (monotonicTime clk)); [lia| |exact Hm|exact Hd].
    eapply linear_acquire_ok; eauto.
  - destruct Hm as [Hnow Hm]. destruct (0 <? n) eqn:En; [|done]. b2p.
    inv_bind. eapply (IH (monotonicTime clk)); [lia| |exact Hm|exact Hd].
    eapply linear_release_ok; eauto. lia.
  - destruct Hm as [Hnow Hm]. eapply (IH (monotonicTime clk)); [lia| |exact Hm|exact Hd].
    pose proof (linear_base_ok t n clk l Ht Hl) as Hok.
    destruct (base_elapsed clk (lin_base l)) as [e b]. apply Hok. lia.
  - destruct Hm as [Hnow Hm]. inv_bind. destruct a as [w l1].
    eapply (IH (monotonicTime clk)); [lia| |exact Hm|exact Hd].
    eapply linear_ask_ok; eauto. lia.
Qed.

Lemma linear_new_ok l : LinearRateLimiter_new f = Ok l -> linear_ok t0 0 l.
Proof.
  unfold LinearRateLimiter_new. split_ifs; [done|]. intros [= <-].
  unfold linear_ok, counts_ok, clock_ok, in_i64. cbn. repeat split; lia.
Qed.

End LinearPacing.

(** ** Greedy acquisition *)

Section AcquireAll.

Context {S : Type} `{RateLimiter S}.

Lemma acquire_all_refused fuel clk s s' :
  tryAcquireOne clk s = Ok (false, s') ->
  acquire_all (Datatypes.S fuel) clk s = Ok (Some (0, s')).
Proof. intros E. cbn. by rewrite E. Qed.

Lemma acquire_all_granted fuel clk s s1 r s' :
  tryAcquireOne clk s = Ok (true, s1) ->
  acquire_all fuel clk s1 = Ok (Some (r, s')) ->
  acquire_all (Datatypes.S fuel) clk s = Ok (Some (r + 1, s')).
Proof. intros E1 E2. cbn. rewrite E1. cbn. by rewrite E2. Qed.

End AcquireAll.

(** A linear limiter with credit hands one out without reading the clock. *)
Lemma linear_try_credit clk b f a n :
  0 < a <= INT64_MAX -> 0 <= n < INT64_MAX ->
  tryAcquireOne clk (mkLinear b (mkCounts a n) f) =
    Ok (true, mkLinear b (mkCounts (a - 1) (n + 1)) f).
Proof.
  unfold INT64_MAX. intros Ha Hn. cbn. unfold LinearRateLimiter_tryAcquireOne. cbn.
  replace (0 <? a) with true by (symmetry; apply Z.ltb_lt; lia).
  unfold counts_take. cbn. rewrite i64_small, u64_small by (unfold in_i64, in_u64; lia). done.
Qed.

(** One without credit compares what is due with what was acquired. *)
Lemma linear_try_due clk b f a n st d :
  a <= 0 -> 0 <= n < INT64_MAX -> 0 <= d <= INT64_MAX -> start_time_ b = Some st ->
  linear_due f (monotonicTime clk - st) = Ok d ->
  tryAcquireOne clk (mkLinear b (mkCounts a n) f) =
    Ok (if n <? d then (true, mkLinear b (mkCounts (d - n - 1) (n + 1)) f)
        else (false, mkLinear b (mkCounts (d - n) n) f)).
Proof.
  unfold INT64_MAX. intros Ha Hn Hd Hst Hdue. cbn. unfold LinearRateLimiter_tryAcquireOne. cbn.
  replace (0 <? a) with false by (symmetry; apply Z.ltb_ge; lia).
  unfold base_elapsed. rewrite Hst, Hdue. cbn.
  rewrite (counts_recompute_exact d n) by (cbn; unfold INT64_MAX; lia). cbn.
  replace (0 <? d - n) with (n <? d) by lia.
  destruct (n <? d) eqn:E; b2p; [|done].
  unfold counts_take. cbn. rewrite i64_small, u64_small by (unfold in_i64, in_u64; lia). done.
Qed.

(** Credit left from the last time the clock was read is handed out first. *)
Lemma linear_acquire_all_credit fuel clk b f n k r l' :
  0 <= n -> n + Z.of_nat k <= INT64_MAX ->
  acquire_all fuel clk (mkLinear b (mkCounts 0 (n + Z.of_nat k)) f) = Ok (Some (r, l')) ->
  acquire_all (k + fuel) clk (mkLinear b (mkCounts (Z.of_nat k) n) f) =
    Ok (Some (r + Z.of_nat k, l')).
Proof.
  unfold INT64_MAX. revert n. induction k as [|k IH]; intros n Hn Hmax Hall.
  - rewrite !Z.add_0_r in *. done.
  - replace (r + Z.of_nat (S k)) with (r + Z.of_nat k + 1) by lia.
    replace (n + Z.of_nat (S k)) with (n + 1 + Z.of_nat k) in Hall by lia.
    eapply acquire_all_granted; [apply linear_try_credit; unfold INT64_MAX; lia|].
    replace (Z.of_nat (S k) - 1) with (Z.of_nat k) by lia. apply IH; [lia..|done].
Qed.

(** Everything due is handed out, and then the limiter refuses. *)
Lemma linear_acquire_all_due clk b f a n st d :
  a <= 0 -> 0 <= n < INT64_MAX -> 0 <= d < INT64_MAX -> start_time_ b = Some st ->
  linear_due f (monotonicTime clk - st) = Ok d ->
  acquire_all (S (Z.to_nat (d - n))) clk (mkLinear b (mkCounts a n) f) =
    Ok (Some (Z.max 0 (d - n), mkLinear b (mkCounts (Z.min 0 (d - n)) (Z.max n d)) f)).
Proof.
  unfold INT64_MAX. intros Ha Hn Hd Hst Hdue.
  assert (Hrange : 0 <= d <= INT64_MAX) by (unfold INT64_MAX; lia).
  pose proof (fun a n Ha Hn => linear_try_due clk b f a n st d Ha Hn Hrange Hst Hdue) as Htry.
  unfold INT64_MAX in Htry.
  destruct (decide (d <= n)) as [Hle|Hgt].
  - replace (Z.to_nat (d - n)) with 0%nat by lia.
    rewrite Z.max_l, Z.min_r, Z.max_l by lia. apply acquire_all_refused.
    rewrite Htry by lia. replace (n <? d) with false by lia. done.
  - rewrite Z.max_r, Z.min_l, Z.max_r by lia.
    set (k := Z.to_nat (d - n - 1)).
    replace (Z.to_nat (d - n)) with (k + 1)%nat by lia.
    replace (d - n) with (0 + Z.of_nat k + 1) by lia.
    eapply acquire_all_granted.
    { rewrite Htry by lia. replace (n <? d) with true by lia. done. }
    replace (d - n - 1) with (Z.of_nat k) by lia.
    apply linear_acquire_all_credit; [lia|unfold INT64_MAX; lia|].
    replace (n + 1 + Z.of_nat k) with d by lia. apply acquire_all_refused.
    rewrite Htry by lia. replace (d <? d) with false by lia. by rewrite Z.sub_diag.
Qed.

(** A started limiter that holds at most what is due is emptied by polling it
    until it refuses. *)
Lemma linear_acquire_all_exact clk l f n st d :
  lin_frequency_ l = f -> counts_ok d n (lin_counts l) -> d < INT64_MAX ->
  start_time_ (lin_base l) = Some st -> linear_due f (monotonicTime clk - st) = Ok d ->
  exists fuel k l', acquire_all fuel clk l = Ok (Some (k, l')) /\
    n + k = d /\ acquired_count_ (lin_counts l') = n + k.
Proof.
  intros Hf (Hn & Hn0 & Ha & Hsum) Hd Hst Hdue. unfold INT64_MAX in *.
  destruct l as [base [a q] fr]. cbn in *. subst q fr.
  assert (Hneg : forall a n, a <= 0 -> 0 <= n <= d ->
    exists fuel k l', acquire_all fuel clk (mkLinear base (mkCounts a n) f) = Ok (Some (k, l')) /\
      n + k = d /\ acquired_count_ (lin_counts l') = n + k).
  { intros a' n' ? ?. eexists _, _, _. split.
    { apply (linear_acquire_all_due clk base f a' n' st d); [lia|unfold INT64_MAX; lia..|done|done]. }
    cbn. lia. }
  destruct (decide (0 < a)) as [Hpos|]; [|apply Hneg; lia].
  destruct (Hneg 0 (n + a)) as (fuel & k & l' & E & Hk & Hq); [lia..|].
  pose proof (linear_acquire_all_credit fuel clk base f n (Z.to_nat a) k l') as Hc.
  rewrite !Z2Nat.id in Hc by lia. unfold INT64_MAX in Hc.
  eexists _, _, _. split; [apply Hc; [lia..|done]|]. lia.
Qed.

(** ** Exact pacing

    Where the interval and half of it are whole numbers of nanoseconds
    (1, 10, 100, 1000 requests per second, ...) the double computation is
    exact, as long as the elapsed time is below [2^53] ns, or 104 days. *)

Definition exact_period (f : Frequency) (p h : Z) : Prop :=
  0 < p < 2 ^ 53 /\ 0 <= h /\
  seconds_to_ns (interval_ f) = d_of_Z p /\
  seconds_to_ns (ddiv (interval_ f) d2) = d_of_Z h.

Lemma linear_due_exact f p h e :
  exact_period f p h -> 0 <= e -> e + h < 2 ^ 53 -> linear_due f e = Ok ((e + h) / p).
Proof.
  intros (Hp & Hh & Ei & Eh) He Hmax. unfold linear_due. rewrite Ei, Eh.
  rewrite dadd_exact, ddiv_floor_exact by lia. cbn.
  assert (Hq : 0 <= (e + h) / p <= e + h).
  { split; [apply Z.div_pos; lia|]. apply Z.div_le_upper_bound; nia. }
  replace ((- 2 ^ 63 <=? (e + h) / p) && ((e + h) / p <? 2 ^ 63)) with true; [done|].
  symmetry. apply andb_true_intro. split; lia.
Qed.

Lemma linear_due_exact_bounded f p h T :
  exact_period f p h -> 0 <= T -> T + h < 2 ^ 53 ->
  (forall e d, 0 <= e <= T -> linear_due f e = Ok d -> 0 <= d <= (T + h) / p) /\
  0 <= (T + h) / p < 2 ^ 53.
Proof.
  intros Hf HT Hmax. pose proof Hf as (Hp & Hh & _ & _). split.
  - intros e d He Hd. rewrite (linear_due_exact f p h e) in Hd by (done || lia).
    injection Hd as <-. split; [apply Z.div_pos; lia|]. apply Z.div_le_mono; lia.
  - split; [apply Z.div_pos; lia|]. apply Z.div_lt_upper_bound; nia.
Qed.

(** The start of the clock is never moved. *)
Lemma linear_drive_start us n m l l' st :
  start_time_ (lin_base l) = Some st -> drive us n l = Ok (m, l') ->
  start_time_ (lin_base l') = Some st /\ lin_frequency_ l' = lin_frequency_ l.
Proof.
  revert n l. induction us as [|u us IH]; intros n l Hst Hd; [|destruct u]; cbn in Hd.
  - injection Hd as <- <-. done.
  - inv_bind. destruct a as [b l1]. cbn in Hd.
    assert (Hl1 : start_time_ (lin_base l1) = Some st /\ lin_frequency_ l1 = lin_frequency_ l).
    { unfold LinearRateLimiter_tryAcquireOne, base_elapsed in Hok. rewrite Hst in Hok.
      split_ifs_in Hok; inv_bind; cbn; [done|]. split_ifs_in Hok; by injection Hok as <- <-. }
    destruct Hl1 as [H1 <-]. eauto.
  - split_ifs_in Hd; [|done]. inv_bind. eapply (IH (n - 1)) in Hd; [|done]. done.
  - unfold base_elapsed in Hd. rewrite Hst in Hd. by eapply IH in Hd.
  - inv_bind. destruct a as [w l1]. cbn in Hd.
    assert (Hl1 : start_time_ (lin_base l1) = Some st /\ lin_frequency_ l1 = lin_frequency_ l).
    { unfold LinearRateLimiter_timeUntilNextRelease, base_elapsed in Hok. rewrite Hst in Hok.
      split_ifs_in Hok; inv_bind; done. }
    destruct Hl1 as [H1 <-]. eauto.
Qed.

Lemma linear_first_acquire_start clk l0 f b l :
  LinearRateLimiter_new f = Ok l0 -> tryAcquireOne clk l0 = Ok (b, l) ->
  start_time_ (lin_base l) = Some (monotonicTime clk) /\ lin_frequency_ l = f.
Proof.
  unfold LinearRateLimiter_new. split_ifs; [done|]. intros [= <-] Ht. cbn in Ht.
  unfold LinearRateLimiter_tryAcquireOne in Ht. cbn in Ht. inv_bind.
  split_ifs_in Ht; by injection Ht as <- <-.
Qed.

(** Pacing, upper bound: within [T] nanoseconds of its first use, however
    it is polled and whatever is given back, a linear limiter with a whole
    interval of [p] ns never has more than [floor ((T + p/2) / p)]
    acquisitions outstanding, and its counter is exact. *)
Lemma linear_pacing_bound f p h t0 T us l0 n l :
  exact_period f p h -> 0 <= T -> T + h < 2 ^ 53 ->
  LinearRateLimiter_new f = Ok l0 -> monotone t0 (t0 + T) us ->
  drive us 0 l0 = Ok (n, l) ->
  0 <= n <= (T + h) / p /\ acquired_count_ (lin_counts l) = n.
Proof.
  intros Hf HT Hmax Hnew Hmono Hrun.
  destruct (linear_due_exact_bounded f p h T Hf HT Hmax) as [Hdue Hb].
  assert (Hb' : 0 <= (T + h) / p <= INT64_MAX) by (unfold INT64_MAX; lia).
  destruct (linear_drive_ok f t0 T _ Hdue Hb' us t0 0 n l0 l) as (t & _ & Hc & _);
    [lia|by apply linear_new_ok|done|done|].
  destruct Hc as (Hn & ? & _ & ?). split; lia.
Qed.

(** Pacing, exactness: a linear limiter that is polled until it refuses at
    a time [now] has by then released exactly [floor ((now - t0 + p/2) / p)]
    acquisitions since its first use at [t0]: polling late loses nothing, and
    the poll takes finitely many attempts. *)
Lemma linear_catches_up f p h clk0 us clk l0 n l :
  exact_period f p h -> 0 <= monotonicTime clk - monotonicTime clk0 ->
  monotonicTime clk - monotonicTime clk0 + h < 2 ^ 53 ->
  LinearRateLimiter_new f = Ok l0 ->
  monotone (monotonicTime clk0) (monotonicTime clk) us ->
  drive (Acquire clk0 :: us) 0 l0 = Ok (n, l) ->
  exists fuel k l', acquire_all fuel clk l = Ok (Some (k, l')) /\
    n + k = (monotonicTime clk - monotonicTime clk0 + h) / p /\
    acquired_count_ (lin_counts l') = n + k.
Proof.
  intros Hf HT Hmax Hnew Hmono Hrun.
  set (T := monotonicTime clk - monotonicTime clk0) in *. set (d := (T + h) / p) in *.
  destruct (linear_due_exact_bounded f p h T Hf HT Hmax) as [Hdue Hb]. fold d in Hdue, Hb.
  assert (Hb' : 0 <= d <= INT64_MAX) by (unfold INT64_MAX; lia).
  destruct (linear_drive_ok f (monotonicTime clk0) T d Hdue Hb' (Acquire clk0 :: us)
              (monotonicTime clk0) 0 n l0 l) as (t & Hfreq & (Hn & Hn0 & Ha & Hsum) & _);
    [lia|by apply linear_new_ok| |done|].
  { cbn. split; [lia|]. by replace (monotonicTime clk0 + T) with (monotonicTime clk) by lia. }
  cbn in Hrun. inv_bind. destruct a as [b l1].
  destruct (linear_first_acquire_start _ _ _ _ _ Hnew Hok) as [Hst Hf1].
  destruct (linear_drive_start _ _ _ _ _ _ Hst Hrun) as [Hst' _].
  assert (Hd : linear_due (lin_frequency_ l) (monotonicTime clk - monotonicTime clk0) = Ok d).
  { rewrite Hfreq. by apply linear_due_exact. }
  apply (linear_acquire_all_exact clk l f n (monotonicTime clk0) d); try done.
  - unfold INT64_MAX. lia.
  - by rewrite <-Hfreq.
Qed.

(** At 1000 requests per second the interval is 1000000 ns. *)
Definition khz_uses : list use :=
  [Acquire (Clock 7 0); Acquire (Clock 500007 0); Release (Clock 500007 0);
   Acquire (Clock 1500007 0); Acquire (Clock 1500007 0); Acquire (Clock 1500007 0)].

Lemma exact_period_1kHz : exact_period (Frequency_ 1000) 1000000 500000.
Proof. repeat split; vm_compute; congruence. Qed.

Definition khz_limiter : LinearRateLimiter := mkLinear base_init counts_init (Frequency_ 1000).

Definition khz_limiter_after : LinearRateLimiter :=
  mkLinear (mkBase (Some 7) (Some 0)) (mkCounts 0 2) (Frequency_ 1000).

Lemma linear_pacing_bound_witness :
  drive khz_uses 0 khz_limiter = Ok (2, khz_limiter_after) /\
  0 <= 2 <= (2000000 + 500000) / 1000000 /\ acquired_count_ (lin_counts khz_limiter_after) = 2.
Proof.
  assert (E : drive khz_uses 0 khz_limiter = Ok (2, khz_limiter_after)) by (vm_compute; reflexivity).
  split; [exact E|].
  apply (linear_pacing_bound (Frequency_ 1000) 1000000 500000 7 2000000 khz_uses khz_limiter);
    [exact exact_period_1kHz|lia|lia|reflexivity|cbn; lia|exact E].
Defined.

Lemma linear_catches_up_witness :
  exists fuel k l', acquire_all fuel (Clock 9500007 0) khz_limiter_after = Ok (Some (k, l')) /\
    2 + k = 10 /\ acquired_count_ (lin_counts l') = 2 + k.
Proof.
  apply (linear_catches_up (Frequency_ 1000) 1000000 500000 (Clock 7 0) (tail khz_uses)
           (Clock 9500007 0) khz_limiter 2 khz_limiter_after);
    [exact exact_period_1kHz|cbn; lia|cbn; lia|reflexivity|cbn; lia|vm_compute; reflexivity].
Defined.
