(* ===== verification/RateLimiterWrappers.v ===== *)
(** * Rate limiters that wrap another limiter

    Models [ForwardingRateLimiterImpl] and its derivations in
    [engine/source/common/rate_limiter_impl.{h,cc}]: [BurstingRateLimiter],
    [ScheduledStartingRateLimiter], [DelegatingRateLimiterImpl] (with
    [DistributionSamplingRateLimiterImpl]), [FilteringRateLimiterImpl] (with
    [GraduallyOpeningRateLimiterFilter] and [ZipfRateLimiterImpl]), and the
    rate a worker is given.

    Each wrapper is a record with the wrapped limiter as a field, over any
    type with a [RateLimiter] instance, and is an instance itself, so wrappers
    stack as the factory stacks them. Debug assertions ([ASSERT]) are not part
    of a release build: they are stated apart, as boolean functions the
    theorems prove to hold. *)

From S2P Require Import Prelude Double DoubleExact RateLimiter.

(** ** Samplers *)

(** [class DiscreteNumericDistributionSampler]: a source of [uint64_t]s. *)
Class Sampler (G : Type) : Type := {
  getValue : G -> Z * G;
  sampler_min : G -> Z;
  sampler_max : G -> Z;
}.

Section Wrappers.

Context {R : Set} `{RateLimiter R}.

(** ** BurstingRateLimiter *)

Record BurstingRateLimiter : Type := mkBursting {
  burst_limiter : R;
  burst_size_ : Z;
  accumulated_ : Z;
  releasing_ : bool;
  previously_releasing_ : option bool;
}.

Definition BurstingRateLimiter_new (rate_limiter : R) (burst_size : Z) : BurstingRateLimiter :=
  mkBursting rate_limiter burst_size 0 false None.

(** The branch taken while releasing: drain one of the accumulated. *)
Definition burst_drain (b : BurstingRateLimiter) : BurstingRateLimiter :=
  let acc := u64 (accumulated_ b - 1) in
  mkBursting (burst_limiter b) (burst_size_ b) acc (0 <? acc) (Some true).

(** The accumulating loop. The recursive call it ends with finds [releasing_]
    set, so it drains one. [None]: [fuel] does not suffice. *)
Fixpoint burst_accumulate (fuel : nat) (clk : clock) (b : BurstingRateLimiter) :
    outcome (option (bool * BurstingRateLimiter)) :=
  match fuel with
  | O => Ok None
  | S fuel =>
      let* p := tryAcquireOne clk (burst_limiter b) in
      let b := mkBursting (snd p) (burst_size_ b) (accumulated_ b) (releasing_ b)
                          (previously_releasing_ b) in
      if fst p then
        let acc := u64 (accumulated_ b + 1) in
        let b := mkBursting (burst_limiter b) (burst_size_ b) acc (releasing_ b)
                            (previously_releasing_ b) in
        if acc mod burst_size_ b =? 0
        then Ok (Some (true, burst_drain b))
        else burst_accumulate fuel clk b
      else
        Ok (Some (false, mkBursting (burst_limiter b) (burst_size_ b) (accumulated_ b)
                                    (releasing_ b) None))
  end.

(** [burst_size_] attempts bring the accumulated total to a multiple of the
    burst size, so that much fuel ends the loop. *)
Definition BurstingRateLimiter_tryAcquireOne (clk : clock) (b : BurstingRateLimiter) :
    outcome (bool * BurstingRateLimiter) :=
  let b := mkBursting (burst_limiter b) (burst_size_ b) (accumulated_ b) (releasing_ b)
                      (Some (releasing_ b)) in
  if releasing_ b
  then Ok (true, burst_drain b)
  else
    let* r := burst_accumulate (S (Z.to_nat (burst_size_ b))) clk b in
    match r with Some x => Ok x | None => Undefined end.

(** The assertions of [releaseOne()]. *)
Definition burst_release_asserts (b : BurstingRateLimiter) : bool :=
  (accumulated_ b <? burst_size_ b) &&
  match previously_releasing_ b with Some true => true | _ => false end.

Definition BurstingRateLimiter_releaseOne (clk : clock) (b : BurstingRateLimiter) :
    outcome BurstingRateLimiter :=
  Ok (mkBursting (burst_limiter b) (burst_size_ b) (u64 (accumulated_ b + 1)) true None).

Definition BurstingRateLimiter_timeUntilNextRelease (clk : clock) (b : BurstingRateLimiter) :
    outcome (option Z * BurstingRateLimiter) :=
  if releasing_ b
  then Ok (Some 0, b)
  else
    let* p := timeUntilNextRelease clk (burst_limiter b) in
    Ok (fst p, mkBursting (snd p) (burst_size_ b) (accumulated_ b) (releasing_ b)
                          (previously_releasing_ b)).

#[export] Instance BurstingRateLimiter_RateLimiter : RateLimiter BurstingRateLimiter := {
  tryAcquireOne := BurstingRateLimiter_tryAcquireOne;
  releaseOne := BurstingRateLimiter_releaseOne;
  elapsed clk b :=
    let '(e, r) := elapsed clk (burst_limiter b) in
    (e, mkBursting r (burst_size_ b) (accumulated_ b) (releasing_ b) (previously_releasing_ b));
  firstAcquisitionTime b := firstAcquisitionTime (burst_limiter b);
  timeUntilNextRelease := BurstingRateLimiter_timeUntilNextRelease;
}.

(** ** ScheduledStartingRateLimiter *)

Record ScheduledStartingRateLimiter : Type := mkScheduled {
  sched_limiter : R;
  scheduled_starting_time_ : Z;
  aquisition_attempted_ : bool;
}.

Definition ScheduledStartingRateLimiter_new (rate_limiter : R) (scheduled_starting_time : Z) :
    ScheduledStartingRateLimiter :=
  mkScheduled rate_limiter scheduled_starting_time false.

Definition ScheduledStartingRateLimiter_tryAcquireOne (clk : clock)
    (s : ScheduledStartingRateLimiter) : outcome (bool * ScheduledStartingRateLimiter) :=
  if monotonicTime clk <? scheduled_starting_time_ s
  then Ok (false, mkScheduled (sched_limiter s) (scheduled_starting_time_ s) true)
  else
    let* p := tryAcquireOne clk (sched_limiter s) in
    Ok (fst p, mkScheduled (snd p) (scheduled_starting_time_ s) true).

Definition ScheduledStartingRateLimiter_releaseOne (clk : clock)
    (s : ScheduledStartingRateLimiter) : outcome ScheduledStartingRateLimiter :=
  if monotonicTime clk <? scheduled_starting_time_ s
  then Throw (NighthawkException "Unexpected call to releaseOne()")
  else
    let* r := releaseOne clk (sched_limiter s) in
    Ok (mkScheduled r (scheduled_starting_time_ s) (aquisition_attempted_ s)).

Definition ScheduledStartingRateLimiter_timeUntilNextRelease (clk : clock)
    (s : ScheduledStartingRateLimiter) : outcome (option Z * ScheduledStartingRateLimiter) :=
  let now := monotonicTime clk in
  if now <? scheduled_starting_time_ s
  then Ok (Some (scheduled_starting_time_ s - now), s)
  else
    let* p := timeUntilNextRelease clk (sched_limiter s) in
    Ok (fst p, mkScheduled (snd p) (scheduled_starting_time_ s) (aquisition_attempted_ s)).

#[export] Instance ScheduledStartingRateLimiter_RateLimiter :
    RateLimiter ScheduledStartingRateLimiter := {
  tryAcquireOne := ScheduledStartingRateLimiter_tryAcquireOne;
  releaseOne := ScheduledStartingRateLimiter_releaseOne;
  elapsed clk s :=
    let '(e, r) := elapsed clk (sched_limiter s) in
    (e, mkScheduled r (scheduled_starting_time_ s) (aquisition_attempted_ s));
  firstAcquisitionTime s := firstAcquisitionTime (sched_limiter s);
  timeUntilNextRelease := ScheduledStartingRateLimiter_timeUntilNextRelease;
}.

(** ** DelegatingRateLimiterImpl *)

Section Delegating.

Context {G : Set}.

(** [RateLimiterDelegate]: a generator of unsigned offsets. *)
Variable random_distribution_generator_ : G -> Z * G.

Record DelegatingRateLimiterImpl : Type := mkDelegating {
  deleg_limiter : R;
  deleg_generator : G;
  distributed_timings_ : list Z;
  sanity_check_pending_release_ : bool;
}.

Definition DelegatingRateLimiterImpl_new (rate_limiter : R) (g : G) : DelegatingRateLimiterImpl :=
  mkDelegating rate_limiter g [] true.

(** [list.insert(upper_bound(begin, end, x), x)] on a sorted list: before the
    first element greater than [x]. *)
Fixpoint insert_upper_bound (x : Z) (l : list Z) : list Z :=
  match l with
  | [] => [x]
  | y :: l => if x <? y then x :: y :: l else y :: insert_upper_bound x l
  end.

(** The offset is a [uint64_t] duration: the sum wraps to the [int64_t] of a
    time point. *)
Definition deleg_enqueue (now : Z) (d : DelegatingRateLimiterImpl) : DelegatingRateLimiterImpl :=
  let '(offset, g) := random_distribution_generator_ (deleg_generator d) in
  mkDelegating (deleg_limiter d) g
    (insert_upper_bound (i64 (now + offset)) (distributed_timings_ d))
    (sanity_check_pending_release_ d).

Definition DelegatingRateLimiterImpl_tryAcquireOne (clk : clock) (d : DelegatingRateLimiterImpl) :
    outcome (bool * DelegatingRateLimiterImpl) :=
  let now := monotonicTime clk in
  let* p := tryAcquireOne clk (deleg_limiter d) in
  let d := mkDelegating (snd p) (deleg_generator d) (distributed_timings_ d)
                        (sanity_check_pending_release_ d) in
  let d := if fst p then deleg_enqueue now d else d in
  match distributed_timings_ d with
  | front :: timings =>
      if front <=? now
      then Ok (true, mkDelegating (deleg_limiter d) (deleg_generator d) timings false)
      else Ok (false, d)
  | [] => Ok (false, d)
  end.

Definition DelegatingRateLimiterImpl_releaseOne (clk : clock) (d : DelegatingRateLimiterImpl) :
    outcome DelegatingRateLimiterImpl :=
  if sanity_check_pending_release_ d
  then Panic "unexpected call to DelegatingRateLimiterImpl::releaseOne()"
  else
    let* r := releaseOne clk (deleg_limiter d) in
    Ok (mkDelegating r (deleg_generator d) (distributed_timings_ d) true).

Definition DelegatingRateLimiterImpl_timeUntilNextRelease (clk : clock)
    (d : DelegatingRateLimiterImpl) : outcome (option Z * DelegatingRateLimiterImpl) :=
  let* p := timeUntilNextRelease clk (deleg_limiter d) in
  let d := mkDelegating (snd p) (deleg_generator d) (distributed_timings_ d)
                        (sanity_check_pending_release_ d) in
  match fst p, distributed_timings_ d with
  | None, _ => Ok (None, d)
  | Some wrapped, [] => Ok (Some wrapped, d)
  | Some wrapped, front :: _ =>
      let queued := front - monotonicTime clk in
      Ok (Some (Z.max 0 (Z.min queued wrapped)), d)
  end.

#[export] Instance DelegatingRateLimiterImpl_RateLimiter : RateLimiter DelegatingRateLimiterImpl := {
  tryAcquireOne := DelegatingRateLimiterImpl_tryAcquireOne;
  releaseOne := DelegatingRateLimiterImpl_releaseOne;
  elapsed clk d :=
    let '(e, r) := elapsed clk (deleg_limiter d) in
    (e, mkDelegating r (deleg_generator d) (distributed_timings_ d)
                     (sanity_check_pending_release_ d));
  firstAcquisitionTime d := firstAcquisitionTime (deleg_limiter d);
  timeUntilNextRelease := DelegatingRateLimiterImpl_timeUntilNextRelease;
}.

End Delegating.

(** ** FilteringRateLimiterImpl *)

Section Filtering.

Context {F : Set}.

(** [RateLimiterFilter], called on an acquisition of the wrapped limiter. The
    filters of the engine read the wrapped limiter's elapsed time and a
    sampler, the state [F]. *)
Variable filter_ : clock -> R -> F -> bool * R * F.

Record FilteringRateLimiterImpl : Type := mkFiltering {
  filt_limiter : R;
  filt_state : F;
}.

Definition FilteringRateLimiterImpl_tryAcquireOne (clk : clock) (f : FilteringRateLimiterImpl) :
    outcome (bool * FilteringRateLimiterImpl) :=
  let* p := tryAcquireOne clk (filt_limiter f) in
  if fst p
  then let '(b, r, g) := filter_ clk (snd p) (filt_state f) in Ok (b, mkFiltering r g)
  else Ok (false, mkFiltering (snd p) (filt_state f)).

Definition FilteringRateLimiterImpl_releaseOne (clk : clock) (f : FilteringRateLimiterImpl) :
    outcome FilteringRateLimiterImpl :=
  let* r := releaseOne clk (filt_limiter f) in Ok (mkFiltering r (filt_state f)).

Definition FilteringRateLimiterImpl_timeUntilNextRelease (clk : clock)
    (f : FilteringRateLimiterImpl) : outcome (option Z * FilteringRateLimiterImpl) :=
  let* p := timeUntilNextRelease clk (filt_limiter f) in
  Ok (fst p, mkFiltering (snd p) (filt_state f)).

#[export] Instance FilteringRateLimiterImpl_RateLimiter : RateLimiter FilteringRateLimiterImpl := {
  tryAcquireOne := FilteringRateLimiterImpl_tryAcquireOne;
  releaseOne := FilteringRateLimiterImpl_releaseOne;
  elapsed clk f :=
    let '(e, r) := elapsed clk (filt_limiter f) in (e, mkFiltering r (filt_state f));
  firstAcquisitionTime f := firstAcquisitionTime (filt_limiter f);
  timeUntilNextRelease := FilteringRateLimiterImpl_timeUntilNextRelease;
}.

End Filtering.

(** ** GraduallyOpeningRateLimiterFilter *)

Section Gradual.

Context {G : Set} `{Sampler G}.

(** The filter of the constructor: [ramp_time] is the member it captures. *)
Definition gradually_opening_filter (ramp_time : Z) (clk : clock) (r : R) (g : G) : bool * R * G :=
  let '(elapsed_time, r) := elapsed clk r in
  if elapsed_time <? ramp_time then
    let probability :=
      dsub d1 (ddiv (d_of_Z (ramp_time - elapsed_time)) (dmul (d_of_Z ramp_time) d1)) in
    let '(v, g) := getValue g in
    let random_between_0_and_1 := ddiv (dmul d1 (d_of_Z v)) (d_of_Z (sampler_max g)) in
    (dltb random_between_0_and_1 probability, r, g)
  else (true, r, g).

Definition GraduallyOpeningRateLimiterFilter_new (ramp_time : Z) (provider : G) (rate_limiter : R) :
    outcome (FilteringRateLimiterImpl (F := G)) :=
  if ramp_time <=? 0
  then Throw (NighthawkException "ramp_time must be positive and > 0ns")
  else if negb (sampler_min provider =? 1)
  then Throw (NighthawkException "min value of the distribution provider must equal 1")
  else if negb (sampler_max provider =? 1000000)
  then Throw (NighthawkException "max value of the distribution provider must equal 1000000")
  else Ok (mkFiltering rate_limiter provider).

(** ** ZipfRateLimiterImpl *)

(** The filter converts the sample of the zipf distribution on [0, 1] to a
    [bool]; the distribution and its bit generator are the sampler. *)
Definition zipf_filter (clk : clock) (r : R) (g : G) : bool * R * G :=
  let '(v, g) := getValue g in (negb (v =? 0), r, g).

Definition ZipfRateLimiterImpl_new (rate_limiter : R) (q v : double) (dist : G) :
    outcome (FilteringRateLimiterImpl (F := G)) :=
  if dleb v d0 then Throw (NighthawkException "v should be > 0")
  else if dleb q d1 then Throw (NighthawkException "q should be > 1")
  else Ok (mkFiltering rate_limiter dist).

End Gradual.

End Wrappers.

Arguments BurstingRateLimiter R : clear implicits.
Arguments ScheduledStartingRateLimiter R : clear implicits.
Arguments DelegatingRateLimiterImpl R G : clear implicits.
Arguments FilteringRateLimiterImpl R F : clear implicits.

(** [DistributionSamplingRateLimiterImpl] delegates to a sampler. *)
Definition DistributionSampling_delegate {G : Type} `{Sampler G} (g : G) : Z * G := getValue g.

(** ** BurstingRateLimiter: bursts are whole *)

Section BurstingProofs.

Context {R : Set} `{RateLimiter R}.

(** While accumulating, less than a burst is held; while releasing, something
    is left of at most one burst. *)
Definition burst_ok (b : BurstingRateLimiter R) : Prop :=
  0 < burst_size_ b < 2 ^ 64 /\
  if releasing_ b then 0 < accumulated_ b <= burst_size_ b
  else 0 <= accumulated_ b < burst_size_ b.

Lemma BurstingRateLimiter_new_ok (r : R) size :
  0 < size < 2 ^ 64 -> burst_ok (BurstingRateLimiter_new r size).
Proof. unfold burst_ok. cbn. lia. Qed.

Lemma burst_drain_eq (b : BurstingRateLimiter R) :
  0 < accumulated_ b < 2 ^ 64 ->
  burst_drain b = mkBursting (burst_limiter b) (burst_size_ b) (accumulated_ b - 1)
                    (0 <? accumulated_ b - 1) (Some true).
Proof. intros Hb. unfold burst_drain. rewrite u64_small; [done|]. unfold in_u64. lia. Qed.

Lemma burst_mod (acc size : Z) :
  0 <= acc < size -> ((acc + 1) mod size =? 0) = (acc + 1 =? size).
Proof.
  intros Ha. destruct (Z.eqb_spec (acc + 1) size) as [->|].
  - by rewrite Z.mod_same by lia.
  - rewrite Z.mod_small by lia. apply Z.eqb_neq. lia.
Qed.

(** The accumulating loop ends within [burst_size - accumulated] attempts: by
    completing a burst, of which one is handed out, or by a refusal of the
    wrapped limiter. *)
Lemma burst_accumulate_spec fuel clk (b : BurstingRateLimiter R) r :
  burst_ok b -> releasing_ b = false ->
  (Z.to_nat (burst_size_ b - accumulated_ b) <= fuel)%nat ->
  burst_accumulate fuel clk b = Ok r ->
  exists x b', r = Some (x, b') /\ burst_ok b' /\ burst_size_ b' = burst_size_ b /\
    if x then accumulated_ b' = burst_size_ b - 1 /\ releasing_ b' = (0 <? burst_size_ b - 1) /\
              previously_releasing_ b' = Some true
    else releasing_ b' = false /\ previously_releasing_ b' = None.
Proof.
  revert b. induction fuel as [|fuel IH]; intros b (Hsize & Hacc) Hrel Hfuel Hrun;
    rewrite Hrel in Hacc; [lia|].
  cbn in Hrun. apply obind_Ok in Hrun as ([granted lim] & _ & Hrun).
  destruct granted; cbn in Hrun.
  - rewrite u64_small in Hrun by (unfold in_u64; lia).
    rewrite burst_mod in Hrun by lia. destruct (Z.eqb_spec (accumulated_ b + 1) (burst_size_ b)).
    + rewrite burst_drain_eq in Hrun by (cbn; lia). cbn in Hrun. injection Hrun as <-.
      eexists _, _. split; [done|]. cbn. split.
      { split; cbn; [lia|]. destruct (0 <? accumulated_ b + 1 - 1) eqn:E; b2p; lia. }
      repeat split; lia.
    + eapply IH in Hrun as (x & b' & -> & Hok & Hs & Hres); cbn in *; [eauto 10| |done|lia].
      split; cbn; [lia|]. rewrite Hrel. lia.
  - injection Hrun as <-. eexists _, _. split; [done|]. unfold burst_ok. cbn. rewrite Hrel.
    repeat split; try lia.
Qed.

Lemma burst_accumulate_answers clk :
  (forall r, exists x r', tryAcquireOne clk r = Ok (x, r')) ->
  forall fuel (b : BurstingRateLimiter R), exists r, burst_accumulate fuel clk b = Ok r.
Proof.
  intros Hwrapped. induction fuel as [|fuel IH]; intros b; [by eexists|].
  cbn. destruct (Hwrapped (burst_limiter b)) as (x & r' & ->). cbn.
  destruct x; [|by eexists]. split_ifs; [by eexists|apply IH].
Qed.

(** The bursting limiter's loop ends: with the wrapped limiter answering,
    [tryAcquireOne()] answers too, and keeps the accumulated total within one
    burst. *)
Lemma bursting_tryAcquireOne_total clk (b : BurstingRateLimiter R) :
  burst_ok b ->
  (forall r, exists x r', tryAcquireOne clk r = Ok (x, r')) ->
  exists x b', BurstingRateLimiter_tryAcquireOne clk b = Ok (x, b') /\ burst_ok b'.
Proof.
  intros Hb Hwrapped. unfold BurstingRateLimiter_tryAcquireOne. cbv zeta. cbn [releasing_].
  destruct (releasing_ b) eqn:Hrel.
  - eexists _, _. split; [done|]. destruct Hb as [Hs Ha]. rewrite Hrel in Ha.
    rewrite burst_drain_eq by (cbn; lia). split; cbn; [lia|].
    destruct (0 <? accumulated_ b - 1) eqn:E; b2p; lia.
  - set (b0 := mkBursting _ _ _ _ _).
    assert (Hb0 : burst_ok b0) by (destruct Hb; split; cbn; [lia|by rewrite Hrel in *]).
    destruct (burst_accumulate_answers clk Hwrapped (S (Z.to_nat (burst_size_ b0))) b0) as [r Hr].
    rewrite Hr.
    apply burst_accumulate_spec in Hr as (x & b' & -> & Hok' & _); [eauto|done|done|].
    destruct Hb0 as [_ Ha]. cbn [releasing_ b0] in Ha. cbn in *. lia.
Qed.

(** A limiter in the release mode hands out without asking the wrapped one. *)
Lemma burst_release_run clks (b : BurstingRateLimiter R) n :
  burst_ok b -> releasing_ b = true -> accumulated_ b = Z.of_nat (length clks) ->
  exists b', drive (map Acquire clks) n b = Ok (n + Z.of_nat (length clks), b') /\
    accumulated_ b' = 0 /\ releasing_ b' = false /\ burst_limiter b' = burst_limiter b.
Proof.
  revert b n. induction clks as [|clk clks IH]; intros b n [Hs Ha] Hrel Hlen; rewrite Hrel in Ha.
  - cbn in Hlen. lia.
  - cbn [map drive]. cbn [tryAcquireOne BurstingRateLimiter_RateLimiter].
    unfold BurstingRateLimiter_tryAcquireOne. cbv zeta. cbn [releasing_]. rewrite Hrel.
    rewrite burst_drain_eq by (cbn; lia).
    cbn [burst_limiter burst_size_ accumulated_ obind fst snd].
    destruct clks as [|clk' clks].
    + cbn in *. replace (accumulated_ b - 1) with 0 by lia. eexists. split; [done|]. done.
    + set (b1 := mkBursting _ _ _ _ _).
      destruct (IH b1 (n + 1)) as (b' & Hd & Hb').
      * split; cbn in *; [lia|]. rewrite (proj2 (Z.ltb_lt _ _)); lia.
      * cbn. apply Z.ltb_lt. cbn in Hlen. lia.
      * cbn in *. lia.
      * exists b'. split; [|done]. rewrite Hd. f_equal. f_equal. cbn. lia.
Qed.

(** Bursts are whole: when an accumulating limiter of size [k + 1] starts
    to release, the [k] attempts that follow succeed as well, at whatever
    times and without asking the wrapped limiter, and then the limiter
    accumulates again from nothing. *)
Lemma bursting_releases_whole_bursts clk clks (b b1 : BurstingRateLimiter R) :
  burst_ok b -> releasing_ b = false ->
  BurstingRateLimiter_tryAcquireOne clk b = Ok (true, b1) ->
  burst_size_ b = Z.of_nat (length clks) + 1 ->
  exists b2, drive (map Acquire clks) 1 b1 = Ok (burst_size_ b, b2) /\
    accumulated_ b2 = 0 /\ releasing_ b2 = false /\ burst_limiter b2 = burst_limiter b1.
Proof.
  intros Hb Hrel Htry Hsize. unfold BurstingRateLimiter_tryAcquireOne in Htry.
  cbv zeta in Htry. cbn [releasing_] in Htry. rewrite Hrel in Htry.
  set (b0 := mkBursting _ _ _ _ _) in Htry.
  apply obind_Ok in Htry as (r & Hacc & Hr).
  destruct Hb as [Hs Ha]. rewrite Hrel in Ha.
  apply burst_accumulate_spec in Hacc as (x & b' & -> & Hok & Hs' & Hres);
    [|split; cbn; rewrite ?Hrel; lia|done|cbn; lia].
  injection Hr as -> ->. destruct Hres as (Hacc' & Hrel' & _). cbn in Hs', Hacc', Hrel'.
  destruct clks as [|c clks].
  - exists b1. cbn in *. repeat split; [|lia|].
    + do 2 f_equal. lia.
    + rewrite Hrel'. apply Z.ltb_ge. lia.
  - destruct (burst_release_run (c :: clks) b1 1) as (b2 & Hd & Hb2); [done| |cbn in *; lia|].
    { rewrite Hrel'. apply Z.ltb_lt. cbn in Hsize. lia. }
    exists b2. split; [|done]. rewrite Hd. do 2 f_equal. lia.
Qed.

(** Giving back what a bursting limiter handed out: the assertions of
    [releaseOne()] hold after a successful acquisition, and the next attempt
    succeeds again and leaves the limiter as the first one did. *)
Lemma bursting_release_restores clk clk' clk'' (b b1 b2 : BurstingRateLimiter R) :
  burst_ok b -> BurstingRateLimiter_tryAcquireOne clk b = Ok (true, b1) ->
  BurstingRateLimiter_releaseOne clk' b1 = Ok b2 ->
  burst_release_asserts b1 = true /\ burst_ok b2 /\
  BurstingRateLimiter_tryAcquireOne clk'' b2 = Ok (true, b1).
Proof.
  intros [Hs Ha] Htry [= <-].
  assert (Hb1 : 0 <= accumulated_ b1 < burst_size_ b1 /\ burst_size_ b1 < 2 ^ 64 /\
    releasing_ b1 = (0 <? accumulated_ b1) /\ previously_releasing_ b1 = Some true).
  { unfold BurstingRateLimiter_tryAcquireOne in Htry. cbv zeta in Htry. cbn [releasing_] in Htry.
    destruct (releasing_ b) eqn:Hrel.
    - injection Htry as <-. rewrite burst_drain_eq by (cbn; lia). cbn. repeat split; lia.
    - apply obind_Ok in Htry as (r & Hacc & Hr).
      apply burst_accumulate_spec in Hacc as (x & b' & -> & Hok & Hs' & Hres);
        [|split; cbn; rewrite ?Hrel; lia|done|cbn; lia].
      injection Hr as -> ->. cbn in *. destruct Hres as (-> & -> & ->). rewrite Hs'. repeat split; lia. }
  destruct Hb1 as (Hacc & Hmax & Hrel & Hprev). split; [|split].
  - unfold burst_release_asserts. rewrite Hprev. lia.
  - rewrite u64_small by (unfold in_u64; lia). split; cbn; lia.
  - rewrite u64_small by (unfold in_u64; lia).
    unfold BurstingRateLimiter_tryAcquireOne. cbn.
    rewrite burst_drain_eq by (cbn; lia). cbn. destruct b1 as [r size acc rel prev]. cbn in *. subst.
    replace (acc + 1 - 1) with acc by lia. done.
Qed.

End BurstingProofs.

(** ** The contract of [timeUntilNextRelease()] *)

Section LowerBound.

Context {R : Set} `{RateLimiter R}.

(** One attempt on the wrapped limiter, refused, ends each wrapper's. *)

Lemma burst_refused clk' (r r' : R) size acc prev :
  tryAcquireOne clk' r = Ok (false, r') ->
  BurstingRateLimiter_tryAcquireOne clk' (mkBursting r size acc false prev) =
    Ok (false, mkBursting r' size acc false None).
Proof. intros E. unfold BurstingRateLimiter_tryAcquireOne. cbn. by rewrite E. Qed.

Lemma bursting_lower_bound clk (r : R) size acc rel prev :
  wait_is_lower_bound clk r -> wait_is_lower_bound clk (mkBursting r size acc rel prev).
Proof.
  intros Hr w b' Hw clk' Ht. cbn in Hw |- *.
  unfold BurstingRateLimiter_timeUntilNextRelease in Hw. cbn in Hw.
  destruct rel; [injection Hw as <- <-; lia|].
  apply obind_Ok in Hw as ([o r'] & Hok & Hw). cbn in Hw. injection Hw as -> <-.
  destruct (Hr _ _ Hok clk' Ht) as [r'' Hrefused]. eexists. by eapply burst_refused.
Qed.

Lemma scheduled_lower_bound clk (r : R) start attempted :
  wait_is_lower_bound clk r -> wait_is_lower_bound clk (mkScheduled r start attempted).
Proof.
  intros Hr w s' Hw clk' Ht. cbn in Hw |- *.
  unfold ScheduledStartingRateLimiter_timeUntilNextRelease in Hw. cbn in Hw.
  unfold ScheduledStartingRateLimiter_tryAcquireOne. destruct (monotonicTime clk <? start) eqn:E; b2p.
  - injection Hw as <- <-. cbn. rewrite (proj2 (Z.ltb_lt _ _)) by lia. eauto.
  - apply obind_Ok in Hw as ([o r'] & Hok & Hw). injection Hw as -> <-. cbn.
    rewrite (proj2 (Z.ltb_ge _ _)) by lia.
    destruct (Hr _ _ Hok clk' Ht) as [r'' Hrefused]. rewrite Hrefused. cbn. eauto.
Qed.

Lemma delegating_lower_bound {G : Set} (gen : G -> Z * G) clk (r : R) g timings pending :
  wait_is_lower_bound clk r ->
  @wait_is_lower_bound _ (DelegatingRateLimiterImpl_RateLimiter gen) clk
    (mkDelegating r g timings pending).
Proof.
  intros Hr w d' Hw clk' Ht. cbn in Hw |- *.
  unfold DelegatingRateLimiterImpl_timeUntilNextRelease in Hw.
  apply obind_Ok in Hw as ([o r'] & Hok & Hw). cbn in Hw.
  destruct o as [wrapped|]; [|done].
  unfold DelegatingRateLimiterImpl_tryAcquireOne.
  destruct timings as [|front timings]; injection Hw as <- <-; cbn in Ht |- *.
  - destruct (Hr _ _ Hok clk' Ht) as [r'' Hrefused]. rewrite Hrefused. cbn. eauto.
  - destruct (Hr _ _ Hok clk') as [r'' Hrefused]; [lia|]. rewrite Hrefused. cbn.
    rewrite (proj2 (Z.leb_gt _ _)) by lia. eauto.
Qed.

Lemma filtering_lower_bound {G : Set} (filter : clock -> R -> G -> bool * R * G) clk (r : R) g :
  wait_is_lower_bound clk r ->
  @wait_is_lower_bound _ (FilteringRateLimiterImpl_RateLimiter filter) clk (mkFiltering r g).
Proof.
  intros Hr w f' Hw clk' Ht. cbn in Hw |- *.
  unfold FilteringRateLimiterImpl_timeUntilNextRelease in Hw.
  apply obind_Ok in Hw as ([o r'] & Hok & Hw). cbn in Hw. injection Hw as -> <-.
  unfold FilteringRateLimiterImpl_tryAcquireOne. cbn.
  destruct (Hr _ _ Hok clk' Ht) as [r'' Hrefused]. rewrite Hrefused. cbn. eauto.
Qed.

End LowerBound.

(** ** ScheduledStartingRateLimiter *)

Section ScheduledProofs.

Context {R : Set} `{RateLimiter R}.

(** A scheduled limiter is shut before its starting time and leaves the
    wrapped limiter untouched, so that limiter's clock cannot start early;
    from the starting time on it answers as the wrapped limiter does; a
    release before the starting time is an error. *)
Lemma scheduled_start clk (s : ScheduledStartingRateLimiter R) :
  (monotonicTime clk < scheduled_starting_time_ s ->
    (exists s', ScheduledStartingRateLimiter_tryAcquireOne clk s = Ok (false, s') /\
                sched_limiter s' = sched_limiter s) /\
    ScheduledStartingRateLimiter_releaseOne clk s =
      Throw (NighthawkException "Unexpected call to releaseOne()")) /\
  (scheduled_starting_time_ s <= monotonicTime clk ->
    forall x s', ScheduledStartingRateLimiter_tryAcquireOne clk s = Ok (x, s') <->
      exists r, tryAcquireOne clk (sched_limiter s) = Ok (x, r) /\
        s' = mkScheduled r (scheduled_starting_time_ s) true).
Proof.
  unfold ScheduledStartingRateLimiter_tryAcquireOne, ScheduledStartingRateLimiter_releaseOne.
  split; intros Ht.
  - rewrite (proj2 (Z.ltb_lt _ _)) by lia. split; [|done]. eexists. split; [done|]. done.
  - rewrite (proj2 (Z.ltb_ge _ _)) by lia. intros x s'. rewrite obind_Ok_iff. split.
    + intros ([y r] & E & [= -> <-]). eauto.
    + intros (r & E & ->). exists (x, r). done.
Qed.

End ScheduledProofs.

(** ** DelegatingRateLimiterImpl: released in order, none early, none lost *)

Section DelegatingProofs.

Context {R : Set} `{RateLimiter R} {G : Set} (gen : G -> Z * G).

Lemma insert_upper_bound_perm x l : Permutation (insert_upper_bound x l) (x :: l).
Proof.
  induction l as [|y l IH]; cbn; [done|]. split_ifs; [done|]. rewrite IH. apply Permutation_swap.
Qed.

Lemma insert_upper_bound_sorted x l :
  Sorted Z.le l -> Sorted Z.le (insert_upper_bound x l).
Proof.
  induction 1 as [|y l Hs IH Hy]; cbn; [by repeat constructor|].
  destruct (x <? y) eqn:E; b2p.
  - constructor; [by constructor|]. constructor. lia.
  - constructor; [done|]. destruct l as [|z l]; cbn; [by constructor; lia|].
    inversion Hy; subst. split_ifs; constructor; b2p; lia.
Qed.

(** What an attempt queues: the timing the delegate gives an acquisition of
    the wrapped limiter. *)
Definition deleg_queued (clk : clock) (granted : bool) (d : DelegatingRateLimiterImpl R G) : list Z :=
  if granted then [i64 (monotonicTime clk + fst (gen (deleg_generator d)))] else [].

(** One attempt on the delegating limiter: the wrapped limiter is asked
    once and what it grants is queued at the delegate's offset; the queue
    stays sorted; an attempt succeeds exactly when the earliest queued timing
    has passed, and takes that one off the queue; nothing is lost or made
    up. *)
Lemma delegating_step clk (d d' : DelegatingRateLimiterImpl R G) x :
  Sorted Z.le (distributed_timings_ d) ->
  DelegatingRateLimiterImpl_tryAcquireOne gen clk d = Ok (x, d') ->
  exists granted r, tryAcquireOne clk (deleg_limiter d) = Ok (granted, r) /\
    Sorted Z.le (distributed_timings_ d') /\
    let queue := deleg_queued clk granted d ++ distributed_timings_ d in
    if x then exists t, t <= monotonicTime clk /\
                Permutation queue (t :: distributed_timings_ d') /\
                Forall (Z.le t) (distributed_timings_ d') /\
                sanity_check_pending_release_ d' = false
    else Permutation queue (distributed_timings_ d') /\
         Forall (Z.lt (monotonicTime clk)) (distributed_timings_ d').
Proof.
  intros Hsorted Hrun. unfold DelegatingRateLimiterImpl_tryAcquireOne in Hrun.
  apply obind_Ok in Hrun as ([granted r] & E & Hrun). exists granted, r. split; [done|].
  cbn [fst snd] in Hrun. set (d1 := mkDelegating r _ _ _) in Hrun.
  set (d2 := if granted then deleg_enqueue gen (monotonicTime clk) d1 else d1) in Hrun.
  assert (Hd2 : Sorted Z.le (distributed_timings_ d2) /\
    Permutation (deleg_queued clk granted d ++ distributed_timings_ d) (distributed_timings_ d2)).
  { unfold d2, deleg_queued. destruct granted; [|done]. unfold deleg_enqueue. cbn.
    destruct (gen (deleg_generator d)) as [off g]. cbn.
    split; [by apply insert_upper_bound_sorted|]. by rewrite insert_upper_bound_perm. }
  destruct Hd2 as [Hs2 Hp2].
  destruct (distributed_timings_ d2) as [|front rest] eqn:Eq.
  { injection Hrun as <- <-. rewrite Eq. repeat split; done. }
  apply Sorted_StronglySorted in Hs2 as Hss; [|intros ????; lia]. inversion Hss; subst.
  destruct (front <=? monotonicTime clk) eqn:El; b2p; injection Hrun as <- <-; cbn.
  - split; [by inversion Hs2|]. exists front. repeat split; [lia|done|done].
  - rewrite Eq. repeat split; [done|done|]. constructor; [lia|].
    eapply Forall_impl; [done|]. cbn. intros. lia.
Qed.

End DelegatingProofs.

(** ** GraduallyOpeningRateLimiterFilter *)

(** The gradually opening filter is shut at the start of the ramp, whatever
    the sampler draws from its range, and lets everything through from the end
    of the ramp on, without drawing. *)
Lemma gradually_opening_ends {R G : Set} `{RateLimiter R} `{Sampler G}
    (ramp_time : Z) (clk : clock) (r r' : R) (g g' : G) (e v : Z) :
  0 < ramp_time < 2 ^ 53 -> elapsed clk r = (e, r') ->
  getValue g = (v, g') -> 1 <= v <= 1000000 -> sampler_max g' = 1000000 ->
  (e = 0 -> gradually_opening_filter ramp_time clk r g = (false, r', g')) /\
  (ramp_time <= e -> gradually_opening_filter ramp_time clk r g = (true, r', g)).
Proof.
  intros Hramp He Hv Hrange Hmax. unfold gradually_opening_filter. rewrite He. split; intros Hend.
  - subst e. rewrite (proj2 (Z.ltb_lt _ _)) by lia. rewrite Hv, Hmax, Z.sub_0_r.
    rewrite dmul_one_exact, ddiv_self_exact, dmul_one_exact_l by lia.
    replace (dsub d1 d1) with (S754_zero false) by reflexivity.
    by rewrite ddiv_not_negative by lia.
  - by rewrite (proj2 (Z.ltb_ge _ _)) by lia.
Qed.
