(* ===== verification/RateLimiterFactory.v ===== *)
(** * Which limiter a worker is given

    Models [perWorkerRequestsPerSecond()] and
    [LinearRampingRateLimiterImplFactory::createRateLimiterPlugin()] of
    [engine/source/common/rate_limiter_impl.cc] and the limiter that
    [SequencerFactoryImpl::create()] of
    [engine/source/client/factories_impl.cc] builds from the options: a linear
    limiter behind a scheduled start, bursting and jittered when asked for, or
    a plugin behind a scheduled start. *)

From S2P Require Import Prelude Double DoubleExact Text RateLimiter RateLimiterWrappers.

(** ** A pointer to a limiter *)

(** [std::unique_ptr<RateLimiter>]: a limiter of some type, with its
    methods. *)
Record RateLimiterPtr : Type := mkPtr {
  ptr_type : Set;
  ptr_methods : RateLimiter ptr_type;
  ptr_limiter : ptr_type;
}.

Arguments mkPtr {_} _ _.

Definition as_ptr {S : Set} {M : RateLimiter S} (s : S) : RateLimiterPtr := mkPtr M s.

#[export] Instance RateLimiterPtr_RateLimiter : RateLimiter RateLimiterPtr := {
  tryAcquireOne clk p :=
    let* r := @tryAcquireOne _ (ptr_methods p) clk (ptr_limiter p) in
    Ok (fst r, mkPtr (ptr_methods p) (snd r));
  releaseOne clk p :=
    let* r := @releaseOne _ (ptr_methods p) clk (ptr_limiter p) in
    Ok (mkPtr (ptr_methods p) r);
  elapsed clk p :=
    let '(e, r) := @elapsed _ (ptr_methods p) clk (ptr_limiter p) in (e, mkPtr (ptr_methods p) r);
  firstAcquisitionTime p := @firstAcquisitionTime _ (ptr_methods p) (ptr_limiter p);
  timeUntilNextRelease clk p :=
    let* r := @timeUntilNextRelease _ (ptr_methods p) clk (ptr_limiter p) in
    Ok (fst r, mkPtr (ptr_methods p) (snd r));
}.

(** ** The options a limiter depends on *)

(** A [LinearRampingRateLimiterConfig]'s [ramp_time], or a plugin that could
    not be loaded, with the message. *)
Inductive PluginConfig : Type :=
| LinearRampingConfig (seconds nanos : Z)
| BadPlugin (message : string).

Record PacingOptions : Type := mkPacing {
  opt_requestsPerSecond : Z;
  opt_concurrency : string;
  opt_grpcBidiStream : bool;
  opt_websocket : bool;
  opt_burstSize : Z;
  opt_jitterUniform : Z;
  opt_noDuration : bool;
  opt_duration : Z;
  opt_rateLimiterPluginConfig : option PluginConfig;
}.

(** The division is on [uint32_t]; [std::stoi] throws when [concurrency] is
    not a number, and dividing by zero is undefined. *)
Definition perWorkerRequestsPerSecond (o : PacingOptions) : outcome Z :=
  if opt_grpcBidiStream o || opt_websocket o
  then match stoi (opt_concurrency o) with
       | None => Throw (EnvoyException "stoi")
       | Some c =>
           if u32 c =? 0 then Undefined else Ok (opt_requestsPerSecond o / u32 c)
       end
  else Ok (opt_requestsPerSecond o).

(** [options.duration()] is in seconds. *)
Definition createRateLimiterPlugin (seconds nanos : Z) (o : PacingOptions) :
    outcome LinearRampingRateLimiterImpl :=
  let* rps := perWorkerRequestsPerSecond o in
  let ramp_time := seconds * 1000000000 + nanos in
  if ramp_time <=? 0
  then Throw (NighthawkException "ramp_time must be positive and > 0ns")
  else if negb (opt_noDuration o) && (opt_duration o * 1000000000 <? ramp_time)
  then Throw (NighthawkException
                "ramp_time must be less than or equal to time specified by --duration")
  else LinearRampingRateLimiterImpl_new ramp_time (Frequency_ rps).

Section Create.

Context {G : Set} `{Sampler G}.

(** The part of [SequencerFactoryImpl::create()] that builds the limiter.
    [uniform upper] is a [UniformRandomDistributionSamplerImpl(upper)]. *)
Definition create_rate_limiter (uniform : Z -> G) (scheduled_starting_time : Z) (o : PacingOptions) :
    outcome RateLimiterPtr :=
  match opt_rateLimiterPluginConfig o with
  | Some (BadPlugin message) =>
      Throw (NighthawkException ("Rate Limiter plugin loading error: " +:+ message))
  | Some (LinearRampingConfig seconds nanos) =>
      let* plugin := createRateLimiterPlugin seconds nanos o in
      Ok (as_ptr (ScheduledStartingRateLimiter_new plugin scheduled_starting_time))
  | None =>
      let* rps := perWorkerRequestsPerSecond o in
      let* linear := LinearRateLimiter_new (Frequency_ rps) in
      let scheduled := ScheduledStartingRateLimiter_new linear scheduled_starting_time in
      let jitter := opt_jitterUniform o in
      if negb (opt_burstSize o =? 0) then
        let bursting := BurstingRateLimiter_new scheduled (opt_burstSize o) in
        if 0 <? jitter
        then Ok (@as_ptr _ (DelegatingRateLimiterImpl_RateLimiter DistributionSampling_delegate)
                   (DelegatingRateLimiterImpl_new bursting (uniform jitter)))
        else Ok (as_ptr bursting)
      else if 0 <? jitter
      then Ok (@as_ptr _ (DelegatingRateLimiterImpl_RateLimiter DistributionSampling_delegate)
                 (DelegatingRateLimiterImpl_new scheduled (uniform jitter)))
      else Ok (as_ptr scheduled)
  end.

(** ** Nothing before the scheduled start *)

Lemma ptr_shut {S : Set} {M : RateLimiter S} (s : S) t0 t1 :
  closed_until t0 t1 s -> closed_until t0 t1 (as_ptr s).
Proof.
  intros Hs clk Ht. destruct (Hs clk Ht) as [s' E]. cbn. rewrite E. cbn. eauto.
Qed.

Lemma scheduled_shut {R : Set} `{RateLimiter R} (r : R) start attempted t0 :
  closed_until t0 start (mkScheduled r start attempted).
Proof.
  intros clk Ht. cbn. unfold ScheduledStartingRateLimiter_tryAcquireOne. cbn.
  rewrite (proj2 (Z.ltb_lt _ _)) by lia. eauto.
Qed.

Lemma bursting_shut {R : Set} `{RateLimiter R} (r : R) size t0 t1 :
  closed_until t0 t1 r -> closed_until t0 t1 (BurstingRateLimiter_new r size).
Proof.
  intros Hr clk Ht. destruct (Hr clk Ht) as [r' E]. eexists.
  cbn [tryAcquireOne BurstingRateLimiter_RateLimiter]. unfold BurstingRateLimiter_new.
  by eapply burst_refused.
Qed.

Lemma delegating_shut {R : Set} `{RateLimiter R} (gen : G -> Z * G) (r : R) g t0 t1 :
  closed_until t0 t1 r ->
  @closed_until _ (DelegatingRateLimiterImpl_RateLimiter gen) t0 t1
    (DelegatingRateLimiterImpl_new r g).
Proof.
  intros Hr clk Ht. destruct (Hr clk Ht) as [r' E]. cbn.
  unfold DelegatingRateLimiterImpl_tryAcquireOne. cbn. rewrite E. cbn. eauto.
Qed.

(** Whatever the options, the limiter a worker is given refuses every
    acquisition attempted before the scheduled starting time. *)
Lemma created_limiter_shut_before_start uniform start o p t0 :
  create_rate_limiter uniform start o = Ok p -> closed_until t0 start p.
Proof.
  unfold create_rate_limiter. intros Hp.
  destruct (opt_rateLimiterPluginConfig o) as [[seconds nanos|message]|].
  - apply obind_Ok in Hp as (plugin & _ & [= <-]). apply ptr_shut, scheduled_shut.
  - done.
  - apply obind_Ok in Hp as (rps & _ & Hp). apply obind_Ok in Hp as (linear & _ & Hp).
    split_ifs_in Hp; injection Hp as <-; apply ptr_shut.
    + apply delegating_shut, bursting_shut, scheduled_shut.
    + apply bursting_shut, scheduled_shut.
    + apply delegating_shut, scheduled_shut.
    + apply scheduled_shut.
Qed.

End Create.

(** ** The contract of [timeUntilNextRelease()] through the stack *)


(** A sampler that draws the same offset every time, the largest one. *)
#[export] Instance constant_sampler : Sampler Z := {
  getValue upper := (upper, upper);
  sampler_min _ := 0;
  sampler_max upper := upper;
}.




(** ** Jitter around bursts *)

(** 1000 requests per second in bursts of three, with up to 1 ms of jitter. *)
Definition jittered_bursts : PacingOptions :=
  mkPacing 1000 "1" false false 3 1000000 false 60 None.

Abbreviation jittered_stack :=
  (DelegatingRateLimiterImpl
     (BurstingRateLimiter (ScheduledStartingRateLimiter LinearRateLimiter)) Z).

Definition jittered_methods : RateLimiter jittered_stack :=
  DelegatingRateLimiterImpl_RateLimiter DistributionSampling_delegate.

Definition jittered_new : jittered_stack :=
  DelegatingRateLimiterImpl_new
    (BurstingRateLimiter_new
       (ScheduledStartingRateLimiter_new
          (mkLinear base_init counts_init (Frequency_ 1000)) 0) 3) 1000000.

(** The clock starts; the first burst falls due at 2.5 ms and is queued for
    3.5 ms, when the first of the next burst falls due. *)
Definition jittered_uses : list use :=
  [Acquire (Clock 0 0); Acquire (Clock 2500000 0); Acquire (Clock 2500000 0);
   Acquire (Clock 2500000 0); Acquire (Clock 3500000 0)].

Definition jittered_after : jittered_stack :=
  mkDelegating
    (mkBursting
       (mkScheduled (mkLinear (mkBase (Some 0) (Some 0)) (mkCounts 0 4) (Frequency_ 1000)) 0 true)
       3 1 false None) 1000000 [3500000; 3500000] false.

(** The bursting limiter's assertion on [releaseOne()] does not hold
    under the jittering limiter. The factory builds this stack; when the
    jittering limiter grants an acquisition from its queue, the bursting one
    inside may be accumulating. Giving the acquisition back then makes it
    release a burst that is not complete: two requests of a burst of three. *)
Lemma jitter_breaks_burst_release :
  create_rate_limiter (fun upper => upper) 0 jittered_bursts =
    Ok (@as_ptr _ jittered_methods jittered_new) /\
  @drive _ jittered_methods jittered_uses 0 jittered_new = Ok (1, jittered_after) /\
  burst_release_asserts (deleg_limiter jittered_after) = false /\
  exists d, DelegatingRateLimiterImpl_releaseOne (Clock 3500000 0) jittered_after = Ok d /\
    burst_limiter (deleg_limiter d) = burst_limiter (deleg_limiter jittered_after) /\
    releasing_ (deleg_limiter d) = true /\ accumulated_ (deleg_limiter d) = 2.
Proof.
  split; [reflexivity|]. split; [vm_compute; reflexivity|]. split; [reflexivity|].
  eexists. repeat split.
Qed.

(** ** The wrappers at work *)

Lemma created_limiter_shut_before_start_witness :
  closed_until 0 1000 (@as_ptr _ jittered_methods
    (DelegatingRateLimiterImpl_new
       (BurstingRateLimiter_new
          (ScheduledStartingRateLimiter_new
             (mkLinear base_init counts_init (Frequency_ 1000)) 1000) 3) 1000000)).
Proof.
  apply (created_limiter_shut_before_start (G := Z) (fun upper => upper) 1000 jittered_bursts).
  reflexivity.
Defined.

(** A limiter that grants whatever is asked of it. *)
#[export] Instance generous : RateLimiter unit := {
  tryAcquireOne _ s := Ok (true, s);
  releaseOne _ s := Ok s;
  elapsed clk s := (monotonicTime clk, s);
  firstAcquisitionTime _ := None;
  timeUntilNextRelease _ s := Ok (None, s);
}.

Definition generous_bursts : BurstingRateLimiter unit := mkBursting tt 3 0 false None.

Lemma generous_bursts_ok : burst_ok generous_bursts.
Proof. split; cbn; lia. Qed.

Lemma bursting_tryAcquireOne_total_witness :
  exists x b', BurstingRateLimiter_tryAcquireOne (Clock 0 0) generous_bursts = Ok (x, b') /\
    burst_ok b'.
Proof.
  apply (bursting_tryAcquireOne_total (Clock 0 0) generous_bursts); [exact generous_bursts_ok|].
  intros r. by eexists _, _.
Defined.

Lemma bursting_releases_whole_bursts_witness :
  exists b2, drive (map Acquire [Clock 1 0; Clock 2 0]) 1 (mkBursting tt 3 2 true (Some true)) =
      Ok (3, b2) /\
    accumulated_ b2 = 0 /\ releasing_ b2 = false.
Proof.
  destruct (bursting_releases_whole_bursts (Clock 0 0) [Clock 1 0; Clock 2 0] generous_bursts
              (mkBursting tt 3 2 true (Some true))) as (b2 & E & Ha & Hr & _).
  - exact generous_bursts_ok.
  - reflexivity.
  - reflexivity.
  - reflexivity.
  - exists b2. split; [exact E|]. split; [exact Ha|exact Hr].
Defined.

Lemma bursting_release_restores_witness :
  BurstingRateLimiter_tryAcquireOne (Clock 2 0) (mkBursting tt 3 3 true None) =
    Ok (true, mkBursting tt 3 2 true (Some true)).
Proof.
  apply (bursting_release_restores (Clock 0 0) (Clock 1 0) (Clock 2 0) generous_bursts
           (mkBursting tt 3 2 true (Some true)) (mkBursting tt 3 3 true None)).
  - exact generous_bursts_ok.
  - reflexivity.
  - reflexivity.
Defined.

Lemma scheduled_start_witness :
  ScheduledStartingRateLimiter_releaseOne (Clock 5 0) (mkScheduled tt 10 false) =
    Throw (NighthawkException "Unexpected call to releaseOne()") /\
  ScheduledStartingRateLimiter_tryAcquireOne (Clock 10 0) (mkScheduled tt 10 false) =
    Ok (true, mkScheduled tt 10 true).
Proof.
  split.
  - apply (scheduled_start (Clock 5 0) (mkScheduled tt 10 false)). cbn. lia.
  - apply (scheduled_start (Clock 10 0) (mkScheduled tt 10 false)); [cbn; lia|].
    exists tt. split; reflexivity.
Defined.

Lemma delegating_step_witness :
  exists granted r t, tryAcquireOne (Clock 9 0) tt = Ok (granted, r) /\
    Permutation (deleg_queued DistributionSampling_delegate (Clock 9 0) granted
                   (mkDelegating tt 5 [8; 20] false) ++ [8; 20]) (t :: [14; 20]).
Proof.
  destruct (delegating_step DistributionSampling_delegate (Clock 9 0)
              (mkDelegating tt (5 : Z) [8; 20] true) (mkDelegating tt 5 [14; 20] false) true)
    as (granted & r & E & _ & t & _ & Hp & _).
  - repeat constructor; lia.
  - vm_compute. reflexivity.
  - exists granted, r, t. split; [exact E|]. exact Hp.
Defined.

Lemma gradually_opening_ends_witness :
  gradually_opening_filter 1000 (Clock 1000 0) tt (1000000 : Z) = (true, tt, 1000000).
Proof.
  apply (gradually_opening_ends 1000 (Clock 1000 0) tt tt (1000000 : Z) 1000000 1000 1000000);
    (reflexivity || lia).
Defined.
