(* ===== verification/Termination.v ===== *)
(** * Termination predicates

    Models [engine/source/common/termination_predicate_impl.{h,cc}] and
    [TerminationPredicateFactoryImpl] of
    [engine/source/client/factories_impl.cc]: the chain of conditions the
    sequencer evaluates before it releases requests. *)

From S2P Require Import Prelude.

(** [TerminationPredicate::Status]. *)
Inductive Status : Type := PROCEED | TERMINATE | FAIL.

#[export] Instance Status_eq_dec : EqDecision Status.
Proof. solve_decision. Defined.

(** A predicate on the time since [start_] (nanoseconds; the duration is in
    microseconds), or on the value of a counter of the worker's scope. *)
Inductive TerminationPredicate : Type :=
| DurationTerminationPredicateImpl (start_ duration_ : Z)
| StatsCounterAbsoluteThresholdTerminationPredicateImpl
    (counter_ : string) (counter_limit_ : Z) (termination_status_ : Status).

(** What predicates read: the monotonic time and the counters. *)
Record observed : Type := mkObserved { obs_now : Z; obs_counters : gmap string Z }.

Definition counter_value (o : observed) (name : string) : Z := default 0 (obs_counters o !! name).

Definition evaluate (o : observed) (p : TerminationPredicate) : Status :=
  match p with
  | DurationTerminationPredicateImpl start duration =>
      if duration * 1000 <? obs_now o - start then TERMINATE else PROCEED
  | StatsCounterAbsoluteThresholdTerminationPredicateImpl counter limit status =>
      if limit <? counter_value o counter then status else PROCEED
  end.

(** A predicate with the chain linked below it: this one first, its child
    next. *)
Fixpoint evaluateChain (o : observed) (chain : list TerminationPredicate) : Status :=
  match chain with
  | [] => PROCEED
  | p :: child =>
      let status := evaluateChain o child in
      if decide (status = PROCEED) then evaluate o p else status
  end.

(** [link]: a predicate takes one child, once. *)
Definition link (chain : list TerminationPredicate) (child : TerminationPredicate) :
    outcome (list TerminationPredicate) :=
  match chain with
  | [p] => Ok [p; child]
  | _ => Panic "Linked child already set"
  end.

(** [appendToChain]: links at the end of the chain. *)
Fixpoint appendToChain (chain : list TerminationPredicate) (child : TerminationPredicate) :
    outcome (list TerminationPredicate) :=
  match chain with
  | p :: tail =>
      match tail with
      | [] => link chain child
      | _ => let* tail := appendToChain tail child in Ok (p :: tail)
      end
  | [] => link chain child
  end.

(** ** TerminationPredicateFactoryImpl *)

Record TerminationOptions : Type := mkTerminationOptions {
  term_noDuration : bool;
  term_duration : Z;
  term_failurePredicates : list (string * Z);
  term_terminationPredicates : list (string * Z);
}.

(** Each predicate is linked below the last one, which has no child yet: at
    the end of the list. The maps are iterated in key order. *)
Definition linkConfiguredPredicates (last : list TerminationPredicate)
    (predicates : list (string * Z)) (status : Status) : outcome (list TerminationPredicate) :=
  if decide (status = PROCEED) then Panic "PROCEED was unexpected"
  else Ok (last ++ map (fun p =>
         StatsCounterAbsoluteThresholdTerminationPredicateImpl (fst p) (snd p) status) predicates).

Definition TerminationPredicateFactoryImpl_create (scheduled_starting_time : Z)
    (o : TerminationOptions) : outcome (list TerminationPredicate) :=
  let root :=
    [StatsCounterAbsoluteThresholdTerminationPredicateImpl "graceful_stop_requested" 0 TERMINATE] in
  let chain :=
    if term_noDuration o then root
    else root ++ [DurationTerminationPredicateImpl scheduled_starting_time
                    (term_duration o * 1000000)] in
  let* chain := linkConfiguredPredicates chain (term_failurePredicates o) FAIL in
  linkConfiguredPredicates chain (term_terminationPredicates o) TERMINATE.

(** ** The verdict of a chain *)

Lemma evaluateChain_app o c1 c2 :
  evaluateChain o (c1 ++ c2) =
  if decide (evaluateChain o c2 = PROCEED) then evaluateChain o c1 else evaluateChain o c2.
Proof.
  induction c1 as [|p c1 IH]; cbn.
  - case_decide as E; [by rewrite E|done].
  - rewrite IH. repeat case_decide; congruence.
Qed.

(** A counter predicate of the list has passed its threshold. *)
Definition tripped (o : observed) (predicates : list (string * Z)) : bool :=
  existsb (fun p => snd p <? counter_value o (fst p)) predicates.

Lemma evaluateChain_counters o predicates status :
  evaluateChain o (map (fun p =>
    StatsCounterAbsoluteThresholdTerminationPredicateImpl (fst p) (snd p) status) predicates) =
  if tripped o predicates then status else PROCEED.
Proof.
  unfold tripped. induction predicates as [|[name limit] ps IH]; cbn; [done|].
  rewrite IH. destruct (existsb _ ps) eqn:E; cbn; rewrite ?orb_true_r, ?orb_false_r.
  - case_decide as Es; [|done]. rewrite Es. by destruct (limit <? _).
  - done.
Qed.

(** C38. What the chain of a worker answers: a tripped termination predicate
    ends the execution successfully, whatever else holds; otherwise a tripped
    failure predicate fails it; otherwise it ends, successfully, once the
    duration has passed since the scheduled start or a cancellation was
    requested; otherwise it proceeds. *)
Theorem created_chain_verdict start options chain o :
  TerminationPredicateFactoryImpl_create start options = Ok chain ->
  evaluateChain o chain =
    if tripped o (term_terminationPredicates options) then TERMINATE
    else if tripped o (term_failurePredicates options) then FAIL
    else if (negb (term_noDuration options) &&
               (term_duration options * 1000000000 <? obs_now o - start)) ||
            (0 <? counter_value o "graceful_stop_requested")
    then TERMINATE
    else PROCEED.
Proof.
  unfold TerminationPredicateFactoryImpl_create, linkConfiguredPredicates.
  rewrite !decide_False by done. intros [= <-].
  rewrite !evaluateChain_app, !evaluateChain_counters.
  replace (term_duration options * 1000000000) with (term_duration options * 1000000 * 1000) by lia.
  destruct (term_noDuration options), (tripped o (term_terminationPredicates options)),
    (tripped o (term_failurePredicates options)); cbn; try done;
    repeat case_decide; try done; split_ifs; try done; try congruence.
  all: repeat match goal with H : context [if ?b then _ else _] |- _ => destruct b eqn:? end; done.
Qed.

Lemma created_chain_verdict_witness :
  evaluateChain (mkObserved 6000000001 {[ "benchmark.http_5xx" := 3 ]})
    [StatsCounterAbsoluteThresholdTerminationPredicateImpl "graceful_stop_requested" 0 TERMINATE;
     DurationTerminationPredicateImpl 1000000000 5000000;
     StatsCounterAbsoluteThresholdTerminationPredicateImpl "benchmark.http_5xx" 2 FAIL] = FAIL.
Proof.
  rewrite (created_chain_verdict 1000000000
             (mkTerminationOptions false 5 [("benchmark.http_5xx"%string, 2)] [])); reflexivity.
Defined.

(** Appending adds at the end, where it is evaluated first. *)
Lemma appendToChain_app chain child :
  chain <> [] -> appendToChain chain child = Ok (chain ++ [child]).
Proof.
  induction chain as [|p chain IH]; intros Hne; [done|]. cbn.
  destruct chain as [|q chain]; [done|]. rewrite IH by done. done.
Qed.
