(* ===== verification/Sequencer.v ===== *)
(** * The sequencer

    Models [engine/source/common/sequencer_impl.{h,cc}]: the loop that drives
    a benchmark target at the pace of a rate limiter until a termination
    predicate ends it.

    The sequencer runs inside a dispatcher. The dispatcher's part is explicit:
    a call of [start()], the expiry of a timer and the completion of a request
    are events, each with the time at which it happens; the two timers are
    part of the state, so what may wake the sequencer up is visible. The
    target and the termination predicate are parameters: functions of the
    state of the client they belong to.

    The statistics are the lists of the samples added to them, oldest first. *)

From S2P Require Import Prelude Double RateLimiter Termination.

(** ** Data *)

(** [SequencerIdleStrategyOptions]. *)
Inductive IdleStrategy : Type := SPIN | POLL | SLEEP | WAIT.

#[export] Instance IdleStrategy_eq_dec : EqDecision IdleStrategy.
Proof. solve_decision. Defined.

(** A timer of the dispatcher, armed for a number of microseconds, or the null
    pointer left by [reset()]. *)
Inductive timer : Type := TimerReset | TimerDisabled | TimerEnabled (us : Z).

(** [NighthawkTimerResolution] and [NighthawkMaxIdleWait], in microseconds. *)
Definition NighthawkTimerResolution : Z := 25.

Definition NighthawkMaxIdleWait : Z := 5000.

Record SequencerImpl (R : Type) : Type := mkSequencer {
  rate_limiter_ : R;
  cached_clock : clock;
  latency_statistic_ : list Z;
  blocked_statistic_ : list Z;
  periodic_timer_ : timer;
  spin_timer_ : timer;
  targets_initiated_ : Z;
  targets_completed_ : Z;
  running_ : bool;
  stopped_after_ : option Z;
  blocked_ : bool;
  blocked_start_ : Z;
  idle_strategy_ : IdleStrategy;
  last_termination_status_ : Status;
  failed_terminations_ : Z;
  exit_requested : bool;
}.

Arguments mkSequencer {R}.
Arguments rate_limiter_ {R}.
Arguments cached_clock {R}.
Arguments latency_statistic_ {R}.
Arguments blocked_statistic_ {R}.
Arguments periodic_timer_ {R}.
Arguments spin_timer_ {R}.
Arguments targets_initiated_ {R}.
Arguments targets_completed_ {R}.
Arguments running_ {R}.
Arguments stopped_after_ {R}.
Arguments blocked_ {R}.
Arguments blocked_start_ {R}.
Arguments idle_strategy_ {R}.
Arguments last_termination_status_ {R}.
Arguments failed_terminations_ {R}.
Arguments exit_requested {R}.

(** Field updates. *)
Definition set_limiter {R} (s : SequencerImpl R) (r : R) : SequencerImpl R :=
  mkSequencer r (cached_clock s) (latency_statistic_ s) (blocked_statistic_ s) (periodic_timer_ s)
    (spin_timer_ s) (targets_initiated_ s) (targets_completed_ s) (running_ s) (stopped_after_ s)
    (blocked_ s) (blocked_start_ s) (idle_strategy_ s) (last_termination_status_ s)
    (failed_terminations_ s) (exit_requested s).

Definition set_clock {R} (s : SequencerImpl R) (c : clock) : SequencerImpl R :=
  mkSequencer (rate_limiter_ s) c (latency_statistic_ s) (blocked_statistic_ s) (periodic_timer_ s)
    (spin_timer_ s) (targets_initiated_ s) (targets_completed_ s) (running_ s) (stopped_after_ s)
    (blocked_ s) (blocked_start_ s) (idle_strategy_ s) (last_termination_status_ s)
    (failed_terminations_ s) (exit_requested s).

Definition set_periodic {R} (s : SequencerImpl R) (t : timer) : SequencerImpl R :=
  mkSequencer (rate_limiter_ s) (cached_clock s) (latency_statistic_ s) (blocked_statistic_ s) t
    (spin_timer_ s) (targets_initiated_ s) (targets_completed_ s) (running_ s) (stopped_after_ s)
    (blocked_ s) (blocked_start_ s) (idle_strategy_ s) (last_termination_status_ s)
    (failed_terminations_ s) (exit_requested s).

Definition set_spin {R} (s : SequencerImpl R) (t : timer) : SequencerImpl R :=
  mkSequencer (rate_limiter_ s) (cached_clock s) (latency_statistic_ s) (blocked_statistic_ s)
    (periodic_timer_ s) t (targets_initiated_ s) (targets_completed_ s) (running_ s)
    (stopped_after_ s) (blocked_ s) (blocked_start_ s) (idle_strategy_ s)
    (last_termination_status_ s) (failed_terminations_ s) (exit_requested s).

Definition set_running {R} (s : SequencerImpl R) (b : bool) : SequencerImpl R :=
  mkSequencer (rate_limiter_ s) (cached_clock s) (latency_statistic_ s) (blocked_statistic_ s)
    (periodic_timer_ s) (spin_timer_ s) (targets_initiated_ s) (targets_completed_ s) b
    (stopped_after_ s) (blocked_ s) (blocked_start_ s) (idle_strategy_ s)
    (last_termination_status_ s) (failed_terminations_ s) (exit_requested s).

Definition set_status {R} (s : SequencerImpl R) (st : Status) : SequencerImpl R :=
  mkSequencer (rate_limiter_ s) (cached_clock s) (latency_statistic_ s) (blocked_statistic_ s)
    (periodic_timer_ s) (spin_timer_ s) (targets_initiated_ s) (targets_completed_ s) (running_ s)
    (stopped_after_ s) (blocked_ s) (blocked_start_ s) (idle_strategy_ s) st
    (failed_terminations_ s) (exit_requested s).

Definition set_initiated {R} (s : SequencerImpl R) (n : Z) : SequencerImpl R :=
  mkSequencer (rate_limiter_ s) (cached_clock s) (latency_statistic_ s) (blocked_statistic_ s)
    (periodic_timer_ s) (spin_timer_ s) n (targets_completed_ s) (running_ s)
    (stopped_after_ s) (blocked_ s) (blocked_start_ s) (idle_strategy_ s)
    (last_termination_status_ s) (failed_terminations_ s) (exit_requested s).

Definition set_blocked {R} (s : SequencerImpl R) (b : bool) (start : Z) (samples : list Z) :
    SequencerImpl R :=
  mkSequencer (rate_limiter_ s) (cached_clock s) (latency_statistic_ s) samples
    (periodic_timer_ s) (spin_timer_ s) (targets_initiated_ s) (targets_completed_ s) (running_ s)
    (stopped_after_ s) b start (idle_strategy_ s)
    (last_termination_status_ s) (failed_terminations_ s) (exit_requested s).

(** ** Operations *)

Section Operations.

Context {R : Type} `{RateLimiter R} {T : Type}.

(** The target, called with a callback at a clock. A callback is known by the
    time it captured. The target answers whether it could start, and which
    callbacks it ran meanwhile, with the clock each one read. *)
Variable target_ : clock -> Z -> T -> bool * list (Z * clock) * T.

(** [termination_predicate_->evaluateChain()], at a clock. *)
Variable evaluate_chain : clock -> T -> Status.

Abbreviation seq := (SequencerImpl R).

Definition SequencerImpl_new (rate_limiter : R) (c : clock) (idle : IdleStrategy) : seq :=
  mkSequencer rate_limiter c [] [] TimerDisabled TimerDisabled 0 0 false None false 0 idle PROCEED
    0 false.

Definition idleWait (s : seq) : outcome (Z * seq) :=
  let* p := timeUntilNextRelease (cached_clock s) (rate_limiter_ s) in
  let s := set_limiter s (snd p) in
  match fst p with
  | Some ns =>
      if ns <=? 0 then Ok (NighthawkTimerResolution, s)
      else Ok (Z.min NighthawkMaxIdleWait ((ns + 999) / 1000), s)
  | None => Ok (NighthawkTimerResolution, s)
  end.

Definition scheduleRun (s : seq) : outcome seq :=
  let* p := if decide (idle_strategy_ s = WAIT) then idleWait s
            else Ok (NighthawkTimerResolution, s) in
  Ok (set_periodic (snd p) (TimerEnabled (fst p))).

Definition unblockAndUpdateStatisticIfNeeded (now : Z) (s : seq) : seq :=
  if blocked_ s
  then set_blocked s false (blocked_start_ s) (blocked_statistic_ s ++ [now - blocked_start_ s])
  else s.

Definition updateStartBlockingTimeIfNeeded (s : seq) : seq :=
  if blocked_ s then s
  else set_blocked s true (monotonicTime (cached_clock s)) (blocked_statistic_ s).

Definition executionDuration (s : seq) : Z * seq :=
  match stopped_after_ s with
  | Some d => (d, s)
  | None =>
      let '(e, r) := elapsed (cached_clock s) (rate_limiter_ s) in (e, set_limiter s r)
  end.

(** Completions per second, over the whole microseconds of the execution. *)
Definition completionsPerSecond (s : seq) : double * seq :=
  let '(d, s) := executionDuration s in
  let usec := d_of_Z (Z.quot d 1000) in
  (if SFeqb usec d0 then d0
   else dmul (ddiv (d_of_Z (targets_completed_ s)) usec) (d_of_Z 1000000), s).

Definition stop (failed : bool) (s : seq) : seq :=
  let s := snd (completionsPerSecond s) in
  let failures := if failed then failed_terminations_ s + 1 else failed_terminations_ s in
  let s := unblockAndUpdateStatisticIfNeeded (monotonicTime (cached_clock s)) s in
  let '(e, r) := elapsed (cached_clock s) (rate_limiter_ s) in
  mkSequencer r (cached_clock s) (latency_statistic_ s) (blocked_statistic_ s) TimerReset
    TimerReset (targets_initiated_ s) (targets_completed_ s) false (Some e) (blocked_ s)
    (blocked_start_ s) (idle_strategy_ s) (last_termination_status_ s) failures true.

(** The callback handed to the target, which captured [now]; [c] is what the
    clock says when it runs. *)
Definition on_completion (now : Z) (c : clock) (s : seq) : seq :=
  let s := mkSequencer (rate_limiter_ s) c (latency_statistic_ s ++ [monotonicTime c - now])
    (blocked_statistic_ s) (periodic_timer_ s) (spin_timer_ s) (targets_initiated_ s)
    (u64 (targets_completed_ s + 1)) (running_ s) (stopped_after_ s) (blocked_ s)
    (blocked_start_ s) (idle_strategy_ s) (last_termination_status_ s) (failed_terminations_ s)
    (exit_requested s) in
  if running_ s then set_spin s (TimerEnabled 0) else s.

Definition run_callbacks (cbs : list (Z * clock)) (s : seq) : seq :=
  fold_left (fun s cb => on_completion (fst cb) (snd cb) s) cbs s.

(** The loop [while (rate_limiter_->tryAcquireOne())]. [None]: [fuel] does not
    suffice. *)
Fixpoint acquire_loop (fuel : nat) (now : Z) (s : seq) (x : T) : outcome (option (seq * T)) :=
  match fuel with
  | O => Ok None
  | S fuel =>
      let* p := tryAcquireOne (cached_clock s) (rate_limiter_ s) in
      let s := set_limiter s (snd p) in
      if fst p then
        let '(target_could_start, cbs, x) := target_ (cached_clock s) now x in
        let s := run_callbacks cbs s in
        if target_could_start then
          let s := unblockAndUpdateStatisticIfNeeded now s in
          acquire_loop fuel now (set_initiated s (u64 (targets_initiated_ s + 1))) x
        else
          let s := updateStartBlockingTimeIfNeeded s in
          let* r := releaseOne (cached_clock s) (rate_limiter_ s) in
          Ok (Some (set_limiter s r, x))
      else Ok (Some (s, x))
  end.

(** What [run()] arms before it returns. *)
Definition run_rearm (from_periodic_timer : bool) (s : seq) : outcome seq :=
  if decide (idle_strategy_ s = WAIT) then scheduleRun s
  else if from_periodic_timer then scheduleRun s
  else if bool_decide (idle_strategy_ s = SPIN) && (targets_initiated_ s =? targets_completed_ s)
  then Ok (set_spin s (TimerEnabled 0))
  else if decide (idle_strategy_ s = SLEEP)
  then Ok (set_spin s (TimerEnabled 0))
  else Ok s.

(** [run()], at the clock [c]. *)
Definition run (fuel : nat) (c : clock) (from_periodic_timer : bool) (s : seq) (x : T) :
    outcome (option (seq * T)) :=
  let s := set_clock s c in
  let now := monotonicTime c in
  let status := if decide (last_termination_status_ s = PROCEED)
                then evaluate_chain c x else last_termination_status_ s in
  let s := set_status s status in
  if decide (status = PROCEED) then
    let* o := acquire_loop fuel now s x in
    match o with
    | None => Ok None
    | Some (s, x) => let* s := run_rearm from_periodic_timer s in Ok (Some (s, x))
    end
  else Ok (Some (stop (bool_decide (status = FAIL)) s, x)).

(** [start()]: the clock the dispatcher had before and the one [run()] reads. *)
Definition start (fuel : nat) (c : clock) (s : seq) (x : T) : outcome (option (seq * T)) :=
  let s := set_running s true in
  let* s := scheduleRun s in
  run fuel c false s x.

(** ** The dispatcher *)

Definition is_enabled (t : timer) : bool :=
  match t with TimerEnabled _ => true | _ => false end.

(** What the dispatcher does with the sequencer, until the time [t1]: an armed
    timer expires, and is disabled before its callback runs; a request started
    at [now] completes; the client's state changes on its own. Time does not
    go back. *)
Inductive step (t1 : Z) : seq * T -> seq * T -> Prop :=
| step_periodic fuel c s x s' x' :
    is_enabled (periodic_timer_ s) = true ->
    monotonicTime (cached_clock s) <= monotonicTime c <= t1 ->
    run fuel c true (set_periodic s TimerDisabled) x = Ok (Some (s', x')) ->
    step t1 (s, x) (s', x')
| step_spin fuel c s x s' x' :
    is_enabled (spin_timer_ s) = true ->
    monotonicTime (cached_clock s) <= monotonicTime c <= t1 ->
    run fuel c false (set_spin s TimerDisabled) x = Ok (Some (s', x')) ->
    step t1 (s, x) (s', x')
| step_completion now c s x :
    now <= monotonicTime (cached_clock s) ->
    monotonicTime (cached_clock s) <= monotonicTime c <= t1 ->
    step t1 (s, x) (on_completion now c s, x)
| step_client s x x' :
    step t1 (s, x) (s, x').

(** The states of an execution: after [start()] and any number of steps. *)
Inductive reachable (t1 : Z) (r : R) (idle : IdleStrategy) (x : T) (t0 : Z) : seq * T -> Prop :=
| reachable_start fuel c0 c s' x' :
    monotonicTime c0 = t0 -> monotonicTime c0 <= monotonicTime c <= t1 ->
    start fuel c (SequencerImpl_new r c0 idle) x = Ok (Some (s', x')) ->
    reachable t1 r idle x t0 (s', x')
| reachable_step p q :
    reachable t1 r idle x t0 p -> step t1 p q -> reachable t1 r idle x t0 q.

End Operations.

(** ** What operations leave alone *)

(** The fields that decide who wakes the sequencer up and whether it goes on. *)
Definition control {R : Type} (s : SequencerImpl R) :
    timer * bool * option Z * IdleStrategy * Status * Z * bool :=
  (periodic_timer_ s, running_ s, stopped_after_ s, idle_strategy_ s,
   last_termination_status_ s, failed_terminations_ s, exit_requested s).

Create Rewrite HintDb control.

Section Control.

Context {R : Type} `{RateLimiter R} {T : Type}.
Context (target_ : clock -> Z -> T -> bool * list (Z * clock) * T).
Context (evaluate_chain : clock -> T -> Status).

Lemma unblock_control now (s : SequencerImpl R) :
  control (unblockAndUpdateStatisticIfNeeded now s) = control s.
Proof. unfold unblockAndUpdateStatisticIfNeeded. by destruct (blocked_ s). Qed.

Lemma block_control (s : SequencerImpl R) :
  control (updateStartBlockingTimeIfNeeded s) = control s.
Proof. unfold updateStartBlockingTimeIfNeeded. by destruct (blocked_ s). Qed.

Lemma on_completion_control now c (s : SequencerImpl R) :
  control (on_completion now c s) = control s.
Proof. unfold on_completion, control. cbn. destruct (running_ s) eqn:E; cbn; by rewrite ?E. Qed.

Lemma run_callbacks_control cbs (s : SequencerImpl R) :
  control (run_callbacks cbs s) = control s.
Proof.
  unfold run_callbacks. revert s. induction cbs as [|cb cbs IH]; intros s; [done|].
  cbn. by rewrite IH, on_completion_control.
Qed.

#[local] Hint Rewrite unblock_control block_control run_callbacks_control : control.

Lemma control_initiated n (s : SequencerImpl R) : control (set_initiated s n) = control s.
Proof. done. Qed.

Lemma control_limiter r (s : SequencerImpl R) : control (set_limiter s r) = control s.
Proof. done. Qed.

#[local] Hint Rewrite control_initiated control_limiter : control.

Lemma acquire_loop_control fuel now s x s' x' :
  acquire_loop target_ fuel now s x = Ok (Some (s', x')) -> control s' = control s.
Proof.
  revert s x. induction fuel as [|fuel IH]; intros s x; cbn [acquire_loop]; [done|].
  intros Hl. apply obind_Ok in Hl as ([b r] & Hacq & Hl). cbn in Hl.
  destruct b; [|by injection Hl as <- <-].
  destruct (target_ _ now x) as [[could cbs] x1]. destruct could.
  - apply IH in Hl as ->. by autorewrite with control.
  - inv_bind. by autorewrite with control.
Qed.

Lemma idleWait_range s us s' :
  idleWait s = Ok (us, s') ->
  0 < us <= NighthawkMaxIdleWait /\ exists r, s' = set_limiter s r.
Proof.
  unfold idleWait, NighthawkMaxIdleWait, NighthawkTimerResolution. intros Hw. inv_bind.
  destruct a as [[ns|] r]; cbn in Hw.
  - destruct (ns <=? 0) eqn:E; injection Hw as <- <-; b2p; [eauto with lia|].
    split; [|eauto]. pose proof (Z.div_le_lower_bound (ns + 999) 1000 1). lia.
  - injection Hw as <- <-. eauto with lia.
Qed.

Lemma scheduleRun_arms s s' :
  scheduleRun s = Ok s' ->
  exists us r, 0 < us <= NighthawkMaxIdleWait /\
    s' = set_periodic (set_limiter s r) (TimerEnabled us).
Proof.
  unfold scheduleRun. intros Hs. inv_bind. destruct a as [us s1]. cbn.
  case_decide.
  - apply idleWait_range in Hok as (Hus & r & ->). eauto.
  - injection Hok as <- <-. exists NighthawkTimerResolution, (rate_limiter_ s).
    split; [unfold NighthawkMaxIdleWait, NighthawkTimerResolution; lia|]. by destruct s.
Qed.

(** Who wakes the sequencer up: while it runs, the periodic timer, within the
    longest idle wait, and nothing was counted or recorded as an end yet. Once
    it stopped, nobody: the timers are gone, the dispatcher is asked to exit,
    the duration is fixed, and a failure was counted exactly once. *)
Definition woken_or_stopped (s : SequencerImpl R) : Prop :=
  if running_ s then
    (exists us, periodic_timer_ s = TimerEnabled us /\ 0 < us <= NighthawkMaxIdleWait) /\
    last_termination_status_ s = PROCEED /\ stopped_after_ s = None /\
    failed_terminations_ s = 0 /\ exit_requested s = false
  else
    periodic_timer_ s = TimerReset /\ spin_timer_ s = TimerReset /\ blocked_ s = false /\
    last_termination_status_ s <> PROCEED /\ (exists d, stopped_after_ s = Some d) /\
    failed_terminations_ s = (if decide (last_termination_status_ s = FAIL) then 1 else 0) /\
    exit_requested s = true.

(** Before [run()]: as while running, but the periodic timer may just have
    expired when it is what called [run()]. *)
Definition about_to_run (from_periodic_timer : bool) (s : SequencerImpl R) : Prop :=
  running_ s = true /\ last_termination_status_ s = PROCEED /\ stopped_after_ s = None /\
  failed_terminations_ s = 0 /\ exit_requested s = false /\
  (from_periodic_timer = true \/
   exists us, periodic_timer_ s = TimerEnabled us /\ 0 < us <= NighthawkMaxIdleWait).

Lemma stop_stops failed s :
  let s' := stop failed s in
  running_ s' = false /\ periodic_timer_ s' = TimerReset /\ spin_timer_ s' = TimerReset /\
  blocked_ s' = false /\ (exists d, stopped_after_ s' = Some d) /\ exit_requested s' = true /\
  last_termination_status_ s' = last_termination_status_ s /\
  failed_terminations_ s' = failed_terminations_ s + (if failed then 1 else 0) /\
  targets_initiated_ s' = targets_initiated_ s /\ targets_completed_ s' = targets_completed_ s.
Proof.
  unfold stop, completionsPerSecond, executionDuration. cbn.
  destruct (stopped_after_ s) as [d|]; [|destruct (elapsed _ _) as [e r]];
    cbn; unfold unblockAndUpdateStatisticIfNeeded; cbn; destruct (blocked_ s) eqn:E;
    destruct (elapsed _ _) as [e' r']; cbn; rewrite ?E; repeat split; eauto;
    destruct failed; lia.
Qed.

Lemma run_rearm_woken from_periodic s s' :
  about_to_run from_periodic s -> run_rearm from_periodic s = Ok s' -> woken_or_stopped s'.
Proof.
  intros (Hr & Hst & Hsa & Hf & He & Hp) Hs.
  assert (Harm : scheduleRun s = Ok s' -> woken_or_stopped s').
  { intros Hs'. apply scheduleRun_arms in Hs' as (us & r & Hus & ->).
    unfold woken_or_stopped. cbn. rewrite Hr. eauto 10. }
  unfold run_rearm in Hs.
  case_decide; [by apply Harm|]. destruct from_periodic; [by apply Harm|].
  destruct Hp as [Hp|Hp]; [done|].
  destruct (_ && _); [|case_decide]; injection Hs as <-;
    unfold woken_or_stopped; cbn; rewrite Hr; eauto 10.
Qed.

Lemma run_woken fuel c from_periodic s x s' x' :
  about_to_run from_periodic s ->
  run target_ evaluate_chain fuel c from_periodic s x = Ok (Some (s', x')) ->
  woken_or_stopped s'.
Proof.
  intros (Hr & Hst & Hsa & Hf & He & Hp) Hrun. unfold run in Hrun. cbn in Hrun.
  rewrite Hst in Hrun. destruct (decide (PROCEED = PROCEED)) as [_|]; [|done].
  destruct (decide (evaluate_chain c x = PROCEED)) as [Hpro|Hpro].
  - inv_bind. destruct a as [[s1 x1]|]; [|done]. inv_bind. simplify_eq.
    apply acquire_loop_control in Hok. apply (run_rearm_woken from_periodic s1); [|done].
    unfold control in Hok. cbn in Hok. simplify_eq.
    unfold about_to_run. repeat split; try congruence.
    destruct Hp as [?|(us & ? & ?)]; [by left|right]. exists us. split; congruence.
  - injection Hrun as <- <-.
    destruct (stop_stops (bool_decide (evaluate_chain c x = FAIL))
                (set_status (set_clock s c) (evaluate_chain c x)))
      as (H1 & H2 & H3 & H4 & H5 & H6 & H7 & H8 & _). cbn in *.
    unfold woken_or_stopped. rewrite H1, H2, H3, H4, H6, H7, H8, Hf.
    repeat split; try done. case_decide as Hfail; [by rewrite bool_decide_true|].
    by rewrite bool_decide_false.
Qed.

Lemma on_completion_woken now c s :
  woken_or_stopped s -> woken_or_stopped (on_completion now c s).
Proof.
  unfold woken_or_stopped, on_completion. cbn.
  destruct (running_ s) eqn:E; cbn; rewrite ?E; naive_solver.
Qed.

Lemma step_woken t1 s x s' x' :
  woken_or_stopped s -> step target_ evaluate_chain t1 (s, x) (s', x') -> woken_or_stopped s'.
Proof.
  assert (Hgo : forall fuel c (b : bool) s0, woken_or_stopped s ->
    is_enabled (periodic_timer_ s) || is_enabled (spin_timer_ s) = true ->
    s0 = (if b then set_periodic s TimerDisabled else set_spin s TimerDisabled) ->
    run target_ evaluate_chain fuel c b s0 x = Ok (Some (s', x')) -> woken_or_stopped s').
  { intros fuel c b s0 Hs Hen -> Hrun. unfold woken_or_stopped in Hs.
    destruct (running_ s) eqn:Er.
    - destruct Hs as ((us & Hp & Hus) & Hst & Hsa & Hf & He).
      eapply (run_woken fuel c b); [|exact Hrun]. unfold about_to_run.
      destruct b; cbn; repeat split; eauto.
    - destruct Hs as (Hp & Hsp & _). by rewrite Hp, Hsp in Hen. }
  intros Hs Hstep. inversion Hstep; subst.
  - eapply (Hgo fuel c true); [done|by apply orb_true_intro; left|done|done].
  - eapply (Hgo fuel c false); [done|by apply orb_true_intro; right|done|done].
  - by apply on_completion_woken.
  - done.
Qed.

(** C11. An execution never gets stuck and ends once: in every state reached
    from [start()], either the sequencer runs and its periodic timer will wake
    it up within 5 ms, or it stopped for good, with both timers gone, the
    dispatcher told to exit, the duration fixed, no blocked period left open,
    and a failure counted exactly when the termination predicate failed. *)
Theorem sequencer_woken_or_stopped t1 r idle x t0 s x' :
  reachable target_ evaluate_chain t1 r idle x t0 (s, x') -> woken_or_stopped s.
Proof.
  remember (s, x') as p eqn:Ep. intros Hr. revert s x' Ep.
  induction Hr as [fuel c0 c s' x1 Ht Hc Hstart|p q Hr IH Hstep]; intros s x' Ep;
    simplify_eq.
  - unfold start in Hstart. inv_bind.
    apply scheduleRun_arms in Hok as (us & r1 & Hus & ->).
    eapply run_woken; [|exact Hstart]. unfold about_to_run. cbn. eauto 10.
  - destruct p as [s1 x1]. eapply step_woken; [by eapply IH|done].
Qed.

(** A stopped sequencer stays as it is: requests that complete during the
    teardown are still counted and timed, but no timer is armed again, and the
    duration, the status, the failures and the number of started requests do
    not change. *)
Lemma stopped_sequencer_is_final t1 s x s' x' :
  woken_or_stopped s -> running_ s = false ->
  step target_ evaluate_chain t1 (s, x) (s', x') ->
  control s' = control s /\ spin_timer_ s' = TimerReset /\ blocked_ s' = false /\
  targets_initiated_ s' = targets_initiated_ s /\ rate_limiter_ s' = rate_limiter_ s /\
  executionDuration s' = (fst (executionDuration s), s').
Proof.
  intros Hs Hr Hstep. unfold woken_or_stopped in Hs. rewrite Hr in Hs.
  destruct Hs as (Hp & Hsp & Hb & _ & [d Hd] & _).
  assert (Hex : forall s1, stopped_after_ s1 = Some d ->
            executionDuration s1 = (fst (executionDuration s), s1)).
  { intros s1 H1. unfold executionDuration. by rewrite H1, Hd. }
  inversion Hstep; subst.
  - by rewrite Hp in *.
  - by rewrite Hsp in *.
  - rewrite on_completion_control. unfold on_completion. cbn. rewrite Hr.
    repeat split; try done. by apply Hex.
  - repeat split; try done. by apply Hex.
Qed.

End Control.

(** ** Pacing *)

(** What the sequencer needs of a limiter to bound the number of requests it
    starts until the time [t1]: an invariant [I t n r] of a limiter last used
    at [t] that granted [n] acquisitions, with at most [bound] of them. *)
Class PacingInvariant {R : Type} `{RateLimiter R} (t1 bound : Z) (I : Z -> Z -> R -> Prop) :
    Prop := {
  pacing_acquire t n clk r b r' :
    I t n r -> t <= monotonicTime clk <= t1 -> tryAcquireOne clk r = Ok (b, r') ->
    I (monotonicTime clk) (if b then n + 1 else n) r';
  pacing_release t n clk r r' :
    0 < n -> I t n r -> t <= monotonicTime clk <= t1 -> releaseOne clk r = Ok r' ->
    I (monotonicTime clk) (n - 1) r';
  pacing_elapsed t n clk r :
    I t n r -> t <= monotonicTime clk <= t1 -> I (monotonicTime clk) n (snd (elapsed clk r));
  pacing_ask t n clk r w r' :
    I t n r -> t <= monotonicTime clk <= t1 -> timeUntilNextRelease clk r = Ok (w, r') ->
    I (monotonicTime clk) n r';
  pacing_bound t n r : I t n r -> 0 <= n <= bound;
  pacing_bound_u64 : bound < 2 ^ 64 - 1;
}.

(** The callbacks a target runs read a clock that does not go back. *)
Fixpoint callbacks_timed (t t1 : Z) (cbs : list (Z * clock)) : Prop :=
  match cbs with
  | [] => True
  | cb :: cbs =>
      t <= monotonicTime (snd cb) <= t1 /\ callbacks_timed (monotonicTime (snd cb)) t1 cbs
  end.

Section Pacing.

Context {R : Type} `{RateLimiter R} {T : Type}.
Context (target_ : clock -> Z -> T -> bool * list (Z * clock) * T).
Context (evaluate_chain : clock -> T -> Status).
Context (t1 bound : Z) (I : Z -> Z -> R -> Prop).
Context `{!PacingInvariant t1 bound I}.

Hypothesis target_timed : forall c now x could cbs x',
  target_ c now x = (could, cbs, x') -> callbacks_timed (monotonicTime c) t1 cbs.

(** The limiter has granted [n] acquisitions by the time the clock shows. *)
Definition limiter_granted (n : Z) (s : SequencerImpl R) : Prop :=
  exists t, t <= monotonicTime (cached_clock s) <= t1 /\ I t n (rate_limiter_ s).

(** As many as the targets that were started. *)
Definition paced (s : SequencerImpl R) : Prop := limiter_granted (targets_initiated_ s) s.

Lemma run_callbacks_granted n cbs s :
  callbacks_timed (monotonicTime (cached_clock s)) t1 cbs ->
  limiter_granted n s ->
  limiter_granted n (run_callbacks cbs s) /\
  targets_initiated_ (run_callbacks cbs s) = targets_initiated_ s.
Proof.
  unfold run_callbacks. revert s. induction cbs as [|cb cbs IH]; intros s Hcb Hs; [done|].
  destruct Hcb as [Hc Hcb]. destruct Hs as (t & Ht & HI). cbn.
  destruct (IH (on_completion (fst cb) (snd cb) s)) as [H1 H2].
  - unfold on_completion. cbn. by destruct (running_ s).
  - exists t. unfold on_completion. cbn. destruct (running_ s); cbn; split; (done || lia).
  - split; [done|]. rewrite H2. unfold on_completion. cbn. by destruct (running_ s).
Qed.

Lemma unblock_granted n now s :
  limiter_granted n s -> limiter_granted n (unblockAndUpdateStatisticIfNeeded now s) /\
  targets_initiated_ (unblockAndUpdateStatisticIfNeeded now s) = targets_initiated_ s.
Proof. unfold unblockAndUpdateStatisticIfNeeded. by destruct (blocked_ s). Qed.

Lemma block_granted n s :
  limiter_granted n s -> limiter_granted n (updateStartBlockingTimeIfNeeded s) /\
  targets_initiated_ (updateStartBlockingTimeIfNeeded s) = targets_initiated_ s.
Proof. unfold updateStartBlockingTimeIfNeeded. by destruct (blocked_ s). Qed.

Lemma granted_bound n s : limiter_granted n s -> 0 <= n <= bound.
Proof. intros (t & _ & HI). by eapply pacing_bound. Qed.

(** One turn of the loop: an acquisition, the target, and what follows from its
    answer. *)
Lemma acquire_turn now s x b r could cbs x' :
  paced s -> tryAcquireOne (cached_clock s) (rate_limiter_ s) = Ok (b, r) ->
  target_ (cached_clock s) now x = (could, cbs, x') ->
  limiter_granted (if b then targets_initiated_ s + 1 else targets_initiated_ s)
    (set_limiter s r) /\
  (b = true -> limiter_granted (targets_initiated_ s + 1) (run_callbacks cbs (set_limiter s r)) /\
     targets_initiated_ (run_callbacks cbs (set_limiter s r)) = targets_initiated_ s).
Proof.
  intros (t & Ht & HI) Hacq Htgt.
  assert (Hr : limiter_granted (if b then targets_initiated_ s + 1 else targets_initiated_ s)
                 (set_limiter s r)).
  { exists (monotonicTime (cached_clock s)). cbn. split; [lia|].
    eapply pacing_acquire; [done| |done]. lia. }
  split; [done|]. intros ->. apply (run_callbacks_granted _ cbs (set_limiter s r)); [|done].
  cbn. by eapply target_timed.
Qed.

Lemma started_paced now s :
  limiter_granted (targets_initiated_ s + 1) s ->
  let s := unblockAndUpdateStatisticIfNeeded now s in
  paced (set_initiated s (u64 (targets_initiated_ s + 1))) /\
  u64 (targets_initiated_ s + 1) = targets_initiated_ s + 1.
Proof.
  intros Hg s1. destruct (unblock_granted _ now _ Hg) as [Hg1 He]. fold s1 in Hg1, He.
  pose proof (granted_bound _ _ Hg1) as Hb. pose proof pacing_bound_u64 as Hmax.
  rewrite <-He in Hg1. rewrite u64_small by (unfold in_u64; lia). split; [|done].
  destruct Hg1 as (t & Ht & HI). exists t. cbn. done.
Qed.

Lemma acquire_loop_paced fuel now s x s' x' :
  paced s -> acquire_loop target_ fuel now s x = Ok (Some (s', x')) -> paced s'.
Proof.
  revert s x. induction fuel as [|fuel IH]; intros s x Hs; cbn [acquire_loop]; [done|].
  intros Hl. apply obind_Ok in Hl as ([b r] & Hacq & Hl). cbn in Hl.
  destruct (target_ (cached_clock s) now x) as [[could cbs] x1] eqn:Et.
  destruct (acquire_turn now s x b r could cbs x1 Hs Hacq Et) as [Hr Hgo].
  destruct b; [|by injection Hl as <- <-].
  destruct (Hgo eq_refl) as [Hg Hi]. rewrite <-Hi in Hg. destruct could.
  - eapply IH; [|exact Hl]. by apply started_paced.
  - inv_bind. apply block_granted in Hg as [Hg He]. rename a into r'.
    unfold paced. cbn. rewrite He, Hi in *.
    destruct Hg as (t & Ht & HI).
    exists (monotonicTime (cached_clock (updateStartBlockingTimeIfNeeded
                                           (run_callbacks cbs (set_limiter s r))))).
    cbn. split; [lia|]. replace (targets_initiated_ s) with (targets_initiated_ s + 1 - 1) by lia.
    eapply pacing_release; [|exact HI| |exact Hok]; [|lia].
    pose proof (granted_bound _ _ Hs). lia.
Qed.

Lemma acquire_loop_returns fuel now s x :
  paced s -> bound - targets_initiated_ s + 1 < Z.of_nat fuel ->
  acquire_loop target_ fuel now s x <> Ok None.
Proof.
  revert s x. induction fuel as [|fuel IH]; intros s x Hs Hfuel; cbn [acquire_loop].
  { pose proof (granted_bound _ _ Hs). lia. }
  destruct (tryAcquireOne _ _) as [[b r]| | |] eqn:Hacq; cbn; try done.
  destruct (target_ (cached_clock s) now x) as [[could cbs] x1] eqn:Et.
  destruct (acquire_turn now s x b r could cbs x1 Hs Hacq Et) as [Hr Hgo].
  destruct b; [|done]. destruct (Hgo eq_refl) as [Hg Hi]. rewrite <-Hi in Hg. destruct could.
  - apply (started_paced now) in Hg as [Hp Hu]. apply IH; [done|]. cbn. rewrite Hu.
    unfold unblockAndUpdateStatisticIfNeeded in *.
    destruct (blocked_ (run_callbacks cbs (set_limiter s r))); cbn; lia.
  - by destruct (releaseOne _ _).
Qed.

Lemma set_elapsed_paced s :
  paced s -> paced (set_limiter s (snd (elapsed (cached_clock s) (rate_limiter_ s)))).
Proof.
  intros (t & Ht & HI). exists (monotonicTime (cached_clock s)). cbn. split; [lia|].
  eapply pacing_elapsed; [done|]. lia.
Qed.

Lemma completionsPerSecond_paced s : paced s -> paced (snd (completionsPerSecond s)).
Proof.
  intros Hs. pose proof (set_elapsed_paced s Hs) as He.
  unfold completionsPerSecond, executionDuration.
  destruct (stopped_after_ s); [done|]. by destruct (elapsed _ _) as [e r].
Qed.

Lemma stop_paced failed s : paced s -> paced (stop failed s).
Proof.
  intros Hs. apply completionsPerSecond_paced in Hs. unfold stop.
  set (s1 := snd (completionsPerSecond s)) in *.
  apply (unblock_granted _ (monotonicTime (cached_clock s1))) in Hs as [Hp1 He].
  rewrite <-He in Hp1. apply set_elapsed_paced in Hp1.
  destruct (elapsed _ _) as [e r]. destruct Hp1 as (t & Ht & HI). by exists t.
Qed.

Lemma scheduleRun_paced s s' : paced s -> scheduleRun s = Ok s' -> paced s'.
Proof.
  unfold scheduleRun, idleWait. intros (t & Ht & HI) Hs. inv_bind.
  case_decide; [|injection Hok as <-; by exists t].
  inv_bind. destruct a0 as [w r]. destruct a as [us s1]. cbn in *.
  assert (s1 = set_limiter s r) as ->.
  { destruct w as [ns|]; [destruct (ns <=? 0)|]; congruence. }
  exists (monotonicTime (cached_clock s)). cbn. split; [lia|].
  eapply pacing_ask; [done| |done]. lia.
Qed.

Lemma run_rearm_paced from_periodic s s' : paced s -> run_rearm from_periodic s = Ok s' -> paced s'.
Proof.
  unfold run_rearm. intros Hs Hr. case_decide; [by eapply scheduleRun_paced|].
  destruct from_periodic; [by eapply scheduleRun_paced|].
  destruct (_ && _); [|case_decide]; by injection Hr as <-.
Qed.

Lemma set_clock_status_paced c st s :
  paced s -> monotonicTime (cached_clock s) <= monotonicTime c <= t1 ->
  paced (set_status (set_clock s c) st).
Proof. intros (t & Ht & HI) Hc. exists t. cbn. split; [lia|done]. Qed.

Lemma run_paced fuel c from_periodic s x s' x' :
  paced s -> monotonicTime (cached_clock s) <= monotonicTime c <= t1 ->
  run target_ evaluate_chain fuel c from_periodic s x = Ok (Some (s', x')) -> paced s'.
Proof.
  intros Hs Hc Hrun. unfold run in Hrun.
  match type of Hrun with context [set_status (set_clock s c) ?st] =>
    pose proof (set_clock_status_paced c st s Hs Hc) as Hp end.
  destruct (decide (_ = PROCEED)) as [Hpro|Hpro] in Hrun.
  - apply obind_Ok in Hrun as (o & Hl & Hrun). destruct o as [[s1 x1]|]; [|done].
    apply obind_Ok in Hrun as (s2 & Hr & [= <- <-]).
    eapply run_rearm_paced; [|exact Hr]. by eapply acquire_loop_paced.
  - injection Hrun as <- <-. by apply stop_paced.
Qed.

Lemma step_paced p q : paced (fst p) -> step target_ evaluate_chain t1 p q -> paced (fst q).
Proof.
  intros Hp Hstep. inversion Hstep; subst; cbn in *.
  1-2: eapply run_paced; [| |eassumption]; [|done]; exact Hp.
  - destruct Hp as (t & Ht & HI). exists t. unfold on_completion. cbn.
    destruct (running_ s); cbn; split; (done || lia).
  - done.
Qed.

Lemma reachable_paced r idle x t0 p :
  I t0 0 r -> reachable target_ evaluate_chain t1 r idle x t0 p -> paced (fst p).
Proof.
  intros Hr. induction 1 as [fuel c0 c s' x1 Ht Hc Hstart|p q _ IH Hstep];
    [|by eapply step_paced].
  unfold start in Hstart. apply obind_Ok in Hstart as (s1 & Hs1 & Hrun).
  assert (Hck : monotonicTime (cached_clock s1) = monotonicTime c0).
  { by apply scheduleRun_arms in Hs1 as (us & r1 & _ & ->). }
  eapply run_paced; [|rewrite Hck; exact Hc|exact Hrun].
  eapply scheduleRun_paced; [|exact Hs1]. exists t0. cbn. split; [lia|done].
Qed.

(** C12. [run()] returns: against a limiter that grants at most [bound]
    acquisitions in the time considered, the loop that acquires and starts
    targets ends in every reached state, whatever the target answers and even
    if it completes requests before it returns. *)
Theorem sequencer_run_returns r idle x t0 s x' c from_periodic fuel :
  I t0 0 r -> reachable target_ evaluate_chain t1 r idle x t0 (s, x') ->
  monotonicTime (cached_clock s) <= monotonicTime c <= t1 -> bound + 1 < Z.of_nat fuel ->
  run target_ evaluate_chain fuel c from_periodic s x' <> Ok None.
Proof.
  intros Hr Hreach Hc Hfuel. apply (reachable_paced r) in Hreach as Hs; [|done]. cbn in Hs.
  unfold run.
  match goal with |- context [set_status (set_clock s c) ?st] =>
    pose proof (set_clock_status_paced c st s Hs Hc) as Hp; set (st0 := st) in * end.
  destruct (decide (st0 = PROCEED)); [|done].
  pose proof (acquire_loop_returns fuel (monotonicTime c) _ x' Hp) as Hret.
  pose proof (granted_bound _ _ Hs) as Hb. cbn in Hret, Hb.
  destruct (acquire_loop _ _ _ _ _) as [[[s1 x1]|]| | |]; try done.
  - cbn. by destruct (run_rearm _ _).
  - exfalso. apply Hret; [lia|done].
Qed.

End Pacing.
