(* ===== verification/SequencerPacing.v ===== *)
(** * The sequencer over the linear rate limiter

    The two halves of open- and closed-loop pacing at the level of the
    sequencer: it never starts more requests than the frequency allows, and
    one turn of an open loop starts everything that is due. *)

From S2P Require Import Prelude Double RateLimiter Termination Sequencer.

(** ** The invariant of the limiter under a sequencer *)

Section LinearInvariant.

Context (f : Frequency) (p h t0 t1 : Z).

Hypothesis f_exact : exact_period f p h.

Hypothesis t1_exact : t0 <= t1 /\ t1 - t0 + h < 2 ^ 53.

(** What is due by [t1] on a clock that started at [st]. *)
Definition due_by (st : Z) : Z := (t1 - st + h) / p.

(** Before its first acquisition the limiter is fresh; from then on its counters
    are bounded by what is due by [t1]. *)
Definition linear_paced (t n : Z) (l : LinearRateLimiter) : Prop :=
  t0 <= t <= t1 /\ lin_frequency_ l = f /\
  match start_time_ (lin_base l) with
  | None => n = 0 /\ lin_counts l = counts_init
  | Some st => t0 <= st <= t /\ linear_ok f st (due_by st) t n l
  end.

Lemma due_by_range st : t0 <= st <= t1 -> 0 <= due_by st <= due_by t0 /\ due_by t0 < 2 ^ 53.
Proof.
  intros Hst. pose proof f_exact as (Hp & Hh & _). unfold due_by. repeat split.
  - apply Z.div_pos; lia.
  - apply Z.div_le_mono; lia.
  - apply Z.div_lt_upper_bound; nia.
Qed.

Lemma due_by_bounds st :
  t0 <= st <= t1 ->
  (forall e d, 0 <= e <= t1 - st -> linear_due f e = Ok d -> 0 <= d <= due_by st) /\
  0 <= due_by st <= INT64_MAX.
Proof.
  intros Hst. destruct (due_by_range st Hst) as [Hd Hd0]. unfold due_by, INT64_MAX in *. split.
  - apply (linear_due_exact_bounded f p h (t1 - st) f_exact); lia.
  - lia.
Qed.

(** A fresh limiter is one that starts now. *)
Lemma linear_fresh_ok t l :
  lin_frequency_ l = f -> start_time_ (lin_base l) = None -> lin_counts l = counts_init ->
  t0 <= t <= t1 -> linear_ok f t (due_by t) t 0 l.
Proof.
  intros Hf Hst Hc Ht. destruct (due_by_bounds t Ht) as [_ Hb].
  unfold linear_ok, counts_ok, clock_ok, in_i64. rewrite Hc, Hst. cbn. repeat split; (done || lia).
Qed.

(** Lifts a fact on a started limiter to the invariant. *)
Lemma linear_paced_intro st t n l :
  t0 <= st <= t -> t <= t1 -> start_time_ (lin_base l) = Some st ->
  linear_ok f st (due_by st) t n l -> linear_paced t n l.
Proof.
  intros Hst Ht Es Hok. split; [lia|]. pose proof Hok as (Hf & _). split; [done|].
  rewrite Es. done.
Qed.

(** One use of a started limiter, or of a fresh one that it starts. *)
Lemma linear_use_started u st t n m l l' :
  t0 <= st <= t -> t <= monotonicTime (use_clock u) <= t1 ->
  linear_ok f st (due_by st) t n l -> start_time_ (lin_base l') = Some st ->
  drive [u] n l = Ok (m, l') -> linear_paced (monotonicTime (use_clock u)) m l'.
Proof.
  intros Hst Ht Hok Hs Hd. destruct (due_by_bounds st ltac:(lia)) as [Hdue Hb].
  apply (linear_paced_intro st); [lia|lia|done|].
  assert (Hq : st <= t) by lia.
  destruct u as [clk|clk|clk|clk]; cbn in *.
  - inv_bind. destruct a as [b l1]. cbn in *. simplify_eq.
    eapply (linear_acquire_ok f st (t1 - st)); [done|done|exact Hq|exact Hok|lia|done].
  - destruct (0 <? n) eqn:En; [|done]. b2p. simplify_eq.
    eapply (linear_release_ok f st (due_by st)); [done|done|exact Hok|lia|done].
  - pose proof (linear_base_ok f st (due_by st) t n clk l Hq Hok) as Hbase.
    destruct (base_elapsed clk (lin_base l)) as [e b]. injection Hd as <- <-. apply Hbase. lia.
  - inv_bind. destruct a as [w l1]. cbn in *. simplify_eq.
    eapply (linear_ask_ok f st (due_by st)); [exact Hq|exact Hok|lia|done].
Qed.

Lemma linear_use_paced u t n m l l' :
  linear_paced t n l -> t <= monotonicTime (use_clock u) <= t1 ->
  drive [u] n l = Ok (m, l') -> linear_paced (monotonicTime (use_clock u)) m l'.
Proof.
  intros (Ht & Hf & Hl) Hc Hd. destruct (start_time_ (lin_base l)) as [st|] eqn:Es.
  { destruct Hl as [Hst Hok]. pose proof (linear_drive_start _ _ _ _ _ _ Es Hd) as [Es' _].
    by eapply linear_use_started. }
  destruct Hl as [-> Hc0].
  pose proof (linear_fresh_ok (monotonicTime (use_clock u)) l Hf Es Hc0 ltac:(lia)) as Hok.
  destruct (start_time_ (lin_base l')) as [st'|] eqn:Es'.
  - assert (st' = monotonicTime (use_clock u)) as ->.
    { destruct l as [[st0 fa] c fr]. cbn in *. subst. destruct u; cbn in Hd.
      - unfold LinearRateLimiter_tryAcquireOne in Hd. cbn in Hd. inv_bind.
        destruct (0 <? _) in Hok0; by injection Hok0 as <-; cbn in *; simplify_eq.
      - done.
      - cbn in *; by simplify_eq/=.
      - cbn in *; by simplify_eq/=. }
    eapply linear_use_started; [| |exact Hok|exact Es'|exact Hd]; lia.
  - split; [lia|]. rewrite Es'. destruct l as [[st0 fa] c fr]. cbn in *. subst.
    destruct u; cbn in Hd.
    + unfold LinearRateLimiter_tryAcquireOne in Hd. cbn in Hd. inv_bind.
      destruct (0 <? _) in Hok0; by injection Hok0 as <-.
    + done.
    + cbn in *; by simplify_eq/=.
    + cbn in *; by simplify_eq/=.
Qed.

#[export] Instance linear_PacingInvariant : PacingInvariant t1 (due_by t0) linear_paced.
Proof.
  split.
  - intros t n clk r b r' HI Hc Ha. apply (linear_use_paced (Acquire clk) t n _ r r' HI Hc).
    cbn [drive]. rewrite Ha. done.
  - intros t n clk r r' Hn HI Hc Hr. apply (linear_use_paced (Release clk) t n _ r r' HI Hc).
    cbn [drive]. rewrite Hr. by replace (0 <? n) with true by lia.
  - intros t n clk r HI Hc. by apply (linear_use_paced (AskElapsed clk) t n _ r _ HI Hc).
  - intros t n clk r w r' HI Hc Ha. apply (linear_use_paced (AskWait clk) t n _ r r' HI Hc).
    cbn [drive]. rewrite Ha. done.
  - intros t n r (Ht & _ & Hl). destruct (due_by_range t0 ltac:(lia)) as [H0 _].
    destruct (start_time_ (lin_base r)) as [st|]; [|lia].
    destruct Hl as (Hst & _ & (_ & Hn & _ & Hs) & _).
    destruct (due_by_range st ltac:(lia)) as [H1 _]. lia.
  - destruct (due_by_range t0 ltac:(lia)) as [_ H0]. lia.
Qed.

Lemma linear_paced_new l : LinearRateLimiter_new f = Ok l -> linear_paced t0 0 l.
Proof.
  unfold LinearRateLimiter_new. split_ifs; [done|]. intros [= <-]. split; [lia|]. done.
Qed.

End LinearInvariant.

(** ** End to end *)

Section EndToEnd.

Context {T : Type}.
Context (target_ : clock -> Z -> T -> bool * list (Z * clock) * T).
Context (evaluate_chain : clock -> T -> Status).

(** C1. Pacing of a whole execution, upper bound: a sequencer over a fresh
    linear limiter with an interval of [p] ns never starts more than
    [floor ((t1 - t0 + p/2) / p)] requests by the time [t1], whatever the
    idle strategy, the order of timers and completions, and whatever the target
    refuses: what a refused request had acquired is given back. *)
Theorem sequencer_pacing_bound f p h t0 t1 r idle x s x' :
  exact_period f p h -> t0 <= t1 /\ t1 - t0 + h < 2 ^ 53 -> LinearRateLimiter_new f = Ok r ->
  (forall c now x could cbs x', target_ c now x = (could, cbs, x') ->
     callbacks_timed (monotonicTime c) t1 cbs) ->
  reachable target_ evaluate_chain t1 r idle x t0 (s, x') ->
  0 <= targets_initiated_ s <= (t1 - t0 + h) / p.
Proof.
  intros Hf Ht Hnew Htgt Hreach.
  pose proof (linear_PacingInvariant f p h t0 t1 Hf Ht) as HP.
  pose proof (linear_paced_new f p h t0 t1 Ht r Hnew) as HI.
  apply (reachable_paced target_ evaluate_chain t1 _ _ Htgt r idle x t0) in Hreach; [|exact HI].
  apply (granted_bound t1 (due_by p h t1 t0) (linear_paced f p h t0 t1) _ _ Hreach).
Qed.







End EndToEnd.

(** ** Executions *)

(** A target that starts every request and one that has room for one at a time,
    which the client's state counts. *)
Definition accepting (c : clock) (now : Z) (x : Z) : bool * list (Z * clock) * Z :=
  (true, [], x + 1).

Definition one_at_a_time (c : clock) (now : Z) (x : Z) : bool * list (Z * clock) * Z :=
  if x =? 0 then (true, [], 1) else (false, [], x).

(** Ends after 3 ms. *)
Definition three_ms (c : clock) (x : Z) : Status :=
  if 3000000 <? monotonicTime c then TERMINATE else PROCEED.

Definition demo_run (target : clock -> Z -> Z -> bool * list (Z * clock) * Z) (idle : IdleStrategy) :
    SequencerImpl LinearRateLimiter * Z :=
  match start target three_ms 9 (Clock 7 0)
          (SequencerImpl_new khz_limiter (Clock 0 0) idle) 0 with
  | Ok (Some p) => p
  | _ => (SequencerImpl_new khz_limiter (Clock 0 0) idle, 0)
  end.

Definition demo_fire (target : clock -> Z -> Z -> bool * list (Z * clock) * Z) (c : clock)
    (p : SequencerImpl LinearRateLimiter * Z) : SequencerImpl LinearRateLimiter * Z :=
  match run target three_ms 9 c true (set_periodic (fst p) TimerDisabled) (snd p) with
  | Ok (Some q) => q
  | _ => p
  end.

Definition demo (target : clock -> Z -> Z -> bool * list (Z * clock) * Z) (idle : IdleStrategy)
    (ts : list Z) : SequencerImpl LinearRateLimiter * Z :=
  fold_left (fun p t => demo_fire target (Clock t 0) p) ts (demo_run target idle).

Lemma demo_run_reachable target t1 idle :
  7 <= t1 ->
  start target three_ms 9 (Clock 7 0) (SequencerImpl_new khz_limiter (Clock 0 0) idle) 0 =
    Ok (Some (demo_run target idle)) ->
  reachable target three_ms t1 khz_limiter idle 0 0 (demo_run target idle).
Proof.
  intros Ht E. destruct (demo_run target idle) as [s x].
  apply (reachable_start _ _ _ _ _ _ _ 9 (Clock 0 0) (Clock 7 0)); [done|cbn; lia|exact E].
Qed.

Lemma demo_fire_reachable target t1 idle c p :
  reachable target three_ms t1 khz_limiter idle 0 0 p ->
  is_enabled (periodic_timer_ (fst p)) = true ->
  (monotonicTime (cached_clock (fst p)) <=? monotonicTime c) && (monotonicTime c <=? t1) = true ->
  run target three_ms 9 c true (set_periodic (fst p) TimerDisabled) (snd p) =
    Ok (Some (demo_fire target c p)) ->
  reachable target three_ms t1 khz_limiter idle 0 0 (demo_fire target c p).
Proof.
  intros Hr Hen Hc E. eapply reachable_step; [exact Hr|].
  destruct p as [s x], (demo_fire target c (s, x)) as [s' x']. cbn in Hen, Hc, E. b2p.
  apply (step_periodic _ _ _ 9 c); [done|lia|exact E].
Qed.

Lemma demo_open_reachable :
  reachable accepting three_ms 2600007 khz_limiter POLL 0 0 (demo accepting POLL [1600007]).
Proof.
  apply demo_fire_reachable; [apply demo_run_reachable; [lia|]|..]; vm_compute; reflexivity.
Qed.

Lemma demo_closed_reachable :
  reachable one_at_a_time three_ms 4000000 khz_limiter WAIT 0 0
    (demo one_at_a_time WAIT [2600007; 3000001]).
Proof.
  apply demo_fire_reachable; [apply demo_fire_reachable; [apply demo_run_reachable; [lia|]|..]|..];
    vm_compute; reflexivity.
Qed.

Lemma demo_timed (target : clock -> Z -> Z -> bool * list (Z * clock) * Z) t1 :
  (forall c now x, snd (fst (target c now x)) = []) ->
  forall c now (x : Z) (could : bool) cbs (x' : Z), target c now x = (could, cbs, x') ->
  callbacks_timed (monotonicTime c) t1 cbs.
Proof.
  intros Hnone c now x could cbs x' E. pose proof (Hnone c now x) as Hc. rewrite E in Hc.
  cbn in Hc. by subst.
Qed.

Lemma one_at_a_time_timed t1 : forall c now (x : Z) (could : bool) cbs (x' : Z),
  one_at_a_time c now x = (could, cbs, x') -> callbacks_timed (monotonicTime c) t1 cbs.
Proof. apply demo_timed. intros c now x. unfold one_at_a_time. by destruct (x =? 0). Qed.

(** In the closed loop one request goes out at 2.6 ms, a second one is held
    back, and the run ends after 3 ms, with the blocked time recorded. *)
Definition demo_closed : SequencerImpl LinearRateLimiter * Z :=
  demo one_at_a_time WAIT [2600007; 3000001].

Lemma sequencer_woken_or_stopped_witness :
  woken_or_stopped (fst demo_closed) /\ running_ (fst demo_closed) = false.
Proof.
  split; [|vm_compute; reflexivity].
  apply (sequencer_woken_or_stopped one_at_a_time three_ms 4000000 khz_limiter WAIT 0 0
           (fst demo_closed) (snd demo_closed)).
  rewrite <-surjective_pairing. exact demo_closed_reachable.
Defined.

Lemma stopped_sequencer_is_final_witness :
  control (on_completion 2600007 (Clock 3500000 0) (fst demo_closed)) =
    control (fst demo_closed) /\
  length (latency_statistic_ (on_completion 2600007 (Clock 3500000 0) (fst demo_closed))) = 1%nat.
Proof.
  split; [|vm_compute; reflexivity].
  apply (stopped_sequencer_is_final one_at_a_time three_ms 4000000 (fst demo_closed) 1 _ 1).
  - vm_compute. repeat split; try congruence. by eexists.
  - vm_compute. reflexivity.
  - apply step_completion; [vm_compute; congruence|vm_compute; split; congruence].
Defined.

Lemma sequencer_run_returns_witness :
  run accepting three_ms 5 (Clock 2600007 0) true (fst (demo accepting POLL [1600007]))
    (snd (demo accepting POLL [1600007])) <> Ok None.
Proof.
  pose proof (linear_PacingInvariant (Frequency_ 1000) 1000000 500000 0 2600007
                exact_period_1kHz ltac:(lia)) as HP.
  apply (sequencer_run_returns accepting three_ms 2600007 (due_by 1000000 500000 2600007 0)
           (linear_paced (Frequency_ 1000) 1000000 500000 0 2600007)
           (demo_timed accepting 2600007 (fun _ _ _ => eq_refl)) khz_limiter POLL 0 0).
  - cbn. split; [lia|done].
  - rewrite <-surjective_pairing. exact demo_open_reachable.
  - vm_compute. split; congruence.
  - vm_compute. reflexivity.
Defined.

Lemma sequencer_pacing_bound_witness :
  targets_initiated_ (fst demo_closed) = 1 /\
  0 <= targets_initiated_ (fst demo_closed) <= (4000000 - 0 + 500000) / 1000000.
Proof.
  split; [vm_compute; reflexivity|].
  apply (sequencer_pacing_bound one_at_a_time three_ms (Frequency_ 1000) 1000000 500000 0 4000000
           khz_limiter WAIT 0 (fst demo_closed) (snd demo_closed)).
  - exact exact_period_1kHz.
  - lia.
  - reflexivity.
  - apply one_at_a_time_timed.
  - rewrite <-surjective_pairing. exact demo_closed_reachable.
Defined.

