(* ===== verification/Statistic.v ===== *)
(** * Statistics

    Models [engine/source/common/statistic_impl.{h,cc}]: what workers record
    latencies in, how the statistics of workers are combined, summarised,
    serialised and turned into the output's messages.

    The histograms of HdrHistogram and libcircllhist and the encoding of
    protobuf messages are code outside the repository: parameters of the
    definitions that use them. *)

From Stdlib Require Import Ascii.
From S2P Require Import Prelude Double DoubleExact.

(** ** Data *)

(** [StatisticImpl]: the fields every statistic has. *)
Record StatisticImpl : Type := mkStatistic { id_ : string; min_ : Z; max_ : Z; count_ : Z }.

Definition StatisticImpl_new : StatisticImpl := mkStatistic "" UINT64_MAX 0 0.

Definition StatisticImpl_addValue (value : Z) (s : StatisticImpl) : StatisticImpl :=
  mkStatistic (id_ s) (Z.min (min_ s) value) (Z.max (max_ s) value) (u64 (count_ s + 1)).

Definition StatisticImpl_setId (id : string) (s : StatisticImpl) : StatisticImpl :=
  mkStatistic id (min_ s) (max_ s) (count_ s).

(** The part of every [combine] that concerns these fields, on a fresh
    instance. *)
Definition StatisticImpl_combine (a b : StatisticImpl) : StatisticImpl :=
  mkStatistic "" (Z.min (min_ a) (min_ b)) (Z.max (max_ a) (max_ b)) (u64 (count_ a + count_ b)).

(** ** The interface *)

(** [class Statistic], for the statistics of one type. *)
Class Statistic (S : Type) : Type := {
  st_new : S;
  st_addValue : Z -> S -> S;
  st_count : S -> Z;
  st_mean : S -> double;
  st_pvariance : S -> double;
  st_pstdev : S -> double;
  st_min : S -> Z;
  st_max : S -> Z;
  st_combine : S -> S -> S;
  st_id : S -> string;
  st_setId : string -> S -> S;
}.

(** ** NullStatistic *)

Record NullStatistic : Type := mkNull { null_base : StatisticImpl }.

#[export] Instance NullStatistic_Statistic : Statistic NullStatistic := {
  st_new := mkNull StatisticImpl_new;
  st_addValue value s := s;
  st_count s := count_ (null_base s);
  st_mean s := d0;
  st_pvariance s := d0;
  st_pstdev s := d0;
  st_min s := min_ (null_base s);
  st_max s := max_ (null_base s);
  st_combine a b := mkNull StatisticImpl_new;
  st_id s := id_ (null_base s);
  st_setId id s := mkNull (StatisticImpl_setId id (null_base s));
}.

(** ** SimpleStatistic *)

Record SimpleStatistic : Type := mkSimple {
  simple_base : StatisticImpl;
  sum_x_ : double;
  sum_x2_ : double;
}.

Definition SimpleStatistic_new : SimpleStatistic := mkSimple StatisticImpl_new d0 d0.

Definition SimpleStatistic_addValue (value : Z) (s : SimpleStatistic) : SimpleStatistic :=
  mkSimple (StatisticImpl_addValue value (simple_base s))
    (dadd (sum_x_ s) (d_of_Z value))
    (dadd (sum_x2_ s) (dmul (dmul d1 (d_of_Z value)) (d_of_Z value))).

Definition SimpleStatistic_mean (s : SimpleStatistic) : double :=
  if count_ (simple_base s) =? 0 then S754_nan
  else ddiv (sum_x_ s) (d_of_Z (count_ (simple_base s))).

Definition SimpleStatistic_pvariance (s : SimpleStatistic) : double :=
  if count_ (simple_base s) =? 0 then S754_nan
  else dsub (ddiv (sum_x2_ s) (d_of_Z (count_ (simple_base s))))
            (dmul (SimpleStatistic_mean s) (SimpleStatistic_mean s)).

Definition SimpleStatistic_pstdev (s : SimpleStatistic) : double :=
  if count_ (simple_base s) =? 0 then S754_nan else dsqrt (SimpleStatistic_pvariance s).

Definition SimpleStatistic_combine (a b : SimpleStatistic) : SimpleStatistic :=
  mkSimple (StatisticImpl_combine (simple_base a) (simple_base b))
    (dadd (sum_x_ a) (sum_x_ b)) (dadd (sum_x2_ a) (sum_x2_ b)).

#[export] Instance SimpleStatistic_Statistic : Statistic SimpleStatistic := {
  st_new := SimpleStatistic_new;
  st_addValue := SimpleStatistic_addValue;
  st_count s := count_ (simple_base s);
  st_mean := SimpleStatistic_mean;
  st_pvariance := SimpleStatistic_pvariance;
  st_pstdev := SimpleStatistic_pstdev;
  st_min s := min_ (simple_base s);
  st_max s := max_ (simple_base s);
  st_combine := SimpleStatistic_combine;
  st_id s := id_ (simple_base s);
  st_setId id s := mkSimple (StatisticImpl_setId id (simple_base s)) (sum_x_ s) (sum_x2_ s);
}.

(** ** StreamingStatistic *)

Record StreamingStatistic : Type := mkStreaming {
  streaming_base : StatisticImpl;
  mean_ : double;
  accumulated_variance_ : double;
}.

Definition StreamingStatistic_new : StreamingStatistic := mkStreaming StatisticImpl_new d0 d0.

Definition StreamingStatistic_addValue (value : Z) (s : StreamingStatistic) : StreamingStatistic :=
  let base := StatisticImpl_addValue value (streaming_base s) in
  let delta := dsub (d_of_Z value) (mean_ s) in
  let delta_n := ddiv delta (d_of_Z (count_ base)) in
  mkStreaming base (dadd (mean_ s) delta_n)
    (dadd (accumulated_variance_ s)
       (dmul (dmul delta delta_n) (dsub (d_of_Z (count_ base)) d1))).

Definition StreamingStatistic_mean (s : StreamingStatistic) : double :=
  if count_ (streaming_base s) =? 0 then S754_nan else mean_ s.

Definition StreamingStatistic_pvariance (s : StreamingStatistic) : double :=
  if count_ (streaming_base s) =? 0 then S754_nan
  else ddiv (accumulated_variance_ s) (d_of_Z (count_ (streaming_base s))).

Definition StreamingStatistic_pstdev (s : StreamingStatistic) : double :=
  if count_ (streaming_base s) =? 0 then S754_nan else dsqrt (StreamingStatistic_pvariance s).

(** [std::isnan(x) ? 0 : x]. *)
Definition nan_to_zero (x : double) : double := if disnan x then d0 else x.

Definition StreamingStatistic_combine (a b : StreamingStatistic) : StreamingStatistic :=
  let base := StatisticImpl_combine (streaming_base a) (streaming_base b) in
  let a_mean := nan_to_zero (StreamingStatistic_mean a) in
  let b_mean := nan_to_zero (StreamingStatistic_mean b) in
  let a_count := d_of_Z (count_ (streaming_base a)) in
  let b_count := d_of_Z (count_ (streaming_base b)) in
  let count := d_of_Z (count_ base) in
  if count_ base =? 0 then mkStreaming base d0 d0
  else
    let d := dsub a_mean b_mean in
    mkStreaming base
      (ddiv (dadd (dmul a_count a_mean) (dmul b_count b_mean)) count)
      (dadd (dadd (accumulated_variance_ a) (accumulated_variance_ b))
         (ddiv (dmul (dmul (dmul d d) a_count) b_count) count)).

#[export] Instance StreamingStatistic_Statistic : Statistic StreamingStatistic := {
  st_new := StreamingStatistic_new;
  st_addValue := StreamingStatistic_addValue;
  st_count s := count_ (streaming_base s);
  st_mean := StreamingStatistic_mean;
  st_pvariance := StreamingStatistic_pvariance;
  st_pstdev := StreamingStatistic_pstdev;
  st_min s := min_ (streaming_base s);
  st_max s := max_ (streaming_base s);
  st_combine := StreamingStatistic_combine;
  st_id s := id_ (streaming_base s);
  st_setId id s := mkStreaming (StatisticImpl_setId id (streaming_base s)) (mean_ s)
                     (accumulated_variance_ s);
}.

(** [summaryOf]: any statistic, as a streaming one. *)
Definition StreamingStatistic_summaryOf {S : Type} `{Statistic S} (s : S) : StreamingStatistic :=
  if st_count s =? 0 then mkStreaming (mkStatistic (st_id s) UINT64_MAX 0 0) d0 d0
  else
    mkStreaming (mkStatistic (st_id s) (st_min s) (st_max s) (st_count s)) (st_mean s)
      (if disnan (st_pvariance s) then d0 else dmul (st_pvariance s) (d_of_Z (st_count s))).

(** ** InMemoryStatistic *)

Record InMemoryStatistic : Type := mkInMemory {
  inmemory_base : StatisticImpl;
  samples_ : list Z;
  streaming_stats_ : StreamingStatistic;
}.

(** The samples are stored as [int64_t]. *)
Definition InMemoryStatistic_addValue (sample_value : Z) (s : InMemoryStatistic) :
    InMemoryStatistic :=
  mkInMemory (StatisticImpl_addValue sample_value (inmemory_base s))
    (samples_ s ++ [i64 sample_value])
    (StreamingStatistic_addValue sample_value (streaming_stats_ s)).

Definition InMemoryStatistic_combine (a b : InMemoryStatistic) : InMemoryStatistic :=
  let samples := samples_ a ++ samples_ b in
  mkInMemory
    (mkStatistic "" (Z.min (min_ (inmemory_base a)) (min_ (inmemory_base b)))
       (Z.max (max_ (inmemory_base a)) (max_ (inmemory_base b))) (u64 (Z.of_nat (length samples))))
    samples
    (StreamingStatistic_combine (streaming_stats_ a) (streaming_stats_ b)).

#[export] Instance InMemoryStatistic_Statistic : Statistic InMemoryStatistic := {
  st_new := mkInMemory StatisticImpl_new [] StreamingStatistic_new;
  st_addValue := InMemoryStatistic_addValue;
  st_count s := count_ (inmemory_base s);
  st_mean s := StreamingStatistic_mean (streaming_stats_ s);
  st_pvariance s := StreamingStatistic_pvariance (streaming_stats_ s);
  st_pstdev s := StreamingStatistic_pstdev (streaming_stats_ s);
  st_min s := min_ (inmemory_base s);
  st_max s := max_ (inmemory_base s);
  st_combine := InMemoryStatistic_combine;
  st_id s := id_ (inmemory_base s);
  st_setId id s := mkInMemory (StatisticImpl_setId id (inmemory_base s)) (samples_ s)
                     (streaming_stats_ s);
}.

(** ** Messages of the output *)

(** [Protobuf::Duration]. *)
Record Duration : Type := mkDuration { seconds : Z; nanos : Z }.

Definition setDurationFromNanos (n : Z) : Duration :=
  mkDuration (i64 (n / 1000000000)) (n mod 1000000000).

Inductive SerializationDomain : Type := RAW | DURATION.

(** The values of [nighthawk::client::Statistic], in one of the domains, and its
    percentiles. *)
Inductive statistic_values : Type :=
| Durations (mean pstdev min max : Duration)
| Raw (raw_mean raw_pstdev : double) (raw_min raw_max : Z).

Record Percentile : Type := mkPercentile {
  pct_value : Duration + double;
  pct_percentile : double;
  pct_count : Z;
}.

Record StatisticProto : Type := mkProto {
  proto_id : string;
  proto_count : Z;
  proto_values : statistic_values;
  proto_percentiles : list Percentile;
}.

(** [StatisticImpl::toProto]. The rounded doubles are cast to [int64_t], and
    taken as [uint64_t] by [setDurationFromNanos]. *)
Definition StatisticImpl_toProto {S : Type} `{Statistic S} (domain : SerializationDomain) (s : S) :
    outcome StatisticProto :=
  match domain with
  | DURATION =>
      let* mean := if st_count s =? 0 then Ok 0 else cast_i64 (roundZ (st_mean s)) in
      let* pstdev := if st_count s =? 0 then Ok 0
                     else cast_i64 (roundZ (nan_to_zero (st_pstdev s))) in
      let min := if st_min s =? UINT64_MAX then 0 else st_min s in
      Ok (mkProto (st_id s) (st_count s)
            (Durations (setDurationFromNanos (u64 mean)) (setDurationFromNanos (u64 pstdev))
               (setDurationFromNanos min) (setDurationFromNanos (st_max s))) [])
  | RAW =>
      Ok (mkProto (st_id s) (st_count s)
            (Raw (st_mean s) (st_pstdev s) (st_min s) (st_max s)) [])
  end.

(** ** HdrStatistic *)

Section Hdr.

(** What the sources use of HdrHistogram. *)
Context {hdr_histogram : Type}.
Context (hdr_init : Z -> Z -> Z -> hdr_histogram).
Context (hdr_record_value : hdr_histogram -> Z -> option hdr_histogram).
Context (hdr_total_count : hdr_histogram -> Z).
Context (hdr_mean hdr_stddev : hdr_histogram -> double).
Context (hdr_value_at_percentile : hdr_histogram -> Z -> Z).
Context (hdr_add : hdr_histogram -> hdr_histogram -> hdr_histogram * Z).
(** The iteration over percentiles: highest equivalent value, percentile and
    cumulative count of each. *)
Context (hdr_iter_percentile : hdr_histogram -> Z -> list (Z * double * Z)).
Context (hdr_log_encode : hdr_histogram -> option string).
Context (hdr_log_decode : string -> option hdr_histogram).

Record HdrStatistic : Type := mkHdr { hdr_base : StatisticImpl; histogram_ : hdr_histogram }.

Definition HdrStatistic_SignificantDigits : Z := 4.

Definition HdrStatistic_new : HdrStatistic :=
  mkHdr StatisticImpl_new
    (hdr_init 1 (1000 * 1000 * 1000 * 60) HdrStatistic_SignificantDigits).

(** A value the histogram cannot track is dropped. It is passed as an
    [int64_t]. *)
Definition HdrStatistic_addValue (value : Z) (s : HdrStatistic) : HdrStatistic :=
  match hdr_record_value (histogram_ s) (i64 value) with
  | None => s
  | Some h => mkHdr (StatisticImpl_addValue value (hdr_base s)) h
  end.

Definition HdrStatistic_count (s : HdrStatistic) : Z := hdr_total_count (histogram_ s).

Definition HdrStatistic_pstdev (s : HdrStatistic) : double :=
  if HdrStatistic_count s =? 0 then S754_nan else hdr_stddev (histogram_ s).

Definition HdrStatistic_min (s : HdrStatistic) : Z :=
  if HdrStatistic_count s =? 0 then UINT64_MAX else hdr_value_at_percentile (histogram_ s) 0.

Definition HdrStatistic_combine (a b : HdrStatistic) : HdrStatistic :=
  let '(h, _) := hdr_add (histogram_ HdrStatistic_new) (histogram_ a) in
  let '(h, _) := hdr_add h (histogram_ b) in
  mkHdr StatisticImpl_new h.

#[export] Instance HdrStatistic_Statistic : Statistic HdrStatistic := {
  st_new := HdrStatistic_new;
  st_addValue := HdrStatistic_addValue;
  st_count := HdrStatistic_count;
  st_mean s := if HdrStatistic_count s =? 0 then S754_nan else hdr_mean (histogram_ s);
  st_pvariance s := dmul (HdrStatistic_pstdev s) (HdrStatistic_pstdev s);
  st_pstdev := HdrStatistic_pstdev;
  st_min := HdrStatistic_min;
  st_max s := hdr_value_at_percentile (histogram_ s) 100;
  st_combine := HdrStatistic_combine;
  st_id s := id_ (hdr_base s);
  st_setId id s := mkHdr (StatisticImpl_setId id (hdr_base s)) (histogram_ s);
}.

Definition HdrStatistic_toProto (domain : SerializationDomain) (s : HdrStatistic) :
    outcome StatisticProto :=
  let* proto := StatisticImpl_toProto domain s in
  Ok (mkProto (proto_id proto) (proto_count proto) (proto_values proto)
        (map (fun '(value, percentile, count) =>
                mkPercentile
                  (match domain with
                   | DURATION => inl (setDurationFromNanos (u64 value))
                   | RAW => inr (d_of_Z value)
                   end)
                  (ddiv percentile (d_of_Z 100)) count)
             (hdr_iter_percentile (histogram_ s) 5))).

Definition HdrStatistic_serializeNative (s : HdrStatistic) : option string :=
  hdr_log_encode (histogram_ s).

(** The status and the statistic. *)
Definition HdrStatistic_deserializeNative (stream : string) (s : HdrStatistic) :
    bool * HdrStatistic :=
  match hdr_log_decode stream with
  | Some h => (true, mkHdr (hdr_base s) h)
  | None => (false, s)
  end.

End Hdr.

(** ** CircllhistStatistic *)

Section Circllhist.

(** What the sources use of libcircllhist. *)
Context {histogram_t : Type}.
Context (hist_alloc : histogram_t).
Context (hist_insert_intscale : histogram_t -> Z -> histogram_t).
Context (hist_approx_mean hist_approx_stddev : histogram_t -> double).
Context (hist_accumulate : histogram_t -> histogram_t -> histogram_t).
Context (hist_approx_quantile : histogram_t -> double -> double).
Context (hist_approx_count_below : histogram_t -> double -> Z).

Record CircllhistStatistic : Type := mkCircllhist {
  circllhist_base : StatisticImpl;
  circllhist_histogram_ : histogram_t;
}.

(** The value is passed as an [int64_t]. *)
Definition CircllhistStatistic_addValue (value : Z) (s : CircllhistStatistic) :
    CircllhistStatistic :=
  mkCircllhist (StatisticImpl_addValue value (circllhist_base s))
    (hist_insert_intscale (circllhist_histogram_ s) (i64 value)).

Definition CircllhistStatistic_pstdev (s : CircllhistStatistic) : double :=
  if count_ (circllhist_base s) =? 0 then S754_nan
  else hist_approx_stddev (circllhist_histogram_ s).

Definition CircllhistStatistic_combine (a b : CircllhistStatistic) : CircllhistStatistic :=
  let h := hist_accumulate hist_alloc (circllhist_histogram_ a) in
  let h := hist_accumulate h (circllhist_histogram_ b) in
  mkCircllhist (StatisticImpl_combine (circllhist_base a) (circllhist_base b)) h.

#[export] Instance CircllhistStatistic_Statistic : Statistic CircllhistStatistic := {
  st_new := mkCircllhist StatisticImpl_new hist_alloc;
  st_addValue := CircllhistStatistic_addValue;
  st_count s := count_ (circllhist_base s);
  st_mean s := hist_approx_mean (circllhist_histogram_ s);
  st_pvariance s := dmul (CircllhistStatistic_pstdev s) (CircllhistStatistic_pstdev s);
  st_pstdev := CircllhistStatistic_pstdev;
  st_min s := min_ (circllhist_base s);
  st_max s := max_ (circllhist_base s);
  st_combine := CircllhistStatistic_combine;
  st_id s := id_ (circllhist_base s);
  st_setId id s := mkCircllhist (StatisticImpl_setId id (circllhist_base s))
                     (circllhist_histogram_ s);
}.

(** The quantiles of the output, in thousandths. *)
Definition circllhist_quantiles : list Z :=
  [0; 100; 200; 300; 400; 500; 550; 600; 650; 700; 750; 775; 800; 825; 850; 875; 900; 925; 950;
   975; 990; 995; 999; 1000].

Fixpoint circllhist_percentiles (domain : SerializationDomain) (h : histogram_t) (qs : list Z) :
    outcome (list Percentile) :=
  match qs with
  | [] => Ok []
  | q :: qs =>
      let quantile := ddiv (d_of_Z q) (d_of_Z 1000) in
      let computed := hist_approx_quantile h quantile in
      let* value := match domain with
                    | DURATION => let* n := cast_i64 (truncZ computed) in
                                  Ok (inl (setDurationFromNanos (u64 n)))
                    | RAW => Ok (inr computed)
                    end in
      let* rest := circllhist_percentiles domain h qs in
      Ok (mkPercentile value quantile (hist_approx_count_below h computed) :: rest)
  end.

Definition CircllhistStatistic_toProto (domain : SerializationDomain) (s : CircllhistStatistic) :
    outcome StatisticProto :=
  let* proto := StatisticImpl_toProto domain s in
  if count_ (circllhist_base s) =? 0 then Ok proto
  else
    let* ps := circllhist_percentiles domain (circllhist_histogram_ s) circllhist_quantiles in
    Ok (mkProto (proto_id proto) (proto_count proto) (proto_values proto) ps).

End Circllhist.

(** ** Native serialisation *)

Section Native.

(** The messages of [statistic.proto], and their encoding. *)
Record StreamingProto : Type := mkStreamingProto {
  sp_id : string; sp_count : Z; sp_min : Z; sp_max : Z; sp_a : double; sp_b : double;
}.

Context (SerializeToString : StreamingProto -> string).
Context (ParseFromString : string -> option StreamingProto).

Definition StreamingStatistic_serializeNative (s : StreamingStatistic) : string :=
  let b := streaming_base s in
  SerializeToString
    (mkStreamingProto (id_ b) (count_ b) (min_ b) (max_ b) (mean_ s) (accumulated_variance_ s)).

(** The status and the statistic. *)
Definition StreamingStatistic_deserializeNative (stream : string) (s : StreamingStatistic) :
    bool * StreamingStatistic :=
  match ParseFromString stream with
  | None => (false, s)
  | Some p => (true, mkStreaming (mkStatistic (sp_id p) (sp_min p) (sp_max p) (sp_count p))
                       (sp_a p) (sp_b p))
  end.

Definition SimpleStatistic_serializeNative (s : SimpleStatistic) : string :=
  let b := simple_base s in
  SerializeToString
    (mkStreamingProto (id_ b) (count_ b) (min_ b) (max_ b) (sum_x_ s) (sum_x2_ s)).

Definition SimpleStatistic_deserializeNative (stream : string) (s : SimpleStatistic) :
    bool * SimpleStatistic :=
  match ParseFromString stream with
  | None => (false, s)
  | Some p => (true, mkSimple (mkStatistic (sp_id p) (sp_min p) (sp_max p) (sp_count p))
                       (sp_a p) (sp_b p))
  end.

End Native.

(** ** Merging over workers *)

Section Merge.

Context {S : Type} `{Statistic S}.

(** [StatisticPtrMap]: in the order of the keys. *)
Definition ProcessImpl_vectorizeStatisticPtrMap (statistics : list (string * S)) : list S :=
  map (fun '(id, s) => st_setId id (st_combine st_new s)) statistics.

(** One worker's statistics into the merged ones, index by index: out of range
    is undefined. *)
Fixpoint merge_worker (merged : list S) (statistics : list S) : outcome (list S) :=
  match statistics, merged with
  | [], _ => Ok merged
  | s :: statistics, m :: merged =>
      let* rest := merge_worker merged statistics in
      Ok (st_setId (st_id m) (st_combine m s) :: rest)
  | _ :: _, [] => Undefined
  end.

Fixpoint merge_workers (merged : list S) (workers : list (list (string * S))) : outcome (list S) :=
  match workers with
  | [] => Ok merged
  | w :: workers => let* merged := merge_worker merged (map snd w) in merge_workers merged workers
  end.

Definition ProcessImpl_mergeWorkerStatistics (workers : list (list (string * S))) :
    outcome (list S) :=
  let w0 := match workers with [] => [] | w :: _ => w end in
  merge_workers (map (fun '(id, _) => st_setId id st_new) w0) workers.

(** As many as both have. *)
Fixpoint merge_copies (merged statistics : list S) : list S :=
  match merged, statistics with
  | m :: merged, s :: statistics =>
      st_setId (st_id m) (st_combine m s) :: merge_copies merged statistics
  | _, _ => merged
  end.

Definition ProcessImpl_mergeStatistics (per_worker : list (list S)) : list S :=
  fold_left (fun merged statistics =>
    match statistics, merged with
    | [], _ => merged
    | _, [] => statistics
    | _, _ => merge_copies merged statistics
    end) per_worker [].

End Merge.

(** ** What a statistic says of its samples *)

Definition smallest (l : list Z) : Z := foldr Z.min UINT64_MAX l.

Definition largest (l : list Z) : Z := foldr Z.max 0 l.

(** What the statistics promise their clients: one represents a list of samples,
    its count (modulo the width of the counter), minimum and maximum are those
    of the list, and adding and combining append. *)
Class Represents {S : Type} `{Statistic S} (R : S -> list Z -> Prop) : Prop := {
  rep_new : R st_new [];
  rep_add v s l : R s l -> R (st_addValue v s) (l ++ [v]);
  rep_combine a b la lb : R a la -> R b lb -> R (st_combine a b) (la ++ lb);
  rep_setId i s l : R s l -> R (st_setId i s) l;
  rep_id i s : st_id (st_setId i s) = i;
  rep_count s l : R s l -> st_count s = u64 (Z.of_nat (length l));
  rep_min s l : R s l -> st_min s = smallest l;
  rep_max s l : R s l -> st_max s = largest l;
}.

Lemma smallest_le l : smallest l <= UINT64_MAX.
Proof. unfold smallest. induction l; cbn; lia. Qed.

Lemma largest_nonneg l : 0 <= largest l.
Proof. unfold largest. induction l; cbn; lia. Qed.

Lemma smallest_app l1 l2 : smallest (l1 ++ l2) = Z.min (smallest l1) (smallest l2).
Proof.
  pose proof (smallest_le l2). unfold smallest in *. induction l1; cbn; [lia|]. rewrite IHl1. lia.
Qed.

Lemma largest_app l1 l2 : largest (l1 ++ l2) = Z.max (largest l1) (largest l2).
Proof.
  pose proof (largest_nonneg l2). unfold largest in *. induction l1; cbn; [lia|]. rewrite IHl1. lia.
Qed.

Lemma u64_add a b : u64 (u64 a + u64 b) = u64 (a + b).
Proof. unfold u64, wrap_u. by rewrite <-Zplus_mod. Qed.

Lemma u64_add_l a b : u64 (u64 a + b) = u64 (a + b).
Proof. unfold u64, wrap_u. by rewrite Zplus_mod_idemp_l. Qed.

Definition base_represents (b : StatisticImpl) (l : list Z) : Prop :=
  count_ b = u64 (Z.of_nat (length l)) /\ min_ b = smallest l /\ max_ b = largest l.

Lemma base_represents_new : base_represents StatisticImpl_new [].
Proof. done. Qed.

Lemma base_represents_add v b l :
  base_represents b l -> base_represents (StatisticImpl_addValue v b) (l ++ [v]).
Proof.
  intros (Hc & Hmin & Hmax). unfold base_represents, StatisticImpl_addValue. cbn.
  rewrite Hc, Hmin, Hmax, smallest_app, largest_app, length_app, u64_add_l, Nat2Z.inj_add.
  pose proof (smallest_le l). pose proof (largest_nonneg l).
  change (smallest [v]) with (Z.min v UINT64_MAX). change (largest [v]) with (Z.max v 0).
  cbn [length]. repeat split; lia.
Qed.

Lemma base_represents_combine a b la lb :
  base_represents a la -> base_represents b lb ->
  base_represents (StatisticImpl_combine a b) (la ++ lb).
Proof.
  intros (Hc & Hmin & Hmax) (Hc' & Hmin' & Hmax').
  unfold base_represents, StatisticImpl_combine. cbn.
  rewrite Hc, Hmin, Hmax, Hc', Hmin', Hmax', smallest_app, largest_app, length_app, u64_add.
  by rewrite Nat2Z.inj_add.
Qed.

Create HintDb represents.
#[export] Hint Resolve base_represents_new base_represents_add base_represents_combine : represents.

(** The statistics that keep the common fields keep their promise. *)
#[export] Instance SimpleStatistic_Represents :
    Represents (fun s l => base_represents (simple_base s) l).
Proof. split; intros; cbn in *; eauto with represents; by destruct H as (? & ? & ?). Qed.

Lemma streaming_combine_base a b :
  streaming_base (StreamingStatistic_combine a b) =
  StatisticImpl_combine (streaming_base a) (streaming_base b).
Proof. unfold StreamingStatistic_combine. by destruct (_ =? 0). Qed.

#[export] Instance StreamingStatistic_Represents :
    Represents (fun s l => base_represents (streaming_base s) l).
Proof.
  split; intros; cbn in *; rewrite ?streaming_combine_base; eauto with represents;
    by destruct H as (? & ? & ?).
Qed.

#[export] Instance InMemoryStatistic_Represents :
    Represents (fun s l => base_represents (inmemory_base s) l /\ samples_ s = map i64 l).
Proof.
  split; cbn; try done.
  - intros v s l [Hb Hs]. split; [auto with represents|]. cbn. by rewrite Hs, map_app.
  - intros a b la lb [(Hc & Hmin & Hmax) Hs] [(Hc' & Hmin' & Hmax') Hs'].
    rewrite Hs, Hs', <-map_app. split; [|done]. unfold base_represents. cbn.
    by rewrite length_map, Hmin, Hmin', Hmax, Hmax', smallest_app, largest_app.
  - intros s l [(Hc & _) _]. done.
  - intros s l [(_ & Hc & _) _]. done.
  - intros s l [(_ & _ & Hc) _]. done.
Qed.

#[export] Instance CircllhistStatistic_Represents {histogram_t : Type} (alloc : histogram_t)
    insert mean stddev accumulate :
  @Represents _ (CircllhistStatistic_Statistic alloc insert mean stddev accumulate)
    (fun s l => base_represents (circllhist_base s) l).
Proof. split; intros; cbn in *; eauto with represents; by destruct H as (? & ? & ?). Qed.

(** ** Merging *)

Section MergeCorrect.

Context {S : Type} `{Represents S R}.

Lemma merge_worker_represents merged statistics lm ls :
  length merged = length statistics -> Forall2 R merged lm -> Forall2 R statistics ls ->
  exists merged', merge_worker merged statistics = Ok merged' /\
    Forall2 R merged' (zip_with app lm ls) /\ map st_id merged' = map st_id merged.
Proof.
  intros Hlen Hm. revert statistics ls Hlen.
  induction Hm as [|m l merged lm Hml Hm IH]; intros statistics ls Hlen Hs;
    destruct statistics as [|s statistics]; [|done..|]; inversion Hs; subst.
  - by exists [].
  - destruct (IH statistics l') as (merged' & E & Hr & Hid); [cbn in Hlen; lia|done|].
    cbn. rewrite E. cbn. eexists. split; [done|]. split.
    + constructor; [|done]. by apply rep_setId, rep_combine.
    + cbn. by rewrite rep_id, Hid.
Qed.

Lemma merge_workers_represents workers samples merged lm n :
  length merged = n -> Forall (fun w => length w = n) workers -> Forall2 R merged lm ->
  Forall2 (fun w ls => Forall2 R (map snd w) ls) workers samples ->
  exists merged', merge_workers merged workers = Ok merged' /\
    Forall2 R merged' (fold_left (zip_with app) samples lm) /\
    map st_id merged' = map st_id merged.
Proof.
  intros Hn Hlen Hm Hw. revert merged lm Hn Hm Hlen.
  induction Hw as [|w ls workers samples Hwl Hw IH]; intros merged lm Hn Hm Hlen; cbn.
  - by exists merged.
  - inversion Hlen as [|? ? Hw1 Hws]; subst.
    destruct (merge_worker_represents merged (map snd w) lm ls) as (m1 & E & Hr & Hid);
      [by rewrite length_map|done|done|].
    rewrite E. cbn. destruct (IH m1 (zip_with app lm ls)) as (m2 & E2 & Hr2 & Hid2); try done.
    + rewrite <-(length_map st_id m1), Hid, length_map. done.
    + exists m2. by rewrite Hid2.
Qed.

(** What the merged output of a process says is what all its workers
    recorded: merging workers that have the same statistics succeeds, keeps the
    ids of the first worker, and every merged statistic has the number, the
    minimum and the maximum of all samples the workers put into that one. *)
Lemma merged_workers_represent_all w0 workers samples :
  Forall (fun w => length w = length w0) workers ->
  Forall2 (fun w ls => Forall2 R (map snd w) ls) (w0 :: workers) samples ->
  exists merged, ProcessImpl_mergeWorkerStatistics (w0 :: workers) = Ok merged /\
    map st_id merged = map fst w0 /\
    Forall2 (fun m l => st_count m = u64 (Z.of_nat (length l)) /\
                        st_min m = smallest l /\ st_max m = largest l)
      merged (fold_left (zip_with app) samples (replicate (length w0) [])).
Proof.
  intros Hlen Hw. unfold ProcessImpl_mergeWorkerStatistics.
  destruct (merge_workers_represents (w0 :: workers) samples
              (map (fun '(id, _) => st_setId id st_new) w0) (replicate (length w0) []) (length w0))
    as (merged & E & Hr & Hid).
  - by rewrite length_map.
  - by constructor.
  - clear Hlen Hw. induction w0 as [|[id s] w0 IH]; cbn; constructor; [|done]. apply rep_setId, rep_new.
  - done.
  - exists merged. split; [done|]. split.
    + rewrite Hid, map_map. apply map_ext. intros [id s]. apply rep_id.
    + eapply Forall2_impl; [exact Hr|]. intros m l Hml.
      repeat split; [by apply rep_count|by apply rep_min|by apply rep_max].
Qed.

(** A summary, which is what a snapshot of a run in flight takes instead of
    a copy, has the id, the number, the minimum and the maximum of its source,
    whatever kind of statistic that is, and its mean when it has samples. *)
Lemma summary_represents s l :
  R s l -> Z.of_nat (length l) < 2 ^ 64 ->
  let summary := StreamingStatistic_summaryOf s in
  base_represents (streaming_base summary) l /\ st_id summary = st_id s /\
  (l <> [] -> st_mean summary = st_mean s).
Proof.
  intros Hs Hlen. unfold StreamingStatistic_summaryOf.
  pose proof (rep_count s l Hs) as Hc. pose proof (rep_min s l Hs) as Hmin.
  pose proof (rep_max s l Hs) as Hmax. rewrite u64_small in Hc by (unfold in_u64; lia).
  unfold base_represents. rewrite u64_small by (unfold in_u64; lia).
  destruct (st_count s =? 0) eqn:E; b2p; cbn.
  - destruct l; [|cbn in *; lia]. done.
  - repeat split; try done. intros _. unfold StreamingStatistic_mean. cbn.
    by replace (st_count s =? 0) with false by lia.
Qed.

End MergeCorrect.

(** ** Exactness *)

(** A statistic after samples, in order. *)
Definition record_samples {S : Type} `{Statistic S} (l : list Z) : S :=
  fold_left (fun s v => st_addValue v s) l st_new.

Lemma record_samples_snoc {S : Type} `{Statistic S} l v :
  record_samples (l ++ [v]) = st_addValue v (record_samples l).
Proof. unfold record_samples. by rewrite fold_left_app. Qed.

Lemma record_samples_represents {S : Type} `{Represents S R} l : R (record_samples l) l.
Proof.
  induction l as [|v l IH] using rev_ind; [apply rep_new|].
  rewrite record_samples_snoc. by apply rep_add.
Qed.

Definition sum (l : list Z) : Z := foldr Z.add 0 l.

Definition sum_of_squares (l : list Z) : Z := sum (map (fun v => v * v) l).

Lemma sum_app l1 l2 : sum (l1 ++ l2) = sum l1 + sum l2.
Proof. unfold sum. induction l1; cbn; lia. Qed.

Lemma sums_bounds l :
  Forall (fun v => 0 <= v) l -> 0 <= sum l <= sum_of_squares l.
Proof. unfold sum_of_squares, sum. induction 1; cbn; nia. Qed.

(** The simple statistic of small samples: every field is exact. *)
Definition simple_of (l : list Z) : SimpleStatistic :=
  mkSimple (mkStatistic "" (smallest l) (largest l) (u64 (Z.of_nat (length l))))
    (d_of_Z (sum l)) (d_of_Z (sum_of_squares l)).

Lemma simple_record_exact l :
  Forall (fun v => 0 <= v) l -> sum_of_squares l < 2 ^ 53 -> record_samples l = simple_of l.
Proof.
  induction l as [|v l IH] using rev_ind; [done|]. intros Hl Hs.
  apply Forall_app in Hl as [Hl Hv]. inversion Hv as [|? ? Hv0 _]; subst.
  pose proof (sums_bounds l Hl) as Hb.
  assert (Hsq : sum_of_squares (l ++ [v]) = sum_of_squares l + v * v)
    by (unfold sum_of_squares; rewrite map_app, sum_app; cbn; lia).
  rewrite record_samples_snoc, IH by (done || nia).
  pose proof (base_represents_add v (simple_base (simple_of l)) l ltac:(done)) as (Hc & Hmin & Hmax).
  change (st_addValue v (simple_of l)) with
    (mkSimple (StatisticImpl_addValue v (simple_base (simple_of l)))
       (dadd (d_of_Z (sum l)) (d_of_Z v))
       (dadd (d_of_Z (sum_of_squares l)) (dmul (dmul (d_of_Z 1) (d_of_Z v)) (d_of_Z v)))).
  assert (Hv53 : v < 2 ^ 53) by nia.
  rewrite (dmul_exact 1 v), Z.mul_1_l, (dmul_exact v v), !dadd_exact by nia.
  unfold simple_of at 2. rewrite <-Hc, <-Hmin, <-Hmax, sum_app, Hsq.
  change (sum [v]) with (v + 0). by rewrite Z.add_0_r.
Qed.

(** Combining simple statistics is exact: as long as the sum of the squares
    fits the 53 bits of a double, the combination of what two workers recorded
    is, field by field, what one would have recorded, and its sums are the true
    sums. *)
Lemma simple_combine_exact l1 l2 :
  Forall (fun v => 0 <= v) (l1 ++ l2) -> sum_of_squares (l1 ++ l2) < 2 ^ 53 ->
  SimpleStatistic_combine (record_samples l1) (record_samples l2) = record_samples (l1 ++ l2) /\
  sum_x_ (record_samples (l1 ++ l2)) = d_of_Z (sum (l1 ++ l2)) /\
  sum_x2_ (record_samples (l1 ++ l2)) = d_of_Z (sum_of_squares (l1 ++ l2)).
Proof.
  intros Hl Hs. rewrite (simple_record_exact (l1 ++ l2)) by done.
  apply Forall_app in Hl as [Hl1 Hl2].
  assert (Hsq : sum_of_squares (l1 ++ l2) = sum_of_squares l1 + sum_of_squares l2)
    by (unfold sum_of_squares; by rewrite map_app, sum_app).
  pose proof (sums_bounds l1 Hl1). pose proof (sums_bounds l2 Hl2).
  rewrite !simple_record_exact by (done || lia). split; [|done].
  pose proof (base_represents_combine (simple_base (simple_of l1)) (simple_base (simple_of l2))
                l1 l2 ltac:(done) ltac:(done)) as (Hc & Hmin & Hmax).
  unfold SimpleStatistic_combine, StatisticImpl_combine, simple_of in *. cbn in *.
  rewrite Hc, Hmin, Hmax, sum_app, Hsq, !dadd_exact by lia. done.
Qed.

Lemma simple_combine_exact_witness :
  SimpleStatistic_combine (record_samples [3; 5]) (record_samples [1000]) =
    record_samples [3; 5; 1000] /\ sum_x_ (record_samples [3; 5; 1000]) = d_of_Z 1008.
Proof.
  split.
  - apply (simple_combine_exact [3; 5] [1000]); [repeat constructor; lia|reflexivity].
  - apply (simple_combine_exact [3; 5] [1000]); [repeat constructor; lia|reflexivity].
Defined.

(** Idle workers: combining statistics without samples leaves no NaN in the
    fields, so that combining the result with one that has samples gives the
    fields of combining a fresh one, however many idle workers come first. *)
Lemma streaming_combine_idle a b c :
  count_ (streaming_base a) = 0 -> count_ (streaming_base b) = 0 ->
  let idle := StreamingStatistic_combine a b in
  mean_ idle = d0 /\ accumulated_variance_ idle = d0 /\
  (base_represents (streaming_base a) [] -> base_represents (streaming_base b) [] ->
   StreamingStatistic_combine idle c = StreamingStatistic_combine StreamingStatistic_new c).
Proof.
  intros Ha Hb idle.
  assert (Hidle : idle = mkStreaming (StatisticImpl_combine (streaming_base a) (streaming_base b)) d0 d0).
  { unfold idle, StreamingStatistic_combine. cbn. by rewrite Ha, Hb. }
  rewrite Hidle. split; [done|split; [done|]]. intros (_ & Hmin & Hmax) (_ & Hmin' & Hmax').
  unfold StatisticImpl_combine. rewrite Ha, Hb, Hmin, Hmax, Hmin', Hmax'. done.
Qed.

Lemma streaming_combine_idle_witness :
  let idle := StreamingStatistic_combine StreamingStatistic_new StreamingStatistic_new in
  StreamingStatistic_combine idle (record_samples [4; 8]) =
    StreamingStatistic_combine StreamingStatistic_new (record_samples [4; 8]).
Proof.
  apply (streaming_combine_idle StreamingStatistic_new StreamingStatistic_new
           (record_samples [4; 8]) eq_refl eq_refl); exact base_represents_new.
Defined.

(** ** Messages *)

Definition duration_ns (d : Duration) : Z := seconds d * 1000000000 + nanos d.

Lemma setDurationFromNanos_exact n :
  in_u64 n -> duration_ns (setDurationFromNanos n) = n /\
  0 <= nanos (setDurationFromNanos n) < 1000000000.
Proof.
  unfold in_u64, duration_ns, setDurationFromNanos. intros Hn. cbn.
  pose proof (Z.div_mod n 1000000000 ltac:(lia)).
  pose proof (Z.mod_pos_bound n 1000000000 ltac:(lia)).
  rewrite i64_small; [lia|]. unfold in_i64. lia.
Qed.

(** The durations of the output: whenever a statistic is turned into
    durations, the minimum and maximum come out to the nanosecond, with
    nanoseconds below a second; and a statistic without samples always gives
    zeros, never a cast of NaN. *)
Lemma toProto_durations {S : Type} `{Represents S R} s l p :
  R s l -> Forall in_u64 l -> Z.of_nat (length l) < 2 ^ 64 ->
  (l = [] -> StatisticImpl_toProto DURATION s =
     Ok (mkProto (st_id s) 0 (Durations (mkDuration 0 0) (mkDuration 0 0) (mkDuration 0 0)
                                (mkDuration 0 0)) [])) /\
  (StatisticImpl_toProto DURATION s = Ok p ->
   exists mean pstdev mn mx, proto_values p = Durations mean pstdev mn mx /\
     duration_ns mn = (if smallest l =? UINT64_MAX then 0 else smallest l) /\
     duration_ns mx = largest l /\
     0 <= nanos mn < 1000000000 /\ 0 <= nanos mx < 1000000000 /\
     proto_count p = Z.of_nat (length l) /\ proto_id p = st_id s).
Proof.
  intros Hs Hl Hlen. pose proof (rep_count s l Hs) as Hc. pose proof (rep_min s l Hs) as Hmin.
  pose proof (rep_max s l Hs) as Hmax. rewrite u64_small in Hc by (unfold in_u64; lia). split.
  - intros ->. cbn in Hc. unfold StatisticImpl_toProto. rewrite Hc, Hmin, Hmax. reflexivity.
  - intros Hp. unfold StatisticImpl_toProto in Hp. inv_bind.
    eexists _, _, _, _. split; [reflexivity|]. cbn. rewrite Hmin, Hmax.
    assert (Hbounds : 0 <= smallest l /\ largest l < 2 ^ 64).
    { clear -Hl. unfold smallest, largest, UINT64_MAX. induction Hl as [|v l Hv _ IH]; cbn; [lia|].
      unfold in_u64 in Hv. lia. }
    pose proof (smallest_le l). pose proof (largest_nonneg l).
    destruct (setDurationFromNanos_exact (if smallest l =? UINT64_MAX then 0 else smallest l))
      as [Emn Hmn].
    { unfold in_u64. unfold UINT64_MAX in *. clear -Hbounds H1. split_ifs; lia. }
    destruct (setDurationFromNanos_exact (largest l)) as [Emx Hmx]; [unfold in_u64; lia|].
    split; [exact Emn|]. split; [exact Emx|]. split; [exact Hmn|]. split; [exact Hmx|]. done.
Qed.

Lemma toProto_durations_witness :
  exists p mn mx, StatisticImpl_toProto DURATION (record_samples (S := StreamingStatistic)
                    [1500000000; 2500000001]) = Ok p /\
    duration_ns mn = 1500000000 /\ duration_ns mx = 2500000001.
Proof.
  destruct (toProto_durations
      (S := StreamingStatistic) (R := fun s l => base_represents (streaming_base s) l)
      (record_samples [1500000000; 2500000001]) [1500000000; 2500000001]
      (mkProto "" 2 (Durations (mkDuration 2 1) (mkDuration 0 500000001)
                       (mkDuration 1 500000000) (mkDuration 2 500000001)) []))
    as [_ Hp].
  - apply (record_samples_represents (S := StreamingStatistic)
             (R := fun s l => base_represents (streaming_base s) l)).
  - repeat constructor; unfold in_u64; lia.
  - cbn. lia.
  - destruct Hp as (mean & pstdev & mn & mx & E & Hmn & Hmx & _).
    + vm_compute. reflexivity.
    + eexists _, mn, mx. split; [vm_compute; reflexivity|]. by rewrite Hmn, Hmx.
Defined.

(** ** Round trips *)

Section NativeRoundTrip.

Context (SerializeToString : StreamingProto -> string).
Context (ParseFromString : string -> option StreamingProto).

(** Protobuf: a serialised message parses to itself. *)
Hypothesis parse_serialize : forall p, ParseFromString (SerializeToString p) = Some p.

(** Native serialisation: reading back what a simple or a streaming
    statistic wrote gives the statistic, whatever was there before; and a
    stream that does not parse leaves the statistic as it was. *)
Lemma native_round_trip (a b : StreamingStatistic) (c d : SimpleStatistic) garbage :
  ParseFromString garbage = None ->
  StreamingStatistic_deserializeNative ParseFromString
    (StreamingStatistic_serializeNative SerializeToString a) b = (true, a) /\
  SimpleStatistic_deserializeNative ParseFromString
    (SimpleStatistic_serializeNative SerializeToString c) d = (true, c) /\
  StreamingStatistic_deserializeNative ParseFromString garbage b = (false, b) /\
  SimpleStatistic_deserializeNative ParseFromString garbage d = (false, d).
Proof.
  intros Hg.
  unfold StreamingStatistic_deserializeNative, StreamingStatistic_serializeNative,
    SimpleStatistic_deserializeNative, SimpleStatistic_serializeNative.
  rewrite !parse_serialize, Hg. by destruct a as [[] ? ?], c as [[] ? ?].
Qed.

End NativeRoundTrip.

(** An encoding that can be taken back: the code of a message, in binary. *)

#[export] Instance spec_float_eq_dec : EqDecision spec_float.
Proof. solve_decision. Defined.

#[export] Instance spec_float_countable : Countable spec_float.
Proof.
  refine (inj_countable
    (fun x => match x with
              | S754_zero s => (0, s, 1%positive, 0)
              | S754_infinity s => (1, s, 1%positive, 0)
              | S754_nan => (2, false, 1%positive, 0)
              | S754_finite s m e => (3, s, m, e)
              end)
    (fun '(k, s, m, e) => match k with
                          | 0 => Some (S754_zero s)
                          | 1 => Some (S754_infinity s)
                          | 2 => Some S754_nan
                          | _ => Some (S754_finite s m e)
                          end) _).
  by intros [].
Defined.

#[export] Instance StreamingProto_eq_dec : EqDecision StreamingProto.
Proof. solve_decision. Defined.

#[export] Instance StreamingProto_countable : Countable StreamingProto.
Proof.
  refine (inj_countable'
    (fun p => (sp_id p, sp_count p, sp_min p, sp_max p, sp_a p, sp_b p))
    (fun '(i, c, mn, mx, a, b) => mkStreamingProto i c mn mx a b) _).
  by intros [].
Defined.

Fixpoint binary (p : positive) : string :=
  match p with
  | xH => ""
  | xO p => String "0"%char (binary p)
  | xI p => String "1"%char (binary p)
  end.

Fixpoint of_binary (s : string) : option positive :=
  match s with
  | EmptyString => Some xH
  | String c s =>
      if decide (c = "0"%char) then xO <$> of_binary s
      else if decide (c = "1"%char) then xI <$> of_binary s else None
  end.

Lemma of_binary_binary p : of_binary (binary p) = Some p.
Proof. induction p as [p IH|p IH|]; cbn; [by rewrite IH..|done]. Qed.

Definition demo_serialize (p : StreamingProto) : string := binary (encode p).

Definition demo_parse (s : string) : option StreamingProto := p ← of_binary s; decode p.

Lemma demo_parse_serialize p : demo_parse (demo_serialize p) = Some p.
Proof. unfold demo_parse, demo_serialize. rewrite of_binary_binary. apply decode_encode. Qed.

Lemma native_round_trip_witness :
  StreamingStatistic_deserializeNative demo_parse
    (StreamingStatistic_serializeNative demo_serialize (record_samples [4; 8]))
    StreamingStatistic_new = (true, record_samples [4; 8]).
Proof.
  apply (native_round_trip demo_serialize demo_parse demo_parse_serialize
           (record_samples [4; 8]) StreamingStatistic_new SimpleStatistic_new SimpleStatistic_new
           "x"). reflexivity.
Defined.

Lemma merged_workers_represent_all_witness :
  exists merged, ProcessImpl_mergeWorkerStatistics (S := StreamingStatistic)
      [[("latency"%string, record_samples [4; 8])]; [("latency"%string, record_samples [])];
       [("latency"%string, record_samples [2])]] = Ok merged /\
    map st_id merged = ["latency"%string] /\
    Forall2 (fun m l => st_count m = u64 (Z.of_nat (length l)) /\
                        st_min m = smallest l /\ st_max m = largest l) merged [[4; 8; 2]].
Proof.
  apply (merged_workers_represent_all (S := StreamingStatistic)
           (R := fun s l => base_represents (streaming_base s) l)
           [("latency"%string, record_samples [4; 8])]
           [[("latency"%string, record_samples [])]; [("latency"%string, record_samples [2])]]
           [[[4; 8]]; [[]]; [[2]]]).
  - repeat constructor.
  - repeat constructor.
Defined.

Lemma summary_represents_witness :
  base_represents (streaming_base (StreamingStatistic_summaryOf
    (record_samples (S := SimpleStatistic) [4; 8]))) [4; 8].
Proof.
  apply (summary_represents (S := SimpleStatistic)
           (R := fun s l => base_represents (simple_base s) l) (record_samples [4; 8]) [4; 8]).
  - repeat constructor.
  - reflexivity.
Defined.
