(* ===== verification/WebSocket.v ===== *)
(** * WebSocket framing

    Models [engine/source/common/websocket.{h,cc}]: the encoding of frames and
    the incremental decoder used by both ends of an echo connection.

    A byte is a [Z] in [0, 256); a [std::string] used as bytes and an Envoy
    buffer are lists of them. The random word a mask comes from is an argument
    of the encoder. The handshake's accept key is SHA-1 and base64 of libraries
    outside the repository. *)

From S2P Require Import Prelude.

Definition is_byte (b : Z) : Prop := 0 <= b < 256.

(** ** Data *)

Inductive Opcode : Type := Continuation | Text | Binary | Close | Ping | Pong.

#[export] Instance Opcode_eq_dec : EqDecision Opcode.
Proof. solve_decision. Defined.

(** The underlying [uint8_t] of an opcode. *)
Definition opcode_value (o : Opcode) : Z :=
  match o with
  | Continuation => 0x0
  | Text => 0x1
  | Binary => 0x2
  | Close => 0x8
  | Ping => 0x9
  | Pong => 0xA
  end.

(** The cast of a known value to the enumeration; [None] for the values
    [isKnown] refuses. *)
Definition opcode_of_value (v : Z) : option Opcode :=
  match v with
  | 0x0 => Some Continuation
  | 0x1 => Some Text
  | 0x2 => Some Binary
  | 0x8 => Some Close
  | 0x9 => Some Ping
  | 0xA => Some Pong
  | _ => None
  end.

Record Frame : Type := mkFrame { fin : bool; opcode : Opcode; payload : list Z }.

Definition kMaxPayloadLength : Z := 64 * 1024 * 1024.

Definition isControl (o : Opcode) : bool := 0x8 <=? opcode_value o.

(** ** Encoding *)

Definition applyMask (payload key : list Z) : list Z :=
  imap (fun i b => Z.lxor b (nth (i mod 4) key 0)) payload.

(** The four bytes of a 32-bit word in memory (little-endian hosts). *)
Definition word_bytes (word : Z) : list Z :=
  [u8 word; u8 (Z.shiftr word 8); u8 (Z.shiftr word 16); u8 (Z.shiftr word 24)].

Definition encode_length (mask_bit length : Z) : list Z :=
  if length <? 126 then [u8 (Z.lor mask_bit length)]
  else if length <=? 0xFFFF then
    [u8 (Z.lor mask_bit 126); u8 (Z.shiftr length 8); u8 (Z.land length 0xFF)]
  else
    u8 (Z.lor mask_bit 127) ::
    map (fun shift => u8 (Z.land (Z.shiftr length shift) 0xFF)) [56; 48; 40; 32; 24; 16; 8; 0].

Definition encodeFrame (random : Z) (frame : Frame) (mask : bool) : list Z :=
  let first := u8 (Z.lor (if fin frame then 0x80 else 0x00) (opcode_value (opcode frame))) in
  let header := first :: encode_length (if mask then 0x80 else 0x00)
                           (Z.of_nat (length (payload frame))) in
  if negb mask then header ++ payload frame
  else
    let key := word_bytes (u32 random) in
    header ++ key ++ applyMask (payload frame) key.

(** [code] is a [uint16_t]. *)
Definition closeFrame (code : Z) : Frame :=
  mkFrame true Close [u8 (Z.shiftr code 8); u8 (Z.land code 0xFF)].

(** ** Decoding *)

(** What the body of the loop of [Decoder::feed] does with the buffer: returns
    [true] to wait for more, drains it and returns [false], or drains a frame
    and goes on. *)
Inductive decoded : Type :=
| NeedMore
| ProtocolError
| Decoded (f : Frame) (rest : list Z).

Definition copyOut (start size : nat) (data : list Z) : list Z := take size (drop start data).

Definition big_endian (bytes : list Z) : Z :=
  fold_left (fun acc b => Z.lor (Z.shiftl acc 8) b) bytes 0.

Definition decode_one (data : list Z) : decoded :=
  match data with
  | h0 :: h1 :: _ =>
      let fin := negb (Z.land h0 0x80 =? 0) in
      let rsv := Z.land h0 0x70 in
      let masked := negb (Z.land h1 0x80 =? 0) in
      let length7 := Z.land h1 0x7F in
      match opcode_of_value (Z.land h0 0x0F) with
      | None => ProtocolError
      | Some op =>
          if negb (rsv =? 0) then ProtocolError
          else
            let extended := if length7 =? 126 then 2%nat else if length7 =? 127 then 8%nat else 0%nat in
            let header_length := (2 + extended + if masked then 4 else 0)%nat in
            if (length data <? header_length)%nat then NeedMore
            else
              let len := if (extended =? 0)%nat then length7
                         else big_endian (copyOut 2 extended data) in
              if (length7 =? 127) && (kMaxPayloadLength <? len) then ProtocolError
              else if isControl op && (negb fin || (125 <? len)) then ProtocolError
              else if Z.of_nat (length data) <? Z.of_nat header_length + len then NeedMore
              else
                let bytes := copyOut header_length (Z.to_nat len) data in
                let key := if masked then copyOut (header_length - 4) 4 data else [0; 0; 0; 0] in
                Decoded (mkFrame fin op (if masked then applyMask bytes key else bytes))
                  (drop (header_length + Z.to_nat len) data)
      end
  | _ => NeedMore
  end.

(** The loop. Every turn that goes on drains at least the two bytes of a header,
    so the length of the buffer bounds the turns. *)
Fixpoint feed_loop (fuel : nat) (data : list Z) (frames : list Frame) :
    bool * list Z * list Frame :=
  match fuel with
  | O => (true, data, frames)
  | S fuel =>
      match decode_one data with
      | NeedMore => (true, data, frames)
      | ProtocolError => (false, [], frames)
      | Decoded f rest => feed_loop fuel rest (frames ++ [f])
      end
  end.

(** [Decoder::feed]: the result, what is left in [data], and [frames]. *)
Definition Decoder_feed (data : list Z) (frames : list Frame) : bool * list Z * list Frame :=
  feed_loop (length data) data frames.

(** ** The loop *)

Lemma decode_one_progress data f rest :
  decode_one data = Decoded f rest -> (length rest < length data)%nat.
Proof.
  unfold decode_one. destruct data as [|h0 [|h1 data]]; [done..|].
  destruct (opcode_of_value _) as [op|]; [|done]. cbv zeta.
  intros Hd. split_ifs_in Hd; try done; simplify_eq; rewrite length_drop; cbn; lia.
Qed.

Lemma feed_loop_fuel n m data frames :
  (length data <= n)%nat -> (length data <= m)%nat ->
  feed_loop n data frames = feed_loop m data frames.
Proof.
  revert m data frames. induction n as [|n IH]; intros m data frames Hn Hm.
  { destruct data; [|cbn in Hn; lia]. by destruct m. }
  destruct m as [|m]; [by destruct data; [|cbn in Hm; lia]|]. cbn.
  destruct (decode_one data) as [| |f rest] eqn:E; [done..|].
  apply decode_one_progress in E. apply IH; lia.
Qed.

(** One turn of the loop. *)
Lemma feed_turn data frames :
  Decoder_feed data frames =
  match decode_one data with
  | NeedMore => (true, data, frames)
  | ProtocolError => (false, [], frames)
  | Decoded f rest => Decoder_feed rest (frames ++ [f])
  end.
Proof.
  unfold Decoder_feed. destruct data as [|b data]; [done|]. cbn [length feed_loop].
  destruct (decode_one (b :: data)) as [| |f rest] eqn:E; [done..|].
  apply decode_one_progress in E. cbn in E. apply feed_loop_fuel; lia.
Qed.

(** ** More bytes *)

Lemma copyOut_app start size data more :
  (start + size <= length data)%nat -> copyOut start size (data ++ more) = copyOut start size data.
Proof.
  intros Hl. unfold copyOut. rewrite drop_app_le by lia.
  apply take_app_le. rewrite length_drop. lia.
Qed.

(** A verdict on what has arrived is not changed by what arrives later. *)
Lemma decode_one_app data more :
  decode_one data <> NeedMore ->
  decode_one (data ++ more) =
  match decode_one data with Decoded f rest => Decoded f (rest ++ more) | d => d end.
Proof.
  destruct data as [|h0 [|h1 data]]; [done..|].
  cbn [app]. unfold decode_one at 1 2 3.
  destruct (opcode_of_value _) as [op|]; [|done]. cbv zeta.
  destruct (negb (Z.land h0 0x70 =? 0)); [done|].
  change (h0 :: h1 :: data ++ more) with ((h0 :: h1 :: data) ++ more).
  set (d := h0 :: h1 :: data) in *. rewrite length_app.
  set (ext := if Z.land h1 0x7F =? 126 then 2%nat
              else if Z.land h1 0x7F =? 127 then 8%nat else 0%nat).
  set (hl := (2 + ext + if negb (Z.land h1 0x80 =? 0)%Z then 4 else 0)%nat).
  assert (Hext : (2 + ext <= hl)%nat /\
                 (negb (Z.land h1 0x80 =? 0) = true -> (6 <= hl)%nat)).
  { unfold hl. destruct (negb (Z.land h1 0x80 =? 0)); lia. }
  destruct Hext as [Hext Hmask]. clearbody hl ext.
  destruct (length d <? hl)%nat eqn:E1; [done|]. apply Nat.ltb_ge in E1.
  replace (length d + length more <? hl)%nat with false
    by (symmetry; apply Nat.ltb_ge; lia).
  rewrite (copyOut_app 2 ext) by lia.
  set (len := if (ext =? 0)%nat then Z.land h1 0x7F else big_endian (copyOut 2 ext d)).
  clearbody len. destruct ((Z.land h1 0x7F =? 127) && (kMaxPayloadLength <? len)); [done|].
  destruct (isControl op && _); [done|].
  destruct (Z.of_nat (length d) <? Z.of_nat hl + len) eqn:E2; [done|]. b2p.
  replace (Z.of_nat (length d + length more) <? Z.of_nat hl + len) with false
    by (symmetry; apply Z.ltb_ge; lia).
  intros _. rewrite (copyOut_app hl) by lia.
  rewrite (drop_app_le d) by lia.
  destruct (negb (Z.land h1 0x80 =? 0)) eqn:Em; [|done].
  rewrite (copyOut_app (hl - 4)) by (specialize (Hmask eq_refl); lia). done.
Qed.

Lemma feed_parts part1 part2 frames :
  Decoder_feed (part1 ++ part2) frames =
  let '(ok, rest, frames1) := Decoder_feed part1 frames in
  if ok then Decoder_feed (rest ++ part2) frames1 else (false, [], frames1).
Proof.
  remember (length part1) as n eqn:En. assert (Hn : (length part1 <= n)%nat) by lia. clear En.
  revert part1 frames Hn. induction n as [|n IH]; intros part1 frames Hn.
  { destruct part1; [done|cbn in Hn; lia]. }
  rewrite (feed_turn part1). destruct (decode_one part1) as [| |f rest] eqn:E.
  - done.
  - rewrite feed_turn, decode_one_app by congruence. by rewrite E.
  - rewrite feed_turn, decode_one_app by congruence. rewrite E.
    apply decode_one_progress in E. apply IH. lia.
Qed.

(** Frames are added behind those already there. *)
Lemma feed_acc data frames :
  Decoder_feed data frames = let '(ok, rest, new) := Decoder_feed data [] in (ok, rest, frames ++ new).
Proof.
  remember (length data) as n eqn:En. assert (Hn : (length data <= n)%nat) by lia. clear En.
  revert data frames Hn. induction n as [|n IH]; intros data frames Hn.
  { destruct data; [|cbn in Hn; lia]. cbn. by rewrite app_nil_r. }
  rewrite (feed_turn data frames), (feed_turn data []).
  destruct (decode_one data) as [| |f rest] eqn:E; rewrite ?app_nil_r; [done..|].
  apply decode_one_progress in E. rewrite (IH rest (frames ++ [f])), (IH rest ([] ++ [f])) by lia.
  destruct (Decoder_feed rest []) as [[ok r] new]. by rewrite <- app_assoc.
Qed.

(** C36. The decoder is incremental: feeding bytes in two parts gives exactly
    the frames, the leftover and the verdict of feeding them at once; after a
    protocol error in the first part the verdict stands, with the frames before
    it. *)
Theorem feed_in_parts part1 part2 frames :
  Decoder_feed (part1 ++ part2) frames =
  let '(ok, rest, frames1) := Decoder_feed part1 frames in
  if ok then Decoder_feed (rest ++ part2) frames1 else (false, [], frames1).
Proof. apply feed_parts. Qed.

(** ** Round trip *)

Lemma lor_shiftl_8 acc b : 0 <= b < 256 -> Z.lor (Z.shiftl acc 8) b = acc * 256 + b.
Proof.
  intros Hb. rewrite Z.shiftl_mul_pow2 by lia. change (2 ^ 8) with 256.
  rewrite <-Z.add_lor_land.
  replace (Z.land (acc * 256) b) with 0; [lia|]. symmetry. apply Z.bits_inj'. intros n Hn.
  rewrite Z.land_spec, Z.bits_0. destruct (decide (n < 8)).
  - change 256 with (2 ^ 8). rewrite Z.mul_pow2_bits_low by lia. done.
  - rewrite (Z.bits_above_log2 b n), andb_false_r; [done|lia|].
    destruct (decide (b = 0)) as [->|]; [cbn; lia|].
    apply Z.log2_lt_pow2; [lia|]. apply Z.lt_le_trans with (2 ^ 8); [lia|].
    apply Z.pow_le_mono_r; lia.
Qed.

(** The byte of [len] at a shift. *)
Lemma byte_at len shift :
  0 <= shift -> u8 (Z.land (Z.shiftr len shift) 0xFF) = (len / 2 ^ shift) mod 256.
Proof.
  intros Hs. change 0xFF with (Z.ones 8). rewrite Z.land_ones, Z.shiftr_div_pow2 by lia.
  unfold u8, wrap_u. change (2 ^ 8) with 256. by rewrite Zmod_mod.
Qed.

Lemma be_step len s s' :
  0 <= s -> s' = s + 8 ->
  Z.lor (Z.shiftl (len / 2 ^ s') 8) (u8 (Z.land (Z.shiftr len s) 0xFF)) = len / 2 ^ s.
Proof.
  intros Hs ->. rewrite byte_at by done.
  rewrite lor_shiftl_8 by (apply Z.mod_pos_bound; lia).
  rewrite Z.pow_add_r, <-Z.div_div by lia. change (2 ^ 8) with 256.
  pose proof (Z.div_mod (len / 2 ^ s) 256 ltac:(lia)). lia.
Qed.

Lemma big_endian_64 len :
  0 <= len < 2 ^ 64 ->
  big_endian (map (fun shift => u8 (Z.land (Z.shiftr len shift) 0xFF))
                [56; 48; 40; 32; 24; 16; 8; 0]) = len.
Proof.
  intros Hlen. unfold big_endian. cbn [map fold_left].
  replace 0 with (len / 2 ^ 64) at 1 by (apply Z.div_small; lia).
  rewrite (be_step len 56 64), (be_step len 48 56), (be_step len 40 48), (be_step len 32 40),
    (be_step len 24 32), (be_step len 16 24), (be_step len 8 16), (be_step len 0 8) by lia.
  apply Z.div_1_r.
Qed.

Lemma big_endian_16 len :
  0 <= len <= 0xFFFF -> big_endian [u8 (Z.shiftr len 8); u8 (Z.land len 0xFF)] = len.
Proof.
  intros Hlen. unfold big_endian. cbn [fold_left].
  replace (u8 (Z.shiftr len 8)) with (u8 (Z.land (Z.shiftr len 8) 0xFF)).
  - replace (Z.land len 0xFF) with (Z.land (Z.shiftr len 0) 0xFF) by (by rewrite Z.shiftr_0_r).
    replace 0 with (len / 2 ^ 16) at 1 by (apply Z.div_small; lia).
    rewrite (be_step len 8 16), (be_step len 0 8) by lia. apply Z.div_1_r.
  - rewrite byte_at by lia. unfold u8, wrap_u. by rewrite Z.shiftr_div_pow2 by lia.
Qed.

Lemma applyMask_length p key : length (applyMask p key) = length p.
Proof. apply length_imap. Qed.

Lemma applyMask_involutive p key : applyMask (applyMask p key) key = p.
Proof.
  unfold applyMask. apply list_eq. intros i. rewrite !list_lookup_imap.
  destruct (p !! i) as [b|]; cbn; [|done]. f_equal.
  by rewrite Z.lxor_assoc, Z.lxor_nilpotent, Z.lxor_0_r.
Qed.

(** The bits of the two header bytes the encoder writes. *)
Lemma first_byte_bits (fn : bool) op :
  let h := u8 (Z.lor (if fn then 0x80 else 0x00) (opcode_value op)) in
  opcode_of_value (Z.land h 0x0F) = Some op /\ Z.land h 0x70 = 0 /\
  negb (Z.land h 0x80 =? 0) = fn.
Proof. destruct fn, op; vm_compute; done. Qed.

Lemma second_byte_bits (mask : bool) len :
  0 <= len < 128 ->
  let h := u8 (Z.lor (if mask then 0x80 else 0x00) len) in
  Z.land h 0x7F = len /\ negb (Z.land h 0x80 =? 0) = mask.
Proof.
  intros Hlen.
  assert (Hall : forallb (fun len =>
    let h := u8 (Z.lor (if mask then 0x80 else 0x00) len) in
    (Z.land h 0x7F =? len) && eqb (negb (Z.land h 0x80 =? 0)) mask) (seqZ 0 128) = true)
    by (destruct mask; vm_compute; reflexivity).
  rewrite forallb_forall in Hall. specialize (Hall len). cbv zeta in *.
  apply andb_prop in Hall as [H1 H2].
  - by apply Z.eqb_eq in H1; apply eqb_prop in H2.
  - apply list_elem_of_In, elem_of_seqZ. lia.
Qed.

(** Frames an endpoint may send: not over the limit of the decoder, and control
    frames neither fragmented nor long. *)
Definition frame_ok (f : Frame) : Prop :=
  Z.of_nat (length (payload f)) <= kMaxPayloadLength /\
  (isControl (opcode f) = true -> fin f = true /\ Z.of_nat (length (payload f)) <= 125).

(** The number of bytes the extended length takes. *)
Definition extended_size (length7 : Z) : nat :=
  if length7 =? 126 then 2%nat else if length7 =? 127 then 8%nat else 0%nat.

Lemma copyOut_split (pre mid post : list Z) start :
  length pre = start -> copyOut start (length mid) (pre ++ mid ++ post) = mid.
Proof. intros <-. unfold copyOut. by rewrite drop_app_length, take_app_length. Qed.

(** The decoder on a buffer whose parts are laid out as the header announces. *)
Lemma decode_one_parts h0 h1 ext key body rest op (masked : bool) :
  opcode_of_value (Z.land h0 0x0F) = Some op -> Z.land h0 0x70 = 0 ->
  negb (Z.land h1 0x80 =? 0) = masked ->
  length ext = extended_size (Z.land h1 0x7F) ->
  length key = (if masked then 4 else 0)%nat ->
  Z.of_nat (length body) = (if (length ext =? 0)%nat then Z.land h1 0x7F else big_endian ext) ->
  frame_ok (mkFrame (negb (Z.land h0 0x80 =? 0)) op body) ->
  decode_one (h0 :: h1 :: ext ++ key ++ body ++ rest) =
    Decoded (mkFrame (negb (Z.land h0 0x80 =? 0)) op (if masked then applyMask body key else body))
      rest.
Proof.
  intros Hop Hrsv Hm Hext Hkey Hlen [Hmax Hctl]. cbn in Hmax, Hctl. unfold decode_one.
  rewrite Hop, Hrsv, Hm. cbv zeta. fold (extended_size (Z.land h1 0x7F)). rewrite <-Hext.
  cbn [negb Z.eqb].
  assert (Hl : length (h0 :: h1 :: ext ++ key ++ body ++ rest) =
    (2 + length ext + (if masked then 4 else 0) + length body + length rest)%nat).
  { cbn. rewrite !length_app, Hkey. lia. }
  rewrite Hl. replace (_ <? _)%nat with false by (symmetry; apply Nat.ltb_ge; lia).
  pose proof (copyOut_split [h0; h1] ext (key ++ body ++ rest) 2 eq_refl) as He. cbn [app] in He.
  rewrite He, <-Hlen.
  replace (kMaxPayloadLength <? Z.of_nat (length body)) with false
    by (symmetry; apply Z.ltb_ge; lia).
  rewrite andb_false_r.
  replace (isControl op && _) with false.
  2: { symmetry. destruct (isControl op); [|done]. destruct (Hctl eq_refl) as [-> Hc]. cbn. lia. }
  replace (Z.of_nat _ <? _) with false by (symmetry; apply Z.ltb_ge; lia).
  rewrite Nat2Z.id. do 2 f_equal.
  - assert (Hbody : copyOut (2 + length ext + (if masked then 4 else 0)) (length body)
                      (h0 :: h1 :: ext ++ key ++ body ++ rest) = body).
    { rewrite <-Hkey. change (h0 :: h1 :: ext ++ key ++ body ++ rest) with
        ([h0; h1] ++ ext ++ key ++ body ++ rest). rewrite !(app_assoc _ _ (body ++ rest)).
      rewrite (app_assoc [h0; h1]). apply copyOut_split. rewrite !length_app. cbn. lia. }
    rewrite Hbody. destruct masked; [|done]. f_equal.
    change (h0 :: h1 :: ext ++ key ++ body ++ rest) with
        (([h0; h1] ++ ext) ++ key ++ body ++ rest). rewrite <-Hkey.
    replace (2 + length ext + length key - length key)%nat with (2 + length ext)%nat by lia.
    by apply copyOut_split.
  - change (h0 :: h1 :: ext ++ key ++ body ++ rest) with
        ([h0; h1] ++ ext ++ key ++ body ++ rest). rewrite !app_assoc.
    rewrite drop_app_length'; [done|]. rewrite !length_app, Hkey. cbn. lia.
Qed.

(** The length the encoder writes, taken apart as the decoder does. *)
Lemma encode_length_parts (mask : bool) len :
  0 <= len < 2 ^ 64 ->
  exists h1 ext, encode_length (if mask then 0x80 else 0x00) len = h1 :: ext /\
    negb (Z.land h1 0x80 =? 0) = mask /\
    length ext = extended_size (Z.land h1 0x7F) /\
    len = (if (length ext =? 0)%nat then Z.land h1 0x7F else big_endian ext).
Proof.
  intros Hlen. unfold encode_length.
  destruct (len <? 126) eqn:E1; [|destruct (len <=? 0xFFFF) eqn:E2]; b2p;
    (eexists _, _; split; [reflexivity|]).
  - destruct (second_byte_bits mask len) as [H1 H2]; [lia|]. rewrite H1, H2.
    unfold extended_size. replace (len =? 126) with false by lia.
    replace (len =? 127) with false by lia. done.
  - destruct (second_byte_bits mask 126) as [H1 H2]; [lia|]. rewrite H1, H2.
    repeat split. cbn [length Nat.eqb]. symmetry. apply big_endian_16. lia.
  - destruct (second_byte_bits mask 127) as [H1 H2]; [lia|]. rewrite H1, H2.
    repeat split. symmetry. by apply big_endian_64.
Qed.

Lemma decode_encoded random f mask rest :
  frame_ok f -> decode_one (encodeFrame random f mask ++ rest) = Decoded f rest.
Proof.
  intros Hf. destruct f as [fn op body]. unfold encodeFrame. cbn [fin opcode payload].
  destruct (first_byte_bits fn op) as (Hop & Hrsv & Hfin).
  destruct (encode_length_parts mask (Z.of_nat (length body))) as (h1 & ext & -> & Hm & Hext & Hlen).
  { destruct Hf as [Hmax _]. cbn in Hmax. unfold kMaxPayloadLength in Hmax. lia. }
  set (h0 := u8 _) in *. rewrite <-Hfin in Hf.
  destruct mask; cbn [negb].
  - pose proof (decode_one_parts h0 h1 ext (word_bytes (u32 random))
                  (applyMask body (word_bytes (u32 random))) rest op true) as Hd.
    rewrite applyMask_length, applyMask_involutive in Hd.
    cbn [app]. rewrite <-!app_assoc. rewrite Hd; [by rewrite Hfin|done..|].
    destruct Hf as [Hmax Hctl]. split; cbn in *; by rewrite applyMask_length.
  - pose proof (decode_one_parts h0 h1 ext [] body rest op false) as Hd.
    cbn [app] in *. rewrite <-app_assoc. rewrite Hd by done. by rewrite Hfin.
Qed.

(** Round trip: what [encodeFrame] writes, masked or not and whatever the
    mask, is decoded to the frame it was given, and decoding goes on with the
    bytes behind it. *)
Lemma feed_encoded random f mask rest frames :
  frame_ok f ->
  Decoder_feed (encodeFrame random f mask ++ rest) frames = Decoder_feed rest (frames ++ [f]).
Proof. intros Hf. by rewrite feed_turn, decode_encoded. Qed.

Lemma feed_encoded_witness :
  Decoder_feed (encodeFrame 0xDEADBEEF (mkFrame true Ping [104; 105]) true ++ [0x82]) [] =
    (true, [0x82], [mkFrame true Ping [104; 105]]) /\
  frame_ok (mkFrame true Ping [104; 105]).
Proof.
  assert (Hf : frame_ok (mkFrame true Ping [104; 105])) by (split; cbn; done).
  split; [|exact Hf]. rewrite (feed_encoded 0xDEADBEEF _ true [0x82] [] Hf). reflexivity.
Defined.

(** ** What is decoded *)

Lemma lxor_byte a b : is_byte a -> is_byte b -> is_byte (Z.lxor a b).
Proof.
  unfold is_byte. intros Ha Hb. assert (Hnn : 0 <= Z.lxor a b) by (apply Z.lxor_nonneg; lia).
  split; [done|]. destruct (decide (Z.lxor a b = 0)) as [->|]; [lia|].
  change 256 with (2 ^ 8). apply Z.log2_lt_pow2; [lia|].
  pose proof (Z.log2_lxor a b ltac:(lia) ltac:(lia)).
  assert (Hlog : forall c, 0 <= c < 256 -> Z.log2 c < 8).
  { intros c Hc. destruct (decide (c = 0)) as [->|]; [cbn; lia|]. apply Z.log2_lt_pow2; lia. }
  pose proof (Hlog a Ha). pose proof (Hlog b Hb). lia.
Qed.

Lemma applyMask_bytes p key :
  Forall is_byte p -> Forall is_byte key -> Forall is_byte (applyMask p key).
Proof.
  intros Hp Hk. unfold applyMask. apply Forall_lookup. intros i b Hi.
  rewrite list_lookup_imap in Hi. destruct (p !! i) as [c|] eqn:E; [|done].
  injection Hi as <-. rewrite Forall_lookup in Hp. apply lxor_byte; [by eapply Hp|].
  match goal with |- is_byte (nth ?j key 0) =>
    destruct (nth_in_or_default j key 0) as [Hin| ->]; [|unfold is_byte; lia] end.
  apply list_elem_of_In in Hin. rewrite Forall_forall in Hk. by apply Hk.
Qed.

Lemma copyOut_bytes start size data :
  Forall is_byte data -> Forall is_byte (copyOut start size data).
Proof. intros Hd. by apply Forall_take, Forall_drop. Qed.

Lemma be_fold_bound bs acc :
  Forall is_byte bs -> 0 <= acc ->
  0 <= fold_left (fun acc b => Z.lor (Z.shiftl acc 8) b) bs acc < (acc + 1) * 256 ^ Z.of_nat (length bs).
Proof.
  intros Hbs. revert acc. induction Hbs as [|b bs Hb Hbs IH]; intros acc Hacc; cbn [fold_left length].
  { change (256 ^ Z.of_nat 0) with 1. lia. }
  rewrite lor_shiftl_8 by done. unfold is_byte in Hb.
  specialize (IH (acc * 256 + b) ltac:(lia)).
  rewrite Nat2Z.inj_succ, Z.pow_succ_r by lia.
  assert (0 < 256 ^ Z.of_nat (length bs)) by (apply Z.pow_pos_nonneg; lia). nia.
Qed.

(** The length a header announces, before the limit is checked. *)
Lemma announced_length_bound h1 ext d :
  Forall is_byte d -> ext = extended_size (Z.land h1 0x7F) -> length (copyOut 2 ext d) = ext ->
  let len := if (ext =? 0)%nat then Z.land h1 0x7F else big_endian (copyOut 2 ext d) in
  0 <= len /\ (Z.land h1 0x7F <> 127 -> len <= kMaxPayloadLength).
Proof.
  intros Hd He Hl len.
  assert (H7 : 0 <= Z.land h1 0x7F < 128).
  { change 0x7F with (Z.ones 7). rewrite Z.land_ones by lia. apply Z.mod_pos_bound. lia. }
  pose proof (be_fold_bound (copyOut 2 ext d) 0 (copyOut_bytes _ _ _ Hd) ltac:(lia)) as Hbe.
  fold (big_endian (copyOut 2 ext d)) in Hbe. rewrite Hl in Hbe.
  unfold len. clear len. unfold extended_size in He. unfold kMaxPayloadLength.
  destruct (Z.land h1 0x7F =? 126) eqn:E126; [|destruct (Z.land h1 0x7F =? 127) eqn:E127];
    b2p; subst ext; cbn [Nat.eqb].
  - change (256 ^ Z.of_nat 2) with 65536 in Hbe. lia.
  - lia.
  - lia.
Qed.

Lemma decode_one_ok data f rest :
  Forall is_byte data -> decode_one data = Decoded f rest ->
  frame_ok f /\ Forall is_byte (payload f) /\ Forall is_byte rest.
Proof.
  intros Hb. unfold decode_one. destruct data as [|h0 [|h1 data]]; [done..|].
  destruct (opcode_of_value _) as [op|]; [|done]. cbv zeta.
  set (d := h0 :: h1 :: data) in *. set (masked := negb (Z.land h1 0x80 =? 0)).
  fold (extended_size (Z.land h1 0x7F)). set (ext := extended_size _).
  set (hl := (2 + ext + if masked then 4 else 0)%nat).
  destruct (negb (Z.land h0 0x70 =? 0)); [done|].
  destruct (length d <? hl)%nat eqn:Ehl; [done|]. apply Nat.ltb_ge in Ehl.
  assert (Hcl : length (copyOut 2 ext d) = ext).
  { unfold copyOut. rewrite length_take, length_drop. unfold hl in Ehl. destruct masked; lia. }
  pose proof (announced_length_bound h1 ext d Hb eq_refl Hcl) as Hlen. cbv zeta in Hlen.
  set (len := if (ext =? 0)%nat then _ else _) in *. clearbody len hl ext.
  destruct ((Z.land h1 0x7F =? 127) && (kMaxPayloadLength <? len)) eqn:Emax; [done|].
  destruct (isControl op && _) eqn:Ectl; [done|].
  destruct (Z.of_nat (length d) <? Z.of_nat hl + len) eqn:Elen; [done|]. intros [= <- <-]. b2p.
  set (bytes := copyOut hl (Z.to_nat len) d).
  assert (Hbl : Z.of_nat (length bytes) = len).
  { unfold bytes, copyOut. rewrite length_take, length_drop. lia. }
  assert (Hbytes : Forall is_byte bytes) by by apply copyOut_bytes.
  assert (Hpl : Z.of_nat (length (if masked
            then applyMask bytes (if masked then copyOut (hl - 4) 4 d else [0; 0; 0; 0])
            else bytes)) = len) by (destruct masked; by rewrite ?applyMask_length).
  split; [|split; [|by apply Forall_drop]].
  - split; cbn [payload opcode fin]; rewrite Hpl.
    + apply andb_false_iff in Emax as [E|E]; b2p; [by apply Hlen|lia].
    + intros Hc. rewrite Hc in Ectl. cbn [andb] in Ectl. apply orb_false_elim in Ectl as [E1 E2].
      apply negb_false_iff in E1. split; [exact E1|]. b2p. lia.
  - cbn [payload]. destruct masked; [|done]. apply applyMask_bytes; [done|].
    by apply copyOut_bytes.
Qed.

(** Whatever bytes arrive, every frame handed out is one an endpoint may
    send: its payload is bytes, at most 64 MiB, and a control frame is whole and
    at most 125 bytes long. *)
Lemma feed_frames_ok data frames ok rest frames' :
  Forall is_byte data -> Decoder_feed data frames = (ok, rest, frames') ->
  exists new, frames' = frames ++ new /\
    Forall (fun f => frame_ok f /\ Forall is_byte (payload f)) new.
Proof.
  remember (length data) as n eqn:En. assert (Hn : (length data <= n)%nat) by lia. clear En.
  revert data frames Hn. induction n as [|n IH]; intros data frames Hn Hb Hfeed.
  all: rewrite feed_turn in Hfeed; destruct (decode_one data) as [| |f r] eqn:E.
  1, 2, 4, 5: simplify_eq; exists []; split; [by rewrite app_nil_r|constructor].
  all: pose proof (decode_one_progress _ _ _ E) as Hp.
  { lia. }
  apply decode_one_ok in E as (Hf & Hpl & Hr); [|done].
  destruct (IH r (frames ++ [f])) as (new & -> & Hnew); [lia|done|done|].
  exists (f :: new). rewrite <-app_assoc. by split; [|constructor].
Qed.

Lemma feed_frames_ok_witness :
  exists new, [mkFrame true Text [104; 105]] = [] ++ new /\
    Forall (fun f => frame_ok f /\ Forall is_byte (payload f)) new.
Proof.
  apply (feed_frames_ok [0x81; 2; 104; 105; 0x89; 126; 0; 200] [] false []).
  - repeat constructor; unfold is_byte; lia.
  - vm_compute. reflexivity.
Defined.

(** Protocol errors are refused as soon as the header is there: an opcode
    that is not defined, a reserved bit, an unmasked control frame with a short
    length that is a fragment, and a payload announced with an eight-byte length
    of more than 64 MiB. The buffer is emptied, and no frame is handed out. *)
Lemma feed_refuses h0 h1 data frames :
  opcode_of_value (Z.land h0 0x0F) = None \/ Z.land h0 0x70 <> 0 \/
  (negb (Z.land h1 0x80 =? 0) = false /\
   (exists op, opcode_of_value (Z.land h0 0x0F) = Some op /\ isControl op = true /\
      Z.land h0 0x80 = 0 /\ 0 <= Z.land h1 0x7F < 126)) \/
  (exists l, Z.land h1 0x7F = 127 /\ (14 <= length (h0 :: h1 :: data))%nat /\
     l = big_endian (take 8 data) /\ kMaxPayloadLength < l) ->
  Decoder_feed (h0 :: h1 :: data) frames = (false, [], frames).
Proof.
  intros Hcases. rewrite feed_turn.
  replace (decode_one (h0 :: h1 :: data)) with ProtocolError; [done|]. symmetry.
  unfold decode_one. destruct (opcode_of_value _) as [op|] eqn:Eop; [|done]. cbv zeta.
  destruct (Z.land h0 0x70 =? 0) eqn:Er; [|done]. cbn [negb]. b2p.
  destruct Hcases as [?|[?|[(Hm & op' & Ho & Hc & Hf & Hl)|(l & Hl & Hlen & -> & Hbig)]]]; [done..| |].
  - injection Ho as <-. rewrite Hm. replace (Z.land h1 0x7F =? 126) with false by lia.
    replace (Z.land h1 0x7F =? 127) with false by lia. cbn [Nat.add length Nat.ltb Nat.leb Nat.eqb].
    rewrite Hf, Hc. done.
  - rewrite Hl. cbn [Z.eqb Pos.eqb Nat.eqb andb].
    replace (length _ <? _)%nat with false
      by (symmetry; apply Nat.ltb_ge; destruct (negb (Z.land h1 0x80 =? 0)); lia).
    change (copyOut 2 8 (h0 :: h1 :: data)) with (take 8 data).
    apply Z.ltb_lt in Hbig. by rewrite Hbig.
Qed.

Lemma feed_refuses_witness :
  Decoder_feed [0x82; 127; 0; 0; 0; 0; 4; 0; 0; 1; 0; 0; 0; 0] [] = (false, [], []).
Proof.
  apply (feed_refuses 0x82 127 [0; 0; 0; 0; 4; 0; 0; 1; 0; 0; 0; 0]). right. right. right.
  eexists. split; [reflexivity|]. split; [cbn; lia|]. split; [reflexivity|]. vm_compute. reflexivity.
Defined.
