(* ===== verification/StreamDecoder.v ===== *)
(** * The response decoder of a request

    Models [engine/source/client/stream_decoder.{h,cc}]: the object that
    follows one request from the connection pool to the end of its response,
    records what it measures, and reports the outcome once.

    The client it reports to is behind [StreamDecoderCompletionCallback], as in
    the source. What Envoy's header maps answer is part of the data of an event.
    Tracing is left out: spans are created, finalised and exported by Envoy. *)

From S2P Require Import Prelude Text.

(** ** Data of Envoy *)

(** [Envoy::Http::StreamResetReason]. *)
Inductive StreamResetReason : Type :=
| LocalReset | LocalRefusedStreamReset | RemoteReset | RemoteRefusedStreamReset
| LocalConnectionFailure | RemoteConnectionFailure | ConnectionTimeout | ConnectionTermination
| Overflow | ConnectError | ProtocolError | OverloadManager | Http1PrematureUpstreamHalfClose
| RemoteResetNoError.

#[export] Instance StreamResetReason_eq_dec : EqDecision StreamResetReason.
Proof. solve_decision. Defined.

(** The response flags the decoder sets. *)
Inductive CoreResponseFlag : Type :=
| FlagUpstreamConnectionFailure | FlagUpstreamConnectionTermination | FlagLocalReset
| FlagUpstreamOverflow | FlagUpstreamRemoteReset | FlagUpstreamProtocolError
| FlagOverloadManager.

(** [Envoy::Http::ConnectionPool::PoolFailureReason]. *)
Inductive PoolFailureReason : Type :=
| PoolOverflow | PoolLocalConnectionFailure | PoolRemoteConnectionFailure | PoolTimeout.

Inductive StreamResetPhase : Type := BeforeHeaders | IncompleteBody.

#[export] Instance StreamResetPhase_eq_dec : EqDecision StreamResetPhase.
Proof. solve_decision. Defined.

(** Response headers, by what the sources ask of them: [byteSize()],
    [getResponseStatus()], [getGrpcStatus()] and the values of a header. *)
Record ResponseHeaders : Type := mkHeaders {
  byteSize : Z;
  getResponseStatus : Z;
  getGrpcStatus : option Z;
  header_values : string -> list string;
}.

(** ** Names *)

Definition streamResetReasonToResponseFlag (reason : StreamResetReason) : CoreResponseFlag :=
  match reason with
  | LocalConnectionFailure | RemoteConnectionFailure | ConnectionTimeout =>
      FlagUpstreamConnectionFailure
  | ConnectionTermination => FlagUpstreamConnectionTermination
  | LocalReset | LocalRefusedStreamReset | Http1PrematureUpstreamHalfClose => FlagLocalReset
  | Overflow => FlagUpstreamOverflow
  | ConnectError | RemoteReset | RemoteRefusedStreamReset | RemoteResetNoError =>
      FlagUpstreamRemoteReset
  | ProtocolError => FlagUpstreamProtocolError
  | OverloadManager => FlagOverloadManager
  end.

Definition streamResetReasonToString (reason : StreamResetReason) : string :=
  match reason with
  | LocalReset => "local_reset"
  | LocalRefusedStreamReset => "local_refused_stream_reset"
  | RemoteReset => "remote_reset"
  | RemoteRefusedStreamReset => "remote_refused_stream_reset"
  | LocalConnectionFailure => "local_connection_failure"
  | RemoteConnectionFailure => "remote_connection_failure"
  | ConnectionTimeout => "connection_timeout"
  | ConnectionTermination => "connection_termination"
  | Overflow => "overflow"
  | ConnectError => "connect_error"
  | ProtocolError => "protocol_error"
  | OverloadManager => "overload_manager"
  | Http1PrematureUpstreamHalfClose => "http1_premature_upstream_half_close"
  | RemoteResetNoError => "remote_reset_no_error"
  end.

(** ** The client's side *)

(** The statistics of the client the decoder adds to. *)
Inductive decoder_statistic : Type :=
| connect_statistic_ | latency_statistic_ | response_header_sizes_statistic_
| response_body_sizes_statistic_ | origin_latency_statistic_.

(** [StreamDecoderCompletionCallback], and the references to statistics handed to
    the decoder. [None] stands for the empty header map. *)
Class StreamDecoderCompletionCallback (C : Type) : Type := {
  cb_onComplete : bool -> option ResponseHeaders -> option Z -> C -> outcome C;
  cb_onStreamReset : StreamResetPhase -> StreamResetReason -> C -> C;
  cb_onPoolFailure : PoolFailureReason -> C -> C;
  cb_exportLatency : Z -> Z -> option Z -> C -> C;
  cb_handleResponseData : string -> C -> C;
  cb_addValue : decoder_statistic -> Z -> C -> C;
}.

(** ** The decoder *)

(** What the encoder was given: the end of the headers and of the data. *)
Inductive encoded : Type :=
| EncodedHeaders (end_stream : bool)
| EncodedData (size : Z) (end_stream : bool).

(** Among the fields, what the decoder did to the outside: the calls of the
    caller's completion callback and the number of deletions scheduled. *)
Record StreamDecoder : Type := mkDecoder {
  request_body_ : string;
  request_body_size_ : Z;
  latency_response_header_name_ : string;
  measure_latencies_ : bool;
  connect_start_ : Z;
  request_start_ : Z;
  complete_ : bool;
  response_headers_ : option ResponseHeaders;
  grpc_status_ : option Z;
  response_code : option Z;
  bytes_sent : Z;
  bytes_received : Z;
  response_flag : option CoreResponseFlag;
  encoded_ : list encoded;
  completion_calls : list (bool * bool);
  deferred_deletes : nat;
}.

Definition StreamDecoder_new (now : Z) (request_body : string) (request_body_size : Z)
    (measure_latencies : bool) (latency_response_header_name : string) : StreamDecoder :=
  mkDecoder request_body (u32 request_body_size) latency_response_header_name measure_latencies
    now 0 false None None None 0 0 None [] [] 0.

Section Decoder.

Context {C : Type} {A : AbslStrings} {CB : StreamDecoderCompletionCallback C}.

(** The end of a decoder: the caller is told, deletion is scheduled. *)
Definition decoder_done (complete success : bool) (d : StreamDecoder) : StreamDecoder :=
  mkDecoder (request_body_ d) (request_body_size_ d) (latency_response_header_name_ d)
    (measure_latencies_ d) (connect_start_ d) (request_start_ d) (complete_ d)
    (response_headers_ d) (grpc_status_ d) (response_code d) (bytes_sent d) (bytes_received d)
    (response_flag d) (encoded_ d) (completion_calls d ++ [(complete, success)])
    (S (deferred_deletes d)).

Definition set_response_flag (f : CoreResponseFlag) (d : StreamDecoder) : StreamDecoder :=
  mkDecoder (request_body_ d) (request_body_size_ d) (latency_response_header_name_ d)
    (measure_latencies_ d) (connect_start_ d) (request_start_ d) (complete_ d)
    (response_headers_ d) (grpc_status_ d) (response_code d) (bytes_sent d) (bytes_received d)
    (Some f) (encoded_ d) (completion_calls d) (deferred_deletes d).

(** The elapsed time is passed as a [uint64_t]. *)
Definition StreamDecoder_onComplete (now : Z) (success : bool) (d : StreamDecoder) (c : C) :
    outcome (StreamDecoder * C) :=
  let latency := u64 (now - request_start_ d) in
  let c :=
    if success && measure_latencies_ d then
      let c := cb_addValue latency_statistic_ latency c in
      match response_code d with
      | Some code => cb_exportLatency code latency (grpc_status_ d) c
      | None => c
      end
    else c in
  let c := cb_addValue response_body_sizes_statistic_ (bytes_sent d) c in
  let* c := cb_onComplete success (response_headers_ d) (grpc_status_ d) c in
  Ok (decoder_done (complete_ d) success d, c).

(** The value of the header that carries the latency at the origin. *)
Definition origin_delta (d : StreamDecoder) (headers : ResponseHeaders) : option Z :=
  if String.eqb (latency_response_header_name_ d) "" then None
  else
    match header_values headers (AsciiStrToLower (latency_response_header_name_ d)) with
    | [] => None
    | [value] => match atoi_i64 value with
                 | Some delta => if 0 <=? delta then Some delta else None
                 | None => None
                 end
    | _ => match atoi_i64 "multiple values" with
           | Some delta => if 0 <=? delta then Some delta else None
           | None => None
           end
    end.

Definition StreamDecoder_decodeHeaders (now : Z) (headers : ResponseHeaders) (end_stream : bool)
    (d : StreamDecoder) (c : C) : outcome (StreamDecoder * C) :=
  let c := cb_addValue response_header_sizes_statistic_ (byteSize headers) c in
  let d' := mkDecoder (request_body_ d) (request_body_size_ d) (latency_response_header_name_ d)
    (measure_latencies_ d) (connect_start_ d) (request_start_ d) end_stream
    (Some headers) (getGrpcStatus headers) (Some (u32 (getResponseStatus headers))) (bytes_sent d)
    (bytes_received d) (response_flag d) (encoded_ d) (completion_calls d)
    (deferred_deletes d) in
  let c := match origin_delta d headers with
           | Some delta => cb_addValue origin_latency_statistic_ delta c
           | None => c
           end in
  if end_stream then StreamDecoder_onComplete now true d' c else Ok (d', c).

Definition StreamDecoder_decodeData (now : Z) (data : string) (end_stream : bool)
    (d : StreamDecoder) (c : C) : outcome (StreamDecoder * C) :=
  let d := mkDecoder (request_body_ d) (request_body_size_ d) (latency_response_header_name_ d)
    (measure_latencies_ d) (connect_start_ d) (request_start_ d) end_stream
    (response_headers_ d) (grpc_status_ d) (response_code d)
    (u64 (bytes_sent d + Z.of_nat (String.length data)))
    (bytes_received d) (response_flag d) (encoded_ d) (completion_calls d)
    (deferred_deletes d) in
  let* p := if end_stream then StreamDecoder_onComplete now true d c else Ok (d, c) in
  Ok (fst p, cb_handleResponseData data (snd p)).

(** [trailer_status] is what [getGrpcStatus] answers for the trailers. *)
Definition StreamDecoder_decodeTrailers (now : Z) (trailer_status : option Z) (d : StreamDecoder)
    (c : C) : outcome (StreamDecoder * C) :=
  let status := match trailer_status with Some s => Some s | None => grpc_status_ d end in
  let d := mkDecoder (request_body_ d) (request_body_size_ d) (latency_response_header_name_ d)
    (measure_latencies_ d) (connect_start_ d) (request_start_ d) true
    (response_headers_ d) status (response_code d) (bytes_sent d)
    (bytes_received d) (response_flag d) (encoded_ d) (completion_calls d)
    (deferred_deletes d) in
  StreamDecoder_onComplete now true d c.

Definition StreamDecoder_onResetStream (now : Z) (reason : StreamResetReason) (d : StreamDecoder)
    (c : C) : outcome (StreamDecoder * C) :=
  let phase := match response_headers_ d with None => BeforeHeaders | Some _ => IncompleteBody end in
  let c := cb_onStreamReset phase reason c in
  StreamDecoder_onComplete now false
    (set_response_flag (streamResetReasonToResponseFlag reason) d) c.

Definition StreamDecoder_onPoolFailure (reason : PoolFailureReason) (d : StreamDecoder) (c : C) :
    StreamDecoder * C :=
  let c := cb_onPoolFailure reason c in
  (decoder_done false false (set_response_flag FlagUpstreamConnectionFailure d), c).

(** The size of the static content uploads are taken from. *)
Definition staticUploadContent_size : Z := 4194304.

(** Without a body, [request_body_size_] bytes of the static content are sent:
    reading beyond it is undefined. *)
Definition StreamDecoder_onPoolReady (now : Z) (d : StreamDecoder) (c : C) :
    outcome (StreamDecoder * C) :=
  let no_body := String.eqb (request_body_ d) "" in
  let end_stream := (request_body_size_ d =? 0) && no_body in
  let body_size := Z.of_nat (String.length (request_body_ d)) in
  let* sent :=
    if (0 <? request_body_size_ d) || negb no_body then
      if no_body then
        if staticUploadContent_size <? request_body_size_ d then Undefined
        else Ok (Some (request_body_size_ d))
      else Ok (Some body_size)
    else Ok None in
  let encoded := EncodedHeaders end_stream ::
                 match sent with Some n => [EncodedData n true] | None => [] end in
  let d := mkDecoder (request_body_ d) (request_body_size_ d) (latency_response_header_name_ d)
    (measure_latencies_ d) (connect_start_ d) now (complete_ d)
    (response_headers_ d) (grpc_status_ d) (response_code d) (bytes_sent d)
    (u64 (bytes_received d + default 0 sent))
    (response_flag d) (encoded_ d ++ encoded) (completion_calls d) (deferred_deletes d) in
  let c := if measure_latencies_ d
           then cb_addValue connect_statistic_ (u64 (now - connect_start_ d)) c else c in
  Ok (d, c).

(** ** Events *)

(** What the connection pool and the codec tell the decoder, each with the time. *)
Inductive decoder_event : Type :=
| PoolReady
| PoolFailure (reason : PoolFailureReason)
| Headers (headers : ResponseHeaders) (end_stream : bool)
| Data (data : string) (end_stream : bool)
| Trailers (trailer_status : option Z)
| Reset (reason : StreamResetReason).

Definition decoder_step (now : Z) (e : decoder_event) (d : StreamDecoder) (c : C) :
    outcome (StreamDecoder * C) :=
  match e with
  | PoolReady => StreamDecoder_onPoolReady now d c
  | PoolFailure reason => Ok (StreamDecoder_onPoolFailure reason d c)
  | Headers headers end_stream => StreamDecoder_decodeHeaders now headers end_stream d c
  | Data data end_stream => StreamDecoder_decodeData now data end_stream d c
  | Trailers status => StreamDecoder_decodeTrailers now status d c
  | Reset reason => StreamDecoder_onResetStream now reason d c
  end.

Fixpoint decoder_run (es : list (Z * decoder_event)) (d : StreamDecoder) (c : C) :
    outcome (StreamDecoder * C) :=
  match es with
  | [] => Ok (d, c)
  | (now, e) :: es => let* p := decoder_step now e d c in decoder_run es (fst p) (snd p)
  end.

End Decoder.

(** ** The order of events *)

(** Where a stream is: in the pool, waiting for response headers, in the
    response, or over. *)
Inductive stream_phase : Type := InPool | AwaitingHeaders | InResponse | Over.

(** What Envoy's pools and codecs guarantee: a stream either fails in the pool or
    becomes ready; then come the headers, data and at most one trailers, until
    one of them ends the stream; a reset may come while the stream is open. *)
Definition next_phase (p : stream_phase) (e : decoder_event) : option stream_phase :=
  match p, e with
  | InPool, PoolReady => Some AwaitingHeaders
  | InPool, PoolFailure _ => Some Over
  | AwaitingHeaders, Headers _ end_stream => Some (if end_stream then Over else InResponse)
  | InResponse, Data _ end_stream => Some (if end_stream then Over else InResponse)
  | InResponse, Trailers _ => Some Over
  | AwaitingHeaders, Reset _ | InResponse, Reset _ => Some Over
  | _, _ => None
  end.

Fixpoint phase_after (p : stream_phase) (es : list decoder_event) : option stream_phase :=
  match es with
  | [] => Some p
  | e :: es => match next_phase p e with Some q => phase_after q es | None => None end
  end.

(** ** Exactly one outcome *)

(** How a stream ended, from its last event: whether the response was complete,
    and whether that is a success. *)
Definition outcome_of (e : decoder_event) : bool * bool :=
  match e with
  | Reset _ | PoolFailure _ => (false, false)
  | _ => (true, true)
  end.

(** The decoder in a phase: only when the stream is over was the caller told. *)
Definition decoder_in (p : stream_phase) (d : StreamDecoder) : Prop :=
  match p with
  | Over => exists b, completion_calls d = [(b, b)] /\ deferred_deletes d = 1%nat
  | _ => completion_calls d = [] /\ deferred_deletes d = 0%nat /\ complete_ d = false /\
         (response_headers_ d = None <-> p <> InResponse)
  end.

Section OneOutcome.

Context {C : Type} {A : AbslStrings} {CB : StreamDecoderCompletionCallback C}.

Lemma onComplete_calls now success d (c : C) d' c' :
  StreamDecoder_onComplete now success d c = Ok (d', c') ->
  completion_calls d' = completion_calls d ++ [(complete_ d, success)] /\
  deferred_deletes d' = S (deferred_deletes d).
Proof. unfold StreamDecoder_onComplete. intros Hc. inv_bind. simplify_eq. done. Qed.

(** One event in its order: either the stream stays open and the caller is not
    told, or it is over and the caller is told how. *)
Lemma decoder_step_in p q now e d (c : C) d' c' :
  decoder_in p d -> next_phase p e = Some q -> decoder_step now e d c = Ok (d', c') ->
  decoder_in q d' /\ (q = Over -> completion_calls d' = [outcome_of e]).
Proof.
  intros Hd Hq Hs. destruct p, e; try done; cbn in Hq; injection Hq as <-; cbn in Hs;
    destruct Hd as (Hcalls & Hdel & Hcomp & Hhead).
  - unfold StreamDecoder_onPoolReady in Hs. inv_bind. simplify_eq. cbn.
    split; [|done]. destruct Hhead as [_ Hh]. split_and!; [done..|]. by split; [|intros _; apply Hh].
  - simplify_eq. cbn. rewrite Hcalls, Hdel. eauto.
  - unfold StreamDecoder_decodeHeaders in Hs. destruct end_stream.
    + apply onComplete_calls in Hs as [Hc1 Hc2]. cbn in Hc1, Hc2. rewrite Hcalls, Hdel in *. cbn. eauto.
    + simplify_eq. cbn. split; [|done]. repeat split; done.
  - unfold StreamDecoder_onResetStream in Hs. apply onComplete_calls in Hs as [Hc1 Hc2].
    cbn in Hc1, Hc2. rewrite Hcalls, Hdel, Hcomp in *. cbn. eauto.
  - unfold StreamDecoder_decodeData in Hs. inv_bind. destruct a as [d1 c1]. simplify_eq. cbn [fst].
    destruct end_stream.
    + apply onComplete_calls in Hok as [Hc1 Hc2]. cbn in Hc1, Hc2. rewrite Hcalls, Hdel in *.
      cbn. eauto.
    + simplify_eq. cbn. split; [|done]. destruct Hhead as [Hh _]. split_and!; [done..|]. by split; [|done].
  - unfold StreamDecoder_decodeTrailers in Hs. apply onComplete_calls in Hs as [Hc1 Hc2].
    cbn in Hc1, Hc2. rewrite Hcalls, Hdel in *. cbn. eauto.
  - unfold StreamDecoder_onResetStream in Hs. apply onComplete_calls in Hs as [Hc1 Hc2].
    cbn in Hc1, Hc2. rewrite Hcalls, Hdel, Hcomp in *. cbn. eauto.
Qed.

Lemma decoder_run_in es : forall p q d (c : C) d' c',
  decoder_in p d -> phase_after p (map snd es) = Some q ->
  decoder_run es d c = Ok (d', c') ->
  decoder_in q d' /\
  (p <> Over -> q = Over -> exists e, last (map snd es) = Some e /\
     completion_calls d' = [outcome_of e]).
Proof.
  induction es as [|[now e] es IH]; intros p q d c d' c' Hd Hph Hrun.
  { cbn in *. simplify_eq. split; [done|]. congruence. }
  cbn [map snd phase_after] in Hph. cbn [decoder_run] in Hrun.
  destruct (next_phase p e) as [p1|] eqn:En; [|done].
  apply obind_Ok in Hrun as ([d1 c1] & Hs & Hrun). cbn in Hrun.
  destruct (decoder_step_in p p1 now e d c d1 c1 Hd En Hs) as [Hd1 Hover].
  destruct (IH p1 q d1 c1 d' c' Hd1 Hph Hrun) as [Hq Hlast]. split; [done|]. intros Hp Hqo.
  destruct es as [|e2 es].
  - cbn in Hrun, Hph. simplify_eq. exists e. split; [done|]. by apply Hover.
  - assert (Hne : p1 <> Over) by (intros ->; cbn in Hph; by destruct (e2.2)).
    destruct (Hlast Hne Hqo) as (e' & El & Ec). exists e'. split; [|done]. cbn in El |- *. done.
Qed.

(** C35. Every request has exactly one outcome: whatever client listens, when the
    events of a stream come in the order pools and codecs keep, the caller is
    told nothing while the stream is open; once it is over, the caller has been
    told exactly once, and the decoder scheduled for deletion exactly once: as
    complete and successful when the response ended, as incomplete and failed
    when it was reset or failed in the pool. *)
Theorem decoder_exactly_one_outcome es now0 body size measure name (c : C) q d' c' :
  phase_after InPool (map snd es) = Some q ->
  decoder_run es (StreamDecoder_new now0 body size measure name) c = Ok (d', c') ->
  match q with
  | Over => exists e, last (map snd es) = Some e /\
              completion_calls d' = [outcome_of e] /\ deferred_deletes d' = 1%nat
  | _ => completion_calls d' = [] /\ deferred_deletes d' = 0%nat
  end.
Proof.
  intros Hph Hrun.
  destruct (fun Hin => decoder_run_in es InPool q _ c d' c' Hin Hph Hrun) as [Hq Hlast].
  { cbn. repeat split; done. }
  destruct q; cbn in Hq; try (destruct Hq as (? & ? & _); done).
  destruct Hlast as (e & El & Ec); [done..|]. exists e. destruct Hq as (b & _ & Hdel). done.
Qed.

(** Uploads: a request gets ready to the end of its body, headers ending the
    stream exactly when there is none; but a request without a body whose size
    comes from a content-length above the 4 MiB of static content reads beyond
    that content. *)
Lemma onPoolReady_upload now now0 body size measure name (c : C) :
  let d := StreamDecoder_new now0 body size measure name in
  match StreamDecoder_onPoolReady now d c with
  | Ok (d', _) =>
      (body <> ""%string \/ u32 size <= staticUploadContent_size) /\
      encoded_ d' =
        (if String.eqb body "" && (u32 size =? 0) then [EncodedHeaders true]
         else [EncodedHeaders false;
               EncodedData (if String.eqb body "" then u32 size
                            else Z.of_nat (String.length body)) true])
  | Undefined => body = ""%string /\ staticUploadContent_size < u32 size
  | _ => False
  end.
Proof.
  unfold StreamDecoder_onPoolReady. cbn [request_body_ request_body_size_ StreamDecoder_new].
  assert (Hu : 0 <= u32 size) by (unfold u32, wrap_u; apply Z.mod_pos_bound; lia).
  destruct (String.eqb body "") eqn:Eb.
  - apply String.eqb_eq in Eb as ->. rewrite orb_false_r, andb_true_r.
    destruct (0 <? u32 size) eqn:E0; b2p.
    + destruct (staticUploadContent_size <? u32 size) eqn:E1; b2p; cbn; [done|].
      split; [right; lia|]. by replace (u32 size =? 0) with false by lia.
    + replace (u32 size) with 0 by lia. cbn. split; [right; unfold staticUploadContent_size; lia|done].
  - apply String.eqb_neq in Eb. rewrite orb_true_r. cbn. rewrite andb_false_r. split; [by left|done].
Qed.

End OneOutcome.

(** Resets of different reasons are counted under different names. *)
Lemma streamResetReasonToString_injective r1 r2 :
  streamResetReasonToString r1 = streamResetReasonToString r2 -> r1 = r2.
Proof. destruct r1, r2; (reflexivity || discriminate). Qed.
