(* ===== verification/BenchmarkClient.v ===== *)
(** * The HTTP benchmark client

    Models [BenchmarkClientHttpImpl] of
    [engine/source/client/benchmark_client_impl.{h,cc}]: what a worker starts
    requests with, how it accounts for them, and how it waits for what is still
    outstanding at the end.

    Envoy's connection pool, counters and dispatcher are outside the
    repository. Whether there is a pool and what the request generator yields
    are arguments; a counter is a number; requests to exit the dispatcher are
    counted. User-defined output plugins are a parameter. *)

From S2P Require Import Prelude Text StreamDecoder.

(** ** Data *)

Inductive Protocol : Type := Http10 | Http11 | Http2 | Http3.

#[export] Instance Protocol_eq_dec : EqDecision Protocol.
Proof. solve_decision. Defined.

(** [ALL_BENCHMARK_CLIENT_COUNTERS], and the counters created on demand: by
    grpc-status ([None]: missing) and by the name of a reset reason. *)
Record BenchmarkClientCounters : Type := mkCounters {
  stream_resets_ : Z;
  stream_resets_before_headers_ : Z;
  stream_resets_incomplete_body_ : Z;
  http_1xx_ : Z;
  http_2xx_ : Z;
  http_3xx_ : Z;
  http_4xx_ : Z;
  http_5xx_ : Z;
  http_xxx_ : Z;
  http_inflight_lost_ : Z;
  pool_overflow_ : Z;
  grpc_error_ : Z;
  pool_connection_failure_ : Z;
  pool_failure_local_connection_failure_ : Z;
  pool_failure_remote_connection_failure_ : Z;
  pool_failure_timeout_ : Z;
  user_defined_plugin_handle_headers_failure_ : Z;
  user_defined_plugin_handle_data_failure_ : Z;
  grpc_status_counters_ : gmap (option Z) Z;
  stream_reset_reason_counters_ : gmap string Z;
}.

Definition counters_init : BenchmarkClientCounters :=
  mkCounters 0 0 0 0 0 0 0 0 0 0 0 0 0 0 0 0 0 0 ∅ ∅.

(** The counters one operation increments by itself. *)
Inductive counter_name : Type :=
| stream_resets | stream_resets_before_headers | stream_resets_incomplete_body
| http_1xx | http_2xx | http_3xx | http_4xx | http_5xx | http_xxx
| pool_overflow | grpc_error | pool_connection_failure | pool_failure_local_connection_failure
| pool_failure_remote_connection_failure | pool_failure_timeout
| user_defined_plugin_handle_headers_failure | user_defined_plugin_handle_data_failure.

Scheme Boolean Equality for counter_name.

Definition inc (n : counter_name) (k : BenchmarkClientCounters) : BenchmarkClientCounters :=
  let one m := if counter_name_beq n m then 1 else 0 in
  mkCounters
    (stream_resets_ k + one stream_resets)
    (stream_resets_before_headers_ k + one stream_resets_before_headers)
    (stream_resets_incomplete_body_ k + one stream_resets_incomplete_body)
    (http_1xx_ k + one http_1xx) (http_2xx_ k + one http_2xx) (http_3xx_ k + one http_3xx)
    (http_4xx_ k + one http_4xx) (http_5xx_ k + one http_5xx) (http_xxx_ k + one http_xxx)
    (http_inflight_lost_ k)
    (pool_overflow_ k + one pool_overflow) (grpc_error_ k + one grpc_error)
    (pool_connection_failure_ k + one pool_connection_failure)
    (pool_failure_local_connection_failure_ k + one pool_failure_local_connection_failure)
    (pool_failure_remote_connection_failure_ k + one pool_failure_remote_connection_failure)
    (pool_failure_timeout_ k + one pool_failure_timeout)
    (user_defined_plugin_handle_headers_failure_ k + one user_defined_plugin_handle_headers_failure)
    (user_defined_plugin_handle_data_failure_ k + one user_defined_plugin_handle_data_failure)
    (grpc_status_counters_ k) (stream_reset_reason_counters_ k).

Definition add_inflight_lost (n : Z) (k : BenchmarkClientCounters) : BenchmarkClientCounters :=
  mkCounters (stream_resets_ k) (stream_resets_before_headers_ k)
    (stream_resets_incomplete_body_ k) (http_1xx_ k) (http_2xx_ k) (http_3xx_ k) (http_4xx_ k)
    (http_5xx_ k) (http_xxx_ k) (http_inflight_lost_ k + n) (pool_overflow_ k) (grpc_error_ k)
    (pool_connection_failure_ k) (pool_failure_local_connection_failure_ k)
    (pool_failure_remote_connection_failure_ k) (pool_failure_timeout_ k)
    (user_defined_plugin_handle_headers_failure_ k) (user_defined_plugin_handle_data_failure_ k)
    (grpc_status_counters_ k) (stream_reset_reason_counters_ k).

Definition set_maps (g : gmap (option Z) Z) (r : gmap string Z) (k : BenchmarkClientCounters) :
    BenchmarkClientCounters :=
  mkCounters (stream_resets_ k) (stream_resets_before_headers_ k)
    (stream_resets_incomplete_body_ k) (http_1xx_ k) (http_2xx_ k) (http_3xx_ k) (http_4xx_ k)
    (http_5xx_ k) (http_xxx_ k) (http_inflight_lost_ k) (pool_overflow_ k) (grpc_error_ k)
    (pool_connection_failure_ k) (pool_failure_local_connection_failure_ k)
    (pool_failure_remote_connection_failure_ k) (pool_failure_timeout_ k)
    (user_defined_plugin_handle_headers_failure_ k) (user_defined_plugin_handle_data_failure_ k)
    g r.

(** A counter found, or created, and incremented. *)
Definition grpcStatusCounter_inc (grpc_status : option Z) (k : BenchmarkClientCounters) :
    BenchmarkClientCounters :=
  set_maps (<[grpc_status := default 0 (grpc_status_counters_ k !! grpc_status) + 1]>
              (grpc_status_counters_ k)) (stream_reset_reason_counters_ k) k.

Definition streamResetReasonCounter_inc (reason : StreamResetReason) (k : BenchmarkClientCounters) :
    BenchmarkClientCounters :=
  let name := ("stream_resets_" +:+ streamResetReasonToString reason)%string in
  set_maps (grpc_status_counters_ k)
    (<[name := default 0 (stream_reset_reason_counters_ k !! name) + 1]>
       (stream_reset_reason_counters_ k)) k.

(** [BenchmarkClientStatistic]: the samples added to each, oldest first. *)
Record BenchmarkClientStatistic : Type := mkStatistics {
  connect_statistic : list Z;
  response_statistic : list Z;
  response_header_size_statistic : list Z;
  response_body_size_statistic : list Z;
  latency_1xx_statistic : list Z;
  latency_2xx_statistic : list Z;
  latency_3xx_statistic : list Z;
  latency_4xx_statistic : list Z;
  latency_5xx_statistic : list Z;
  latency_xxx_statistic : list Z;
  origin_latency_statistic : list Z;
  latency_grpc_ok_statistic : list Z;
}.

Definition statistics_init : BenchmarkClientStatistic :=
  mkStatistics [] [] [] [] [] [] [] [] [] [] [] [].

(** Adds a sample to the [n]-th statistic, in the order of the structure. *)
Definition add_sample (n : nat) (v : Z) (s : BenchmarkClientStatistic) : BenchmarkClientStatistic :=
  let add m l := if (n =? m)%nat then l ++ [v] else l in
  mkStatistics (add 0%nat (connect_statistic s)) (add 1%nat (response_statistic s))
    (add 2%nat (response_header_size_statistic s)) (add 3%nat (response_body_size_statistic s))
    (add 4%nat (latency_1xx_statistic s)) (add 5%nat (latency_2xx_statistic s))
    (add 6%nat (latency_3xx_statistic s)) (add 7%nat (latency_4xx_statistic s))
    (add 8%nat (latency_5xx_statistic s)) (add 9%nat (latency_xxx_statistic s))
    (add 10%nat (origin_latency_statistic s)) (add 11%nat (latency_grpc_ok_statistic s)).

(** What the client is configured with. The timeout is in seconds. *)
Record ClientConfig : Type := mkClientConfig {
  protocol_ : Protocol;
  timeout_ : Z;
  connection_limit_ : Z;
  max_pending_requests_ : Z;
  max_active_requests_ : Z;
  provide_resource_backpressure_ : bool;
  client_latency_response_header_name_ : string;
  grpc_ : bool;
}.

Section Client.

(** User-defined output plugins: [handleResponseHeaders] and
    [handleResponseData], with whether the status was ok. *)
Context {A : AbslStrings} {Plugin : Type}.
Context (plugin_headers : option ResponseHeaders -> Plugin -> bool * Plugin).
Context (plugin_data : string -> Plugin -> bool * Plugin).

Record BenchmarkClientHttpImpl : Type := mkClient {
  config : ClientConfig;
  counters : BenchmarkClientCounters;
  statistic_ : BenchmarkClientStatistic;
  requests_completed_ : Z;
  requests_initiated_ : Z;
  requests_outstanding_ : Z;
  finished_ : bool;
  waiting_in_finish_ : bool;
  finish_timed_out_ : bool;
  abandon_outstanding_ : bool;
  finish_waited_ : Z;
  client_measure_latencies_ : bool;
  user_defined_output_plugins_ : list Plugin;
  dispatcher_exits : nat;
}.

Abbreviation client := BenchmarkClientHttpImpl.

Definition BenchmarkClientHttpImpl_new (cfg : ClientConfig) (plugins : list Plugin) : client :=
  mkClient cfg counters_init statistics_init 0 0 0 false false false false 0 false plugins 0.

(** Field updates. *)
Definition set_counters (k : BenchmarkClientCounters) (c : client) : client :=
  mkClient (config c) k (statistic_ c) (requests_completed_ c) (requests_initiated_ c)
    (requests_outstanding_ c) (finished_ c) (waiting_in_finish_ c) (finish_timed_out_ c)
    (abandon_outstanding_ c) (finish_waited_ c) (client_measure_latencies_ c)
    (user_defined_output_plugins_ c) (dispatcher_exits c).

Definition set_statistic (s : BenchmarkClientStatistic) (c : client) : client :=
  mkClient (config c) (counters c) s (requests_completed_ c) (requests_initiated_ c)
    (requests_outstanding_ c) (finished_ c) (waiting_in_finish_ c) (finish_timed_out_ c)
    (abandon_outstanding_ c) (finish_waited_ c) (client_measure_latencies_ c)
    (user_defined_output_plugins_ c) (dispatcher_exits c).

Definition set_requests (completed initiated outstanding : Z) (c : client) : client :=
  mkClient (config c) (counters c) (statistic_ c) completed initiated outstanding (finished_ c)
    (waiting_in_finish_ c) (finish_timed_out_ c) (abandon_outstanding_ c) (finish_waited_ c)
    (client_measure_latencies_ c) (user_defined_output_plugins_ c) (dispatcher_exits c).

Definition set_finish (finished waiting timed_out abandon : bool) (waited : Z) (c : client) : client :=
  mkClient (config c) (counters c) (statistic_ c) (requests_completed_ c) (requests_initiated_ c)
    (requests_outstanding_ c) finished waiting timed_out abandon waited
    (client_measure_latencies_ c) (user_defined_output_plugins_ c) (dispatcher_exits c).

Definition set_plugins (ps : list Plugin) (c : client) : client :=
  mkClient (config c) (counters c) (statistic_ c) (requests_completed_ c) (requests_initiated_ c)
    (requests_outstanding_ c) (finished_ c) (waiting_in_finish_ c) (finish_timed_out_ c)
    (abandon_outstanding_ c) (finish_waited_ c) (client_measure_latencies_ c) ps
    (dispatcher_exits c).

Definition dispatcher_exit (c : client) : client :=
  mkClient (config c) (counters c) (statistic_ c) (requests_completed_ c) (requests_initiated_ c)
    (requests_outstanding_ c) (finished_ c) (waiting_in_finish_ c) (finish_timed_out_ c)
    (abandon_outstanding_ c) (finish_waited_ c) (client_measure_latencies_ c)
    (user_defined_output_plugins_ c) (S (dispatcher_exits c)).

Definition setShouldMeasureLatencies (b : bool) (c : client) : client :=
  mkClient (config c) (counters c) (statistic_ c) (requests_completed_ c) (requests_initiated_ c)
    (requests_outstanding_ c) (finished_ c) (waiting_in_finish_ c) (finish_timed_out_ c)
    (abandon_outstanding_ c) (finish_waited_ c) b (user_defined_output_plugins_ c)
    (dispatcher_exits c).

Definition inc_counter (n : counter_name) (c : client) : client :=
  set_counters (inc n (counters c)) c.

(** ** Starting requests *)

(** What the request generator yields: the content-length header and the body. *)
Record Request : Type := mkRequest { req_content_length : option string; req_body : string }.

Definition max_in_flight (cfg : ClientConfig) : Z :=
  let max_active := match protocol_ cfg with
                    | Http2 | Http3 => max_active_requests_ cfg
                    | _ => connection_limit_ cfg
                    end in
  u64 (max_pending_requests_ cfg + max_active).

(** Refused because of the limits of the closed loop. *)
Definition at_capacity (c : client) : bool :=
  provide_resource_backpressure_ (config c) &&
  (max_in_flight (config c) <=? u64 (requests_initiated_ c - requests_completed_ c)).

(** A content length that does not parse is ignored. *)
Definition content_length (r : Request) : Z :=
  match req_content_length r with
  | Some s => default 0 (atoi_u64 s)
  | None => 0
  end.

(** Whether there is a pool, and what the generator would yield, are given. The
    decoder of the request started, if one was. *)
Definition tryStartRequest (now : Z) (has_pool : bool) (generated : option Request) (c : client) :
    option StreamDecoder * client :=
  if negb has_pool then (None, c)
  else if at_capacity c then (None, c)
  else
    match generated with
    | None => (None, c)
    | Some request =>
        let d := StreamDecoder_new now (req_body request) (content_length request)
                   (client_measure_latencies_ c) (client_latency_response_header_name_ (config c)) in
        (Some d, set_requests (requests_completed_ c) (u64 (requests_initiated_ c + 1))
                   (u64 (requests_outstanding_ c + 1)) c)
    end.

(** ** Callbacks of the decoder *)

Definition onRequestDone (c : client) : client :=
  let c := if 0 <? requests_outstanding_ c
           then set_requests (requests_completed_ c) (requests_initiated_ c)
                  (requests_outstanding_ c - 1) c
           else c in
  if waiting_in_finish_ c && (requests_outstanding_ c =? 0) then dispatcher_exit c else c.

(** The counters after, and whether the call succeeded. *)
Definition trackGrpcStatus (grpc_status : option Z) (k : BenchmarkClientCounters) :
    BenchmarkClientCounters * bool :=
  let k := grpcStatusCounter_inc grpc_status k in
  let ok := match grpc_status with Some s => s =? 0 | None => false end in
  (if ok then k else inc grpc_error k, ok).

(** The counter of a status, or none for a 2xx of a gRPC call that failed. *)
Definition status_counter (grpc grpc_ok : bool) (status : Z) : option counter_name :=
  if (199 <? status) && (status <=? 299) then (if negb grpc || grpc_ok then Some http_2xx else None)
  else if (99 <? status) && (status <=? 199) then Some http_1xx
  else if (299 <? status) && (status <=? 399) then Some http_3xx
  else if (399 <? status) && (status <=? 499) then Some http_4xx
  else if (499 <? status) && (status <=? 599) then Some http_5xx
  else Some http_xxx.

(** One call per plugin; every failure is counted. *)
Fixpoint run_plugins (call : Plugin -> bool * Plugin) (failure : counter_name)
    (ps : list Plugin) (k : BenchmarkClientCounters) : list Plugin * BenchmarkClientCounters :=
  match ps with
  | [] => ([], k)
  | p :: ps =>
      let '(ok, p') := call p in
      let k := if ok then k else inc failure k in
      let '(ps', k) := run_plugins call failure ps k in
      (p' :: ps', k)
  end.

(** [getResponseStatus()] throws when there is no status; its result is converted
    to [int64_t]. *)
Definition complete_counters (success : bool) (headers : option ResponseHeaders)
    (grpc_status : option Z) (grpc : bool) (k : BenchmarkClientCounters) :
    outcome BenchmarkClientCounters :=
  if negb success then
    let k := inc stream_resets k in
    Ok (if grpc then fst (trackGrpcStatus grpc_status k) else k)
  else
    match headers with
    | None => Throw (EnvoyException ":status must be specified and a valid unsigned long")
    | Some headers =>
        let status := i64 (getResponseStatus headers) in
        let '(k, grpc_ok) := if grpc then trackGrpcStatus grpc_status k else (k, false) in
        Ok (match status_counter grpc grpc_ok status with Some n => inc n k | None => k end)
    end.

Definition BenchmarkClientHttpImpl_onComplete (success : bool) (headers : option ResponseHeaders)
    (grpc_status : option Z) (c : client) : outcome client :=
  let c := set_requests (u64 (requests_completed_ c + 1)) (requests_initiated_ c)
             (requests_outstanding_ c) c in
  let c := onRequestDone c in
  let* k := complete_counters success headers grpc_status (grpc_ (config c)) (counters c) in
  let '(ps, k) := run_plugins (plugin_headers headers) user_defined_plugin_handle_headers_failure
                    (user_defined_output_plugins_ c) k in
  Ok (set_plugins ps (set_counters k c)).

Definition BenchmarkClientHttpImpl_handleResponseData (data : string) (c : client) : client :=
  let '(ps, k) := run_plugins (plugin_data data) user_defined_plugin_handle_data_failure
                    (user_defined_output_plugins_ c) (counters c) in
  set_plugins ps (set_counters k c).

Definition BenchmarkClientHttpImpl_onStreamReset (phase : StreamResetPhase)
    (reason : StreamResetReason) (c : client) : client :=
  let c := inc_counter (match phase with
                        | BeforeHeaders => stream_resets_before_headers
                        | IncompleteBody => stream_resets_incomplete_body
                        end) c in
  set_counters (streamResetReasonCounter_inc reason (counters c)) c.

Definition BenchmarkClientHttpImpl_onPoolFailure (reason : PoolFailureReason) (c : client) : client :=
  let c := match reason with
           | PoolOverflow => inc_counter pool_overflow c
           | PoolLocalConnectionFailure =>
               inc_counter pool_failure_local_connection_failure
                 (inc_counter pool_connection_failure c)
           | PoolRemoteConnectionFailure =>
               inc_counter pool_failure_remote_connection_failure
                 (inc_counter pool_connection_failure c)
           | PoolTimeout => inc_counter pool_failure_timeout c
           end in
  onRequestDone c.

(** The statistic of a response code. *)
Definition latency_class (response_code : Z) : nat :=
  if (99 <? response_code) && (response_code <=? 199) then 4
  else if (199 <? response_code) && (response_code <=? 299) then 5
  else if (299 <? response_code) && (response_code <=? 399) then 6
  else if (399 <? response_code) && (response_code <=? 499) then 7
  else if (499 <? response_code) && (response_code <=? 599) then 8
  else 9.

Definition BenchmarkClientHttpImpl_exportLatency (response_code latency_ns : Z)
    (grpc_status : option Z) (c : client) : client :=
  let s := if grpc_ (config c) && bool_decide (grpc_status = Some 0)
           then add_sample 11 latency_ns (statistic_ c) else statistic_ c in
  set_statistic (add_sample (latency_class response_code) latency_ns s) c.

#[export] Instance BenchmarkClientHttpImpl_callbacks : StreamDecoderCompletionCallback client := {
  cb_onComplete := BenchmarkClientHttpImpl_onComplete;
  cb_onStreamReset := BenchmarkClientHttpImpl_onStreamReset;
  cb_onPoolFailure := BenchmarkClientHttpImpl_onPoolFailure;
  cb_exportLatency := BenchmarkClientHttpImpl_exportLatency;
  cb_handleResponseData := BenchmarkClientHttpImpl_handleResponseData;
  cb_addValue which v c :=
    set_statistic (add_sample (match which with
                               | connect_statistic_ => 0
                               | latency_statistic_ => 1
                               | response_header_sizes_statistic_ => 2
                               | response_body_sizes_statistic_ => 3
                               | origin_latency_statistic_ => 10
                               end) v (statistic_ c)) c;
}.

(** ** The end of an execution *)

Definition abandonOutstandingWork (c : client) : client :=
  let c := set_finish (finished_ c) (waiting_in_finish_ c) (finish_timed_out_ c) true
             (finish_waited_ c) c in
  if waiting_in_finish_ c then dispatcher_exit c else c.

(** The timer of the wait. *)
Definition finish_timer (c : client) : client :=
  dispatcher_exit (set_finish (finished_ c) (waiting_in_finish_ c) true (abandon_outstanding_ c)
                     (finish_waited_ c) c).

(** The condition of the loop in [finish()]. *)
Definition keeps_waiting (c : client) : bool :=
  (0 <? requests_outstanding_ c) && negb (finish_timed_out_ c) && negb (abandon_outstanding_ c).

(** What happens in the dispatcher while [finish()] waits: something that changes
    the client, with the condition checked after it. The dispatcher returns only
    when it is asked to exit. [None]: [happening] is over and it still waits. *)
Fixpoint finish_wait (happening : list (client -> outcome client)) (c : client) :
    outcome (option client) :=
  if negb (keeps_waiting c) then Ok (Some c)
  else
    match happening with
    | [] => Ok None
    | h :: happening => let* c := h c in finish_wait happening c
    end.

(** [wait_start] and [wait_end]: the clock before and after the wait. *)
Definition finish (wait_start wait_end : Z) (happening : list (client -> outcome client))
    (c : client) : outcome (option client) :=
  if finished_ c then Ok (Some c)
  else
    let c := set_finish true (waiting_in_finish_ c) (finish_timed_out_ c) (abandon_outstanding_ c)
               (finish_waited_ c) c in
    let* o :=
      if (0 <? requests_outstanding_ c) && negb (abandon_outstanding_ c) && (0 <? timeout_ (config c))
      then
        let c := set_finish true true (finish_timed_out_ c) (abandon_outstanding_ c)
                   (finish_waited_ c) c in
        let* o := finish_wait happening c in
        Ok (option_map (fun c =>
              set_finish (finished_ c) false (finish_timed_out_ c) (abandon_outstanding_ c)
                (Z.quot (wait_end - wait_start) 1000000) c) o)
      else Ok (Some c) in
    Ok (option_map (fun c =>
          if 0 <? requests_outstanding_ c
          then set_counters (add_inflight_lost (requests_outstanding_ c) (counters c)) c
          else c) o).

(** [terminate()]: with connections to drain, latencies are no longer measured
    and the drain is given this many milliseconds. *)
Definition terminate (has_active_connections : bool) (c : client) : client * option Z :=
  if has_active_connections then
    (setShouldMeasureLatencies false c,
     Some (Z.max 0 (timeout_ (config c) * 1000 - finish_waited_ c)))
  else (c, None).

End Client.

(** ** The books *)

Section Books.

Context {A : AbslStrings} {Plugin : Type}.
Context (plugin_headers : option ResponseHeaders -> Plugin -> bool * Plugin).
Context (plugin_data : string -> Plugin -> bool * Plugin).

Abbreviation client := (@BenchmarkClientHttpImpl Plugin).

Abbreviation callbacks := (BenchmarkClientHttpImpl_callbacks plugin_headers plugin_data).

(** Requests that failed in the pool. *)
Definition pool_failures (k : BenchmarkClientCounters) : Z :=
  pool_overflow_ k + pool_connection_failure_ k + pool_failure_timeout_ k.

(** Responses, by status class. *)
Definition responses (k : BenchmarkClientCounters) : Z :=
  http_1xx_ k + http_2xx_ k + http_3xx_ k + http_4xx_ k + http_5xx_ k + http_xxx_ k.

(** Calls with grpc-status 0. *)
Definition grpc_successes (k : BenchmarkClientCounters) : Z :=
  default 0 (grpc_status_counters_ k !! Some 0).

(** What adds up in the books of a client: every request initiated is
    outstanding, completed, or failed in the pool; every reset has a phase,
    every connection failure a side; a completion is a reset or a response of
    one status class, and in gRPC mode a success or an error. *)
Record balanced (c : client) : Prop := {
  bal_requests : requests_initiated_ c =
    requests_outstanding_ c + requests_completed_ c + pool_failures (counters c);
  bal_resets : stream_resets_ (counters c) =
    stream_resets_before_headers_ (counters c) + stream_resets_incomplete_body_ (counters c);
  bal_pool : pool_connection_failure_ (counters c) =
    pool_failure_local_connection_failure_ (counters c) +
    pool_failure_remote_connection_failure_ (counters c);
  bal_http : grpc_ (config c) = false ->
    requests_completed_ c = stream_resets_ (counters c) + responses (counters c);
  bal_grpc : grpc_ (config c) = true ->
    requests_completed_ c = grpc_successes (counters c) + grpc_error_ (counters c);
  bal_nonneg : 0 <= requests_outstanding_ c /\ 0 <= requests_completed_ c /\
    0 <= pool_failures (counters c);
  bal_u64 : requests_initiated_ c < 2 ^ 64;
}.

(** What of a client the books are about. *)
Definition ledger (c : client) :=
  (config c, requests_completed_ c, requests_initiated_ c, requests_outstanding_ c,
   (stream_resets_ (counters c), stream_resets_before_headers_ (counters c),
    stream_resets_incomplete_body_ (counters c), responses (counters c)),
   (pool_failures (counters c), pool_connection_failure_ (counters c),
    pool_failure_local_connection_failure_ (counters c),
    pool_failure_remote_connection_failure_ (counters c)),
   (grpc_successes (counters c), grpc_error_ (counters c))).

Lemma balanced_ledger c c' : ledger c' = ledger c -> balanced c -> balanced c'.
Proof.
  unfold ledger. intros E [H1 H2 H3 H4 H5 H6 H7].
  injection E as E0 E1 E2 E3 E4 E5 E6 E7 E8 E9 E10 E11 E12 E13.
  split; rewrite ?E0, ?E1, ?E2, ?E3, ?E4, ?E5, ?E6, ?E7, ?E8, ?E9, ?E10, ?E11, ?E12, ?E13; done.
Qed.

(** Plugins only touch their own counters. *)
Lemma run_plugins_ledger (call : Plugin -> bool * Plugin) failure ps k (c : client) :
  failure = user_defined_plugin_handle_headers_failure \/
  failure = user_defined_plugin_handle_data_failure ->
  ledger (set_counters (snd (run_plugins call failure ps k)) c) = ledger (set_counters k c).
Proof.
  intros Hf. revert k. induction ps as [|p ps IH]; intros k; [done|]. cbn.
  destruct (call p) as [ok p']. specialize (IH (if ok then k else inc failure k)).
  destruct (run_plugins call failure ps (if ok then k else inc failure k)) as [ps' k'].
  cbn in *. rewrite IH. destruct ok; [done|].
  unfold ledger, responses, pool_failures. cbn. destruct Hf as [-> | ->]; cbn; by rewrite !Z.add_0_r.
Qed.

Lemma onRequestDone_ledger c :
  0 < requests_outstanding_ c ->
  ledger (onRequestDone c) =
  ledger (set_requests (requests_completed_ c) (requests_initiated_ c)
            (requests_outstanding_ c - 1) c).
Proof.
  intros Ho. unfold onRequestDone. replace (0 <? requests_outstanding_ c) with true by lia.
  by destruct (_ && _).
Qed.

(** A request started. *)
Lemma start_balanced now has_pool generated c d c' :
  balanced c -> requests_initiated_ c + 1 < 2 ^ 64 ->
  tryStartRequest now has_pool generated c = (Some d, c') ->
  balanced c' /\ requests_outstanding_ c' = requests_outstanding_ c + 1 /\
  requests_initiated_ c' = requests_initiated_ c + 1 /\ config c' = config c.
Proof.
  intros [H1 H2 H3 H4 H5 H6 H7] Hmax. unfold tryStartRequest.
  destruct (negb has_pool); [done|]. destruct (at_capacity c); [done|].
  destruct generated as [r|]; [|done]. intros [= <- <-].
  assert (E1 : u64 (requests_initiated_ c + 1) = requests_initiated_ c + 1)
    by (apply u64_small; unfold in_u64; lia).
  assert (E2 : u64 (requests_outstanding_ c + 1) = requests_outstanding_ c + 1)
    by (apply u64_small; unfold in_u64; lia).
  rewrite E1, E2. split; [|done]. split; cbn; try done; lia.
Qed.

(** A request failed in the pool. *)
Lemma pool_failure_balanced reason c :
  balanced c -> 0 < requests_outstanding_ c ->
  let c' := BenchmarkClientHttpImpl_onPoolFailure reason c in
  balanced c' /\ requests_outstanding_ c' = requests_outstanding_ c - 1 /\
  requests_initiated_ c' = requests_initiated_ c /\ requests_completed_ c' = requests_completed_ c /\
  config c' = config c.
Proof.
  intros [H1 H2 H3 H4 H5 H6 H7] Ho. unfold BenchmarkClientHttpImpl_onPoolFailure.
  set (c1 := match reason with PoolOverflow => _ | _ => _ end).
  assert (Hc1 : requests_outstanding_ c1 = requests_outstanding_ c /\
                requests_initiated_ c1 = requests_initiated_ c /\
                requests_completed_ c1 = requests_completed_ c /\ config c1 = config c)
    by (unfold c1; by destruct reason).
  destruct Hc1 as (Eo & Ei & Ec & Ecfg).
  pose proof (onRequestDone_ledger c1 ltac:(lia)) as El. cbv zeta.
  assert (Hb : balanced (set_requests (requests_completed_ c1) (requests_initiated_ c1)
                           (requests_outstanding_ c1 - 1) c1)).
  { rewrite Eo, Ei, Ec. unfold c1, pool_failures, responses in *.
    destruct reason; split; cbn; unfold pool_failures, responses, grpc_successes in *; cbn;
      try (intros Hg; first [specialize (H4 Hg) | specialize (H5 Hg)]); lia. }
  split; [by apply (balanced_ledger _ _ El)|].
  unfold ledger in El. cbn in El. injection El. intros. rewrite <-Eo, <-Ei, <-Ec, <-Ecfg. done.
Qed.

(** The counters a gRPC status does not touch. *)
Definition other_counters (k : BenchmarkClientCounters) :=
  (responses k, stream_resets_ k,
   (stream_resets_before_headers_ k, stream_resets_incomplete_body_ k),
   (pool_failures k, pool_connection_failure_ k, pool_failure_local_connection_failure_ k,
    pool_failure_remote_connection_failure_ k)).

Lemma trackGrpcStatus_effect g k k' ok :
  trackGrpcStatus g k = (k', ok) ->
  grpc_successes k' + grpc_error_ k' = grpc_successes k + grpc_error_ k + 1 /\
  other_counters k' = other_counters k.
Proof.
  assert (Hg : grpc_successes (grpcStatusCounter_inc g k) =
            grpc_successes k + (if decide (g = Some 0) then 1 else 0)).
  { unfold grpc_successes, grpcStatusCounter_inc. cbn. case_decide as E.
    - subst g. by rewrite lookup_insert_eq.
    - by rewrite lookup_insert_ne, Z.add_0_r. }
  unfold trackGrpcStatus.
  destruct g as [s|]; [destruct (s =? 0) eqn:E; b2p|]; intros [= <- <-];
    unfold grpc_successes, other_counters, responses, pool_failures in *; cbn in *;
    rewrite ?Z.add_0_r; (split; [|done]).
  - subst s. rewrite decide_True in Hg by done. lia.
  - rewrite decide_False in Hg by congruence. lia.
  - rewrite decide_False in Hg by congruence. lia.
Qed.

(** The counters of a completion: a reset, or a response in one class; in gRPC
    mode a success or an error, whatever the class. *)
Lemma complete_counters_effect success headers g grpc k k' :
  complete_counters success headers g grpc k = Ok k' ->
  stream_resets_ k' = stream_resets_ k + (if success then 0 else 1) /\
  (grpc = false -> responses k' = responses k + (if success then 1 else 0)) /\
  (grpc = true -> grpc_successes k' + grpc_error_ k' = grpc_successes k + grpc_error_ k + 1) /\
  (stream_resets_before_headers_ k', stream_resets_incomplete_body_ k') =
    (stream_resets_before_headers_ k, stream_resets_incomplete_body_ k) /\
  (pool_failures k', pool_connection_failure_ k', pool_failure_local_connection_failure_ k',
   pool_failure_remote_connection_failure_ k') =
  (pool_failures k, pool_connection_failure_ k, pool_failure_local_connection_failure_ k,
   pool_failure_remote_connection_failure_ k).
Proof.
  unfold complete_counters. intros Hk. destruct success; cbn [negb] in Hk.
  - destruct headers as [h|]; [|done]. destruct grpc.
    + destruct (trackGrpcStatus g k) as [k2 ok] eqn:Et. apply trackGrpcStatus_effect in Et as [T1 T2].
      unfold other_counters in T2. injection T2 as T2 T3 T4 T5 T6 T7 T8 T9.
      injection Hk as <-. unfold status_counter.
      split_ifs; unfold pool_failures, grpc_successes in *; cbn; rewrite ?Z.add_0_r;
        split_and!; try done; try congruence; lia.
    + injection Hk as <-. unfold status_counter. cbn [negb orb].
      split_ifs; unfold responses, pool_failures, grpc_successes; cbn; rewrite ?Z.add_0_r;
        split_and!; try done; lia.
  - destruct grpc.
    + destruct (trackGrpcStatus g (inc stream_resets k)) as [k2 ok] eqn:Et.
      apply trackGrpcStatus_effect in Et as [T1 T2]. unfold other_counters in T2.
      injection T2 as T2 T3 T4 T5 T6 T7 T8 T9. injection Hk as <-.
      unfold pool_failures, grpc_successes in *. cbn in *. rewrite ?Z.add_0_r in *.
      split_and!; try done; congruence.
    + injection Hk as <-. unfold responses, pool_failures, grpc_successes. cbn.
      rewrite ?Z.add_0_r. split_and!; done.
Qed.

(** A completion, in the books. *)
Lemma onComplete_ledger success headers g (c c' : client) :
  0 < requests_outstanding_ c -> 0 <= requests_completed_ c -> requests_completed_ c + 1 < 2 ^ 64 ->
  BenchmarkClientHttpImpl_onComplete plugin_headers success headers g c = Ok c' ->
  exists k, complete_counters success headers g (grpc_ (config c)) (counters c) = Ok k /\
    ledger c' = ledger (set_requests (requests_completed_ c + 1) (requests_initiated_ c)
                          (requests_outstanding_ c - 1) (set_counters k c)).
Proof.
  intros Ho Hc Hmax Hok. unfold BenchmarkClientHttpImpl_onComplete in Hok.
  rewrite u64_small in Hok by (unfold in_u64; lia).
  set (c1 := set_requests _ _ _ c) in Hok.
  pose proof (onRequestDone_ledger c1 ltac:(done)) as El.
  assert (Hk : counters (onRequestDone c1) = counters c).
  { unfold onRequestDone. destruct (0 <? _); by destruct (_ && _). }
  assert (Hcfg : config (onRequestDone c1) = config c) by (unfold ledger in El; by injection El).
  apply obind_Ok in Hok as (k & Hk' & Hok). rewrite Hk, Hcfg in Hk'. exists k. split; [done|].
  pose proof (run_plugins_ledger (plugin_headers headers) user_defined_plugin_handle_headers_failure
    (user_defined_output_plugins_ (onRequestDone c1)) k (onRequestDone c1) ltac:(by left)) as Ep.
  destruct (run_plugins _ _ _ _) as [ps k2]. injection Hok as <-. cbn [snd] in Ep.
  transitivity (ledger (set_counters k2 (onRequestDone c1))); [done|]. rewrite Ep.
  unfold ledger in El |- *. cbn in El |- *. injection El. intros. congruence.
Qed.

(** A response, or a reset, which the decoder announces before. *)
Lemma complete_balanced (success : bool) phase reason headers g c c' :
  balanced c -> 0 < requests_outstanding_ c ->
  BenchmarkClientHttpImpl_onComplete plugin_headers success headers g
    (if success then c else BenchmarkClientHttpImpl_onStreamReset phase reason c) = Ok c' ->
  balanced c' /\ requests_outstanding_ c' = requests_outstanding_ c - 1 /\
  requests_initiated_ c' = requests_initiated_ c /\
  requests_completed_ c' = requests_completed_ c + 1 /\ config c' = config c.
Proof.
  intros [H1 H2 H3 H4 H5 H6 H7] Ho Hc.
  assert (Hs : let c1 := if success then c else BenchmarkClientHttpImpl_onStreamReset phase reason c in
    (config c1, requests_completed_ c1, requests_initiated_ c1, requests_outstanding_ c1) =
    (config c, requests_completed_ c, requests_initiated_ c, requests_outstanding_ c) /\
    (pool_failures (counters c1), pool_connection_failure_ (counters c1),
     pool_failure_local_connection_failure_ (counters c1),
     pool_failure_remote_connection_failure_ (counters c1)) =
    (pool_failures (counters c), pool_connection_failure_ (counters c),
     pool_failure_local_connection_failure_ (counters c),
     pool_failure_remote_connection_failure_ (counters c)) /\
    (stream_resets_ (counters c1), responses (counters c1), grpc_successes (counters c1),
     grpc_error_ (counters c1)) =
    (stream_resets_ (counters c), responses (counters c), grpc_successes (counters c),
     grpc_error_ (counters c)) /\
    stream_resets_before_headers_ (counters c1) + stream_resets_incomplete_body_ (counters c1) =
    stream_resets_before_headers_ (counters c) + stream_resets_incomplete_body_ (counters c) +
      (if success then 0 else 1)).
  { destruct success; cbn zeta; [split_and!; (done || lia)|].
    unfold BenchmarkClientHttpImpl_onStreamReset, pool_failures, responses, grpc_successes.
    destruct phase; cbn; rewrite !Z.add_0_r; split_and!; (done || lia). }
  cbn zeta in Hs. set (c1 := if success then c else _) in *. clearbody c1.
  destruct Hs as (E1 & E2 & E3 & E4). injection E1 as Ecfg Ec Ei Eo.
  injection E2 as Ep Epc Epl Epr. injection E3 as Er Eresp Egs Ege.
  apply onComplete_ledger in Hc as (k & Hk & El); [|lia..].
  apply complete_counters_effect in Hk as (K1 & K2 & K3 & K4 & K5).
  injection K4 as K4a K4b. injection K5 as K5a K5b K5c K5d.
  rewrite Ecfg in *. split.
  - apply (balanced_ledger _ _ El). split; cbn; rewrite ?Ecfg; try (intros Hg);
      try specialize (H4 Hg); try specialize (H5 Hg); try specialize (K2 Hg);
      try specialize (K3 Hg); destruct success; lia.
  - unfold ledger in El. cbn in El. injection El. intros. split_and!; congruence || lia.
Qed.

(** ** A client and the decoders of its requests *)

(** The client with a decoder, and the phase of its stream, per request. *)
Definition system : Type := client * list (StreamDecoder * stream_phase).

Definition is_open (s : StreamDecoder * stream_phase) : Z :=
  match snd s with Over => 0 | _ => 1 end.

Definition open_streams (ss : list (StreamDecoder * stream_phase)) : Z :=
  foldr (fun s n => is_open s + n) 0 ss.

Inductive system_step : system -> system -> Prop :=
| sys_start now has_pool generated c ss d c' :
    requests_initiated_ c + 1 < 2 ^ 64 ->
    tryStartRequest now has_pool generated c = (Some d, c') ->
    system_step (c, ss) (c', ss ++ [(d, InPool)])
| sys_refused now has_pool generated c ss c' :
    tryStartRequest now has_pool generated c = (None, c') ->
    system_step (c, ss) (c', ss)
| sys_event i now e c ss d p q d' c' :
    ss !! i = Some (d, p) -> next_phase p e = Some q ->
    @decoder_step client _ callbacks now e d c = Ok (d', c') ->
    system_step (c, ss) (c', <[i := (d', q)]> ss)
| sys_measure b c ss :
    system_step (c, ss) (setShouldMeasureLatencies b c, ss)
| sys_abandon c ss :
    system_step (c, ss) (abandonOutstandingWork c, ss).

Lemma open_streams_cons s ss : open_streams (s :: ss) = is_open s + open_streams ss.
Proof. done. Qed.

Lemma open_streams_app ss s : open_streams (ss ++ [s]) = open_streams ss + is_open s.
Proof.
  induction ss as [|x ss IH]; cbn [app]; rewrite !open_streams_cons; [cbn; lia|]. rewrite IH. lia.
Qed.

Lemma open_streams_insert ss i s s' :
  ss !! i = Some s -> open_streams (<[i := s']> ss) = open_streams ss - is_open s + is_open s'.
Proof.
  revert i. induction ss as [|x ss IH]; intros i Hi; [done|]. destruct i as [|i]; cbn in Hi.
  - injection Hi as ->. change (<[0%nat := s']> (s :: ss)) with (s' :: ss).
    rewrite !open_streams_cons. lia.
  - change (<[S i := s']> (x :: ss)) with (x :: <[i := s']> ss).
    rewrite !open_streams_cons, (IH _ Hi). lia.
Qed.

Lemma is_open_nonneg s : 0 <= is_open s.
Proof. destruct s as [d []]; cbn; lia. Qed.

Lemma open_streams_pos ss i s : ss !! i = Some s -> is_open s = 1 -> 0 < open_streams ss.
Proof.
  assert (Hnn : forall ss, 0 <= open_streams ss).
  { intros l. induction l as [|x l IH]; [done|]. rewrite open_streams_cons.
    pose proof (is_open_nonneg x). lia. }
  revert i. induction ss as [|x ss IH]; intros i Hi Ho; [done|]. rewrite open_streams_cons.
  pose proof (Hnn ss). pose proof (is_open_nonneg x). destruct i as [|i]; cbn in Hi.
  - injection Hi as ->. lia.
  - specialize (IH _ Hi Ho). lia.
Qed.

(** How the books move: the request may complete, the rest stays. *)
Definition books_move (done : Z) (c c' : client) : Prop :=
  balanced c' /\ requests_initiated_ c' = requests_initiated_ c /\ config c' = config c /\
  requests_completed_ c <= requests_completed_ c' /\
  requests_outstanding_ c' = requests_outstanding_ c - done.

Lemma books_move_ledger n c0 c1 c c' :
  ledger c0 = ledger c -> ledger c1 = ledger c' -> books_move n c c' -> books_move n c0 c1.
Proof.
  intros E0 E1 (Hb & Hi & Hcfg & Hc & Ho).
  split; [by apply (balanced_ledger c')|]. unfold ledger in E0, E1.
  injection E0 as E0a E0b E0c E0d. injection E1 as E1a E1b E1c E1d.
  split_and!; congruence || lia.
Qed.

Lemma books_move_none c c' : balanced c -> ledger c' = ledger c -> books_move 0 c c'.
Proof.
  intros Hb El. apply (books_move_ledger 0 c c' c c); [done|done|]. split; [done|]. split_and!; done || lia.
Qed.

(** The end of a decoder, in the books. *)
Lemma decoder_onComplete_books now (success : bool) phase reason d (c c1 : client) d' :
  balanced c -> 0 < requests_outstanding_ c ->
  @StreamDecoder_onComplete client callbacks now success d
    (if success then c else BenchmarkClientHttpImpl_onStreamReset phase reason c) = Ok (d', c1) ->
  books_move 1 c c1.
Proof.
  intros Hb Ho Hc. unfold StreamDecoder_onComplete in Hc. cbv zeta in Hc.
  apply obind_Ok in Hc as (c2 & Hc & [= _ <-]). cbn in Hc.
  match type of Hc with BenchmarkClientHttpImpl_onComplete _ _ _ _ ?x = _ => set (cx := x) in * end.
  assert (Hcx : exists c3, ledger c3 = ledger c /\
                  cx = if success then c3 else BenchmarkClientHttpImpl_onStreamReset phase reason c3).
  { exists (if success then cx else set_statistic (statistic_ cx) c). destruct success.
    - split; [|done]. unfold cx. destruct (_ && _); [|done]. by destruct (response_code d).
    - split; [done|]. unfold cx. by destruct phase. }
  destruct Hcx as (c3 & E3 & Ecx). rewrite Ecx in Hc.
  assert (Hb3 : balanced c3) by by apply (balanced_ledger c).
  assert (Ho3 : 0 < requests_outstanding_ c3) by (unfold ledger in E3; injection E3; intros; lia).
  apply (complete_balanced success phase reason) in Hc as (B1 & B2 & B3 & B4 & B5); [|done..].
  apply (books_move_ledger 1 c c2 c3 c2); [done..|]. split_and!; done || lia.
Qed.

Lemma handleResponseData_ledger data (c : client) :
  ledger (BenchmarkClientHttpImpl_handleResponseData plugin_data data c) = ledger c.
Proof.
  unfold BenchmarkClientHttpImpl_handleResponseData.
  pose proof (run_plugins_ledger (plugin_data data) user_defined_plugin_handle_data_failure
    (user_defined_output_plugins_ c) (counters c) c ltac:(by right)) as El.
  by destruct (run_plugins _ _ _ _) as [ps k].
Qed.

(** An event of a decoder: the books change exactly when the stream is over. *)
Lemma decoder_step_books p q now e d (c : client) d' c' :
  balanced c -> 0 < requests_outstanding_ c -> next_phase p e = Some q ->
  @decoder_step client _ callbacks now e d c = Ok (d', c') ->
  books_move match q with Over => 1 | _ => 0 end c c'.
Proof.
  intros Hb Ho Hq Hs.
  pose proof (fun now success phase reason d c1 d' =>
    decoder_onComplete_books now success phase reason d c c1 d' Hb Ho) as Hdone.
  destruct p, e; try done; cbn in Hq; injection Hq as <-; cbn in Hs.
  - unfold StreamDecoder_onPoolReady in Hs. apply obind_Ok in Hs as (sent & _ & [= _ <-]).
    apply books_move_none; [done|]. by destruct (measure_latencies_ d).
  - injection Hs as _ <-.
    destruct (pool_failure_balanced reason c Hb Ho) as (B1 & B2 & B3 & B4 & B5).
    split_and!; done || lia.
  - unfold StreamDecoder_decodeHeaders in Hs. cbv zeta in Hs.
    set (c0 := match origin_delta d headers with Some _ => _ | None => _ end) in Hs.
    assert (E0 : ledger c0 = ledger c) by (unfold c0; by destruct (origin_delta d headers)).
    assert (Hb0 : balanced c0) by by apply (balanced_ledger c).
    destruct end_stream.
    + apply (books_move_ledger 1 c c' c0 c'); [done..|].
      apply (decoder_onComplete_books now true BeforeHeaders LocalReset) in Hs; [done..|].
      unfold ledger in E0. injection E0. intros. lia.
    + injection Hs as _ <-. by apply books_move_none.
  - by apply (Hdone now false) in Hs.
  - unfold StreamDecoder_decodeData in Hs. apply obind_Ok in Hs as ([d1 c1] & Hs & [= -> <-]).
    apply (books_move_ledger _ c _ c c1); [done|apply handleResponseData_ledger|]. destruct end_stream.
    + by apply (Hdone now true BeforeHeaders LocalReset) in Hs.
    + injection Hs as _ <-. by apply books_move_none.
  - by apply (Hdone now true BeforeHeaders LocalReset) in Hs.
  - by apply (Hdone now false) in Hs.
Qed.

(** What holds between a client and its streams. *)
Record system_ok (s : system) : Prop := {
  sys_balanced : balanced (fst s);
  sys_outstanding : requests_outstanding_ (fst s) = open_streams (snd s);
  sys_initiated : requests_initiated_ (fst s) = Z.of_nat (length (snd s));
  sys_capacity : provide_resource_backpressure_ (config (fst s)) = true ->
    requests_initiated_ (fst s) - requests_completed_ (fst s) <= max_in_flight (config (fst s));
}.

Lemma system_new_ok cfg plugins : 0 <= max_in_flight cfg ->
  system_ok (BenchmarkClientHttpImpl_new cfg plugins, []).
Proof. intros Hm. split; cbn; [split; cbn; (done || lia)|done|done|lia]. Qed.

Lemma system_step_ok s s' : system_ok s -> system_step s s' -> system_ok s'.
Proof.
  intros [Hb Ho Hi Hcap] Hs. destruct Hs as [now hp gen c ss d c' Hmax Hst|now hp gen c ss c' Hst|
    i now e c ss d p q d' c' Hi' Hq He|b c ss|c ss]; cbn [fst snd] in *.
  - destruct (start_balanced now hp gen c d c' Hb Hmax Hst) as (B1 & B2 & B3 & B4).
    assert (Hcomp : requests_completed_ c' = requests_completed_ c /\
      (provide_resource_backpressure_ (config c) = true ->
       requests_initiated_ c - requests_completed_ c < max_in_flight (config c))).
    { unfold tryStartRequest in Hst. destruct (negb hp); [done|].
      destruct (at_capacity c) eqn:Ec; [done|]. destruct gen; [|done]. injection Hst as _ <-.
      split; [done|]. intros Hbp. unfold at_capacity in Ec. rewrite Hbp in Ec. cbn in Ec. b2p.
      destruct Hb as [H1 _ _ _ _ H6 H7]. rewrite u64_small in Ec by (unfold in_u64; lia). lia. }
    destruct Hcomp as [Ec Hlt].
    split; cbn [fst snd]; rewrite ?B4, ?length_app, ?open_streams_app; unfold is_open; cbn [snd length].
    + done.
    + lia.
    + lia.
    + intros Hbp. specialize (Hlt Hbp). lia.
  - assert (c' = c) as ->.
    { unfold tryStartRequest in Hst. destruct (negb hp); [congruence|].
      destruct (at_capacity c); [congruence|]. destruct gen; congruence. }
    by split.
  - assert (Hop : is_open (d, p) = 1) by (by destruct p, e).
    pose proof (open_streams_pos _ _ _ Hi' Hop) as Hpos.
    destruct (decoder_step_books p q now e d c d' c' Hb ltac:(lia) Hq He) as (B1 & B2 & B3 & B4 & B5).
    split; cbn [fst snd]; rewrite ?B3, ?length_insert, ?(open_streams_insert _ _ _ _ Hi'), ?Hop; try done.
    + unfold is_open; destruct q; cbn [snd]; lia.
    + lia.
    + intros Hbp. specialize (Hcap Hbp). lia.
  - split; cbn; try done. by apply (balanced_ledger c).
  - unfold abandonOutstandingWork.
    destruct (waiting_in_finish_ _); split; cbn; try done; by apply (balanced_ledger c).
Qed.

Lemma system_step_config s s' : system_ok s -> system_step s s' -> config (fst s') = config (fst s).
Proof.
  intros [Hb Ho _ _] Hs. destruct Hs as [now hp gen c ss d c' Hmax Hst|now hp gen c ss c' Hst|
    i now e c ss d p q d' c' Hi' Hq He|b c ss|c ss]; cbn [fst snd] in *.
  - by destruct (start_balanced now hp gen c d c' Hb Hmax Hst) as (_ & _ & _ & ->).
  - unfold tryStartRequest in Hst. destruct (negb hp); [congruence|].
    destruct (at_capacity c); [congruence|]. destruct gen; congruence.
  - assert (Hop : is_open (d, p) = 1) by (by destruct p, e). pose proof (open_streams_pos _ _ _ Hi' Hop).
    by destruct (decoder_step_books p q now e d c d' c' Hb ltac:(lia) Hq He) as (_ & _ & -> & _).
  - done.
  - unfold abandonOutstandingWork. by destruct (waiting_in_finish_ _).
Qed.

Lemma system_steps_config s s' : rtc system_step s s' -> system_ok s -> config (fst s') = config (fst s).
Proof.
  induction 1 as [|s1 s2 s3 Hst _ IH]; [done|]. intros H1. rewrite IH by by eapply system_step_ok.
  by apply system_step_config.
Qed.

Lemma system_steps_ok s s' : rtc system_step s s' -> system_ok s -> system_ok s'.
Proof. induction 1 as [|s1 s2 s3 Hst _ IH]; [done|]. intros H1. by eapply IH, system_step_ok. Qed.

(** C3. Nothing is lost: whatever requests a client starts and however their
    streams proceed, the requests it counts as outstanding are the streams that
    are open, every request is outstanding, completed or failed in the pool, a
    completion is a reset or a response in one status class (in gRPC mode, a
    success or an error), and a closed loop never has more in flight than its
    limits. *)
Theorem client_accounts_for_every_request cfg plugins c ss :
  0 <= max_in_flight cfg -> rtc system_step (BenchmarkClientHttpImpl_new cfg plugins, []) (c, ss) ->
  balanced c /\ requests_outstanding_ c = open_streams ss /\
  requests_initiated_ c = Z.of_nat (length ss) /\
  (provide_resource_backpressure_ (config c) = true ->
   requests_outstanding_ c + pool_failures (counters c) <= max_in_flight (config c)).
Proof.
  intros Hm Hr. destruct (system_steps_ok _ _ Hr (system_new_ok cfg plugins Hm)) as [Hb Ho Hi Hcap]. cbn [fst snd] in *.
  split_and!; try done. intros Hbp. specialize (Hcap Hbp). pose proof (bal_requests c Hb). lia.
Qed.

(** In a closed loop, pool failures use up the capacity for good: once as
    many requests failed in the pool as may be in flight, no request is ever
    started again, even with none outstanding. *)
Lemma pool_failures_exhaust_capacity now has_pool generated (c : client) :
  balanced c -> provide_resource_backpressure_ (config c) = true ->
  max_in_flight (config c) <= pool_failures (counters c) ->
  tryStartRequest now has_pool generated c = (None, c).
Proof.
  intros [H1 _ _ _ _ H6 H7] Hbp Hpf. unfold tryStartRequest, at_capacity. rewrite Hbp.
  rewrite u64_small by (unfold in_u64; lia).
  replace (max_in_flight (config c) <=? requests_initiated_ c - requests_completed_ c) with true by lia.
  by destruct (negb has_pool).
Qed.

(** ** The wait at the end *)

(** What may happen while [finish()] waits: something that returns, and neither
    takes back a timeout that has passed nor ends the wait by itself. *)
Definition happens (h : client -> outcome client) : Prop :=
  forall c, exists c', h c = Ok c' /\ finished_ c' = finished_ c /\
    waiting_in_finish_ c' = waiting_in_finish_ c /\
    (finish_timed_out_ c = true -> finish_timed_out_ c' = true).

Definition timer_fires : client -> outcome client := fun c => Ok (finish_timer c).

Lemma timer_fires_happens : happens timer_fires.
Proof. intros c. by eexists. Qed.

Lemma finish_wait_ends hs c :
  Forall happens hs -> finish_timed_out_ c = true \/ In timer_fires hs ->
  exists c', finish_wait hs c = Ok (Some c') /\ keeps_waiting c' = false.
Proof.
  intros Hhs. revert c. induction Hhs as [|h hs Hh Hhs IH]; intros c Ht; cbn [finish_wait].
  - destruct Ht as [Ht|[]]. assert (Hk : keeps_waiting c = false)
      by (unfold keeps_waiting; by rewrite Ht, andb_false_r). rewrite Hk. cbn. eauto.
  - destruct (keeps_waiting c) eqn:Ek; cbn [negb]; [|eauto].
    destruct (Hh c) as (c1 & E1 & _ & _ & Hto). rewrite E1. cbn. apply IH.
    destruct Ht as [Ht|[-> |Hin]]; [left; auto| |by right].
    unfold timer_fires in E1. injection E1 as <-. by left.
Qed.

(** The wait of [finish()] ends: whatever happens meanwhile, once the timer
    has fired; then nothing is outstanding, or the time is up, or the execution
    was abandoned; and what is still outstanding, and only that, is counted as
    lost in flight, once, however often it is called. *)
Lemma finish_ends_and_accounts ws we hs c :
  finished_ c = false -> Forall happens hs -> In timer_fires hs ->
  exists c1 c' : client, finish ws we hs c = Ok (Some c') /\
    counters c' = (if 0 <? requests_outstanding_ c1
                   then add_inflight_lost (requests_outstanding_ c1) (counters c1)
                   else counters c1) /\
    requests_outstanding_ c' = requests_outstanding_ c1 /\
    (keeps_waiting c1 = false \/ timeout_ (config c) <= 0) /\
    forall ws' we' hs', finished_ c' = true -> finish ws' we' hs' c' = Ok (Some c').
Proof.
  intros Hf Hhs Hin. unfold finish at 1. rewrite Hf.
  set (c0 := set_finish true _ _ _ _ c).
  assert (Hagain : forall (c2 : client) ws' we' hs',
            finished_ c2 = true -> finish ws' we' hs' c2 = Ok (Some c2)).
  { intros c2 ws' we' hs' H2. unfold finish. by rewrite H2. }
  destruct ((0 <? requests_outstanding_ c0) && negb (abandon_outstanding_ c0) &&
            (0 <? timeout_ (config c0))) eqn:Ew.
  - set (cw := set_finish true true _ _ _ c0).
    destruct (finish_wait_ends hs cw Hhs (or_intror Hin)) as (c1 & E1 & Hk). rewrite E1. cbn.
    eexists c1, _. split; [reflexivity|]. split_and!; [| |by left|apply Hagain].
    + cbn. by destruct (0 <? requests_outstanding_ c1).
    + cbn. by destruct (0 <? requests_outstanding_ c1).
  - cbn. eexists c0, _. split; [reflexivity|]. split_and!; [| | |apply Hagain].
    + change (requests_outstanding_ c0) with (requests_outstanding_ c). by destruct (0 <? _).
    + change (requests_outstanding_ c0) with (requests_outstanding_ c). by destruct (0 <? _).
    + apply andb_false_iff in Ew as [Ew|Ew]; [|right; cbn in Ew; b2p; lia]. left.
      unfold keeps_waiting. apply andb_false_iff in Ew as [Ew|Ew]; rewrite Ew; cbn;
        [done|by rewrite andb_false_r].
Qed.

(** The wait does not oversleep: of what can end it, a request done, the
    timer and a cancellation, each asks the dispatcher to exit when it does. *)
Lemma finish_is_woken (c c' : client) :
  waiting_in_finish_ c = true -> keeps_waiting c = true -> keeps_waiting c' = false ->
  c' = onRequestDone c \/ c' = finish_timer c \/ c' = abandonOutstandingWork c ->
  dispatcher_exits c' = S (dispatcher_exits c).
Proof.
  intros Hw Hk Hk' [-> |[-> | ->]].
  - unfold keeps_waiting in Hk. apply andb_prop in Hk as [Hk Ha]. apply andb_prop in Hk as [Ho Ht].
    unfold onRequestDone in *. rewrite Ho in *.
    set (c1 := set_requests _ _ _ c) in *.
    change (waiting_in_finish_ c1) with (waiting_in_finish_ c) in *. rewrite Hw in *. cbn [andb] in *.
    destruct (requests_outstanding_ c1 =? 0) eqn:E; [done|]. exfalso.
    unfold keeps_waiting in Hk'. cbn in Hk', E. rewrite Ht, Ha in Hk'. rewrite !andb_true_r in Hk'.
    b2p. lia.
  - done.
  - unfold abandonOutstandingWork. cbn. by rewrite Hw.
Qed.

End Books.

(** ** A run *)

#[local] Existing Instance absl_documented.

Definition demo_config : ClientConfig := mkClientConfig Http11 30 1 0 100 true "" false.

Definition no_plugin_headers (h : option ResponseHeaders) (p : unit) : bool * unit := (true, p).

Definition no_plugin_data (d : string) (p : unit) : bool * unit := (true, p).

Definition demo_client : @BenchmarkClientHttpImpl unit := BenchmarkClientHttpImpl_new demo_config [].

(** One request, which fails to connect. *)
Definition demo_started : @BenchmarkClientHttpImpl unit :=
  snd (tryStartRequest 0 true (Some (mkRequest None "")) demo_client).

Definition demo_failed : @BenchmarkClientHttpImpl unit :=
  BenchmarkClientHttpImpl_onPoolFailure PoolRemoteConnectionFailure demo_started.

Definition demo_decoder : StreamDecoder := StreamDecoder_new 0 "" 0 false "".

Definition demo_decoder_failed : StreamDecoder :=
  decoder_done false false (set_response_flag FlagUpstreamConnectionFailure demo_decoder).

Lemma demo_failed_reachable :
  rtc (system_step no_plugin_headers no_plugin_data) (demo_client, [])
    (demo_failed, [(demo_decoder_failed, Over)]).
Proof.
  apply (rtc_l _ _ (demo_started, [(demo_decoder, InPool)])).
  - apply (sys_start _ _ 0 true (Some (mkRequest None "")) demo_client []); [cbn; lia|reflexivity].
  - apply rtc_once.
    change [(demo_decoder_failed, Over)] with
      (<[0%nat := (demo_decoder_failed, Over)]> [(demo_decoder, InPool)]).
    apply (sys_event _ _ 0 0 (PoolFailure PoolRemoteConnectionFailure) _ _ demo_decoder InPool);
      reflexivity.
Qed.

Lemma client_accounts_for_every_request_witness :
  balanced demo_failed /\ requests_outstanding_ demo_failed = 0 /\
  requests_outstanding_ demo_failed + pool_failures (counters demo_failed) <= 1.
Proof.
  destruct (client_accounts_for_every_request no_plugin_headers no_plugin_data demo_config []
              demo_failed _ ltac:(vm_compute; discriminate) demo_failed_reachable)
    as (Hb & Ho & _ & Hc).
  split; [exact Hb|]. split; [exact Ho|]. apply Hc. reflexivity.
Defined.

Lemma pool_failures_exhaust_capacity_witness :
  requests_outstanding_ demo_failed = 0 /\
  tryStartRequest 1000000 true (Some (mkRequest None "")) demo_failed = (None, demo_failed).
Proof.
  split; [reflexivity|]. apply pool_failures_exhaust_capacity.
  - split; cbn; (done || lia).
  - reflexivity.
  - vm_compute. discriminate.
Defined.

Lemma finish_ends_and_accounts_witness :
  exists c1 c' : @BenchmarkClientHttpImpl unit, finish 0 30000000000 [timer_fires] demo_started = Ok (Some c') /\
    http_inflight_lost_ (counters c') = 1 /\ requests_outstanding_ c' = requests_outstanding_ c1.
Proof.
  destruct (finish_ends_and_accounts 0 30000000000 [timer_fires] demo_started)
    as (c1 & c' & E & _ & Ho & _).
  - reflexivity.
  - constructor; [exact timer_fires_happens|constructor].
  - by left.
  - exists c1, c'. split; [exact E|]. split; [|exact Ho].
    vm_compute in E. injection E as <-. reflexivity.
Defined.

Lemma finish_is_woken_witness :
  let c := set_finish true true false false 0 demo_started in
  dispatcher_exits (onRequestDone c) = 1%nat.
Proof.
  apply (finish_is_woken (set_finish true true false false 0 demo_started));
    [reflexivity|reflexivity|reflexivity|by left].
Defined.

(** A response with a body. *)
Definition demo_headers : ResponseHeaders := mkHeaders 20 200 None (fun _ => []).

Lemma decoder_exactly_one_outcome_witness :
  exists e, last [PoolReady; Headers demo_headers false; Data "hi" true] = Some e /\
    outcome_of e = (true, true).
Proof.
  destruct (decoder_exactly_one_outcome
      (CB := BenchmarkClientHttpImpl_callbacks no_plugin_headers no_plugin_data)
      [(5, PoolReady); (9, Headers demo_headers false); (12, Data "hi" true)] 0 "" 0 true ""
      demo_started Over
      (mkDecoder "" 0 "" true 0 5 true (Some demo_headers) None (Some 200) 2 0 None
         [EncodedHeaders true] [(true, true)] 1)
      (match decoder_run (CB := BenchmarkClientHttpImpl_callbacks no_plugin_headers no_plugin_data)
               [(5, PoolReady); (9, Headers demo_headers false); (12, Data "hi" true)]
               (StreamDecoder_new 0 "" 0 true "") demo_started with
       | Ok p => snd p
       | _ => demo_started
       end) eq_refl ltac:(vm_compute; reflexivity)) as (e & El & Ec & _).
  exists e. split; [exact El|]. by injection Ec as Ec.
Defined.

Lemma streamResetReasonToString_injective_witness :
  streamResetReasonToString Overflow = "overflow"%string /\ Overflow = Overflow.
Proof. split; [reflexivity|]. apply streamResetReasonToString_injective. reflexivity. Defined.
