(* ===== verification/TcpClient.v ===== *)
(** * The TCP benchmark client

    Models [engine/source/client/tcp_benchmark_client_impl.{h,cc}]: a pool of
    connection slots that messages are written to round-robin, echoes matched
    in order, connections reopened with a backoff and rotated.

    Links are shared objects, reached from slots, timers and the callbacks of
    their connections: they live in a store, a link's place in it is its
    address, and slots hold addresses. A link let go of stays in the store,
    reached from no slot. What Envoy's connections do is explicit: whether one
    can be created, and whether closing with a flush ends at once, are
    arguments; everything a connection raises is an event. A connection closed
    without flushing raises its close event before the call returns, as the
    source relies on. Times are in nanoseconds. *)

From S2P Require Import Prelude.

(** ** Data *)

Inductive LinkState : Type := Connecting | Open | Retiring | Closed.

#[export] Instance LinkState_eq_dec : EqDecision LinkState.
Proof. solve_decision. Defined.

Inductive Role : Type := RoleActive | RoleStandby | RoleRetiring | RoleNone.

#[export] Instance Role_eq_dec : EqDecision Role.
Proof. solve_decision. Defined.

Inductive WaitingFor : Type := Nothing | Opens | Echoes.

Inductive CloseType : Type := NoFlush | FlushWrite.

(** The messages outstanding on a link, oldest first, by the time they were
    sent; the caller's callback of one is known by its number. *)
Record InflightMessage : Type := mkMessage { sent_at : Z; callback_id : nat }.

(** The timer's duration is in milliseconds. *)
Record Link : Type := mkLink {
  link_slot : nat;
  link_state : LinkState;
  link_initial : bool;
  initial_pending : bool;
  inflight : list InflightMessage;
  received : list Z;
  write_blocked : bool;
  sent : Z;
  connect_started : Z;
  link_timer : option Z;
}.

(** Links by address; the retry timer by its duration in milliseconds. *)
Record Slot : Type := mkSlot {
  active : option nat;
  standby : option nat;
  retiring : list nat;
  retry_timer : option Z;
  backoff : Z;
  last_retry : option Z;
}.

Record TcpCounters : Type := mkTcpCounters {
  tcp_connections_opened_ : Z;
  tcp_connect_failures_ : Z;
  tcp_reconnects_ : Z;
  tcp_connections_rotated_ : Z;
  tcp_messages_sent_ : Z;
  tcp_messages_received_ : Z;
  tcp_deferred_ : Z;
  tcp_unavailable_ : Z;
  tcp_connection_closed_ : Z;
  tcp_echo_mismatch_ : Z;
  tcp_inflight_lost_ : Z;
  tcp_drain_incomplete_ : Z;
  tcp_write_blocked_ : Z;
}.

Inductive tcp_counter : Type :=
| tcp_connections_opened | tcp_connect_failures | tcp_reconnects | tcp_connections_rotated
| tcp_messages_sent | tcp_messages_received | tcp_deferred | tcp_unavailable
| tcp_connection_closed | tcp_echo_mismatch | tcp_inflight_lost | tcp_drain_incomplete
| tcp_write_blocked.

Scheme Boolean Equality for tcp_counter.

Definition tcp_inc (n : tcp_counter) (k : TcpCounters) : TcpCounters :=
  let one m := if tcp_counter_beq n m then 1 else 0 in
  mkTcpCounters
    (tcp_connections_opened_ k + one tcp_connections_opened)
    (tcp_connect_failures_ k + one tcp_connect_failures)
    (tcp_reconnects_ k + one tcp_reconnects)
    (tcp_connections_rotated_ k + one tcp_connections_rotated)
    (tcp_messages_sent_ k + one tcp_messages_sent)
    (tcp_messages_received_ k + one tcp_messages_received)
    (tcp_deferred_ k + one tcp_deferred) (tcp_unavailable_ k + one tcp_unavailable)
    (tcp_connection_closed_ k + one tcp_connection_closed)
    (tcp_echo_mismatch_ k + one tcp_echo_mismatch) (tcp_inflight_lost_ k + one tcp_inflight_lost)
    (tcp_drain_incomplete_ k + one tcp_drain_incomplete)
    (tcp_write_blocked_ k + one tcp_write_blocked).

(** The durations: the drain in nanoseconds, the timeout in seconds. *)
Record TcpConfig : Type := mkTcpConfig {
  connection_count_ : nat;
  max_inflight_per_connection_ : nat;
  expect_echo_ : bool;
  drain_duration_ : Z;
  tcp_timeout_ : Z;
  max_messages_per_connection_ : Z;
  message_ : list Z;
}.

(** [callbacks_run] and [callbacks_posted]: the completion callbacks called, and
    posted to the dispatcher to be called, with their second argument. *)
Record TcpBenchmarkClientImpl : Type := mkTcp {
  tcp_config : TcpConfig;
  tcp_counters : TcpCounters;
  slots_ : list Slot;
  store : list Link;
  next_slot_ : nat;
  pending_opens_ : Z;
  tcp_measure_latencies_ : bool;
  waiting_for_ : WaitingFor;
  tcp_finished_ : bool;
  echo_mismatch_logged_ : bool;
  message_latency_statistic_ : list Z;
  connect_latency_statistic_ : list Z;
  callbacks_run : list (nat * bool);
  callbacks_posted : list (nat * bool);
  exits_requested : nat;
}.

Abbreviation tcp := TcpBenchmarkClientImpl.

(** Field updates. *)
Definition count (n : tcp_counter) (s : tcp) : tcp :=
  mkTcp (tcp_config s) (tcp_inc n (tcp_counters s)) (slots_ s) (store s) (next_slot_ s)
    (pending_opens_ s) (tcp_measure_latencies_ s) (waiting_for_ s) (tcp_finished_ s)
    (echo_mismatch_logged_ s) (message_latency_statistic_ s) (connect_latency_statistic_ s)
    (callbacks_run s) (callbacks_posted s) (exits_requested s).

Definition set_slots (v : list Slot) (s : tcp) : tcp :=
  mkTcp (tcp_config s) (tcp_counters s) v (store s) (next_slot_ s)
    (pending_opens_ s) (tcp_measure_latencies_ s) (waiting_for_ s) (tcp_finished_ s)
    (echo_mismatch_logged_ s) (message_latency_statistic_ s) (connect_latency_statistic_ s)
    (callbacks_run s) (callbacks_posted s) (exits_requested s).

Definition set_store (v : list Link) (s : tcp) : tcp :=
  mkTcp (tcp_config s) (tcp_counters s) (slots_ s) v (next_slot_ s)
    (pending_opens_ s) (tcp_measure_latencies_ s) (waiting_for_ s) (tcp_finished_ s)
    (echo_mismatch_logged_ s) (message_latency_statistic_ s) (connect_latency_statistic_ s)
    (callbacks_run s) (callbacks_posted s) (exits_requested s).

Definition set_pending (v : Z) (s : tcp) : tcp :=
  mkTcp (tcp_config s) (tcp_counters s) (slots_ s) (store s) (next_slot_ s)
    v (tcp_measure_latencies_ s) (waiting_for_ s) (tcp_finished_ s)
    (echo_mismatch_logged_ s) (message_latency_statistic_ s) (connect_latency_statistic_ s)
    (callbacks_run s) (callbacks_posted s) (exits_requested s).

Definition set_flow (next : nat) (w : WaitingFor) (finished logged : bool) (s : tcp) : tcp :=
  mkTcp (tcp_config s) (tcp_counters s) (slots_ s) (store s) next
    (pending_opens_ s) (tcp_measure_latencies_ s) w finished
    logged (message_latency_statistic_ s) (connect_latency_statistic_ s)
    (callbacks_run s) (callbacks_posted s) (exits_requested s).

Definition set_measure (v : bool) (s : tcp) : tcp :=
  mkTcp (tcp_config s) (tcp_counters s) (slots_ s) (store s) (next_slot_ s)
    (pending_opens_ s) v (waiting_for_ s) (tcp_finished_ s)
    (echo_mismatch_logged_ s) (message_latency_statistic_ s) (connect_latency_statistic_ s)
    (callbacks_run s) (callbacks_posted s) (exits_requested s).

Definition add_latencies (message connect : list Z) (s : tcp) : tcp :=
  mkTcp (tcp_config s) (tcp_counters s) (slots_ s) (store s) (next_slot_ s)
    (pending_opens_ s) (tcp_measure_latencies_ s) (waiting_for_ s) (tcp_finished_ s)
    (echo_mismatch_logged_ s) (message_latency_statistic_ s ++ message)
    (connect_latency_statistic_ s ++ connect) (callbacks_run s) (callbacks_posted s)
    (exits_requested s).

Definition call_back (run posted : list (nat * bool)) (s : tcp) : tcp :=
  mkTcp (tcp_config s) (tcp_counters s) (slots_ s) (store s) (next_slot_ s)
    (pending_opens_ s) (tcp_measure_latencies_ s) (waiting_for_ s) (tcp_finished_ s)
    (echo_mismatch_logged_ s) (message_latency_statistic_ s) (connect_latency_statistic_ s)
    (callbacks_run s ++ run) (callbacks_posted s ++ posted) (exits_requested s).

Definition tcp_exit (s : tcp) : tcp :=
  mkTcp (tcp_config s) (tcp_counters s) (slots_ s) (store s) (next_slot_ s)
    (pending_opens_ s) (tcp_measure_latencies_ s) (waiting_for_ s) (tcp_finished_ s)
    (echo_mismatch_logged_ s) (message_latency_statistic_ s) (connect_latency_statistic_ s)
    (callbacks_run s) (callbacks_posted s) (S (exits_requested s)).

(** The link at an address, and the slot of an index, changed in place. *)
Definition update_link (i : nat) (f : Link -> Link) (s : tcp) : tcp :=
  set_store (alter f i (store s)) s.

Definition update_slot (j : nat) (f : Slot -> Slot) (s : tcp) : tcp :=
  set_slots (alter f j (slots_ s)) s.

Definition link_with_state (st : LinkState) (l : Link) : Link :=
  mkLink (link_slot l) st (link_initial l) (initial_pending l) (inflight l) (received l)
    (write_blocked l) (sent l) (connect_started l) (link_timer l).

Definition link_with_timer (t : option Z) (l : Link) : Link :=
  mkLink (link_slot l) (link_state l) (link_initial l) (initial_pending l) (inflight l) (received l)
    (write_blocked l) (sent l) (connect_started l) t.

Definition link_with_inflight (q : list InflightMessage) (l : Link) : Link :=
  mkLink (link_slot l) (link_state l) (link_initial l) (initial_pending l) q (received l)
    (write_blocked l) (sent l) (connect_started l) (link_timer l).

Definition link_with_received (r : list Z) (l : Link) : Link :=
  mkLink (link_slot l) (link_state l) (link_initial l) (initial_pending l) (inflight l) r
    (write_blocked l) (sent l) (connect_started l) (link_timer l).

Definition link_attempt_done (l : Link) : Link :=
  mkLink (link_slot l) (link_state l) (link_initial l) false (inflight l) (received l)
    (write_blocked l) (sent l) (connect_started l) (link_timer l).

Definition link_blocked (b : bool) (l : Link) : Link :=
  mkLink (link_slot l) (link_state l) (link_initial l) (initial_pending l) (inflight l) (received l)
    b (sent l) (connect_started l) (link_timer l).

Definition link_count_sent (l : Link) : Link :=
  mkLink (link_slot l) (link_state l) (link_initial l) (initial_pending l) (inflight l) (received l)
    (write_blocked l) (u64 (sent l + 1)) (connect_started l) (link_timer l).

Definition slot_with_active (a : option nat) (l : Slot) : Slot :=
  mkSlot a (standby l) (retiring l) (retry_timer l) (backoff l) (last_retry l).

Definition slot_with_standby (a : option nat) (l : Slot) : Slot :=
  mkSlot (active l) a (retiring l) (retry_timer l) (backoff l) (last_retry l).

Definition slot_with_retiring (a : list nat) (l : Slot) : Slot :=
  mkSlot (active l) (standby l) a (retry_timer l) (backoff l) (last_retry l).

Definition slot_with_retry (t : option Z) (b : Z) (r : option Z) (l : Slot) : Slot :=
  mkSlot (active l) (standby l) (retiring l) t b r.

Definition slot_with_retry_timer (t : option Z) (l : Slot) : Slot :=
  mkSlot (active l) (standby l) (retiring l) t (backoff l) (last_retry l).

#[export] Instance Link_inhabited : Inhabited Link :=
  populate (mkLink 0 Closed false false [] [] false 0 0 None).

#[export] Instance Slot_inhabited : Inhabited Slot :=
  populate (mkSlot None None [] None 0 None).

Definition link_at (s : tcp) (i : nat) : Link := store s !!! i.

Definition slot_at (s : tcp) (j : nat) : Slot := slots_ s !!! j.

Definition is_link (o : option nat) (i : nat) : bool :=
  match o with Some k => (k =? i)%nat | None => false end.

(** ** The slots and their links *)

(** In milliseconds. *)
Definition InitialBackoff : Z := 10.

Definition MaxBackoff : Z := 1000.

(** In nanoseconds. *)
Definition BackoffStartsOverAfter : Z := 2 * MaxBackoff * 1000000.

(** What the event loop and the connections do during one call: the reading of
    the clock, and the links whose flush, if they are closed with one, ends at
    once. *)
Record Env : Type := mkEnv { now : Z; flushed : nat -> bool }.

Definition slot_links (sl : Slot) : list nat :=
  option_list (active sl) ++ option_list (standby sl) ++ retiring sl.

Definition links (s : tcp) : list nat := slots_ s ≫= slot_links.

Definition no_inflight (l : Link) : bool :=
  match inflight l with [] => true | _ => false end.

Definition anyInflight (s : tcp) : bool :=
  existsb (fun i => negb (no_inflight (link_at s i))) (links s).

Definition maybeExitWaitLoop (s : tcp) : tcp :=
  match waiting_for_ s with
  | Opens => if pending_opens_ s =? 0 then tcp_exit s else s
  | Echoes => if anyInflight s then s else tcp_exit s
  | Nothing => s
  end.

Definition openConnections (s : tcp) : nat :=
  length (List.filter (fun sl => match active sl with
                                 | Some i => bool_decide (link_state (link_at s i) = Open)
                                 | None => false
                                 end) (slots_ s)).

Definition rotationDue (s : tcp) (l : Link) : bool :=
  (0 <? max_messages_per_connection_ (tcp_config s)) &&
  (max_messages_per_connection_ (tcp_config s) <=? sent l).

Definition scheduleRetry (e : Env) (slot_index : nat) (s : tcp) : tcp :=
  let slot := slot_at s slot_index in
  if tcp_finished_ s || bool_decide (is_Some (retry_timer slot)) then s
  else
    let b := match last_retry slot with
             | Some t => if BackoffStartsOverAfter <=? now e - t then InitialBackoff else backoff slot
             | None => backoff slot
             end in
    update_slot slot_index
      (slot_with_retry (Some b) (Z.min (b * 2) MaxBackoff) (last_retry slot)) s.

Definition initialAttemptDone (i : nat) (s : tcp) : tcp :=
  if initial_pending (link_at s i) then
    set_pending (pending_opens_ s - 1) (update_link i link_attempt_done s)
  else s.

(** One turn per message outstanding. *)
Fixpoint completeInflight_loop (q : list InflightMessage) (success : bool) (i : nat) (s : tcp) : tcp :=
  match q with
  | [] => s
  | m :: q =>
      let s := update_link i (link_with_inflight q) s in
      let s := if success then s else count tcp_inflight_lost s in
      completeInflight_loop q success i (call_back [(callback_id m, success)] [] s)
  end.

Definition completeInflight (i : nat) (success : bool) (s : tcp) : tcp :=
  completeInflight_loop (inflight (link_at s i)) success i s.

Fixpoint erase_first (i : nat) (l : list nat) : list nat :=
  match l with
  | [] => []
  | k :: l => if (k =? i)%nat then l else k :: erase_first i l
  end.

Definition release (i : nat) (s : tcp) : Role * tcp :=
  let j := link_slot (link_at s i) in
  let slot := slot_at s j in
  if is_link (active slot) i then (RoleActive, update_slot j (slot_with_active None) s)
  else if is_link (standby slot) i then (RoleStandby, update_slot j (slot_with_standby None) s)
  else if existsb (fun k => (k =? i)%nat) (retiring slot) then
    (RoleRetiring, update_slot j (slot_with_retiring (erase_first i (retiring slot))) s)
  else (RoleNone, s).

(** ** What connections and timers raise *)

Inductive ConnectionEvent : Type := Connected | ConnectedZeroRtt | RemoteClose | LocalClose.

(** The link closed: [link.state = Closed], its timer disabled, the initial
    attempt over. *)
Definition link_closed (i : nat) (s : tcp) : tcp :=
  initialAttemptDone i (update_link i (fun l => link_with_timer None (link_with_state Closed l)) s).

(** [onEvent] on [RemoteClose] and [LocalClose]. *)
Definition onEvent_close (e : Env) (i : nat) (s : tcp) : tcp :=
  let previous := link_state (link_at s i) in
  let s := link_closed i s in
  let s := match previous with
           | Connecting => count tcp_connect_failures s
           | Open | Retiring => count tcp_connection_closed s
           | Closed => s
           end in
  let s := completeInflight i false s in
  let (role, s) := release i s in
  let s := match previous, role with
           | Closed, _ => s
           | _, (RoleActive | RoleStandby) => scheduleRetry e (link_slot (link_at s i)) s
           | _, _ => s
           end in
  maybeExitWaitLoop s.

(** A close without a flush raises the close event before it returns. *)
Definition closeLink (e : Env) (type : CloseType) (i : nat) (s : tcp) : tcp :=
  match link_state (link_at s i) with
  | Closed => s
  | _ =>
      let s := completeInflight i false (link_closed i s) in
      match type with
      | NoFlush => onEvent_close e i s
      | FlushWrite => if flushed e i then onEvent_close e i s else s
      end
  end.

Definition promote (e : Env) (j : nat) (s : tcp) : tcp :=
  let slot := slot_at s j in
  let s := update_slot j (fun sl => slot_with_retry_timer None
                                      (slot_with_standby None (slot_with_active (standby sl) sl))) s in
  match active slot with
  | None => count tcp_reconnects s
  | Some r =>
      let s := count tcp_connections_rotated s in
      let s := update_slot j (fun sl => slot_with_retiring (retiring sl ++ [r]) sl) s in
      match link_state (link_at s r) with
      | Open =>
          let s := update_link r (link_with_state Retiring) s in
          if no_inflight (link_at s r) then closeLink e FlushWrite r s
          else update_link r (link_with_timer (Some (tcp_timeout_ (tcp_config s) * 1000))) s
      | _ => s
      end
  end.

Definition onEvent (e : Env) (i : nat) (event : ConnectionEvent) (s : tcp) : tcp :=
  match event with
  | Connected =>
      match link_state (link_at s i) with
      | Connecting =>
          let link := link_at s i in
          let j := link_slot link in
          let s := update_link i (fun l => link_with_timer None (link_with_state Open l)) s in
          let s := count tcp_connections_opened s in
          let s := add_latencies [] [now e - connect_started link] s in
          let s := initialAttemptDone i s in
          let s := if is_link (standby (slot_at s j)) i then promote e j s
                   else if link_initial link then s
                   else count tcp_reconnects s in
          maybeExitWaitLoop s
      | _ => s
      end
  | ConnectedZeroRtt => s
  | RemoteClose | LocalClose => onEvent_close e i s
  end.

Definition onTimer (e : Env) (i : nat) (s : tcp) : tcp :=
  match link_state (link_at s i) with
  | Connecting =>
      let slot_index := link_slot (link_at s i) in
      maybeExitWaitLoop (scheduleRetry e slot_index (closeLink e NoFlush i (count tcp_connect_failures s)))
  | Retiring => closeLink e NoFlush i s
  | _ => s
  end.

Definition onWriteBlocked (i : nat) (blocked : bool) (s : tcp) : tcp :=
  let s := if blocked && negb (write_blocked (link_at s i)) then count tcp_write_blocked s else s in
  update_link i (link_blocked blocked) s.

(** ** Opening connections *)

(** What creating a connection and connecting it do: there is no connection to
    create ([None]), or there is, and [connect()] raises an event before it
    returns, or none. *)
Definition Connect : Type := option (option ConnectionEvent).

Definition open_link (e : Env) (s : tcp) (slot_index : nat) (initial : bool) : Link :=
  mkLink slot_index Connecting initial initial [] [] false 0 (now e)
    (Some (tcp_timeout_ (tcp_config s) * 1000)).

Definition open (e : Env) (c : Connect) (slot_index : nat) (role : Role) (initial : bool) (s : tcp) : tcp :=
  match c with
  | None => scheduleRetry e slot_index (count tcp_connect_failures s)
  | Some raised =>
      let i := length (store s) in
      let s := set_store (store s ++ [open_link e s slot_index initial]) s in
      let s := if initial then set_pending (pending_opens_ s + 1) s else s in
      let s := update_slot slot_index
                 (match role with
                  | RoleStandby => slot_with_standby (Some i)
                  | _ => slot_with_active (Some i)
                  end) s in
      match raised with
      | Some event => onEvent e i event s
      | None => s
      end
  end.

Definition connectNext (e : Env) (c : Connect) (slot_index : nat) (s : tcp) : tcp :=
  let slot := slot_at s slot_index in
  if tcp_finished_ s then s
  else
    match active slot, standby slot with
    | None, None => open e c slot_index RoleActive false s
    | None, Some _ => s
    | Some a, None =>
        match link_state (link_at s a) with
        | Open => if rotationDue s (link_at s a) then open e c slot_index RoleStandby false s else s
        | _ => s
        end
    | Some _, Some _ => s
    end.

(** The callback of a slot's retry timer. *)
Definition retry_timer_fires (e : Env) (c : Connect) (j : nat) (s : tcp) : tcp :=
  connectNext e c j
    (update_slot j (fun sl => slot_with_retry None (backoff sl) (Some (now e)) sl) s).

Definition slot_init : Slot := mkSlot None None [] None InitialBackoff None.

Definition tcp_counters_init : TcpCounters := mkTcpCounters 0 0 0 0 0 0 0 0 0 0 0 0 0.

(** The constructor; the message is set by [prepare]. *)
Definition TcpBenchmarkClientImpl_new (cfg : TcpConfig) : outcome tcp :=
  if (connection_count_ cfg =? 0)%nat then Panic "at least one connection is required"
  else if (max_inflight_per_connection_ cfg =? 0)%nat then
    Panic "max_inflight_per_connection must be positive"
  else
    Ok (mkTcp cfg tcp_counters_init (replicate (connection_count_ cfg) slot_init) [] 0 0 false
          Nothing false false [] [] [] [] 0).

Definition set_message (m : list Z) (s : tcp) : tcp :=
  let cfg := tcp_config s in
  mkTcp (mkTcpConfig (connection_count_ cfg) (max_inflight_per_connection_ cfg) (expect_echo_ cfg)
           (drain_duration_ cfg) (tcp_timeout_ cfg) (max_messages_per_connection_ cfg) m)
    (tcp_counters s) (slots_ s) (store s) (next_slot_ s)
    (pending_opens_ s) (tcp_measure_latencies_ s) (waiting_for_ s) (tcp_finished_ s)
    (echo_mismatch_logged_ s) (message_latency_statistic_ s) (connect_latency_statistic_ s)
    (callbacks_run s) (callbacks_posted s) (exits_requested s).

Definition set_waiting (w : WaitingFor) (s : tcp) : tcp :=
  set_flow (next_slot_ s) w (tcp_finished_ s) (echo_mismatch_logged_ s) s.

(** The opens of [prepare], the slots in order. *)
Fixpoint prepare_opens (e : nat -> Env) (c : nat -> Connect) (todo : list nat) (s : tcp) : tcp :=
  match todo with
  | [] => s
  | j :: todo => prepare_opens e c todo (open (e j) (c j) j RoleActive true s)
  end.

(** [prepare] up to the event loop it runs; the loop's events are steps, and
    [prepare_end] follows when it is exited. *)
Definition prepare (e : nat -> Env) (c : nat -> Connect) (request : option (list Z)) (s : tcp) :
    outcome tcp :=
  match request with
  | None => Panic "the request source did not yield a request"
  | Some body =>
      if expect_echo_ (tcp_config s) && (length body =? 0)%nat then
        Panic "an echoed TCP message cannot be empty: its bytes are what the echo is matched by"
      else
        let s := set_message body s in
        let s := prepare_opens e c (seq 0 (connection_count_ (tcp_config s))) s in
        Ok (if 0 <? pending_opens_ s then set_waiting Opens s else s)
  end.

Definition prepare_end (s : tcp) : tcp := set_waiting Nothing s.

(** ** Messages *)

Definition TcpBenchmarkClientImpl_tryStartRequest (e : Env) (c : Connect) (cb : nat) (s : tcp) : tcp :=
  let slot_index := next_slot_ s in
  let s := set_flow ((next_slot_ s + 1) mod connection_count_ (tcp_config s))%nat (waiting_for_ s)
             (tcp_finished_ s) (echo_mismatch_logged_ s) s in
  let slot := slot_at s slot_index in
  let unavailable := call_back [] [(cb, false)] (count tcp_unavailable s) in
  match active slot with
  | None => unavailable
  | Some i =>
      let link := link_at s i in
      match link_state link with
      | Open =>
          if write_blocked link ||
             (max_inflight_per_connection_ (tcp_config s) <=? length (inflight link))%nat
          then call_back [] [(cb, false)] (count tcp_deferred s)
          else
            let s := if expect_echo_ (tcp_config s)
                     then update_link i (link_with_inflight (inflight link ++ [mkMessage (now e) cb])) s
                     else s in
            let s := count tcp_messages_sent (update_link i link_count_sent s) in
            let s := if expect_echo_ (tcp_config s) then s else call_back [] [(cb, true)] s in
            if rotationDue s (link_at s i) && negb (bool_decide (is_Some (retry_timer (slot_at s slot_index))))
            then connectNext e c slot_index s
            else s
      | _ => unavailable
      end
  end.

Definition onEchoMismatch (e : Env) (i : nat) (s : tcp) : tcp :=
  let s := count tcp_echo_mismatch s in
  let s := set_flow (next_slot_ s) (waiting_for_ s) (tcp_finished_ s) true s in
  let slot_index := link_slot (link_at s i) in
  let act := is_link (active (slot_at s slot_index)) i in
  let s := closeLink e NoFlush i s in
  let s := if act then scheduleRetry e slot_index s else s in
  maybeExitWaitLoop s.

Definition onEcho (e : Env) (i : nat) (bytes : list Z) (s : tcp) : tcp :=
  match inflight (link_at s i) with
  | [] => onEchoMismatch e i s
  | m :: rest =>
      if negb (bool_decide (bytes = message_ (tcp_config s))) then onEchoMismatch e i s
      else
        let s := update_link i (link_with_inflight rest) s in
        let s := count tcp_messages_received s in
        let s := if tcp_measure_latencies_ s then add_latencies [now e - sent_at m] [] s else s in
        let s := call_back [(callback_id m, true)] [] s in
        let s := match link_state (link_at s i), rest with
                 | Retiring, [] => closeLink e FlushWrite i s
                 | _, _ => s
                 end in
        maybeExitWaitLoop s
  end.

Definition carries_echoes (l : Link) : bool :=
  match link_state l with Open | Retiring => true | _ => false end.

(** The loop of [onData]. The environment of an echo is known by the fuel left,
    so that each has its own reading of the clock. *)
Fixpoint onData_loop (fuel : nat) (e : nat -> Env) (i : nat) (s : tcp) : tcp :=
  match fuel with
  | O => s
  | S fuel =>
      let size := length (message_ (tcp_config s)) in
      let r := received (link_at s i) in
      if (size <=? length r)%nat && carries_echoes (link_at s i) then
        onData_loop fuel e i
          (onEcho (e fuel) i (take size r) (update_link i (link_with_received (drop size r)) s))
      else s
  end.

(** Enough fuel when the message is not empty: a turn takes a message's worth
    of bytes. *)
Definition onData_fuel (l : Link) (data : list Z) : nat := S (length (received l) + length data).

Definition onData (e : nat -> Env) (i : nat) (data : list Z) (s : tcp) : tcp :=
  let l := link_at s i in
  if negb (expect_echo_ (tcp_config s)) || negb (carries_echoes l) then s
  else onData_loop (onData_fuel l data) e i (update_link i (link_with_received (received l ++ data)) s).

(** ** Finishing *)

Definition close_connecting (e : Env) (s : tcp) (i : nat) : tcp :=
  match link_state (link_at s i) with
  | Connecting => closeLink e NoFlush i s
  | _ => s
  end.

Definition drain_link (e : Env) (s : tcp) (i : nat) : tcp :=
  let s := if no_inflight (link_at s i) then s else count tcp_drain_incomplete s in
  closeLink e FlushWrite i s.

(** What [finish] does last. *)
Definition finish_close (e : Env) (s : tcp) : tcp := foldl (drain_link e) s (links s).

(** [finish] up to the event loop it runs; [true]: the loop is run, and
    [finish_end] follows when it is exited. [false]: it has returned. *)
Definition TcpBenchmarkClientImpl_finish (e : Env) (s : tcp) : bool * tcp :=
  if tcp_finished_ s then (false, s)
  else
    let s := set_flow (next_slot_ s) (waiting_for_ s) true (echo_mismatch_logged_ s) s in
    let s := set_slots (map (slot_with_retry_timer None) (slots_ s)) s in
    let s := foldl (close_connecting e) s (links s) in
    if anyInflight s then (true, set_waiting Echoes s) else (false, finish_close e s).

Definition finish_end (e : Env) (s : tcp) : tcp := finish_close e (set_waiting Nothing s).

(** [terminate] after its [finish]. *)
Definition terminate_close (e : Env) (s : tcp) : tcp :=
  let s := set_measure false s in
  foldl (fun s i => onEvent_close e i s) s (links s).

Definition TcpBenchmarkClientImpl_terminate (e : Env) (s : tcp) : bool * tcp :=
  match TcpBenchmarkClientImpl_finish e s with
  | (true, s) => (true, s)
  | (false, s) => (false, terminate_close e s)
  end.

(** ** Executions

    The links' events may come at any time, also on links let go of; a timer
    fires only when it is armed, which disarms it. A request carries the number
    of its callback. *)

Inductive tcp_step : tcp -> list nat -> tcp -> Prop :=
| step_event e i ev s :
    (i < length (store s))%nat -> tcp_step s [] (onEvent e i ev s)
| step_data e i data s :
    (i < length (store s))%nat -> tcp_step s [] (onData e i data s)
| step_write_blocked i b s :
    (i < length (store s))%nat -> tcp_step s [] (onWriteBlocked i b s)
| step_link_timer e i s :
    (i < length (store s))%nat -> is_Some (link_timer (link_at s i)) ->
    tcp_step s [] (onTimer e i (update_link i (link_with_timer None) s))
| step_retry_timer e c j s :
    (j < length (slots_ s))%nat -> is_Some (retry_timer (slot_at s j)) ->
    tcp_step s [] (retry_timer_fires e c j s)
| step_request e c cb s :
    tcp_step s [cb] (TcpBenchmarkClientImpl_tryStartRequest e c cb s)
| step_measure b s :
    tcp_step s [] (set_measure b s)
| step_prepared s :
    waiting_for_ s = Opens -> tcp_step s [] (prepare_end s)
| step_finish e s :
    waiting_for_ s = Nothing -> tcp_step s [] (snd (TcpBenchmarkClientImpl_finish e s))
| step_finish_end e s :
    waiting_for_ s = Echoes -> tcp_step s [] (finish_end e s)
| step_terminate e s :
    waiting_for_ s = Nothing -> tcp_step s [] (snd (TcpBenchmarkClientImpl_terminate e s)).

(** Reachable after the requests with these callbacks, the latest last. *)
Inductive tcp_reachable (cfg : TcpConfig) : list nat -> tcp -> Prop :=
| tcp_prepared e c request s0 s :
    TcpBenchmarkClientImpl_new cfg = Ok s0 -> prepare e c request s0 = Ok s ->
    tcp_reachable cfg [] s
| tcp_steps started s l s' :
    tcp_reachable cfg started s -> tcp_step s l s' -> tcp_reachable cfg (started ++ l) s'.
