(* ===== verification/TcpClientProofs.v ===== *)
(** * The TCP benchmark client: its accounting and its life cycle

    Invariants of every execution of [TcpClient.v]: what becomes of each
    message and of its callback, the window and the slots of the links, the wait
    loops of [prepare] and [finish], and the matching of echoes. *)

From S2P Require Import Prelude TcpClient.

(** ** The books

    The callbacks of the messages outstanding, over all links. *)

Definition outstanding (s : tcp) : list nat :=
  store s ≫= (fun l => callback_id <$> inflight l).

Arguments outstanding : simpl never.

Arguments slot_links : simpl never.

(** Each callback is called once, posted once or outstanding; the counters say
    how often each happened. *)
Record message_books (started : list nat) (s : tcp) : Prop := {
  mb_callbacks :
    started ≡ₚ (fst <$> callbacks_run s) ++ (fst <$> callbacks_posted s) ++ outstanding s;
  mb_received : successes (callbacks_run s) = tcp_messages_received_ (tcp_counters s);
  mb_lost : failures (callbacks_run s) = tcp_inflight_lost_ (tcp_counters s);
  mb_refused : failures (callbacks_posted s) =
    tcp_unavailable_ (tcp_counters s) + tcp_deferred_ (tcp_counters s);
  mb_sent : tcp_messages_sent_ (tcp_counters s) =
    if expect_echo_ (tcp_config s)
    then tcp_messages_received_ (tcp_counters s) + tcp_inflight_lost_ (tcp_counters s) +
         Z.of_nat (length (outstanding s))
    else successes (callbacks_posted s);
  mb_posted : expect_echo_ (tcp_config s) = true -> successes (callbacks_posted s) = 0;
  mb_untracked : expect_echo_ (tcp_config s) = false -> outstanding s = [];
}.

(** The counters the books are about. *)
Definition message_counter (n : tcp_counter) : bool :=
  match n with
  | tcp_messages_sent | tcp_messages_received | tcp_deferred | tcp_unavailable
  | tcp_inflight_lost => true
  | _ => false
  end.

Lemma outstanding_update_link i g s :
  (forall l, inflight (g l) = inflight l) -> outstanding (update_link i g s) = outstanding s.
Proof. intros H. apply bind_alter_same. intros l. by rewrite H. Qed.

(** *** Changes that are not about messages *)

Create HintDb books.

Lemma books_update_link started i g s :
  (forall l, inflight (g l) = inflight l) ->
  message_books started s -> message_books started (update_link i g s).
Proof.
  intros H [? ? ? ? ? ? ?]. pose proof (outstanding_update_link i g s H) as E.
  split; rewrite ?E; done.
Qed.

Lemma books_update_slot started j g s :
  message_books started s -> message_books started (update_slot j g s).
Proof. intros []. split; done. Qed.

Lemma books_set_slots started v s :
  message_books started s -> message_books started (set_slots v s).
Proof. intros []. split; done. Qed.

Lemma books_count started n s :
  message_counter n = false -> message_books started s -> message_books started (count n s).
Proof.
  intros Hn [? ? ? ? ? ? ?]. destruct n; try discriminate Hn; split; cbn; rewrite ?Z.add_0_r; done.
Qed.

Lemma books_set_pending started v s :
  message_books started s -> message_books started (set_pending v s).
Proof. intros []. split; done. Qed.

Lemma books_set_flow started a b c d s :
  message_books started s -> message_books started (set_flow a b c d s).
Proof. intros []. split; done. Qed.

Lemma books_set_measure started v s :
  message_books started s -> message_books started (set_measure v s).
Proof. intros []. split; done. Qed.

Lemma books_add_latencies started a b s :
  message_books started s -> message_books started (add_latencies a b s).
Proof. intros []. split; done. Qed.

Lemma books_exit started s : message_books started s -> message_books started (tcp_exit s).
Proof. intros []. split; done. Qed.

Lemma books_set_waiting started w s :
  message_books started s -> message_books started (set_waiting w s).
Proof. intros []. split; done. Qed.

#[export] Hint Resolve books_update_link books_update_slot books_set_slots books_count
  books_set_pending books_set_flow books_set_measure books_add_latencies books_exit
  books_set_waiting : books.

(** A new link has nothing outstanding. *)
Lemma books_new_link started l s :
  inflight l = [] ->
  message_books started s -> message_books started (set_store (store s ++ [l]) s).
Proof.
  intros Hl [? ? ? ? ? ? ?].
  assert (outstanding (set_store (store s ++ [l]) s) = outstanding s) as Ho.
  { unfold outstanding; cbn. rewrite bind_app. cbn. by rewrite Hl, !app_nil_r. }
  split; rewrite ?Ho; done.
Qed.

(** *** The fate of one message *)

(** The oldest message of a link is done with, one way or the other. *)
Lemma books_complete started i m q b s :
  store s !! i ≫= (fun l => Some (inflight l)) = Some (m :: q) ->
  message_books started s ->
  message_books started
    (call_back [(callback_id m, b)] []
       (count (if b then tcp_messages_received else tcp_inflight_lost)
          (update_link i (link_with_inflight q) s))).
Proof.
  intros Hi [Hc Hr Hl Hf Hs Hp Hu].
  destruct (store s !! i) as [l|] eqn:El; cbn in Hi; [|done]. injection Hi as Hi.
  assert (outstanding s ≡ₚ callback_id m :: outstanding (update_link i (link_with_inflight q) s))
    as Ho.
  { pose proof (bind_alter_perm (fun l => callback_id <$> inflight l) (link_with_inflight q)
                  i (store s) l El) as Hb.
    cbn beta in Hb. rewrite Hi in Hb. cbn in Hb.
    unfold outstanding. cbn.
    apply (Permutation_app_inv_l (callback_id <$> q)). rewrite <- Hb. solve_Permutation. }
  assert (expect_echo_ (tcp_config s) = true) as He.
  { destruct (expect_echo_ (tcp_config s)) eqn:E; [done|].
    rewrite Hu in Ho by done. by apply Permutation_nil_cons in Ho. }
  pose proof (Permutation_length Ho) as Hlen. cbn [length] in Hlen.
  set (s1 := update_link i (link_with_inflight q) s) in *. rewrite He in Hs.
  assert (outstanding s1 = outstanding (call_back [(callback_id m, b)] []
            (count (if b then tcp_messages_received else tcp_inflight_lost) s1))) as Eo by done.
  split; rewrite <- ?Eo; destruct b; cbn; 
    rewrite ?app_nil_r, ?fmap_app, ?successes_app, ?failures_app, ?successes_one, ?failures_one, ?He;
    cbn; try (intros; apply Hp, He); try congruence; try lia.
  all: rewrite Ho in Hc; rewrite Hc; solve_Permutation.
Qed.

Lemma books_complete_loop started q b i s :
  b = false ->
  store s !! i ≫= (fun l => Some (inflight l)) = Some q ->
  message_books started s -> message_books started (completeInflight_loop q b i s).
Proof.
  intros ->. revert s. induction q as [|m q IH]; intros s Hi Hb; cbn; [done|].
  apply IH.
  - revert Hi. cbn. rewrite list_lookup_alter_eq. by destruct (store s !! i).
  - by apply (books_complete started i m q false).
Qed.

Lemma books_completeInflight started i s :
  (i < length (store s))%nat ->
  message_books started s -> message_books started (completeInflight i false s).
Proof.
  intros [l Hl]%lookup_lt_is_Some_2 Hb. apply books_complete_loop; [done| |done].
  unfold link_at. by rewrite Hl, (list_lookup_total_correct _ _ _ Hl).
Qed.

(** A message not sent is posted its failure. *)
Lemma books_refused started cb n s :
  n = tcp_unavailable \/ n = tcp_deferred ->
  message_books started s ->
  message_books (started ++ [cb]) (call_back [] [(cb, false)] (count n s)).
Proof.
  intros Hn [Hc Hr Hl Hf Hs Hp Hu].
  assert (outstanding (call_back [] [(cb, false)] (count n s)) = outstanding s) as Eo by done.
  split; rewrite ?Eo; destruct Hn as [-> | ->]; cbn;
    rewrite ?app_nil_r, ?fmap_app, ?successes_app, ?failures_app, ?successes_one, ?failures_one;
    cbn; try (intros; rewrite Hp by done); try done; try (destruct expect_echo_; lia).
  all: rewrite Hc; solve_Permutation.
Qed.

(** A message sent is outstanding on its link, or, when no echo is expected,
    posted its success. *)
Lemma books_sent_echo started cb t i s :
  expect_echo_ (tcp_config s) = true -> (i < length (store s))%nat ->
  message_books started s ->
  message_books (started ++ [cb])
    (count tcp_messages_sent (update_link i link_count_sent
       (update_link i (link_with_inflight (inflight (link_at s i) ++ [mkMessage t cb])) s))).
Proof.
  intros He [l Hi]%lookup_lt_is_Some_2 [Hc Hr Hl Hf Hs Hp Hu].
  unfold link_at. rewrite (list_lookup_total_correct _ _ _ Hi).
  set (s1 := update_link i (link_with_inflight _) s).
  assert (outstanding s1 ≡ₚ cb :: outstanding s) as Ho.
  { pose proof (bind_alter_perm (fun l => callback_id <$> inflight l)
                  (link_with_inflight (inflight l ++ [mkMessage t cb])) i (store s) l Hi) as Hb.
    cbn beta in Hb. cbn [inflight link_with_inflight] in Hb. rewrite fmap_app in Hb.
    apply (Permutation_app_inv_l (callback_id <$> inflight l)).
    unfold outstanding. cbn [s1 update_link set_store store]. rewrite Hb. solve_Permutation. }
  assert (outstanding (count tcp_messages_sent (update_link i link_count_sent s1)) = outstanding s1)
    as Eo by (by apply (outstanding_update_link i link_count_sent s1)).
  pose proof (Permutation_length Ho) as Hlen. cbn [length] in Hlen. rewrite He in Hs.
  split; rewrite ?Eo; cbn; rewrite ?He; try done; try lia; try congruence.
  - rewrite Ho, Hc. solve_Permutation.
  - intros _. by apply Hp.
Qed.

Lemma books_sent_no_echo started cb i s :
  expect_echo_ (tcp_config s) = false ->
  message_books started s ->
  message_books (started ++ [cb])
    (call_back [] [(cb, true)] (count tcp_messages_sent (update_link i link_count_sent s))).
Proof.
  intros He [Hc Hr Hl Hf Hs Hp Hu].
  assert (outstanding (call_back [] [(cb, true)] (count tcp_messages_sent
            (update_link i link_count_sent s))) = outstanding s) as Eo
    by (by apply (outstanding_update_link i link_count_sent s)).
  rewrite He in Hs.
  split; rewrite ?Eo; cbn; rewrite ?app_nil_r, ?fmap_app, ?successes_app, ?failures_app,
    ?successes_one, ?failures_one, ?He; cbn; try done; try lia.
  - rewrite Hc. solve_Permutation.
  - intros _. by apply Hu.
Qed.

(** ** The slots and the links *)

Record link_ok (cfg : TcpConfig) (slots : list Slot) (i : nat) (l : Link) : Prop := {
  lk_window : (length (inflight l) <= max_inflight_per_connection_ cfg)%nat;
  lk_closed : link_state l = Closed -> inflight l = [];
  lk_connecting : link_state l = Connecting -> inflight l = [] /\ is_Some (link_timer l);
  lk_pending : initial_pending l = true -> link_state l = Connecting /\ link_initial l = true;
  lk_held : link_state l <> Closed ->
    exists sl, slots !! link_slot l = Some sl /\ i ∈ slot_links sl;
}.

Record slot_ok (store : list Link) (j : nat) (sl : Slot) : Prop := {
  sk_links : forall i, i ∈ slot_links sl -> exists l, store !! i = Some l /\ link_slot l = j;
  sk_backoff : InitialBackoff <= backoff sl <= MaxBackoff;
  sk_timer : forall t, retry_timer sl = Some t -> InitialBackoff <= t <= MaxBackoff;
}.

Definition initial_pending_links (st : list Link) : nat := length (List.filter initial_pending st).

Record pool_ok (cfg : TcpConfig) (slots : list Slot) (st : list Link) (pending : Z) (next : nat) :
    Prop := {
  pk_slots : length slots = connection_count_ cfg;
  pk_next : (next < connection_count_ cfg)%nat;
  pk_links : forall i l, st !! i = Some l -> link_ok cfg slots i l;
  pk_held : forall j sl, slots !! j = Some sl -> slot_ok st j sl;
  pk_pending : pending = Z.of_nat (initial_pending_links st);
}.

Definition tcp_wf (s : tcp) : Prop :=
  pool_ok (tcp_config s) (slots_ s) (store s) (pending_opens_ s) (next_slot_ s).

(** A link changed in place: its slot stays, and what is left to check is the
    link itself. *)
Lemma pool_alter_link cfg slots st pending next i l g :
  pool_ok cfg slots st pending next -> st !! i = Some l ->
  link_slot (g l) = link_slot l -> link_ok cfg slots i (g l) ->
  pool_ok cfg slots (alter g i st) (pending - Z.b2z (initial_pending l) + Z.b2z (initial_pending (g l))) next.
Proof.
  intros [H1 H2 H3 H4 H5] Hi Hs Hl. split; [done|done| | |].
  - intros k l' Hk. destruct (decide (k = i)) as [-> | Hne].
    + rewrite list_lookup_alter_eq, Hi in Hk. by injection Hk as <-.
    + rewrite list_lookup_alter_ne in Hk by done. by apply H3.
  - intros j sl Hj. destruct (H4 j sl Hj) as [Ha Hb Hc]. split; [|done|done].
    intros k Hk. destruct (Ha k Hk) as (l' & Hl' & Hj'). destruct (decide (k = i)) as [-> | Hne].
    + exists (g l). rewrite list_lookup_alter_eq, Hi. cbn. split; [done|].
      rewrite Hi in Hl'. injection Hl' as ->. by rewrite Hs.
    + exists l'. by rewrite list_lookup_alter_ne.
  - unfold initial_pending_links in *. rewrite (filter_alter_length _ _ _ _ _ Hi). lia.
Qed.

(** A slot changed in place: it may let go of closed links only. *)
Lemma pool_alter_slot cfg slots st pending next j g :
  pool_ok cfg slots st pending next ->
  (forall sl, slots !! j = Some sl ->
     slot_ok st j (g sl) /\
     forall i l, st !! i = Some l -> link_state l <> Closed -> i ∈ slot_links sl ->
                 i ∈ slot_links (g sl)) ->
  pool_ok cfg (alter g j slots) st pending next.
Proof.
  intros [H1 H2 H3 H4 H5] Hg. split; [by rewrite length_alter|done| | |done].
  - intros i l Hi. destruct (H3 i l Hi) as [? ? ? ? Hh]. split; try done.
    intros Hc. destruct (Hh Hc) as (sl & Hsl & Hin).
    destruct (decide (link_slot l = j)) as [E | Hne].
    + rewrite E in *. exists (g sl). rewrite list_lookup_alter_eq, Hsl. split; [done|].
      by apply (proj2 (Hg sl Hsl) i l).
    + exists sl. by rewrite list_lookup_alter_ne.
  - intros k sl Hk. destruct (decide (k = j)) as [-> | Hne].
    + rewrite list_lookup_alter_eq in Hk. destruct (slots !! j) as [sl0|] eqn:E; [|done].
      injection Hk as <-. by apply Hg.
    + rewrite list_lookup_alter_ne in Hk by done. by apply H4.
Qed.

(** A change to a link that does not matter to the pool. *)
Lemma pool_neutral_link cfg slots st pending next i g :
  (forall l, link_slot (g l) = link_slot l /\ link_state (g l) = link_state l /\
     link_initial (g l) = link_initial l /\ initial_pending (g l) = initial_pending l /\
     inflight (g l) = inflight l /\ link_timer (g l) = link_timer l) ->
  pool_ok cfg slots st pending next -> pool_ok cfg slots (alter g i st) pending next.
Proof.
  intros Hg Hp. destruct (st !! i) as [l|] eqn:E.
  - destruct (Hg l) as (E1 & E2 & E3 & E4 & E5 & E6).
    replace pending with (pending - Z.b2z (initial_pending l) + Z.b2z (initial_pending (g l)))
      by (rewrite E4; lia).
    apply pool_alter_link; [done|done|done|].
    destruct (pk_links _ _ _ _ _ Hp i l E) as [? ? ? ? ?].
    split; rewrite ?E1, ?E2, ?E3, ?E4, ?E5, ?E6; done.
  - by rewrite alter_out.
Qed.

(** *** What closing a link does to the store *)

Definition shut_link (l : Link) : Link :=
  mkLink (link_slot l) Closed (link_initial l) false [] (received l) (write_blocked l) (sent l)
    (connect_started l) None.

(** [link_closed] and [completeInflight], which always go together. *)
Definition shut (i : nat) (s : tcp) : tcp := completeInflight i false (link_closed i s).

(** What two states have in common when they differ in links, messages and
    counters only. *)
Definition same_mode (s s' : tcp) : Prop :=
  tcp_config s' = tcp_config s /\ next_slot_ s' = next_slot_ s /\
  waiting_for_ s' = waiting_for_ s /\ tcp_finished_ s' = tcp_finished_ s /\
  exits_requested s' = exits_requested s /\ tcp_measure_latencies_ s' = tcp_measure_latencies_ s.

Lemma completeInflight_loop_effect q b i s :
  let s' := completeInflight_loop q b i s in
  store s' = alter (fun l => match q with [] => l | _ => link_with_inflight [] l end) i (store s) /\
  slots_ s' = slots_ s /\ pending_opens_ s' = pending_opens_ s /\ same_mode s s'.
Proof.
  revert s. induction q as [|m q IH]; intros s; cbn.
  - split; [|done]. symmetry. by apply list_alter_id.
  - specialize (IH (call_back [(callback_id m, b)] []
      (if b then update_link i (link_with_inflight q) s
       else count tcp_inflight_lost (update_link i (link_with_inflight q) s)))).
    destruct IH as (I1 & I2 & I3 & I4). split; [|by destruct b].
    rewrite I1.
    transitivity (alter (fun l => match q with [] => l | _ => link_with_inflight [] l end) i
                    (alter (link_with_inflight q) i (store s))); [by destruct b|].
    apply alter_alter_to. by destruct q.
Qed.

Lemma link_at_lookup s i l : store s !! i = Some l -> link_at s i = l.
Proof. apply list_lookup_total_correct. Qed.

Lemma shut_effect i l s :
  store s !! i = Some l ->
  store (shut i s) = alter shut_link i (store s) /\ slots_ (shut i s) = slots_ s /\
  pending_opens_ (shut i s) = pending_opens_ s - Z.b2z (initial_pending l) /\ same_mode s (shut i s).
Proof.
  intros Hi.
  assert (store (link_closed i s) = alter (fun l => link_attempt_done (link_with_timer None
            (link_with_state Closed l))) i (store s) /\ slots_ (link_closed i s) = slots_ s /\
          pending_opens_ (link_closed i s) = pending_opens_ s - Z.b2z (initial_pending l) /\
          same_mode s (link_closed i s)) as (E1 & E2 & E3 & E4).
  { unfold link_closed, initialAttemptDone.
    rewrite (link_at_lookup _ i (link_with_timer None (link_with_state Closed l)))
      by (cbn; by rewrite list_lookup_alter_eq, Hi).
    cbn. destruct (initial_pending l) eqn:Ep; cbn; (split; [|split_and!; try done; lia]).
    - by rewrite list_alter_alter_eq.
    - apply list_alter_ext; [|done]. intros x. rewrite Hi. intros [= <-].
      destruct l; cbn in *. by subst. }
  unfold shut, completeInflight.
  destruct (completeInflight_loop_effect (inflight (link_at (link_closed i s) i)) false i
              (link_closed i s)) as (-> & -> & -> & E).
  split; [|split_and!; [done|done|]].
  - rewrite E1. apply alter_alter_to. intros x Hx. rewrite Hi in Hx. injection Hx as <-.
    rewrite (link_at_lookup _ i (link_attempt_done (link_with_timer None (link_with_state Closed l))))
      by (by rewrite E1, list_lookup_alter_eq, Hi).
    destruct l as [? ? ? ? [|]]; done.
  - unfold same_mode in *. destruct_and!. split_and!; congruence.
Qed.

Lemma tcp_inc_comm n m k : tcp_inc n (tcp_inc m k) = tcp_inc m (tcp_inc n k).
Proof. unfold tcp_inc. cbn. f_equal; lia. Qed.

Lemma count_comm n m s : count n (count m s) = count m (count n s).
Proof. unfold count; cbn. by rewrite tcp_inc_comm. Qed.

Lemma completeInflight_loop_count n q b i s :
  completeInflight_loop q b i (count n s) = count n (completeInflight_loop q b i s).
Proof.
  revert s. induction q as [|m q IH]; intros s; [done|]. cbn [completeInflight_loop].
  rewrite <- IH. f_equal. destruct b; [done|].
  transitivity (call_back [(callback_id m, false)] []
                  (count tcp_inflight_lost (count n (update_link i (link_with_inflight q) s)))); [done|].
  by rewrite count_comm.
Qed.

Lemma completeInflight_count n b i s :
  completeInflight i b (count n s) = count n (completeInflight i b s).
Proof. apply completeInflight_loop_count. Qed.

(** The counter of the end of a connection in a given state. *)
Definition count_end (previous : LinkState) (s : tcp) : tcp :=
  match previous with
  | Connecting => count tcp_connect_failures s
  | Open | Retiring => count tcp_connection_closed s
  | Closed => s
  end.

(** What follows the release of a link that was in a given state. *)
Definition after_release (e : Env) (previous : LinkState) (i : nat) (r : Role * tcp) : tcp :=
  maybeExitWaitLoop
    (match previous, fst r with
     | Closed, _ => snd r
     | _, (RoleActive | RoleStandby) => scheduleRetry e (link_slot (link_at (snd r) i)) (snd r)
     | _, _ => snd r
     end).

Lemma onEvent_close_eq e i s :
  onEvent_close e i s =
  after_release e (link_state (link_at s i)) i
    (release i (count_end (link_state (link_at s i)) (shut i s))).
Proof.
  unfold onEvent_close, shut, after_release, count_end.
  assert (completeInflight i false
            match link_state (link_at s i) with
            | Connecting => count tcp_connect_failures (link_closed i s)
            | Closed => link_closed i s
            | _ => count tcp_connection_closed (link_closed i s)
            end =
          match link_state (link_at s i) with
          | Connecting => count tcp_connect_failures (completeInflight i false (link_closed i s))
          | Closed => completeInflight i false (link_closed i s)
          | _ => count tcp_connection_closed (completeInflight i false (link_closed i s))
          end) as ->.
  { destruct (link_state (link_at s i)); by rewrite ?completeInflight_count. }
  by destruct (release i _).
Qed.

(** *** The invariant *)

Definition tcp_inv (started : list nat) (s : tcp) : Prop := message_books started s /\ tcp_wf s.

(** Changes the pool does not see. *)
Lemma inv_count started n s : message_counter n = false -> tcp_inv started s -> tcp_inv started (count n s).
Proof. intros ? []. split; [auto with books|done]. Qed.

Lemma inv_exit started s : tcp_inv started s -> tcp_inv started (tcp_exit s).
Proof. intros []. split; [auto with books|done]. Qed.

Lemma inv_set_waiting started w s : tcp_inv started s -> tcp_inv started (set_waiting w s).
Proof. intros []. split; [auto with books|done]. Qed.

Lemma inv_set_measure started v s : tcp_inv started s -> tcp_inv started (set_measure v s).
Proof. intros []. split; [auto with books|done]. Qed.

Lemma inv_add_latencies started a b s : tcp_inv started s -> tcp_inv started (add_latencies a b s).
Proof. intros []. split; [auto with books|done]. Qed.

Lemma inv_set_flow started a w f g s :
  (a < connection_count_ (tcp_config s))%nat ->
  tcp_inv started s -> tcp_inv started (set_flow a w f g s).
Proof. intros Ha [Hb [? ? ? ? ?]]. split; [auto with books|by split]. Qed.

Lemma inv_maybeExit started s : tcp_inv started s -> tcp_inv started (maybeExitWaitLoop s).
Proof. intros H. unfold maybeExitWaitLoop. destruct (waiting_for_ s); split_ifs; auto using inv_exit. Qed.

Lemma inv_neutral_link started i g s :
  (forall l, link_slot (g l) = link_slot l /\ link_state (g l) = link_state l /\
     link_initial (g l) = link_initial l /\ initial_pending (g l) = initial_pending l /\
     inflight (g l) = inflight l /\ link_timer (g l) = link_timer l) ->
  tcp_inv started s -> tcp_inv started (update_link i g s).
Proof.
  intros Hg [Hb Hw]. split; [apply books_update_link; [apply Hg|done] | by apply pool_neutral_link].
Qed.

(** *** Closing *)

Lemma inv_shut started i s :
  (i < length (store s))%nat -> tcp_inv started s -> tcp_inv started (shut i s).
Proof.
  intros Hi [Hb Hw]. split.
  - apply books_completeInflight.
    + destruct (lookup_lt_is_Some_2 _ _ Hi) as [l Hl].
      unfold link_closed, initialAttemptDone. split_ifs; cbn; by rewrite ?length_alter.
    + unfold link_closed, initialAttemptDone. split_ifs; auto with books.
  - destruct (lookup_lt_is_Some_2 _ _ Hi) as [l Hl].
    destruct (shut_effect i l s Hl) as (E1 & E2 & E3 & E4 & E5 & _).
    unfold tcp_wf. rewrite E1, E2, E3, E4, E5.
    replace (pending_opens_ s - Z.b2z (initial_pending l)) with
      (pending_opens_ s - Z.b2z (initial_pending l) + Z.b2z (initial_pending (shut_link l)))
      by (cbn; lia).
    apply pool_alter_link; [done|done|done|]. split; cbn; [lia|done|done|done|done].
Qed.

Lemma scheduleRetry_slot e j s :
  scheduleRetry e j s = s \/
  exists b, (b = InitialBackoff \/ b = backoff (slot_at s j)) /\
    scheduleRetry e j s = update_slot j (slot_with_retry (Some b) (Z.min (b * 2) MaxBackoff)
                                           (last_retry (slot_at s j))) s.
Proof.
  unfold scheduleRetry. destruct (_ || _); [by left|right].
  destruct (last_retry (slot_at s j)); [destruct (_ <=? _)|]; eauto.
Qed.

Lemma inv_scheduleRetry started e j s : tcp_inv started s -> tcp_inv started (scheduleRetry e j s).
Proof.
  intros [Hb Hw]. destruct (scheduleRetry_slot e j s) as [-> | (b & Hbo & ->)]; [done|].
  split; [auto with books|]. apply pool_alter_slot; [done|]. intros sl Hsl.
  destruct (pk_held _ _ _ _ _ Hw j sl Hsl) as [Hl Hbk Ht]. split; [|done].
  assert (slot_at s j = sl) as Es by (by apply list_lookup_total_correct).
  rewrite Es in Hbo. unfold InitialBackoff, MaxBackoff in *.
  split; cbn; [done| |intros t [= <-]]; unfold InitialBackoff, MaxBackoff; lia.
Qed.

Lemma is_link_true o i : is_link o i = true -> o = Some i.
Proof. destruct o; cbn; [intros ->%Nat.eqb_eq|]; done. Qed.

Lemma elem_of_erase_first i k l : k <> i -> k ∈ l -> k ∈ erase_first i l.
Proof.
  intros Hne. induction l as [|x l IH]; cbn; [done|]. rewrite elem_of_cons.
  destruct (x =? i)%nat eqn:E.
  - apply Nat.eqb_eq in E. intros [-> | H]; [congruence|done].
  - rewrite elem_of_cons. intros [-> | H]; auto.
Qed.

Lemma erase_first_incl i k l : k ∈ erase_first i l -> k ∈ l.
Proof.
  induction l as [|x l IH]; cbn; [done|].
  destruct (x =? i)%nat; rewrite !elem_of_cons; [by right|]. intros [-> | H]; auto.
Qed.

Lemma elem_of_option_list (o : option nat) k : k ∈ option_list o <-> o = Some k.
Proof.
  destruct o as [x|]; cbn; [rewrite list_elem_of_singleton|rewrite elem_of_nil]; naive_solver.
Qed.

Lemma slot_links_elem k sl :
  k ∈ slot_links sl <-> active sl = Some k \/ standby sl = Some k \/ k ∈ retiring sl.
Proof. unfold slot_links. rewrite !elem_of_app, !elem_of_option_list. done. Qed.

(** [release] only takes the link out of its slot. *)
Lemma release_slot i s :
  snd (release i s) = s \/
  exists g, snd (release i s) = update_slot (link_slot (link_at s i)) g s /\
    let sl := slot_at s (link_slot (link_at s i)) in
    backoff (g sl) = backoff sl /\ retry_timer (g sl) = retry_timer sl /\
    (forall k, k ∈ slot_links (g sl) -> k ∈ slot_links sl) /\
    (forall k, k <> i -> k ∈ slot_links sl -> k ∈ slot_links (g sl)).
Proof.
  unfold release. set (sl := slot_at s (link_slot (link_at s i))).
  destruct (is_link (active sl) i) eqn:E1; [right|destruct (is_link (standby sl) i) eqn:E2; [right|
    destruct (existsb _ (retiring sl)) eqn:E3; [right|by left]]]; eexists; (split; [reflexivity|]);
    cbn; (split_and!; [done|done| |]); intros k; rewrite !slot_links_elem; cbn.
  - intros [?|[?|?]]; auto; discriminate.
  - apply is_link_true in E1. intros Hne [?|[?|?]]; auto. congruence.
  - intros [?|[?|?]]; auto; discriminate.
  - apply is_link_true in E2. intros Hne [?|[?|?]]; auto. congruence.
  - intros [?|[?|?%erase_first_incl]]; auto.
  - intros Hne [?|[?|?]]; auto using elem_of_erase_first.
Qed.

Lemma inv_release started i l s :
  store s !! i = Some l -> link_state l = Closed ->
  tcp_inv started s -> tcp_inv started (snd (release i s)).
Proof.
  intros Hi Hc [Hb Hw]. destruct (release_slot i s) as [-> | (g & -> & Hg)]; [done|].
  split; [auto with books|]. apply pool_alter_slot; [done|]. intros sl Hsl.
  assert (slot_at s (link_slot (link_at s i)) = sl) as Es by (by apply list_lookup_total_correct).
  cbn zeta in Hg. rewrite Es in Hg. destruct Hg as (G1 & G2 & G3 & G4).
  destruct (pk_held _ _ _ _ _ Hw _ sl Hsl) as [Hl Hbk Ht]. split.
  - split; rewrite ?G1, ?G2; try done. intros k Hk. apply Hl, G3, Hk.
  - intros k l' Hk Hne. apply G4. intros ->. change (store s !! i = Some l') in Hk. congruence.
Qed.

Lemma inv_after_release started e p i r :
  tcp_inv started (snd r) -> tcp_inv started (after_release e p i r).
Proof.
  intros H. unfold after_release. apply inv_maybeExit.
  destruct p, (fst r); auto using inv_scheduleRetry.
Qed.

Lemma inv_count_end started p s : tcp_inv started s -> tcp_inv started (count_end p s).
Proof. intros H. destruct p; cbn; auto using inv_count. Qed.

Lemma count_end_store p s : store (count_end p s) = store s.
Proof. by destruct p. Qed.

Lemma inv_onEvent_close started e i s :
  (i < length (store s))%nat -> tcp_inv started s -> tcp_inv started (onEvent_close e i s).
Proof.
  intros Hi H. rewrite onEvent_close_eq. apply inv_after_release.
  destruct (lookup_lt_is_Some_2 _ _ Hi) as [l Hl].
  apply (inv_release _ _ (shut_link l)); [|done|by apply inv_count_end, inv_shut].
  rewrite count_end_store, (proj1 (shut_effect i l s Hl)), list_lookup_alter_eq, Hl. done.
Qed.

Lemma shut_length i s : (i < length (store s))%nat -> length (store (shut i s)) = length (store s).
Proof.
  intros [l Hl]%lookup_lt_is_Some_2. by rewrite (proj1 (shut_effect i l s Hl)), length_alter.
Qed.

Lemma inv_closeLink started e t i s :
  (i < length (store s))%nat -> tcp_inv started s -> tcp_inv started (closeLink e t i s).
Proof.
  intros Hi H. unfold closeLink.
  change (completeInflight i false (link_closed i s)) with (shut i s).
  assert (tcp_inv started (shut i s)) as Hs by (by apply inv_shut).
  assert (i < length (store (shut i s)))%nat as Hi' by (by rewrite shut_length).
  destruct (link_state (link_at s i)), t; split_ifs; auto using inv_onEvent_close.
Qed.

(** Every operation on links leaves the store as long as it was, or longer. *)
Lemma scheduleRetry_store e j s : store (scheduleRetry e j s) = store s.
Proof. by destruct (scheduleRetry_slot e j s) as [-> | (b & _ & ->)]. Qed.

Lemma maybeExit_store s : store (maybeExitWaitLoop s) = store s.
Proof. unfold maybeExitWaitLoop. destruct (waiting_for_ s); by split_ifs. Qed.

Lemma release_store i s : store (snd (release i s)) = store s.
Proof. by destruct (release_slot i s) as [-> | (g & -> & _)]. Qed.

Lemma after_release_store e p i r : store (after_release e p i r) = store (snd r).
Proof.
  unfold after_release. rewrite maybeExit_store.
  destruct p, (fst r); by rewrite ?scheduleRetry_store.
Qed.

Lemma onEvent_close_store e i l s :
  store s !! i = Some l -> store (onEvent_close e i s) = alter shut_link i (store s).
Proof.
  intros Hl. rewrite onEvent_close_eq, after_release_store, release_store, count_end_store.
  by apply (shut_effect i l s).
Qed.

Lemma closeLink_store e t i l s :
  store s !! i = Some l ->
  store (closeLink e t i s) = match link_state l with
                              | Closed => store s
                              | _ => alter shut_link i (store s)
                              end.
Proof.
  intros Hl. unfold closeLink. rewrite (link_at_lookup s i l Hl).
  change (completeInflight i false (link_closed i s)) with (shut i s).
  destruct (shut_effect i l s Hl) as (Es & _).
  assert (store (onEvent_close e i (shut i s)) = alter shut_link i (store s)) as Ec.
  { rewrite (onEvent_close_store e i (shut_link l))
      by (by rewrite Es, list_lookup_alter_eq, Hl).
    rewrite Es. by apply alter_alter_to. }
  destruct (link_state l), t; split_ifs; done.
Qed.

(** *** Connecting *)

(** A link changed in place that keeps what it has outstanding. *)
Lemma inv_update_link started i l g s :
  store s !! i = Some l -> (forall l, inflight (g l) = inflight l) ->
  link_slot (g l) = link_slot l -> initial_pending (g l) = initial_pending l ->
  link_ok (tcp_config s) (slots_ s) i (g l) ->
  tcp_inv started s -> tcp_inv started (update_link i g s).
Proof.
  intros Hi Hf Hs Hp Hl [Hb Hw]. split; [by apply books_update_link|].
  pose proof (pool_alter_link _ _ _ _ _ i l g Hw Hi Hs Hl) as H. rewrite Hp in H.
  by replace (pending_opens_ s - _ + _) with (pending_opens_ s) in H by lia.
Qed.

Lemma inv_link_ok started i l s :
  tcp_inv started s -> store s !! i = Some l -> link_ok (tcp_config s) (slots_ s) i l.
Proof. intros [_ Hw]. apply (pk_links _ _ _ _ _ Hw). Qed.

(** A slot changed in place that keeps its links. *)
Lemma inv_update_slot started j g s :
  (forall sl, slots_ s !! j = Some sl ->
     (forall k, k ∈ slot_links (g sl) <-> k ∈ slot_links sl) /\
     backoff (g sl) = backoff sl /\ (retry_timer (g sl) = retry_timer sl \/ retry_timer (g sl) = None)) ->
  tcp_inv started s -> tcp_inv started (update_slot j g s).
Proof.
  intros Hg [Hb Hw]. split; [auto with books|]. apply pool_alter_slot; [done|]. intros sl Hsl.
  destruct (Hg sl Hsl) as (G1 & G2 & G3).
  destruct (pk_held _ _ _ _ _ Hw j sl Hsl) as [Hl Hbk Ht]. split; [split|].
  - intros k Hk. by apply Hl, G1.
  - by rewrite G2.
  - intros t. destruct G3 as [-> | ->]; [apply Ht|done].
  - intros k l _ _. apply G1.
Qed.

Definition opened_link (l : Link) : Link :=
  mkLink (link_slot l) Open (link_initial l) false (inflight l) (received l) (write_blocked l) (sent l)
    (connect_started l) None.

(** The link connected: open, its timer disabled, its connect counted and timed,
    the initial attempt over. *)
Definition link_opened (e : Env) (i : nat) (s : tcp) : tcp :=
  initialAttemptDone i
    (add_latencies [] [now e - connect_started (link_at s i)]
       (count tcp_connections_opened
          (update_link i (fun l => link_with_timer None (link_with_state Open l)) s))).

Lemma link_opened_effect e i l s :
  store s !! i = Some l ->
  store (link_opened e i s) = alter opened_link i (store s) /\
  slots_ (link_opened e i s) = slots_ s /\
  pending_opens_ (link_opened e i s) = pending_opens_ s - Z.b2z (initial_pending l) /\
  same_mode s (link_opened e i s).
Proof.
  intros Hi. unfold link_opened, initialAttemptDone.
  rewrite (link_at_lookup _ i (link_with_timer None (link_with_state Open l)))
    by (cbn; by rewrite list_lookup_alter_eq, Hi).
  cbn. destruct (initial_pending l) eqn:Ep; cbn; (split; [|split_and!; try done; lia]).
  - by rewrite list_alter_alter_eq.
  - apply list_alter_ext; [|done]. intros x. rewrite Hi. intros [= <-].
    destruct l; cbn in *. by subst.
Qed.

Lemma inv_link_opened started e i l s :
  store s !! i = Some l -> link_state l = Connecting ->
  tcp_inv started s -> tcp_inv started (link_opened e i s).
Proof.
  intros Hi Hc H. split.
  - destruct H as [Hb _]. unfold link_opened, initialAttemptDone. split_ifs; auto 6 with books.
  - destruct (link_opened_effect e i l s Hi) as (E1 & E2 & E3 & E4 & E5 & _).
    destruct (inv_link_ok _ _ _ _ H Hi) as [? ? Hq ? Hh]. destruct H as [_ Hw].
    unfold tcp_wf. rewrite E1, E2, E3, E4, E5.
    replace (pending_opens_ s - Z.b2z (initial_pending l)) with
      (pending_opens_ s - Z.b2z (initial_pending l) + Z.b2z (initial_pending (opened_link l)))
      by (cbn; lia).
    apply pool_alter_link; [done|done|done|].
    split; cbn; try done. intros _. apply Hh. congruence.
Qed.

(** The slot [promote] leaves. *)
Definition promoted (sl : Slot) : Slot :=
  mkSlot (standby sl) None (retiring sl ++ option_list (active sl)) None (backoff sl) (last_retry sl).

Lemma promoted_links k sl : k ∈ slot_links (promoted sl) <-> k ∈ slot_links sl.
Proof.
  rewrite !slot_links_elem. cbn. rewrite elem_of_app, elem_of_option_list. intuition discriminate.
Qed.

Lemma inv_promoted started j s : tcp_inv started s -> tcp_inv started (update_slot j promoted s).
Proof. apply inv_update_slot. intros sl _. split; [intros k; apply promoted_links|by auto]. Qed.

(** [promote] once the slot is changed. *)
Definition retire (e : Env) (r : nat) (s : tcp) : tcp :=
  match link_state (link_at s r) with
  | Open =>
      let s := update_link r (link_with_state Retiring) s in
      if no_inflight (link_at s r) then closeLink e FlushWrite r s
      else update_link r (link_with_timer (Some (tcp_timeout_ (tcp_config s) * 1000))) s
  | _ => s
  end.

Lemma promote_eq e j s :
  promote e j s =
  match active (slot_at s j) with
  | None => count tcp_reconnects (update_slot j promoted s)
  | Some r => retire e r (count tcp_connections_rotated (update_slot j promoted s))
  end.
Proof.
  unfold promote. destruct (slots_ s !! j) as [sl|] eqn:Ej.
  - assert (slot_at s j = sl) as Es by (by apply list_lookup_total_correct). rewrite Es.
    destruct (active sl) as [r|] eqn:Ea.
    + f_equal. unfold retire, update_slot, set_slots, count. cbn.
      rewrite list_alter_alter_eq.
      rewrite (list_alter_ext _ promoted _ (slots_ s) j); [done| |done].
      intros x Hx. rewrite Ej in Hx. injection Hx as <-. unfold promoted. cbn. by rewrite Ea.
    + unfold update_slot, set_slots, count. cbn.
      rewrite (list_alter_ext _ promoted _ (slots_ s) j); [done| |done].
      intros x Hx. rewrite Ej in Hx. injection Hx as <-. unfold promoted. cbn.
      by rewrite Ea, app_nil_r.
  - assert (active (slot_at s j) = None) as ->
      by (unfold slot_at; by rewrite list_lookup_total_alt, Ej).
    unfold update_slot, set_slots, count. cbn. by rewrite !alter_out.
Qed.

Lemma inv_retire started e r s :
  (r < length (store s))%nat -> tcp_inv started s -> tcp_inv started (retire e r s).
Proof.
  intros [l Hl]%lookup_lt_is_Some_2 H. unfold retire. rewrite (link_at_lookup s r l Hl).
  destruct (link_state l) eqn:El; try done. cbn zeta.
  destruct (inv_link_ok _ _ _ _ H Hl) as [? ? ? Hp Hh].
  assert (initial_pending l = false) as Epl
    by (destruct (initial_pending l); [destruct Hp; [done|congruence]|done]).
  assert (store (update_link r (link_with_state Retiring) s) !! r = Some (link_with_state Retiring l))
    as Hl' by (cbn; by rewrite list_lookup_alter_eq, Hl).
  assert (forall t, link_ok (tcp_config s) (slots_ s) r (link_with_timer t (link_with_state Retiring l)))
    as Hok.
  { intros t. split; cbn; try done; [congruence|]. intros _. apply Hh. congruence. }
  assert (tcp_inv started (update_link r (link_with_state Retiring) s)) as H'.
  { apply (inv_update_link _ _ l); try done. destruct (Hok (link_timer l)) as [? ? ? ? ?]. by split. }
  split_ifs.
  - apply inv_closeLink; [cbn; rewrite length_alter; by apply lookup_lt_Some in Hl|done].
  - apply (inv_update_link _ _ (link_with_state Retiring l)); done || apply Hok.
Qed.

Lemma slot_links_range started s j k :
  tcp_inv started s -> k ∈ slot_links (slot_at s j) -> (k < length (store s))%nat.
Proof.
  intros [_ Hw] Hk. unfold slot_at in Hk. rewrite list_lookup_total_alt in Hk.
  destruct (slots_ s !! j) as [sl|] eqn:E; cbn in Hk.
  - destruct (sk_links _ _ _ (pk_held _ _ _ _ _ Hw j sl E) k Hk) as (l & Hl & _).
    by apply lookup_lt_Some in Hl.
  - by apply slot_links_elem in Hk as [|[|?%elem_of_nil]].
Qed.

Lemma inv_promote started e j s : tcp_inv started s -> tcp_inv started (promote e j s).
Proof.
  intros H. rewrite promote_eq. destruct (active (slot_at s j)) as [r|] eqn:Ea.
  - apply inv_retire; [|by apply inv_count, inv_promoted].
    apply (slot_links_range started s j); [done|]. apply slot_links_elem. by left.
  - by apply inv_count, inv_promoted.
Qed.

Lemma onEvent_connected_eq e i s :
  link_state (link_at s i) = Connecting ->
  onEvent e i Connected s =
  maybeExitWaitLoop
    (let s' := link_opened e i s in
     if is_link (standby (slot_at s' (link_slot (link_at s i)))) i
     then promote e (link_slot (link_at s i)) s'
     else if link_initial (link_at s i) then s' else count tcp_reconnects s').
Proof. intros H. unfold onEvent, link_opened. by rewrite H. Qed.

Lemma inv_onEvent started e i ev s :
  (i < length (store s))%nat -> tcp_inv started s -> tcp_inv started (onEvent e i ev s).
Proof.
  intros Hi H. destruct ev; [|done|by apply inv_onEvent_close|by apply inv_onEvent_close].
  destruct (link_state (link_at s i)) eqn:El; try (unfold onEvent; rewrite El; done).
  rewrite onEvent_connected_eq by done. cbn zeta. apply inv_maybeExit.
  destruct (lookup_lt_is_Some_2 _ _ Hi) as [l Hl].
  assert (tcp_inv started (link_opened e i s)) as H'.
  { apply (inv_link_opened _ _ _ l); try done. by rewrite <- (link_at_lookup s i l). }
  split_ifs; auto using inv_promote, inv_count.
Qed.

(** A timer that fires is disarmed; closing the link would have disarmed it. *)
Lemma shut_timer i s : shut i (update_link i (link_with_timer None) s) = shut i s.
Proof.
  unfold shut, link_closed.
  assert (forall g, update_link i (fun l => link_with_timer None (link_with_state Closed l))
            (update_link i g s) = update_link i (fun l => link_with_timer None (link_with_state Closed (g l))) s)
    as E by (intros g; unfold update_link, set_store; cbn; by rewrite list_alter_alter_eq).
  by rewrite E.
Qed.

Lemma inv_onTimer started e i s :
  (i < length (store s))%nat -> tcp_inv started s ->
  tcp_inv started (onTimer e i (update_link i (link_with_timer None) s)).
Proof.
  intros Hi H. destruct (lookup_lt_is_Some_2 _ _ Hi) as [l Hl].
  set (s1 := update_link i (link_with_timer None) s).
  assert (store s1 !! i = Some (link_with_timer None l)) as Hl1
    by (cbn; by rewrite list_lookup_alter_eq, Hl).
  assert (link_state l <> Connecting -> tcp_inv started s1) as Hn.
  { intros Hne. apply (inv_update_link _ _ l); try done.
    destruct (inv_link_ok _ _ _ _ H Hl) as [? ? ? ? ?]. split; cbn; done || intros; congruence. }
  unfold onTimer. rewrite (link_at_lookup s1 i _ Hl1). cbn [link_with_timer link_state link_slot].
  destruct (link_state l) eqn:El; try (apply Hn; congruence).
  - apply inv_maybeExit, inv_scheduleRetry. unfold closeLink.
    rewrite (link_at_lookup _ i (link_with_timer None l)) by done.
    cbn [link_with_timer link_state]. rewrite El.
    change (completeInflight i false (link_closed i (count tcp_connect_failures s1)))
      with (shut i (update_link i (link_with_timer None) (count tcp_connect_failures s))).
    rewrite shut_timer. apply inv_onEvent_close.
    + by rewrite shut_length.
    + apply inv_shut; [done|]. by apply inv_count.
  - apply inv_closeLink; [by apply lookup_lt_Some in Hl1|]. apply Hn. congruence.
Qed.

Lemma inv_onWriteBlocked started i b s :
  tcp_inv started s -> tcp_inv started (onWriteBlocked i b s).
Proof.
  intros H. unfold onWriteBlocked. apply inv_neutral_link; [done|].
  split_ifs; auto using inv_count.
Qed.

(** *** Opening *)

Lemma pool_open cfg slots st pending next j sl g l :
  pool_ok cfg slots st pending next -> slots !! j = Some sl ->
  link_slot l = j -> link_state l = Connecting -> inflight l = [] -> is_Some (link_timer l) ->
  (initial_pending l = true -> link_initial l = true) ->
  (forall k, k ∈ slot_links (g sl) <-> k ∈ slot_links sl \/ k = length st) ->
  backoff (g sl) = backoff sl -> retry_timer (g sl) = retry_timer sl ->
  pool_ok cfg (alter g j slots) (st ++ [l]) (pending + Z.b2z (initial_pending l)) next.
Proof.
  intros [H1 H2 H3 H4 H5] Hj Hls Hst Hq Ht Hi Hg Hb Hr. split; [by rewrite length_alter|done| | |].
  - assert (forall i l', (st !! i = Some l' \/ (i = length st /\ l' = l)) ->
              link_ok cfg (alter g j slots) i l') as Hall.
    { intros i l' [Hl' | [-> ->]].
      - destruct (H3 i l' Hl') as [? ? ? ? Hh]. split; try done.
        intros Hc. destruct (Hh Hc) as (sl' & Hsl' & Hin). rewrite list_lookup_alter.
        case_decide as E; [|by exists sl'].
        exists (g sl). rewrite Hj. split; [done|]. apply Hg. left.
        rewrite <- E, Hj in Hsl'. congruence.
      - split; rewrite ?Hq; cbn; try done; [lia|by auto|].
        intros _. exists (g sl). rewrite Hls, list_lookup_alter_eq, Hj. split; [done|].
        apply Hg. by right. }
    intros i l' Hl'. apply Hall. apply lookup_app_Some in Hl' as [?|[? Hl']]; [by left|].
    right. apply list_lookup_singleton_Some in Hl' as [? ?]. split; [lia|done].
  - intros k sl' Hk. rewrite list_lookup_alter in Hk. case_decide as E.
    + subst k. rewrite Hj in Hk. injection Hk as <-. destruct (H4 j sl Hj) as [Ha ? ?].
      split; rewrite ?Hb, ?Hr; try done. intros i [Hin| ->]%Hg.
      * destruct (Ha i Hin) as (l' & Hl' & ?). exists l'. split; [by apply lookup_app_l_Some|done].
      * exists l. split; [|done]. by rewrite lookup_app_r, Nat.sub_diag by lia.
    + destruct (H4 k sl' Hk) as [Ha ? ?]. split; try done.
      intros i Hin. destruct (Ha i Hin) as (l' & Hl' & ?). exists l'.
      split; [by apply lookup_app_l_Some|done].
  - unfold initial_pending_links in *. rewrite List.filter_app, length_app. cbn.
    destruct (initial_pending l); cbn; lia.
Qed.

(** The place a new link is put in. *)
Definition put (role : Role) (i : nat) : Slot -> Slot :=
  match role with
  | RoleStandby => slot_with_standby (Some i)
  | _ => slot_with_active (Some i)
  end.

Definition place_free (role : Role) (sl : Slot) : Prop :=
  match role with RoleStandby => standby sl = None | _ => active sl = None end.

(** [open] up to [connect()]. *)
Definition link_added (e : Env) (j : nat) (role : Role) (initial : bool) (s : tcp) : tcp :=
  update_slot j (put role (length (store s)))
    (let s' := set_store (store s ++ [open_link e s j initial]) s in
     if initial then set_pending (pending_opens_ s' + 1) s' else s').

Lemma open_eq e c j role initial s :
  open e c j role initial s =
  match c with
  | None => scheduleRetry e j (count tcp_connect_failures s)
  | Some raised =>
      match raised with
      | Some event => onEvent e (length (store s)) event (link_added e j role initial s)
      | None => link_added e j role initial s
      end
  end.
Proof. destruct c as [[ev|]|]; done. Qed.

Lemma inv_link_added started e j role initial s :
  (j < length (slots_ s))%nat -> place_free role (slot_at s j) ->
  tcp_inv started s -> tcp_inv started (link_added e j role initial s).
Proof.
  intros [sl Hj]%lookup_lt_is_Some_2 Hf [Hb Hw]. unfold link_added.
  assert (slot_at s j = sl) as Es by (by apply list_lookup_total_correct). rewrite Es in Hf.
  split.
  - apply books_update_slot. cbn zeta. pose proof (books_new_link started (open_link e s j initial) s) as Hn.
    destruct initial; auto with books.
  - assert (tcp_wf (set_pending (pending_opens_ s + Z.b2z initial)
              (update_slot j (put role (length (store s)))
                 (set_store (store s ++ [open_link e s j initial]) s)))) as Hw'.
    { apply (pool_open _ _ _ _ _ _ sl (put role (length (store s))) (open_link e s j initial));
        try done; try by destruct role.
      - intros k. rewrite !slot_links_elem. destruct role; cbn in *; rewrite Hf;
          intuition (try discriminate; try congruence). }
    destruct initial; cbn in *; [done|]. unfold tcp_wf in *. cbn in *.
    by rewrite Z.add_0_r in Hw'.
Qed.

Lemma inv_open started e c j role initial s :
  (j < length (slots_ s))%nat -> place_free role (slot_at s j) ->
  tcp_inv started s -> tcp_inv started (open e c j role initial s).
Proof.
  intros Hj Hf H. rewrite open_eq. destruct c as [[ev|]|].
  - apply inv_onEvent; [|by apply inv_link_added].
    unfold link_added. destruct initial; cbn; rewrite length_app; cbn; lia.
  - by apply inv_link_added.
  - by apply inv_scheduleRetry, inv_count.
Qed.

Lemma inv_connectNext started e c j s :
  (j < length (slots_ s))%nat -> tcp_inv started s -> tcp_inv started (connectNext e c j s).
Proof.
  intros Hj H. unfold connectNext.
  destruct (tcp_finished_ s); [done|].
  destruct (active (slot_at s j)) as [a|] eqn:Ea, (standby (slot_at s j)) as [b|] eqn:Eb; try done.
  - destruct (link_state _); try done. split_ifs; [|done]. by apply inv_open.
  - by apply inv_open.
Qed.

Lemma inv_retry_timer_fires started e c j s :
  (j < length (slots_ s))%nat -> tcp_inv started s -> tcp_inv started (retry_timer_fires e c j s).
Proof.
  intros Hj H. apply inv_connectNext; [cbn; by rewrite length_alter|].
  apply inv_update_slot; [|done]. intros sl _. split; [done|]. by auto.
Qed.

(** *** Messages *)

(** A link changed in place, with its outstanding messages: the pool's part. *)
Lemma wf_update_link i l g s :
  store s !! i = Some l -> link_slot (g l) = link_slot l -> initial_pending (g l) = initial_pending l ->
  link_ok (tcp_config s) (slots_ s) i (g l) -> tcp_wf s -> tcp_wf (update_link i g s).
Proof.
  intros Hi Hs Hp Hl Hw. pose proof (pool_alter_link _ _ _ _ _ i l g Hw Hi Hs Hl) as H.
  rewrite Hp in H. by replace (pending_opens_ s - _ + _) with (pending_opens_ s) in H by lia.
Qed.

Lemma wf_count_sent i s : tcp_wf s -> tcp_wf (update_link i link_count_sent s).
Proof. by apply pool_neutral_link. Qed.

(** The message written, on a link that has room for it. *)
Definition message_sent (t : Z) (i cb : nat) (s : tcp) : tcp :=
  let s' := if expect_echo_ (tcp_config s)
            then update_link i (link_with_inflight (inflight (link_at s i) ++ [mkMessage t cb])) s
            else s in
  let s' := count tcp_messages_sent (update_link i link_count_sent s') in
  if expect_echo_ (tcp_config s) then s' else call_back [] [(cb, true)] s'.

Lemma inv_message_sent started t i cb l s :
  store s !! i = Some l -> link_state l = Open ->
  (length (inflight l) < max_inflight_per_connection_ (tcp_config s))%nat ->
  tcp_inv started s -> tcp_inv (started ++ [cb]) (message_sent t i cb s).
Proof.
  intros Hi Hst Hlt H. unfold message_sent. destruct (inv_link_ok _ _ _ _ H Hi) as [? ? ? ? Hh].
  destruct H as [Hb Hw]. rewrite (link_at_lookup s i l Hi).
  destruct (expect_echo_ (tcp_config s)) eqn:He; split.
  - rewrite <- (link_at_lookup s i l Hi). apply books_sent_echo; [done| |done].
    by apply lookup_lt_Some in Hi.
  - change (tcp_wf (update_link i link_count_sent
              (update_link i (link_with_inflight (inflight l ++ [mkMessage t cb])) s))).
    apply wf_count_sent, (wf_update_link i l); try done. split; cbn; try done; try congruence.
    rewrite length_app. cbn. lia.
  - by apply books_sent_no_echo.
  - change (tcp_wf (update_link i link_count_sent s)). by apply wf_count_sent.
Qed.

(** The next slot's turn. *)
Definition advance (s : tcp) : tcp :=
  set_flow ((next_slot_ s + 1) mod connection_count_ (tcp_config s))%nat (waiting_for_ s)
    (tcp_finished_ s) (echo_mismatch_logged_ s) s.

Lemma tryStartRequest_eq e c cb s :
  TcpBenchmarkClientImpl_tryStartRequest e c cb s =
  let j := next_slot_ s in
  let s0 := advance s in
  match active (slot_at s j) with
  | None => call_back [] [(cb, false)] (count tcp_unavailable s0)
  | Some i =>
      match link_state (link_at s i) with
      | Open =>
          if write_blocked (link_at s i) ||
             (max_inflight_per_connection_ (tcp_config s) <=? length (inflight (link_at s i)))%nat
          then call_back [] [(cb, false)] (count tcp_deferred s0)
          else
            let s1 := message_sent (now e) i cb s0 in
            if rotationDue s1 (link_at s1 i) && negb (bool_decide (is_Some (retry_timer (slot_at s1 j))))
            then connectNext e c j s1 else s1
      | _ => call_back [] [(cb, false)] (count tcp_unavailable s0)
      end
  end.
Proof.
  unfold TcpBenchmarkClientImpl_tryStartRequest, message_sent. fold (advance s). cbn zeta.
  change (slot_at (advance s) (next_slot_ s)) with (slot_at s (next_slot_ s)).
  destruct (active (slot_at s (next_slot_ s))) as [i|]; [|done].
  change (link_at (advance s) i) with (link_at s i).
  destruct (link_state (link_at s i)); try done.
  change (tcp_config (advance s)) with (tcp_config s).
  destruct (_ || _); [done|]. by destruct (expect_echo_ (tcp_config s)) eqn:E; cbn; rewrite !E.
Qed.

Lemma inv_refused started cb n s :
  n = tcp_unavailable \/ n = tcp_deferred -> tcp_inv started s ->
  tcp_inv (started ++ [cb]) (call_back [] [(cb, false)] (count n s)).
Proof. intros Hn [Hb Hw]. split; [by apply books_refused|done]. Qed.

Lemma inv_advance started s : tcp_inv started s -> tcp_inv started (advance s).
Proof.
  intros H. apply inv_set_flow; [|done]. apply Nat.mod_upper_bound.
  destruct H as [_ Hw]. pose proof (pk_next _ _ _ _ _ Hw). lia.
Qed.

Lemma inv_sent_next started t cb i s :
  tcp_inv started s -> active (slot_at s (next_slot_ s)) = Some i ->
  link_state (link_at s i) = Open ->
  write_blocked (link_at s i) ||
    (max_inflight_per_connection_ (tcp_config s) <=? length (inflight (link_at s i)))%nat = false ->
  tcp_inv (started ++ [cb]) (message_sent t i cb (advance s)).
Proof.
  intros H Ea El Eb. b2p.
  assert (i < length (store s))%nat as Hi.
  { apply (slot_links_range started s (next_slot_ s)); [done|]. apply slot_links_elem. by left. }
  destruct (lookup_lt_is_Some_2 _ _ Hi) as [l Hl]. rewrite (link_at_lookup s i l Hl) in *.
  apply (inv_message_sent _ _ _ _ l); [done|done| |by apply inv_advance].
  by apply Nat.leb_gt.
Qed.

Lemma inv_tryStartRequest started e c cb s :
  tcp_inv started s ->
  tcp_inv (started ++ [cb]) (TcpBenchmarkClientImpl_tryStartRequest e c cb s).
Proof.
  intros H. rewrite tryStartRequest_eq. cbn zeta. pose proof (inv_advance started s H) as H0.
  destruct (active (slot_at s (next_slot_ s))) as [i|] eqn:Ea; [|by apply inv_refused; auto].
  destruct (link_state (link_at s i)) eqn:El; try (by apply inv_refused; auto).
  destruct (_ || _) eqn:Eb; [by apply inv_refused; auto|].
  pose proof (inv_sent_next started (now e) cb i s H Ea El Eb) as Hsent.
  destruct (_ && _); [|done]. apply inv_connectNext; [|done].
  destruct Hsent as [_ Hw1]. rewrite (pk_slots _ _ _ _ _ Hw1).
  destruct H as [_ Hw]. unfold message_sent. destruct expect_echo_; apply (pk_next _ _ _ _ _ Hw).
Qed.

Lemma inv_next started s : tcp_inv started s -> (next_slot_ s < connection_count_ (tcp_config s))%nat.
Proof. intros [_ Hw]. apply (pk_next _ _ _ _ _ Hw). Qed.

Lemma inv_onEchoMismatch started e i s :
  (i < length (store s))%nat -> tcp_inv started s -> tcp_inv started (onEchoMismatch e i s).
Proof.
  intros Hi H. unfold onEchoMismatch. apply inv_maybeExit.
  assert (tcp_inv started (closeLink e NoFlush i
            (set_flow (next_slot_ s) (waiting_for_ s) (tcp_finished_ s) true (count tcp_echo_mismatch s))))
    as H'.
  { apply inv_closeLink; [done|]. apply inv_set_flow; [by apply (inv_next started s)|by apply inv_count]. }
  split_ifs; auto using inv_scheduleRetry.
Qed.

(** The echo of the oldest message outstanding. *)
Definition message_echoed (t : Z) (i : nat) (m : InflightMessage) (rest : list InflightMessage) (s : tcp) : tcp :=
  let s := count tcp_messages_received (update_link i (link_with_inflight rest) s) in
  let s := if tcp_measure_latencies_ s then add_latencies [t - sent_at m] [] s else s in
  call_back [(callback_id m, true)] [] s.

Lemma onEcho_eq e i bytes s :
  onEcho e i bytes s =
  match inflight (link_at s i) with
  | [] => onEchoMismatch e i s
  | m :: rest =>
      if negb (bool_decide (bytes = message_ (tcp_config s))) then onEchoMismatch e i s
      else
        let s := message_echoed (now e) i m rest s in
        maybeExitWaitLoop
          (match link_state (link_at s i), rest with
           | Retiring, [] => closeLink e FlushWrite i s
           | _, _ => s
           end)
  end.
Proof. done. Qed.

Lemma inv_message_echoed started t i m rest l s :
  store s !! i = Some l -> inflight l = m :: rest ->
  tcp_inv started s -> tcp_inv started (message_echoed t i m rest s).
Proof.
  intros Hi Hq H. destruct (inv_link_ok _ _ _ _ H Hi) as [Hw1 Hc Hcn ? ?]. destruct H as [Hb Hw].
  unfold message_echoed. split.
  - pose proof (books_complete started i m rest true s) as Hbc. rewrite Hi in Hbc. cbn in Hbc.
    rewrite Hq in Hbc. specialize (Hbc eq_refl Hb).
    destruct tcp_measure_latencies_; [|done]. by destruct Hbc; split.
  - assert (tcp_wf (update_link i (link_with_inflight rest) s)) as Hw'.
    { apply (wf_update_link i l); try done. rewrite Hq in Hw1. cbn in Hw1.
      split; cbn; try done; try lia; intros Hs; exfalso; [apply Hc in Hs|apply Hcn in Hs as [Hs _]];
        congruence. }
    by destruct tcp_measure_latencies_.
Qed.

Lemma inv_onEcho started e i bytes s :
  (i < length (store s))%nat -> tcp_inv started s -> tcp_inv started (onEcho e i bytes s).
Proof.
  intros Hi H. rewrite onEcho_eq. destruct (inflight (link_at s i)) as [|m rest] eqn:Eq;
    [by apply inv_onEchoMismatch|].
  destruct (negb _); [by apply inv_onEchoMismatch|]. cbn zeta.
  destruct (lookup_lt_is_Some_2 _ _ Hi) as [l Hl].
  assert (tcp_inv started (message_echoed (now e) i m rest s)) as H'
    by (apply (inv_message_echoed _ _ _ _ _ l); [done|by rewrite <- (link_at_lookup s i l)|done]).
  apply inv_maybeExit. destruct (link_state _), rest; try done. apply inv_closeLink; [|done].
  unfold message_echoed. destruct tcp_measure_latencies_; cbn; by rewrite length_alter.
Qed.

Lemma closeLink_length e t i s : length (store (closeLink e t i s)) = length (store s).
Proof.
  destruct (store s !! i) as [l|] eqn:E.
  - rewrite (closeLink_store e t i l s E). destruct (link_state l); by rewrite ?length_alter.
  - unfold closeLink. assert (link_state (link_at s i) = Closed) as ->; [|done].
    unfold link_at. by rewrite list_lookup_total_alt, E.
Qed.

Lemma onEchoMismatch_length e i s : length (store (onEchoMismatch e i s)) = length (store s).
Proof.
  unfold onEchoMismatch. rewrite maybeExit_store.
  split_ifs; rewrite ?scheduleRetry_store; by rewrite closeLink_length.
Qed.

Lemma message_echoed_store t i m rest s :
  store (message_echoed t i m rest s) = alter (link_with_inflight rest) i (store s).
Proof. unfold message_echoed. by destruct tcp_measure_latencies_. Qed.

Lemma onEcho_length e i bytes s : length (store (onEcho e i bytes s)) = length (store s).
Proof.
  rewrite onEcho_eq. destruct (inflight (link_at s i)) as [|m rest]; [apply onEchoMismatch_length|].
  destruct (negb _); [apply onEchoMismatch_length|]. cbn zeta. rewrite maybeExit_store.
  destruct (link_state _), rest; rewrite ?closeLink_length, message_echoed_store; by rewrite length_alter.
Qed.

Lemma inv_onData_loop started fuel e i s :
  (i < length (store s))%nat -> tcp_inv started s -> tcp_inv started (onData_loop fuel e i s).
Proof.
  revert s. induction fuel as [|fuel IH]; intros s Hi H; cbn; [done|].
  split_ifs; [|done]. apply IH.
  - rewrite onEcho_length. cbn. by rewrite length_alter.
  - apply inv_onEcho; [cbn; by rewrite length_alter|]. by apply inv_neutral_link.
Qed.

Lemma inv_onData started e i data s :
  (i < length (store s))%nat -> tcp_inv started s -> tcp_inv started (onData e i data s).
Proof.
  intros Hi H. unfold onData. split_ifs; [done|]. apply inv_onData_loop.
  - cbn. by rewrite length_alter.
  - by apply inv_neutral_link.
Qed.

(** *** Finishing *)

(** A loop over a copy of the links. *)
Lemma inv_foldl started (f : tcp -> nat -> tcp) ls s :
  (forall s i, (i < length (store s))%nat -> tcp_inv started s ->
     tcp_inv started (f s i) /\ length (store (f s i)) = length (store s)) ->
  (forall i, i ∈ ls -> (i < length (store s))%nat) ->
  tcp_inv started s -> tcp_inv started (foldl f s ls).
Proof.
  intros Hf. revert s. induction ls as [|i ls IH]; intros s Hr H; cbn; [done|].
  destruct (Hf s i (Hr i ltac:(by left)) H) as [H' El].
  apply IH; [|done]. intros k Hk. rewrite El. apply Hr. by right.
Qed.

Lemma links_elem s i : i ∈ links s <-> exists j, (j < length (slots_ s))%nat /\ i ∈ slot_links (slot_at s j).
Proof.
  unfold links. rewrite list_elem_of_bind. split.
  - intros (sl & Hi & [j Hj]%list_elem_of_lookup). exists j. split; [by apply lookup_lt_Some in Hj|].
    unfold slot_at. by rewrite (list_lookup_total_correct _ _ _ Hj).
  - intros (j & [sl Hj]%lookup_lt_is_Some_2 & Hi). exists sl.
    unfold slot_at in Hi. rewrite (list_lookup_total_correct _ _ _ Hj) in Hi.
    split; [done|]. by apply list_elem_of_lookup_2 in Hj.
Qed.

Lemma links_range started s i : tcp_inv started s -> i ∈ links s -> (i < length (store s))%nat.
Proof. intros H (j & _ & Hi)%links_elem. by apply (slot_links_range started s j). Qed.

Lemma inv_close_connecting started e s i :
  (i < length (store s))%nat -> tcp_inv started s ->
  tcp_inv started (close_connecting e s i) /\ length (store (close_connecting e s i)) = length (store s).
Proof.
  intros Hi H. unfold close_connecting.
  destruct (link_state _); auto using inv_closeLink, closeLink_length.
Qed.

Lemma inv_drain_link started e s i :
  (i < length (store s))%nat -> tcp_inv started s ->
  tcp_inv started (drain_link e s i) /\ length (store (drain_link e s i)) = length (store s).
Proof.
  intros Hi H. unfold drain_link. rewrite closeLink_length. split.
  - apply inv_closeLink; split_ifs; auto using inv_count.
  - by split_ifs.
Qed.

Lemma inv_finish_close started e s : tcp_inv started s -> tcp_inv started (finish_close e s).
Proof.
  intros H. apply inv_foldl; [apply inv_drain_link| |done]. intros i. by apply (links_range started).
Qed.

Lemma inv_retry_off started s :
  tcp_inv started s -> tcp_inv started (set_slots (map (slot_with_retry_timer None) (slots_ s)) s).
Proof.
  intros [Hb [H1 H2 H3 H4 H5]]. split; [auto with books|]. split; cbn; try done.
  - by rewrite length_map.
  - intros i l Hi. destruct (H3 i l Hi) as [? ? ? ? Hh]. split; try done.
    intros Hc. destruct (Hh Hc) as (sl & Hsl & Hin). exists (slot_with_retry_timer None sl).
    split; [|done]. rewrite list_lookup_fmap. by rewrite Hsl.
  - intros j sl Hj. change (map ?f ?l) with (f <$> l) in Hj. rewrite list_lookup_fmap in Hj.
    destruct (slots_ s !! j) as [sl'|] eqn:E; [|done]. injection Hj as <-.
    destruct (H4 j sl' E) as [? ? ?]. by split.
Qed.

Lemma inv_finish started e s :
  tcp_inv started s -> tcp_inv started (snd (TcpBenchmarkClientImpl_finish e s)).
Proof.
  intros H. unfold TcpBenchmarkClientImpl_finish. destruct (tcp_finished_ s); [done|].
  set (s1 := set_slots _ _).
  assert (tcp_inv started s1) as H1.
  { apply (inv_retry_off started (set_flow (next_slot_ s) (waiting_for_ s) true (echo_mismatch_logged_ s) s)).
    apply inv_set_flow; [by apply (inv_next started s)|done]. }
  assert (tcp_inv started (foldl (close_connecting e) s1 (links s1))) as H2.
  { apply inv_foldl; [apply inv_close_connecting| |done]. intros i. by apply (links_range started). }
  cbn zeta. destruct (anyInflight _); cbn; [by apply inv_set_waiting|by apply inv_finish_close].
Qed.

Lemma onEvent_close_length e i s :
  (i < length (store s))%nat -> length (store (onEvent_close e i s)) = length (store s).
Proof.
  intros [l Hl]%lookup_lt_is_Some_2. by rewrite (onEvent_close_store e i l s Hl), length_alter.
Qed.

Lemma inv_terminate_close started e s : tcp_inv started s -> tcp_inv started (terminate_close e s).
Proof.
  intros H. apply inv_foldl; [|intros i; by apply (links_range started s)|by apply inv_set_measure].
  intros s' i Hi H'. split; [by apply inv_onEvent_close|by apply onEvent_close_length].
Qed.

Lemma inv_terminate started e s :
  tcp_inv started s -> tcp_inv started (snd (TcpBenchmarkClientImpl_terminate e s)).
Proof.
  intros H. unfold TcpBenchmarkClientImpl_terminate.
  pose proof (inv_finish started e s H) as Hf.
  destruct (TcpBenchmarkClientImpl_finish e s) as [[] s']; [done|]. by apply inv_terminate_close.
Qed.

Lemma inv_step started s l s' : tcp_step s l s' -> tcp_inv started s -> tcp_inv (started ++ l) s'.
Proof.
  intros Hstep Hinv; destruct Hstep; rewrite ?app_nil_r.
  - by apply inv_onEvent.
  - by apply inv_onData.
  - by apply inv_onWriteBlocked.
  - by apply inv_onTimer.
  - by apply inv_retry_timer_fires.
  - by apply inv_tryStartRequest.
  - by apply inv_set_measure.
  - by apply inv_set_waiting.
  - by apply inv_finish.
  - by apply inv_finish_close, inv_set_waiting.
  - by apply inv_terminate.
Qed.

(** *** Preparing *)

(** A slot of whose links nothing happened. *)
Definition other_slots (j : nat) (s s' : tcp) : Prop :=
  length (slots_ s') = length (slots_ s) /\ forall k, k <> j -> slot_at s' k = slot_at s k.

Lemma other_slots_trans j s1 s2 s3 : other_slots j s1 s2 -> other_slots j s2 s3 -> other_slots j s1 s3.
Proof. intros [H1 H2] [H3 H4]. split; [congruence|]. intros k Hk. rewrite H4, H2; done. Qed.

Lemma other_slots_same j s s' : slots_ s' = slots_ s -> other_slots j s s'.
Proof. intros H. unfold other_slots, slot_at. by rewrite H. Qed.

Lemma other_slots_update j g s : other_slots j s (update_slot j g s).
Proof.
  split; cbn; [by rewrite length_alter|]. intros k Hk. unfold slot_at. cbn.
  by rewrite list_lookup_total_alter_ne.
Qed.

Lemma maybeExit_slots s : slots_ (maybeExitWaitLoop s) = slots_ s.
Proof. unfold maybeExitWaitLoop. destruct (waiting_for_ s); by split_ifs. Qed.

Lemma scheduleRetry_other_slots e j s : other_slots j s (scheduleRetry e j s).
Proof.
  destruct (scheduleRetry_slot e j s) as [-> | (b & _ & ->)];
    [by apply other_slots_same|apply other_slots_update].
Qed.

Lemma onEvent_close_other_slots e i l s :
  store s !! i = Some l -> other_slots (link_slot l) s (onEvent_close e i s).
Proof.
  intros Hl. rewrite onEvent_close_eq. unfold after_release.
  destruct (shut_effect i l s Hl) as (Es & Esl & _).
  set (s1 := count_end _ (shut i s)).
  assert (store s1 !! i = Some (shut_link l)) as Hl1
    by (unfold s1; by rewrite count_end_store, Es, list_lookup_alter_eq, Hl).
  assert (other_slots (link_slot l) s s1) as H1.
  { apply other_slots_same. unfold s1. by destruct (link_state (link_at s i)). }
  assert (other_slots (link_slot l) s1 (snd (release i s1))) as H2.
  { destruct (release_slot i s1) as [-> | (g & -> & _)]; [by apply other_slots_same|].
    rewrite (link_at_lookup s1 i _ Hl1). apply other_slots_update. }
  apply (other_slots_trans _ _ s1), (other_slots_trans _ _ (snd (release i s1))); [done|done|].
  eapply other_slots_trans; [|apply other_slots_same, maybeExit_slots].
  assert (link_at (snd (release i s1)) i = shut_link l) as ->
    by (apply link_at_lookup; by rewrite release_store).
  destruct (link_state _), (fst (release i s1)); (apply scheduleRetry_other_slots || by apply other_slots_same).
Qed.

Lemma open_initial_other_slots e c j s :
  standby (slot_at s j) = None -> (j < length (slots_ s))%nat ->
  other_slots j s (open e c j RoleActive true s).
Proof.
  intros Hst Hj. rewrite open_eq. destruct c as [raised|]; [|apply (scheduleRetry_other_slots e j (count tcp_connect_failures s))].
  set (s1 := link_added e j RoleActive true s).
  assert (other_slots j s s1) as H1 by apply (other_slots_update j _
    (set_pending (pending_opens_ s + 1) (set_store (store s ++ [open_link e s j true]) s))).
  destruct raised as [ev|]; [|done].
  assert (store s1 !! length (store s) = Some (open_link e s j true)) as Hl
    by (cbn; by rewrite lookup_app_r, Nat.sub_diag by lia).
  apply (other_slots_trans _ _ s1); [done|].
  destruct ev; [|by apply other_slots_same|apply (onEvent_close_other_slots e _ _ s1 Hl)..].
  rewrite onEvent_connected_eq by (by rewrite (link_at_lookup _ _ _ Hl)).
  cbn zeta. rewrite (link_at_lookup _ _ _ Hl). cbn [open_link link_slot link_initial].
  destruct (link_opened_effect e (length (store s)) _ s1 Hl) as (_ & Es & _).
  assert (standby (slot_at (link_opened e (length (store s)) s1) j) = None) as ->.
  { unfold slot_at. rewrite Es. cbn. rewrite list_lookup_total_alter_eq by done. done. }
  apply other_slots_same. cbn [is_link]. by rewrite maybeExit_slots.
Qed.

Lemma inv_prepare_opens e c todo s :
  NoDup todo -> (forall j, j ∈ todo -> (j < length (slots_ s))%nat /\ slot_at s j = slot_init) ->
  tcp_inv [] s -> tcp_inv [] (prepare_opens e c todo s).
Proof.
  revert s. induction todo as [|j todo IH]; intros s Hnd Hs H; cbn; [done|].
  apply NoDup_cons in Hnd as [Hnin Hnd]. destruct (Hs j ltac:(by left)) as [Hj Ej].
  destruct (open_initial_other_slots (e j) (c j) j s) as [Hlen Ho]; [by rewrite Ej|done|].
  apply IH; [done| |].
  - intros k Hk. destruct (Hs k ltac:(by right)) as [Hk1 Hk2].
    rewrite Hlen, Ho by (intros ->; done). done.
  - apply inv_open; [done| |done]. by rewrite Ej.
Qed.

Lemma inv_initial cfg s0 : TcpBenchmarkClientImpl_new cfg = Ok s0 -> tcp_inv [] s0.
Proof.
  unfold TcpBenchmarkClientImpl_new. destruct (connection_count_ cfg =? 0)%nat eqn:E; [done|].
  destruct (max_inflight_per_connection_ cfg =? 0)%nat; [done|]. intros [= <-]. apply Nat.eqb_neq in E. split.
  - split; try done. cbn. by destruct expect_echo_.
  - split; cbn; try done; [by rewrite length_replicate|lia|].
    intros j sl [-> _]%lookup_replicate. split; cbn; [|unfold InitialBackoff, MaxBackoff; lia|done].
    by intros i Hi%elem_of_nil.
Qed.

Lemma inv_set_message m s : tcp_inv [] s -> tcp_inv [] (set_message m s).
Proof.
  intros [[] [H1 H2 H3 H4 H5]]. split; split; try done.
  intros i l Hi. destruct (H3 i l Hi). by split.
Qed.

Lemma inv_prepare e c request cfg s0 s :
  TcpBenchmarkClientImpl_new cfg = Ok s0 -> prepare e c request s0 = Ok s -> tcp_inv [] s.
Proof.
  intros Hn Hp. pose proof (inv_initial cfg s0 Hn) as H0. unfold prepare in Hp.
  destruct request as [body|]; [|done]. destruct (_ && _); [done|]. injection Hp as <-.
  assert (tcp_inv [] (prepare_opens e c (seq 0 (connection_count_ (tcp_config s0))) (set_message body s0)))
    as H.
  { apply inv_prepare_opens; [apply NoDup_seq| |by apply inv_set_message].
    intros j Hj%elem_of_seq. unfold TcpBenchmarkClientImpl_new in Hn.
    destruct (_ =? 0)%nat; [done|]. destruct (_ =? 0)%nat; [done|]. injection Hn as <-.
    cbn in *. rewrite length_replicate. split; [lia|]. unfold slot_at. cbn.
    rewrite lookup_total_replicate_2; [done|lia]. }
  destruct (0 <? _); [by apply inv_set_waiting|done].
Qed.

(** The invariant holds in every execution. *)
Lemma reachable_inv cfg started s : tcp_reachable cfg started s -> tcp_inv started s.
Proof.
  induction 1 as [e c request s0 s Hn Hp|started s l s' Hr IH Hs].
  - by apply (inv_prepare e c request cfg s0).
  - by apply (inv_step started s).
Qed.
