(* ===== verification/TcpClientLife.v ===== *)
(** * The TCP benchmark client: its wait loops, its end and its echoes

    The theorems about executions of the TCP client: the books and the pool in
    every reachable state, the wait loops of [prepare] and [finish] and what is
    left when the client has finished, and the matching of echoes. *)

From S2P Require Import Prelude TcpClient TcpClientProofs.

(** ** Phases

    Every operation but those that begin and end a phase keeps the phase, and
    requests to exit are only added. *)

Definition same_phase (s s' : tcp) : Prop :=
  tcp_finished_ s' = tcp_finished_ s /\ waiting_for_ s' = waiting_for_ s /\
  (exits_requested s <= exits_requested s')%nat.

Create HintDb phase.

Lemma phase_refl s : same_phase s s.
Proof. by split. Qed.

Lemma phase_trans s1 s2 s3 : same_phase s1 s2 -> same_phase s2 s3 -> same_phase s1 s3.
Proof. intros (?&?&?) (?&?&?). split_and!; [congruence|congruence|lia]. Qed.

Lemma phase_update_link s0 i g s : same_phase s0 s -> same_phase s0 (update_link i g s).
Proof. done. Qed.

Lemma phase_update_slot s0 j g s : same_phase s0 s -> same_phase s0 (update_slot j g s).
Proof. done. Qed.

Lemma phase_count s0 n s : same_phase s0 s -> same_phase s0 (count n s).
Proof. done. Qed.

Lemma phase_call_back s0 a b s : same_phase s0 s -> same_phase s0 (call_back a b s).
Proof. done. Qed.

Lemma phase_add_latencies s0 a b s : same_phase s0 s -> same_phase s0 (add_latencies a b s).
Proof. done. Qed.

Lemma phase_set_measure s0 b s : same_phase s0 s -> same_phase s0 (set_measure b s).
Proof. done. Qed.

Lemma phase_set_pending s0 v s : same_phase s0 s -> same_phase s0 (set_pending v s).
Proof. done. Qed.

Lemma phase_set_store s0 v s : same_phase s0 s -> same_phase s0 (set_store v s).
Proof. done. Qed.

Lemma phase_set_flow s0 a b s :
  same_phase s0 s -> same_phase s0 (set_flow a (waiting_for_ s) (tcp_finished_ s) b s).
Proof. done. Qed.

Lemma phase_exit s0 s : same_phase s0 s -> same_phase s0 (tcp_exit s).
Proof. intros (?&?&?). split_and!; cbn; [done|done|lia]. Qed.

#[export] Hint Resolve phase_refl phase_update_link phase_update_slot phase_count phase_call_back
  phase_add_latencies phase_set_measure phase_set_pending phase_set_store phase_set_flow
  phase_exit : phase.

Lemma phase_maybeExit s0 s : same_phase s0 s -> same_phase s0 (maybeExitWaitLoop s).
Proof. unfold maybeExitWaitLoop. destruct (waiting_for_ s); split_ifs; auto with phase. Qed.

Lemma phase_scheduleRetry s0 e j s : same_phase s0 s -> same_phase s0 (scheduleRetry e j s).
Proof. destruct (scheduleRetry_slot e j s) as [-> | (b & _ & ->)]; auto with phase. Qed.

Lemma phase_initialAttemptDone s0 i s : same_phase s0 s -> same_phase s0 (initialAttemptDone i s).
Proof. unfold initialAttemptDone. split_ifs; auto with phase. Qed.

Lemma phase_completeInflight s0 i b s : same_phase s0 s -> same_phase s0 (completeInflight i b s).
Proof.
  intros H. apply (phase_trans _ s); [done|]. unfold completeInflight.
  destruct (completeInflight_loop_effect (inflight (link_at s i)) b i s)
    as (_ & _ & _ & _ & _ & E1 & E2 & E3 & _).
  split_and!; [done|done|lia].
Qed.

Lemma phase_release s0 i s : same_phase s0 s -> same_phase s0 (snd (release i s)).
Proof. destruct (release_slot i s) as [-> | (g & -> & _)]; auto with phase. Qed.

#[export] Hint Resolve phase_maybeExit phase_scheduleRetry phase_initialAttemptDone
  phase_completeInflight phase_release : phase.

Lemma phase_shut s0 i s : same_phase s0 s -> same_phase s0 (shut i s).
Proof. unfold shut, link_closed. auto with phase. Qed.

Lemma phase_after_release s0 e p i r : same_phase s0 (snd r) -> same_phase s0 (after_release e p i r).
Proof. unfold after_release. destruct p, (fst r); auto with phase. Qed.

Lemma phase_count_end s0 p s : same_phase s0 s -> same_phase s0 (count_end p s).
Proof. destruct p; cbn; auto with phase. Qed.

#[export] Hint Resolve phase_shut phase_after_release phase_count_end : phase.

Lemma phase_onEvent_close s0 e i s : same_phase s0 s -> same_phase s0 (onEvent_close e i s).
Proof. intros H. rewrite onEvent_close_eq. auto with phase. Qed.

#[export] Hint Resolve phase_onEvent_close : phase.

Lemma closeLink_eq e t i s :
  closeLink e t i s =
  match link_state (link_at s i) with
  | Closed => s
  | _ => match t with
         | NoFlush => onEvent_close e i (shut i s)
         | FlushWrite => if flushed e i then onEvent_close e i (shut i s) else shut i s
         end
  end.
Proof. unfold closeLink, shut. by destruct (link_state (link_at s i)). Qed.

Lemma phase_closeLink s0 e t i s : same_phase s0 s -> same_phase s0 (closeLink e t i s).
Proof. intros H. rewrite closeLink_eq. destruct (link_state _), t; split_ifs; auto with phase. Qed.

#[export] Hint Resolve phase_closeLink : phase.

Lemma phase_promote s0 e j s : same_phase s0 s -> same_phase s0 (promote e j s).
Proof.
  intros H. rewrite promote_eq. destruct (active (slot_at s j)); unfold retire;
    [destruct (link_state _); cbn zeta; split_ifs|]; auto 8 with phase.
Qed.

Lemma phase_link_opened s0 e i s : same_phase s0 s -> same_phase s0 (link_opened e i s).
Proof. unfold link_opened. auto 8 with phase. Qed.

#[export] Hint Resolve phase_promote phase_link_opened : phase.

Lemma phase_onEvent s0 e i ev s : same_phase s0 s -> same_phase s0 (onEvent e i ev s).
Proof.
  intros H. destruct ev; cbn [onEvent]; auto with phase.
  destruct (link_state (link_at s i)) eqn:E; try done. apply (phase_trans _ s); [done|].
  apply phase_maybeExit. split_ifs; auto 8 with phase.
Qed.

#[export] Hint Resolve phase_onEvent : phase.

Lemma phase_onTimer s0 e i s : same_phase s0 s -> same_phase s0 (onTimer e i s).
Proof. intros H. unfold onTimer. destruct (link_state _); auto with phase. Qed.

Lemma phase_onWriteBlocked s0 i b s : same_phase s0 s -> same_phase s0 (onWriteBlocked i b s).
Proof. intros H. unfold onWriteBlocked. split_ifs; auto with phase. Qed.

Lemma phase_link_added s0 e j r b s : same_phase s0 s -> same_phase s0 (link_added e j r b s).
Proof. intros H. unfold link_added. cbn zeta. destruct b; auto with phase. Qed.

#[export] Hint Resolve phase_onTimer phase_onWriteBlocked phase_link_added : phase.

Lemma phase_open s0 e c j r b s : same_phase s0 s -> same_phase s0 (open e c j r b s).
Proof. intros H. rewrite open_eq. destruct c as [[ev|]|]; auto with phase. Qed.

#[export] Hint Resolve phase_open : phase.

Lemma phase_connectNext s0 e c j s : same_phase s0 s -> same_phase s0 (connectNext e c j s).
Proof.
  intros H. unfold connectNext. destruct (tcp_finished_ s); [done|].
  destruct (active _), (standby _); try (destruct (link_state _)); split_ifs; auto with phase.
Qed.

#[export] Hint Resolve phase_connectNext : phase.

Lemma phase_advance s0 s : same_phase s0 s -> same_phase s0 (advance s).
Proof. unfold advance. auto with phase. Qed.

#[export] Hint Resolve phase_advance : phase.

Lemma phase_message_sent s0 t i cb s : same_phase s0 s -> same_phase s0 (message_sent t i cb s).
Proof. intros H. unfold message_sent. destruct expect_echo_; auto with phase. Qed.

#[export] Hint Resolve phase_message_sent : phase.

Lemma phase_tryStartRequest s0 e c cb s :
  same_phase s0 s -> same_phase s0 (TcpBenchmarkClientImpl_tryStartRequest e c cb s).
Proof.
  intros H. rewrite tryStartRequest_eq. cbn zeta. destruct (active _); [|auto with phase].
  destruct (link_state _); auto with phase. destruct (_ || _); [auto with phase|].
  destruct (_ && _); auto with phase.
Qed.

Lemma phase_onEchoMismatch s0 e i s : same_phase s0 s -> same_phase s0 (onEchoMismatch e i s).
Proof. intros H. unfold onEchoMismatch. split_ifs; auto 8 with phase. Qed.

Lemma phase_message_echoed s0 t i m q s :
  same_phase s0 s -> same_phase s0 (message_echoed t i m q s).
Proof. intros H. unfold message_echoed. destruct tcp_measure_latencies_; auto with phase. Qed.

#[export] Hint Resolve phase_onEchoMismatch phase_message_echoed : phase.

Lemma phase_onEcho s0 e i b s : same_phase s0 s -> same_phase s0 (onEcho e i b s).
Proof.
  intros H. rewrite onEcho_eq. destruct (inflight _) as [|m q]; [auto with phase|].
  destruct (negb _); [auto with phase|]. cbn zeta.
  destruct (link_state _), q; auto with phase.
Qed.

#[export] Hint Resolve phase_onEcho : phase.

Lemma phase_onData_loop s0 fuel e i s : same_phase s0 s -> same_phase s0 (onData_loop fuel e i s).
Proof. revert s. induction fuel as [|fuel IH]; intros s H; cbn; split_ifs; auto with phase. Qed.

Lemma phase_onData s0 e i d s : same_phase s0 s -> same_phase s0 (onData e i d s).
Proof. intros H. unfold onData. split_ifs; auto using phase_onData_loop with phase. Qed.

Lemma phase_foldl s0 (f : tcp -> nat -> tcp) ls s :
  (forall s i, same_phase s0 s -> same_phase s0 (f s i)) ->
  same_phase s0 s -> same_phase s0 (foldl f s ls).
Proof. intros Hf. revert s. induction ls as [|i ls IH]; intros s H; cbn; auto. Qed.

(** ** After [finish]

    Once the client is finished no retry is scheduled and no link leaves a
    closed set of states that contains [Closed]. *)

Definition retry_off (s : tcp) : Prop :=
  forall j sl, slots_ s !! j = Some sl -> retry_timer sl = None.

Definition ended (P : LinkState -> Prop) (s : tcp) : Prop :=
  tcp_finished_ s = true /\ retry_off s /\
  forall i l, store s !! i = Some l -> P (link_state l).

Section Ended.

Context (P : LinkState -> Prop) (P_closed : P Closed).

Lemma ended_update_link i g s :
  (forall l, P (link_state l) -> P (link_state (g l))) -> ended P s -> ended P (update_link i g s).
Proof.
  intros Hg (Hf & Hr & Hl). split_and!; [done|done|]. intros k l Hk. cbn in Hk.
  rewrite list_lookup_alter in Hk. case_decide; [|by apply (Hl k)].
  destruct (store s !! i) as [l'|] eqn:E; [|done]. injection Hk as <-. by apply Hg, (Hl i).
Qed.

Lemma ended_update_slot j g s :
  (forall sl, slots_ s !! j = Some sl -> retry_timer sl = None -> retry_timer (g sl) = None) ->
  ended P s -> ended P (update_slot j g s).
Proof.
  intros Hg (Hf & Hr & Hl). split_and!; [done| |done]. intros k sl Hk. cbn in Hk.
  rewrite list_lookup_alter in Hk. case_decide; [|by apply (Hr k)].
  destruct (slots_ s !! j) as [sl'|] eqn:E; [|done]. injection Hk as <-. by apply Hg, (Hr j).
Qed.

Lemma ended_maybeExit s : ended P s -> ended P (maybeExitWaitLoop s).
Proof. intros H. unfold maybeExitWaitLoop. destruct (waiting_for_ s); by split_ifs. Qed.

Lemma ended_scheduleRetry e j s : ended P s -> ended P (scheduleRetry e j s).
Proof. intros H. unfold scheduleRetry. destruct H as (Hf & ?). by rewrite Hf. Qed.

Lemma ended_shut i s : (i < length (store s))%nat -> ended P s -> ended P (shut i s).
Proof.
  intros [l Hl]%lookup_lt_is_Some_2 (Hf & Hr & Hs).
  destruct (shut_effect i l s Hl) as (E1 & E2 & _ & _ & _ & _ & E3 & _).
  split_and!; [congruence|unfold retry_off; by rewrite E2|]. intros k l' Hk. rewrite E1 in Hk.
  rewrite list_lookup_alter in Hk. case_decide; [|by apply (Hs k)].
  rewrite Hl in Hk. by injection Hk as <-.
Qed.

Lemma ended_release i s : ended P s -> ended P (snd (release i s)).
Proof.
  intros H. destruct (release_slot i s) as [-> | (g & -> & _ & Hg & _)]; [done|].
  apply ended_update_slot; [|done]. intros sl Hsl Hn.
  unfold slot_at in Hg. rewrite (list_lookup_total_correct _ _ _ Hsl) in Hg. by rewrite Hg.
Qed.

Lemma ended_onEvent_close e i s : (i < length (store s))%nat -> ended P s -> ended P (onEvent_close e i s).
Proof.
  intros Hi H. rewrite onEvent_close_eq. apply ended_maybeExit.
  assert (ended P (snd (release i (count_end (link_state (link_at s i)) (shut i s))))) as H'.
  { apply ended_release. pose proof (ended_shut i s Hi H). by destruct (link_state (link_at s i)). }
  destruct (link_state (link_at s i)); try done;
    destruct (fst (release i _)); auto using ended_scheduleRetry.
Qed.

Lemma ended_closeLink e t i s : (i < length (store s))%nat -> ended P s -> ended P (closeLink e t i s).
Proof.
  intros Hi H. rewrite closeLink_eq. pose proof (ended_shut i s Hi H) as H'.
  destruct (link_state _), t; split_ifs; try done; apply ended_onEvent_close; by rewrite ?shut_length.
Qed.

Lemma ended_foldl (f : tcp -> nat -> tcp) ls s :
  (forall s i, (i < length (store s))%nat -> ended P s ->
     ended P (f s i) /\ length (store (f s i)) = length (store s)) ->
  (forall i, i ∈ ls -> (i < length (store s))%nat) -> ended P s -> ended P (foldl f s ls).
Proof.
  intros Hf. revert s. induction ls as [|i ls IH]; intros s Hr H; cbn; [done|].
  destruct (Hf s i (Hr i ltac:(by left)) H) as [H' El].
  apply IH; [|done]. intros k Hk. rewrite El. apply Hr. by right.
Qed.

Context (P_not_connecting : ~ P Connecting).

Lemma ended_not_connecting s i : ended P s -> link_state (link_at s i) <> Connecting.
Proof.
  intros (_ & _ & Hl) E. apply P_not_connecting. rewrite <- E. unfold link_at.
  rewrite list_lookup_total_alt in *. destruct (store s !! i) eqn:Ei; [by apply (Hl i)|done].
Qed.

Lemma ended_onEvent e i ev s : (i < length (store s))%nat -> ended P s -> ended P (onEvent e i ev s).
Proof.
  intros Hi H. destruct ev; cbn [onEvent]; auto using ended_onEvent_close.
  pose proof (ended_not_connecting s i H). by destruct (link_state (link_at s i)).
Qed.

Lemma ended_onTimer e i s : (i < length (store s))%nat -> ended P s -> ended P (onTimer e i s).
Proof.
  intros Hi H. unfold onTimer. pose proof (ended_not_connecting s i H).
  destruct (link_state (link_at s i)); try done. by apply ended_closeLink.
Qed.

Lemma ended_onEchoMismatch e i s : (i < length (store s))%nat -> ended P s -> ended P (onEchoMismatch e i s).
Proof.
  intros Hi H. unfold onEchoMismatch. apply ended_maybeExit.
  assert (forall b, ended P (closeLink e NoFlush i (set_flow (next_slot_ s) (waiting_for_ s)
            (tcp_finished_ s) b (count tcp_echo_mismatch s)))) as H' by (intros b; by apply ended_closeLink).
  split_ifs; auto using ended_scheduleRetry.
Qed.

Lemma ended_onEcho e i b s : (i < length (store s))%nat -> ended P s -> ended P (onEcho e i b s).
Proof.
  intros Hi H. rewrite onEcho_eq. destruct (inflight _) as [|m q]; [by apply ended_onEchoMismatch|].
  destruct (negb _); [by apply ended_onEchoMismatch|]. cbn zeta. apply ended_maybeExit.
  assert (ended P (message_echoed (now e) i m q s)) as H'.
  { unfold message_echoed. pose proof (ended_update_link i (link_with_inflight q) s (fun l Hl => Hl) H).
    by destruct tcp_measure_latencies_. }
  destruct (link_state _), q; try done. apply ended_closeLink; [|done].
  by rewrite message_echoed_store, length_alter.
Qed.

Lemma ended_onData_loop fuel e i s :
  (i < length (store s))%nat -> ended P s -> ended P (onData_loop fuel e i s).
Proof.
  revert s. induction fuel as [|fuel IH]; intros s Hi H; cbn; [done|]. split_ifs; [|done].
  apply IH; [rewrite onEcho_length; cbn; by rewrite length_alter|].
  apply ended_onEcho; [cbn; by rewrite length_alter|]. by apply ended_update_link.
Qed.

Lemma ended_onData e i d s : (i < length (store s))%nat -> ended P s -> ended P (onData e i d s).
Proof.
  intros Hi H. unfold onData. split_ifs; [done|].
  apply ended_onData_loop; [cbn; by rewrite length_alter|]. by apply ended_update_link.
Qed.

Lemma ended_connectNext e c j s : ended P s -> connectNext e c j s = s.
Proof. intros (Hf & _). unfold connectNext. by rewrite Hf. Qed.

Lemma ended_tryStartRequest e c cb s :
  ended P s -> ended P (TcpBenchmarkClientImpl_tryStartRequest e c cb s).
Proof.
  intros H. rewrite tryStartRequest_eq. cbn zeta. set (s0 := advance s).
  assert (ended P s0) as H0 by done.
  destruct (active _) as [i|]; [|done]. destruct (link_state _); try done.
  destruct (_ || _); [done|].
  assert (ended P (message_sent (now e) i cb s0)) as H1.
  { unfold message_sent.
    pose proof (ended_update_link i link_count_sent s0 (fun l Hl => Hl) H0).
    destruct (expect_echo_ (tcp_config s0)); [|done].
    pose proof (ended_update_link i link_count_sent _ (fun l Hl => Hl)
      (ended_update_link i (link_with_inflight (inflight (link_at s0 i) ++ [mkMessage (now e) cb])) s0
         (fun l Hl => Hl) H0)). done. }
  destruct (_ && _); [|done]. by rewrite ended_connectNext.
Qed.

End Ended.

(** *** The phases of an execution *)

Definition allowed (w : WaitingFor) (st : LinkState) : Prop :=
  st <> Connecting /\ (w = Nothing -> st = Closed).

Record phase_ok (s : tcp) : Prop := {
  ph_opens : waiting_for_ s = Opens -> tcp_finished_ s = false;
  ph_echoes : waiting_for_ s = Echoes -> tcp_finished_ s = true;
  ph_ended : tcp_finished_ s = true -> ended (allowed (waiting_for_ s)) s;
}.

Lemma allowed_closed w : allowed w Closed.
Proof. done. Qed.

Lemma allowed_connecting w : ~ allowed w Connecting.
Proof. by intros []. Qed.

(** Operations within a phase. *)
Lemma phase_ok_within s s' :
  same_phase s s' -> (forall w, ended (allowed w) s -> ended (allowed w) s') ->
  phase_ok s -> phase_ok s'.
Proof.
  intros (Ef & Ew & _) He [H1 H2 H3]. split; rewrite ?Ef, ?Ew; auto.
Qed.

(** A link closed stays closed, and a loop over links closes each. *)
Definition close_all (f : tcp -> nat -> tcp) : Prop :=
  forall s i, (i < length (store s))%nat ->
    store (f s i) = store s \/ store (f s i) = alter shut_link i (store s).

Lemma close_all_length f s i :
  close_all f -> (i < length (store s))%nat -> length (store (f s i)) = length (store s).
Proof. intros Hf Hi. destruct (Hf s i Hi) as [-> | ->]; by rewrite ?length_alter. Qed.

Lemma foldl_states (Q : LinkState -> Prop) f ls s :
  Q Closed -> close_all f ->
  (forall s i, (i < length (store s))%nat -> Q (link_state (link_at (f s i) i))) ->
  (forall i, i ∈ ls -> (i < length (store s))%nat) ->
  (forall i l, store s !! i = Some l -> i ∈ ls \/ Q (link_state l)) ->
  forall i l, store (foldl f s ls) !! i = Some l -> Q (link_state l).
Proof.
  intros HQ Hf Hq. revert s. induction ls as [|k ls IH]; intros s Hr Hs; cbn.
  { intros i l Hi. by destruct (Hs i l Hi) as [?%elem_of_nil|]. }
  assert (k < length (store s))%nat as Hk by (apply Hr; by left).
  apply IH.
  - intros i Hi. rewrite close_all_length by done. apply Hr. by right.
  - intros i l Hi. destruct (decide (i = k)) as [-> | Hne].
    { right. rewrite <- (link_at_lookup _ _ _ Hi). by apply Hq. }
    assert (store s !! i = Some l) as Hi'.
    { destruct (Hf s k Hk) as [E | E]; rewrite E in Hi; [done|]. by rewrite list_lookup_alter_ne in Hi. }
    destruct (Hs i l Hi') as [[-> | ?]%elem_of_cons | ?]; [done|by left|by right].
Qed.

Lemma close_connecting_close_all e : close_all (close_connecting e).
Proof.
  intros s i [l Hl]%lookup_lt_is_Some_2. unfold close_connecting.
  rewrite (link_at_lookup s i l Hl). destruct (link_state l) eqn:E; auto.
  rewrite (closeLink_store _ _ _ l) by done. rewrite E. auto.
Qed.

Lemma close_connecting_state e s i :
  (i < length (store s))%nat -> link_state (link_at (close_connecting e s i) i) <> Connecting.
Proof.
  intros [l Hl]%lookup_lt_is_Some_2. unfold close_connecting.
  rewrite (link_at_lookup s i l Hl). destruct (link_state l) eqn:E;
    try (rewrite (link_at_lookup s i l Hl); congruence).
  rewrite (link_at_lookup _ i (shut_link l)); [done|].
  rewrite (closeLink_store _ _ _ l) by done. by rewrite E, list_lookup_alter_eq, Hl.
Qed.

Lemma drain_link_closed e s i l :
  store s !! i = Some l ->
  store (drain_link e s i) = match link_state l with
                             | Closed => store s
                             | _ => alter shut_link i (store s)
                             end.
Proof.
  intros Hl. unfold drain_link.
  by split_ifs; rewrite (closeLink_store _ _ _ l) by done.
Qed.

Lemma drain_link_close_all e : close_all (drain_link e).
Proof.
  intros s i [l Hl]%lookup_lt_is_Some_2. rewrite (drain_link_closed e s i l Hl).
  destruct (link_state l); auto.
Qed.

Lemma drain_link_state e s i :
  (i < length (store s))%nat -> link_state (link_at (drain_link e s i) i) = Closed.
Proof.
  intros [l Hl]%lookup_lt_is_Some_2. pose proof (drain_link_closed e s i l Hl) as Ed.
  destruct (link_state l) eqn:El; unfold link_at; rewrite Ed, list_lookup_total_alt;
    rewrite ?list_lookup_alter_eq, Hl; done.
Qed.

(** Links no slot holds are closed. *)
Lemma unheld_closed started s i l :
  tcp_inv started s -> store s !! i = Some l -> i ∈ links s \/ link_state l = Closed.
Proof.
  intros H Hi. destruct (decide (link_state l = Closed)); [by right|left].
  destruct (lk_held _ _ _ _ (inv_link_ok started i l s H Hi)) as (sl & Hsl & Hin); [done|].
  apply links_elem. exists (link_slot l). split; [by apply lookup_lt_Some in Hsl|].
  unfold slot_at. by rewrite (list_lookup_total_correct _ _ _ Hsl).
Qed.

(** The last part of [finish] closes every link. *)
Lemma finish_close_ended started e s :
  tcp_inv started s -> ended (fun _ => True) s -> ended (fun st => st = Closed) (finish_close e s).
Proof.
  intros H He. unfold finish_close.
  destruct (ended_foldl (fun _ => True) (drain_link e) (links s) s) as (Hf & Hr & _);
    [|intros i; by apply (links_range started)|done|].
  { intros s' i Hi H'. split; [|by apply close_all_length, Hi; apply drain_link_close_all].
    unfold drain_link. apply ended_closeLink; split_ifs; done. }
  split_and!; [done|done|].
  apply (foldl_states (fun st => st = Closed)); try done.
  - apply drain_link_close_all.
  - apply drain_link_state.
  - intros i. by apply (links_range started).
  - intros i l. by apply (unheld_closed started).
Qed.

Lemma ended_weaken (P Q : LinkState -> Prop) s : (forall st, P st -> Q st) -> ended P s -> ended Q s.
Proof. intros HPQ (? & ? & ?). split_and!; eauto. Qed.

(** The state in which [finish] starts to close and wait. *)
Definition finish_started (s : tcp) : tcp :=
  set_slots (map (slot_with_retry_timer None) (slots_ s))
    (set_flow (next_slot_ s) (waiting_for_ s) true (echo_mismatch_logged_ s) s).

Lemma finish_eq e s :
  TcpBenchmarkClientImpl_finish e s =
  if tcp_finished_ s then (false, s)
  else
    let s1 := foldl (close_connecting e) (finish_started s) (links (finish_started s)) in
    if anyInflight s1 then (true, set_waiting Echoes s1) else (false, finish_close e s1).
Proof. done. Qed.

Lemma inv_finish_started started s : tcp_inv started s -> tcp_inv started (finish_started s).
Proof.
  intros H. apply (inv_retry_off started
    (set_flow (next_slot_ s) (waiting_for_ s) true (echo_mismatch_logged_ s) s)).
  apply inv_set_flow; [by apply (inv_next started s)|done].
Qed.

Lemma inv_finish_connecting started e s :
  tcp_inv started s -> tcp_inv started (foldl (close_connecting e) s (links s)).
Proof.
  intros H. apply inv_foldl; [apply inv_close_connecting| |done]. intros i. by apply (links_range started).
Qed.

Lemma finish_connecting_ended started e s :
  tcp_inv started s ->
  ended (fun st => st <> Connecting)
    (foldl (close_connecting e) (finish_started s) (links (finish_started s))).
Proof.
  intros H%inv_finish_started.
  assert (ended (fun _ => True) (finish_started s)) as He.
  { split_and!; [done| |done]. intros j sl Hj. cbn in Hj.
    change (map ?f ?l) with (f <$> l) in Hj. rewrite list_lookup_fmap in Hj.
    destruct (slots_ s !! j); [|done]. by injection Hj as <-. }
  set (s1 := finish_started s) in *.
  destruct (ended_foldl (fun _ => True) (close_connecting e) (links s1) s1) as (Hf & Hr & _);
    [|intros i; by apply (links_range started)|done|].
  { intros s' i Hi H'. split; [|by apply close_all_length, Hi; apply close_connecting_close_all].
    unfold close_connecting. destruct (link_state _); auto using ended_closeLink. }
  split_and!; [done|done|].
  apply (foldl_states (fun st => st <> Connecting)); try done.
  - apply close_connecting_close_all.
  - apply close_connecting_state.
  - intros i. by apply (links_range started).
  - intros i l Hi. destruct (unheld_closed started s1 i l H Hi) as [|E]; [by left|right].
    congruence.
Qed.

Lemma phase_ok_finished s : waiting_for_ s = Nothing -> ended (fun st => st = Closed) s -> phase_ok s.
Proof.
  intros Hw He. split; rewrite Hw; try done. intros _.
  apply (ended_weaken (fun st => st = Closed)); [|done]. by intros st ->.
Qed.

Lemma phase_finish_close s0 e s : same_phase s0 s -> same_phase s0 (finish_close e s).
Proof.
  intros H. apply phase_foldl; [|done]. intros s' i H'. unfold drain_link.
  split_ifs; auto with phase.
Qed.

Lemma phase_finish_connecting s0 e ls s :
  same_phase s0 s -> same_phase s0 (foldl (close_connecting e) s ls).
Proof.
  apply phase_foldl. intros s' i H'. unfold close_connecting. destruct (link_state _); auto with phase.
Qed.

Lemma phase_ok_finish started e s :
  tcp_inv started s -> waiting_for_ s = Nothing -> phase_ok s ->
  phase_ok (snd (TcpBenchmarkClientImpl_finish e s)).
Proof.
  intros Hi Hw H. rewrite finish_eq. destruct (tcp_finished_ s) eqn:Ef; [done|]. cbn zeta.
  pose proof (finish_connecting_ended started e s Hi) as He.
  pose proof (inv_finish_connecting started e _ (inv_finish_started started s Hi)) as Hi1.
  destruct (phase_finish_connecting _ e (links (finish_started s)) _ (phase_refl (finish_started s)))
    as (_ & Ew & _).
  set (s1 := foldl _ _ _) in *. destruct (anyInflight s1); cbn [snd].
  - split; cbn [set_waiting set_flow waiting_for_ tcp_finished_]; try done; [by intros _; destruct He|]. intros _.
    apply (ended_weaken (fun st => st <> Connecting)); [by intros st Hst|done].
  - apply phase_ok_finished.
    + destruct (phase_finish_close _ e _ (phase_refl s1)) as (_ & Ew' & _).
      rewrite Ew', Ew. done.
    + apply (finish_close_ended started); [done|]. by apply (ended_weaken (fun st => st <> Connecting)).
Qed.

Lemma phase_ok_terminate_close started e s :
  tcp_inv started s -> phase_ok s -> phase_ok (terminate_close e s).
Proof.
  intros Hi. apply phase_ok_within.
  - apply phase_foldl; [|auto with phase]. auto with phase.
  - intros w H. apply ended_foldl; [|intros i; by apply (links_range started s)|done].
    intros s' i Hr He. split; [by apply ended_onEvent_close|by apply onEvent_close_length].
Qed.

Lemma phase_ok_step started s l s' :
  tcp_inv started s -> tcp_step s l s' -> phase_ok s -> phase_ok s'.
Proof.
  intros Hinv Hstep H. destruct Hstep as
    [e i ev s Hi|e i data s Hi|i b s Hi|e i s Hi Ht|e c j s Hj Ht|e c cb s|b s|s Hw|e s Hw|e s Hw|e s Hw].
  - apply (phase_ok_within s); [auto with phase| |done].
    intros w. by apply ended_onEvent; [|apply allowed_connecting|].
  - apply (phase_ok_within s); [by apply phase_onData, phase_refl| |done].
    intros w. by apply ended_onData.
  - apply (phase_ok_within s); [auto with phase| |done]. intros w Hw.
    unfold onWriteBlocked. apply ended_update_link; [done|]. by split_ifs.
  - apply (phase_ok_within s); [auto with phase| |done]. intros w Hw.
    apply ended_onTimer; [done|apply allowed_connecting|cbn; by rewrite length_alter|].
    by apply ended_update_link.
  - assert (tcp_finished_ s = false) as Ef.
    { destruct (tcp_finished_ s) eqn:Ef; [|done]. exfalso.
      destruct (ph_ended s H Ef) as (_ & Hr & _). unfold slot_at in Ht.
      destruct (lookup_lt_is_Some_2 _ _ Hj) as [sl Hsl].
      rewrite (list_lookup_total_correct _ _ _ Hsl), (Hr j sl Hsl) in Ht. by destruct Ht. }
    apply (phase_ok_within s); [unfold retry_timer_fires; auto with phase| |done].
    intros w (Hf & _). congruence.
  - apply (phase_ok_within s); [by apply phase_tryStartRequest, phase_refl| |done].
    intros w Hw. by apply ended_tryStartRequest.
  - apply (phase_ok_within s); [auto with phase|done|done].
  - pose proof (ph_opens s H Hw) as Ef. split; cbn; [done|done|]. congruence.
  - by apply (phase_ok_finish started).
  - pose proof (ph_ended s H (ph_echoes s H Hw)) as He. apply phase_ok_finished.
    + by destruct (phase_finish_close _ e _ (phase_refl (set_waiting Nothing s))) as (_ & Ew' & _).
    + apply (finish_close_ended started); [by apply inv_set_waiting|].
      by apply (ended_weaken (allowed (waiting_for_ s))).
  - unfold TcpBenchmarkClientImpl_terminate.
    pose proof (phase_ok_finish started e s Hinv Hw H) as Hf.
    pose proof (inv_finish started e s Hinv) as Hi.
    destruct (TcpBenchmarkClientImpl_finish e s) as [[] s']; [done|].
    by apply (phase_ok_terminate_close started).
Qed.

Lemma phase_prepare_opens s0 e c todo s :
  same_phase s0 s -> same_phase s0 (prepare_opens e c todo s).
Proof. revert s. induction todo as [|j todo IH]; intros s H; cbn; auto with phase. Qed.

Lemma reachable_phase_ok cfg started s : tcp_reachable cfg started s -> phase_ok s.
Proof.
  induction 1 as [e c request s0 s Hn Hp|started s l s' Hr IH Hs].
  - unfold prepare in Hp. destruct request as [body|]; [|done]. destruct (_ && _); [done|].
    injection Hp as <-.
    destruct (phase_prepare_opens _ e c (seq 0 (connection_count_ (tcp_config (set_message body s0)))) _
                (phase_refl (set_message body s0))) as (Ef & Ew & _).
    assert (tcp_finished_ s0 = false /\ waiting_for_ s0 = Nothing) as [Ef0 Ew0].
    { unfold TcpBenchmarkClientImpl_new in Hn. destruct (_ =? 0)%nat in Hn; [done|].
      destruct (_ =? 0)%nat in Hn; [done|]. by injection Hn as <-. }
    change (tcp_finished_ (set_message body s0)) with (tcp_finished_ s0) in Ef.
    change (waiting_for_ (set_message body s0)) with (waiting_for_ s0) in Ew.
    set (s1 := prepare_opens _ _ _ _) in *. clearbody s1. rewrite Ef0 in Ef. rewrite Ew0 in Ew.
    destruct (0 <? pending_opens_ s1); split; intros Hx; try done; try congruence;
      cbn in Hx; congruence.
  - apply (phase_ok_step started s l); [by apply (reachable_inv cfg)|done|done].
Qed.

(** ** Waiting

    While [prepare] or [finish] runs the event loop, either what it waits for
    is not there yet, or an exit was requested since there were [n]. *)

Definition woken (n : nat) (s : tcp) : Prop :=
  (n <= exits_requested s)%nat /\
  match waiting_for_ s with
  | Opens => pending_opens_ s <> 0 \/ (n < exits_requested s)%nat
  | Echoes => anyInflight s = true \/ (n < exits_requested s)%nat
  | Nothing => True
  end.

Lemma woken_maybeExit n s : (n <= exits_requested s)%nat -> woken n (maybeExitWaitLoop s).
Proof.
  intros Hn. unfold maybeExitWaitLoop, woken. destruct (waiting_for_ s) eqn:Ew.
  - by rewrite Ew.
  - destruct (pending_opens_ s =? 0) eqn:Ep; cbn; rewrite Ew; b2p; split; auto; right; lia.
  - destruct (anyInflight s) eqn:Ea; cbn; rewrite Ew; split; auto; right; lia.
Qed.

Lemma woken_maybeExit_from n s0 s :
  woken n s0 -> same_phase s0 s -> woken n (maybeExitWaitLoop s).
Proof. intros [Hn _] (_ & _ & He). apply woken_maybeExit. lia. Qed.

Lemma anyInflight_true s :
  anyInflight s = true <-> exists i, i ∈ links s /\ inflight (link_at s i) <> [].
Proof.
  unfold anyInflight. rewrite existsb_exists. split.
  - intros (i & Hi & Hn). exists i. split; [by apply list_elem_of_In|].
    unfold no_inflight in Hn. by destruct (inflight (link_at s i)).
  - intros (i & Hi & Hn). exists i. split; [by apply list_elem_of_In|].
    unfold no_inflight. by destruct (inflight (link_at s i)).
Qed.

(** A change that lets go of no link and of no message. *)
Lemma woken_keeps n s s' :
  same_phase s s' -> pending_opens_ s' = pending_opens_ s ->
  (forall i, i ∈ links s -> inflight (link_at s i) <> [] ->
     i ∈ links s' /\ inflight (link_at s' i) <> []) ->
  woken n s -> woken n s'.
Proof.
  intros (_ & Ew & Ee) Ep Hk [Hn H]. split; [lia|]. rewrite Ew. destruct (waiting_for_ s); [done|..].
  - rewrite Ep. destruct H; [by left|right; lia].
  - destruct H as [H|H]; [left|right; lia].
    apply anyInflight_true in H as (i & Hi & Hq). apply anyInflight_true. exists i. auto.
Qed.

Lemma woken_same n s s' :
  same_phase s s' -> pending_opens_ s' = pending_opens_ s -> slots_ s' = slots_ s ->
  store s' = store s -> woken n s -> woken n s'.
Proof.
  intros Hp Ep Es Et. apply woken_keeps; [done|done|].
  intros i. unfold links, link_at. by rewrite Es, Et.
Qed.

Lemma woken_update_link n i g s :
  (forall l, inflight l <> [] -> inflight (g l) <> []) -> woken n s -> woken n (update_link i g s).
Proof.
  intros Hg. apply woken_keeps; [auto with phase|done|]. intros k Hk Hq. split; [done|].
  unfold link_at in *. cbn. rewrite list_lookup_total_alter.
  case_decide as E; [destruct E as [-> _]; by apply Hg|done].
Qed.

Lemma woken_update_slot n j g s :
  (forall sl k, k ∈ slot_links sl -> k ∈ slot_links (g sl)) -> woken n s -> woken n (update_slot j g s).
Proof.
  intros Hg. apply woken_keeps; [auto with phase|done|]. intros k Hk Hq. split; [|done].
  apply links_elem in Hk as (m & Hm & Hk). apply links_elem. exists m. cbn. rewrite length_alter.
  split; [done|]. unfold slot_at in *. cbn. rewrite list_lookup_total_alter.
  case_decide as E; [destruct E as [-> _]; by apply Hg|done].
Qed.

Lemma woken_onEvent_close n e i s : woken n s -> woken n (onEvent_close e i s).
Proof.
  intros H. rewrite onEvent_close_eq. apply (woken_maybeExit_from n s); [done|].
  set (r := release i _). assert (same_phase s (snd r)) as Hr by (unfold r; auto with phase).
  destruct (link_state (link_at s i)), (fst r); auto with phase.
Qed.

Lemma woken_onEvent n e i ev s : woken n s -> woken n (onEvent e i ev s).
Proof.
  intros H. destruct ev; [|done|by apply woken_onEvent_close..].
  destruct (link_state (link_at s i)) eqn:E; try (cbn; by rewrite E).
  rewrite onEvent_connected_eq by done. apply (woken_maybeExit_from n s); [done|].
  cbn zeta. split_ifs; auto with phase.
Qed.

Lemma woken_onTimer n e i s : woken n s -> woken n (onTimer e i s).
Proof.
  intros H. unfold onTimer. destruct (link_state (link_at s i)) eqn:E; try done.
  - apply (woken_maybeExit_from n s); auto with phase.
  - rewrite closeLink_eq, E. rewrite onEvent_close_eq. apply (woken_maybeExit_from n s); [done|].
    set (r := release i _). assert (same_phase s (snd r)) as Hr by (unfold r; auto with phase).
    destruct (link_state (link_at (shut i s) i)), (fst r); auto with phase.
Qed.

Lemma woken_onEcho n e i b s : woken n s -> woken n (onEcho e i b s).
Proof.
  intros H.
  assert (woken n (onEchoMismatch e i s)) as Hm.
  { apply (woken_maybeExit_from n s); [done|]. split_ifs; auto 8 with phase. }
  rewrite onEcho_eq. destruct (inflight _) as [|m q]; [done|]. destruct (negb _); [done|].
  cbn zeta. apply (woken_maybeExit_from n s); [done|].
  destruct (link_state _), q; auto with phase.
Qed.

Lemma woken_onData n e i d s : woken n s -> woken n (onData e i d s).
Proof.
  intros H. unfold onData. destruct (_ || _); [done|].
  assert (woken n (update_link i (link_with_received (received (link_at s i) ++ d)) s)) as H'
    by (by apply woken_update_link).
  revert H'. generalize (onData_fuel (link_at s i) d) as fuel.
  generalize (update_link i (link_with_received (received (link_at s i) ++ d)) s). clear s H.
  intros s fuel. revert s. induction fuel as [|fuel IH]; intros s H; cbn; [done|].
  destruct (_ && _); [|done]. apply IH, woken_onEcho. by apply woken_update_link.
Qed.

Lemma woken_scheduleRetry n e j s : woken n s -> woken n (scheduleRetry e j s).
Proof.
  intros H. destruct (scheduleRetry_slot e j s) as [-> | (b & _ & ->)]; [done|].
  by apply woken_update_slot.
Qed.

Lemma woken_link_added n started e j role s :
  tcp_inv started s -> place_free role (slot_at s j) ->
  woken n s -> woken n (link_added e j role false s).
Proof.
  intros Hi Hf. apply woken_keeps; [auto with phase|done|]. intros k Hk Hq. split.
  - apply links_elem in Hk as (m & Hm & Hk). apply links_elem. exists m. cbn. rewrite length_alter.
    split; [done|]. revert Hk. unfold slot_at in *. cbn. rewrite list_lookup_total_alter, !slot_links_elem.
    case_decide as E; [destruct E as [-> _]|done].
    destruct role; cbn in *; rewrite Hf; intros [?|[?|?]]; auto; discriminate.
  - unfold link_at in *. cbn. rewrite lookup_total_app_l; [done|]. by apply (links_range started).
Qed.

Lemma woken_open n started e c j role s :
  tcp_inv started s -> place_free role (slot_at s j) ->
  woken n s -> woken n (open e c j role false s).
Proof.
  intros Hi Hf H. rewrite open_eq. destruct c as [[ev|]|].
  - apply woken_onEvent. by apply (woken_link_added n started).
  - by apply (woken_link_added n started).
  - apply woken_scheduleRetry. by apply (woken_same n s); auto with phase.
Qed.

Lemma woken_connectNext n started e c j s :
  tcp_inv started s -> woken n s -> woken n (connectNext e c j s).
Proof.
  intros Hi H. unfold connectNext. destruct (tcp_finished_ s); [done|].
  destruct (active (slot_at s j)) eqn:Ea, (standby (slot_at s j)) eqn:Es; try done.
  - destruct (link_state _); try done. destruct (rotationDue _ _); [|done]. by apply (woken_open n started).
  - by apply (woken_open n started).
Qed.

Lemma woken_message_sent n t i cb s : woken n s -> woken n (message_sent t i cb s).
Proof.
  intros H. unfold message_sent.
  assert (woken n (update_link i (link_with_inflight (inflight (link_at s i) ++ [mkMessage t cb])) s))
    as H1 by (apply woken_update_link; [intros l _ E; by apply app_nil in E as [_ E]|done]).
  destruct (expect_echo_ (tcp_config s)).
  - eapply (woken_same n); [| | | |by apply (woken_update_link n i link_count_sent _ (fun l Hl => Hl) H1)];
      [auto with phase|done..].
  - apply (woken_same n (update_link i link_count_sent s)); [auto with phase|done..|].
    by apply woken_update_link.
Qed.

Lemma woken_tryStartRequest n started e c cb s :
  tcp_inv started s -> woken n s -> woken n (TcpBenchmarkClientImpl_tryStartRequest e c cb s).
Proof.
  intros Hi H.
  assert (forall l n', woken n (call_back [] l (count n' (advance s)))) as Hr
    by (intros l n'; by apply (woken_same n s); auto with phase).
  rewrite tryStartRequest_eq. cbn zeta.
  destruct (active (slot_at s (next_slot_ s))) as [i|] eqn:Ea; [|done].
  destruct (link_state (link_at s i)) eqn:El; try done. destruct (_ || _) eqn:Eb; [done|].
  assert (woken n (message_sent (now e) i cb (advance s))) as Hs
    by (apply woken_message_sent; by apply (woken_same n s); auto with phase).
  destruct (_ && _); [|done]. apply (woken_connectNext n (started ++ [cb])); [|done].
  by apply inv_sent_next.
Qed.

Lemma woken_terminate_close n e s : woken n s -> woken n (terminate_close e s).
Proof.
  intros H. unfold terminate_close. change (links (set_measure false s)) with (links s).
  assert (woken n (set_measure false s)) as H' by (by apply (woken_same n s); auto with phase).
  revert H'. generalize (links s) (set_measure false s). clear.
  intros ls. induction ls as [|i ls IH]; intros s H; cbn; auto using woken_onEvent_close.
Qed.

(** [finish] leaves the wait loop at once, or starts to wait for something. *)
Lemma woken_finish n e s :
  waiting_for_ s = Nothing -> woken n s -> woken n (snd (TcpBenchmarkClientImpl_finish e s)).
Proof.
  intros Hw [Hn _]. rewrite finish_eq. destruct (tcp_finished_ s); [split; [done|]; cbn; by rewrite Hw|].
  cbn zeta.
  destruct (phase_finish_connecting _ e (links (finish_started s)) _ (phase_refl (finish_started s)))
    as (_ & Ew & Ee).
  set (s1 := foldl _ _ _) in *. clearbody s1. change (exits_requested (finish_started s)) with (exits_requested s) in Ee.
  destruct (anyInflight s1) eqn:Ea; cbn [snd].
  - split; [cbn; lia|]. by left.
  - destruct (phase_finish_close _ e _ (phase_refl s1)) as (_ & Ew' & Ee'). split; [lia|].
    rewrite Ew', Ew. cbn. by rewrite Hw.
Qed.

Lemma woken_step n started s l s' :
  tcp_inv started s -> tcp_step s l s' -> woken n s -> woken n s'.
Proof.
  intros Hinv Hstep H. destruct Hstep as
    [e i ev s Hi|e i data s Hi|i b s Hi|e i s Hi Ht|e c j s Hj Ht|e c cb s|b s|s Hw|e s Hw|e s Hw|e s Hw].
  - by apply woken_onEvent.
  - by apply woken_onData.
  - apply woken_update_link; [done|].
    destruct (_ && _); [by apply (woken_same n s); auto with phase|done].
  - by apply woken_onTimer, woken_update_link.
  - apply (woken_connectNext n started); [|by apply woken_update_slot].
    apply inv_update_slot; [|done]. intros sl _. split; [done|]. by auto.
  - by apply (woken_tryStartRequest n started).
  - by apply (woken_same n s); auto with phase.
  - destruct H as [Hn _]. split; done.
  - by apply woken_finish.
  - destruct H as [Hn _].
    destruct (phase_finish_close _ e _ (phase_refl (set_waiting Nothing s))) as (_ & Ew & Ee).
    change (exits_requested (set_waiting Nothing s)) with (exits_requested s) in Ee.
    split; [unfold finish_end; lia|]. unfold finish_end. by rewrite Ew.
  - unfold TcpBenchmarkClientImpl_terminate. pose proof (woken_finish n e s Hw H) as Hf.
    destruct (TcpBenchmarkClientImpl_finish e s) as [[] s']; [done|]. by apply woken_terminate_close.
Qed.

(** A loop that begins has something to wait for. *)
Lemma finish_waits e s :
  waiting_for_ s = Nothing ->
  let s' := snd (TcpBenchmarkClientImpl_finish e s) in
  if fst (TcpBenchmarkClientImpl_finish e s)
  then waiting_for_ s' = Echoes /\ anyInflight s' = true else waiting_for_ s' = Nothing.
Proof.
  intros Hw. cbn zeta. rewrite finish_eq. destruct (tcp_finished_ s); [done|]. cbn zeta.
  destruct (phase_finish_connecting _ e (links (finish_started s)) _ (phase_refl (finish_started s)))
    as (_ & Ew & _).
  set (s1 := foldl _ _ _) in *. clearbody s1. destruct (anyInflight s1) eqn:Ea; cbn [fst snd]; [done|].
  destruct (phase_finish_close _ e _ (phase_refl s1)) as (_ & Ew' & _). by rewrite Ew', Ew.
Qed.

Lemma loop_begins s l s' :
  tcp_step s l s' -> waiting_for_ s = Nothing ->
  waiting_for_ s' = Nothing \/ (waiting_for_ s' = Echoes /\ anyInflight s' = true).
Proof.
  intros Hstep Hw.
  assert (forall s1, same_phase s s1 -> waiting_for_ s1 = Nothing) as Hp
    by (intros s1 (_ & E & _); congruence).
  destruct Hstep as
    [e i ev s Hi|e i data s Hi|i b s Hi|e i s Hi Ht|e c j s Hj Ht|e c cb s|b s|s Hw'|e s _|e s Hw'|e s _];
    try congruence; try (left; apply Hp; unfold retry_timer_fires; auto with phase; fail).
  - left. by apply Hp, phase_onData, phase_refl.
  - left. by apply Hp, phase_tryStartRequest, phase_refl.
  - pose proof (finish_waits e s Hw) as H. cbn zeta in H.
    destruct (fst (TcpBenchmarkClientImpl_finish e s)); auto.
  - unfold TcpBenchmarkClientImpl_terminate. pose proof (finish_waits e s Hw) as H. cbn zeta in H.
    destruct (TcpBenchmarkClientImpl_finish e s) as [[] s']; cbn [fst snd] in *; [by right|left].
    assert (same_phase s' (terminate_close e s')) as (_ & E & _)
      by (apply phase_foldl; auto with phase).
    congruence.
Qed.

(** ** Echoes *)

(** What the exact echoes of the [q] oldest messages do; [r] is what is left of
    the bytes received. *)
Record echoes_taken (i q : nat) (r : list Z) (l : Link) (s s' : tcp) : Prop := {
  et_store : store s' =
    <[i := link_with_inflight (drop q (inflight l)) (link_with_received r l)]> (store s);
  et_config : tcp_config s' = tcp_config s;
  et_measure : tcp_measure_latencies_ s' = tcp_measure_latencies_ s;
  et_run : callbacks_run s' =
    callbacks_run s ++ ((fun m => (callback_id m, true)) <$> take q (inflight l));
  et_received : tcp_messages_received_ (tcp_counters s') =
    tcp_messages_received_ (tcp_counters s) + Z.of_nat q;
  et_lost : tcp_inflight_lost_ (tcp_counters s') = tcp_inflight_lost_ (tcp_counters s);
  et_mismatch : tcp_echo_mismatch_ (tcp_counters s') = tcp_echo_mismatch_ (tcp_counters s);
  et_latencies : length (message_latency_statistic_ s') =
    (length (message_latency_statistic_ s) + if tcp_measure_latencies_ s then q else 0)%nat;
}.

Lemma alter_insert {A} (f : A -> A) i (st : list A) x : st !! i = Some x -> alter f i st = <[i := f x]> st.
Proof.
  intros H. rewrite list_insert_alter. apply list_alter_ext; [|done]. intros y. rewrite H. by intros [= <-].
Qed.

Lemma maybeExit_view s :
  store (maybeExitWaitLoop s) = store s /\ tcp_config (maybeExitWaitLoop s) = tcp_config s /\
  tcp_measure_latencies_ (maybeExitWaitLoop s) = tcp_measure_latencies_ s /\
  callbacks_run (maybeExitWaitLoop s) = callbacks_run s /\
  tcp_counters (maybeExitWaitLoop s) = tcp_counters s /\
  message_latency_statistic_ (maybeExitWaitLoop s) = message_latency_statistic_ s.
Proof. unfold maybeExitWaitLoop. destruct (waiting_for_ s); by split_ifs. Qed.

(** The echo of the oldest message of an open link. *)
Lemma onEcho_taken e i l m rest s :
  store s !! i = Some l -> link_state l = Open -> inflight l = m :: rest ->
  echoes_taken i 1 (received l) l s (onEcho e i (message_ (tcp_config s)) s).
Proof.
  intros Hl Hs Hq. rewrite onEcho_eq, (link_at_lookup s i l Hl), Hq, bool_decide_eq_true_2 by done.
  cbn [negb]. cbn zeta.
  assert (link_at (message_echoed (now e) i m rest s) i = link_with_inflight rest l) as ->
    by (apply link_at_lookup; by rewrite message_echoed_store, list_lookup_alter_eq, Hl).
  cbn [link_with_inflight link_state]. rewrite Hs.
  destruct (maybeExit_view (message_echoed (now e) i m rest s)) as (E1 & E2 & E3 & E4 & E5 & E6).
  unfold message_echoed in *.
  split; rewrite ?E1, ?E2, ?E3, ?E4, ?E5, ?E6, ?Hq; cbn [drop take fmap list_fmap];
    destruct (tcp_measure_latencies_ s) eqn:Em; cbn; rewrite ?Em, ?length_app; cbn; try done; try lia.
  all: first [by rewrite length_app | rewrite (alter_insert _ _ _ l) by done; by destruct l].
Qed.

Lemma echoes_taken_trans i q1 q2 r1 r2 l s1 s2 s3 l2 :
  (i < length (store s1))%nat ->
  l2 = link_with_inflight (drop q1 (inflight l)) (link_with_received r1 l) ->
  echoes_taken i q1 r1 l s1 s2 -> echoes_taken i q2 r2 l2 s2 s3 ->
  echoes_taken i (q1 + q2) r2 l s1 s3.
Proof.
  intros Hi -> [] []. cbn in *. split.
  - rewrite et_store1, et_store0, list_insert_insert_eq, drop_drop. done.
  - congruence.
  - congruence.
  - rewrite et_run1, et_run0, <- app_assoc, <- fmap_app, take_take_drop. done.
  - lia.
  - lia.
  - lia.
  - rewrite et_latencies1, et_latencies0, et_measure0. destruct (tcp_measure_latencies_ s1); lia.
Qed.

Lemma echoes_taken_received i q r r0 l s s' :
  store s !! i = Some l ->
  echoes_taken i q r (link_with_received r0 l) (update_link i (link_with_received r0) s) s' ->
  echoes_taken i q r l s s'.
Proof.
  intros Hl []. split; try done. rewrite et_store0. cbn.
  by rewrite (alter_insert _ _ _ l Hl), list_insert_insert_eq.
Qed.

Lemma onData_loop_taken q fuel e i r l s :
  store s !! i = Some l -> link_state l = Open -> (q < fuel)%nat -> (q <= length (inflight l))%nat ->
  (length r < length (message_ (tcp_config s)))%nat ->
  received l = concat (replicate q (message_ (tcp_config s))) ++ r ->
  echoes_taken i q r l s (onData_loop fuel e i s).
Proof.
  revert fuel l s. induction q as [|q IH]; intros [|fuel] l s Hl Hs Hf Hq Hr Er; try lia;
    cbn [onData_loop]; rewrite (link_at_lookup s i l Hl); unfold carries_echoes; rewrite Er, Hs.
  - cbn [replicate concat app]. rewrite (proj2 (Nat.leb_gt _ _) Hr). cbn.
    split; rewrite ?Z.add_0_r, ?take_0, ?drop_0; cbn; rewrite ?app_nil_r; try done; [|by destruct tcp_measure_latencies_; lia].
    cbn in Er. rewrite list_insert_id; [done|]. rewrite Hl. f_equal. destruct l; cbn in *; by subst.
  - cbn [replicate concat]. rewrite <- app_assoc, take_app_length, drop_app_length, length_app.
    rewrite (proj2 (Nat.leb_le _ _)) by lia. cbn [andb].
    set (r0 := concat _ ++ r). set (s0 := update_link i (link_with_received r0) s).
    destruct (inflight l) as [|m rest] eqn:Eq; [cbn in Hq; lia|]. cbn in Hq.
    assert (store s0 !! i = Some (link_with_received r0 l)) as Hl0
      by (cbn; by rewrite list_lookup_alter_eq, Hl).
    pose proof (onEcho_taken (e fuel) i _ m rest s0 Hl0 Hs Eq) as H1.
    change (message_ (tcp_config s0)) with (message_ (tcp_config s)) in H1.
    set (s1 := onEcho _ _ _ s0) in *.
    apply (echoes_taken_received i (S q) r r0 l s); [done|].
    pose proof (lookup_lt_Some _ _ _ Hl0) as Hi.
    eapply (echoes_taken_trans i 1 q (received (link_with_received r0 l)) r); [done|reflexivity|exact H1|].
    apply IH; cbn [received link_with_received link_with_inflight link_state inflight];
      rewrite ?(et_config _ _ _ _ _ _ H1), ?Eq; rewrite ?skipn_cons, ?drop_0; try done; try lia.
    rewrite (et_store _ _ _ _ _ _ H1), list_lookup_insert_eq by done. cbn. by rewrite Eq.
Qed.

(** The bytes of exact echoes, cut anywhere, are whole echoes and the beginning
    of another. *)
Lemma split_echoes (msg : list Z) k p rest :
  msg <> [] -> p ++ rest = concat (replicate k msg) ->
  exists q r, (q <= k)%nat /\ p = concat (replicate q msg) ++ r /\ (length r < length msg)%nat /\
    r ++ rest = concat (replicate (k - q) msg).
Proof.
  intros Hm. assert (0 < length msg)%nat as Hlen by (destruct msg; cbn; [done|lia]).
  revert p. induction k as [|k IH]; intros p Hp.
  - apply app_nil in Hp as [-> ->]. exists 0%nat, []. done.
  - destruct (decide (length p < length msg)%nat) as [Hlt | Hge].
    + exists 0%nat, p. cbn. split_and!; [lia|done|lia|done].
    + cbn in Hp. assert (p = msg ++ drop (length msg) p) as Ep.
      { rewrite <- (take_drop (length msg) p) at 1. f_equal.
        apply (f_equal (take (length msg))) in Hp.
        by rewrite take_app_le, take_app_length in Hp by lia. }
      rewrite Ep, <- app_assoc in Hp. apply app_inv_head in Hp.
      destruct (IH _ Hp) as (q & r & H1 & H2 & H3 & H4).
      exists (S q), r. cbn. split_and!; [lia| |done|done]. rewrite Ep, H2 at 1. by rewrite app_assoc.
Qed.

Lemma concat_replicate_length (msg : list Z) q : length (concat (replicate q msg)) = (q * length msg)%nat.
Proof. induction q as [|q IH]; cbn; [done|]. rewrite length_app, IH. done. Qed.

(** Data that arrives in pieces, each with the readings of the clock it meets. *)
Definition onData_all (i : nat) (chunks : list ((nat -> Env) * list Z)) (s : tcp) : tcp :=
  foldl (fun s c => onData (fst c) i (snd c) s) s chunks.

Lemma onData_taken e i l d q r s :
  store s !! i = Some l -> link_state l = Open -> expect_echo_ (tcp_config s) = true ->
  message_ (tcp_config s) <> [] -> (q <= length (inflight l))%nat ->
  (length r < length (message_ (tcp_config s)))%nat ->
  received l ++ d = concat (replicate q (message_ (tcp_config s))) ++ r ->
  echoes_taken i q r l s (onData e i d s).
Proof.
  intros Hl Hs He Hm Hq Hr Ed. unfold onData, carries_echoes.
  rewrite He, (link_at_lookup s i l Hl), Hs. cbn [negb orb].
  apply (echoes_taken_received i q r (received l ++ d)); [done|].
  apply onData_loop_taken; try done.
  - cbn. by rewrite list_lookup_alter_eq, Hl.
  - unfold onData_fuel. apply (f_equal length) in Ed.
    rewrite !length_app, concat_replicate_length in Ed.
    assert (0 < length (message_ (tcp_config s)))%nat by (destruct (message_ (tcp_config s)); cbn; [done|lia]).
    nia.
Qed.

Lemma onData_all_taken chunks i l k s :
  store s !! i = Some l -> link_state l = Open -> expect_echo_ (tcp_config s) = true ->
  message_ (tcp_config s) <> [] -> (k <= length (inflight l))%nat ->
  (length (received l) < length (message_ (tcp_config s)))%nat ->
  received l ++ concat (map snd chunks) = concat (replicate k (message_ (tcp_config s))) ->
  echoes_taken i k [] l s (onData_all i chunks s).
Proof.
  revert k l s. induction chunks as [|[e d] chunks IH]; intros k l s Hl Hs He Hm Hk Hr Ed.
  - cbn in *. rewrite app_nil_r in Ed.
    assert (k = 0%nat) as ->.
    { apply (f_equal length) in Ed. rewrite concat_replicate_length in Ed. destruct k; [done|nia]. }
    cbn in Ed. split; rewrite ?Z.add_0_r, ?take_0, ?drop_0; cbn; rewrite ?app_nil_r; try done;
      [|by destruct tcp_measure_latencies_; lia].
    rewrite list_insert_id; [done|]. rewrite Hl. f_equal. destruct l; cbn in *; by subst.
  - cbn [map concat snd] in Ed. rewrite app_assoc in Ed.
    destruct (split_echoes _ _ _ _ Hm Ed) as (q & r & Hqk & Ep & Hrl & Erest).
    assert (echoes_taken i q r l s (onData e i d s)) as H1 by (apply onData_taken; done || lia).
    pose proof (lookup_lt_Some _ _ _ Hl) as Hi.
    replace k with (q + (k - q))%nat by lia.
    eapply (echoes_taken_trans i q (k - q) r []); [done|reflexivity|exact H1|].
    apply IH; rewrite ?(et_config _ _ _ _ _ _ H1); cbn; try done.
    + by rewrite (et_store _ _ _ _ _ _ H1), list_lookup_insert_eq.
    + rewrite length_drop. lia.
Qed.

(** *** The loop of [onData] ends with no whole message left *)

Lemma shut_config i s : tcp_config (shut i s) = tcp_config s.
Proof.
  unfold shut, completeInflight.
  destruct (completeInflight_loop_effect (inflight (link_at (link_closed i s) i)) false i (link_closed i s))
    as (_ & _ & _ & E & _).
  rewrite E. unfold link_closed, initialAttemptDone. by split_ifs.
Qed.

Lemma maybeExit_config s : tcp_config (maybeExitWaitLoop s) = tcp_config s.
Proof. apply maybeExit_view. Qed.

Lemma scheduleRetry_config e j s : tcp_config (scheduleRetry e j s) = tcp_config s.
Proof. by destruct (scheduleRetry_slot e j s) as [-> | (b & _ & ->)]. Qed.

Lemma onEvent_close_config e i s : tcp_config (onEvent_close e i s) = tcp_config s.
Proof.
  rewrite onEvent_close_eq. unfold after_release. rewrite maybeExit_config.
  set (s1 := count_end _ (shut i s)).
  assert (tcp_config s1 = tcp_config s) as E1
    by (unfold s1; destruct (link_state (link_at s i)); apply shut_config).
  assert (tcp_config (snd (release i s1)) = tcp_config s) as E2
    by (rewrite <- E1; by destruct (release_slot i s1) as [-> | (g & -> & _)]).
  destruct (link_state (link_at s i)), (fst (release i s1)); by rewrite ?scheduleRetry_config.
Qed.

Lemma closeLink_config e t i s : tcp_config (closeLink e t i s) = tcp_config s.
Proof.
  rewrite closeLink_eq. destruct (link_state _), t; split_ifs; rewrite ?onEvent_close_config, ?shut_config; done.
Qed.

Lemma onEchoMismatch_config e i s : tcp_config (onEchoMismatch e i s) = tcp_config s.
Proof.
  unfold onEchoMismatch. rewrite maybeExit_config.
  split_ifs; rewrite ?scheduleRetry_config, closeLink_config; done.
Qed.

Lemma onEcho_config e i b s : tcp_config (onEcho e i b s) = tcp_config s.
Proof.
  rewrite onEcho_eq. destruct (inflight _) as [|m q]; [apply onEchoMismatch_config|].
  destruct (negb _); [apply onEchoMismatch_config|]. cbn zeta. rewrite maybeExit_config.
  assert (tcp_config (message_echoed (now e) i m q s) = tcp_config s) as E
    by (unfold message_echoed; by destruct tcp_measure_latencies_).
  destruct (link_state _), q; by rewrite ?closeLink_config.
Qed.

(** The bytes received of the link stay through an echo. *)
Lemma closeLink_received e t i s : received (link_at (closeLink e t i s) i) = received (link_at s i).
Proof.
  unfold link_at. rewrite !list_lookup_total_alt. destruct (store s !! i) as [l|] eqn:El.
  - rewrite (closeLink_store e t i l s El). destruct (link_state l); rewrite ?list_lookup_alter_eq, El; done.
  - rewrite (lookup_ge_None_2 (store (closeLink e t i s)))
      by (rewrite closeLink_length; by apply lookup_ge_None_1). done.
Qed.

Lemma onEcho_received e i b s : received (link_at (onEcho e i b s) i) = received (link_at s i).
Proof.
  assert (received (link_at (onEchoMismatch e i s) i) = received (link_at s i)) as Hm.
  { unfold onEchoMismatch, link_at. rewrite maybeExit_store.
    split_ifs; rewrite ?scheduleRetry_store; apply (closeLink_received e NoFlush i). }
  rewrite onEcho_eq. destruct (inflight _) as [|m q]; [done|]. destruct (negb _); [done|]. cbn zeta.
  assert (received (link_at (message_echoed (now e) i m q s) i) = received (link_at s i)) as E.
  { unfold link_at. rewrite message_echoed_store, !list_lookup_total_alt, list_lookup_alter_eq.
    by destruct (store s !! i). }
  unfold link_at at 1. rewrite maybeExit_store. fold (link_at (message_echoed (now e) i m q s) i) in *.
  destruct (link_state _), q; try exact E. rewrite <- E. apply closeLink_received.
Qed.

(** So the fuel of the loop is enough: it stops when what is left is shorter than
    a message, or the link carries no echoes any more. *)
Lemma onData_loop_ends fuel e i s :
  message_ (tcp_config s) <> [] -> (i < length (store s))%nat ->
  (length (received (link_at s i)) < fuel)%nat ->
  let s' := onData_loop fuel e i s in
  (length (received (link_at s' i)) < length (message_ (tcp_config s')))%nat \/
  carries_echoes (link_at s' i) = false.
Proof.
  revert s. induction fuel as [|fuel IH]; intros s Hm Hi Hf; [lia|]. cbn [onData_loop] in *.
  destruct (length (message_ (tcp_config s)) <=? length (received (link_at s i)))%nat eqn:El;
    [|left; by apply Nat.leb_gt].
  destruct (carries_echoes (link_at s i)) eqn:Ec; cbn [andb]; [|by right].
  apply Nat.leb_le in El. set (s1 := update_link i _ s).
  assert (link_at s1 i = link_with_received (drop (length (message_ (tcp_config s)))
            (received (link_at s i))) (link_at s i)) as E1
    by (unfold link_at; cbn; by rewrite list_lookup_total_alter_eq).
  apply IH.
  - by rewrite onEcho_config.
  - rewrite onEcho_length. cbn. by rewrite length_alter.
  - rewrite onEcho_received, E1. cbn. rewrite length_drop.
    assert (0 < length (message_ (tcp_config s)))%nat by (destruct (message_ (tcp_config s)); cbn; [done|lia]).
    lia.
Qed.

(** ** Theorems *)

(** C17. In every reachable state each callback handed to [tryStartRequest] has
    been called once, posted to the dispatcher once, or is outstanding on one
    link, and never two of these; the counters of messages received, lost,
    deferred and unavailable count exactly these outcomes, and with an echo
    expected what was sent is what was received, lost or is outstanding. *)
Theorem tcp_every_message_accounted cfg started s :
  tcp_reachable cfg started s -> message_books started s.
Proof. intros H. apply (reachable_inv cfg started s H). Qed.

(** In every reachable state no link has more outstanding messages than
    [max_inflight_per_connection], closed and connecting links have none, a link
    that connects has its timer armed, a link that is not closed is held by its
    slot and slots hold links of theirs only, the number of pending opens is
    that of the links whose initial attempt is not over, and the backoff and
    the retry timers of the slots are between 10 ms and 1 s. *)
Lemma tcp_pool_well_formed cfg started s : tcp_reachable cfg started s -> tcp_wf s.
Proof. intros H. apply (reachable_inv cfg started s H). Qed.

(** Once [finish] has returned every link is closed with nothing
    outstanding and no retry is scheduled, whatever the drain window brought and
    whatever happened since: every callback was called or posted exactly once,
    and with an echo expected the messages sent are those received and those
    lost. *)
Lemma tcp_finish_settles cfg started s :
  tcp_reachable cfg started s -> tcp_finished_ s = true -> waiting_for_ s = Nothing ->
  (forall i l, store s !! i = Some l -> link_state l = Closed /\ inflight l = []) /\
  retry_off s /\
  started ≡ₚ (fst <$> callbacks_run s) ++ (fst <$> callbacks_posted s) /\
  (expect_echo_ (tcp_config s) = true ->
   tcp_messages_sent_ (tcp_counters s) =
   tcp_messages_received_ (tcp_counters s) + tcp_inflight_lost_ (tcp_counters s)).
Proof.
  intros Hr Hf Hw. pose proof (reachable_inv cfg started s Hr) as Hi.
  destruct (ph_ended s (reachable_phase_ok cfg started s Hr) Hf) as (_ & Hoff & Hst).
  assert (forall i l, store s !! i = Some l -> link_state l = Closed /\ inflight l = []) as Hcl.
  { intros i l Hl. assert (link_state l = Closed) as E by (by apply (Hst i l Hl)).
    split; [done|]. by apply (lk_closed _ _ _ _ (inv_link_ok started i l s Hi Hl)). }
  assert (outstanding s = []) as Ho.
  { unfold outstanding. apply elem_of_nil_inv. intros x (l & Hx & [i Hl]%list_elem_of_lookup)%list_elem_of_bind.
    destruct (Hcl i l Hl) as [_ E]. rewrite E in Hx. by apply elem_of_nil in Hx. }
  destruct Hi as [[Hc _ _ _ Hs _ _] _]. rewrite Ho in Hc, Hs. cbn in Hc. rewrite app_nil_r in Hc.
  split_and!; [done|done|done|]. intros E. rewrite E in Hs. cbn in Hs. lia.
Qed.

(** The event loops that [prepare] and [finish] run are left when what
    they wait for is there: when one begins, the initial attempts or the echoes
    it waits for are not all in, and no event ends the wait's reason without a
    request to exit made since the loop began. *)
Lemma tcp_wait_loops_are_woken cfg :
  (forall e c request s0 s, TcpBenchmarkClientImpl_new cfg = Ok s0 -> prepare e c request s0 = Ok s ->
     woken (exits_requested s) s) /\
  (forall started s l s', tcp_reachable cfg started s -> tcp_step s l s' ->
     (waiting_for_ s = Nothing -> woken (exits_requested s') s') /\
     forall n, woken n s -> woken n s').
Proof.
  split.
  - intros e c request s0 s Hn Hp.
    assert (waiting_for_ s0 = Nothing) as Ew0.
    { unfold TcpBenchmarkClientImpl_new in Hn. destruct (_ =? 0)%nat in Hn; [done|].
      destruct (_ =? 0)%nat in Hn; [done|]. by injection Hn as <-. }
    unfold prepare in Hp. destruct request as [body|]; [|done]. destruct (_ && _); [done|].
    injection Hp as <-.
    destruct (phase_prepare_opens _ e c (seq 0 (connection_count_ (tcp_config (set_message body s0)))) _
                (phase_refl (set_message body s0))) as (_ & Ew & _).
    set (s1 := prepare_opens _ _ _ _) in *. clearbody s1.
    destruct (0 <? pending_opens_ s1) eqn:Ep; b2p; (split; [done|]); cbn; [left; lia|].
    rewrite Ew. cbn. by rewrite Ew0.
  - intros started s l s' Hr%reachable_inv Hs. split; [|intros n; by apply (woken_step n started s l)].
    intros Hw. destruct (loop_begins s l s' Hs Hw) as [E | [E Ea]]; (split; [done|]); rewrite E; auto.
Qed.

(** Exact echoes are matched in order however TCP cuts them: when the bytes
    that arrive on an open link, in any number of pieces, are the message [k]
    times over and [k] messages or more are outstanding, the [k] oldest are
    completed successfully in the order they were sent, each is counted and, when
    latencies are measured, timed once, nothing is lost or taken for a mismatch,
    and the link is left as it was but for them. *)
Lemma tcp_echoes_matched_in_order chunks i l k s :
  store s !! i = Some l -> link_state l = Open -> received l = [] ->
  expect_echo_ (tcp_config s) = true -> message_ (tcp_config s) <> [] ->
  (k <= length (inflight l))%nat ->
  concat (map snd chunks) = concat (replicate k (message_ (tcp_config s))) ->
  echoes_taken i k [] l s (onData_all i chunks s).
Proof.
  intros Hl Hs Hr He Hm Hk Ed. apply onData_all_taken; try done; rewrite Hr; [|done].
  cbn. destruct (message_ (tcp_config s)); cbn; [done|lia].
Qed.

(** ** A run

    One connection, echoes of two bytes: two messages, of which one is
    answered in two pieces, and a drain that ends without the other. *)

Definition demo_tcp_config : TcpConfig := mkTcpConfig 1 2 true 1000000 5 0 [].

Definition demo_env : Env := mkEnv 0 (fun _ => true).

Definition demo_tcp_new : tcp :=
  mkTcp demo_tcp_config tcp_counters_init [slot_init] [] 0 0 false Nothing false false [] [] [] [] 0.

Definition demo_tcp_prepared : tcp :=
  match prepare (fun _ => demo_env) (fun _ => Some None) (Some [1; 2]) demo_tcp_new with
  | Ok s => s
  | _ => demo_tcp_new
  end.

Definition demo_tcp_open : tcp := prepare_end (onEvent demo_env 0 Connected demo_tcp_prepared).

Definition demo_tcp_sent : tcp :=
  TcpBenchmarkClientImpl_tryStartRequest demo_env None 8
    (TcpBenchmarkClientImpl_tryStartRequest demo_env None 7 demo_tcp_open).

Definition demo_tcp_waiting : tcp :=
  snd (TcpBenchmarkClientImpl_finish demo_env (onData (fun _ => demo_env) 0 [1; 2] demo_tcp_sent)).

Definition demo_tcp_finished : tcp := finish_end demo_env demo_tcp_waiting.

Lemma demo_tcp_prepared_reachable : tcp_reachable demo_tcp_config [] demo_tcp_prepared.
Proof.
  apply (tcp_prepared _ (fun _ => demo_env) (fun _ => Some None) (Some [1; 2]) demo_tcp_new); reflexivity.
Qed.

Lemma demo_tcp_waiting_reachable : tcp_reachable demo_tcp_config [7; 8]%nat demo_tcp_waiting.
Proof.
  assert (tcp_reachable demo_tcp_config [] demo_tcp_open) as H1.
  { apply (tcp_steps _ [] (onEvent demo_env 0 Connected demo_tcp_prepared) []);
      [|by apply step_prepared].
    apply (tcp_steps _ [] demo_tcp_prepared []); [apply demo_tcp_prepared_reachable|].
    apply step_event. vm_compute. lia. }
  assert (tcp_reachable demo_tcp_config [7; 8]%nat demo_tcp_sent) as H2.
  { apply (tcp_steps _ [7%nat] (TcpBenchmarkClientImpl_tryStartRequest demo_env None 7 demo_tcp_open)
             [8%nat]); [|apply step_request].
    apply (tcp_steps _ [] demo_tcp_open [7%nat]); [exact H1|apply step_request]. }
  apply (tcp_steps _ [7; 8]%nat (onData (fun _ => demo_env) 0 [1; 2] demo_tcp_sent) []);
    [|apply step_finish; reflexivity].
  apply (tcp_steps _ [7; 8]%nat demo_tcp_sent []); [exact H2|]. apply step_data. vm_compute. lia.
Qed.

Lemma demo_tcp_finished_reachable : tcp_reachable demo_tcp_config [7; 8]%nat demo_tcp_finished.
Proof.
  apply (tcp_steps _ [7; 8]%nat demo_tcp_waiting []); [apply demo_tcp_waiting_reachable|].
  apply step_finish_end. reflexivity.
Qed.

Lemma tcp_every_message_accounted_witness :
  tcp_messages_sent_ (tcp_counters demo_tcp_waiting) = 2 /\ message_books [7; 8]%nat demo_tcp_waiting.
Proof.
  split; [reflexivity|].
  apply (tcp_every_message_accounted demo_tcp_config). apply demo_tcp_waiting_reachable.
Defined.

Lemma tcp_pool_well_formed_witness :
  length (store demo_tcp_prepared) = 1%nat /\ tcp_wf demo_tcp_prepared.
Proof.
  split; [reflexivity|]. apply (tcp_pool_well_formed demo_tcp_config []).
  apply demo_tcp_prepared_reachable.
Defined.

Lemma tcp_finish_settles_witness :
  callbacks_run demo_tcp_finished = [(7%nat, true); (8%nat, false)] /\
  [7; 8]%nat ≡ₚ (fst <$> callbacks_run demo_tcp_finished) ++ (fst <$> callbacks_posted demo_tcp_finished).
Proof.
  split; [reflexivity|].
  apply (tcp_finish_settles demo_tcp_config [7; 8]%nat demo_tcp_finished
           demo_tcp_finished_reachable eq_refl eq_refl).
Defined.

Lemma tcp_wait_loops_are_woken_witness :
  waiting_for_ demo_tcp_prepared = Opens /\
  woken (exits_requested demo_tcp_prepared) demo_tcp_prepared.
Proof.
  split; [reflexivity|].
  apply (proj1 (tcp_wait_loops_are_woken demo_tcp_config) (fun _ => demo_env) (fun _ => Some None)
           (Some [1; 2]) demo_tcp_new); reflexivity.
Defined.

Lemma tcp_echoes_matched_in_order_witness :
  callbacks_run (onData_all 0 [(fun _ => demo_env, [1]); (fun _ => demo_env, [2])] demo_tcp_sent) =
  [(7%nat, true)].
Proof.
  destruct (tcp_echoes_matched_in_order [(fun _ => demo_env, [1]); (fun _ => demo_env, [2])] 0
              (link_at demo_tcp_sent 0) 1 demo_tcp_sent) as [_ _ _ E _ _ _ _].
  - reflexivity.
  - reflexivity.
  - reflexivity.
  - reflexivity.
  - discriminate.
  - vm_compute. lia.
  - reflexivity.
  - exact E.
Defined.
