(* ===== verification/UdpClient.v ===== *)
(** * The UDP benchmark client

    Models [engine/source/client/udp_benchmark_client_impl.{h,cc}]: one
    datagram socket, datagrams prefixed with a sequence number and matched by
    it, a sweep that gives up on those unanswered for the timeout, and a drain.

    What the socket does is explicit: how its set-up ends, whether a write
    succeeds and what is read are arguments. The ordered map of the datagrams
    outstanding is a list sorted by key. Times are in nanoseconds. *)

From S2P Require Import Prelude Text.

(** ** Data *)

Record InflightDatagram : Type := mkDatagram { dg_sent_at : Z; dg_callback : nat }.

Record UdpCounters : Type := mkUdpCounters {
  udp_datagrams_sent_ : Z;
  udp_datagrams_received_ : Z;
  udp_lost_ : Z;
  udp_unexpected_ : Z;
  udp_send_errors_ : Z;
  udp_deferred_ : Z;
  udp_unavailable_ : Z;
}.

Inductive udp_counter : Type :=
| udp_datagrams_sent | udp_datagrams_received | udp_lost | udp_unexpected | udp_send_errors
| udp_deferred | udp_unavailable.

Scheme Boolean Equality for udp_counter.

Definition udp_inc (n : udp_counter) (k : UdpCounters) : UdpCounters :=
  let one m := if udp_counter_beq n m then 1 else 0 in
  mkUdpCounters (udp_datagrams_sent_ k + one udp_datagrams_sent)
    (udp_datagrams_received_ k + one udp_datagrams_received) (udp_lost_ k + one udp_lost)
    (udp_unexpected_ k + one udp_unexpected) (udp_send_errors_ k + one udp_send_errors)
    (udp_deferred_ k + one udp_deferred) (udp_unavailable_ k + one udp_unavailable).

Record UdpConfig : Type := mkUdpConfig {
  max_inflight_ : nat;
  udp_timeout_ : Z;
  udp_drain_duration_ : Z;
}.

(** The socket is there or not; the sweep timer is not created, idle or enabled;
    [udp_run] and [udp_posted] are the completion callbacks called and posted,
    with their second argument. *)
Record UdpBenchmarkClientImpl : Type := mkUdp {
  udp_config : UdpConfig;
  udp_counters : UdpCounters;
  socket_ : bool;
  sweep_timer_ : option bool;
  udp_message_ : string;
  inflight_ : list (Z * InflightDatagram);
  next_sequence_ : Z;
  udp_measure_latencies_ : bool;
  draining_ : bool;
  udp_finished_ : bool;
  udp_latencies : list Z;
  udp_run : list (nat * bool);
  udp_posted : list (nat * bool);
  udp_exits : nat;
}.

Abbreviation udp := UdpBenchmarkClientImpl.

(** Field updates. *)
Definition udp_count (n : udp_counter) (s : udp) : udp :=
  mkUdp (udp_config s) (udp_inc n (udp_counters s)) (socket_ s) (sweep_timer_ s) (udp_message_ s)
    (inflight_ s) (next_sequence_ s) (udp_measure_latencies_ s) (draining_ s) (udp_finished_ s)
    (udp_latencies s) (udp_run s) (udp_posted s) (udp_exits s).

Definition udp_set_socket (sock : bool) (timer : option bool) (m : string) (s : udp) : udp :=
  mkUdp (udp_config s) (udp_counters s) sock timer m
    (inflight_ s) (next_sequence_ s) (udp_measure_latencies_ s) (draining_ s) (udp_finished_ s)
    (udp_latencies s) (udp_run s) (udp_posted s) (udp_exits s).

Definition udp_set_inflight (q : list (Z * InflightDatagram)) (next : Z) (s : udp) : udp :=
  mkUdp (udp_config s) (udp_counters s) (socket_ s) (sweep_timer_ s) (udp_message_ s)
    q next (udp_measure_latencies_ s) (draining_ s) (udp_finished_ s)
    (udp_latencies s) (udp_run s) (udp_posted s) (udp_exits s).

Definition udp_set_phase (measure draining finished : bool) (s : udp) : udp :=
  mkUdp (udp_config s) (udp_counters s) (socket_ s) (sweep_timer_ s) (udp_message_ s)
    (inflight_ s) (next_sequence_ s) measure draining finished
    (udp_latencies s) (udp_run s) (udp_posted s) (udp_exits s).

Definition udp_add_latency (v : Z) (s : udp) : udp :=
  mkUdp (udp_config s) (udp_counters s) (socket_ s) (sweep_timer_ s) (udp_message_ s)
    (inflight_ s) (next_sequence_ s) (udp_measure_latencies_ s) (draining_ s) (udp_finished_ s)
    (udp_latencies s ++ [v]) (udp_run s) (udp_posted s) (udp_exits s).

Definition udp_call_back (run posted : list (nat * bool)) (s : udp) : udp :=
  mkUdp (udp_config s) (udp_counters s) (socket_ s) (sweep_timer_ s) (udp_message_ s)
    (inflight_ s) (next_sequence_ s) (udp_measure_latencies_ s) (draining_ s) (udp_finished_ s)
    (udp_latencies s) (udp_run s ++ run) (udp_posted s ++ posted) (udp_exits s).

Definition udp_exit (s : udp) : udp :=
  mkUdp (udp_config s) (udp_counters s) (socket_ s) (sweep_timer_ s) (udp_message_ s)
    (inflight_ s) (next_sequence_ s) (udp_measure_latencies_ s) (draining_ s) (udp_finished_ s)
    (udp_latencies s) (udp_run s) (udp_posted s) (S (udp_exits s)).

(** ** The ordered map *)

(** [std::map::emplace]: an existing key keeps its value. *)
Fixpoint emplace (k : Z) (v : InflightDatagram) (m : list (Z * InflightDatagram)) :
    list (Z * InflightDatagram) :=
  match m with
  | [] => [(k, v)]
  | (k', v') :: m =>
      if k <? k' then (k, v) :: (k', v') :: m
      else if k =? k' then (k', v') :: m
      else (k', v') :: emplace k v m
  end.

Fixpoint map_find (k : Z) (m : list (Z * InflightDatagram)) : option InflightDatagram :=
  match m with
  | [] => None
  | (k', v) :: m => if k =? k' then Some v else map_find k m
  end.

Fixpoint map_erase (k : Z) (m : list (Z * InflightDatagram)) : list (Z * InflightDatagram) :=
  match m with
  | [] => []
  | (k', v) :: m => if k =? k' then m else (k', v) :: map_erase k m
  end.

(** ** Operations *)

Definition kSequencePrefixLength : nat := 16.

Definition udp_counters_init : UdpCounters := mkUdpCounters 0 0 0 0 0 0 0.

Definition UdpBenchmarkClientImpl_new (cfg : UdpConfig) : outcome udp :=
  if (max_inflight_ cfg =? 0)%nat then Panic "max_inflight must be positive"
  else if udp_timeout_ cfg <=? 0 then Panic "timeout must be positive"
  else Ok (mkUdp cfg udp_counters_init false None "" [] 0 false false false [] [] [] 0).

(** How the set-up of the socket ends. *)
Inductive SocketSetup : Type := NoHost | SocketNotOpen | ConnectFailed | SocketConnected.

Definition UdpBenchmarkClientImpl_prepare (request : option string) (setup : SocketSetup) (s : udp) :
    outcome udp :=
  match request with
  | None => Panic "the request source did not yield a request"
  | Some body =>
      let s := udp_set_socket (socket_ s) (sweep_timer_ s) body s in
      Ok (match setup with
          | NoHost | SocketNotOpen | ConnectFailed => udp_count udp_unavailable s
          | SocketConnected => udp_set_socket true (Some true) body s
          end)
  end.

(** [absl::string_view::substr(0, n)] and [substr(n)], the latter of a view of at
    least [n] characters. *)
Definition view_prefix (n : nat) (s : string) : string := stake n s.

Definition view_rest (n : nat) (s : string) : string := sdrop n s.

Section Udp.

Context {A : AbslStrings}.

Definition sequencePrefix (sequence : Z) : string := StrFormat_016x sequence.

Definition udp_refuse (n : udp_counter) (cb : nat) (s : udp) : udp :=
  udp_call_back [] [(cb, false)] (udp_count n s).

(** The datagram written, if one was, and the state after. *)
Definition UdpBenchmarkClientImpl_tryStartRequest (now : Z) (write_ok : bool) (cb : nat) (s : udp) :
    option string * udp :=
  if negb (socket_ s) || draining_ s then (None, udp_refuse udp_unavailable cb s)
  else if (max_inflight_ (udp_config s) <=? length (inflight_ s))%nat then
    (None, udp_refuse udp_deferred cb s)
  else
    let sequence := next_sequence_ s in
    let s := udp_set_inflight (inflight_ s) (u64 (next_sequence_ s + 1)) s in
    let datagram := sequencePrefix sequence +:+ udp_message_ s in
    if negb write_ok then (Some datagram, udp_refuse udp_send_errors cb s)
    else
      let s := udp_count udp_datagrams_sent s in
      (Some datagram,
       udp_set_inflight (emplace sequence (mkDatagram now cb) (inflight_ s)) (next_sequence_ s) s).

(** The wait of [finish] is over when nothing is outstanding. *)
Definition exit_if_drained (s : udp) : udp :=
  match inflight_ s with
  | [] => if draining_ s then udp_exit s else s
  | _ => s
  end.

Definition onDatagram (now : Z) (bytes : string) (s : udp) : udp :=
  match SimpleHexAtoi (view_prefix kSequencePrefixLength bytes) with
  | Some sequence =>
      if (String.length bytes <? kSequencePrefixLength)%nat ||
         negb (String.eqb (view_rest kSequencePrefixLength bytes) (udp_message_ s))
      then udp_count udp_unexpected s
      else
        match map_find sequence (inflight_ s) with
        | None => udp_count udp_unexpected s
        | Some datagram =>
            let s := udp_set_inflight (map_erase sequence (inflight_ s)) (next_sequence_ s) s in
            let s := udp_count udp_datagrams_received s in
            let s := if udp_measure_latencies_ s
                     then udp_add_latency (now - dg_sent_at datagram) s else s in
            exit_if_drained (udp_call_back [(dg_callback datagram, true)] [] s)
        end
  | None => udp_count udp_unexpected s
  end.

(** Reads, with the time, until there is nothing to read or an empty datagram
    was read; what is left unread is returned too. *)
Fixpoint onReadable (reads : list (Z * string)) (s : udp) : list (Z * string) * udp :=
  if socket_ s then
    match reads with
    | [] => ([], s)
    | (now, bytes) :: reads =>
        match bytes with
        | EmptyString => (reads, s)
        | _ => onReadable reads (onDatagram now bytes s)
        end
    end
  else (reads, s).

(** Loses the datagrams at the front for which [late] holds: the loops of [sweep]
    and [completeAll]. *)
Fixpoint lose_while (late : InflightDatagram -> bool) (q : list (Z * InflightDatagram)) (s : udp) : udp :=
  match q with
  | [] => s
  | (_, datagram) :: q =>
      if late datagram then
        let s := udp_count udp_lost (udp_set_inflight q (next_sequence_ s) s) in
        lose_while late q (udp_call_back [(dg_callback datagram, false)] [] s)
      else s
  end.

Definition past_timeout (now : Z) (s : udp) (d : InflightDatagram) : bool :=
  udp_timeout_ (udp_config s) <=? now - dg_sent_at d.

Definition sweep (now : Z) (s : udp) : udp :=
  let s := lose_while (past_timeout now s) (inflight_ s) s in
  match inflight_ s, draining_ s with
  | [], true => udp_exit s
  | _, _ =>
      match sweep_timer_ s with
      | Some _ => udp_set_socket (socket_ s) (Some true) (udp_message_ s) s
      | None => s
      end
  end.

(** [completeAll(false)], the only call there is. *)
Definition completeAll (s : udp) : udp := lose_while (fun _ => true) (inflight_ s) s.

(** What [finish] does last. *)
Definition udp_finish_end (s : udp) : udp :=
  let s := completeAll s in
  udp_set_socket (socket_ s) None (udp_message_ s) s.

(** [finish] up to the event loop it runs; [true]: the loop is run, and
    [udp_finish_end] follows when it is exited. [false]: it has returned. *)
Definition UdpBenchmarkClientImpl_finish (s : udp) : bool * udp :=
  if udp_finished_ s then (false, s)
  else
    let s := udp_set_phase (udp_measure_latencies_ s) true true s in
    match inflight_ s with
    | _ :: _ => if socket_ s then (true, s) else (false, udp_finish_end s)
    | [] => (false, udp_finish_end s)
    end.

(** How long [finish] waits at most, in milliseconds. *)
Definition drain_wait (cfg : UdpConfig) : Z :=
  let d := Z.min (udp_drain_duration_ cfg) (udp_timeout_ cfg) in
  - ((- d) / 1000000).

(** [terminate] after its [finish]. *)
Definition udp_terminate_end (s : udp) : udp :=
  let s := udp_set_phase false (draining_ s) (udp_finished_ s) s in
  udp_set_socket false (sweep_timer_ s) (udp_message_ s) s.

Definition udp_set_measure (b : bool) (s : udp) : udp :=
  udp_set_phase b (draining_ s) (udp_finished_ s) s.

(** ** Executions

    The time of a step is not before that of the one before it. The sweep runs
    when its timer is enabled, which it no longer is then. [waiting]: [finish]
    runs the event loop. *)

Inductive udp_step : bool * Z * udp -> list nat -> bool * Z * udp -> Prop :=
| ustep_request w t now ok cb s :
    t <= now ->
    udp_step (w, t, s) [cb] (w, now, snd (UdpBenchmarkClientImpl_tryStartRequest now ok cb s))
| ustep_readable w t now reads s :
    t <= now -> Forall (fun r => t <= fst r <= now) reads ->
    udp_step (w, t, s) [] (w, now, snd (onReadable reads s))
| ustep_sweep w t now s :
    t <= now -> sweep_timer_ s = Some true ->
    udp_step (w, t, s) [] (w, now, sweep now (udp_set_socket (socket_ s) (Some false) (udp_message_ s) s))
| ustep_measure w t b s :
    udp_step (w, t, s) [] (w, t, udp_set_measure b s)
| ustep_finish t s :
    udp_step (false, t, s) [] (fst (UdpBenchmarkClientImpl_finish s), t,
                               snd (UdpBenchmarkClientImpl_finish s))
| ustep_finish_end t s :
    udp_step (true, t, s) [] (false, t, udp_finish_end s)
| ustep_terminate t s :
    udp_finished_ s = true -> udp_step (false, t, s) [] (false, t, udp_terminate_end s).

Inductive udp_reachable (cfg : UdpConfig) : list nat -> bool * Z * udp -> Prop :=
| udp_prepared t request setup s0 s :
    UdpBenchmarkClientImpl_new cfg = Ok s0 ->
    UdpBenchmarkClientImpl_prepare request setup s0 = Ok s ->
    udp_reachable cfg [] (false, t, s)
| udp_steps started x l y :
    udp_reachable cfg started x -> udp_step x l y -> udp_reachable cfg (started ++ l) y.

End Udp.

(** ** The ordered map: lemmas *)

(** Later entries have larger keys and were sent no earlier. *)
Definition entry_lt (a b : Z * InflightDatagram) : Prop :=
  fst a < fst b /\ dg_sent_at (snd a) <= dg_sent_at (snd b).

Definition map_ok (m : list (Z * InflightDatagram)) : Prop := StronglySorted entry_lt m.

Lemma sorted_impl {T} (R R' : T -> T -> Prop) (l : list T) :
  (forall a b, R a b -> R' a b) -> StronglySorted R l -> StronglySorted R' l.
Proof.
  intros Hi. induction 1 as [|a l Hl IH Hf]; constructor; [done|].
  eapply Forall_impl; [exact Hf|]. auto.
Qed.

Lemma emplace_last k v m : Forall (fun e => fst e < k) m -> emplace k v m = m ++ [(k, v)].
Proof.
  induction 1 as [|[k' v'] m Hk _ IH]; [done|]. cbn in *.
  rewrite (proj2 (Z.ltb_ge k k')), (proj2 (Z.eqb_neq k k')) by lia. by rewrite IH.
Qed.

Lemma map_find_perm k m v : map_find k m = Some v -> m ≡ₚ (k, v) :: map_erase k m.
Proof.
  induction m as [|[k' v'] m IH]; cbn; [done|]. destruct (k =? k') eqn:E.
  - intros [= ->]. b2p. by subst.
  - intros H%IH. rewrite H at 1. apply Permutation_swap.
Qed.

Lemma map_erase_Forall (P : Z * InflightDatagram -> Prop) k m : Forall P m -> Forall P (map_erase k m).
Proof. induction 1 as [|[k' v'] m Hp Hm IH]; cbn; [done|]. destruct (k =? k'); auto. Qed.

Lemma map_erase_ok k m : map_ok m -> map_ok (map_erase k m).
Proof.
  induction 1 as [|[k' v'] m Hm IH Hf]; cbn; [constructor|].
  destruct (k =? k'); [done|]. constructor; [done|by apply map_erase_Forall].
Qed.

Lemma map_find_In k m v : map_ok m -> (k, v) ∈ m -> map_find k m = Some v.
Proof.
  induction 1 as [|[k' v'] m Hm IH Hf]; [by intros ?%elem_of_nil|]. cbn.
  intros [[= -> ->] | Hin]%elem_of_cons; [by rewrite Z.eqb_refl|].
  rewrite Forall_forall in Hf. pose proof (Hf _ Hin) as [Hlt _]. cbn in Hlt.
  rewrite (proj2 (Z.eqb_neq k k')) by lia. auto.
Qed.

Lemma map_find_erased k m : map_ok m -> map_find k (map_erase k m) = None.
Proof.
  intros H. destruct (map_find k (map_erase k m)) as [v|] eqn:E; [|done]. exfalso.
  revert E. induction H as [|[k' v'] m Hm IH Hf]; [done|]. cbn. destruct (k =? k') eqn:Ek.
  - b2p. subst k'. intros E.
    assert (forall m', Forall (entry_lt (k, v')) m' -> map_find k m' = None) as Hn.
    { induction 1 as [|[k2 v2] m' [Hlt _] _ IHm]; [done|]. cbn in *.
      by rewrite (proj2 (Z.eqb_neq k k2)) by lia. }
    by rewrite Hn in E.
  - cbn. rewrite Ek. done.
Qed.

Lemma map_ok_snoc m k v :
  map_ok m -> Forall (fun e => fst e < k /\ dg_sent_at (snd e) <= dg_sent_at v) m ->
  map_ok (m ++ [(k, v)]).
Proof.
  induction 1 as [|e m Hm IH Hf]; intros Ha; cbn.
  - constructor; constructor.
  - apply Forall_cons in Ha as [He Ha]. constructor; [by apply IH|].
    apply Forall_app. split; [done|]. by constructor.
Qed.

(** ** The books *)

Definition entry_callback (e : Z * InflightDatagram) : nat := dg_callback (snd e).

(** Each callback is called once, posted once or outstanding; the counters count
    what happened. The set-up of the socket may have counted one more
    [udp_unavailable]. *)
Record datagram_books (started : list nat) (s : udp) : Prop := {
  db_callbacks : started ≡ₚ
    (fst <$> udp_run s) ++ (fst <$> udp_posted s) ++ (entry_callback <$> inflight_ s);
  db_received : successes (udp_run s) = udp_datagrams_received_ (udp_counters s);
  db_lost : failures (udp_run s) = udp_lost_ (udp_counters s);
  db_refused : successes (udp_posted s) = 0;
  db_counted : failures (udp_posted s) <=
    udp_deferred_ (udp_counters s) + udp_send_errors_ (udp_counters s) +
    udp_unavailable_ (udp_counters s) <= failures (udp_posted s) + 1;
  db_sent : udp_datagrams_sent_ (udp_counters s) =
    udp_datagrams_received_ (udp_counters s) + udp_lost_ (udp_counters s) +
    Z.of_nat (length (inflight_ s));
}.

(** The map of the datagrams outstanding at time [t], after [n] requests. *)
Record inflight_ok (n : nat) (t : Z) (s : udp) : Prop := {
  io_window : (length (inflight_ s) <= max_inflight_ (udp_config s))%nat;
  io_sorted : map_ok (inflight_ s);
  io_entries : Forall (fun e => 0 <= fst e < next_sequence_ s /\ dg_sent_at (snd e) <= t) (inflight_ s);
  io_next : 0 <= next_sequence_ s <= Z.of_nat n;
}.

Definition udp_inv (started : list nat) (t : Z) (s : udp) : Prop :=
  datagram_books started s /\ inflight_ok (length started) t s.

Lemma udp_inv_later started t t' s : t <= t' -> udp_inv started t s -> udp_inv started t' s.
Proof.
  intros Ht [Hb [? ? He ?]]. split; [done|]. split; try done.
  eapply Forall_impl; [exact He|]. cbn. intros e. lia.
Qed.

(** A datagram is done with. *)
Lemma udp_inv_complete started t k d m b s :
  inflight_ s ≡ₚ (k, d) :: m -> map_ok m -> udp_inv started t s ->
  udp_inv started t
    (udp_call_back [(dg_callback d, b)] []
       (udp_count (if b then udp_datagrams_received else udp_lost) (udp_set_inflight m (next_sequence_ s) s))).
Proof.
  intros Hp Hm [[Hc Hr Hl Hf Hd Hs] [Hw Hsort He Hn]].
  pose proof (Permutation_length Hp) as Hlen. cbn in Hlen.
  split; split; destruct b; cbn;
    rewrite ?fmap_app, ?app_nil_r, ?successes_app, ?failures_app, ?successes_one, ?failures_one;
    cbn; try done; try lia.
  - rewrite Hc, Hp. cbn. solve_Permutation.
  - rewrite Hc, Hp. cbn. solve_Permutation.
  - rewrite Hp in He. by apply Forall_cons in He as [_ He].
  - rewrite Hp in He. by apply Forall_cons in He as [_ He].
Qed.

(** Changes the books do not see. *)
Lemma udp_inv_same started t s s' :
  udp_config s' = udp_config s -> udp_counters s' = udp_counters s -> inflight_ s' = inflight_ s ->
  next_sequence_ s' = next_sequence_ s -> udp_run s' = udp_run s -> udp_posted s' = udp_posted s ->
  udp_inv started t s -> udp_inv started t s'.
Proof.
  intros E1 E2 E3 E4 E5 E6 [[] []]. split; split; rewrite ?E1, ?E2, ?E3, ?E4, ?E5, ?E6; done.
Qed.

Lemma udp_inv_unexpected started t s : udp_inv started t s -> udp_inv started t (udp_count udp_unexpected s).
Proof. intros [[] []]. split; split; cbn; rewrite ?Z.add_0_r; done. Qed.

Lemma udp_inv_lose started t late s :
  udp_inv started t s -> udp_inv started t (lose_while late (inflight_ s) s).
Proof.
  remember (inflight_ s) as q eqn:Eq. revert s Eq. induction q as [|[k d] q IH]; intros s Eq H; cbn; [done|].
  destruct (late d); [|done]. apply IH; [done|].
  apply (udp_inv_complete started t k d q false); [by rewrite <- Eq| |done].
  destruct H as [_ [_ Hs _ _]]. rewrite <- Eq in Hs. by apply StronglySorted_inv in Hs as [Hs _].
Qed.

Lemma udp_inv_refuse started t n cb s :
  n = udp_unavailable \/ n = udp_deferred \/ n = udp_send_errors ->
  udp_inv started t s -> udp_inv (started ++ [cb]) t (udp_refuse n cb s).
Proof.
  intros Hn [[Hc Hr Hl Hf Hd Hs] [Hw Hsort He Hx]].
  split; split; destruct Hn as [-> | [-> | ->]]; cbn;
    rewrite ?fmap_app, ?app_nil_r, ?successes_app, ?failures_app, ?successes_one, ?failures_one, ?length_app;
    cbn; try done; try lia.
  all: rewrite Hc; solve_Permutation.
Qed.

(** ** Executions keep the books *)

Section UdpProofs.

Context {A : AbslStrings}.

Lemma udp_inv_tryStart started t ok cb s :
  Z.of_nat (length started) < UINT64_MAX -> udp_inv started t s ->
  udp_inv (started ++ [cb]) t (snd (UdpBenchmarkClientImpl_tryStartRequest t ok cb s)).
Proof.
  intros Hb H. unfold UdpBenchmarkClientImpl_tryStartRequest.
  destruct (_ || _); [by apply udp_inv_refuse; auto|].
  destruct (_ <=? _)%nat eqn:Ew; [by apply udp_inv_refuse; auto|]. apply Nat.leb_gt in Ew.
  destruct (io_next _ _ _ (proj2 H)) as [Hn0 Hn].
  assert (u64 (next_sequence_ s + 1) = next_sequence_ s + 1) as Eu.
  { apply u64_small. unfold in_u64, UINT64_MAX in *. lia. }
  assert (Forall (fun e => 0 <= fst e < next_sequence_ s + 1 /\ dg_sent_at (snd e) <= t) (inflight_ s)) as He'
    by (eapply Forall_impl; [exact (io_entries _ _ _ (proj2 H))|]; cbn; intros e; lia).
  cbn zeta. destruct ok; cbn [negb snd].
  - cbn [udp_count udp_set_inflight inflight_ next_sequence_].
    rewrite emplace_last
      by (eapply Forall_impl; [exact (io_entries _ _ _ (proj2 H))|]; cbn; intros e; lia).
    destruct H as [[Hc Hr Hl Hf Hd Hs] [Hw Hsort He Hx]].
    split; split; cbn; rewrite ?Eu, ?fmap_app, ?length_app; cbn; try done; try lia.
    + rewrite Hc. solve_Permutation.
    + apply map_ok_snoc; [done|]. eapply Forall_impl; [exact He|]. cbn. intros e. lia.
    + apply Forall_app. split; [done|]. constructor; [cbn; lia|done].
  - assert (udp_inv (started ++ [cb]) t (udp_refuse udp_send_errors cb s)) as [Hb' [? ? ? ?]]
      by (apply udp_inv_refuse; auto).
    split; [by destruct Hb'; split|]. split; cbn; rewrite ?Eu; try done.
    rewrite length_app. cbn. lia.
Qed.

Lemma udp_inv_exit_if_drained started t s : udp_inv started t s -> udp_inv started t (exit_if_drained s).
Proof.
  intros H. unfold exit_if_drained. destruct (inflight_ s) eqn:E; [|done].
  destruct (draining_ s); [|done]. by apply (udp_inv_same _ _ s).
Qed.

Lemma udp_inv_onDatagram started t now bytes s :
  udp_inv started t s -> udp_inv started t (onDatagram now bytes s).
Proof.
  intros H. unfold onDatagram.
  destruct (SimpleHexAtoi _) as [k|]; [|by apply udp_inv_unexpected].
  destruct (_ || _); [by apply udp_inv_unexpected|].
  destruct (map_find k (inflight_ s)) as [d|] eqn:Ef; [|by apply udp_inv_unexpected].
  apply udp_inv_exit_if_drained.
  pose proof (udp_inv_complete started t k d _ true s (map_find_perm _ _ _ Ef)
                (map_erase_ok k _ (io_sorted _ _ _ (proj2 H))) H) as Hc.
  cbn [udp_count udp_set_inflight udp_measure_latencies_].
  destruct (udp_measure_latencies_ s); [|done].
  eapply udp_inv_same; [..|exact Hc]; done.
Qed.

Lemma udp_inv_onReadable started t reads s :
  udp_inv started t s -> udp_inv started t (snd (onReadable reads s)).
Proof.
  revert s. induction reads as [|[now bytes] reads IH]; intros s H; cbn; destruct (socket_ s); try done.
  destruct bytes; [done|]. by apply IH, udp_inv_onDatagram.
Qed.

Lemma udp_inv_sweep started t now s : udp_inv started t s -> udp_inv started t (sweep now s).
Proof.
  intros H%(udp_inv_lose _ _ (past_timeout now s)). unfold sweep.
  set (s1 := lose_while _ _ _) in *. clearbody s1.
  destruct (inflight_ s1) eqn:E, (draining_ s1); try destruct (sweep_timer_ s1); try done;
    by apply (udp_inv_same _ _ s1).
Qed.

Lemma udp_inv_finish_end started t s : udp_inv started t s -> udp_inv started t (udp_finish_end s).
Proof.
  intros H%(udp_inv_lose _ _ (fun _ => true)). by apply (udp_inv_same _ _ (completeAll s)).
Qed.

Lemma udp_inv_finish started t s :
  udp_inv started t s -> udp_inv started t (snd (UdpBenchmarkClientImpl_finish s)).
Proof.
  intros H. unfold UdpBenchmarkClientImpl_finish. destruct (udp_finished_ s); [done|].
  assert (udp_inv started t (udp_set_phase (udp_measure_latencies_ s) true true s)) as H'
    by (by apply (udp_inv_same _ _ s)).
  cbn zeta. destruct (inflight_ _); [by apply udp_inv_finish_end|].
  destruct (socket_ _); [done|by apply udp_inv_finish_end].
Qed.

Lemma udp_inv_step started x l y :
  Z.of_nat (length (started ++ l)) <= UINT64_MAX -> udp_step x l y ->
  udp_inv started (snd (fst x)) (snd x) -> udp_inv (started ++ l) (snd (fst y)) (snd y).
Proof.
  intros Hb Hs. rewrite length_app in Hb.
  destruct Hs as [w t now ok cb s Ht|w t now reads s Ht _|w t now s Ht Hsw|w t b s|t s|t s|t s Hf];
    cbn [fst snd]; intros H; rewrite ?app_nil_r.
  - apply udp_inv_tryStart; [cbn in Hb; lia|by apply (udp_inv_later _ t)].
  - apply udp_inv_onReadable. by apply (udp_inv_later _ t).
  - apply udp_inv_sweep. apply (udp_inv_same _ _ s); try done. by apply (udp_inv_later _ t).
  - by apply (udp_inv_same _ _ s).
  - by apply udp_inv_finish.
  - by apply udp_inv_finish_end.
  - by apply (udp_inv_same _ _ s).
Qed.

Lemma udp_inv_reachable cfg started x :
  udp_reachable cfg started x -> Z.of_nat (length started) <= UINT64_MAX ->
  udp_inv started (snd (fst x)) (snd x).
Proof.
  induction 1 as [t request setup s0 s Hn Hp|started x l y Hr IH Hs]; intros Hb.
  - cbn. unfold UdpBenchmarkClientImpl_new in Hn.
    destruct (_ =? _)%nat; [done|]. destruct (_ <=? 0); [done|]. injection Hn as <-.
    unfold UdpBenchmarkClientImpl_prepare in Hp. destruct request as [body|]; [|done].
    injection Hp as <-. destruct setup; (split; split; cbn; try done; try lia); constructor.
  - apply (udp_inv_step started x); [done|done|]. apply IH. rewrite length_app in Hb. lia.
Qed.

(** Once [finish] has returned nothing is outstanding, and nothing is sent. *)
Definition udp_settled (w : bool) (s : udp) : Prop :=
  (udp_finished_ s = true -> draining_ s = true) /\
  (udp_finished_ s = true -> w = false -> inflight_ s = []) /\ (w = true -> udp_finished_ s = true).

Lemma lose_while_fields late q s :
  udp_finished_ (lose_while late q s) = udp_finished_ s /\
  draining_ (lose_while late q s) = draining_ s /\
  (inflight_ s = [] -> q = [] -> inflight_ (lose_while late q s) = []).
Proof.
  revert s. induction q as [|[k d] q IH]; intros s; cbn; [done|].
  destruct (late d); [|done]. destruct (IH (udp_call_back [(dg_callback d, false)] []
    (udp_count udp_lost (udp_set_inflight q (next_sequence_ s) s)))) as (-> & -> & _). done.
Qed.

Lemma completeAll_empty s : inflight_ (completeAll s) = [].
Proof.
  unfold completeAll. remember (inflight_ s) as q eqn:Eq. revert s Eq.
  induction q as [|[k d] q IH]; intros s Eq; cbn; [done|]. by apply IH.
Qed.

Lemma udp_settled_onDatagram w now bytes s : udp_settled w s -> udp_settled w (onDatagram now bytes s).
Proof.
  intros (H1 & H2 & H3). unfold onDatagram. destruct (SimpleHexAtoi _) as [k|]; [|done].
  destruct (_ || _); [done|]. destruct (map_find k (inflight_ s)) as [d|] eqn:Ef; [|done].
  set (s1 := udp_call_back _ _ _).
  assert (udp_settled w s1) as Hs1.
  { unfold s1. cbn [udp_count udp_set_inflight udp_measure_latencies_].
    assert (udp_finished_ s = true -> w = false -> map_erase k (inflight_ s) = []) as Hm
      by (intros Hf Hw; by rewrite (H2 Hf Hw)).
    by destruct (udp_measure_latencies_ s). }
  unfold exit_if_drained. destruct (inflight_ s1) eqn:E; [|done]. by destruct (draining_ s1).
Qed.

Lemma udp_settled_step x l y :
  udp_step x l y -> udp_settled (fst (fst x)) (snd x) -> udp_settled (fst (fst y)) (snd y).
Proof.
  intros [w t now ok cb s Ht|w t now reads s Ht _|w t now s Ht Hsw|w t b s|t s|t s|t s Hf];
    cbn [fst snd]; intros H.
  - unfold UdpBenchmarkClientImpl_tryStartRequest. destruct (_ || _) eqn:Eg; [done|].
    destruct (_ <=? _)%nat; [done|]. destruct H as (H1 & H2 & H3).
    apply orb_false_elim in Eg as [_ Eg].
    assert (udp_finished_ s = false) as Ef
      by (destruct (udp_finished_ s); [|done]; rewrite H1 in Eg; done).
    rewrite Ef in H3. destruct ok; cbn [negb snd]; unfold udp_settled; cbn; rewrite Ef; by split_and!.
  - revert s H. induction reads as [|[n bytes] reads IH]; intros s H; cbn; destruct (socket_ s); try done.
    destruct bytes; [done|]. by apply IH, udp_settled_onDatagram.
  - set (s0 := udp_set_socket _ _ _ s). unfold sweep.
    destruct (lose_while_fields (past_timeout now s0) (inflight_ s0) s0) as (Ef & Ed & Ei).
    assert (udp_settled w (lose_while (past_timeout now s0) (inflight_ s0) s0)) as Hl.
    { destruct H as (H1 & H2 & H3). unfold udp_settled. rewrite Ef, Ed. split_and!; auto. }
    set (s1 := lose_while _ _ _) in *. clearbody s1.
    destruct (inflight_ s1) eqn:E, (draining_ s1); try destruct (sweep_timer_ s1); done.
  - done.
  - unfold UdpBenchmarkClientImpl_finish. destruct (udp_finished_ s) eqn:Ef; [done|]. cbn zeta.
    assert (udp_settled false (udp_finish_end (udp_set_phase (udp_measure_latencies_ s) true true s))) as Hd.
    { destruct (lose_while_fields (fun _ => true) (inflight_ s)
        (udp_set_phase (udp_measure_latencies_ s) true true s)) as (E1 & E2 & _).
      split_and!; [intros _; exact E2|intros _ _; apply completeAll_empty|done]. }
    destruct (inflight_ _); [done|]. by destruct (socket_ _).
  - destruct H as (H1 & H2 & H3). specialize (H3 eq_refl).
    destruct (lose_while_fields (fun _ => true) (inflight_ s) s) as (E1 & E2 & _).
    split_and!; [intros _; exact (eq_trans E2 (H1 H3))|intros _ _; apply completeAll_empty|done].
  - done.
Qed.

Lemma udp_settled_reachable cfg started x :
  udp_reachable cfg started x -> udp_settled (fst (fst x)) (snd x).
Proof.
  induction 1 as [t request setup s0 s Hn Hp|started x l y Hr IH Hs]; [|by apply (udp_settled_step x l)].
  cbn. unfold UdpBenchmarkClientImpl_new in Hn.
  destruct (_ =? _)%nat; [done|]. destruct (_ <=? 0); [done|]. injection Hn as <-.
  unfold UdpBenchmarkClientImpl_prepare in Hp. destruct request as [body|]; [|done].
  injection Hp as <-. by destruct setup.
Qed.

(** ** Theorems *)

(** C18. In every execution of fewer than 2^64 requests each callback was called
    once, posted once or belongs to one datagram outstanding; what was sent is
    what was received, lost or is outstanding, and no more than [max_inflight] is.
    Once [finish] has returned nothing is outstanding. *)
Theorem udp_every_datagram_accounted cfg started w t s :
  udp_reachable cfg started (w, t, s) -> Z.of_nat (length started) <= UINT64_MAX ->
  datagram_books started s /\ (length (inflight_ s) <= max_inflight_ (udp_config s))%nat /\
  (udp_finished_ s = true -> w = false ->
   inflight_ s = [] /\
   udp_datagrams_sent_ (udp_counters s) =
   udp_datagrams_received_ (udp_counters s) + udp_lost_ (udp_counters s)).
Proof.
  intros Hr Hb. destruct (udp_inv_reachable cfg started _ Hr Hb) as [Hk Hi].
  destruct (udp_settled_reachable cfg started _ Hr) as (_ & Hs & _). cbn in *.
  split; [done|]. split; [apply (io_window _ _ _ Hi)|]. intros Hf Hw.
  pose proof (Hs Hf Hw) as E. split; [done|]. destruct Hk as [_ _ _ _ _ Hsent]. rewrite E in Hsent.
  cbn in Hsent. lia.
Qed.

(** The datagram of a sequence number as it is sent. *)
Definition datagram_of (sequence : Z) (s : udp) : string :=
  sequencePrefix sequence +:+ udp_message_ s.

Lemma onDatagram_of `{!AbslHexLaws A} now k s :
  in_u64 k ->
  onDatagram now (datagram_of k s) s =
  match map_find k (inflight_ s) with
  | None => udp_count udp_unexpected s
  | Some d =>
      let s := udp_count udp_datagrams_received
                 (udp_set_inflight (map_erase k (inflight_ s)) (next_sequence_ s) s) in
      let s := if udp_measure_latencies_ s then udp_add_latency (now - dg_sent_at d) s else s in
      exit_if_drained (udp_call_back [(dg_callback d, true)] [] s)
  end.
Proof.
  intros Hk. pose proof (format_016x_length k Hk) as Hl.
  assert (view_prefix kSequencePrefixLength (datagram_of k s) = StrFormat_016x k) as Ep
    by (unfold view_prefix, kSequencePrefixLength; rewrite <- Hl; apply stake_app).
  assert (view_rest kSequencePrefixLength (datagram_of k s) = udp_message_ s) as Er
    by (unfold view_rest, kSequencePrefixLength; rewrite <- Hl; apply sdrop_app).
  unfold onDatagram. rewrite Ep, Er, format_016x_parsed, String.eqb_refl by done.
  unfold datagram_of, sequencePrefix. rewrite slength_app, Hl. done.
Qed.

(** An echo completes the datagram it answers and no other. Whatever else
    is outstanding, and in whatever order echoes come, the datagram of an
    outstanding sequence number is received once: its callback is called with
    success, its latency is the time since it was sent, it alone is no longer
    outstanding; and the same datagram once more is only counted as unexpected. *)
Lemma udp_echo_completes_its_datagram `{!AbslHexLaws A} cfg started w t s now now' k d :
  udp_reachable cfg started (w, t, s) -> Z.of_nat (length started) <= UINT64_MAX ->
  (k, d) ∈ inflight_ s ->
  let s' := onDatagram now (datagram_of k s) s in
  udp_run s' = udp_run s ++ [(dg_callback d, true)] /\
  udp_latencies s' = udp_latencies s ++ (if udp_measure_latencies_ s then [now - dg_sent_at d] else []) /\
  inflight_ s ≡ₚ (k, d) :: inflight_ s' /\
  udp_datagrams_received_ (udp_counters s') = udp_datagrams_received_ (udp_counters s) + 1 /\
  onDatagram now' (datagram_of k s) s' = udp_count udp_unexpected s'.
Proof.
  intros Hr Hb Hin. destruct (udp_inv_reachable cfg started _ Hr Hb) as [_ [_ Hs He Hn]]. cbn in *.
  assert (in_u64 k) as Hk.
  { rewrite Forall_forall in He. pose proof (He _ Hin) as [Hk _]. cbn in Hk.
    unfold in_u64, UINT64_MAX in *. lia. }
  pose proof (map_find_In k _ d Hs Hin) as Ef.
  rewrite onDatagram_of, Ef by done. cbn zeta. set (s1 := udp_call_back _ _ _).
  assert (inflight_ s1 = map_erase k (inflight_ s) /\ udp_message_ s1 = udp_message_ s /\
          udp_run s1 = udp_run s ++ [(dg_callback d, true)] /\
          udp_latencies s1 = udp_latencies s ++ (if udp_measure_latencies_ s then [now - dg_sent_at d] else []) /\
          udp_datagrams_received_ (udp_counters s1) = udp_datagrams_received_ (udp_counters s) + 1)
    as (E1 & E2 & E3 & E4 & E5).
  { unfold s1. cbn [udp_count udp_set_inflight udp_measure_latencies_].
    destruct (udp_measure_latencies_ s); cbn; by rewrite ?app_nil_r. }
  clearbody s1.
  assert (forall s2, inflight_ s2 = map_erase k (inflight_ s) -> udp_message_ s2 = udp_message_ s ->
            onDatagram now' (datagram_of k s) s2 = udp_count udp_unexpected s2) as Hdup.
  { intros s2 Ei Em. unfold datagram_of. rewrite <- Em. fold (datagram_of k s2).
    by rewrite onDatagram_of, Ei, map_find_erased by done. }
  unfold exit_if_drained.
  assert (inflight_ s ≡ₚ (k, d) :: inflight_ s1) as Hp by (rewrite E1; by apply map_find_perm).
  destruct (inflight_ s1) eqn:Ei; [destruct (draining_ s1)|]; cbn; rewrite ?Ei;
    split_and!; try done; apply Hdup; cbn; congruence.
Qed.

(** An empty datagram ends the reading, with what is behind it unread. *)
Lemma onReadable_stops_at_empty now reads s : snd (onReadable ((now, EmptyString) :: reads) s) = s.
Proof. cbn. by destruct (socket_ s). Qed.

(** What [lose_while] takes from the front, and what it leaves. *)
Lemma lose_while_filter late q s :
  inflight_ s = q -> StronglySorted (fun a b => late (snd b) = true -> late (snd a) = true) q ->
  inflight_ (lose_while late q s) = List.filter (fun e => negb (late (snd e))) q /\
  udp_run (lose_while late q s) =
  udp_run s ++ ((fun e => (entry_callback e, false)) <$> List.filter (fun e => late (snd e)) q).
Proof.
  intros E Hq. revert s E. induction Hq as [|[k d] q Hq IH Hf]; intros s E; cbn.
  { rewrite E. by rewrite app_nil_r. }
  destruct (late d) eqn:El; cbn.
  - destruct (IH (udp_call_back [(dg_callback d, false)] []
      (udp_count udp_lost (udp_set_inflight q (next_sequence_ s) s))) eq_refl) as [-> ->].
    split; [done|]. cbn. by rewrite <- app_assoc.
  - assert (Forall (fun e => late (snd e) = false) q) as Hn.
    { eapply Forall_impl; [exact Hf|]. cbn. intros [k' d'] H. destruct (late d') eqn:E'; [|done].
      cbn in H. rewrite (H E') in El. done. }
    assert (List.filter (fun e => negb (late (snd e))) q = q /\
            List.filter (fun e : Z * InflightDatagram => late (snd e)) q = []) as [-> ->].
    { clear - Hn. induction Hn as [|e q He Hq IH]; [done|]. cbn. rewrite He. cbn.
      destruct IH as [-> ->]. done. }
    rewrite app_nil_r. done.
Qed.

(** A sweep loses exactly the datagrams that have been unanswered for the
    timeout: it stops at the first that is still in time, and since datagrams
    are swept in the order they were sent none behind that one is late. The
    late ones complete with failure, oldest first, and the others stay. *)
Lemma udp_sweep_exact cfg started w t s now :
  udp_reachable cfg started (w, t, s) -> Z.of_nat (length started) <= UINT64_MAX ->
  let late (e : Z * InflightDatagram) := udp_timeout_ (udp_config s) <=? now - dg_sent_at (snd e) in
  inflight_ (sweep now s) = List.filter (fun e => negb (late e)) (inflight_ s) /\
  udp_run (sweep now s) =
  udp_run s ++ ((fun e => (entry_callback e, false)) <$> List.filter late (inflight_ s)).
Proof.
  intros Hr Hb. destruct (udp_inv_reachable cfg started _ Hr Hb) as [_ [_ Hs _ _]]. cbn in *.
  destruct (lose_while_filter (past_timeout now s) (inflight_ s) s eq_refl) as [E1 E2].
  { eapply sorted_impl; [|exact Hs]. intros [k1 d1] [k2 d2] [_ Hd]. cbn in *.
    unfold past_timeout. rewrite !Z.leb_le. lia. }
  unfold past_timeout in E1 at 2. unfold past_timeout in E2 at 2. rewrite <- E1, <- E2.
  unfold sweep. set (s1 := lose_while _ _ _). clearbody s1.
  destruct (inflight_ s1) eqn:E, (draining_ s1); try destruct (sweep_timer_ s1); cbn; by rewrite ?E.
Qed.

End UdpProofs.

(** ** A run

    Two datagrams, the second answered first; the first is lost to a sweep. *)

#[local] Existing Instance absl_documented.

Definition demo_udp_config : UdpConfig := mkUdpConfig 4 100 1000.

Definition demo_udp_new : udp :=
  mkUdp demo_udp_config udp_counters_init false None "" [] 0 false false false [] [] [] 0.

Definition demo_udp_ready : udp := udp_set_socket true (Some true) "hi" demo_udp_new.

Definition demo_udp_sent : udp :=
  snd (UdpBenchmarkClientImpl_tryStartRequest 20 true 8
         (snd (UdpBenchmarkClientImpl_tryStartRequest 10 true 7 demo_udp_ready))).

Lemma demo_udp_sent_reachable : udp_reachable demo_udp_config [7; 8]%nat (false, 20, demo_udp_sent).
Proof.
  apply (udp_steps _ [7%nat] (false, 10, snd (UdpBenchmarkClientImpl_tryStartRequest 10 true 7 demo_udp_ready))
           [8%nat]); [|by apply ustep_request].
  apply (udp_steps _ [] (false, 0, demo_udp_ready) [7%nat]); [|by apply ustep_request].
  by apply (udp_prepared _ 0 (Some "hi"%string) SocketConnected demo_udp_new).
Qed.

Lemma udp_every_datagram_accounted_witness :
  length (inflight_ demo_udp_sent) = 2%nat /\ datagram_books [7; 8]%nat demo_udp_sent.
Proof.
  split; [reflexivity|].
  apply (udp_every_datagram_accounted demo_udp_config [7; 8]%nat false 20 demo_udp_sent
           demo_udp_sent_reachable). vm_compute. discriminate.
Defined.

Lemma udp_echo_completes_its_datagram_witness :
  udp_run (onDatagram 30 "0000000000000001hi" demo_udp_sent) = [(8%nat, true)].
Proof.
  destruct (udp_echo_completes_its_datagram demo_udp_config [7; 8]%nat false 20 demo_udp_sent 30 40 1
              (mkDatagram 20 8) demo_udp_sent_reachable) as [E _].
  - vm_compute. discriminate.
  - right. left.
  - exact E.
Defined.

Lemma udp_sweep_exact_witness :
  udp_run (sweep 115 demo_udp_sent) = [(7%nat, false)] /\
  inflight_ (sweep 115 demo_udp_sent) = [(1, mkDatagram 20 8)].
Proof.
  destruct (udp_sweep_exact demo_udp_config [7; 8]%nat false 20 demo_udp_sent 115
              demo_udp_sent_reachable) as [E1 E2]; [vm_compute; discriminate|].
  split; [exact E2|exact E1].
Defined.
