(* ===== verification/UdpEcho.v ===== *)
(** * UDP load end to end

    The UDP client ([engine/source/client/udp_benchmark_client_impl.cc]) against the
    UDP echo filter of the test server ([engine/source/server/udp_echo_filter.{h,cc}]),
    over a network that reorders, copies and drops datagrams, with other hosts on it.
    Envoy's listener, which hands the filter what it receives and sends what the
    filter asks for, and the network are steps of the world. *)

From S2P Require Import Prelude Text UdpClient.

(** ** The echo filter *)

Inductive UdpFilterStatus : Type := UdpContinue | UdpStopIteration.

Record UdpRecvData : Type := mkUdpRecvData { local_ : Z; peer_ : Z; buffer_ : string }.

Record UdpSendData : Type := mkUdpSendData { local_ip_ : Z; peer_address_ : Z; send_buffer_ : string }.

(** What is sent, whose result is ignored, and the status. *)
Definition UdpEchoFilter_onData (data : UdpRecvData) : UdpSendData * UdpFilterStatus :=
  (mkUdpSendData (local_ data) (peer_ data) (buffer_ data), UdpStopIteration).

Definition UdpEchoFilter_onReceiveError : UdpFilterStatus := UdpStopIteration.

(** ** The world *)

Record Packet : Type := mkPacket { pk_from : Z; pk_to : Z; pk_bytes : string }.

(** The client, as in [udp_step]; what is on the network, in any order; and a record
    of what happened: the sequence numbers and callbacks of what the client has
    written, what the server has answered to it, what was dropped of what the two
    exchange, and how many copies of that were made and how many datagrams read. *)
Record UdpWorld : Type := mkUdpWorld {
  uw_waiting : bool;
  uw_time : Z;
  uw_client : udp;
  uw_net : list Packet;
  uw_sent : list (Z * nat);
  uw_answered : list string;
  uw_gone : list string;
  uw_copies : Z;
  uw_read : Z;
}.

(** Steps of the client that neither send nor receive. *)
Inductive udp_internal : bool * Z * udp -> bool * Z * udp -> Prop :=
| uint_sweep w t now s :
    t <= now -> sweep_timer_ s = Some true ->
    udp_internal (w, t, s) (w, now, sweep now (udp_set_socket (socket_ s) (Some false) (udp_message_ s) s))
| uint_measure w t b s : udp_internal (w, t, s) (w, t, udp_set_measure b s)
| uint_finish t s :
    udp_internal (false, t, s) (fst (UdpBenchmarkClientImpl_finish s), t, snd (UdpBenchmarkClientImpl_finish s))
| uint_finish_end t s : udp_internal (true, t, s) (false, t, udp_finish_end s)
| uint_terminate t s : udp_finished_ s = true -> udp_internal (false, t, s) (false, t, udp_terminate_end s).

Section Network.

Context {A : AbslStrings}.

(** The two addresses. *)
Context (client server : Z).

Definition to_server (p : Packet) : bool := (pk_from p =? client) && (pk_to p =? server).

Definition to_client (p : Packet) : bool := (pk_from p =? server) && (pk_to p =? client).

Definition ours (p : Packet) : bool := to_server p || to_client p.

(** The client starts a request; a datagram that was written is on the network. *)
Definition world_request (now : Z) (ok : bool) (cb : nat) (w : UdpWorld) : UdpWorld :=
  let s := uw_client w in
  let (datagram, s') := UdpBenchmarkClientImpl_tryStartRequest now ok cb s in
  match datagram, ok with
  | Some bytes, true =>
      mkUdpWorld (uw_waiting w) now s' (mkPacket client server bytes :: uw_net w) ((next_sequence_ s, cb) :: uw_sent w)
        (uw_answered w) (uw_gone w) (uw_copies w) (uw_read w)
  | _, _ =>
      mkUdpWorld (uw_waiting w) now s' (uw_net w) (uw_sent w) (uw_answered w) (uw_gone w) (uw_copies w) (uw_read w)
  end.

Definition world_drop (p : Packet) (rest : list Packet) (w : UdpWorld) : UdpWorld :=
  mkUdpWorld (uw_waiting w) (uw_time w) (uw_client w) rest (uw_sent w) (uw_answered w)
    (if ours p then pk_bytes p :: uw_gone w else uw_gone w) (uw_copies w) (uw_read w).

Definition world_copy (p : Packet) (w : UdpWorld) : UdpWorld :=
  mkUdpWorld (uw_waiting w) (uw_time w) (uw_client w) (p :: uw_net w) (uw_sent w) (uw_answered w)
    (uw_gone w) (if ours p then uw_copies w + 1 else uw_copies w) (uw_read w).

Definition world_stranger (p : Packet) (w : UdpWorld) : UdpWorld :=
  mkUdpWorld (uw_waiting w) (uw_time w) (uw_client w) (p :: uw_net w) (uw_sent w) (uw_answered w)
    (uw_gone w) (uw_copies w) (uw_read w).

(** The server receives [p], and the filter answers it; an answer that cannot be
    sent is one that is dropped. *)
Definition world_serve (p : Packet) (rest : list Packet) (w : UdpWorld) : UdpWorld :=
  let (send, _) := UdpEchoFilter_onData (mkUdpRecvData (pk_to p) (pk_from p) (pk_bytes p)) in
  mkUdpWorld (uw_waiting w) (uw_time w) (uw_client w)
    (mkPacket (local_ip_ send) (peer_address_ send) (send_buffer_ send) :: rest) (uw_sent w)
    (if ours p then pk_bytes p :: uw_answered w else uw_answered w) (uw_gone w) (uw_copies w) (uw_read w).

(** The client reads [p]: its socket is connected and takes only what comes from
    the server. *)
Definition world_read (now : Z) (p : Packet) (rest : list Packet) (w : UdpWorld) : UdpWorld :=
  mkUdpWorld (uw_waiting w) now (snd (onReadable [(now, pk_bytes p)] (uw_client w))) rest (uw_sent w) (uw_answered w)
    (uw_gone w) (uw_copies w) (uw_read w + 1).

Inductive world_step : UdpWorld -> list nat -> UdpWorld -> Prop :=
| net_request now ok cb w : uw_time w <= now -> world_step w [cb] (world_request now ok cb w)
| net_internal w w' t' s' :
    udp_internal (uw_waiting w, uw_time w, uw_client w) (w', t', s') ->
    world_step w [] (mkUdpWorld w' t' s' (uw_net w) (uw_sent w) (uw_answered w) (uw_gone w) (uw_copies w) (uw_read w))
| net_stranger p w : pk_from p <> client -> pk_from p <> server -> world_step w [] (world_stranger p w)
| net_copy p w : p ∈ uw_net w -> world_step w [] (world_copy p w)
| net_drop p rest w : uw_net w ≡ₚ p :: rest -> world_step w [] (world_drop p rest w)
| net_serve p rest w : uw_net w ≡ₚ p :: rest -> pk_to p = server -> world_step w [] (world_serve p rest w)
| net_read now p rest w :
    uw_net w ≡ₚ p :: rest -> to_client p = true -> uw_time w <= now -> socket_ (uw_client w) = true ->
    world_step w [] (world_read now p rest w).

Inductive world_reachable (cfg : UdpConfig) : list nat -> UdpWorld -> Prop :=
| world_prepared t request setup s0 s :
    UdpBenchmarkClientImpl_new cfg = Ok s0 -> UdpBenchmarkClientImpl_prepare request setup s0 = Ok s ->
    world_reachable cfg [] (mkUdpWorld false t s [] [] [] [] 0 0)
| world_steps started w l w' :
    world_reachable cfg started w -> world_step w l w' -> world_reachable cfg (started ++ l) w'.

(** ** The client of a world is a client *)

Lemma internal_step x y : udp_internal x y -> udp_step x [] y.
Proof. destruct 1; by constructor. Qed.

Lemma world_client cfg started w :
  world_reachable cfg started w -> udp_reachable cfg started (uw_waiting w, uw_time w, uw_client w).
Proof.
  induction 1 as [t request setup s0 s Hn Hp|started w l w' _ IH Hs]; [by eapply udp_prepared|].
  destruct Hs as [now ok cb w Ht|w b t' s' Hi|p w _ _|p w _|p rest w _|p rest w _ _|now p rest w _ _ Ht Hsock];
    rewrite ?app_nil_r; try exact IH.
  - eapply udp_steps; [exact IH|]. pose proof (ustep_request (uw_waiting w) (uw_time w) now ok cb (uw_client w) Ht) as Hstep.
    unfold world_request. destruct (UdpBenchmarkClientImpl_tryStartRequest now ok cb (uw_client w)) as [[bytes|] s']; by destruct ok.
  - rewrite <- (app_nil_r started). by eapply udp_steps, internal_step.
  - rewrite <- (app_nil_r started). eapply udp_steps; [exact IH|]. apply ustep_readable; [done|]. constructor; [cbn; lia|done].
Qed.

(** ** What the client does in between *)

(** What does not concern the network: the datagrams outstanding may become fewer,
    and no request succeeds. *)
Record quiet (s s' : udp) : Prop := {
  qt_message : udp_message_ s' = udp_message_ s;
  qt_next : next_sequence_ s <= next_sequence_ s';
  qt_inflight : inflight_ s' ⊆ inflight_ s;
  qt_run cb : (cb, true) ∈ udp_run s' -> (cb, true) ∈ udp_run s;
  qt_sent : udp_datagrams_sent_ (udp_counters s') = udp_datagrams_sent_ (udp_counters s);
  qt_received : udp_datagrams_received_ (udp_counters s') = udp_datagrams_received_ (udp_counters s);
  qt_unexpected : udp_unexpected_ (udp_counters s') = udp_unexpected_ (udp_counters s);
}.

Lemma quiet_refl s : quiet s s.
Proof. by split. Qed.

Lemma quiet_trans s1 s2 s3 : quiet s1 s2 -> quiet s2 s3 -> quiet s1 s3.
Proof. intros [] []. split; try congruence; try lia; auto. by etrans. Qed.

Lemma quiet_lose late q s : q ⊆ inflight_ s -> quiet s (lose_while late q s).
Proof.
  revert s. induction q as [|[k d] q IH]; intros s Hq; cbn; [apply quiet_refl|].
  destruct (late d); [|apply quiet_refl]. eapply quiet_trans; [|apply IH; done].
  split; cbn; rewrite ?Z.add_0_r; try done.
  - intros e He. by apply Hq, list_elem_of_further.
  - intros cb. rewrite elem_of_app, list_elem_of_singleton. intros [?|[=]]; done.
Qed.

Lemma quiet_fields s s' :
  udp_message_ s' = udp_message_ s -> next_sequence_ s' = next_sequence_ s -> inflight_ s' = inflight_ s ->
  udp_run s' = udp_run s -> udp_counters s' = udp_counters s -> quiet s s'.
Proof. intros E1 E2 E3 E4 E5. split; rewrite ?E1, ?E2, ?E3, ?E4, ?E5; done. Qed.

Lemma quiet_finish_end s : quiet s (udp_finish_end s).
Proof.
  eapply quiet_trans; [apply (quiet_lose (fun _ => true) (inflight_ s) s); done|]. by apply quiet_fields.
Qed.

Lemma quiet_internal x y : udp_internal x y -> quiet (snd x) (snd y).
Proof.
  destruct 1 as [w t now s _ _|w t b s|t s|t s|t s _]; cbn [snd]; try by apply quiet_fields.
  - set (s0 := udp_set_socket _ _ _ s). eapply quiet_trans; [by apply (quiet_fields s s0)|].
    eapply quiet_trans; [by apply (quiet_lose (past_timeout now s0) (inflight_ s0) s0)|]. unfold sweep.
    set (s1 := lose_while _ _ _). clearbody s1.
    destruct (inflight_ s1) eqn:E, (draining_ s1); try destruct (sweep_timer_ s1); by apply quiet_fields.
  - unfold UdpBenchmarkClientImpl_finish. destruct (udp_finished_ s); [apply quiet_refl|]. cbv zeta.
    eapply quiet_trans; [by apply (quiet_fields s (udp_set_phase (udp_measure_latencies_ s) true true s))|].
    destruct (inflight_ _); [apply quiet_finish_end|]. destruct (socket_ _); [apply quiet_refl|apply quiet_finish_end].
  - apply quiet_finish_end.
Qed.

(** A request is refused or fails, and nothing is sent, or its datagram is. *)
Lemma tryStart_cases now ok cb s :
  in_u64 (next_sequence_ s + 1) -> Forall (fun e => fst e < next_sequence_ s) (inflight_ s) ->
  let (datagram, s') := UdpBenchmarkClientImpl_tryStartRequest now ok cb s in
  (datagram = None \/ ok = false) /\ quiet s s' \/
  datagram = Some (datagram_of (next_sequence_ s) s) /\ ok = true /\
  udp_message_ s' = udp_message_ s /\ next_sequence_ s' = next_sequence_ s + 1 /\
  inflight_ s' = inflight_ s ++ [(next_sequence_ s, mkDatagram now cb)] /\ udp_run s' = udp_run s /\
  udp_counters s' = udp_inc udp_datagrams_sent (udp_counters s).
Proof.
  intros Hn Hk. unfold UdpBenchmarkClientImpl_tryStartRequest.
  assert (forall n s0, n <> udp_datagrams_sent -> n <> udp_datagrams_received -> n <> udp_unexpected -> quiet s0 (udp_refuse n cb s0)) as Hq.
  { intros n s0 H1 H2 H3. split; cbn; rewrite ?app_nil_r; try done; destruct n; cbn; try done; lia. }
  destruct (_ || _); [left; split; [by left|by apply Hq]|]. destruct (_ <=? _)%nat; [left; split; [by left|by apply Hq]|].
  cbv zeta. rewrite (u64_small _ Hn). destruct ok; cbn [negb].
  - right. cbn [udp_count udp_set_inflight inflight_ next_sequence_]. rewrite emplace_last by done. by split_and!.
  - left. split; [by right|]. eapply quiet_trans; [|by apply Hq]. split; cbn; try done. lia.
Qed.

(** ** What is on the network *)

Context {HL : AbslHexLaws A}.
Context (apart : client <> server).

(** [w]'s datagrams between the two, and the texts of those on the network or
    dropped. *)
Definition exchanged (w : UdpWorld) : list Packet := List.filter ours (uw_net w).

Definition left_over (w : UdpWorld) : list string := (pk_bytes <$> exchanged w) ++ uw_gone w.

(** The client has written the datagram with these bytes. *)
Definition written (w : UdpWorld) (bytes : string) : Prop :=
  exists k cb, (k, cb) ∈ uw_sent w /\ bytes = datagram_of k (uw_client w).

Record net_inv (w : UdpWorld) : Prop := {
  ni_net p : p ∈ uw_net w -> ours p = true -> written w (pk_bytes p) /\ (to_client p = true -> pk_bytes p ∈ uw_answered w);
  ni_sent k cb : (k, cb) ∈ uw_sent w -> 0 <= k < next_sequence_ (uw_client w);
  ni_inflight k d : (k, d) ∈ inflight_ (uw_client w) ->
    (k, dg_callback d) ∈ uw_sent w /\ datagram_of k (uw_client w) ∈ left_over w;
  ni_run cb : (cb, true) ∈ udp_run (uw_client w) ->
    exists k, (k, cb) ∈ uw_sent w /\ datagram_of k (uw_client w) ∈ uw_answered w;
  ni_conserved : uw_read w + Z.of_nat (length (left_over w)) = Z.of_nat (length (uw_sent w)) + uw_copies w;
  ni_counted : Z.of_nat (length (uw_sent w)) = udp_datagrams_sent_ (udp_counters (uw_client w));
  ni_read : uw_read w = udp_datagrams_received_ (udp_counters (uw_client w)) + udp_unexpected_ (udp_counters (uw_client w));
}.

(** Distinct sequence numbers make distinct datagrams. *)
Lemma datagram_of_inj k k' s : in_u64 k -> in_u64 k' -> datagram_of k s = datagram_of k' s -> k = k'.
Proof.
  intros Hk Hk' E. apply (f_equal (stake 16)) in E. unfold datagram_of, sequencePrefix in E.
  pose proof (stake_app (StrFormat_016x k) (udp_message_ s)) as E1. rewrite (format_016x_length k Hk) in E1.
  pose proof (stake_app (StrFormat_016x k') (udp_message_ s)) as E2. rewrite (format_016x_length k' Hk') in E2.
  rewrite E1, E2 in E. apply (f_equal SimpleHexAtoi) in E. rewrite !format_016x_parsed in E by done. by injection E.
Qed.

Lemma datagram_of_message k s s' : udp_message_ s' = udp_message_ s -> datagram_of k s' = datagram_of k s.
Proof. unfold datagram_of. by intros ->. Qed.

Definition with_net (net : list Packet) (w : UdpWorld) : UdpWorld :=
  mkUdpWorld (uw_waiting w) (uw_time w) (uw_client w) net (uw_sent w) (uw_answered w) (uw_gone w) (uw_copies w) (uw_read w).

(** Whatever the client does quietly keeps the invariant. *)
Lemma net_inv_quiet w b t s' :
  quiet (uw_client w) s' -> net_inv w ->
  net_inv (mkUdpWorld b t s' (uw_net w) (uw_sent w) (uw_answered w) (uw_gone w) (uw_copies w) (uw_read w)).
Proof.
  intros [Em En Ei Er Es Ec Eu] [Hnet Hsent Hinf Hrun Hcon Hcnt Hread].
  split; unfold written, left_over, exchanged in *; cbn; rewrite ?Es, ?Ec, ?Eu; try done.
  - intros p Hp Ho. destruct (Hnet p Hp Ho) as [(k & cb & Hk & E) Ha]. split; [|done]. exists k, cb. split; [done|].
    by rewrite (datagram_of_message _ _ _ Em).
  - intros k cb Hk. specialize (Hsent k cb Hk). lia.
  - intros k d Hd. rewrite (datagram_of_message _ _ _ Em). by apply Hinf, Ei.
  - intros cb Hcb%Er. destruct (Hrun cb Hcb) as (k & Hk & Ha). exists k. by rewrite (datagram_of_message _ _ _ Em).
Qed.

(** Reordering the network makes no difference. *)
Lemma net_inv_perm w net : uw_net w ≡ₚ net -> net_inv w -> net_inv (with_net net w).
Proof.
  intros Hp [Hnet Hsent Hinf Hrun Hcon Hcnt Hread].
  assert ((pk_bytes <$> List.filter ours (uw_net w)) ++ uw_gone w ≡ₚ (pk_bytes <$> List.filter ours net) ++ uw_gone w) as Hl.
  { apply Permutation_app_tail, fmap_Permutation. clear - Hp. induction Hp; cbn; try done; repeat case_match; eauto.
    - apply perm_swap.
    - by etrans. }
  split; unfold written, left_over, exchanged in *; cbn; try done.
  - intros p Hin. rewrite <- Hp in Hin. by apply Hnet.
  - intros k d Hd. destruct (Hinf k d Hd) as [? Hin]. split; [done|]. by rewrite <- Hl.
  - by rewrite <- Hl.
Qed.


(** Unfolds what the invariant says of a world. *)
Ltac net_inv := split; unfold written, left_over, exchanged in *; cbn in *.

Lemma net_inv_sent now cb w s' :
  net_inv w -> 0 <= next_sequence_ (uw_client w) -> udp_message_ s' = udp_message_ (uw_client w) ->
  next_sequence_ s' = next_sequence_ (uw_client w) + 1 ->
  inflight_ s' = inflight_ (uw_client w) ++ [(next_sequence_ (uw_client w), mkDatagram now cb)] ->
  udp_run s' = udp_run (uw_client w) -> udp_counters s' = udp_inc udp_datagrams_sent (udp_counters (uw_client w)) ->
  net_inv (mkUdpWorld (uw_waiting w) now s' (mkPacket client server (datagram_of (next_sequence_ (uw_client w)) (uw_client w)) :: uw_net w)
    ((next_sequence_ (uw_client w), cb) :: uw_sent w) (uw_answered w) (uw_gone w) (uw_copies w) (uw_read w)).
Proof.
  intros [Hnet Hsent Hinf Hrun Hcon Hcnt Hread] H0 Em En Ei Er Ec.
  assert (ours (mkPacket client server (datagram_of (next_sequence_ (uw_client w)) (uw_client w))) = true) as Ho
    by (unfold ours, to_server; cbn; by rewrite !Z.eqb_refl).
  net_inv; rewrite ?Ho, ?Ei, ?Er, ?Ec; cbn in *; try lia.
  - intros p. rewrite elem_of_cons. intros [->|Hp] Hop; cbn.
    + split; [exists (next_sequence_ (uw_client w)), cb; split; [left|by rewrite (datagram_of_message _ _ _ Em)]|].
      unfold to_client. cbn. intros Hc. b2p. congruence.
    + destruct (Hnet p Hp Hop) as [(k & c & Hk & E) Ha]. split; [|done]. exists k, c. split; [by right|].
      by rewrite (datagram_of_message _ _ _ Em).
  - intros k c. rewrite elem_of_cons. intros [[= -> ->]|Hk]; [lia|]. specialize (Hsent k c Hk). lia.
  - intros k d. rewrite elem_of_app, list_elem_of_singleton, (datagram_of_message _ _ _ Em). intros [Hd|[= -> ->]].
    + destruct (Hinf k d Hd). split; by right.
    + cbn. split; left.
  - intros c Hc. destruct (Hrun c Hc) as (k & Hk & Ha). exists k. rewrite (datagram_of_message _ _ _ Em). split; [by right|done].
Qed.

Lemma net_inv_stranger p w : pk_from p <> client -> pk_from p <> server -> net_inv w -> net_inv (world_stranger p w).
Proof.
  intros H1 H2 [Hnet Hsent Hinf Hrun Hcon Hcnt Hread].
  assert (ours p = false) as Ho.
  { unfold ours, to_server, to_client. apply Z.eqb_neq in H1, H2. by rewrite H1, H2. }
  net_inv; rewrite ?Ho; try done. intros q. rewrite elem_of_cons. intros [->|Hq]; [congruence|by apply Hnet].
Qed.

Lemma net_inv_copy p w : p ∈ uw_net w -> net_inv w -> net_inv (world_copy p w).
Proof.
  intros Hp [Hnet Hsent Hinf Hrun Hcon Hcnt Hread]. net_inv; destruct (ours p) eqn:Ho; cbn; try done; try lia.
  - intros q. rewrite elem_of_cons. intros [->|Hq]; by apply Hnet.
  - intros q. rewrite elem_of_cons. intros [->|Hq]; [congruence|by apply Hnet].
  - intros k d Hd. destruct (Hinf k d Hd). split; [done|]. by right.
Qed.

Lemma net_inv_drop p rest w : net_inv (with_net (p :: rest) w) -> net_inv (world_drop p rest w).
Proof.
  intros [Hnet Hsent Hinf Hrun Hcon Hcnt Hread]. net_inv; try done.
  - intros q Hq. apply Hnet. by right.
  - intros k d Hd. destruct (Hinf k d Hd) as [? Hin]. split; [done|]. destruct (ours p); cbn in *; [|done].
    rewrite elem_of_cons, elem_of_app in Hin. rewrite elem_of_app, elem_of_cons. tauto.
  - destruct (ours p); cbn in *; [|done]. rewrite !length_app in *. cbn in *. lia.
Qed.

Lemma net_inv_serve p rest w : pk_to p = server -> net_inv (with_net (p :: rest) w) -> net_inv (world_serve p rest w).
Proof.
  intros Hto [Hnet Hsent Hinf Hrun Hcon Hcnt Hread]. set (q := mkPacket (pk_to p) (pk_from p) (pk_bytes p)).
  assert (ours q = ours p) as Ho.
  { unfold ours, to_server, to_client, q. cbn. rewrite Hto. apply eq_true_iff_eq. rewrite !orb_true_iff, !andb_true_iff, !Z.eqb_eq.
    intuition. }
  net_inv; fold q; rewrite ?Ho; try done.
  - intros p'. rewrite elem_of_cons. intros [->|Hp] Hop.
    + rewrite Ho in Hop. destruct (Hnet p (list_elem_of_here _ _) Hop) as [Hw _]. split; [done|]. intros _. rewrite Hop. left.
    + destruct (Hnet p' (list_elem_of_further _ _ _ Hp) Hop) as [Hw Ha]. split; [done|]. intros Hc. destruct (ours p); [right|]; auto.
  - destruct (ours p); done.
  - intros cb Hcb. destruct (Hrun cb Hcb) as (k & Hk & Ha). exists k. split; [done|]. destruct (ours p); [by right|done].
  - destruct (ours p); done.
Qed.


Lemma map_find_None k d m : map_find k m = None -> (k, d) ∈ m -> False.
Proof.
  induction m as [|[k' d'] m IH]; cbn; [by intros _ ?%elem_of_nil|]. rewrite elem_of_cons.
  destruct (Z.eqb_spec k k'); [done|]. intros Hn [[=]|Hin]; [done|by apply IH].
Qed.

(** The client reads the datagram of a sequence number: it completes the request
    that is outstanding under it, or is unexpected. *)
Lemma read_cases now k s :
  in_u64 k -> socket_ s = true ->
  let s' := snd (onReadable [(now, datagram_of k s)] s) in
  udp_message_ s' = udp_message_ s /\ next_sequence_ s' = next_sequence_ s /\
  match map_find k (inflight_ s) with
  | None => inflight_ s' = inflight_ s /\ udp_run s' = udp_run s /\ udp_counters s' = udp_inc udp_unexpected (udp_counters s)
  | Some d => inflight_ s' = map_erase k (inflight_ s) /\ udp_run s' = udp_run s ++ [(dg_callback d, true)] /\
      udp_counters s' = udp_inc udp_datagrams_received (udp_counters s)
  end.
Proof.
  intros Hk Hs. cbv zeta. cbn [onReadable]. rewrite Hs. destruct (datagram_of k s) as [|c bytes] eqn:Ed.
  { apply (f_equal String.length) in Ed. unfold datagram_of, sequencePrefix in Ed. rewrite slength_app, format_016x_length in Ed by done. done. }
  rewrite <- Ed. clear Ed. set (s' := onDatagram now (datagram_of k s) s).
  assert (snd (onReadable [] s') = s') as E by (cbn; by destruct (socket_ s')). cbn [onReadable] in E. rewrite E. clear E.
  unfold s'. rewrite onDatagram_of by done. destruct (map_find k (inflight_ s)) as [d|]; [|by split_and!].
  cbv zeta. cbn [udp_count udp_set_inflight udp_measure_latencies_]. unfold exit_if_drained.
  destruct (udp_measure_latencies_ s); cbn; destruct (map_erase k (inflight_ s)) eqn:Em; try destruct (draining_ s); cbn; rewrite ?Em; by split_and!.
Qed.

Lemma net_inv_read now p rest w :
  map_ok (inflight_ (uw_client w)) -> next_sequence_ (uw_client w) <= UINT64_MAX -> to_client p = true -> socket_ (uw_client w) = true ->
  net_inv (with_net (p :: rest) w) -> net_inv (world_read now p rest w).
Proof.
  intros Hok Hmax Hto Hs [Hnet Hsent Hinf Hrun Hcon Hcnt Hread].
  assert (ours p = true) as Ho by (unfold ours; rewrite Hto; apply orb_true_r).
  destruct (Hnet p (list_elem_of_here _ _) Ho) as [(k & cb & Hk & Eb) Ha]. specialize (Ha Hto). cbn in Hk, Eb, Ha.
  assert (forall k' c, (k', c) ∈ uw_sent w -> in_u64 k') as Hin by (intros k' c Hc; specialize (Hsent k' c Hc); cbn in Hsent; unfold in_u64, UINT64_MAX in *; lia).
  destruct (read_cases now k (uw_client w) (Hin _ _ Hk) Hs) as (Em & En & Hcase). rewrite Eb in Ha.
  unfold world_read. rewrite Eb. set (s' := snd _) in *. clearbody s'.
  assert (forall k' d, (k', d) ∈ inflight_ (uw_client w) -> k' <> k ->
            datagram_of k' (uw_client w) ∈ (pk_bytes <$> List.filter ours rest) ++ uw_gone w) as Hrest.
  { intros k' d Hd Hne. destruct (Hinf k' d Hd) as [Hk' Hl]. unfold left_over, exchanged in Hl. cbn in Hl. rewrite Ho in Hl. cbn in Hl.
    apply elem_of_cons in Hl as [E|Hl]; [|done]. rewrite Eb in E. by apply datagram_of_inj in E; eauto. }
  assert (forall k', datagram_of k' s' = datagram_of k' (uw_client w)) as Ed by (intros k'; by apply datagram_of_message).
  net_inv; rewrite ?Ho, ?En in *; cbn in *.
  - intros q Hq Hoq. destruct (Hnet q (list_elem_of_further _ _ _ Hq) Hoq) as [(k' & c & Hk' & E) Hc]. split; [|done].
    exists k', c. by rewrite Ed.
  - done.
  - intros k' d Hd. rewrite Ed. destruct (map_find k (inflight_ (uw_client w))) as [d0|] eqn:Ef; destruct Hcase as (Ei & _ & _); rewrite Ei in Hd.
    + assert (k' <> k) as Hne by (intros ->; eapply map_find_None; [by apply (map_find_erased k _ Hok)|done]).
      assert ((k', d) ∈ inflight_ (uw_client w)) as Hd' by (rewrite (map_find_perm _ _ _ Ef); by right).
      split; [apply (Hinf k' d Hd')|by eapply Hrest].
    + split; [apply (Hinf k' d Hd)|]. eapply Hrest; [exact Hd|]. intros ->. by eapply map_find_None.
  - intros c Hc. setoid_rewrite Ed. destruct (map_find k (inflight_ (uw_client w))) as [d|] eqn:Ef; destruct Hcase as (_ & Er & _); rewrite Er in Hc; [|by apply Hrun].
    apply elem_of_app in Hc as [Hc|Hc]; [by apply Hrun|]. apply list_elem_of_singleton in Hc as [= ->]. exists k. split; [|done].
    apply (Hinf k d). rewrite (map_find_perm _ _ _ Ef). left.
  - lia.
  - destruct (map_find k _); destruct Hcase as (_ & _ & ->); cbn; lia.
  - destruct (map_find k _); destruct Hcase as (_ & _ & ->); cbn; lia.
Qed.


Lemma net_inv_step cfg started w l w' :
  world_reachable cfg started w -> Z.of_nat (length (started ++ l)) <= UINT64_MAX -> world_step w l w' -> net_inv w -> net_inv w'.
Proof.
  intros Hr Hb Hs Hi. rewrite length_app in Hb.
  destruct (udp_inv_reachable cfg started _ (world_client _ _ _ Hr) ltac:(lia)) as [_ [_ Hok Hent Hn]]. cbn [fst snd] in *.
  destruct Hs as [now ok cb w Ht|w b t' s' Hint|p w H1 H2|p w Hp|p rest w Hp|p rest w Hp Hto|now p rest w Hp Hto Ht Hsock].
  - unfold world_request.
    pose proof (tryStart_cases now ok cb (uw_client w)) as Hc. destruct (UdpBenchmarkClientImpl_tryStartRequest _ _ _ _) as [datagram s'].
    destruct Hc as [[Hno Hq]|(-> & -> & ? & ? & ? & ? & ?)].
    + cbn in Hb. unfold in_u64, UINT64_MAX in *. lia.
    + eapply Forall_impl; [exact Hent|]. cbn. intros e. lia.
    + destruct datagram as [bytes|]; [destruct ok; [by destruct Hno|]|]; by apply net_inv_quiet.
    + apply net_inv_sent; try done. lia.
  - apply net_inv_quiet; [|done]. exact (quiet_internal _ _ Hint).
  - by apply net_inv_stranger.
  - by apply net_inv_copy.
  - apply net_inv_drop. by apply net_inv_perm.
  - apply net_inv_serve; [done|]. by apply net_inv_perm.
  - apply net_inv_read; try done; [lia|]. by apply net_inv_perm.
Qed.

Lemma net_inv_reachable cfg started w :
  world_reachable cfg started w -> Z.of_nat (length started) <= UINT64_MAX -> net_inv w.
Proof.
  induction 1 as [t request setup s0 s Hn Hp|started w l w' Hr IH Hs]; intros Hb.
  - unfold UdpBenchmarkClientImpl_new in Hn. destruct (_ =? _)%nat; [done|]. destruct (_ <=? 0); [done|]. injection Hn as <-.
    unfold UdpBenchmarkClientImpl_prepare in Hp. destruct request as [body|]; [|done]. injection Hp as <-.
    destruct setup; net_inv; try done; intros *; rewrite ?elem_of_nil; done.
  - eapply net_inv_step; [done..|]. apply IH. rewrite length_app in Hb. lia.
Qed.

(** Each datagram that is outstanding is still on its way, or was dropped. *)
Lemma outstanding_left_over w n t :
  net_inv w -> inflight_ok n t (uw_client w) -> Z.of_nat n <= UINT64_MAX ->
  (length (inflight_ (uw_client w)) <= length (left_over w))%nat.
Proof.
  intros Hi [_ Hok Hent Hn] Hb. rewrite <- (length_fmap (fun e => datagram_of (fst e) (uw_client w))).
  apply submseteq_length, NoDup_submseteq.
  - clear Hi. induction Hok as [|[k d] m Hm IH Hlt]; [constructor|]. apply Forall_cons in Hent as [Hk Hent]. cbn [fmap list_fmap fst].
    constructor; [|by apply IH]. rewrite list_elem_of_fmap. intros ([k' d'] & E & Hin). cbn in *.
    rewrite Forall_forall in Hlt, Hent. specialize (Hlt _ Hin). specialize (Hent _ Hin). unfold entry_lt in Hlt. cbn in *.
    apply datagram_of_inj in E; unfold in_u64, UINT64_MAX in *; lia.
  - intros bytes. rewrite list_elem_of_fmap. intros ([k d] & -> & Hin). apply (ni_inflight w Hi k d Hin).
Qed.

(** C19. UDP load against the echo filter, over a network that reorders, copies and
    drops datagrams and carries the traffic of others: a request succeeds only if
    the server has answered the very datagram the client wrote for it; every
    datagram the client reads completes a request or is counted as unexpected, and
    no more are unexpected than the network made copies and the client gave up on;
    and when nothing was dropped and nothing is on its way, nothing is
    outstanding. *)
Theorem udp_load_answered cfg started w :
  world_reachable cfg started w -> Z.of_nat (length started) <= UINT64_MAX ->
  let k := udp_counters (uw_client w) in
  (forall cb, (cb, true) ∈ udp_run (uw_client w) ->
     exists n, (n, cb) ∈ uw_sent w /\ datagram_of n (uw_client w) ∈ uw_answered w) /\
  uw_read w = udp_datagrams_received_ k + udp_unexpected_ k /\
  udp_unexpected_ k <= uw_copies w + udp_lost_ k /\
  (left_over w = [] -> inflight_ (uw_client w) = []).
Proof.
  intros Hr Hb. cbv zeta. pose proof (net_inv_reachable cfg started w Hr Hb) as Hi.
  destruct (udp_inv_reachable cfg started _ (world_client _ _ _ Hr) Hb) as [Hbooks Hok]. cbn [fst snd] in *.
  pose proof (outstanding_left_over w _ _ Hi Hok Hb) as Hlen. pose proof (db_sent _ _ Hbooks) as Hsent.
  destruct Hi as [_ _ _ Hrun Hcon Hcnt Hread]. split_and!; [done|done|lia|].
  intros E. rewrite E in Hlen. cbn in Hlen. destruct (inflight_ (uw_client w)); [done|cbn in Hlen; lia].
Qed.

End Network.

(** ** A run

    Two datagrams, a copy of the second, the first dropped; both the second and its
    copy are answered and read. *)

Section Demo.

#[local] Existing Instance absl_documented.

Definition demo_world (s : udp) (t : Z) (net : list Packet) (sent : list (Z * nat)) : UdpWorld :=
  mkUdpWorld false t s net sent [] [] 0 0.

Definition demo_world1 : UdpWorld := world_request 1 2 20 true 8 (world_request 1 2 10 true 7 (demo_world demo_udp_ready 0 [] [])).

Definition packet (from to : Z) (bytes : string) : Packet := mkPacket from to bytes.

Definition second (from to : Z) : Packet := packet from to "0000000000000001hi".

Definition first : Packet := packet 1 2 "0000000000000000hi".

Definition demo_world2 : UdpWorld := world_drop 1 2 first [second 1 2; second 1 2] (world_copy 1 2 (second 1 2) demo_world1).

Definition demo_world3 : UdpWorld := world_serve 1 2 (second 1 2) [second 2 1] (world_serve 1 2 (second 1 2) [second 1 2] demo_world2).

Definition demo_world4 : UdpWorld := world_read 40 (second 2 1) [] (world_read 30 (second 2 1) [second 2 1] demo_world3).

Lemma demo_world_reachable : world_reachable 1 2 demo_udp_config [7; 8]%nat demo_world4.
Proof.
  assert (world_reachable 1 2 demo_udp_config [7; 8]%nat demo_world1) as H1.
  { apply (world_steps 1 2 _ [7%nat] (world_request 1 2 10 true 7 (demo_world demo_udp_ready 0 [] [])) [8%nat]); [|by apply net_request].
    apply (world_steps 1 2 _ [] (demo_world demo_udp_ready 0 [] []) [7%nat]); [|by apply net_request].
    by apply (world_prepared 1 2 _ 0 (Some "hi"%string) SocketConnected demo_udp_new). }
  assert (forall w w', world_reachable 1 2 demo_udp_config [7; 8]%nat w -> world_step 1 2 w [] w' -> world_reachable 1 2 demo_udp_config [7; 8]%nat w') as Hstep
    by (intros w w' Hw Hs; exact (world_steps 1 2 _ _ _ [] _ Hw Hs)).
  eapply Hstep; [|apply net_read; [done|done|by vm_compute|done]].
  eapply Hstep; [|apply net_read; [done|done|by vm_compute|done]].
  eapply Hstep; [|apply net_serve; [by vm_compute; apply perm_swap|done]].
  eapply Hstep; [|apply net_serve; [done|done]].
  eapply Hstep; [|apply net_drop; vm_compute; solve_Permutation].
  eapply Hstep; [exact H1|]. apply net_copy. left.
Qed.

(** C19: one of the two is counted as unexpected, for the copy. *)
Lemma udp_load_answered_witness :
  udp_run (uw_client demo_world4) = [(8%nat, true)] /\ udp_unexpected_ (udp_counters (uw_client demo_world4)) = 1 /\
  uw_copies demo_world4 = 1 /\
  udp_unexpected_ (udp_counters (uw_client demo_world4)) <= uw_copies demo_world4 + udp_lost_ (udp_counters (uw_client demo_world4)).
Proof.
  split; [reflexivity|]. split; [reflexivity|]. split; [reflexivity|].
  apply (udp_load_answered 1 2 ltac:(done) demo_udp_config [7; 8]%nat demo_world4 demo_world_reachable). vm_compute. discriminate.
Defined.

End Demo.
