(* ===== verification/GrpcStreamClient.v ===== *)
(** * The gRPC stream benchmark client

    Models [engine/source/client/grpc_stream_client_impl.{h,cc}]: a fixed number
    of bidirectional streams opened through a connection pool, messages written
    to them round-robin, echoes matched in order on each stream, half-closes
    and a drain at the end.

    What Envoy's pool, codec and gRPC frame decoder do is explicit: whether
    there is a pool and whether it answers at once, whether headers can be
    encoded, and how many frames the decoder finds in the data, are arguments;
    what they raise later are events. Times are in nanoseconds. *)

From S2P Require Import Prelude.

(** ** Data *)

Inductive StreamState : Type := Opening | StreamOpen | HalfClosed | StreamClosed.

#[export] Instance StreamState_eq_dec : EqDecision StreamState.
Proof. solve_decision. Defined.

Inductive StreamWaitingFor : Type := WaitNothing | WaitOpens | WaitCloses.

Record StreamMessage : Type := mkStreamMessage { msg_sent_at : Z; msg_callback : nat }.

(** The encoder and the handle to cancel the opening are there or not. *)
Record Stream : Type := mkStream {
  stream_state : StreamState;
  stream_encoder : bool;
  stream_cancellable : bool;
  stream_inflight : list StreamMessage;
  stream_write_blocked_ : bool;
}.

#[export] Instance Stream_inhabited : Inhabited Stream :=
  populate (mkStream StreamClosed false false [] false).

Record GrpcStreamCounters : Type := mkGrpcCounters {
  streams_opened_ : Z;
  stream_open_failures_ : Z;
  stream_messages_sent_ : Z;
  stream_messages_received_ : Z;
  stream_deferred_ : Z;
  stream_unavailable_ : Z;
  grpc_stream_resets_ : Z;
  stream_early_close_ : Z;
  stream_unexpected_message_ : Z;
  stream_inflight_lost_ : Z;
  stream_drain_incomplete_ : Z;
  stream_write_blocked_count_ : Z;
}.

Inductive grpc_counter : Type :=
| streams_opened | stream_open_failures | stream_messages_sent | stream_messages_received
| stream_deferred | stream_unavailable | stream_resets | stream_early_close
| stream_unexpected_message | stream_inflight_lost | stream_drain_incomplete
| stream_write_blocked.

Scheme Boolean Equality for grpc_counter.

Definition grpc_inc (n : grpc_counter) (k : GrpcStreamCounters) : GrpcStreamCounters :=
  let one m := if grpc_counter_beq n m then 1 else 0 in
  mkGrpcCounters (streams_opened_ k + one streams_opened)
    (stream_open_failures_ k + one stream_open_failures)
    (stream_messages_sent_ k + one stream_messages_sent)
    (stream_messages_received_ k + one stream_messages_received)
    (stream_deferred_ k + one stream_deferred) (stream_unavailable_ k + one stream_unavailable)
    (grpc_stream_resets_ k + one stream_resets) (stream_early_close_ k + one stream_early_close)
    (stream_unexpected_message_ k + one stream_unexpected_message)
    (stream_inflight_lost_ k + one stream_inflight_lost)
    (stream_drain_incomplete_ k + one stream_drain_incomplete)
    (stream_write_blocked_count_ k + one stream_write_blocked).

Record GrpcStreamConfig : Type := mkGrpcConfig {
  stream_count_ : nat;
  max_inflight_per_stream_ : nat;
  stream_drain_duration_ : Z;
  open_timeout_ : Z;
}.

(** [stream_run] and [stream_posted]: the completion callbacks called and posted,
    with their second argument. The counters by grpc-status are a map ([None]:
    missing). *)
Record GrpcStreamBenchmarkClientImpl : Type := mkGrpc {
  grpc_config : GrpcStreamConfig;
  grpc_counters : GrpcStreamCounters;
  stream_grpc_status : gmap (option Z) Z;
  streams_ : list Stream;
  next_stream_ : nat;
  stream_pending_opens_ : Z;
  stream_measure_latencies_ : bool;
  stream_waiting_for_ : StreamWaitingFor;
  stream_finished_ : bool;
  stream_latencies : list Z;
  stream_run : list (nat * bool);
  stream_posted : list (nat * bool);
  stream_exits : nat;
}.

Abbreviation grpc := GrpcStreamBenchmarkClientImpl.

(** Field updates. *)
Definition grpc_count (n : grpc_counter) (s : grpc) : grpc :=
  mkGrpc (grpc_config s) (grpc_inc n (grpc_counters s)) (stream_grpc_status s) (streams_ s)
    (next_stream_ s) (stream_pending_opens_ s) (stream_measure_latencies_ s) (stream_waiting_for_ s)
    (stream_finished_ s) (stream_latencies s) (stream_run s) (stream_posted s) (stream_exits s).

Definition grpcStatusCounter (status : option Z) (s : grpc) : grpc :=
  mkGrpc (grpc_config s) (grpc_counters s)
    (<[status := default 0 (stream_grpc_status s !! status) + 1]> (stream_grpc_status s)) (streams_ s)
    (next_stream_ s) (stream_pending_opens_ s) (stream_measure_latencies_ s) (stream_waiting_for_ s)
    (stream_finished_ s) (stream_latencies s) (stream_run s) (stream_posted s) (stream_exits s).

Definition set_streams (v : list Stream) (s : grpc) : grpc :=
  mkGrpc (grpc_config s) (grpc_counters s) (stream_grpc_status s) v
    (next_stream_ s) (stream_pending_opens_ s) (stream_measure_latencies_ s) (stream_waiting_for_ s)
    (stream_finished_ s) (stream_latencies s) (stream_run s) (stream_posted s) (stream_exits s).

Definition set_stream_flow (next : nat) (pending : Z) (measure : bool) (w : StreamWaitingFor)
    (finished : bool) (s : grpc) : grpc :=
  mkGrpc (grpc_config s) (grpc_counters s) (stream_grpc_status s) (streams_ s)
    next pending measure w finished (stream_latencies s) (stream_run s) (stream_posted s)
    (stream_exits s).

Definition add_stream_latency (v : Z) (s : grpc) : grpc :=
  mkGrpc (grpc_config s) (grpc_counters s) (stream_grpc_status s) (streams_ s)
    (next_stream_ s) (stream_pending_opens_ s) (stream_measure_latencies_ s) (stream_waiting_for_ s)
    (stream_finished_ s) (stream_latencies s ++ [v]) (stream_run s) (stream_posted s) (stream_exits s).

Definition stream_call_back (run posted : list (nat * bool)) (s : grpc) : grpc :=
  mkGrpc (grpc_config s) (grpc_counters s) (stream_grpc_status s) (streams_ s)
    (next_stream_ s) (stream_pending_opens_ s) (stream_measure_latencies_ s) (stream_waiting_for_ s)
    (stream_finished_ s) (stream_latencies s) (stream_run s ++ run) (stream_posted s ++ posted)
    (stream_exits s).

Definition stream_exit (s : grpc) : grpc :=
  mkGrpc (grpc_config s) (grpc_counters s) (stream_grpc_status s) (streams_ s)
    (next_stream_ s) (stream_pending_opens_ s) (stream_measure_latencies_ s) (stream_waiting_for_ s)
    (stream_finished_ s) (stream_latencies s) (stream_run s) (stream_posted s) (S (stream_exits s)).

Definition add_pending_opens (d : Z) (s : grpc) : grpc :=
  set_stream_flow (next_stream_ s) (stream_pending_opens_ s + d) (stream_measure_latencies_ s)
    (stream_waiting_for_ s) (stream_finished_ s) s.

Definition set_stream_waiting (w : StreamWaitingFor) (s : grpc) : grpc :=
  set_stream_flow (next_stream_ s) (stream_pending_opens_ s) (stream_measure_latencies_ s)
    w (stream_finished_ s) s.

Definition stream_at (s : grpc) (i : nat) : Stream := streams_ s !!! i.

Definition update_stream (i : nat) (f : Stream -> Stream) (s : grpc) : grpc :=
  set_streams (alter f i (streams_ s)) s.

Definition stream_in_state (st : StreamState) (x : Stream) : Stream :=
  mkStream st (stream_encoder x) (stream_cancellable x) (stream_inflight x) (stream_write_blocked_ x).

Definition stream_handles (encoder cancellable : bool) (x : Stream) : Stream :=
  mkStream (stream_state x) encoder cancellable (stream_inflight x) (stream_write_blocked_ x).

Definition stream_with_inflight (q : list StreamMessage) (x : Stream) : Stream :=
  mkStream (stream_state x) (stream_encoder x) (stream_cancellable x) q (stream_write_blocked_ x).

Definition stream_blocked (b : bool) (x : Stream) : Stream :=
  mkStream (stream_state x) (stream_encoder x) (stream_cancellable x) (stream_inflight x) b.

(** ** Streams *)

Definition is_open (x : Stream) : bool :=
  match stream_state x with StreamOpen | HalfClosed => true | _ => false end.

Definition openStreams (s : grpc) : nat := length (List.filter is_open (streams_ s)).

Definition stream_maybeExitWaitLoop (s : grpc) : grpc :=
  match stream_waiting_for_ s with
  | WaitOpens => if stream_pending_opens_ s =? 0 then stream_exit s else s
  | WaitCloses => if (openStreams s =? 0)%nat then stream_exit s else s
  | WaitNothing => s
  end.

(** One turn per message outstanding, each lost: [completeInflight(false)], the
    only call there is. *)
Fixpoint stream_complete_loop (q : list StreamMessage) (i : nat) (s : grpc) : grpc :=
  match q with
  | [] => s
  | m :: q =>
      let s := grpc_count stream_inflight_lost (update_stream i (stream_with_inflight q) s) in
      stream_complete_loop q i (stream_call_back [(msg_callback m, false)] [] s)
  end.

Definition stream_completeInflight (i : nat) (s : grpc) : grpc :=
  stream_complete_loop (stream_inflight (stream_at s i)) i s.

Definition closeStream (i : nat) (grpc_status : option Z) (s : grpc) : grpc :=
  match stream_state (stream_at s i) with
  | StreamClosed => s
  | _ =>
      let s := update_stream i (fun x => stream_handles false (stream_cancellable x)
                                           (stream_in_state StreamClosed x)) s in
      let s := grpcStatusCounter grpc_status s in
      stream_maybeExitWaitLoop (stream_completeInflight i s)
  end.

(** ** Opening *)

(** [encoded]: whether the headers could be encoded. *)
Definition onStreamReady (i : nat) (encoded : bool) (s : grpc) : grpc :=
  let s := update_stream i (stream_handles true false) s in
  let s := if encoded
           then grpc_count streams_opened (update_stream i (stream_in_state StreamOpen) s)
           else grpc_count stream_open_failures (update_stream i (stream_in_state StreamClosed) s) in
  stream_maybeExitWaitLoop (add_pending_opens (-1) s).

Definition onStreamOpenFailure (i : nat) (s : grpc) : grpc :=
  let s := update_stream i (fun x => stream_handles (stream_encoder x) false
                                       (stream_in_state StreamClosed x)) s in
  stream_maybeExitWaitLoop (add_pending_opens (-1) (grpc_count stream_open_failures s)).

Inductive PoolAnswer : Type := PoolReadyNow (encoded : bool) | PoolFailedNow | PoolLater.

(** [pool]: there is none, or what it does before [newStream] returns. *)
Definition openStream (pool : option PoolAnswer) (i : nat) (s : grpc) : grpc :=
  match pool with
  | None => grpc_count stream_open_failures (update_stream i (stream_in_state StreamClosed) s)
  | Some answer =>
      let s := add_pending_opens 1 s in
      let s := match answer with
               | PoolReadyNow encoded => onStreamReady i encoded s
               | PoolFailedNow => onStreamOpenFailure i s
               | PoolLater => s
               end in
      match stream_state (stream_at s i) with
      | Opening => update_stream i (fun x => stream_handles (stream_encoder x) true x) s
      | _ => s
      end
  end.

Fixpoint open_streams (pool : nat -> option PoolAnswer) (todo : list nat) (s : grpc) : grpc :=
  match todo with
  | [] => s
  | i :: todo => open_streams pool todo (openStream (pool i) i s)
  end.

Definition grpc_counters_init : GrpcStreamCounters := mkGrpcCounters 0 0 0 0 0 0 0 0 0 0 0 0.

Definition GrpcStreamBenchmarkClientImpl_new (cfg : GrpcStreamConfig) : outcome grpc :=
  if (stream_count_ cfg =? 0)%nat then Panic "at least one stream is required"
  else if (max_inflight_per_stream_ cfg =? 0)%nat then
    Panic "max_inflight_per_stream must be positive"
  else
    Ok (mkGrpc cfg grpc_counters_init ∅
          (replicate (stream_count_ cfg) (mkStream Opening false false [] false)) 0 0 false WaitNothing
          false [] [] [] 0).

(** [prepare] up to the event loop it runs; [stream_prepare_end] follows when it
    is exited, by a stream or by the timer of [open_timeout]. *)
Definition GrpcStreamBenchmarkClientImpl_prepare (has_request : bool) (pool : nat -> option PoolAnswer)
    (s : grpc) : outcome grpc :=
  if negb has_request then Panic "the request source did not yield a request"
  else
    let s := open_streams pool (seq 0 (stream_count_ (grpc_config s))) s in
    Ok (if stream_pending_opens_ s =? 0 then s else set_stream_waiting WaitOpens s).

Definition stream_prepare_end (s : grpc) : grpc := set_stream_waiting WaitNothing s.

(** ** Messages *)

Definition stream_refuse (n : grpc_counter) (cb : nat) (s : grpc) : grpc :=
  stream_call_back [] [(cb, false)] (grpc_count n s).

Definition next_turn (s : grpc) : grpc :=
  set_stream_flow ((next_stream_ s + 1) mod stream_count_ (grpc_config s))%nat (stream_pending_opens_ s)
    (stream_measure_latencies_ s) (stream_waiting_for_ s) (stream_finished_ s) s.

Definition GrpcStreamBenchmarkClientImpl_tryStartRequest (now : Z) (cb : nat) (s : grpc) : grpc :=
  let i := next_stream_ s in
  let s := next_turn s in
  let x := stream_at s i in
  match stream_state x with
  | StreamOpen =>
      if stream_write_blocked_ x ||
         (max_inflight_per_stream_ (grpc_config s) <=? length (stream_inflight x))%nat
      then stream_refuse stream_deferred cb s
      else grpc_count stream_messages_sent
             (update_stream i (stream_with_inflight (stream_inflight x ++ [mkStreamMessage now cb])) s)
  | _ => stream_refuse stream_unavailable cb s
  end.

Definition count_early_close (i : nat) (s : grpc) : grpc :=
  match stream_state (stream_at s i) with
  | StreamOpen => grpc_count stream_early_close s
  | _ => s
  end.

(** The status is what [getGrpcStatus] finds in the headers. *)
Definition onResponseHeaders (i : nat) (status : option Z) (end_stream : bool) (s : grpc) : grpc :=
  if end_stream then closeStream i status (count_early_close i s) else s.

(** One frame of the data. *)
Definition onFrame (now : Z) (i : nat) (s : grpc) : grpc :=
  match stream_inflight (stream_at s i) with
  | [] => grpc_count stream_unexpected_message s
  | m :: rest =>
      let s := update_stream i (stream_with_inflight rest) s in
      let s := grpc_count stream_messages_received s in
      let s := if stream_measure_latencies_ s then add_stream_latency (now - msg_sent_at m) s else s in
      stream_call_back [(msg_callback m, true)] [] s
  end.

Fixpoint onFrames (frames : nat) (now : Z) (i : nat) (s : grpc) : grpc :=
  match frames with
  | O => s
  | S frames => onFrames frames now i (onFrame now i s)
  end.

(** [frames]: how many the decoder found in the data and what it had kept; the
    frames found before data it cannot decode count too. *)
Definition onResponseData (now : Z) (i : nat) (frames : nat) (end_stream : bool) (s : grpc) : grpc :=
  let s := onFrames frames now i s in
  if end_stream then closeStream i None (count_early_close i s) else s.

Definition onResponseTrailers (i : nat) (status : option Z) (s : grpc) : grpc :=
  closeStream i status (count_early_close i s).

Definition onStreamReset (i : nat) (s : grpc) : grpc :=
  match stream_state (stream_at s i) with
  | StreamClosed => s
  | st =>
      let s := grpc_count stream_resets s in
      let s := match st with
               | Opening => add_pending_opens (-1) (grpc_count stream_open_failures s)
               | _ => s
               end in
      closeStream i None s
  end.

Definition stream_onWriteBlocked (i : nat) (blocked : bool) (s : grpc) : grpc :=
  let s := if blocked && negb (stream_write_blocked_ (stream_at s i))
           then grpc_count stream_write_blocked s else s in
  update_stream i (stream_blocked blocked) s.

(** ** Finishing *)

Definition half_close (x : Stream) : Stream :=
  match stream_state x, stream_encoder x with
  | StreamOpen, true => stream_in_state HalfClosed x
  | _, _ => x
  end.

(** [finish] up to the event loop it runs; [true]: the loop is run, and
    [stream_finish_end] follows when it is exited. [false]: it has returned. *)
Definition GrpcStreamBenchmarkClientImpl_finish (s : grpc) : bool * grpc :=
  if stream_finished_ s then (false, s)
  else
    let s := set_stream_flow (next_stream_ s) (stream_pending_opens_ s) (stream_measure_latencies_ s)
               (stream_waiting_for_ s) true s in
    let s := set_streams (map half_close (streams_ s)) s in
    if (openStreams s =? 0)%nat then (false, s) else (true, set_stream_waiting WaitCloses s).

Definition drain_stream (s : grpc) (i : nat) : grpc :=
  if is_open (stream_at s i)
  then stream_completeInflight i (grpc_count stream_drain_incomplete s) else s.

Definition stream_finish_end (s : grpc) : grpc :=
  foldl drain_stream (set_stream_waiting WaitNothing s) (seq 0 (length (streams_ s))).

(** Resetting a stream raises a reset, which finds the stream closed. *)
Definition terminate_stream (s : grpc) (i : nat) : grpc :=
  let x := stream_at s i in
  match stream_state x with
  | Opening =>
      if stream_cancellable x then
        add_pending_opens (-1)
          (update_stream i (fun x => stream_handles (stream_encoder x) false
                                       (stream_in_state StreamClosed x)) s)
      else s
  | StreamOpen | HalfClosed =>
      let s := update_stream i (fun x => stream_handles false (stream_cancellable x)
                                           (stream_in_state StreamClosed x)) s in
      let s := stream_completeInflight i s in
      if stream_encoder x then onStreamReset i s else s
  | StreamClosed => s
  end.

(** [terminate] after its [finish]. *)
Definition stream_terminate_end (s : grpc) : grpc :=
  let s := set_stream_flow (next_stream_ s) (stream_pending_opens_ s) false
             (stream_waiting_for_ s) (stream_finished_ s) s in
  foldl terminate_stream s (seq 0 (length (streams_ s))).

(** ** Executions

    The pool answers once, and only for a stream that waits for it; the codec's
    events may come at any time. *)

Inductive grpc_step : grpc -> list nat -> grpc -> Prop :=
| gstep_ready i encoded s :
    stream_state (stream_at s i) = Opening -> stream_cancellable (stream_at s i) = true ->
    grpc_step s [] (onStreamReady i encoded s)
| gstep_open_failure i s :
    stream_state (stream_at s i) = Opening -> stream_cancellable (stream_at s i) = true ->
    grpc_step s [] (onStreamOpenFailure i s)
| gstep_headers i status end_stream s :
    stream_state (stream_at s i) <> Opening ->
    grpc_step s [] (onResponseHeaders i status end_stream s)
| gstep_data now i frames end_stream s :
    stream_state (stream_at s i) <> Opening ->
    grpc_step s [] (onResponseData now i frames end_stream s)
| gstep_trailers i status s :
    stream_state (stream_at s i) <> Opening -> grpc_step s [] (onResponseTrailers i status s)
| gstep_reset i s : grpc_step s [] (onStreamReset i s)
| gstep_write_blocked i b s : grpc_step s [] (stream_onWriteBlocked i b s)
| gstep_request now cb s :
    grpc_step s [cb] (GrpcStreamBenchmarkClientImpl_tryStartRequest now cb s)
| gstep_measure b s :
    grpc_step s [] (set_stream_flow (next_stream_ s) (stream_pending_opens_ s) b
                      (stream_waiting_for_ s) (stream_finished_ s) s)
| gstep_prepared s : stream_waiting_for_ s = WaitOpens -> grpc_step s [] (stream_prepare_end s)
| gstep_finish s :
    stream_waiting_for_ s = WaitNothing -> grpc_step s [] (snd (GrpcStreamBenchmarkClientImpl_finish s))
| gstep_finish_end s : stream_waiting_for_ s = WaitCloses -> grpc_step s [] (stream_finish_end s)
| gstep_terminate s :
    stream_waiting_for_ s = WaitNothing -> stream_finished_ s = true ->
    grpc_step s [] (stream_terminate_end s).

Inductive grpc_reachable (cfg : GrpcStreamConfig) : list nat -> grpc -> Prop :=
| grpc_prepared pool s0 s :
    GrpcStreamBenchmarkClientImpl_new cfg = Ok s0 ->
    GrpcStreamBenchmarkClientImpl_prepare true pool s0 = Ok s ->
    grpc_reachable cfg [] s
| grpc_steps started s l s' :
    grpc_reachable cfg started s -> grpc_step s l s' -> grpc_reachable cfg (started ++ l) s'.

(** ** The books *)

Definition stream_outstanding (s : grpc) : list nat :=
  streams_ s ≫= (fun x => msg_callback <$> stream_inflight x).

Arguments stream_outstanding : simpl never.

Record stream_books (started : list nat) (s : grpc) : Prop := {
  sb_callbacks : started ≡ₚ
    (fst <$> stream_run s) ++ (fst <$> stream_posted s) ++ stream_outstanding s;
  sb_received : successes (stream_run s) = stream_messages_received_ (grpc_counters s);
  sb_lost : failures (stream_run s) = stream_inflight_lost_ (grpc_counters s);
  sb_posted : successes (stream_posted s) = 0;
  sb_refused : failures (stream_posted s) =
    stream_unavailable_ (grpc_counters s) + stream_deferred_ (grpc_counters s);
  sb_sent : stream_messages_sent_ (grpc_counters s) =
    stream_messages_received_ (grpc_counters s) + stream_inflight_lost_ (grpc_counters s) +
    Z.of_nat (length (stream_outstanding s));
}.

(** The counters the books are about. *)
Definition about_messages (n : grpc_counter) : bool :=
  match n with
  | stream_messages_sent | stream_messages_received | stream_deferred | stream_unavailable
  | stream_inflight_lost => true
  | _ => false
  end.

Create HintDb streams.

Lemma sbooks_update started i g s :
  (forall x, stream_inflight (g x) = stream_inflight x) ->
  stream_books started s -> stream_books started (update_stream i g s).
Proof.
  intros H [? ? ? ? ? ?].
  assert (stream_outstanding (update_stream i g s) = stream_outstanding s) as E
    by (apply bind_alter_same; intros x; by rewrite H).
  split; rewrite ?E; done.
Qed.

Lemma sbooks_count started n s :
  about_messages n = false -> stream_books started s -> stream_books started (grpc_count n s).
Proof.
  intros Hn [? ? ? ? ? ?]. destruct n; try discriminate Hn; split; cbn; rewrite ?Z.add_0_r; done.
Qed.

Lemma sbooks_status started st s : stream_books started s -> stream_books started (grpcStatusCounter st s).
Proof. intros []. split; done. Qed.

Lemma sbooks_flow started a b c d e s :
  stream_books started s -> stream_books started (set_stream_flow a b c d e s).
Proof. intros []. split; done. Qed.

Lemma sbooks_exit started s : stream_books started s -> stream_books started (stream_exit s).
Proof. intros []. split; done. Qed.

#[export] Hint Resolve sbooks_update sbooks_count sbooks_status sbooks_flow sbooks_exit : streams.

Lemma sbooks_maybeExit started s :
  stream_books started s -> stream_books started (stream_maybeExitWaitLoop s).
Proof.
  intros H. unfold stream_maybeExitWaitLoop. destruct (stream_waiting_for_ s); split_ifs; auto with streams.
Qed.

Lemma sbooks_pending started d s : stream_books started s -> stream_books started (add_pending_opens d s).
Proof. unfold add_pending_opens. auto with streams. Qed.

#[export] Hint Resolve sbooks_maybeExit sbooks_pending : streams.

(** The oldest message of a stream is done with. *)
Lemma sbooks_complete started i m q b s :
  streams_ s !! i ≫= (fun x => Some (stream_inflight x)) = Some (m :: q) ->
  stream_books started s ->
  stream_books started
    (stream_call_back [(msg_callback m, b)] []
       (grpc_count (if b then stream_messages_received else stream_inflight_lost)
          (update_stream i (stream_with_inflight q) s))).
Proof.
  intros Hi [Hc Hr Hl Hp Hf Hs].
  destruct (streams_ s !! i) as [x|] eqn:Ex; cbn in Hi; [|done]. injection Hi as Hi.
  set (s1 := update_stream i (stream_with_inflight q) s).
  assert (stream_outstanding s ≡ₚ msg_callback m :: stream_outstanding s1) as Ho.
  { pose proof (bind_alter_perm (fun x => msg_callback <$> stream_inflight x) (stream_with_inflight q)
                  i (streams_ s) x Ex) as Hb.
    cbn beta in Hb. rewrite Hi in Hb. cbn in Hb. unfold stream_outstanding. cbn.
    apply (Permutation_app_inv_l (msg_callback <$> q)). rewrite <- Hb. solve_Permutation. }
  pose proof (Permutation_length Ho) as Hlen. cbn [length] in Hlen.
  assert (stream_outstanding s1 = stream_outstanding (stream_call_back [(msg_callback m, b)] []
            (grpc_count (if b then stream_messages_received else stream_inflight_lost) s1))) as Eo by done.
  split; rewrite <- ?Eo; destruct b; cbn;
    rewrite ?app_nil_r, ?fmap_app, ?successes_app, ?failures_app, ?successes_one, ?failures_one;
    cbn; try done; try lia.
  all: rewrite Ho in Hc; rewrite Hc; solve_Permutation.
Qed.

Lemma sbooks_complete_loop started q i s :
  streams_ s !! i ≫= (fun x => Some (stream_inflight x)) = Some q ->
  stream_books started s -> stream_books started (stream_complete_loop q i s).
Proof.
  revert s. induction q as [|m q IH]; intros s Hi Hb; cbn; [done|]. apply IH.
  - revert Hi. cbn. rewrite list_lookup_alter_eq. by destruct (streams_ s !! i).
  - by apply (sbooks_complete started i m q false).
Qed.

Lemma sbooks_completeInflight started i s :
  stream_books started s -> stream_books started (stream_completeInflight i s).
Proof.
  intros Hb. unfold stream_completeInflight, stream_at. rewrite list_lookup_total_alt.
  destruct (streams_ s !! i) as [x|] eqn:E; [|done].
  apply sbooks_complete_loop; [by rewrite E|done].
Qed.

Lemma sbooks_refused started cb n s :
  n = stream_unavailable \/ n = stream_deferred -> stream_books started s ->
  stream_books (started ++ [cb]) (stream_refuse n cb s).
Proof.
  intros Hn [Hc Hr Hl Hp Hf Hs].
  assert (stream_outstanding (stream_refuse n cb s) = stream_outstanding s) as Eo by done.
  split; rewrite ?Eo; destruct Hn as [-> | ->]; cbn;
    rewrite ?app_nil_r, ?fmap_app, ?successes_app, ?failures_app, ?successes_one, ?failures_one;
    cbn; try done; try lia.
  all: rewrite Hc; solve_Permutation.
Qed.

Lemma sbooks_sent started cb t i x s :
  streams_ s !! i = Some x -> stream_books started s ->
  stream_books (started ++ [cb])
    (grpc_count stream_messages_sent
       (update_stream i (stream_with_inflight (stream_inflight x ++ [mkStreamMessage t cb])) s)).
Proof.
  intros Hi [Hc Hr Hl Hp Hf Hs]. set (s1 := update_stream i _ s).
  assert (stream_outstanding s1 ≡ₚ cb :: stream_outstanding s) as Ho.
  { pose proof (bind_alter_perm (fun x => msg_callback <$> stream_inflight x)
                  (stream_with_inflight (stream_inflight x ++ [mkStreamMessage t cb])) i (streams_ s) x Hi) as Hb.
    cbn beta in Hb. cbn [stream_inflight stream_with_inflight] in Hb. rewrite fmap_app in Hb.
    apply (Permutation_app_inv_l (msg_callback <$> stream_inflight x)).
    unfold stream_outstanding. cbn [s1 update_stream set_streams streams_]. rewrite Hb. solve_Permutation. }
  assert (stream_outstanding (grpc_count stream_messages_sent s1) = stream_outstanding s1) as Eo by done.
  pose proof (Permutation_length Ho) as Hlen. cbn [length] in Hlen.
  split; rewrite ?Eo; cbn; try done; try lia.
  rewrite Ho, Hc. solve_Permutation.
Qed.

#[export] Hint Resolve sbooks_completeInflight sbooks_refused : streams.

(** *** Each operation *)

Lemma sbooks_closeStream started i st s :
  stream_books started s -> stream_books started (closeStream i st s).
Proof. intros H. unfold closeStream. destruct (stream_state _); auto 6 with streams. Qed.

Lemma sbooks_early started i s : stream_books started s -> stream_books started (count_early_close i s).
Proof. intros H. unfold count_early_close. destruct (stream_state _); auto with streams. Qed.

Lemma sbooks_ready started i b s : stream_books started s -> stream_books started (onStreamReady i b s).
Proof. intros H. unfold onStreamReady. destruct b; auto 8 with streams. Qed.

Lemma sbooks_open_failure started i s :
  stream_books started s -> stream_books started (onStreamOpenFailure i s).
Proof. intros H. unfold onStreamOpenFailure. auto 6 with streams. Qed.

#[export] Hint Resolve sbooks_closeStream sbooks_early sbooks_ready sbooks_open_failure : streams.

Lemma sbooks_openStream started p i s :
  stream_books started s -> stream_books started (openStream p i s).
Proof.
  intros H. unfold openStream. destruct p as [[| |]|]; [..|auto with streams];
    destruct (stream_state _); auto 8 with streams.
Qed.

Lemma sbooks_frames started n now i s :
  stream_books started s -> stream_books started (onFrames n now i s).
Proof.
  revert s. induction n as [|n IH]; intros s H; cbn; [done|]. apply IH. unfold onFrame.
  destruct (streams_ s !! i) as [x|] eqn:E; unfold stream_at; rewrite list_lookup_total_alt, E; cbn.
  - destruct (stream_inflight x) as [|m q] eqn:Eq; [auto with streams|].
    pose proof (sbooks_complete started i m q true s) as Hc. rewrite E in Hc. cbn in Hc. rewrite Eq in Hc.
    specialize (Hc eq_refl H). destruct (stream_measure_latencies_ s); [|done].
    by destruct Hc; split.
  - auto with streams.
Qed.

Lemma sbooks_reset started i s : stream_books started s -> stream_books started (onStreamReset i s).
Proof. intros H. unfold onStreamReset. destruct (stream_state _); auto 6 with streams. Qed.

#[export] Hint Resolve sbooks_openStream sbooks_frames sbooks_reset : streams.

Lemma sbooks_foldl started (f : grpc -> nat -> grpc) ls s :
  (forall s i, stream_books started s -> stream_books started (f s i)) ->
  stream_books started s -> stream_books started (foldl f s ls).
Proof. intros Hf. revert s. induction ls as [|i ls IH]; intros s H; cbn; auto. Qed.

Lemma sbooks_finish started s :
  stream_books started s -> stream_books started (snd (GrpcStreamBenchmarkClientImpl_finish s)).
Proof.
  intros H. unfold GrpcStreamBenchmarkClientImpl_finish. destruct (stream_finished_ s); [done|].
  set (s1 := set_streams _ _).
  assert (stream_books started s1) as H1.
  { destruct H. assert (stream_outstanding s1 = stream_outstanding s) as E.
    { apply bind_map_same. intros x. unfold half_close. by destruct (stream_state x), (stream_encoder x). }
    split; rewrite ?E; done. }
  cbn zeta. destruct (_ =? 0)%nat; cbn; unfold set_stream_waiting; auto with streams.
Qed.

Lemma sbooks_step started s l s' :
  (next_stream_ s < length (streams_ s))%nat ->
  grpc_step s l s' -> stream_books started s -> stream_books (started ++ l) s'.
Proof.
  intros Hn Hs H. destruct Hs; rewrite ?app_nil_r;
    unfold onResponseHeaders, onResponseData, onResponseTrailers, stream_onWriteBlocked, stream_prepare_end,
      set_stream_waiting; split_ifs; auto 8 with streams.
  - unfold GrpcStreamBenchmarkClientImpl_tryStartRequest. cbn zeta.
    change (stream_at (next_turn s)) with (stream_at s).
    assert (stream_books started (next_turn s)) as H' by (unfold next_turn; auto with streams).
    destruct (stream_state _); auto with streams. destruct (_ || _); [auto with streams|].
    apply lookup_lt_is_Some_2 in Hn as [x Hx]. unfold stream_at.
    rewrite (list_lookup_total_correct _ _ _ Hx). by apply sbooks_sent.
  - by apply sbooks_finish.
  - unfold stream_finish_end. apply sbooks_foldl; [|unfold set_stream_waiting; auto with streams].
    intros s1 i Hb1. unfold drain_stream. split_ifs; auto with streams.
  - unfold stream_terminate_end. apply sbooks_foldl; [|auto with streams].
    intros s1 i Hb1. unfold terminate_stream. cbn zeta.
    destruct (stream_state _); split_ifs; auto 6 with streams.
Qed.

(** ** The streams *)

Record stream_ok (cfg : GrpcStreamConfig) (x : Stream) : Prop := {
  so_window : (length (stream_inflight x) <= max_inflight_per_stream_ cfg)%nat;
  so_idle : stream_state x = Opening \/ stream_state x = StreamClosed -> stream_inflight x = [];
}.

(** The pool has yet to answer for the stream. *)
Definition pending_open (x : Stream) : bool :=
  match stream_state x with Opening => stream_cancellable x | _ => false end.

Record streams_wf (s : grpc) : Prop := {
  sw_count : length (streams_ s) = stream_count_ (grpc_config s);
  sw_next : (next_stream_ s < stream_count_ (grpc_config s))%nat;
  sw_streams : forall i x, streams_ s !! i = Some x -> stream_ok (grpc_config s) x;
  sw_pending : stream_pending_opens_ s = Z.of_nat (length (List.filter pending_open (streams_ s)));
}.

(** Every stream that opens is pending, which holds once [prepare] has asked for
    all of them. *)
Definition all_asked (s : grpc) : Prop :=
  forall i x, streams_ s !! i = Some x -> stream_state x = Opening -> stream_cancellable x = true.

(** What an operation on the stream of an index does: the stream is changed by
    [g], the pending opens by [d]; requests to exit may be added. *)
Record stream_effect (i : nat) (g : Stream -> Stream) (d : Z) (s s' : grpc) : Prop := {
  se_streams : streams_ s' = alter g i (streams_ s);
  se_pending : stream_pending_opens_ s' = stream_pending_opens_ s + d;
  se_config : grpc_config s' = grpc_config s;
  se_next : next_stream_ s' = next_stream_ s;
  se_waiting : stream_waiting_for_ s' = stream_waiting_for_ s;
  se_finished : stream_finished_ s' = stream_finished_ s;
  se_exits : (stream_exits s <= stream_exits s')%nat;
}.

Lemma effect_none i s s' :
  streams_ s' = streams_ s -> stream_pending_opens_ s' = stream_pending_opens_ s ->
  grpc_config s' = grpc_config s -> next_stream_ s' = next_stream_ s ->
  stream_waiting_for_ s' = stream_waiting_for_ s -> stream_finished_ s' = stream_finished_ s ->
  (stream_exits s <= stream_exits s')%nat -> stream_effect i (fun x => x) 0 s s'.
Proof. intros. split; try done; [|lia]. rewrite list_alter_id; done. Qed.

Lemma effect_trans i g1 g2 d1 d2 s1 s2 s3 :
  stream_effect i g1 d1 s1 s2 -> stream_effect i g2 d2 s2 s3 ->
  stream_effect i (fun x => g2 (g1 x)) (d1 + d2) s1 s3.
Proof.
  intros [] []. split; try congruence; try lia.
  rewrite se_streams1, se_streams0. by rewrite list_alter_alter_eq.
Qed.

Lemma effect_update i g s : stream_effect i g 0 s (update_stream i g s).
Proof. split; try done. cbn. lia. Qed.

Lemma effect_pending i d s : stream_effect i (fun x => x) d s (add_pending_opens d s).
Proof. split; try done. cbn. by rewrite list_alter_id. Qed.

Lemma effect_maybeExit i s : stream_effect i (fun x => x) 0 s (stream_maybeExitWaitLoop s).
Proof.
  unfold stream_maybeExitWaitLoop.
  destruct (stream_waiting_for_ s); split_ifs; apply effect_none; done || (cbn; lia).
Qed.

Lemma effect_ext i g g' d d' s s' :
  (forall x, streams_ s !! i = Some x -> g x = g' x) -> d = d' ->
  stream_effect i g d s s' -> stream_effect i g' d' s s'.
Proof.
  intros Hg -> []. split; try done. rewrite se_streams0. by apply list_alter_ext.
Qed.

Lemma effect_complete_loop q i s :
  stream_effect i (fun x => match q with [] => x | _ => stream_with_inflight [] x end) 0 s
    (stream_complete_loop q i s).
Proof.
  revert s. induction q as [|m q IH]; intros s; cbn.
  - by apply effect_none.
  - eapply effect_ext; [|reflexivity|].
    2: { eapply (effect_trans i (stream_with_inflight q) _ 0 0); [|apply IH].
         split; try done. cbn. lia. }
    cbn. by destruct q.
Qed.

Lemma effect_completeInflight i s :
  stream_effect i (stream_with_inflight []) 0 s (stream_completeInflight i s).
Proof.
  eapply effect_ext; [|reflexivity|apply effect_complete_loop]. intros x Hx. cbn.
  unfold stream_at. rewrite (list_lookup_total_correct _ _ _ Hx). by destruct x as [? ? ? [|] ?].
Qed.

Definition closed_stream (x : Stream) : Stream :=
  mkStream StreamClosed false (stream_cancellable x) [] (stream_write_blocked_ x).

Lemma effect_closeStream i st s :
  stream_state (stream_at s i) <> StreamClosed ->
  stream_effect i closed_stream 0 s (closeStream i st s).
Proof.
  intros Hs. unfold closeStream.
  set (s1 := update_stream i _ s). set (s2 := grpcStatusCounter st s1).
  assert (stream_effect i closed_stream 0 s (stream_maybeExitWaitLoop (stream_completeInflight i s2))) as H.
  { eapply effect_ext; [|reflexivity|].
    2: { eapply (effect_trans i _ _ 0 0); [apply effect_update|].
         eapply (effect_trans i (fun x => x) _ 0 0); [by apply (effect_none i s1 s2)|].
         eapply (effect_trans i _ _ 0 0); [apply effect_completeInflight|apply effect_maybeExit]. }
    done. }
  destruct (stream_state (stream_at s i)); done.
Qed.

Lemma stream_at_lookup s i x : streams_ s !! i = Some x -> stream_at s i = x.
Proof. apply list_lookup_total_correct. Qed.

Lemma closed_out_of_range s i : streams_ s !! i = None -> stream_state (stream_at s i) = StreamClosed.
Proof. intros H. unfold stream_at. by rewrite list_lookup_total_alt, H. Qed.

(** An effect on a stream keeps the streams well-formed. *)
Lemma wf_effect i g d x s s' :
  stream_effect i g d s s' -> streams_ s !! i = Some x -> stream_ok (grpc_config s) (g x) ->
  d = Z.b2z (pending_open (g x)) - Z.b2z (pending_open x) -> streams_wf s -> streams_wf s'.
Proof.
  intros [E1 E2 E3 E4 _ _ _] Hx Hg -> [H1 H2 H3 H4]. split; rewrite ?E3.
  - by rewrite E1, length_alter.
  - by rewrite E4.
  - intros k y Hk. rewrite E1, list_lookup_alter in Hk. case_decide; [|by apply (H3 k)].
    subst k. rewrite Hx in Hk. by injection Hk as <-.
  - rewrite E1, E2, (filter_alter_length _ _ _ _ _ Hx). lia.
Qed.

Lemma asked_effect i g d s s' :
  stream_effect i g d s s' ->
  (forall x, streams_ s !! i = Some x -> stream_state (g x) = Opening -> stream_cancellable (g x) = true) ->
  all_asked s -> all_asked s'.
Proof.
  intros [E1 _ _ _ _ _ _] Hg H k y Hk. rewrite E1, list_lookup_alter in Hk.
  case_decide; [|by apply (H k)]. subst k. destruct (streams_ s !! i) as [x|] eqn:E; [|done].
  injection Hk as <-. by apply Hg.
Qed.

(** ** The wait loops

    While [prepare] or [finish] runs the event loop, what it waits for is not
    there yet, or an exit was requested since there were [n]. *)

Definition stream_woken (n : nat) (s : grpc) : Prop :=
  (n <= stream_exits s)%nat /\
  match stream_waiting_for_ s with
  | WaitOpens => stream_pending_opens_ s <> 0 \/ (n < stream_exits s)%nat
  | WaitCloses => openStreams s <> 0%nat \/ (n < stream_exits s)%nat
  | WaitNothing => True
  end.

Lemma woken_after_exit n s : (n <= stream_exits s)%nat -> stream_woken n (stream_maybeExitWaitLoop s).
Proof.
  intros Hn. unfold stream_maybeExitWaitLoop, stream_woken. destruct (stream_waiting_for_ s) eqn:Ew.
  - by rewrite Ew.
  - destruct (stream_pending_opens_ s =? 0) eqn:Ep; cbn; rewrite Ew; b2p; split; auto; right; lia.
  - destruct (openStreams s =? 0)%nat eqn:Ea; cbn; rewrite Ew; split; auto.
    + right. lia.
    + left. by apply Nat.eqb_neq.
Qed.

Lemma woken_effect n i g s s' :
  stream_effect i g 0 s s' -> (forall x, is_open (g x) = is_open x) ->
  stream_woken n s -> stream_woken n s'.
Proof.
  intros [E1 E2 _ _ E5 _ E7] Hg [Hn H]. split; [lia|]. rewrite E5. destruct (stream_waiting_for_ s); [done|..].
  - rewrite E2. destruct H; [left|right]; lia.
  - destruct H as [H|H]; [left|right; lia]. unfold openStreams in *. rewrite E1.
    destruct (streams_ s !! i) as [x|] eqn:Ex; [|by rewrite alter_out].
    pose proof (filter_alter_length is_open g i (streams_ s) x Ex) as Hl. rewrite Hg in Hl. lia.
Qed.

Definition ginv (s : grpc) : Prop := streams_wf s /\ all_asked s.

Lemma ginv_effect i g d s s' :
  stream_effect i g d s s' ->
  (forall x, streams_ s !! i = Some x -> stream_ok (grpc_config s) x ->
     stream_ok (grpc_config s) (g x) /\ d = Z.b2z (pending_open (g x)) - Z.b2z (pending_open x) /\
     (stream_state (g x) = Opening -> stream_cancellable (g x) = true)) ->
  (streams_ s !! i = None -> d = 0) -> ginv s -> ginv s'.
Proof.
  intros He Hg Hd [Hw Ha]. destruct (streams_ s !! i) as [x|] eqn:Ex.
  - destruct (Hg x eq_refl (sw_streams s Hw i x Ex)) as (G1 & G2 & G3). split.
    + by apply (wf_effect i g d x s).
    + apply (asked_effect i g d s); [done| |done]. intros y Hy. rewrite Ex in Hy. by injection Hy as <-.
  - destruct He as [E1 E2 E3 E4 _ _ _]. rewrite (alter_out g i _ Ex) in E1. rewrite (Hd eq_refl) in E2.
    destruct Hw as [? ? ? ?]. split; [split|]; rewrite ?E1, ?E3, ?E4; try done; [lia|].
    intros k y. rewrite E1. apply Ha.
Qed.

(** *** Each operation *)

Definition ready_stream (encoded : bool) (x : Stream) : Stream :=
  mkStream (if encoded then StreamOpen else StreamClosed) true false (stream_inflight x)
    (stream_write_blocked_ x).

Lemma effect_ready i encoded s :
  stream_effect i (ready_stream encoded) (-1) s (onStreamReady i encoded s).
Proof.
  unfold onStreamReady. eapply effect_ext; [| |eapply (effect_trans i _ (fun x => x) (-1) 0); [|apply effect_maybeExit]].
  - intros x _. reflexivity.
  - reflexivity.
  - split; try (by destruct encoded); cbn.
    destruct encoded; cbn; rewrite list_alter_alter_eq; done.
Qed.

Definition failed_stream (x : Stream) : Stream :=
  mkStream StreamClosed (stream_encoder x) false (stream_inflight x) (stream_write_blocked_ x).

Lemma effect_open_failure i s : stream_effect i failed_stream (-1) s (onStreamOpenFailure i s).
Proof.
  unfold onStreamOpenFailure.
  eapply effect_ext; [| |eapply (effect_trans i failed_stream (fun x => x) (-1) 0); [|apply effect_maybeExit]];
    [done|reflexivity|]. by split.
Qed.

Lemma effect_early i s : stream_effect i (fun x => x) 0 s (count_early_close i s).
Proof. unfold count_early_close. by destruct (stream_state _); apply effect_none. Qed.

Lemma early_state i k s : stream_at (count_early_close i s) k = stream_at s k.
Proof. unfold count_early_close. by destruct (stream_state _). Qed.

Lemma effect_frame now i s :
  stream_effect i (fun x => stream_with_inflight (drop 1 (stream_inflight x)) x) 0 s (onFrame now i s).
Proof.
  unfold onFrame. destruct (streams_ s !! i) as [x|] eqn:Ex.
  - rewrite (stream_at_lookup s i x Ex). destruct (stream_inflight x) as [|m q] eqn:Eq.
    + eapply effect_ext; [|reflexivity|by apply (effect_none i)]. intros y Hy. cbn.
      rewrite Ex in Hy. injection Hy as <-. rewrite Eq. destruct x; cbn in *; by subst.
    + eapply (effect_ext i (stream_with_inflight q)); [|reflexivity|].
      * intros y Hy. rewrite Ex in Hy. injection Hy as <-. by rewrite Eq.
      * cbn [grpc_count update_stream set_streams stream_measure_latencies_].
        destruct (stream_measure_latencies_ s); split; try done; cbn; lia.
  - assert (stream_inflight (stream_at s i) = []) as -> by (unfold stream_at; by rewrite list_lookup_total_alt, Ex).
    eapply effect_ext; [|reflexivity|by apply (effect_none i)]. intros y Hy. congruence.
Qed.

Lemma effect_frames n now i s :
  stream_effect i (fun x => stream_with_inflight (drop n (stream_inflight x)) x) 0 s (onFrames n now i s).
Proof.
  revert s. induction n as [|n IH]; intros s; cbn [onFrames].
  - eapply effect_ext; [|reflexivity|by apply (effect_none i)]. intros x _. by destruct x.
  - eapply effect_ext; [|reflexivity|].
    2: { eapply (effect_trans i _ _ 0 0); [apply effect_frame|apply IH]. }
    intros x _. cbn. rewrite drop_drop. done.
Qed.

Lemma effect_write_blocked i b s : stream_effect i (stream_blocked b) 0 s (stream_onWriteBlocked i b s).
Proof. unfold stream_onWriteBlocked. split_ifs; split; try done; cbn; lia. Qed.

(** A stream that is not opening is closed, if it is not already. *)
Lemma closing_cases i st s :
  (stream_state (stream_at s i) = StreamClosed /\ closeStream i st s = s) \/
  stream_effect i closed_stream 0 s (closeStream i st s).
Proof.
  destruct (decide (stream_state (stream_at s i) = StreamClosed)) as [E|E].
  - left. split; [done|]. unfold closeStream. by rewrite E.
  - right. by apply effect_closeStream.
Qed.

Lemma closed_stream_ok cfg x : stream_ok cfg (closed_stream x).
Proof. split; cbn; [lia|done]. Qed.

Lemma ginv_close i st s :
  stream_state (stream_at s i) <> Opening -> ginv s -> ginv (closeStream i st s).
Proof.
  intros Hs H. destruct (closing_cases i st s) as [[_ ->] | He]; [done|].
  apply (ginv_effect i closed_stream 0 s); [done| |done|done]. intros x Hx _.
  rewrite (stream_at_lookup s i x Hx) in Hs. split; [apply closed_stream_ok|].
  unfold pending_open. cbn. split; [|done]. by destruct (stream_state x).
Qed.

Lemma ginv_early i s : ginv s -> ginv (count_early_close i s).
Proof. intros [[] ?]. unfold count_early_close. by destruct (stream_state _). Qed.

Lemma stream_ok_drop cfg n x : stream_ok cfg x -> stream_ok cfg (stream_with_inflight (drop n (stream_inflight x)) x).
Proof.
  intros [Hw Hi]. split; cbn; [rewrite length_drop; lia|]. intros H. rewrite (Hi H). apply drop_nil.
Qed.

Lemma ginv_frames n now i s : ginv s -> ginv (onFrames n now i s).
Proof.
  intros H. eapply ginv_effect; [apply effect_frames| |done|done]. intros x Hx Ho.
  split; [by apply stream_ok_drop|]. unfold pending_open. cbn. split; [lia|].
  intros Hs. destruct H as [_ Ha]. by apply (Ha i).
Qed.

Lemma frames_state n now i s : stream_state (stream_at (onFrames n now i s) i) = stream_state (stream_at s i).
Proof.
  destruct (effect_frames n now i s) as [E _ _ _ _ _ _]. unfold stream_at. rewrite E, !list_lookup_total_alt.
  rewrite list_lookup_alter_eq. by destruct (streams_ s !! i).
Qed.

Lemma ginv_reset i s : ginv s -> ginv (onStreamReset i s).
Proof.
  intros H. unfold onStreamReset.
  destruct (streams_ s !! i) as [x|] eqn:Ex; [|by rewrite closed_out_of_range].
  pose proof (stream_at_lookup s i x Ex) as Es.
  destruct (stream_state (stream_at s i)) eqn:Est; try done.
  - set (s1 := add_pending_opens (-1) _).
    apply (ginv_effect i closed_stream (-1) s); [| |congruence|done].
    + apply (effect_trans i (fun x => x) closed_stream (-1) 0 s s1).
      * split; try done. cbn. by rewrite list_alter_id.
      * apply effect_closeStream. change (stream_at s1 i) with (stream_at s i). congruence.
    + intros y Hy _. rewrite Ex in Hy. injection Hy as <-. split; [apply closed_stream_ok|].
      unfold pending_open. cbn. split; [|done]. rewrite Es in Est. rewrite Est.
      destruct H as [_ Ha]. by rewrite (Ha i x Ex Est).
  - apply ginv_close; [change (stream_state (stream_at s i) <> Opening); congruence|].
    by destruct H as [[] ?].
  - apply ginv_close; [change (stream_state (stream_at s i) <> Opening); congruence|].
    by destruct H as [[] ?].
Qed.

Lemma opening_lookup s i :
  stream_state (stream_at s i) = Opening -> exists x, streams_ s !! i = Some x /\ stream_at s i = x.
Proof.
  intros H. destruct (streams_ s !! i) as [x|] eqn:E; [|by rewrite closed_out_of_range in H].
  exists x. split; [done|]. by apply stream_at_lookup.
Qed.

Lemma opening_idle cfg x y :
  stream_ok cfg x -> stream_state x = Opening -> stream_inflight y = stream_inflight x -> stream_ok cfg y.
Proof. intros [Hw Hi] Hs E. split; rewrite E; [done|]. intros _. apply Hi. by left. Qed.

Lemma ginv_ready i encoded s :
  stream_state (stream_at s i) = Opening -> stream_cancellable (stream_at s i) = true ->
  ginv s -> ginv (onStreamReady i encoded s).
Proof.
  intros Hs Hc H. destruct (opening_lookup s i Hs) as (x & Hx & Ex). rewrite Ex in *.
  eapply ginv_effect; [apply effect_ready| |congruence|done].
  intros y Hy Hok. rewrite Hx in Hy. injection Hy as <-. split; [by apply (opening_idle _ x)|].
  unfold pending_open. cbn. rewrite Hs, Hc. by destruct encoded.
Qed.

Lemma ginv_open_failure i s :
  stream_state (stream_at s i) = Opening -> stream_cancellable (stream_at s i) = true ->
  ginv s -> ginv (onStreamOpenFailure i s).
Proof.
  intros Hs Hc H. destruct (opening_lookup s i Hs) as (x & Hx & Ex). rewrite Ex in *.
  eapply ginv_effect; [apply effect_open_failure| |congruence|done].
  intros y Hy Hok. rewrite Hx in Hy. injection Hy as <-. split; [by apply (opening_idle _ x)|].
  unfold pending_open. cbn. rewrite Hs, Hc. done.
Qed.

Lemma ginv_next_turn s : ginv s -> ginv (next_turn s).
Proof.
  intros [[H1 H2 H3 H4] Ha]. split; [|done]. split; try done. cbn. apply Nat.mod_upper_bound. lia.
Qed.

Lemma ginv_request now cb s : ginv s -> ginv (GrpcStreamBenchmarkClientImpl_tryStartRequest now cb s).
Proof.
  intros H%ginv_next_turn. unfold GrpcStreamBenchmarkClientImpl_tryStartRequest. cbn zeta.
  set (s0 := next_turn s) in *.
  assert (forall n, ginv (stream_refuse n cb s0)) as Hr by (intros n; by destruct H as [[] ?]).
  destruct (stream_state (stream_at s0 (next_stream_ s))) eqn:Es; try apply Hr.
  destruct (_ || _) eqn:Eb; [apply Hr|]. apply orb_false_elim in Eb as [_ Eb]. apply Nat.leb_gt in Eb.
  set (g := stream_with_inflight _).
  assert (stream_effect (next_stream_ s) g 0 s0 (grpc_count stream_messages_sent
            (update_stream (next_stream_ s) g s0))) as He by (split; try done; cbn; lia).
  eapply ginv_effect; [exact He| |done|done].
  intros x Hx Hok. unfold g. rewrite (stream_at_lookup s0 _ x Hx) in *. split.
  - split; cbn; [rewrite length_app; cbn; change (grpc_config s0) with (grpc_config s) in *; lia|].
    rewrite Es. by intros [|].
  - unfold pending_open. cbn. rewrite Es. done.
Qed.

Lemma filter_map_same {T} (p : T -> bool) (g : T -> T) l :
  (forall x, p (g x) = p x) -> length (List.filter p (map g l)) = length (List.filter p l).
Proof. intros Hg. induction l as [|x l IH]; cbn; [done|]. rewrite Hg. destruct (p x); cbn; lia. Qed.

Lemma half_close_cases x :
  half_close x = x \/ (stream_state x = StreamOpen /\ half_close x = stream_in_state HalfClosed x).
Proof. unfold half_close. destruct (stream_state x), (stream_encoder x); auto. Qed.

Lemma ginv_finish s : ginv s -> ginv (snd (GrpcStreamBenchmarkClientImpl_finish s)).
Proof.
  intros H. unfold GrpcStreamBenchmarkClientImpl_finish. destruct (stream_finished_ s); [done|].
  set (s1 := set_streams _ _).
  assert (ginv s1) as H1.
  { destruct H as [[E1 E2 E3 E4] Ha].
    assert (forall k y, streams_ s1 !! k = Some y -> exists x, streams_ s !! k = Some x /\ y = half_close x) as Hl.
    { intros k y Hy. cbn in Hy. change (map ?f ?l) with (f <$> l) in Hy. rewrite list_lookup_fmap in Hy.
      destruct (streams_ s !! k) as [x|]; [|done]. injection Hy as <-. eauto. }
    split; [split|]; cbn; try done.
    - by rewrite length_map.
    - intros k y (x & Hx & ->)%Hl. destruct (E3 k x Hx) as [Hw Hi].
      destruct (half_close_cases x) as [-> | [Es ->]]; [done|]. split; [done|]. by intros [|].
    - rewrite filter_map_same; [done|]. intros x.
      destruct (half_close_cases x) as [-> | [Es ->]]; [done|]. unfold pending_open. cbn. by rewrite Es.
    - intros k y (x & Hx & ->)%Hl. destruct (half_close_cases x) as [-> | [Es ->]]; [by apply (Ha k)|done]. }
  cbn zeta. destruct (_ =? 0)%nat; [done|]. by destruct H1 as [[] ?].
Qed.

Lemma ginv_foldl (f : grpc -> nat -> grpc) ls s :
  (forall s i, ginv s -> ginv (f s i)) -> ginv s -> ginv (foldl f s ls).
Proof. intros Hf. revert s. induction ls as [|i ls IH]; intros s H; cbn; auto. Qed.

Lemma ginv_drain s i : ginv s -> ginv (drain_stream s i).
Proof.
  intros H. unfold drain_stream. destruct (is_open (stream_at s i)) eqn:Eo; [|done].
  eapply (ginv_effect i _ _ (grpc_count stream_drain_incomplete s));
    [apply effect_completeInflight| |done|by destruct H as [[] ?]].
  intros x Hx Hok. split; [split; cbn; [lia|done]|]. split; [unfold pending_open; cbn; lia|].
  destruct H as [_ Ha]. exact (Ha i x Hx).
Qed.

Lemma ginv_terminate s i : ginv s -> ginv (terminate_stream s i).
Proof.
  intros H. unfold terminate_stream. cbn zeta.
  destruct (streams_ s !! i) as [x|] eqn:Hx; [|by rewrite closed_out_of_range].
  rewrite (stream_at_lookup s i x Hx).
  assert (stream_state x = StreamOpen \/ stream_state x = HalfClosed ->
          ginv (stream_completeInflight i (update_stream i (fun x => stream_handles false
            (stream_cancellable x) (stream_in_state StreamClosed x)) s))) as Hc.
  { intros Hs. eapply (ginv_effect i closed_stream 0 s); [| |done|done].
    - eapply effect_ext; [|reflexivity|].
      2: { eapply (effect_trans i _ _ 0 0); [apply effect_update|apply effect_completeInflight]. }
      done.
    - intros y Hy _. rewrite Hx in Hy. injection Hy as <-. split; [apply closed_stream_ok|].
      unfold pending_open. cbn. by destruct Hs as [-> | ->]. }
  destruct (stream_state x) eqn:Es; try done.
  - destruct (stream_cancellable x) eqn:Ec; [|done].
    apply (ginv_effect i failed_stream (-1) s); [|  |congruence|done].
    + apply (effect_trans i failed_stream (fun x => x) 0 (-1) s
               (update_stream i failed_stream s)); [apply effect_update|apply effect_pending].
    + intros y Hy Hok. rewrite Hx in Hy. injection Hy as <-. split; [by apply (opening_idle _ x)|].
      unfold pending_open. cbn. rewrite Es, Ec. done.
  - destruct (stream_encoder x); [apply ginv_reset|]; auto.
  - destruct (stream_encoder x); [apply ginv_reset|]; auto.
Qed.

Lemma ginv_step s l s' : grpc_step s l s' -> ginv s -> ginv s'.
Proof.
  intros Hs H. destruct Hs as [i b s Ho Hc|i s Ho Hc|i st b s Hn|now i n b s Hn|i st s Hn|i s|i b s|now cb s
    |b s|s Hw|s Hw|s Hw|s Hw Hf].
  - by apply ginv_ready.
  - by apply ginv_open_failure.
  - unfold onResponseHeaders. destruct b; [|done].
    apply ginv_close; [by rewrite early_state|by apply ginv_early].
  - unfold onResponseData. pose proof (ginv_frames n now i s H) as Hf. destruct b; [|done].
    apply ginv_close; [by rewrite early_state, frames_state|by apply ginv_early].
  - apply ginv_close; [by rewrite early_state|by apply ginv_early].
  - by apply ginv_reset.
  - eapply ginv_effect; [apply effect_write_blocked| |done|done].
    intros x Hx [Ho Hi]. split; [by split|]. split; [unfold pending_open; cbn; lia|].
    destruct H as [_ Ha]. exact (Ha i x Hx).
  - by apply ginv_request.
  - by destruct H as [[] ?].
  - by destruct H as [[] ?].
  - by apply ginv_finish.
  - apply ginv_foldl; [intros s1 i; apply ginv_drain|]. by destruct H as [[] ?].
  - apply ginv_foldl; [intros s1 i; apply ginv_terminate|]. by destruct H as [[] ?].
Qed.

(** *** Preparing *)

Definition new_stream : Stream := mkStream Opening false false [] false.

Lemma effect_at i g d s s' x :
  stream_effect i g d s s' -> streams_ s !! i = Some x -> stream_at s' i = g x.
Proof.
  intros [E _ _ _ _ _ _] Hx. apply stream_at_lookup. by rewrite E, list_lookup_alter_eq, Hx.
Qed.

Lemma openStream_effect p i s :
  streams_ s !! i = Some new_stream ->
  exists g d, stream_effect i g d s (openStream p i s) /\
    stream_ok (grpc_config s) (g new_stream) /\ d = Z.b2z (pending_open (g new_stream)) /\
    (stream_state (g new_stream) = Opening -> stream_cancellable (g new_stream) = true).
Proof.
  intros Hx. unfold openStream.
  assert (forall g, stream_inflight (g new_stream) = [] -> stream_ok (grpc_config s) (g new_stream)) as Hok
    by (intros g E; split; rewrite E; [cbn; lia|done]).
  pose proof (effect_pending i 1 s) as Hp. set (s1 := add_pending_opens 1 s) in *.
  destruct p as [[encoded| |]|].
  - pose proof (effect_trans i _ _ 1 (-1) _ _ _ Hp (effect_ready i encoded s1)) as He.
    rewrite (effect_at i _ _ s _ new_stream He Hx). cbn [ready_stream stream_state].
    exists (ready_stream encoded), 0. destruct encoded; (split; [exact He|split; [by apply Hok|done]]).
  - pose proof (effect_trans i _ _ 1 (-1) _ _ _ Hp (effect_open_failure i s1)) as He.
    rewrite (effect_at i _ _ s _ new_stream He Hx). cbn [failed_stream stream_state].
    exists failed_stream, 0. split; [exact He|]. split; [by apply Hok|done].
  - rewrite (effect_at i _ _ s _ new_stream Hp Hx). cbn [new_stream stream_state].
    pose proof (effect_trans i _ _ 1 0 _ _ _ Hp
                  (effect_update i (fun x => stream_handles (stream_encoder x) true x) s1)) as He.
    eexists _, _. split; [exact He|]. split; [|done].
    by apply (Hok (fun x => stream_handles (stream_encoder x) true x)).
  - exists (stream_in_state StreamClosed), 0. split; [|by split; [apply Hok|]].
    split; try done. cbn. lia.
Qed.

Lemma open_streams_wf pool todo s :
  NoDup todo -> (forall i, i ∈ todo -> streams_ s !! i = Some new_stream) ->
  (forall i x, streams_ s !! i = Some x -> i ∉ todo -> stream_state x = Opening -> stream_cancellable x = true) ->
  streams_wf s -> streams_wf (open_streams pool todo s) /\ all_asked (open_streams pool todo s) /\
  stream_waiting_for_ (open_streams pool todo s) = stream_waiting_for_ s.
Proof.
  revert s. induction todo as [|i todo IH]; intros s Hnd Hnew Hask Hw; cbn.
  { split_and!; [done| |done]. intros k x Hx. apply (Hask k x Hx), not_elem_of_nil. }
  apply NoDup_cons in Hnd as [Hnin Hnd]. pose proof (Hnew i ltac:(by left)) as Hi.
  destruct (openStream_effect (pool i) i s Hi) as (g & d & He & Hok & Hd & Hop).
  rewrite <- (se_waiting _ _ _ _ _ He). apply IH; [done| | |].
  - intros k Hk. rewrite (se_streams _ _ _ _ _ He), list_lookup_alter_ne by (intros ->; done).
    apply Hnew. by right.
  - intros k x Hk Hkn. rewrite (se_streams _ _ _ _ _ He), list_lookup_alter in Hk.
    case_decide as E; [subst k; rewrite Hi in Hk; by injection Hk as <-|].
    apply (Hask k x Hk). rewrite not_elem_of_cons. split; [congruence|done].
  - apply (wf_effect i g d new_stream s); try done. cbn. lia.
Qed.

Lemma prepared_ginv cfg pool s0 s :
  GrpcStreamBenchmarkClientImpl_new cfg = Ok s0 ->
  GrpcStreamBenchmarkClientImpl_prepare true pool s0 = Ok s ->
  ginv s /\ stream_books [] s /\ stream_woken (stream_exits s) s.
Proof.
  unfold GrpcStreamBenchmarkClientImpl_new. destruct (stream_count_ cfg =? 0)%nat eqn:Ec; [done|].
  destruct (max_inflight_per_stream_ cfg =? 0)%nat; [done|]. intros [= <-] Hp. apply Nat.eqb_neq in Ec.
  unfold GrpcStreamBenchmarkClientImpl_prepare in Hp. cbn [negb] in Hp. injection Hp as <-.
  set (s0 := mkGrpc cfg _ _ _ _ _ _ _ _ _ _ _ _).
  assert (forall i x, streams_ s0 !! i = Some x -> x = new_stream) as Hnew
    by (intros i x [-> _]%lookup_replicate; done).
  destruct (open_streams_wf pool (seq 0 (stream_count_ cfg)) s0) as (Hw & Ha & Ew).
  - apply NoDup_seq.
  - intros i Hi%elem_of_seq. apply lookup_replicate. split; [done|lia].
  - intros i x Hx Hni. exfalso. apply Hni. apply lookup_replicate in Hx as [_ Hx].
    apply elem_of_seq. lia.
  - split; cbn; try done; [by rewrite length_replicate|lia| |].
    + intros i x Hx%lookup_replicate. destruct Hx as [-> _]. split; cbn; [lia|done].
    + clear. induction (stream_count_ cfg) as [|n IH]; [done|exact IH].
  - cbn [grpc_config s0].
    assert (stream_books [] (open_streams pool (seq 0 (stream_count_ cfg)) s0)) as Hb.
    { assert (stream_books [] s0) as H0.
      { assert (stream_outstanding s0 = []) as E.
        { unfold stream_outstanding. cbn. clear. by induction (stream_count_ cfg). }
        split; rewrite ?E; done. }
      revert H0. generalize s0. generalize (seq 0 (stream_count_ cfg)). clear. intros todo.
      induction todo as [|i todo IH]; intros s H; cbn; auto with streams. }
    set (s1 := open_streams _ _ _) in *. clearbody s1.
    destruct (stream_pending_opens_ s1 =? 0) eqn:Ep; b2p.
    + split; [done|]. split; [done|]. split; [done|]. rewrite Ew. done.
    + split; [by destruct Hw|]. split; [unfold set_stream_waiting; auto with streams|].
      split; [done|]. by left.
Qed.

Lemma reachable_ginv cfg started s :
  grpc_reachable cfg started s -> ginv s /\ stream_books started s.
Proof.
  induction 1 as [pool s0 s Hn Hp|started s l s' Hr [Hi Hb] Hs].
  - destruct (prepared_ginv cfg pool s0 s Hn Hp) as (? & ? & _). done.
  - split; [by apply (ginv_step s l)|]. apply (sbooks_step started s); [|done|done].
    destruct Hi as [[E Hn _ _] _]. by rewrite E.
Qed.

(** *** Waiting *)

Lemma woken_close n i st s : stream_woken n s -> stream_woken n (closeStream i st s).
Proof.
  intros H. unfold closeStream.
  assert (forall s1, stream_exits s1 = stream_exits s ->
            stream_woken n (stream_maybeExitWaitLoop (stream_completeInflight i s1))) as Hx.
  { intros s1 E. apply woken_after_exit. destruct (effect_completeInflight i s1) as [_ _ _ _ _ _ Hle].
    destruct H as [Hn _]. lia. }
  destruct (stream_state _); try done; by apply Hx.
Qed.

Lemma woken_early n i s : stream_woken n s -> stream_woken n (count_early_close i s).
Proof. apply (woken_effect n i (fun x => x)); [apply effect_early|done]. Qed.

Lemma woken_reset n i s : stream_woken n s -> stream_woken n (onStreamReset i s).
Proof.
  intros [Hn H]. unfold onStreamReset.
  assert (forall s1, stream_exits s1 = stream_exits s -> stream_state (stream_at s1 i) <> StreamClosed ->
            stream_woken n (closeStream i None s1)) as Hx.
  { intros s1 E Hs. unfold closeStream.
    set (s2 := grpcStatusCounter None _).
    assert (stream_woken n (stream_maybeExitWaitLoop (stream_completeInflight i s2))) as Hw.
    { apply woken_after_exit. destruct (effect_completeInflight i s2) as [_ _ _ _ _ _ Hle].
      change (stream_exits s2) with (stream_exits s1) in Hle. lia. }
    by destruct (stream_state (stream_at s1 i)). }
  destruct (stream_state (stream_at s i)) eqn:Es; [| | |by split]; apply Hx; try done;
    match goal with |- stream_state ?t <> _ => change t with (stream_at s i) end; congruence.
Qed.

(** No loop is run. *)
Definition idle (n : nat) (s : grpc) : Prop :=
  stream_waiting_for_ s = WaitNothing /\ (n <= stream_exits s)%nat.

Lemma idle_woken n s : idle n s -> stream_woken n s.
Proof. intros [Hw Hn]. split; [done|]. by rewrite Hw. Qed.

Lemma idle_foldl n (f : grpc -> nat -> grpc) ls s :
  (forall s i, idle n s -> idle n (f s i)) -> idle n s -> idle n (foldl f s ls).
Proof. intros Hf. revert s. induction ls as [|i ls IH]; intros s H; cbn; auto. Qed.

Lemma idle_effect n i g d s s' : stream_effect i g d s s' -> idle n s -> idle n s'.
Proof. intros [_ _ _ _ E _ Hle] [Hw Hn]. split; [congruence|lia]. Qed.

Lemma idle_drain n s i : idle n s -> idle n (drain_stream s i).
Proof.
  intros H. unfold drain_stream. destruct (is_open _); [|done].
  by apply (idle_effect n i _ _ _ _ (effect_completeInflight i (grpc_count stream_drain_incomplete s))).
Qed.

Lemma idle_reset n i s : idle n s -> idle n (onStreamReset i s).
Proof.
  intros H. unfold onStreamReset. destruct (stream_state (stream_at s i)); try done;
    match goal with |- idle n (closeStream i None ?t) =>
      destruct (closing_cases i None t) as [[_ ->] | He]; [done|by apply (idle_effect n i _ _ _ _ He)] end.
Qed.

Lemma idle_terminate n s i : idle n s -> idle n (terminate_stream s i).
Proof.
  intros H. unfold terminate_stream. cbn zeta. set (s2 := update_stream i (fun x => stream_handles false _ _) s).
  assert (idle n (stream_completeInflight i s2)) as H2
    by (by apply (idle_effect n i _ _ _ _ (effect_completeInflight i s2))).
  destruct (stream_state (stream_at s i)); split_ifs; auto using idle_reset.
Qed.

Lemma woken_step_grpc n s l s' : grpc_step s l s' -> stream_woken n s -> stream_woken n s'.
Proof.
  intros Hs H. destruct Hs as [i b s Ho Hc|i s Ho Hc|i st b s Hn|now i m b s Hn|i st s Hn|i s|i b s|now cb s
    |b s|s Hw|s Hw|s Hw|s Hw Hf].
  - apply woken_after_exit. destruct H as [Hn _]. by destruct b.
  - apply woken_after_exit. by destruct H as [Hn _].
  - unfold onResponseHeaders. destruct b; [|done]. by apply woken_close, woken_early.
  - unfold onResponseData.
    assert (stream_woken n (onFrames m now i s)) as Hf
      by (eapply woken_effect; [apply effect_frames|done|done]).
    destruct b; [by apply woken_close, woken_early|done].
  - by apply woken_close, woken_early.
  - by apply woken_reset.
  - eapply woken_effect; [apply effect_write_blocked|done|done].
  - unfold GrpcStreamBenchmarkClientImpl_tryStartRequest. cbn zeta.
    destruct (stream_state _); try done. destruct (_ || _); [done|].
    eapply (woken_effect n (next_stream_ s)); [split; try reflexivity; cbn; lia|done|done].
  - done.
  - by destruct H as [Hn _].
  - unfold GrpcStreamBenchmarkClientImpl_finish. destruct (stream_finished_ s); [done|]. cbn zeta.
    destruct H as [Hn _]. destruct (_ =? 0)%nat eqn:Eo; cbn [snd].
    + split; [done|]. cbn. by rewrite Hw.
    + split; [done|]. left. by apply Nat.eqb_neq.
  - apply idle_woken, idle_foldl; [apply idle_drain|]. by destruct H as [Hn _].
  - apply idle_woken, idle_foldl; [apply idle_terminate|]. by destruct H as [Hn _].
Qed.

(** *** Draining *)

Lemma drain_stream_cases s k :
  (streams_ (drain_stream s k) = streams_ s /\ is_open (stream_at s k) = false) \/
  streams_ (drain_stream s k) = alter (stream_with_inflight []) k (streams_ s).
Proof.
  unfold drain_stream. destruct (is_open _) eqn:Eo; [right|by left].
  apply (effect_completeInflight k (grpc_count stream_drain_incomplete s)).
Qed.

(** A stream that is not open has nothing outstanding. *)
Lemma not_open_idle cfg x : stream_ok cfg x -> is_open x = false -> stream_inflight x = [].
Proof.
  intros [_ Hi] Ho. apply Hi. unfold is_open in Ho. destruct (stream_state x); auto; discriminate.
Qed.

Lemma drained_idle cfg ls s :
  (forall i x, streams_ s !! i = Some x -> i ∈ ls \/ stream_inflight x = []) ->
  (forall i x, streams_ s !! i = Some x -> stream_ok cfg x) ->
  forall i x, streams_ (foldl drain_stream s ls) !! i = Some x -> stream_inflight x = [].
Proof.
  revert s. induction ls as [|k ls IH]; intros s Hin Hok; cbn.
  { intros i x Hx. by destruct (Hin i x Hx) as [?%elem_of_nil|]. }
  pose proof (drain_stream_cases s k) as Hd. apply IH.
  - intros i x Hx. destruct (decide (i = k)) as [-> | Hne].
    + right. destruct Hd as [[Ed Eo] | Ed]; rewrite Ed in Hx.
      * rewrite (stream_at_lookup s k x Hx) in Eo. by apply (not_open_idle cfg x (Hok k x Hx)).
      * rewrite list_lookup_alter_eq in Hx. destruct (streams_ s !! k); [|done]. by injection Hx as <-.
    + assert (streams_ s !! i = Some x) as Hx1.
      { destruct Hd as [[Ed _] | Ed]; rewrite Ed in Hx; [done|]. by rewrite list_lookup_alter_ne in Hx. }
      destruct (Hin i x Hx1) as [[-> | ?]%elem_of_cons | ?]; [done|by left|by right].
  - intros i x Hx. destruct Hd as [[Ed _] | Ed]; rewrite Ed in Hx; [by apply (Hok i)|].
    rewrite list_lookup_alter in Hx. case_decide; [|by apply (Hok i)].
    destruct (streams_ s !! k); [|done]. injection Hx as <-. split; cbn; [lia|done].
Qed.

Lemma no_outstanding s :
  (forall i x, streams_ s !! i = Some x -> stream_inflight x = []) -> stream_outstanding s = [].
Proof.
  intros H. apply elem_of_nil_inv. intros c (x & Hc & [i Hx]%list_elem_of_lookup)%list_elem_of_bind.
  rewrite (H i x Hx) in Hc. by apply elem_of_nil in Hc.
Qed.

Lemma finish_end_settles s : ginv s -> stream_outstanding (stream_finish_end s) = [].
Proof.
  intros [[_ _ Hs _] _]. apply no_outstanding. apply (drained_idle (grpc_config s)); [|exact Hs].
  intros i x Hx. left. apply elem_of_seq. apply lookup_lt_Some in Hx. cbn in *. lia.
Qed.

Lemma finish_returns_settled s :
  ginv s -> stream_finished_ s = false -> fst (GrpcStreamBenchmarkClientImpl_finish s) = false ->
  stream_outstanding (snd (GrpcStreamBenchmarkClientImpl_finish s)) = [].
Proof.
  intros H Hf. pose proof (ginv_finish s H) as [[_ _ Hs _] _]. revert Hs.
  unfold GrpcStreamBenchmarkClientImpl_finish. rewrite Hf. cbn zeta. set (s1 := set_streams _ _).
  destruct (openStreams s1 =? 0)%nat eqn:Eo; cbn [fst snd]; [|done]. intros Hs _. apply no_outstanding.
  intros i x Hx. apply (not_open_idle _ x (Hs i x Hx)).
  apply Nat.eqb_eq, length_zero_iff_nil in Eo. destruct (is_open x) eqn:Ex; [|done].
  assert (x ∈ List.filter is_open (streams_ s1)) as Hin.
  { apply list_elem_of_In, filter_In. split; [|done]. apply list_elem_of_In. by apply list_elem_of_lookup_2 in Hx. }
  rewrite Eo in Hin. by apply elem_of_nil in Hin.
Qed.

(** ** Theorems *)

(** C20. In every execution each callback handed to the gRPC stream client was
    called once, posted once or belongs to one message outstanding on a stream,
    and the counters count exactly these outcomes; no stream has more than
    [max_inflight_per_stream] messages outstanding, opening and closed streams
    have none; the pending opens are the streams the pool has yet to answer for.
    When [finish] returns, at once or after its drain, nothing is outstanding. *)
Theorem grpc_stream_accounting cfg started s :
  grpc_reachable cfg started s ->
  stream_books started s /\ streams_wf s /\
  (stream_waiting_for_ s = WaitCloses -> stream_outstanding (stream_finish_end s) = []) /\
  (stream_finished_ s = false -> fst (GrpcStreamBenchmarkClientImpl_finish s) = false ->
   stream_outstanding (snd (GrpcStreamBenchmarkClientImpl_finish s)) = []).
Proof.
  intros H. destruct (reachable_ginv cfg started s H) as [Hi Hb].
  split; [done|]. split; [apply Hi|]. split; [intros _; by apply finish_end_settles|].
  by apply finish_returns_settled.
Qed.

(** The event loops the gRPC stream client runs are left when the last of
    what they wait for is there: when the loop of [prepare] begins a stream is
    still to be opened, and no event takes away the last pending open, or the
    last open stream of [finish], without a request to exit made since the loop
    began. *)
Lemma grpc_wait_loops_are_woken cfg :
  (forall pool s0 s, GrpcStreamBenchmarkClientImpl_new cfg = Ok s0 ->
     GrpcStreamBenchmarkClientImpl_prepare true pool s0 = Ok s -> stream_woken (stream_exits s) s) /\
  (forall n s l s', grpc_step s l s' -> stream_woken n s -> stream_woken n s').
Proof.
  split; [|intros n s l s'; apply woken_step_grpc].
  intros pool s0 s Hn Hp. by destruct (prepared_ginv cfg pool s0 s Hn Hp) as (_ & _ & Hw).
Qed.

(** ** A run

    Two streams, one of which cannot be opened; a message on the other and one
    that finds no stream. *)

Definition demo_grpc_config : GrpcStreamConfig := mkGrpcConfig 2 1 1000000 5.

Definition demo_pool (i : nat) : option PoolAnswer :=
  match i with O => Some PoolLater | _ => None end.

Definition demo_grpc_new : grpc :=
  mkGrpc demo_grpc_config grpc_counters_init ∅ [new_stream; new_stream] 0 0 false WaitNothing false
    [] [] [] 0.

Definition demo_grpc_prepared : grpc :=
  match GrpcStreamBenchmarkClientImpl_prepare true demo_pool demo_grpc_new with
  | Ok s => s
  | _ => demo_grpc_new
  end.

Definition demo_grpc_ready : grpc := stream_prepare_end (onStreamReady 0 true demo_grpc_prepared).

Definition demo_grpc_sent : grpc :=
  GrpcStreamBenchmarkClientImpl_tryStartRequest 20 8
    (GrpcStreamBenchmarkClientImpl_tryStartRequest 10 7 demo_grpc_ready).

Lemma demo_grpc_sent_reachable : grpc_reachable demo_grpc_config [7; 8]%nat demo_grpc_sent.
Proof.
  apply (grpc_steps _ [7%nat] (GrpcStreamBenchmarkClientImpl_tryStartRequest 10 7 demo_grpc_ready) [8%nat]);
    [|apply gstep_request].
  apply (grpc_steps _ [] demo_grpc_ready [7%nat]); [|apply gstep_request].
  apply (grpc_steps _ [] (onStreamReady 0 true demo_grpc_prepared) []); [|by apply gstep_prepared].
  apply (grpc_steps _ [] demo_grpc_prepared []); [|by apply gstep_ready].
  by apply (grpc_prepared _ demo_pool demo_grpc_new).
Qed.

Lemma grpc_stream_accounting_witness :
  stream_messages_sent_ (grpc_counters demo_grpc_sent) = 1 /\ stream_books [7; 8]%nat demo_grpc_sent.
Proof.
  split; [reflexivity|].
  apply (grpc_stream_accounting demo_grpc_config [7; 8]%nat demo_grpc_sent demo_grpc_sent_reachable).
Defined.

Lemma grpc_wait_loops_are_woken_witness :
  stream_waiting_for_ demo_grpc_prepared = WaitOpens /\
  stream_woken (stream_exits demo_grpc_prepared) demo_grpc_prepared.
Proof.
  split; [reflexivity|].
  apply (proj1 (grpc_wait_loops_are_woken demo_grpc_config) demo_pool demo_grpc_new); reflexivity.
Defined.
