(* ===== verification/WebSocketClient.v ===== *)
(** * The WebSocket stream benchmark client

    Models [engine/source/client/websocket_stream_client_impl.{h,cc}] and the
    handshake keys of [engine/source/common/websocket.cc]: a fixed number of
    HTTP/1.1 connections upgraded in [prepare], messages framed and written to
    them round-robin, echoes matched by the sequence number they carry, a Close
    frame on every connection and a drain at the end.

    What belongs to Envoy, Abseil and OpenSSL is an argument: the header map and
    the header values are a class with the laws the code relies on, the digest
    and its base64 another, the string functions the classes of [Text]; [mask_word n] is the word the random generator yields for the
    mask of the frame written after [n] others. What the pool and the codec
    raise are events. Times are in nanoseconds. Writing data may report a full
    buffer at once; nothing after a write reads that flag, so the report is an
    event after it. *)

From S2P Require Import Prelude Text WebSocket.

(** ** Bytes and strings *)

Definition to_bytes (s : string) : list Z := map code (String.list_ascii_of_string s).

Definition of_bytes (l : list Z) : string :=
  String.string_of_list_ascii (map (fun b => ascii_of_N (Z.to_N b)) l).

(** ** Interfaces *)

(** OpenSSL's digest and Envoy's base64, on bytes. *)
Class HandshakeKeys : Type := {
  SHA1 : list Z -> list Z;
  Base64_encode : list Z -> string;
}.

(** The headers Envoy keeps by name, and all others. *)
Inductive header_name : Type :=
| MethodHeader | ConnectionHeader | UpgradeHeader | OtherHeader (name : string).

#[export] Instance header_name_eq_dec : EqDecision header_name.
Proof. solve_decision. Defined.

(** Envoy's header maps: all values of a name, setting (which replaces), adding,
    and the status. *)
Class EnvoyHeaders (H : Type) : Type := {
  header_get : header_name -> H -> list string;
  header_set : header_name -> string -> H -> H;
  header_add : header_name -> string -> H -> H;
  header_setStatus : Z -> H -> H;
  header_empty : H;
  getResponseStatus : H -> Z;
  isWebSocketUpgradeRequest : H -> bool;
  MethodValues_Get : string;
  ConnectionValues_Upgrade : string;
  UpgradeValues_WebSocket : string;
}.

(** The value of a header kept by name, or a null pointer. *)
Definition header_value {H} `{EnvoyHeaders H} (n : header_name) (h : H) : option string :=
  head (header_get n h).

(** ** The keys of the handshake *)

Definition kGuid : string := "258EAFA5-E914-47DA-95CA-C5AB0DC85B11".

Definition acceptKey `{HandshakeKeys} (key : string) : string :=
  Base64_encode (SHA1 (to_bytes (key +:+ kGuid))).

(** The eight bytes of a 64-bit word in memory (little-endian hosts). *)
Definition word64_bytes (word : Z) : list Z :=
  map (fun shift => u8 (Z.shiftr word shift)) [0; 8; 16; 24; 32; 40; 48; 56].

Definition newKey `{HandshakeKeys} (word0 word1 : Z) : string :=
  Base64_encode (word64_bytes word0 ++ word64_bytes word1).

Definition secWebSocketKey : header_name := OtherHeader "sec-websocket-key".

Definition secWebSocketVersion : header_name := OtherHeader "sec-websocket-version".

Definition secWebSocketAccept : header_name := OtherHeader "sec-websocket-accept".

(** ** Data *)

Definition ws_kSequencePrefixLength : nat := 16.

Inductive WsState : Type := WsOpening | WsOpen | WsClosing | WsClosed.

#[export] Instance WsState_eq_dec : EqDecision WsState.
Proof. solve_decision. Defined.

Inductive WsWaitingFor : Type := WsNothing | WsOpens | WsCloses.

Record WsMessage : Type := mkWsMessage { wm_sequence : Z; wm_sent_at : Z; wm_callback : nat }.

(** The encoder and the handle to cancel the opening are there or not; the
    decoder keeps nothing of its own. *)
Record WsStream : Type := mkWsStream {
  wx_state : WsState;
  wx_encoder : bool;
  wx_cancellable : bool;
  wx_inflight : list WsMessage;
  wx_key : string;
  wx_received : list Z;
  wx_fragments : list Z;
  wx_write_blocked : bool;
}.

Definition new_ws_stream : WsStream := mkWsStream WsOpening false false [] EmptyString [] [] false.

#[export] Instance WsStream_inhabited : Inhabited WsStream :=
  populate (mkWsStream WsClosed false false [] EmptyString [] [] false).

Inductive ws_counter : Type :=
| ws_streams_opened | ws_open_failures | ws_upgrade_rejected | ws_messages_sent
| ws_messages_received | ws_deferred | ws_unavailable | ws_resets | ws_early_close
| ws_unexpected_message | ws_protocol_errors | ws_inflight_lost | ws_drain_incomplete
| ws_write_blocked.

Scheme Boolean Equality for ws_counter.

Record WsConfig : Type := mkWsConfig {
  ws_stream_count_ : nat;
  ws_max_inflight_per_stream_ : nat;
  ws_drain_duration_ : Z;
  ws_open_timeout_ : Z;
  ws_binary_ : bool;
}.

(** What the client has done to others: latencies recorded, callbacks called and
    posted (with their second argument), requests to leave the event loop, bytes
    written by connection, resets, openings cancelled, and writes through a null
    encoder, which are undefined behaviour. *)
Record WsLog : Type := mkWsLog {
  log_latencies : list Z;
  log_run : list (nat * bool);
  log_posted : list (nat * bool);
  log_exits : nat;
  log_wire : list (nat * list Z);
  log_resets : list nat;
  log_cancels : list nat;
  log_null_writes : nat;
}.

Record WebSocketStreamBenchmarkClientImpl : Type := mkWs {
  ws_config : WsConfig;
  ws_counters : ws_counter -> Z;
  ws_streams_ : list WsStream;
  ws_message_ : list Z;
  ws_next_sequence_ : Z;
  ws_next_stream_ : nat;
  ws_pending_opens_ : Z;
  ws_measure_latencies_ : bool;
  ws_waiting_for_ : WsWaitingFor;
  ws_finished_ : bool;
  ws_log : WsLog;
}.

Abbreviation ws := WebSocketStreamBenchmarkClientImpl.

(** Field updates. *)
Definition ws_count (n : ws_counter) (s : ws) : ws :=
  mkWs (ws_config s) (fun m => if ws_counter_beq n m then ws_counters s m + 1 else ws_counters s m)
    (ws_streams_ s) (ws_message_ s) (ws_next_sequence_ s) (ws_next_stream_ s) (ws_pending_opens_ s)
    (ws_measure_latencies_ s) (ws_waiting_for_ s) (ws_finished_ s) (ws_log s).

Definition ws_set_streams (v : list WsStream) (s : ws) : ws :=
  mkWs (ws_config s) (ws_counters s) v (ws_message_ s) (ws_next_sequence_ s) (ws_next_stream_ s)
    (ws_pending_opens_ s) (ws_measure_latencies_ s) (ws_waiting_for_ s) (ws_finished_ s) (ws_log s).

Definition ws_set_message (v : list Z) (s : ws) : ws :=
  mkWs (ws_config s) (ws_counters s) (ws_streams_ s) v (ws_next_sequence_ s) (ws_next_stream_ s)
    (ws_pending_opens_ s) (ws_measure_latencies_ s) (ws_waiting_for_ s) (ws_finished_ s) (ws_log s).

Definition ws_set_next (sequence : Z) (next : nat) (s : ws) : ws :=
  mkWs (ws_config s) (ws_counters s) (ws_streams_ s) (ws_message_ s) sequence next
    (ws_pending_opens_ s) (ws_measure_latencies_ s) (ws_waiting_for_ s) (ws_finished_ s) (ws_log s).

Definition ws_add_pending (d : Z) (s : ws) : ws :=
  mkWs (ws_config s) (ws_counters s) (ws_streams_ s) (ws_message_ s) (ws_next_sequence_ s)
    (ws_next_stream_ s) (ws_pending_opens_ s + d) (ws_measure_latencies_ s) (ws_waiting_for_ s)
    (ws_finished_ s) (ws_log s).

Definition ws_set_flags (measure : bool) (w : WsWaitingFor) (finished : bool) (s : ws) : ws :=
  mkWs (ws_config s) (ws_counters s) (ws_streams_ s) (ws_message_ s) (ws_next_sequence_ s)
    (ws_next_stream_ s) (ws_pending_opens_ s) measure w finished (ws_log s).

Definition ws_set_log (v : WsLog) (s : ws) : ws :=
  mkWs (ws_config s) (ws_counters s) (ws_streams_ s) (ws_message_ s) (ws_next_sequence_ s)
    (ws_next_stream_ s) (ws_pending_opens_ s) (ws_measure_latencies_ s) (ws_waiting_for_ s)
    (ws_finished_ s) v.

Definition ws_wait (w : WsWaitingFor) (s : ws) : ws :=
  ws_set_flags (ws_measure_latencies_ s) w (ws_finished_ s) s.

Definition ws_setShouldMeasureLatencies (measure : bool) (s : ws) : ws :=
  ws_set_flags measure (ws_waiting_for_ s) (ws_finished_ s) s.

Definition ws_add_latency (v : Z) (s : ws) : ws :=
  let l := ws_log s in
  ws_set_log (mkWsLog (log_latencies l ++ [v]) (log_run l) (log_posted l) (log_exits l) (log_wire l)
                (log_resets l) (log_cancels l) (log_null_writes l)) s.

Definition ws_call_back (run posted : list (nat * bool)) (s : ws) : ws :=
  let l := ws_log s in
  ws_set_log (mkWsLog (log_latencies l) (log_run l ++ run) (log_posted l ++ posted) (log_exits l)
                (log_wire l) (log_resets l) (log_cancels l) (log_null_writes l)) s.

Definition ws_exit (s : ws) : ws :=
  let l := ws_log s in
  ws_set_log (mkWsLog (log_latencies l) (log_run l) (log_posted l) (S (log_exits l)) (log_wire l)
                (log_resets l) (log_cancels l) (log_null_writes l)) s.

Definition ws_log_write (i : nat) (bytes : list Z) (s : ws) : ws :=
  let l := ws_log s in
  ws_set_log (mkWsLog (log_latencies l) (log_run l) (log_posted l) (log_exits l)
                (log_wire l ++ [(i, bytes)]) (log_resets l) (log_cancels l) (log_null_writes l)) s.

Definition ws_log_null_write (s : ws) : ws :=
  let l := ws_log s in
  ws_set_log (mkWsLog (log_latencies l) (log_run l) (log_posted l) (log_exits l) (log_wire l)
                (log_resets l) (log_cancels l) (S (log_null_writes l))) s.

Definition ws_log_reset (i : nat) (s : ws) : ws :=
  let l := ws_log s in
  ws_set_log (mkWsLog (log_latencies l) (log_run l) (log_posted l) (log_exits l) (log_wire l)
                (log_resets l ++ [i]) (log_cancels l) (log_null_writes l)) s.

Definition ws_log_cancel (i : nat) (s : ws) : ws :=
  let l := ws_log s in
  ws_set_log (mkWsLog (log_latencies l) (log_run l) (log_posted l) (log_exits l) (log_wire l)
                (log_resets l) (log_cancels l ++ [i]) (log_null_writes l)) s.

Definition ws_at (s : ws) (i : nat) : WsStream := ws_streams_ s !!! i.

Definition ws_update (i : nat) (f : WsStream -> WsStream) (s : ws) : ws :=
  ws_set_streams (alter f i (ws_streams_ s)) s.

Definition wx_set_state (st : WsState) (x : WsStream) : WsStream :=
  mkWsStream st (wx_encoder x) (wx_cancellable x) (wx_inflight x) (wx_key x) (wx_received x)
    (wx_fragments x) (wx_write_blocked x).

Definition wx_set_handles (encoder cancellable : bool) (x : WsStream) : WsStream :=
  mkWsStream (wx_state x) encoder cancellable (wx_inflight x) (wx_key x) (wx_received x)
    (wx_fragments x) (wx_write_blocked x).

Definition wx_set_inflight (q : list WsMessage) (x : WsStream) : WsStream :=
  mkWsStream (wx_state x) (wx_encoder x) (wx_cancellable x) q (wx_key x) (wx_received x)
    (wx_fragments x) (wx_write_blocked x).

Definition wx_set_key (key : string) (x : WsStream) : WsStream :=
  mkWsStream (wx_state x) (wx_encoder x) (wx_cancellable x) (wx_inflight x) key (wx_received x)
    (wx_fragments x) (wx_write_blocked x).

Definition wx_set_bytes (received fragments : list Z) (x : WsStream) : WsStream :=
  mkWsStream (wx_state x) (wx_encoder x) (wx_cancellable x) (wx_inflight x) (wx_key x) received
    fragments (wx_write_blocked x).

Definition wx_set_blocked (b : bool) (x : WsStream) : WsStream :=
  mkWsStream (wx_state x) (wx_encoder x) (wx_cancellable x) (wx_inflight x) (wx_key x) (wx_received x)
    (wx_fragments x) b.

(** ** Connections *)

Section Client.
Context {H : Type} `{EnvoyHeaders H} `{AbslMatch} `{HandshakeKeys} `{AbslStrings}.
Context (mask_word : nat -> Z).

Definition ws_is_open (x : WsStream) : bool :=
  match wx_state x with WsOpen | WsClosing => true | _ => false end.

Definition ws_openStreams (s : ws) : nat := length (List.filter ws_is_open (ws_streams_ s)).

Definition ws_maybeExitWaitLoop (s : ws) : ws :=
  match ws_waiting_for_ s with
  | WsOpens => if ws_pending_opens_ s =? 0 then ws_exit s else s
  | WsCloses => if (ws_openStreams s =? 0)%nat then ws_exit s else s
  | WsNothing => s
  end.

(** One turn per message outstanding, each lost: [completeInflight(false)], the
    only call there is. *)
Fixpoint ws_complete_loop (q : list WsMessage) (i : nat) (s : ws) : ws :=
  match q with
  | [] => s
  | m :: q =>
      let s := ws_count ws_inflight_lost (ws_update i (wx_set_inflight q) s) in
      ws_complete_loop q i (ws_call_back [(wm_callback m, false)] [] s)
  end.

Definition ws_completeInflight (i : nat) (s : ws) : ws :=
  ws_complete_loop (wx_inflight (ws_at s i)) i s.

Definition wx_close (x : WsStream) : WsStream :=
  wx_set_handles false (wx_cancellable x) (wx_set_state WsClosed x).

Definition ws_closeStream (i : nat) (s : ws) : ws :=
  match wx_state (ws_at s i) with
  | WsClosed => s
  | _ => ws_maybeExitWaitLoop (ws_completeInflight i (ws_update i wx_close s))
  end.

Definition ws_onStreamReset (i : nat) (s : ws) : ws :=
  match wx_state (ws_at s i) with
  | WsClosed => s
  | st =>
      let s := ws_count ws_resets s in
      let s := match st with
               | WsOpening => ws_add_pending (-1) (ws_count ws_open_failures s)
               | _ => s
               end in
      ws_closeStream i s
  end.

(** [resetStream] on the encoder of a connection, which calls back. *)
Definition ws_resetStream (i : nat) (s : ws) : ws := ws_onStreamReset i (ws_log_reset i s).

Definition ws_send (i : nat) (frame : Frame) (s : ws) : ws :=
  if wx_encoder (ws_at s i)
  then ws_log_write i (encodeFrame (mask_word (length (log_wire (ws_log s)))) frame true) s
  else ws_log_null_write s.

(** ** Opening *)

(** The generated request's headers with the upgrade on top. *)
Definition upgrade_headers (request : H) (key : string) : H :=
  let headers := header_set MethodHeader MethodValues_Get request in
  let headers := header_set ConnectionHeader ConnectionValues_Upgrade headers in
  let headers := header_set UpgradeHeader UpgradeValues_WebSocket headers in
  let headers := header_set secWebSocketVersion "13" headers in
  header_set secWebSocketKey key headers.

(** [encodes]: whether the codec can encode the headers. *)
Definition ws_onStreamReady (request : H) (encodes : H -> bool) (i : nat) (s : ws) : ws :=
  let s := ws_update i (wx_set_handles true false) s in
  if encodes (upgrade_headers request (wx_key (ws_at s i))) then s
  else ws_closeStream i (ws_add_pending (-1) (ws_count ws_open_failures s)).

Definition ws_onStreamOpenFailure (i : nat) (s : ws) : ws :=
  let s := ws_update i (fun x => wx_set_state WsClosed (wx_set_handles (wx_encoder x) false x)) s in
  ws_maybeExitWaitLoop (ws_add_pending (-1) (ws_count ws_open_failures s)).

(** What a pool does before [newStream] returns. *)
Inductive WsPoolAnswer : Type := WsReadyNow (encodes : H -> bool) | WsFailedNow | WsLater.

(** [pool]: there is none, or the random words of the key and its answer. *)
Definition ws_openStream (request : H) (pool : option (Z * Z * WsPoolAnswer)) (i : nat) (s : ws) : ws :=
  match pool with
  | None => ws_count ws_open_failures (ws_update i (wx_set_state WsClosed) s)
  | Some (word0, word1, answer) =>
      let s := ws_add_pending 1 (ws_update i (wx_set_key (newKey word0 word1)) s) in
      let s := match answer with
               | WsReadyNow encodes => ws_onStreamReady request encodes i s
               | WsFailedNow => ws_onStreamOpenFailure i s
               | WsLater => s
               end in
      match wx_state (ws_at s i), wx_encoder (ws_at s i) with
      | WsOpening, false => ws_update i (fun x => wx_set_handles (wx_encoder x) true x) s
      | _, _ => s
      end
  end.

Fixpoint ws_open_streams (request : H) (pool : nat -> option (Z * Z * WsPoolAnswer)) (todo : list nat)
    (s : ws) : ws :=
  match todo with
  | [] => s
  | i :: todo => ws_open_streams request pool todo (ws_openStream request (pool i) i s)
  end.

Definition WebSocketStreamBenchmarkClientImpl_new (cfg : WsConfig) : outcome ws :=
  if (ws_stream_count_ cfg =? 0)%nat then Panic "at least one stream is required"
  else if (ws_max_inflight_per_stream_ cfg =? 0)%nat then
    Panic "max_inflight_per_stream must be positive"
  else
    Ok (mkWs cfg (fun _ => 0) (replicate (ws_stream_count_ cfg) new_ws_stream) [] 0 0 0 false WsNothing
          false (mkWsLog [] [] [] 0 [] [] [] 0)).

(** [prepare] up to the event loop it runs; [ws_prepare_end] follows when it is
    exited, by a connection or by the timer of [open_timeout]. *)
Definition WebSocketStreamBenchmarkClientImpl_prepare (request : option (H * list Z))
    (pool : nat -> option (Z * Z * WsPoolAnswer)) (s : ws) : outcome ws :=
  match request with
  | None => Panic "the request source did not yield a request"
  | Some (headers, body) =>
      let s := ws_set_message body s in
      let s := ws_open_streams headers pool (seq 0 (ws_stream_count_ (ws_config s))) s in
      Ok (if ws_pending_opens_ s =? 0 then s else ws_wait WsOpens s)
  end.

(** A connection whose upgrade is still pending when the wait is over. *)
Definition ws_give_up (s : ws) (i : nat) : ws :=
  let x := ws_at s i in
  match wx_state x with
  | WsOpening =>
      let s := ws_add_pending (-1) (ws_count ws_open_failures s) in
      let s := ws_update i (fun x => wx_set_handles (wx_encoder x) false x) s in
      let s := ws_closeStream i s in
      if wx_encoder x then ws_resetStream i s
      else if wx_cancellable x then ws_log_cancel i s else s
  | _ => s
  end.

Definition ws_prepare_end (s : ws) : ws :=
  foldl ws_give_up (ws_wait WsNothing s) (seq 0 (ws_stream_count_ (ws_config s))).

(** The check of the answer to an upgrade. *)
Definition upgrade_header_ok (headers : H) : bool :=
  match header_value UpgradeHeader headers with
  | Some v => EqualsIgnoreCase v UpgradeValues_WebSocket
  | None => false
  end.

Definition connection_header_ok (headers : H) : bool :=
  match header_value ConnectionHeader headers with
  | Some v => existsb (fun token => EqualsIgnoreCase (StripAsciiWhitespace token) ConnectionValues_Upgrade)
                (StrSplit ","%char v)
  | None => false
  end.

Definition upgrade_accepted (headers : H) (key : string) : bool :=
  (getResponseStatus headers =? 101) && upgrade_header_ok headers && connection_header_ok headers &&
  match header_get secWebSocketAccept headers with
  | [v] => (v =? acceptKey key)%string
  | _ => false
  end.

Definition ws_onResponseHeaders (i : nat) (headers : H) (end_stream : bool) (s : ws) : ws :=
  let x := ws_at s i in
  match wx_state x with
  | WsOpening =>
      let accepted := upgrade_accepted headers (wx_key x) in
      let s := ws_add_pending (-1) s in
      if negb accepted || end_stream then
        let s := ws_closeStream i (ws_count ws_upgrade_rejected s) in
        if wx_encoder x && negb end_stream then ws_resetStream i s else s
      else
        ws_maybeExitWaitLoop (ws_count ws_streams_opened (ws_update i (wx_set_state WsOpen) s))
  | _ => s
  end.

(** ** Messages *)

Definition ws_sequencePrefix (sequence : Z) : string := StrFormat_016x sequence.

Definition ws_refuse (n : ws_counter) (cb : nat) (s : ws) : ws :=
  ws_call_back [] [(cb, false)] (ws_count n s).

Definition WebSocketStreamBenchmarkClientImpl_tryStartRequest (now : Z) (cb : nat) (s : ws) : ws :=
  let i := ws_next_stream_ s in
  let s := ws_set_next (ws_next_sequence_ s) ((ws_next_stream_ s + 1) mod ws_stream_count_ (ws_config s))%nat s in
  let x := ws_at s i in
  match wx_state x with
  | WsOpen =>
      if wx_write_blocked x ||
         (ws_max_inflight_per_stream_ (ws_config s) <=? length (wx_inflight x))%nat
      then ws_refuse ws_deferred cb s
      else
        let sequence := ws_next_sequence_ s in
        let s := ws_set_next (u64 (sequence + 1)) (ws_next_stream_ s) s in
        let s := ws_update i (wx_set_inflight (wx_inflight x ++ [mkWsMessage sequence now cb])) s in
        let frame := mkFrame true (if ws_binary_ (ws_config s) then Binary else Text)
                       (to_bytes (ws_sequencePrefix sequence) ++ ws_message_ s) in
        ws_count ws_messages_sent (ws_send i frame s)
  | _ => ws_refuse ws_unavailable cb s
  end.

(** The first message with the sequence number, and the queue without it. *)
Fixpoint take_message (sequence : Z) (q : list WsMessage) : option (WsMessage * list WsMessage) :=
  match q with
  | [] => None
  | m :: q =>
      if wm_sequence m =? sequence then Some (m, q)
      else match take_message sequence q with
           | Some (found, q) => Some (found, m :: q)
           | None => None
           end
  end.

Definition ws_onMessage (now : Z) (i : nat) (payload : list Z) (s : ws) : ws :=
  if (length payload <? ws_kSequencePrefixLength)%nat then ws_count ws_unexpected_message s
  else
    match SimpleHexAtoi (of_bytes (take ws_kSequencePrefixLength payload)) with
    | None => ws_count ws_unexpected_message s
    | Some sequence =>
        match take_message sequence (wx_inflight (ws_at s i)) with
        | None => ws_count ws_unexpected_message s
        | Some (m, q) =>
            let s := ws_count ws_messages_received (ws_update i (wx_set_inflight q) s) in
            let s := if ws_measure_latencies_ s then ws_add_latency (now - wm_sent_at m) s else s in
            ws_call_back [(wm_callback m, true)] [] s
        end
    end.

(** The loop over the frames decoded; [true]: it returned from the handler. *)
Fixpoint ws_on_frames (now : Z) (i : nat) (frames : list Frame) (s : ws) : bool * ws :=
  match frames with
  | [] => (false, s)
  | frame :: frames =>
      match opcode frame with
      | Text | Binary | Continuation =>
          let fragments := wx_fragments (ws_at s i) ++ payload frame in
          let s := ws_update i (fun x => wx_set_bytes (wx_received x) fragments x) s in
          let s := if fin frame
                   then ws_update i (fun x => wx_set_bytes (wx_received x) [] x)
                          (ws_onMessage now i fragments s)
                   else s in
          ws_on_frames now i frames s
      | Ping =>
          let s := match wx_state (ws_at s i) with
                   | WsOpen => ws_send i (mkFrame (fin frame) Pong (payload frame)) s
                   | _ => s
                   end in
          ws_on_frames now i frames s
      | Pong => ws_on_frames now i frames s
      | Close =>
          let s := match wx_state (ws_at s i) with
                   | WsOpen => ws_send i (closeFrame 1000) (ws_count ws_early_close s)
                   | _ => s
                   end in
          (true, ws_closeStream i s)
      end
  end.

Definition ws_onResponseEnd (i : nat) (s : ws) : ws :=
  let s := match wx_state (ws_at s i) with WsOpen => ws_count ws_early_close s | _ => s end in
  ws_closeStream i s.

Definition ws_onResponseData (now : Z) (i : nat) (data : list Z) (end_stream : bool) (s : ws) : ws :=
  let x := ws_at s i in
  if ws_is_open x then
    match Decoder_feed (wx_received x ++ data) [] with
    | (false, rest, _) =>
        let s := ws_update i (fun x => wx_set_bytes rest (wx_fragments x) x) s in
        let s := ws_closeStream i (ws_count ws_protocol_errors s) in
        if wx_encoder x then ws_resetStream i s else s
    | (true, rest, frames) =>
        let s := ws_update i (fun x => wx_set_bytes rest (wx_fragments x) x) s in
        match ws_on_frames now i frames s with
        | (true, s) => s
        | (false, s) => if end_stream then ws_onResponseEnd i s else s
        end
    end
  else if end_stream then ws_onResponseEnd i s else s.

Definition ws_onWriteBlocked (i : nat) (blocked : bool) (s : ws) : ws :=
  let s := if blocked && negb (wx_write_blocked (ws_at s i)) then ws_count ws_write_blocked s else s in
  ws_update i (wx_set_blocked blocked) s.

(** ** Finishing *)

Definition ws_start_close (s : ws) (i : nat) : ws :=
  let x := ws_at s i in
  match wx_state x, wx_encoder x with
  | WsOpen, true => ws_update i (wx_set_state WsClosing) (ws_send i (closeFrame 1000) s)
  | _, _ => s
  end.

(** [finish] up to the event loop it runs; [true]: the loop is run, and
    [ws_finish_end] follows when it is exited. [false]: it has returned. *)
Definition WebSocketStreamBenchmarkClientImpl_finish (s : ws) : bool * ws :=
  if ws_finished_ s then (false, s)
  else
    let s := ws_set_flags (ws_measure_latencies_ s) (ws_waiting_for_ s) true s in
    let s := foldl ws_start_close s (seq 0 (length (ws_streams_ s))) in
    if (ws_openStreams s =? 0)%nat then (false, s) else (true, ws_wait WsCloses s).

Definition ws_drain_stream (s : ws) (i : nat) : ws :=
  if ws_is_open (ws_at s i) then ws_completeInflight i (ws_count ws_drain_incomplete s) else s.

Definition ws_finish_end (s : ws) : ws :=
  foldl ws_drain_stream (ws_wait WsNothing s) (seq 0 (length (ws_streams_ s))).

Definition ws_terminate_stream (s : ws) (i : nat) : ws :=
  let x := ws_at s i in
  if bool_decide (wx_state x = WsOpening) && negb (wx_encoder x) && wx_cancellable x then
    ws_add_pending (-1)
      (ws_update i (fun x => wx_set_state WsClosed (wx_set_handles (wx_encoder x) false x))
         (ws_log_cancel i s))
  else if bool_decide (wx_state x = WsClosed) then s
  else
    let s := if bool_decide (wx_state x = WsOpening) then ws_add_pending (-1) s else s in
    let s := ws_completeInflight i (ws_update i wx_close s) in
    if wx_encoder x then ws_resetStream i s else s.

(** [terminate] after its [finish]. *)
Definition ws_terminate_end (s : ws) : ws :=
  let s := ws_setShouldMeasureLatencies false s in
  foldl ws_terminate_stream s (seq 0 (ws_stream_count_ (ws_config s))).

(** ** Executions

    The pool answers once, and only for a connection that waits for it; the
    codec calls back only for a connection it handed an encoder for, and hands
    it data and the end after the headers. *)

Definition ws_attached (x : WsStream) : Prop := wx_state x = WsOpening -> wx_encoder x = true.

Definition ws_answered (x : WsStream) : Prop := wx_state x <> WsOpening.

Definition ws_waiting_for_pool (x : WsStream) : Prop :=
  wx_state x = WsOpening /\ wx_cancellable x = true.

Inductive ws_step : ws -> list nat -> ws -> Prop :=
| wstep_ready request encodes i s :
    ws_waiting_for_pool (ws_at s i) -> ws_step s [] (ws_onStreamReady request encodes i s)
| wstep_open_failure i s :
    ws_waiting_for_pool (ws_at s i) -> ws_step s [] (ws_onStreamOpenFailure i s)
| wstep_headers i headers end_stream s :
    ws_attached (ws_at s i) -> ws_step s [] (ws_onResponseHeaders i headers end_stream s)
| wstep_data now i data end_stream s :
    ws_answered (ws_at s i) -> ws_step s [] (ws_onResponseData now i data end_stream s)
| wstep_trailers i s : ws_answered (ws_at s i) -> ws_step s [] (ws_onResponseEnd i s)
| wstep_reset i s : ws_attached (ws_at s i) -> ws_step s [] (ws_onStreamReset i s)
| wstep_write_blocked i b s : ws_step s [] (ws_onWriteBlocked i b s)
| wstep_request now cb s :
    ws_step s [cb] (WebSocketStreamBenchmarkClientImpl_tryStartRequest now cb s)
| wstep_measure b s : ws_step s [] (ws_setShouldMeasureLatencies b s)
| wstep_prepared s : ws_waiting_for_ s = WsOpens -> ws_step s [] (ws_prepare_end s)
| wstep_finish s :
    ws_waiting_for_ s = WsNothing -> ws_step s [] (snd (WebSocketStreamBenchmarkClientImpl_finish s))
| wstep_finish_end s : ws_waiting_for_ s = WsCloses -> ws_step s [] (ws_finish_end s)
| wstep_terminate s :
    ws_waiting_for_ s = WsNothing -> ws_finished_ s = true -> ws_step s [] (ws_terminate_end s).

Inductive ws_reachable (cfg : WsConfig) : list nat -> ws -> Prop :=
| ws_prepared request pool s0 s :
    WebSocketStreamBenchmarkClientImpl_new cfg = Ok s0 ->
    WebSocketStreamBenchmarkClientImpl_prepare (Some request) pool s0 = Ok s ->
    ws_reachable cfg [] s
| ws_steps started s l s' :
    ws_reachable cfg started s -> ws_step s l s' -> ws_reachable cfg (started ++ l) s'.

End Client.

(** ** Instances

    Header maps as lists of fields with a status, and keys that are their own
    digest: what the executions shown run on. *)

Definition field_list : Type := list (header_name * string) * Z.

Definition fields_get (n : header_name) (h : field_list) : list string :=
  snd <$> List.filter (fun f => bool_decide (fst f = n)) (fst h).

Definition fields_without (n : header_name) (h : field_list) : list (header_name * string) :=
  List.filter (fun f => negb (bool_decide (fst f = n))) (fst h).

Definition fields_headers : EnvoyHeaders field_list := {|
  header_get := fields_get;
  header_set n v h := (fields_without n h ++ [(n, v)], snd h);
  header_add n v h := (fst h ++ [(n, v)], snd h);
  header_setStatus z h := (fst h, z);
  header_empty := ([], 0);
  getResponseStatus := snd;
  isWebSocketUpgradeRequest h :=
    bool_decide (head (fields_get ConnectionHeader h) = Some "upgrade"%string) &&
    bool_decide (head (fields_get UpgradeHeader h) = Some "websocket"%string);
  MethodValues_Get := "GET";
  ConnectionValues_Upgrade := "upgrade";
  UpgradeValues_WebSocket := "websocket";
|}.

Definition plain_keys : HandshakeKeys := {| SHA1 l := l; Base64_encode := of_bytes |}.
