(* ===== verification/WebSocketClientProofs.v ===== *)
(** * The WebSocket stream benchmark client: invariants

    What every operation of [WebSocketClient] keeps: the books of the callbacks
    and the counters, the well-formedness of the connections, and that the event
    loops the client runs are left. *)

From S2P Require Import Prelude Text WebSocket WebSocketClient.

(** ** The books *)

Definition ws_outstanding (s : ws) : list nat :=
  ws_streams_ s ≫= (fun x => wm_callback <$> wx_inflight x).

Arguments ws_outstanding : simpl never.

Record ws_books (started : list nat) (s : ws) : Prop := {
  wsb_callbacks : started ≡ₚ
    (fst <$> log_run (ws_log s)) ++ (fst <$> log_posted (ws_log s)) ++ ws_outstanding s;
  wsb_received : successes (log_run (ws_log s)) = ws_counters s ws_messages_received;
  wsb_lost : failures (log_run (ws_log s)) = ws_counters s ws_inflight_lost;
  wsb_posted : successes (log_posted (ws_log s)) = 0;
  wsb_refused : failures (log_posted (ws_log s)) =
    ws_counters s ws_unavailable + ws_counters s ws_deferred;
  wsb_sent : ws_counters s ws_messages_sent =
    ws_counters s ws_messages_received + ws_counters s ws_inflight_lost +
    Z.of_nat (length (ws_outstanding s));
}.

(** What the books are about. *)
Definition ws_view (s : ws) :=
  (ws_outstanding s, log_run (ws_log s), log_posted (ws_log s),
   (ws_counters s ws_messages_received, ws_counters s ws_inflight_lost, ws_counters s ws_unavailable,
    ws_counters s ws_deferred, ws_counters s ws_messages_sent)).

Lemma ws_books_view started s s' : ws_view s' = ws_view s -> ws_books started s -> ws_books started s'.
Proof.
  unfold ws_view. intros E [? ? ? ? ? ?]. injection E as E1 E2 E3 E4 E5 E6 E7 E8.
  split; rewrite ?E1, ?E2, ?E3, ?E4, ?E5, ?E6, ?E7, ?E8; done.
Qed.

Definition ws_about_messages (n : ws_counter) : bool :=
  match n with
  | ws_messages_sent | ws_messages_received | ws_deferred | ws_unavailable | ws_inflight_lost => true
  | _ => false
  end.

Create HintDb wss.

Lemma wsb_update started i g s :
  (forall x, wx_inflight (g x) = wx_inflight x) ->
  ws_books started s -> ws_books started (ws_update i g s).
Proof.
  intros Hg. apply ws_books_view. unfold ws_view.
  assert (ws_outstanding (ws_update i g s) = ws_outstanding s) as ->
    by (apply bind_alter_same; intros x; by rewrite Hg). done.
Qed.

Lemma wsb_count started n s :
  ws_about_messages n = false -> ws_books started s -> ws_books started (ws_count n s).
Proof. intros Hn. apply ws_books_view. by destruct n. Qed.

Lemma wsb_pending started d s : ws_books started s -> ws_books started (ws_add_pending d s).
Proof. by apply ws_books_view. Qed.

Lemma wsb_flags started a b c s : ws_books started s -> ws_books started (ws_set_flags a b c s).
Proof. by apply ws_books_view. Qed.

Lemma wsb_next started a b s : ws_books started s -> ws_books started (ws_set_next a b s).
Proof. by apply ws_books_view. Qed.

Lemma wsb_wait started w s : ws_books started s -> ws_books started (ws_wait w s).
Proof. by apply ws_books_view. Qed.

Lemma wsb_measure started b s : ws_books started s -> ws_books started (ws_setShouldMeasureLatencies b s).
Proof. by apply ws_books_view. Qed.

Lemma wsb_latency started v s : ws_books started s -> ws_books started (ws_add_latency v s).
Proof. by apply ws_books_view. Qed.

Lemma wsb_log_reset started i s : ws_books started s -> ws_books started (ws_log_reset i s).
Proof. by apply ws_books_view. Qed.

Lemma wsb_log_cancel started i s : ws_books started s -> ws_books started (ws_log_cancel i s).
Proof. by apply ws_books_view. Qed.

Lemma wsb_send mask started i f s : ws_books started s -> ws_books started (ws_send mask i f s).
Proof. unfold ws_send. apply ws_books_view. by split_ifs. Qed.

Lemma wsb_maybeExit started s : ws_books started s -> ws_books started (ws_maybeExitWaitLoop s).
Proof. apply ws_books_view. unfold ws_maybeExitWaitLoop. destruct (ws_waiting_for_ s); by split_ifs. Qed.

#[export] Hint Resolve wsb_update wsb_count wsb_pending wsb_flags wsb_next wsb_wait wsb_measure
  wsb_latency wsb_log_reset wsb_log_cancel wsb_send wsb_maybeExit : wss.

(** A message outstanding on a connection is done with. *)
Lemma wsb_complete started i m q q' b s :
  wx_inflight <$> ws_streams_ s !! i = Some q -> q ≡ₚ m :: q' ->
  ws_books started s ->
  ws_books started
    (ws_call_back [(wm_callback m, b)] []
       (ws_count (if b then ws_messages_received else ws_inflight_lost)
          (ws_update i (wx_set_inflight q') s))).
Proof.
  intros Hi Hq [Hc Hr Hl Hp Hf Hs].
  destruct (ws_streams_ s !! i) as [x|] eqn:Ex; cbn in Hi; [|done]. injection Hi as Hi.
  set (s1 := ws_update i (wx_set_inflight q') s).
  assert (ws_outstanding s ≡ₚ wm_callback m :: ws_outstanding s1) as Ho.
  { pose proof (bind_alter_perm (fun x => wm_callback <$> wx_inflight x) (wx_set_inflight q')
                  i (ws_streams_ s) x Ex) as Hb.
    cbn beta in Hb. rewrite Hi, Hq in Hb. cbn in Hb. unfold ws_outstanding. cbn.
    apply (Permutation_app_inv_l (wm_callback <$> q')). rewrite <- Hb. solve_Permutation. }
  pose proof (Permutation_length Ho) as Hlen. cbn [length] in Hlen.
  assert (ws_outstanding s1 = ws_outstanding (ws_call_back [(wm_callback m, b)] []
            (ws_count (if b then ws_messages_received else ws_inflight_lost) s1))) as Eo by done.
  split; rewrite <- ?Eo; destruct b; cbn;
    rewrite ?app_nil_r, ?fmap_app, ?successes_app, ?failures_app, ?successes_one, ?failures_one;
    cbn; try done; try lia.
  all: rewrite Ho in Hc; rewrite Hc; solve_Permutation.
Qed.

Lemma wsb_complete_loop started q i s :
  wx_inflight <$> ws_streams_ s !! i = Some q ->
  ws_books started s -> ws_books started (ws_complete_loop q i s).
Proof.
  revert s. induction q as [|m q IH]; intros s Hi Hb; cbn; [done|]. apply IH.
  - revert Hi. cbn. rewrite list_lookup_alter_eq. by destruct (ws_streams_ s !! i).
  - by apply (wsb_complete started i m (m :: q) q false).
Qed.

Lemma wsb_completeInflight started i s :
  ws_books started s -> ws_books started (ws_completeInflight i s).
Proof.
  intros Hb. unfold ws_completeInflight, ws_at. rewrite list_lookup_total_alt.
  destruct (ws_streams_ s !! i) as [x|] eqn:E; [|done].
  apply wsb_complete_loop; [by rewrite E|done].
Qed.

Lemma wsb_refused_one started cb n s :
  n = ws_unavailable \/ n = ws_deferred -> ws_books started s ->
  ws_books (started ++ [cb]) (ws_refuse n cb s).
Proof.
  intros Hn [Hc Hr Hl Hp Hf Hs].
  assert (ws_outstanding (ws_refuse n cb s) = ws_outstanding s) as Eo by done.
  split; rewrite ?Eo; destruct Hn as [-> | ->]; cbn;
    rewrite ?app_nil_r, ?fmap_app, ?successes_app, ?failures_app, ?successes_one, ?failures_one;
    cbn; try done; try lia.
  all: rewrite Hc; solve_Permutation.
Qed.

Lemma wsb_sent_one started m i x s :
  ws_streams_ s !! i = Some x -> ws_books started s ->
  ws_books (started ++ [wm_callback m])
    (ws_count ws_messages_sent (ws_update i (wx_set_inflight (wx_inflight x ++ [m])) s)).
Proof.
  intros Hi [Hc Hr Hl Hp Hf Hs]. set (s1 := ws_update i _ s).
  assert (ws_outstanding s1 ≡ₚ wm_callback m :: ws_outstanding s) as Ho.
  { pose proof (bind_alter_perm (fun x => wm_callback <$> wx_inflight x)
                  (wx_set_inflight (wx_inflight x ++ [m])) i (ws_streams_ s) x Hi) as Hb.
    cbn beta in Hb. cbn [wx_inflight wx_set_inflight] in Hb. rewrite fmap_app in Hb.
    apply (Permutation_app_inv_l (wm_callback <$> wx_inflight x)).
    unfold ws_outstanding. cbn [s1 ws_update ws_set_streams ws_streams_]. rewrite Hb. solve_Permutation. }
  assert (ws_outstanding (ws_count ws_messages_sent s1) = ws_outstanding s1) as Eo by done.
  pose proof (Permutation_length Ho) as Hlen. cbn [length] in Hlen.
  split; rewrite ?Eo; cbn; try done; try lia.
  rewrite Ho, Hc. solve_Permutation.
Qed.

#[export] Hint Resolve wsb_completeInflight wsb_refused_one : wss.

(** *** Each operation *)

Lemma wsb_close started i s : ws_books started s -> ws_books started (ws_closeStream i s).
Proof. intros Hb. unfold ws_closeStream. destruct (wx_state _); auto 6 with wss. Qed.

#[export] Hint Resolve wsb_close : wss.

Lemma wsb_reset started i s : ws_books started s -> ws_books started (ws_onStreamReset i s).
Proof. intros Hb. unfold ws_onStreamReset. destruct (wx_state _); auto 6 with wss. Qed.

#[export] Hint Resolve wsb_reset : wss.

Lemma wsb_resetStream started i s : ws_books started s -> ws_books started (ws_resetStream i s).
Proof. intros Hb. unfold ws_resetStream. auto with wss. Qed.

#[export] Hint Resolve wsb_resetStream : wss.

Lemma wsb_end started i s : ws_books started s -> ws_books started (ws_onResponseEnd i s).
Proof. intros Hb. unfold ws_onResponseEnd. destruct (wx_state _); auto with wss. Qed.

Lemma wsb_give_up started s i : ws_books started s -> ws_books started (ws_give_up s i).
Proof.
  intros Hb. unfold ws_give_up. cbn zeta.
  destruct (wx_state _); [|done..]. split_ifs; auto 8 with wss.
Qed.

Lemma wsb_start_close mask started s i : ws_books started s -> ws_books started (ws_start_close mask s i).
Proof.
  intros Hb. unfold ws_start_close. cbn zeta.
  destruct (wx_state _); try done. destruct (wx_encoder _); auto with wss.
Qed.

Lemma wsb_drain started s i : ws_books started s -> ws_books started (ws_drain_stream s i).
Proof. intros Hb. unfold ws_drain_stream. destruct (ws_is_open _); auto with wss. Qed.

Lemma wsb_terminate started s i : ws_books started s -> ws_books started (ws_terminate_stream s i).
Proof.
  intros Hb. unfold ws_terminate_stream. cbn zeta. split_ifs; auto 8 with wss.
Qed.

#[export] Hint Resolve wsb_end wsb_give_up wsb_start_close wsb_drain wsb_terminate : wss.

Lemma wsb_foldl started (f : ws -> nat -> ws) ls s :
  (forall s i, ws_books started s -> ws_books started (f s i)) ->
  ws_books started s -> ws_books started (foldl f s ls).
Proof. intros Hf. revert s. induction ls as [|i ls IH]; intros s Hb; cbn; auto. Qed.

Lemma take_message_perm k q m q' : take_message k q = Some (m, q') -> q ≡ₚ m :: q' /\ wm_sequence m = k.
Proof.
  revert m q'. induction q as [|y q IH]; intros m q'; cbn; [done|].
  destruct (wm_sequence y =? k) eqn:E; b2p.
  - intros [= -> ->]. done.
  - destruct (take_message k q) as [[m1 q1]|]; [|done]. intros [= -> <-].
    destruct (IH m q1 eq_refl) as [Hp Hk]. split; [|done]. rewrite Hp. apply Permutation_swap.
Qed.

Section Client.
Context {H : Type} `{EnvoyHeaders H} `{AbslMatch} `{HandshakeKeys} `{AbslStrings}.
Context (mask_word : nat -> Z).

Lemma wsb_ready started (r : H) enc i s :
  ws_books started s -> ws_books started (ws_onStreamReady r enc i s).
Proof. intros Hb. unfold ws_onStreamReady. cbn zeta. destruct (enc _); auto 6 with wss. Qed.

Lemma wsb_open_failure started i s : ws_books started s -> ws_books started (ws_onStreamOpenFailure i s).
Proof. intros Hb. unfold ws_onStreamOpenFailure. auto 6 with wss. Qed.

Hint Resolve wsb_ready wsb_open_failure : wss.

Lemma wsb_openStream started (r : H) p i s :
  ws_books started s -> ws_books started (ws_openStream r p i s).
Proof.
  intros Hb. unfold ws_openStream. destruct p as [[[w0 w1] []]|]; cbn zeta; [..|auto with wss];
    destruct (wx_state _); try destruct (wx_encoder _); auto 8 with wss.
Qed.

Lemma wsb_headers started i (h : H) e s :
  ws_books started s -> ws_books started (ws_onResponseHeaders i h e s).
Proof.
  intros Hb. unfold ws_onResponseHeaders. cbn zeta. destruct (wx_state _); try done.
  split_ifs; auto 8 with wss.
Qed.

Lemma wsb_message started now i p s : ws_books started s -> ws_books started (ws_onMessage now i p s).
Proof.
  intros Hb. unfold ws_onMessage. destruct (_ <? _)%nat; [auto with wss|].
  destruct (SimpleHexAtoi _) as [k|]; [|auto with wss].
  destruct (take_message k _) as [[m q]|] eqn:Et; [|auto with wss].
  apply take_message_perm in Et as [Hp _]. unfold ws_at in Hp. rewrite list_lookup_total_alt in Hp.
  destruct (ws_streams_ s !! i) as [x|] eqn:Ex; cbn in Hp; [|by apply Permutation_nil_cons in Hp].
  pose proof (wsb_complete started i m (wx_inflight x) q true s) as Hc. rewrite Ex in Hc.
  specialize (Hc eq_refl Hp Hb). cbn zeta. destruct (ws_measure_latencies_ _); [|exact Hc].
  by refine (ws_books_view _ _ _ _ Hc).
Qed.

Hint Resolve wsb_openStream wsb_headers wsb_message : wss.

Lemma wsb_frames started now i fs s :
  ws_books started s -> ws_books started (snd (ws_on_frames mask_word now i fs s)).
Proof.
  revert s. induction fs as [|f fs IH]; intros s Hb; cbn [ws_on_frames]; [done|].
  assert (ws_books started
            (let fragments := wx_fragments (ws_at s i) ++ payload f in
             let s := ws_update i (fun x => wx_set_bytes (wx_received x) fragments x) s in
             if fin f then ws_update i (fun x => wx_set_bytes (wx_received x) [] x)
                             (ws_onMessage now i fragments s) else s)) as Hd
    by (cbn zeta; destruct (fin f); auto with wss).
  destruct (opcode f); try (apply IH; exact Hd); cbn [snd].
  - destruct (wx_state _); auto with wss.
  - apply IH. destruct (wx_state _); auto with wss.
  - by apply IH.
Qed.

Lemma wsb_data started now i d e s :
  ws_books started s -> ws_books started (ws_onResponseData mask_word now i d e s).
Proof.
  intros Hb. unfold ws_onResponseData. cbn zeta. destruct (ws_is_open _); [|destruct e; auto with wss].
  destruct (Decoder_feed _ _) as [[[] rest] fs].
  - pose proof (wsb_frames started now i fs
                  (ws_update i (fun x => wx_set_bytes rest (wx_fragments x) x) s)) as Hf.
    destruct (ws_on_frames _ _ _ _ _) as [[] s1]; [|destruct e]; cbn in Hf; auto with wss.
  - destruct (wx_encoder _); auto 8 with wss.
Qed.

Lemma wsb_request started now cb s :
  (ws_next_stream_ s < length (ws_streams_ s))%nat -> ws_books started s ->
  ws_books (started ++ [cb]) (WebSocketStreamBenchmarkClientImpl_tryStartRequest mask_word now cb s).
Proof.
  intros Hn Hb. unfold WebSocketStreamBenchmarkClientImpl_tryStartRequest. cbn zeta.
  set (s0 := ws_set_next (ws_next_sequence_ s) _ s).
  assert (ws_books started s0) as Hb0 by (unfold s0; auto with wss).
  change (ws_at s0) with (ws_at s). destruct (wx_state _); auto with wss.
  destruct (_ || _); [auto with wss|]. apply lookup_lt_is_Some_2 in Hn as [x Hx].
  unfold ws_at. rewrite (list_lookup_total_correct _ _ _ Hx).
  set (m := mkWsMessage _ now cb). set (s1 := ws_set_next (u64 _) _ s0). set (s2 := ws_update _ _ s1).
  set (f := mkFrame _ _ _).
  apply (ws_books_view _ (ws_count ws_messages_sent s2)); [unfold ws_send; by split_ifs|].
  apply (wsb_sent_one started m (ws_next_stream_ s) x s1); [done|]. unfold s1. auto with wss.
Qed.

Lemma wsb_finish started s :
  ws_books started s -> ws_books started (snd (WebSocketStreamBenchmarkClientImpl_finish mask_word s)).
Proof.
  intros Hb. unfold WebSocketStreamBenchmarkClientImpl_finish. destruct (ws_finished_ s); [done|].
  cbn zeta. set (s0 := ws_set_flags _ _ _ s).
  assert (ws_books started (foldl (ws_start_close mask_word) s0 (seq 0 (length (ws_streams_ s0))))) as Hb1
    by (apply wsb_foldl; unfold s0; auto with wss).
  destruct (_ =? 0)%nat; cbn [snd]; auto with wss.
Qed.

Lemma wsb_step started s l s' :
  (ws_next_stream_ s < length (ws_streams_ s))%nat ->
  ws_step mask_word s l s' -> ws_books started s -> ws_books (started ++ l) s'.
Proof.
  intros Hn Hs Hb. destruct Hs; rewrite ?app_nil_r; auto with wss.
  - by apply wsb_data.
  - unfold ws_onWriteBlocked. split_ifs; auto with wss.
  - by apply wsb_request.
  - unfold ws_prepare_end. apply wsb_foldl; auto with wss.
  - by apply wsb_finish.
  - unfold ws_finish_end. apply wsb_foldl; auto with wss.
  - unfold ws_terminate_end. apply wsb_foldl; auto with wss.
Qed.

End Client.

(** ** The connections *)

(** An opening connection counts as pending. *)
Definition ws_opening (x : WsStream) : bool :=
  match wx_state x with WsOpening => true | _ => false end.

Record ws_ok (cfg : WsConfig) (x : WsStream) : Prop := {
  wo_window : (length (wx_inflight x) <= ws_max_inflight_per_stream_ cfg)%nat;
  wo_idle : ws_is_open x = false -> wx_inflight x = [];
  wo_encoder : ws_is_open x = true -> wx_encoder x = true;
  wo_cancellable : wx_cancellable x = true -> wx_state x = WsOpening /\ wx_encoder x = false;
}.

(** [k]: how many connections are opening and not counted as pending, which is
    not zero only inside an operation. *)
Record ws_wf (k : Z) (s : ws) : Prop := {
  ww_count : length (ws_streams_ s) = ws_stream_count_ (ws_config s);
  ww_next : (ws_next_stream_ s < ws_stream_count_ (ws_config s))%nat;
  ww_streams : forall i x, ws_streams_ s !! i = Some x -> ws_ok (ws_config s) x;
  ww_pending : ws_pending_opens_ s + k = Z.of_nat (length (List.filter ws_opening (ws_streams_ s)));
  ww_null_writes : log_null_writes (ws_log s) = 0%nat;
}.

(** What well-formedness is about, and what more the wait loops are about. *)
Definition ws_core (s : ws) :=
  (ws_config s, ws_streams_ s, ws_next_sequence_ s, ws_next_stream_ s, ws_pending_opens_ s,
   (ws_waiting_for_ s, ws_finished_ s, log_null_writes (ws_log s))).

Lemma ws_wf_core k s s' : ws_core s' = ws_core s -> ws_wf k s -> ws_wf k s'.
Proof.
  unfold ws_core. intros E [? ? ? ? ?]. injection E as E1 E2 E3 E4 E5 E6 E7 E8.
  split; rewrite ?E1, ?E2, ?E4, ?E5, ?E8; done.
Qed.

Lemma ws_at_lookup s i x : ws_streams_ s !! i = Some x -> ws_at s i = x.
Proof. apply list_lookup_total_correct. Qed.

Lemma ws_at_out s i : ws_streams_ s !! i = None -> ws_at s i = inhabitant.
Proof. intros E. unfold ws_at. by rewrite list_lookup_total_alt, E. Qed.

Lemma ws_at_update s i g :
  ws_at (ws_update i g s) i = match ws_streams_ s !! i with Some x => g x | None => inhabitant end.
Proof.
  unfold ws_at. rewrite list_lookup_total_alt. cbn. rewrite list_lookup_alter_eq.
  by destruct (ws_streams_ s !! i).
Qed.

(** The connection of an index, unless it is closed, is one of the client's. *)
Lemma ws_at_in s i : wx_state (ws_at s i) <> WsClosed -> ws_streams_ s !! i = Some (ws_at s i).
Proof.
  intros Hs. destruct (ws_streams_ s !! i) as [x|] eqn:E; [by rewrite (ws_at_lookup s i x E)|].
  by rewrite (ws_at_out s i E) in Hs.
Qed.

Lemma wf_update k i g s :
  (forall x, ws_streams_ s !! i = Some x -> ws_ok (ws_config s) x -> ws_ok (ws_config s) (g x)) ->
  ws_wf (k + Z.b2z (ws_opening (ws_at s i)) - Z.b2z (ws_opening (ws_at (ws_update i g s) i))) s ->
  ws_wf k (ws_update i g s).
Proof.
  intros Hg [Hc Hn Hs Hp Hw]. split; cbn; try done.
  - by rewrite length_alter.
  - intros j y Hy. rewrite list_lookup_alter in Hy. case_decide; [subst j|by apply (Hs j)].
    destruct (ws_streams_ s !! i) as [x|] eqn:Ex; [|done]. injection Hy as <-. apply Hg; [done|by apply (Hs i)].
  - rewrite ws_at_update in Hp. destruct (ws_streams_ s !! i) as [x|] eqn:Ex.
    + rewrite (ws_at_lookup s i x Ex) in Hp.
      rewrite (filter_alter_length _ _ _ _ _ Ex). lia.
    + rewrite (ws_at_out s i Ex) in Hp. rewrite (alter_out g i _ Ex). cbn in Hp. lia.
Qed.

(** An update that keeps the state. *)
Lemma wf_update_same k i g s :
  (forall x, wx_state (g x) = wx_state x) ->
  (forall x, ws_streams_ s !! i = Some x -> ws_ok (ws_config s) x -> ws_ok (ws_config s) (g x)) ->
  ws_wf k s -> ws_wf k (ws_update i g s).
Proof.
  intros Hst Hg Hw. apply wf_update; [done|].
  replace (k + _ - _) with k; [done|]. rewrite ws_at_update. unfold ws_opening.
  destruct (ws_streams_ s !! i) as [x|] eqn:E; [rewrite (ws_at_lookup s i x E), Hst|rewrite (ws_at_out s i E)];
    lia.
Qed.

Lemma wf_count k n s : ws_wf k s -> ws_wf k (ws_count n s).
Proof. by apply ws_wf_core. Qed.

Lemma wf_pending k d s : ws_wf (k + d) s -> ws_wf k (ws_add_pending d s).
Proof. intros [? ? ? ? ?]. split; cbn; try done. lia. Qed.

Lemma wf_flags k a b c s : ws_wf k s -> ws_wf k (ws_set_flags a b c s).
Proof. by intros []. Qed.

Lemma wf_wait k w s : ws_wf k s -> ws_wf k (ws_wait w s).
Proof. apply wf_flags. Qed.

Lemma wf_log_reset k i s : ws_wf k s -> ws_wf k (ws_log_reset i s).
Proof. by apply ws_wf_core. Qed.

Lemma wf_log_cancel k i s : ws_wf k s -> ws_wf k (ws_log_cancel i s).
Proof. by apply ws_wf_core. Qed.

Lemma wf_latency k v s : ws_wf k s -> ws_wf k (ws_add_latency v s).
Proof. by apply ws_wf_core. Qed.

Lemma wf_call_back k a b s : ws_wf k s -> ws_wf k (ws_call_back a b s).
Proof. by apply ws_wf_core. Qed.

#[export] Hint Resolve wf_count wf_flags wf_wait wf_log_reset wf_log_cancel wf_latency wf_call_back : wss.

Lemma core_maybeExit s : ws_core (ws_maybeExitWaitLoop s) = ws_core s.
Proof. unfold ws_maybeExitWaitLoop. destruct (ws_waiting_for_ s); by split_ifs. Qed.

Lemma core_update_ext i g g' s :
  (forall x, ws_streams_ s !! i = Some x -> g x = g' x) ->
  ws_core (ws_update i g s) = ws_core (ws_update i g' s).
Proof. intros Hg. unfold ws_core. cbn. by erewrite list_alter_ext. Qed.

(** Two changes of a connection, the second on a state whose core is the first's. *)
Lemma core_update_update i f g h s s1 :
  ws_core s1 = ws_core (ws_update i g s) ->
  (forall x, ws_streams_ s !! i = Some x -> f (g x) = h x) ->
  ws_core (ws_update i f s1) = ws_core (ws_update i h s).
Proof.
  unfold ws_core. cbn. intros E Hh. injection E as E1 E2 E3 E4 E5 E6 E7 E8.
  by rewrite E1, E2, E3, E4, E5, E6, E7, E8, (alter_alter_to f g h).
Qed.

Lemma core_complete_loop q i s :
  ws_core (ws_complete_loop q i s) =
  ws_core (ws_update i (fun x => match q with [] => x | _ => wx_set_inflight [] x end) s).
Proof.
  revert s. induction q as [|m q IH]; intros s; cbn [ws_complete_loop].
  - unfold ws_core. cbn. by rewrite list_alter_id.
  - rewrite IH. eapply core_update_update; [reflexivity|]. intros x _. cbn. by destruct q.
Qed.

Lemma core_completeInflight i s :
  ws_core (ws_completeInflight i s) = ws_core (ws_update i (wx_set_inflight []) s).
Proof.
  unfold ws_completeInflight. rewrite core_complete_loop. apply core_update_ext. intros x Hx.
  rewrite (ws_at_lookup s i x Hx). destruct (wx_inflight x) eqn:E; [|done]. rewrite <- E. by destruct x.
Qed.

Lemma wf_maybeExit k s : ws_wf k s -> ws_wf k (ws_maybeExitWaitLoop s).
Proof. apply ws_wf_core, core_maybeExit. Qed.

(** *** Closing *)

Definition wx_closed (x : WsStream) : WsStream := wx_set_inflight [] (wx_close x).

Lemma core_close i s :
  wx_state (ws_at s i) <> WsClosed -> ws_core (ws_closeStream i s) = ws_core (ws_update i wx_closed s).
Proof.
  intros Hs. unfold ws_closeStream.
  assert (ws_core (ws_maybeExitWaitLoop (ws_completeInflight i (ws_update i wx_close s))) =
          ws_core (ws_update i wx_closed s)) as E
    by (rewrite core_maybeExit, core_completeInflight; by eapply core_update_update).
  by destruct (wx_state (ws_at s i)).
Qed.

Lemma ws_core_at s s' i : ws_core s' = ws_core s -> ws_at s' i = ws_at s i.
Proof. unfold ws_core. intros [= _ E _ _ _]. unfold ws_at. by rewrite E. Qed.

Lemma closed_after_close i s : wx_state (ws_at (ws_closeStream i s) i) = WsClosed.
Proof.
  destruct (decide (wx_state (ws_at s i) = WsClosed)) as [E|E].
  - unfold ws_closeStream. by rewrite E.
  - rewrite (ws_core_at _ _ i (core_close i s E)), ws_at_update. by destruct (ws_streams_ s !! i).
Qed.

(** Resetting a closed connection changes nothing else. *)
Lemma reset_closed i s : wx_state (ws_at s i) = WsClosed -> ws_resetStream i s = ws_log_reset i s.
Proof.
  intros E. unfold ws_resetStream, ws_onStreamReset. change (ws_at (ws_log_reset i s) i) with (ws_at s i).
  by rewrite E.
Qed.

Lemma wx_closed_ok cfg x : wx_cancellable x = false -> ws_ok cfg (wx_closed x).
Proof. intros Hc. split; cbn; try done; [lia|]. by rewrite Hc. Qed.

Lemma wf_closed k i s :
  wx_cancellable (ws_at s i) = false ->
  ws_wf (k + Z.b2z (ws_opening (ws_at s i))) s -> ws_wf k (ws_update i wx_closed s).
Proof.
  intros Hc Hw. apply wf_update.
  - intros x Hx _. rewrite (ws_at_lookup s i x Hx) in Hc. by apply wx_closed_ok.
  - rewrite ws_at_update. replace (ws_opening (match ws_streams_ s !! i with Some x => _ | None => _ end))
      with false by (by destruct (ws_streams_ s !! i)). by rewrite Z.sub_0_r.
Qed.

Lemma wf_close k i s :
  wx_cancellable (ws_at s i) = false ->
  ws_wf (k + Z.b2z (ws_opening (ws_at s i))) s -> ws_wf k (ws_closeStream i s).
Proof.
  intros Hc Hw. destruct (decide (wx_state (ws_at s i) = WsClosed)) as [E|E].
  - unfold ws_closeStream. rewrite E. unfold ws_opening in Hw. rewrite E in Hw. by rewrite Z.add_0_r in Hw.
  - eapply ws_wf_core; [by apply core_close|]. by apply wf_closed.
Qed.

(** A connection whose encoder is there, or that does not open, has no handle to
    cancel its opening. *)
Lemma attached_cancellable k s i :
  ws_wf k s -> ws_attached (ws_at s i) -> wx_cancellable (ws_at s i) = false.
Proof.
  intros Hw Ha. destruct (ws_streams_ s !! i) as [x|] eqn:E; [|by rewrite (ws_at_out s i E)].
  rewrite (ws_at_lookup s i x E) in *. destruct (wx_cancellable x) eqn:Ec; [|done].
  destruct (wo_cancellable _ x (ww_streams k s Hw i x E) Ec) as [Hs He]. specialize (Ha Hs). congruence.
Qed.

Lemma answered_attached x : ws_answered x -> ws_attached x.
Proof. intros Ha Hs. by destruct Ha. Qed.

Lemma open_answered x : ws_is_open x = true -> ws_answered x.
Proof. unfold ws_is_open, ws_answered. by destruct (wx_state x). Qed.

Lemma answered_opening x : ws_answered x -> ws_opening x = false.
Proof. unfold ws_answered, ws_opening. by destruct (wx_state x). Qed.

Lemma wf_close_answered k i s :
  ws_answered (ws_at s i) -> ws_wf k s -> ws_wf k (ws_closeStream i s).
Proof.
  intros Ha Hw. apply wf_close.
  - by apply (attached_cancellable k), answered_attached.
  - rewrite (answered_opening _ Ha). by rewrite Z.add_0_r.
Qed.

Lemma wf_reset k i s : ws_attached (ws_at s i) -> ws_wf k s -> ws_wf k (ws_onStreamReset i s).
Proof.
  intros Ha Hw. pose proof (attached_cancellable k s i Hw Ha) as Hc. unfold ws_onStreamReset.
  destruct (wx_state (ws_at s i)) eqn:E; try done.
  - apply wf_close; [done|]. change (ws_at (ws_add_pending _ _) i) with (ws_at s i).
    unfold ws_opening. rewrite E. apply wf_pending, wf_count, wf_count.
    by replace (k + Z.b2z true + -1) with k by (cbn; lia).
  - apply wf_close_answered; [unfold ws_answered; change (wx_state (ws_at s i) <> WsOpening); congruence|].
    auto with wss.
  - apply wf_close_answered; [unfold ws_answered; change (wx_state (ws_at s i) <> WsOpening); congruence|].
    auto with wss.
Qed.

(** Closing a connection and resetting its stream. *)
Lemma wf_close_reset k i s :
  wx_cancellable (ws_at s i) = false ->
  ws_wf (k + Z.b2z (ws_opening (ws_at s i))) s -> ws_wf k (ws_resetStream i (ws_closeStream i s)).
Proof.
  intros Hc Hw. rewrite reset_closed by apply closed_after_close. by apply wf_log_reset, wf_close.
Qed.

(** *** Writing *)

Lemma core_send mask i f s :
  wx_encoder (ws_at s i) = true -> ws_core (ws_send mask i f s) = ws_core s.
Proof. intros He. unfold ws_send. by rewrite He. Qed.

Lemma open_encoder k s i : ws_wf k s -> ws_is_open (ws_at s i) = true -> wx_encoder (ws_at s i) = true.
Proof.
  intros Hw Ho. destruct (ws_streams_ s !! i) as [x|] eqn:E; [|by rewrite (ws_at_out s i E) in Ho].
  rewrite (ws_at_lookup s i x E) in *. by apply (ww_streams k s Hw i x E).
Qed.

Lemma core_send_open mask k i f s :
  ws_wf k s -> ws_is_open (ws_at s i) = true -> ws_core (ws_send mask i f s) = ws_core s.
Proof. intros Hw Ho. by apply core_send, (open_encoder k). Qed.

Lemma state_is_open x : wx_state x = WsOpen -> ws_is_open x = true.
Proof. unfold ws_is_open. by intros ->. Qed.

(** A connection with fewer messages outstanding. *)
Lemma ok_shorter cfg q x :
  (length q <= length (wx_inflight x))%nat -> ws_ok cfg x -> ws_ok cfg (wx_set_inflight q x).
Proof.
  intros Hq [Hw Hi He Hc]. split; cbn; try done; [lia|]. intros Ho. specialize (Hi Ho). rewrite Hi in Hq.
  by apply nil_length_inv, Nat.le_0_r.
Qed.

Lemma ok_bytes cfg a b x : ws_ok cfg x -> ws_ok cfg (wx_set_bytes a b x).
Proof. by intros []. Qed.

Lemma wf_bytes k i (a b : WsStream -> list Z) s :
  ws_wf k s -> ws_wf k (ws_update i (fun x => wx_set_bytes (a x) (b x) x) s).
Proof. intros Hw. apply wf_update_same; [done| |done]. intros x _. apply ok_bytes. Qed.

Lemma wf_completeInflight k i s : ws_wf k s -> ws_wf k (ws_completeInflight i s).
Proof.
  intros Hw. eapply ws_wf_core; [apply core_completeInflight|]. apply wf_update_same; [done| |done].
  intros x _ Hx. apply ok_shorter; [cbn; lia|done].
Qed.

#[export] Hint Resolve wf_completeInflight : wss.

Lemma wf_set_open k i s :
  wx_state (ws_at s i) = WsOpening -> wx_encoder (ws_at s i) = true -> ws_wf (k + 1) s ->
  ws_wf k (ws_update i (wx_set_state WsOpen) s).
Proof.
  intros Hs He Hw. pose proof (ws_at_in s i ltac:(congruence)) as Ex. apply wf_update.
  - intros x Hx [Ho Hi Hen Hc]. rewrite (ws_at_lookup s i x Hx) in Hs, He.
    assert (wx_inflight x = []) as Eq by (apply Hi; unfold ws_is_open; by rewrite Hs).
    split; cbn; try done. intros Hcc. destruct (Hc Hcc) as [_ E]. congruence.
  - rewrite ws_at_update, Ex. unfold ws_opening. rewrite Hs. cbn. by rewrite Z.sub_0_r.
Qed.

(** An update of the connection, the state staying opening. *)
Lemma wf_handles k i e c s :
  ws_wf k s -> wx_state (ws_at s i) = WsOpening -> (c = true -> e = false) ->
  ws_wf k (ws_update i (wx_set_handles e c) s).
Proof.
  intros Hw Hs Hec. apply wf_update_same; [done| |done]. intros x Hx [Ho Hi He Hc].
  rewrite (ws_at_lookup s i x Hx) in Hs. split; cbn; auto. unfold ws_is_open. cbn. by rewrite Hs.
Qed.

(** An opening that failed before there was an encoder. *)
Lemma wf_failed k i s :
  wx_state (ws_at s i) = WsOpening -> ws_wf (k + 1) s ->
  ws_wf k (ws_update i (fun x => wx_set_state WsClosed (wx_set_handles (wx_encoder x) false x)) s).
Proof.
  intros Hs Hw. pose proof (ws_at_in s i ltac:(congruence)) as Ex. apply wf_update.
  - intros x Hx [Ho Hi Hen Hc]. rewrite (ws_at_lookup s i x Hx) in Hs.
    assert (wx_inflight x = []) as Eq by (apply Hi; unfold ws_is_open; by rewrite Hs). by split; cbn.
  - rewrite ws_at_update, Ex. unfold ws_opening. rewrite Hs. cbn. by rewrite Z.sub_0_r.
Qed.

Lemma wf_give_up k s i : ws_wf k s -> ws_wf k (ws_give_up s i).
Proof.
  intros Hw. unfold ws_give_up. cbn zeta. destruct (wx_state (ws_at s i)) eqn:Es; try done.
  set (s1 := ws_update i _ _).
  pose proof (ws_at_in s i ltac:(congruence)) as Ex.
  assert (wx_state (ws_at s1 i) = WsOpening /\ wx_cancellable (ws_at s1 i) = false) as [Hs1 Hc1].
  { unfold s1. rewrite ws_at_update. cbn [ws_add_pending ws_count ws_streams_]. by rewrite Ex. }
  assert (ws_wf (k + Z.b2z (ws_opening (ws_at s1 i))) s1) as Hw1.
  { unfold ws_opening. rewrite Hs1. apply wf_update_same; [done| |].
    - intros x _ [Ho Hi He Hc]. by split; cbn.
    - apply wf_pending, wf_count. by replace (k + Z.b2z true + -1) with k by (cbn; lia). }
  split_ifs; [by apply wf_close_reset|apply wf_log_cancel|]; by apply wf_close.
Qed.

Lemma wf_start_close mask k s i : ws_wf k s -> ws_wf k (ws_start_close mask s i).
Proof.
  intros Hw. unfold ws_start_close. cbn zeta. destruct (wx_state (ws_at s i)) eqn:Es; try done.
  destruct (wx_encoder (ws_at s i)) eqn:Ee; [|done].
  pose proof (ws_at_in s i ltac:(congruence)) as Ex.
  apply (ws_wf_core k (ws_update i (wx_set_state WsClosing) s)).
  { unfold ws_send. by rewrite Ee. }
  apply wf_update.
  - intros x Hx [Ho Hi He Hc]. rewrite (ws_at_lookup s i x Hx) in Es, Ee. split; cbn; try done.
    intros Hcc. destruct (Hc Hcc). congruence.
  - rewrite ws_at_update, Ex. unfold ws_opening. rewrite Es. cbn. by rewrite Z.sub_0_r, Z.add_0_r.
Qed.

Lemma wf_drain k s i : ws_wf k s -> ws_wf k (ws_drain_stream s i).
Proof. intros Hw. unfold ws_drain_stream. destruct (ws_is_open _); auto with wss. Qed.

Lemma wf_terminate k s i : ws_wf k s -> ws_wf k (ws_terminate_stream s i).
Proof.
  intros Hw. unfold ws_terminate_stream. cbn zeta.
  destruct (bool_decide (wx_state (ws_at s i) = WsOpening) && _ && _) eqn:Eb.
  { apply andb_prop in Eb as [[Eo _]%andb_prop _]. apply bool_decide_eq_true in Eo.
    apply wf_pending, wf_failed; [done|]. replace (k + -1 + 1) with k by lia. by apply wf_log_cancel. }
  destruct (bool_decide (wx_state (ws_at s i) = WsClosed)) eqn:Hs; [done|]. apply bool_decide_eq_false in Hs.
  pose proof (ws_at_in s i Hs) as Ex. pose proof (ww_streams k s Hw i _ Ex) as Hok.
  assert (wx_cancellable (ws_at s i) = false) as Hc.
  { destruct (wx_cancellable (ws_at s i)) eqn:Ec; [|done].
    destruct (wo_cancellable _ _ Hok Ec) as [E1 E2]. by rewrite E2, bool_decide_true in Eb. }
  clear Eb. set (s1 := if bool_decide (wx_state (ws_at s i) = WsOpening) then _ else _).
  assert (ws_at s1 i = ws_at s i /\ ws_wf (k + Z.b2z (ws_opening (ws_at s i))) s1) as [Ea Hw1].
  { unfold s1, ws_opening. case_bool_decide as Eo; (split; [done|]).
    - rewrite Eo. apply wf_pending. by replace (k + Z.b2z true + -1) with k by (cbn; lia).
    - destruct (wx_state (ws_at s i)); [done|..]; by rewrite Z.add_0_r. }
  clearbody s1. set (s2 := ws_completeInflight i (ws_update i wx_close s1)).
  assert (ws_core s2 = ws_core (ws_update i wx_closed s1)) as E2
    by (unfold s2; rewrite core_completeInflight; by eapply core_update_update).
  assert (ws_wf k s2) as Hw2
    by (eapply ws_wf_core; [exact E2|]; apply wf_closed; by rewrite Ea).
  assert (wx_state (ws_at s2 i) = WsClosed) as Hs2
    by (rewrite (ws_core_at _ _ i E2), ws_at_update; by destruct (ws_streams_ s1 !! i)).
  destruct (wx_encoder (ws_at s i)); [rewrite reset_closed by done; by apply wf_log_reset|done].
Qed.

#[export] Hint Resolve wf_give_up wf_start_close wf_drain wf_terminate : wss.

Lemma wf_foldl k (f : ws -> nat -> ws) ls s :
  (forall s i, ws_wf k s -> ws_wf k (f s i)) -> ws_wf k s -> ws_wf k (foldl f s ls).
Proof. intros Hf. revert s. induction ls as [|i ls IH]; intros s Hw; cbn; auto. Qed.

Section Operations.
Context {H : Type} `{EnvoyHeaders H} `{AbslMatch} `{HandshakeKeys} `{AbslStrings}.
Context (mask_word : nat -> Z).

Lemma wf_ready k (r : H) enc i s :
  wx_state (ws_at s i) = WsOpening -> ws_wf k s -> ws_wf k (ws_onStreamReady r enc i s).
Proof.
  intros Hs Hw. unfold ws_onStreamReady. cbn zeta. set (s1 := ws_update i _ s).
  pose proof (ws_at_in s i ltac:(congruence)) as Ex.
  assert (ws_wf k s1) as Hw1 by (by apply wf_handles).
  assert (wx_state (ws_at s1 i) = WsOpening /\ wx_cancellable (ws_at s1 i) = false) as [Hs1 Hc1]
    by (unfold s1; by rewrite ws_at_update, Ex).
  destruct (enc _); [done|]. apply wf_close; [done|].
  change (ws_at (ws_add_pending _ _) i) with (ws_at s1 i). unfold ws_opening. rewrite Hs1.
  apply wf_pending, wf_count. by replace (k + Z.b2z true + -1) with k by (cbn; lia).
Qed.

Lemma wf_open_failure k i s :
  wx_state (ws_at s i) = WsOpening -> ws_wf k s -> ws_wf k (ws_onStreamOpenFailure i s).
Proof.
  intros Hs Hw. unfold ws_onStreamOpenFailure. apply wf_maybeExit, wf_pending, wf_count, wf_failed; [done|].
  by replace (k + -1 + 1) with k by lia.
Qed.

Lemma wf_headers k i (h : H) e s :
  ws_attached (ws_at s i) -> ws_wf k s -> ws_wf k (ws_onResponseHeaders i h e s).
Proof.
  intros Ha Hw. pose proof (attached_cancellable k s i Hw Ha) as Hc. unfold ws_onResponseHeaders. cbn zeta.
  destruct (wx_state (ws_at s i)) eqn:Es; try done.
  assert (ws_wf (k + Z.b2z (ws_opening (ws_at s i))) (ws_add_pending (-1) s)) as Hw1.
  { unfold ws_opening. rewrite Es. apply wf_pending. by replace (k + Z.b2z true + -1) with k by (cbn; lia). }
  destruct (negb _ || e).
  - destruct (wx_encoder _ && _); [apply wf_close_reset|apply wf_close]; try done; by apply wf_count.
  - apply wf_maybeExit, wf_count, wf_set_open; [done|by apply Ha|].
    revert Hw1. unfold ws_opening. by rewrite Es.
Qed.

(** What a message does to the connection: one outstanding message fewer at most. *)
Lemma core_message now i p s :
  exists q, sublist q (wx_inflight (ws_at s i)) /\
    ws_core (ws_onMessage now i p s) = ws_core (ws_update i (fun x => wx_set_inflight q x) s).
Proof.
  assert (forall n, ws_core (ws_count n s) =
            ws_core (ws_update i (fun x => wx_set_inflight (wx_inflight (ws_at s i)) x) s)) as Hid.
  { intros n. transitivity (ws_core (ws_update i (fun x => x) s)).
    - unfold ws_core. cbn. by rewrite list_alter_id.
    - apply core_update_ext. intros x Hx. rewrite (ws_at_lookup s i x Hx). by destruct x. }
  unfold ws_onMessage. destruct (_ <? _)%nat; [by eexists|].
  destruct (SimpleHexAtoi _) as [n|]; [|by eexists].
  destruct (take_message n _) as [[m q]|] eqn:Et; [|by eexists]. exists q. split.
  - clear Hid. revert m q Et. induction (wx_inflight (ws_at s i)) as [|y l IH]; intros m q; cbn; [done|].
    destruct (_ =? n); [intros [= -> ->]; by constructor|].
    destruct (take_message n l) as [[m1 q1]|]; [|done]. intros [= -> <-]. constructor. by eapply IH.
  - cbn zeta. by destruct (ws_measure_latencies_ _).
Qed.

Lemma wf_message k now i p s : ws_wf k s -> ws_wf k (ws_onMessage now i p s).
Proof.
  intros Hw. destruct (core_message now i p s) as (q & Hq & E). eapply ws_wf_core; [exact E|].
  apply wf_update_same; [done| |done]. intros x Hx. apply ok_shorter.
  rewrite <- (ws_at_lookup s i x Hx). by apply sublist_length.
Qed.

Lemma message_at now i p s :
  wx_state (ws_at (ws_onMessage now i p s) i) = wx_state (ws_at s i).
Proof.
  destruct (core_message now i p s) as (q & _ & E). rewrite (ws_core_at _ _ i E), ws_at_update.
  destruct (ws_streams_ s !! i) as [x|] eqn:Ex; [by rewrite (ws_at_lookup s i x Ex)|by rewrite (ws_at_out s i Ex)].
Qed.

(** A frame that is part of a message. *)
Definition ws_data_frame (now : Z) (i : nat) (f : Frame) (s : ws) : ws :=
  let fragments := wx_fragments (ws_at s i) ++ payload f in
  let s := ws_update i (fun x => wx_set_bytes (wx_received x) fragments x) s in
  if fin f then ws_update i (fun x => wx_set_bytes (wx_received x) [] x) (ws_onMessage now i fragments s)
  else s.

Lemma wf_data_frame k now i f s : ws_wf k s -> ws_wf k (ws_data_frame now i f s).
Proof.
  intros Hw. unfold ws_data_frame. cbn zeta.
  destruct (fin f); [apply (wf_bytes k i wx_received (fun _ => [])), wf_message|];
    by apply (wf_bytes k i wx_received (fun _ => _)).
Qed.

Lemma bytes_state i (a b : WsStream -> list Z) s :
  wx_state (ws_at (ws_update i (fun x => wx_set_bytes (a x) (b x) x) s) i) = wx_state (ws_at s i).
Proof.
  rewrite ws_at_update. destruct (ws_streams_ s !! i) as [x|] eqn:Ex;
    [by rewrite (ws_at_lookup s i x Ex)|by rewrite (ws_at_out s i Ex)].
Qed.

Lemma data_frame_state now i f s : wx_state (ws_at (ws_data_frame now i f s) i) = wx_state (ws_at s i).
Proof.
  unfold ws_data_frame. cbn zeta. destruct (fin f).
  - by rewrite (bytes_state i wx_received (fun _ => [])), message_at, (bytes_state i wx_received (fun _ => _)).
  - by rewrite (bytes_state i wx_received (fun _ => _)).
Qed.

(** The loop over the frames, for what every frame that does not end it keeps. *)
Lemma on_frames_ind (P : ws -> Prop) (Q : bool * ws -> Prop) now i :
  (forall s, P s -> Q (false, s)) ->
  (forall f s, P s -> P (ws_data_frame now i f s)) ->
  (forall f s, wx_state (ws_at s i) = WsOpen -> P s -> P (ws_send mask_word i f s)) ->
  (forall s, wx_state (ws_at s i) = WsOpen -> P s -> P (ws_count ws_early_close s)) ->
  (forall s, P s -> Q (true, ws_closeStream i s)) ->
  forall fs s, P s -> Q (ws_on_frames mask_word now i fs s).
Proof.
  intros Hnil Hdata Hsend Hearly Hclose fs. induction fs as [|f fs IH]; intros s Hp; cbn [ws_on_frames]; [auto|].
  destruct (opcode f); try exact (IH _ (Hdata f s Hp)).
  - apply Hclose. destruct (wx_state _) eqn:Es; auto.
  - apply IH. destruct (wx_state _) eqn:Es; auto.
  - auto.
Qed.

Lemma wf_frames k now i fs s :
  ws_answered (ws_at s i) -> ws_wf k s ->
  ws_wf k (snd (ws_on_frames mask_word now i fs s)) /\
  ws_answered (ws_at (snd (ws_on_frames mask_word now i fs s)) i).
Proof.
  intros Ha Hw.
  apply (on_frames_ind (fun s => ws_wf k s /\ ws_answered (ws_at s i))
           (fun r => ws_wf k (snd r) /\ ws_answered (ws_at (snd r) i))); try done; clear.
  - intros f s [Hw Ha]. split; [by apply wf_data_frame|]. unfold ws_answered. by rewrite data_frame_state.
  - intros f s Hs [Hw Ha]. pose proof (core_send_open mask_word k i f s Hw (state_is_open _ Hs)) as E.
    split; [by apply (ws_wf_core k s)|]. by rewrite (ws_core_at _ _ i E).
  - intros s Hs [Hw Ha]. split; [by apply wf_count|done].
  - intros s [Hw Ha]. split; [by apply wf_close_answered|]. unfold ws_answered. cbn. by rewrite closed_after_close.
Qed.

Lemma wf_end k i s : ws_answered (ws_at s i) -> ws_wf k s -> ws_wf k (ws_onResponseEnd i s).
Proof.
  intros Ha Hw. unfold ws_onResponseEnd.
  destruct (wx_state _); apply wf_close_answered; auto with wss.
Qed.

Lemma wf_data k now i d e s :
  ws_answered (ws_at s i) -> ws_wf k s -> ws_wf k (ws_onResponseData mask_word now i d e s).
Proof.
  intros Ha Hw. unfold ws_onResponseData. cbn zeta.
  destruct (ws_is_open _); [|destruct e; [by apply wf_end|done]].
  destruct (Decoder_feed _ _) as [[b rest] fs]. set (s1 := ws_update i _ s).
  assert (ws_answered (ws_at s1 i)) as Ha1 by (unfold ws_answered, s1; by rewrite (bytes_state i (fun _ => rest))).
  assert (ws_wf k s1) as Hw1 by (by apply (wf_bytes k i (fun _ => rest) wx_fragments)).
  destruct b.
  - destruct (wf_frames k now i fs s1 Ha1 Hw1) as [Hf Hg].
    destruct (ws_on_frames _ _ _ _ _) as [[] s2]; [done|]. destruct e; [by apply wf_end|done].
  - assert (ws_wf k (ws_closeStream i (ws_count ws_protocol_errors s1))) as Hc
      by (apply wf_close_answered; auto with wss).
    destruct (wx_encoder _); [|done]. rewrite reset_closed by apply closed_after_close. by apply wf_log_reset.
Qed.

Lemma wf_request k now cb s :
  ws_wf k s -> ws_wf k (WebSocketStreamBenchmarkClientImpl_tryStartRequest mask_word now cb s).
Proof.
  intros Hw. unfold WebSocketStreamBenchmarkClientImpl_tryStartRequest. cbn zeta.
  set (s0 := ws_set_next (ws_next_sequence_ s) _ s).
  assert (ws_wf k s0) as Hw0.
  { destruct Hw as [? Hn ? ? ?]. split; cbn; try done. apply Nat.mod_upper_bound. lia. }
  assert (forall n, ws_wf k (ws_refuse n cb s0)) as Hr by (intros n; by apply (ws_wf_core k s0)).
  destruct (wx_state (ws_at s0 _)) eqn:Es; try apply Hr.
  destruct (_ || _) eqn:Eb; [apply Hr|]. apply orb_false_elim in Eb as [_ Eb]. apply Nat.leb_gt in Eb.
  set (i := ws_next_stream_ s) in *. set (s1 := ws_set_next (u64 _) _ s0). set (s2 := ws_update _ _ s1).
  assert (ws_wf k s1) as Hw1 by (by destruct Hw0).
  assert (ws_wf k s2) as Hw2.
  { apply wf_update_same; [done| |done]. intros x Hx [Ho Hi He Hc].
    pose proof (ws_at_lookup s0 i x Hx) as Ea. rewrite Ea in *.
    split; cbn; try done; [change (ws_config s0) with (ws_config s) in Eb; rewrite length_app; cbn; lia|].
    unfold ws_is_open. cbn. by rewrite Es. }
  apply wf_count. eapply ws_wf_core; [|exact Hw2]. apply (core_send_open mask_word k); [done|].
  apply state_is_open. unfold s2. rewrite ws_at_update. change (ws_streams_ s1) with (ws_streams_ s0).
  by rewrite (ws_at_in s0 i ltac:(congruence)).
Qed.

Lemma wf_finish k s : ws_wf k s -> ws_wf k (snd (WebSocketStreamBenchmarkClientImpl_finish mask_word s)).
Proof.
  intros Hw. unfold WebSocketStreamBenchmarkClientImpl_finish. destruct (ws_finished_ s); [done|].
  cbn zeta. set (s0 := ws_set_flags _ _ _ s).
  assert (ws_wf k (foldl (ws_start_close mask_word) s0 (seq 0 (length (ws_streams_ s0))))) as Hw1
    by (apply wf_foldl; unfold s0; auto with wss).
  destruct (_ =? 0)%nat; cbn [snd]; auto with wss.
Qed.

Lemma wf_step s l s' : ws_step mask_word s l s' -> ws_wf 0 s -> ws_wf 0 s'.
Proof.
  intros Hs Hw. destruct Hs as [r enc i s [Ho _]|i s [Ho _]|i h e s Ha|now i d e s Ha|i s Ha|i s Ha|i b s|now cb s
    |b s|s Hn|s Hn|s Hn|s Hn Hf].
  - by apply wf_ready.
  - by apply wf_open_failure.
  - by apply wf_headers.
  - by apply wf_data.
  - by apply wf_end.
  - by apply wf_reset.
  - unfold ws_onWriteBlocked. apply wf_update_same; [done|intros x _ []; by split|]. split_ifs; auto with wss.
  - by apply wf_request.
  - unfold ws_setShouldMeasureLatencies. auto with wss.
  - unfold ws_prepare_end. apply wf_foldl; auto with wss.
  - by apply wf_finish.
  - unfold ws_finish_end. apply wf_foldl; auto with wss.
  - unfold ws_terminate_end. apply wf_foldl; [auto with wss|]. unfold ws_setShouldMeasureLatencies. auto with wss.
Qed.

End Operations.
