(* ===== verification/WebSocketClientLife.v ===== *)
(** * The WebSocket stream benchmark client: executions

    That the event loops [prepare] and [finish] run are left, that [prepare]
    leaves the client well-formed, that sequence numbers are unique on a
    connection, and the theorems about every execution of [WebSocketClient]. *)

From S2P Require Import Prelude Text WebSocket WebSocketClient WebSocketClientProofs.

(** ** The wait loops

    While [prepare] or [finish] runs the event loop, what it waits for is not
    there yet, or an exit was requested since there were [n]. *)

Definition ws_exits (s : ws) : nat := log_exits (ws_log s).

Arguments ws_exits : simpl never.

Definition ws_woken (n : nat) (s : ws) : Prop :=
  (n <= ws_exits s)%nat /\
  match ws_waiting_for_ s with
  | WsOpens => ws_pending_opens_ s <> 0 \/ (n < ws_exits s)%nat
  | WsCloses => ws_openStreams s <> 0%nat \/ (n < ws_exits s)%nat
  | WsNothing => True
  end.

(** The operation keeps what is waited for and takes no request to exit back. *)
Definition ws_keeps (s s' : ws) : Prop :=
  ws_waiting_for_ s' = ws_waiting_for_ s /\ (ws_exits s <= ws_exits s')%nat.

Lemma keeps_trans s1 s2 s3 : ws_keeps s1 s2 -> ws_keeps s2 s3 -> ws_keeps s1 s3.
Proof. intros [? ?] [? ?]. split; [congruence|lia]. Qed.

Lemma exits_complete_loop q i s : ws_exits (ws_complete_loop q i s) = ws_exits s.
Proof. revert s. induction q as [|m q IH]; intros s; cbn; [done|]. by rewrite IH. Qed.

Lemma waiting_core s s' : ws_core s' = ws_core s -> ws_waiting_for_ s' = ws_waiting_for_ s.
Proof. unfold ws_core. by intros [=]. Qed.

Lemma keeps_completeInflight i s : ws_keeps s (ws_completeInflight i s).
Proof.
  split; [apply (waiting_core _ _ (core_completeInflight i s))|].
  unfold ws_completeInflight. by rewrite exits_complete_loop.
Qed.

Lemma keeps_maybeExit s : ws_keeps s (ws_maybeExitWaitLoop s).
Proof.
  unfold ws_maybeExitWaitLoop, ws_keeps, ws_exits.
  destruct (ws_waiting_for_ s) eqn:E; split_ifs; cbn; rewrite ?E; split; done || lia.
Qed.

Lemma keeps_close i s : ws_keeps s (ws_closeStream i s).
Proof.
  unfold ws_closeStream.
  assert (ws_keeps s (ws_maybeExitWaitLoop (ws_completeInflight i (ws_update i wx_close s)))) as Hk.
  { eapply keeps_trans; [|apply keeps_maybeExit]. apply (keeps_completeInflight i (ws_update i wx_close s)). }
  destruct (wx_state _); done.
Qed.

Lemma woken_after_exit_ws n s : (n <= ws_exits s)%nat -> ws_woken n (ws_maybeExitWaitLoop s).
Proof.
  intros Hn. unfold ws_maybeExitWaitLoop, ws_woken, ws_exits in *. destruct (ws_waiting_for_ s) eqn:Ew.
  - by rewrite Ew.
  - destruct (ws_pending_opens_ s =? 0) eqn:Ep; cbn; rewrite Ew; b2p; split; auto; right; lia.
  - destruct (ws_openStreams s =? 0)%nat eqn:Ea; cbn; rewrite Ew; split; auto.
    + right. lia.
    + left. by apply Nat.eqb_neq.
Qed.

(** What the wait loops are about. *)
Lemma ws_woken_same n s s' :
  ws_keeps s s' -> ws_pending_opens_ s' = ws_pending_opens_ s ->
  ws_openStreams s' = ws_openStreams s -> ws_woken n s -> ws_woken n s'.
Proof.
  intros [Ew He] Ep Eo [Hn Hw]. split; [lia|]. rewrite Ew, Ep, Eo.
  destruct (ws_waiting_for_ s); [done|..]; (destruct Hw; [by left|right; lia]).
Qed.

Lemma openStreams_alter i g s :
  (forall x, ws_is_open (g x) = ws_is_open x) -> ws_openStreams (ws_update i g s) = ws_openStreams s.
Proof.
  intros Hg. unfold ws_openStreams. cbn. destruct (ws_streams_ s !! i) as [x|] eqn:Ex; [|by rewrite alter_out].
  pose proof (filter_alter_length ws_is_open g i (ws_streams_ s) x Ex) as Hl. rewrite Hg in Hl. lia.
Qed.

Lemma woken_update_ws n i g s :
  (forall x, ws_is_open (g x) = ws_is_open x) -> ws_woken n s -> ws_woken n (ws_update i g s).
Proof. intros Hg. apply ws_woken_same; [by split|done|by apply openStreams_alter]. Qed.

Lemma woken_core n s s' :
  ws_core s' = ws_core s -> (ws_exits s <= ws_exits s')%nat -> ws_woken n s -> ws_woken n s'.
Proof.
  intros E He. pose proof (waiting_core _ _ E) as Ew. unfold ws_core in E. injection E as E1 E2 E3 E4 E5 E6 E7 E8.
  apply ws_woken_same; [by split|done|]. unfold ws_openStreams. by rewrite E2.
Qed.

Lemma woken_closing n i s :
  wx_state (ws_at s i) <> WsClosed -> (n <= ws_exits s)%nat -> ws_woken n (ws_closeStream i s).
Proof.
  intros Hs Hn. unfold ws_closeStream.
  assert (ws_woken n (ws_maybeExitWaitLoop (ws_completeInflight i (ws_update i wx_close s)))) as Hw.
  { apply woken_after_exit_ws. destruct (keeps_completeInflight i (ws_update i wx_close s)) as [_ Hk].
    change (ws_exits (ws_update i wx_close s)) with (ws_exits s) in Hk. lia. }
  by destruct (wx_state (ws_at s i)).
Qed.

Lemma woken_close_ws n i s : ws_woken n s -> ws_woken n (ws_closeStream i s).
Proof.
  intros Hw. destruct (decide (wx_state (ws_at s i) = WsClosed)) as [E|E].
  - unfold ws_closeStream. by rewrite E.
  - apply woken_closing; [done|]. apply Hw.
Qed.

Lemma woken_count_ws n c s : ws_woken n s -> ws_woken n (ws_count c s).
Proof. done. Qed.

Lemma woken_log_reset n i s : ws_woken n s -> ws_woken n (ws_log_reset i s).
Proof. done. Qed.

Create HintDb waking.
#[export] Hint Resolve woken_close_ws woken_count_ws woken_log_reset : waking.

(** Closing a connection and resetting its stream. *)
Lemma woken_close_reset n i s :
  wx_state (ws_at s i) <> WsClosed -> (n <= ws_exits s)%nat ->
  ws_woken n (ws_resetStream i (ws_closeStream i s)).
Proof.
  intros Hs Hn. rewrite reset_closed by apply closed_after_close. by apply woken_log_reset, woken_closing.
Qed.

Lemma woken_reset_ws n i s : ws_woken n s -> ws_woken n (ws_onStreamReset i s).
Proof.
  intros Hw. unfold ws_onStreamReset. destruct (wx_state (ws_at s i)) eqn:E; [..|done];
    (apply woken_closing; [match goal with |- wx_state ?t <> _ => change t with (ws_at s i) end; congruence|apply Hw]).
Qed.

Lemma woken_end n i s : ws_woken n s -> ws_woken n (ws_onResponseEnd i s).
Proof. intros Hw. unfold ws_onResponseEnd. destruct (wx_state _); auto with waking. Qed.

#[export] Hint Resolve woken_reset_ws woken_end : waking.

(** *** No loop is run *)

Definition ws_idle (n : nat) (s : ws) : Prop := ws_waiting_for_ s = WsNothing /\ (n <= ws_exits s)%nat.

Lemma idle_keeps n s s' : ws_keeps s s' -> ws_idle n s -> ws_idle n s'.
Proof. intros [? ?] [? ?]. split; [congruence|lia]. Qed.

Lemma idle_woken_ws n s : ws_idle n s -> ws_woken n s.
Proof. intros [Hw Hn]. split; [done|]. by rewrite Hw. Qed.

Lemma keeps_foldl (f : ws -> nat -> ws) ls s :
  (forall s i, ws_keeps s (f s i)) -> ws_keeps s (foldl f s ls).
Proof.
  intros Hf. revert s. induction ls as [|i ls IH]; intros s; cbn; [by split|].
  eapply keeps_trans; [apply Hf|apply IH].
Qed.

Lemma keeps_reset i s : ws_keeps s (ws_onStreamReset i s).
Proof.
  unfold ws_onStreamReset. destruct (wx_state _); [..|by split];
    match goal with |- ws_keeps s (ws_closeStream i ?t) => exact (keeps_close i t) end.
Qed.

Lemma keeps_resetStream i s : ws_keeps s (ws_resetStream i s).
Proof. apply (keeps_reset i (ws_log_reset i s)). Qed.

Lemma keeps_give_up s i : ws_keeps s (ws_give_up s i).
Proof.
  unfold ws_give_up. cbn zeta. destruct (wx_state _); try (by split). set (s1 := ws_update i _ _).
  pose proof (keeps_close i s1) as Hc. split_ifs; [|exact Hc..].
  eapply keeps_trans; [exact Hc|apply keeps_resetStream].
Qed.

Lemma keeps_start_close mask s i : ws_keeps s (ws_start_close mask s i).
Proof.
  unfold ws_start_close, ws_send. cbn zeta. destruct (wx_state _); try (by split).
  destruct (wx_encoder _); by split.
Qed.

Lemma keeps_drain s i : ws_keeps s (ws_drain_stream s i).
Proof.
  unfold ws_drain_stream. destruct (ws_is_open _); [|by split].
  apply (keeps_completeInflight i (ws_count ws_drain_incomplete s)).
Qed.

Lemma keeps_terminate s i : ws_keeps s (ws_terminate_stream s i).
Proof.
  unfold ws_terminate_stream. cbn zeta. destruct (bool_decide _ && _ && _); [by split|].
  destruct (bool_decide (_ = WsClosed)); [by split|]. set (s1 := if bool_decide _ then _ else _).
  assert (ws_keeps s s1) as Hs1 by (unfold s1; destruct (bool_decide _); by split). clearbody s1.
  assert (ws_keeps s (ws_completeInflight i (ws_update i wx_close s1))) as Hk
    by (eapply keeps_trans; [exact Hs1|apply (keeps_completeInflight i (ws_update i wx_close s1))]).
  destruct (wx_encoder _); [|done]. eapply keeps_trans; [exact Hk|apply keeps_resetStream].
Qed.

(** ** Sequence numbers *)

(** The numbers outstanding on a connection ascend and have been given out. *)
Definition wx_sequenced (next : Z) (x : WsStream) : Prop :=
  StronglySorted (fun a b => wm_sequence a < wm_sequence b) (wx_inflight x) /\
  Forall (fun m => 0 <= wm_sequence m < next) (wx_inflight x).

Definition ws_sequenced (s : ws) : Prop :=
  0 <= ws_next_sequence_ s /\
  forall i x, ws_streams_ s !! i = Some x -> wx_sequenced (ws_next_sequence_ s) x.

(** The operation gives out no number and makes no message outstanding. *)
Definition ws_shrinks (s s' : ws) : Prop :=
  ws_next_sequence_ s' = ws_next_sequence_ s /\
  forall i x', ws_streams_ s' !! i = Some x' ->
    exists x, ws_streams_ s !! i = Some x /\ sublist (wx_inflight x') (wx_inflight x).

Lemma shrinks_refl s : ws_shrinks s s.
Proof. split; [done|]. intros i x Hx. by exists x. Qed.

Lemma shrinks_trans s1 s2 s3 : ws_shrinks s1 s2 -> ws_shrinks s2 s3 -> ws_shrinks s1 s3.
Proof.
  intros [E1 H1] [E2 H2]. split; [congruence|]. intros i x Hx. destruct (H2 i x Hx) as (y & Hy & Hl).
  destruct (H1 i y Hy) as (z & Hz & Hl'). exists z. split; [done|]. by transitivity (wx_inflight y).
Qed.

Lemma shrinks_core s0 s s' : ws_core s' = ws_core s -> ws_shrinks s0 s -> ws_shrinks s0 s'.
Proof.
  unfold ws_core, ws_shrinks. intros E. injection E as E1 E2 E3 E4 E5 E6 E7 E8. by rewrite E2, E3.
Qed.

Lemma shrinks_update s0 i g s :
  (forall x, ws_streams_ s !! i = Some x -> sublist (wx_inflight (g x)) (wx_inflight x)) ->
  ws_shrinks s0 s -> ws_shrinks s0 (ws_update i g s).
Proof.
  intros Hg Hs. eapply shrinks_trans; [exact Hs|]. split; [done|]. intros j x. cbn. rewrite list_lookup_alter.
  case_decide as E; [subst j|eauto]. destruct (ws_streams_ s !! i) as [y|] eqn:Ey; [|done].
  intros [= <-]. exists y. split; [done|]. by apply Hg.
Qed.

Lemma sequenced_shrinks s s' : ws_shrinks s s' -> ws_sequenced s -> ws_sequenced s'.
Proof.
  intros [En Hs] [H0 Hq]. split; [by rewrite En|]. intros i x Hx. rewrite En.
  destruct (Hs i x Hx) as (y & Hy & Hl). destruct (Hq i y Hy) as [Ho Hf]. split.
  - by eapply StronglySorted_sublist.
  - by eapply Forall_sublist.
Qed.

Create HintDb shrinking.

Lemma shrinks_count s0 n s : ws_shrinks s0 s -> ws_shrinks s0 (ws_count n s).
Proof. done. Qed.

Lemma shrinks_pending s0 d s : ws_shrinks s0 s -> ws_shrinks s0 (ws_add_pending d s).
Proof. done. Qed.

Lemma shrinks_flags s0 a b c s : ws_shrinks s0 s -> ws_shrinks s0 (ws_set_flags a b c s).
Proof. done. Qed.

Lemma shrinks_log s0 v s : ws_shrinks s0 s -> ws_shrinks s0 (ws_set_log v s).
Proof. done. Qed.

Lemma shrinks_same s0 i g s :
  (forall x, wx_inflight (g x) = wx_inflight x) -> ws_shrinks s0 s -> ws_shrinks s0 (ws_update i g s).
Proof. intros Hg. apply shrinks_update. intros x _. by rewrite Hg. Qed.

Lemma shrinks_completeInflight s0 i s : ws_shrinks s0 s -> ws_shrinks s0 (ws_completeInflight i s).
Proof.
  intros Hs. eapply shrinks_core; [apply core_completeInflight|]. apply shrinks_update; [|done].
  intros x _. apply sublist_nil_l.
Qed.

Lemma shrinks_maybeExit s0 s : ws_shrinks s0 s -> ws_shrinks s0 (ws_maybeExitWaitLoop s).
Proof. apply shrinks_core, core_maybeExit. Qed.

#[export] Hint Resolve shrinks_refl shrinks_count shrinks_pending shrinks_flags shrinks_log shrinks_same
  shrinks_completeInflight shrinks_maybeExit : shrinking.

Lemma shrinks_close s0 i s : ws_shrinks s0 s -> ws_shrinks s0 (ws_closeStream i s).
Proof. intros Hs. unfold ws_closeStream. destruct (wx_state _); auto with shrinking. Qed.

#[export] Hint Resolve shrinks_close : shrinking.

Lemma shrinks_reset s0 i s : ws_shrinks s0 s -> ws_shrinks s0 (ws_onStreamReset i s).
Proof. intros Hs. unfold ws_onStreamReset. destruct (wx_state _); auto 6 with shrinking. Qed.

#[export] Hint Resolve shrinks_reset : shrinking.

Lemma shrinks_resetStream s0 i s : ws_shrinks s0 s -> ws_shrinks s0 (ws_resetStream i s).
Proof. intros Hs. unfold ws_resetStream, ws_log_reset. auto with shrinking. Qed.

Lemma shrinks_send s0 mask i f s : ws_shrinks s0 s -> ws_shrinks s0 (ws_send mask i f s).
Proof. intros Hs. unfold ws_send. by split_ifs. Qed.

#[export] Hint Resolve shrinks_resetStream shrinks_send : shrinking.

Lemma shrinks_end s0 i s : ws_shrinks s0 s -> ws_shrinks s0 (ws_onResponseEnd i s).
Proof. intros Hs. unfold ws_onResponseEnd. destruct (wx_state _); auto with shrinking. Qed.

Lemma shrinks_give_up s0 s i : ws_shrinks s0 s -> ws_shrinks s0 (ws_give_up s i).
Proof.
  intros Hs. unfold ws_give_up, ws_log_cancel. cbn zeta. destruct (wx_state _); [|done..].
  split_ifs; auto 8 with shrinking.
Qed.

Lemma shrinks_start_close s0 mask s i : ws_shrinks s0 s -> ws_shrinks s0 (ws_start_close mask s i).
Proof.
  intros Hs. unfold ws_start_close. cbn zeta. destruct (wx_state _); try done.
  destruct (wx_encoder _); auto with shrinking.
Qed.

Lemma shrinks_drain s0 s i : ws_shrinks s0 s -> ws_shrinks s0 (ws_drain_stream s i).
Proof. intros Hs. unfold ws_drain_stream. destruct (ws_is_open _); auto with shrinking. Qed.

Lemma shrinks_terminate s0 s i : ws_shrinks s0 s -> ws_shrinks s0 (ws_terminate_stream s i).
Proof.
  intros Hs. unfold ws_terminate_stream, ws_log_cancel. cbn zeta. split_ifs; auto 8 with shrinking.
Qed.

#[export] Hint Resolve shrinks_end shrinks_give_up shrinks_start_close shrinks_drain shrinks_terminate : shrinking.

Lemma shrinks_foldl s0 (f : ws -> nat -> ws) ls s :
  (forall s i, ws_shrinks s0 s -> ws_shrinks s0 (f s i)) -> ws_shrinks s0 s -> ws_shrinks s0 (foldl f s ls).
Proof. intros Hf. revert s. induction ls as [|i ls IH]; intros s Hs; cbn; auto. Qed.

Section Executions.
Context {H : Type} `{EnvoyHeaders H} `{AbslMatch} `{HandshakeKeys} `{AbslStrings}.
Context (mask_word : nat -> Z).

Lemma shrinks_ready s0 (r : H) enc i s : ws_shrinks s0 s -> ws_shrinks s0 (ws_onStreamReady r enc i s).
Proof. intros Hs. unfold ws_onStreamReady. cbn zeta. destruct (enc _); auto 6 with shrinking. Qed.

Lemma shrinks_open_failure s0 i s : ws_shrinks s0 s -> ws_shrinks s0 (ws_onStreamOpenFailure i s).
Proof. intros Hs. unfold ws_onStreamOpenFailure. auto 6 with shrinking. Qed.

Lemma shrinks_headers s0 i (h : H) e s : ws_shrinks s0 s -> ws_shrinks s0 (ws_onResponseHeaders i h e s).
Proof.
  intros Hs. unfold ws_onResponseHeaders. cbn zeta. destruct (wx_state _); try done.
  split_ifs; auto 8 with shrinking.
Qed.

Lemma shrinks_data_frame s0 now i f s : ws_shrinks s0 s -> ws_shrinks s0 (ws_data_frame now i f s).
Proof.
  intros Hs. unfold ws_data_frame. cbn zeta. set (s1 := ws_update i _ s).
  assert (ws_shrinks s0 s1) as Hs1 by (unfold s1; auto with shrinking). clearbody s1.
  destruct (fin f); [|done]. apply shrinks_same; [done|].
  destruct (core_message now i (wx_fragments (ws_at s i) ++ payload f) s1) as (q & Hq & E).
  eapply shrinks_core; [exact E|]. apply shrinks_update; [|done].
  intros x Hx. by rewrite <- (ws_at_lookup s1 i x Hx).
Qed.

Lemma shrinks_data s0 now i d e s :
  ws_shrinks s0 s -> ws_shrinks s0 (ws_onResponseData mask_word now i d e s).
Proof.
  intros Hs. unfold ws_onResponseData. cbn zeta. destruct (ws_is_open _); [|destruct e; auto with shrinking].
  destruct (Decoder_feed _ _) as [[[] rest] fs]; [|destruct (wx_encoder _); auto 8 with shrinking].
  set (s1 := ws_update i _ s). assert (ws_shrinks s0 s1) as Hs1 by (unfold s1; auto with shrinking).
  assert (ws_shrinks s0 (snd (ws_on_frames mask_word now i fs s1))) as Hf.
  { apply (on_frames_ind mask_word (ws_shrinks s0) (fun r => ws_shrinks s0 (snd r)));
      cbn [snd]; auto using shrinks_data_frame with shrinking. }
  destruct (ws_on_frames _ _ _ _ _) as [[] s2]; [|destruct e]; cbn in Hf; auto with shrinking.
Qed.

(** A message sent gets the next number. *)
Lemma sequenced_request now cb s :
  ws_next_sequence_ s < UINT64_MAX -> ws_sequenced s ->
  let s' := WebSocketStreamBenchmarkClientImpl_tryStartRequest mask_word now cb s in
  ws_sequenced s' /\ ws_next_sequence_ s' <= ws_next_sequence_ s + 1.
Proof.
  intros Hn Hq. cbn zeta. unfold WebSocketStreamBenchmarkClientImpl_tryStartRequest. cbn zeta.
  set (s0 := ws_set_next (ws_next_sequence_ s) _ s). assert (ws_sequenced s0) as Hq0 by done.
  destruct (wx_state (ws_at s0 _)) eqn:Es; try (split; [done|cbn; lia]).
  destruct (_ || _); [split; [done|cbn; lia]|]. destruct Hq as [Hz Hq].
  set (i := ws_next_stream_ s) in *.
  assert (u64 (ws_next_sequence_ s0 + 1) = ws_next_sequence_ s + 1) as ->
    by (apply u64_small; unfold in_u64, UINT64_MAX in *; cbn; lia).
  set (s1 := ws_set_next (ws_next_sequence_ s + 1) _ s0). set (s2 := ws_update i _ s1).
  assert (forall f, ws_streams_ (ws_send mask_word i f s2) = ws_streams_ s2 /\
                    ws_next_sequence_ (ws_send mask_word i f s2) = ws_next_sequence_ s + 1) as Hsend
    by (intros f; unfold ws_send; by destruct (wx_encoder _)).
  set (f := mkFrame _ _ _). destruct (Hsend f) as [E1 E2]. unfold ws_sequenced.
  cbn [ws_count ws_streams_ ws_next_sequence_]. rewrite E1, E2. split; [split; [lia|]|lia].
  intros j x Hx. assert (forall y, wx_sequenced (ws_next_sequence_ s) y -> wx_sequenced (ws_next_sequence_ s + 1) y) as Hup.
  { intros y [Ho Hf]. split; [done|]. eapply Forall_impl; [exact Hf|]. cbn. intros; lia. }
  cbn in Hx. rewrite list_lookup_alter in Hx. case_decide as Ej; [subst j|by apply Hup, (Hq j)].
  destruct (ws_streams_ s !! i) as [y|] eqn:Ey; [|done]. injection Hx as <-.
  change (ws_at s0 i) with (ws_at s i). rewrite (ws_at_lookup s i y Ey).
  destruct (Hq i y Ey) as [Ho Hf]. split; cbn.
  - clear -Ho Hf. induction Ho as [|m l Hl IH Hm]; cbn; [by repeat constructor|].
    apply Forall_cons in Hf as [[_ Hm0] Hf]. constructor; [by apply IH|]. apply Forall_app. split; [done|].
    constructor; [done|constructor].
  - apply Forall_app. split; [|constructor; [cbn; lia|constructor]].
    eapply Forall_impl; [exact Hf|]. cbn. intros; lia.
Qed.

(** A step that starts no request. *)
Lemma shrinks_step s s' : ws_step mask_word s [] s' -> ws_shrinks s s'.
Proof.
  intros Hs. remember [] as l eqn:El. destruct Hs; try discriminate El; auto with shrinking.
  - apply shrinks_ready, shrinks_refl.
  - apply shrinks_open_failure, shrinks_refl.
  - apply shrinks_headers, shrinks_refl.
  - apply shrinks_data, shrinks_refl.
  - unfold ws_onWriteBlocked. split_ifs; auto with shrinking.
  - unfold ws_setShouldMeasureLatencies. auto with shrinking.
  - unfold ws_prepare_end, ws_wait. apply shrinks_foldl; auto with shrinking.
  - unfold WebSocketStreamBenchmarkClientImpl_finish. destruct (ws_finished_ s); [apply shrinks_refl|].
    cbn zeta. destruct (_ =? 0)%nat; cbn [snd]; unfold ws_wait; try apply shrinks_flags;
      apply shrinks_foldl; auto with shrinking.
  - unfold ws_finish_end, ws_wait. apply shrinks_foldl; auto with shrinking.
  - unfold ws_terminate_end, ws_setShouldMeasureLatencies. apply shrinks_foldl; auto with shrinking.
Qed.

Lemma sequenced_step s l s' :
  ws_step mask_word s l s' -> ws_next_sequence_ s + Z.of_nat (length l) <= UINT64_MAX -> ws_sequenced s ->
  ws_sequenced s' /\ ws_next_sequence_ s' <= ws_next_sequence_ s + Z.of_nat (length l).
Proof.
  intros Hs Hn Hq.
  assert (l = [] \/ exists now cb, l = [cb] /\
            s' = WebSocketStreamBenchmarkClientImpl_tryStartRequest mask_word now cb s) as [-> | (now & cb & -> & ->)]
    by (destruct Hs; eauto).
  - apply shrinks_step in Hs as Hk. split; [by eapply sequenced_shrinks|]. destruct Hk as [-> _]. cbn. lia.
  - apply sequenced_request; [cbn in Hn; lia|done].
Qed.

(** *** Waiting *)

Lemma woken_data_frame n now i f s : ws_woken n s -> ws_woken n (ws_data_frame now i f s).
Proof.
  intros Hw. unfold ws_data_frame. cbn zeta. set (s1 := ws_update i _ s).
  assert (ws_woken n s1) as Hw1 by (by apply woken_update_ws). clearbody s1.
  destruct (fin f); [|done]. apply woken_update_ws; [done|].
  set (p := wx_fragments (ws_at s i) ++ payload f).
  destruct (core_message now i p s1) as (q & _ & E).
  apply (woken_core n (ws_update i (fun x => wx_set_inflight q x) s1)); [done| |by apply woken_update_ws].
  change (ws_exits (ws_update i _ s1)) with (ws_exits s1). unfold ws_onMessage, ws_exits.
  destruct (_ <? _)%nat; [done|]. destruct (SimpleHexAtoi _); [|done]. destruct (take_message _ _) as [[]|]; [|done].
  cbn zeta. by destruct (ws_measure_latencies_ _).
Qed.

Lemma woken_send n i f s : ws_woken n s -> ws_woken n (ws_send mask_word i f s).
Proof. intros Hw. unfold ws_send. by destruct (wx_encoder _). Qed.

Lemma woken_data n now i d e s : ws_woken n s -> ws_woken n (ws_onResponseData mask_word now i d e s).
Proof.
  intros Hw. unfold ws_onResponseData. cbn zeta. destruct (ws_is_open _); [|destruct e; auto with waking].
  destruct (Decoder_feed _ _) as [[b rest] fs]. set (s1 := ws_update i _ s).
  assert (ws_woken n s1) as Hw1 by (by apply woken_update_ws). destruct b.
  - assert (ws_woken n (snd (ws_on_frames mask_word now i fs s1))) as Hf.
    { apply (on_frames_ind mask_word (ws_woken n) (fun r => ws_woken n (snd r)));
        cbn [snd]; auto using woken_data_frame, woken_send with waking. }
    destruct (ws_on_frames _ _ _ _ _) as [[] s2]; [done|]. destruct e; cbn in Hf; auto with waking.
  - destruct (wx_encoder _); unfold ws_resetStream; auto 6 with waking.
Qed.

Lemma woken_step_ws n s l s' : ws_step mask_word s l s' -> ws_woken n s -> ws_woken n s'.
Proof.
  intros Hs Hw. pose proof (proj1 Hw) as Hn.
  destruct Hs as [r enc i s [Ho _]|i s [Ho _]|i h e s Ha|now i d e s Ha|i s Ha|i s Ha|i b s|now cb s
    |b s|s Hi|s Hi|s Hi|s Hi Hf]; auto with waking.
  - unfold ws_onStreamReady. cbn zeta. set (s1 := ws_update i _ s).
    destruct (enc _); [by apply woken_update_ws|]. apply woken_closing; [|done].
    change (wx_state (ws_at s1 i) <> WsClosed). unfold s1. rewrite ws_at_update.
    rewrite (ws_at_in s i) by congruence. cbn. congruence.
  - by apply woken_after_exit_ws.
  - unfold ws_onResponseHeaders. cbn zeta. destruct (wx_state (ws_at s i)) eqn:Es; try done.
    destruct (_ || e); [|by apply woken_after_exit_ws].
    set (s1 := ws_count _ _). assert (wx_state (ws_at s1 i) <> WsClosed) as Hs1
      by (change (wx_state (ws_at s i) <> WsClosed); congruence).
    destruct (_ && _); [by apply woken_close_reset|by apply woken_closing].
  - by apply woken_data.
  - unfold ws_onWriteBlocked. apply woken_update_ws; [done|]. by destruct (_ && _).
  - unfold WebSocketStreamBenchmarkClientImpl_tryStartRequest. cbn zeta.
    destruct (wx_state _); try done. destruct (_ || _); [done|].
    apply woken_count_ws, woken_send. by apply woken_update_ws.
  - apply idle_woken_ws. eapply idle_keeps; [apply keeps_foldl, keeps_give_up|]. by split.
  - unfold WebSocketStreamBenchmarkClientImpl_finish. destruct (ws_finished_ s); [done|]. cbn zeta.
    set (s0 := ws_set_flags _ _ _ s).
    pose proof (keeps_foldl (ws_start_close mask_word) (seq 0 (length (ws_streams_ s0))) s0
                  (keeps_start_close mask_word)) as [Ew Hx].
    destruct (_ =? 0)%nat eqn:Eo; cbn [snd].
    + apply idle_woken_ws. split; [by rewrite Ew|]. by transitivity (ws_exits s0).
    + split; [by transitivity (ws_exits s0)|]. left. by apply Nat.eqb_neq.
  - apply idle_woken_ws. eapply idle_keeps; [apply keeps_foldl, keeps_drain|]. by split.
  - apply idle_woken_ws. eapply idle_keeps; [apply keeps_foldl, keeps_terminate|]. by split.
Qed.

(** *** Preparing *)

Lemma close_other i j s : j <> i -> ws_streams_ (ws_closeStream i s) !! j = ws_streams_ s !! j.
Proof.
  intros Hj. destruct (decide (wx_state (ws_at s i) = WsClosed)) as [E|E].
  - unfold ws_closeStream. by rewrite E.
  - pose proof (core_close i s E) as Hc. unfold ws_core in Hc. injection Hc as _ -> _ _ _ _ _ _. cbn.
    by rewrite list_lookup_alter_ne.
Qed.

Lemma ready_other (r : H) enc i j s :
  j <> i -> ws_streams_ (ws_onStreamReady r enc i s) !! j = ws_streams_ s !! j.
Proof.
  intros Hj. unfold ws_onStreamReady. cbn zeta.
  destruct (enc _); rewrite ?close_other by done; cbn; by rewrite list_lookup_alter_ne.
Qed.

Lemma keeps_ready (r : H) enc i s : ws_keeps s (ws_onStreamReady r enc i s).
Proof.
  unfold ws_onStreamReady. cbn zeta. set (s1 := ws_update i _ s).
  destruct (enc _); [by split|]. apply (keeps_close i (ws_add_pending (-1) (ws_count ws_open_failures s1))).
Qed.

Lemma failure_other i j s :
  j <> i -> ws_streams_ (ws_onStreamOpenFailure i s) !! j = ws_streams_ s !! j.
Proof.
  intros Hj. unfold ws_onStreamOpenFailure. set (s1 := ws_add_pending _ _).
  pose proof (core_maybeExit s1) as Hc. unfold ws_core in Hc. injection Hc as _ -> _ _ _ _ _ _.
  cbn. by rewrite list_lookup_alter_ne.
Qed.

Lemma openStream_effect_ws (r : H) p i k s :
  ws_streams_ s !! i = Some new_ws_stream -> ws_wf (k + 1) s ->
  let s' := ws_openStream r p i s in
  ws_wf k s' /\ ws_keeps s s' /\ (forall j, j <> i -> ws_streams_ s' !! j = ws_streams_ s !! j).
Proof.
  intros Hi Hw. cbn zeta. unfold ws_openStream. destruct p as [[[w0 w1] a]|].
  2: { split; [|split; [by split|]]; [|intros j Hj; cbn; by rewrite list_lookup_alter_ne].
       apply wf_count, wf_update.
       - intros x Hx _. rewrite Hi in Hx. injection Hx as <-. split; cbn; done || lia.
       - by rewrite ws_at_update, (ws_at_lookup s i _ Hi), Hi, Z.sub_0_r. }
  cbn zeta. set (s1 := ws_add_pending 1 _).
  assert (ws_wf k s1) as Hw1 by (apply wf_pending, wf_update_same; [done|intros x _ []; by split|done]).
  assert (wx_state (ws_at s1 i) = WsOpening) as Hs1.
  { change (ws_at s1 i) with (ws_at (ws_update i (wx_set_key (newKey w0 w1)) s) i).
    by rewrite ws_at_update, Hi. }
  assert (forall j, j <> i -> ws_streams_ s1 !! j = ws_streams_ s !! j) as Ho1
    by (intros j Hj; cbn; by rewrite list_lookup_alter_ne).
  assert (ws_keeps s s1) as Hk1 by (by split). clearbody s1.
  set (s2 := match a with WsReadyNow _ => _ | WsFailedNow => _ | WsLater => _ end).
  assert (ws_wf k s2 /\ ws_keeps s1 s2 /\ (forall j, j <> i -> ws_streams_ s2 !! j = ws_streams_ s1 !! j))
    as (Hw2 & Hk2 & Ho2).
  { unfold s2. destruct a as [enc| |].
    - split_and!; [by apply wf_ready|apply keeps_ready|intros j; apply ready_other].
    - split_and!; [by apply wf_open_failure| |intros j; apply failure_other].
      unfold ws_onStreamOpenFailure. set (s3 := ws_add_pending _ _). apply (keeps_maybeExit s3).
    - split_and!; [done|by split|done]. }
  clearbody s2.
  assert (ws_keeps s s2 /\ forall j, j <> i -> ws_streams_ s2 !! j = ws_streams_ s !! j) as [Hk Ho].
  { split; [by eapply keeps_trans|]. intros j Hj. by rewrite Ho2, Ho1. }
  destruct (wx_state (ws_at s2 i)) eqn:Es; try done. destruct (wx_encoder (ws_at s2 i)) eqn:Ee; [done|].
  split_and!; [|done|intros j Hj; cbn; rewrite list_lookup_alter_ne; auto].
  apply wf_update_same; [done| |done]. intros x Hx [? ? ? ?]. rewrite (ws_at_lookup s2 i x Hx) in Es, Ee.
  by split; cbn.
Qed.

Lemma open_streams_wf_ws (r : H) pool todo k s :
  NoDup todo -> (forall i, i ∈ todo -> ws_streams_ s !! i = Some new_ws_stream) ->
  ws_wf (k + Z.of_nat (length todo)) s ->
  ws_wf k (ws_open_streams r pool todo s) /\ ws_keeps s (ws_open_streams r pool todo s).
Proof.
  intros Hnd. revert s. induction Hnd as [|i todo Hni Hnd IH]; intros s Hnew Hw; cbn [ws_open_streams].
  { rewrite Z.add_0_r in Hw. split; [done|by split]. }
  assert (ws_wf (k + Z.of_nat (length todo) + 1) s) as Hw1
    by (replace (k + _ + 1) with (k + Z.of_nat (length (i :: todo))) by (cbn; lia); done).
  destruct (openStream_effect_ws r (pool i) i _ s (Hnew i ltac:(by left)) Hw1) as (Hw2 & Hk & Ho).
  destruct (IH (ws_openStream r (pool i) i s)) as [Hw3 Hk3]; [|done|].
  - intros j Hj. rewrite Ho by (intros ->; done). apply Hnew. by right.
  - split; [done|]. by eapply keeps_trans.
Qed.

Lemma filter_replicate_all {A} (p : A -> bool) n x :
  p x = true -> List.filter p (replicate n x) = replicate n x.
Proof. intros Hp. induction n as [|n IH]; cbn; [done|]. by rewrite Hp, IH. Qed.

Lemma prepared_ws cfg r pool s0 s :
  WebSocketStreamBenchmarkClientImpl_new cfg = Ok s0 ->
  WebSocketStreamBenchmarkClientImpl_prepare (Some r) pool s0 = Ok s ->
  ws_wf 0 s /\ ws_books [] s /\ ws_woken (ws_exits s) s.
Proof.
  unfold WebSocketStreamBenchmarkClientImpl_new. destruct (ws_stream_count_ cfg =? 0)%nat eqn:Ec; [done|].
  destruct (ws_max_inflight_per_stream_ cfg =? 0)%nat; [done|]. intros [= <-] Hp. apply Nat.eqb_neq in Ec.
  destruct r as [r body]. cbn [WebSocketStreamBenchmarkClientImpl_prepare] in Hp. injection Hp as <-.
  set (s1 := ws_set_message body _).
  destruct (open_streams_wf_ws r pool (seq 0 (ws_stream_count_ cfg)) 0 s1) as [Hw Hk].
  - apply NoDup_seq.
  - intros i Hi%elem_of_seq. apply lookup_replicate. split; [done|lia].
  - rewrite length_seq. split; cbn; try done; [by rewrite length_replicate|lia| |].
    + intros i x Hx%lookup_replicate. destruct Hx as [-> _]. split; cbn; done || lia.
    + by rewrite filter_replicate_all, length_replicate by done.
  - cbn [ws_config s1].
    assert (ws_books [] (ws_open_streams r pool (seq 0 (ws_stream_count_ cfg)) s1)) as Hb.
    { assert (ws_books [] s1) as Hb1.
      { assert (ws_outstanding s1 = []) as E by (unfold ws_outstanding; cbn; clear; by induction (ws_stream_count_ cfg)).
        split; rewrite ?E; done. }
      revert Hb1. clear Hw Hk. generalize (seq 0 (ws_stream_count_ cfg)). intros todo. clearbody s1. revert s1.
      induction todo as [|i todo IH]; intros s1 Hb; cbn; [done|]. by apply IH, wsb_openStream. }
    change (ws_config (ws_set_message _ _)) with cfg.
    set (s2 := ws_open_streams _ _ _ _) in *. clearbody s2.
    destruct (ws_pending_opens_ s2 =? 0) eqn:Ep; b2p.
    + split; [done|]. split; [done|]. split; [done|]. by rewrite (proj1 Hk).
    + split; [by apply wf_wait|]. split; [by apply wsb_wait|]. split; [done|]. by left.
Qed.

Lemma open_streams_sequences (r : H) pool todo s0 s :
  ws_shrinks s0 s -> ws_shrinks s0 (ws_open_streams r pool todo s).
Proof.
  revert s. induction todo as [|i todo IH]; intros s Hs; cbn; [done|]. apply IH. unfold ws_openStream.
  destruct (pool i) as [[[w0 w1] a]|]; cbn zeta; [|auto with shrinking]. set (s1 := ws_add_pending 1 _).
  assert (ws_shrinks s0 s1) as Hs1 by (unfold s1; auto with shrinking). clearbody s1.
  set (s2 := match a with WsReadyNow _ => _ | WsFailedNow => _ | WsLater => _ end).
  assert (ws_shrinks s0 s2) as Hs2 by (unfold s2; destruct a; auto using shrinks_ready, shrinks_open_failure).
  clearbody s2. destruct (wx_state _); try done. destruct (wx_encoder _); auto with shrinking.
Qed.

Lemma reachable_ws cfg started s :
  ws_reachable mask_word cfg started s -> ws_wf 0 s /\ ws_books started s.
Proof.
  induction 1 as [r pool s0 s Hn Hp|started s l s' Hr [Hw Hb] Hs].
  - destruct (prepared_ws cfg r pool s0 s Hn Hp) as (? & ? & _). done.
  - split; [by eapply wf_step|]. eapply wsb_step; [|exact Hs|exact Hb].
    destruct Hw as [E Hn _ _ _]. by rewrite E.
Qed.

Lemma reachable_sequenced cfg started s :
  ws_reachable mask_word cfg started s -> Z.of_nat (length started) <= UINT64_MAX ->
  ws_sequenced s /\ ws_next_sequence_ s <= Z.of_nat (length started).
Proof.
  induction 1 as [r pool s0 s Hn Hp|started s l s' Hr IH Hs]; intros Hl.
  - revert Hn Hp. unfold WebSocketStreamBenchmarkClientImpl_new. destruct (_ =? 0)%nat; [done|].
    destruct (_ =? 0)%nat; [done|]. intros [= <-] Hp. destruct r as [r body].
    cbn [WebSocketStreamBenchmarkClientImpl_prepare] in Hp. injection Hp as <-. set (s1 := ws_set_message body _).
    assert (ws_shrinks s1 (ws_open_streams r pool (seq 0 (ws_stream_count_ (ws_config s1))) s1)) as Hk
      by apply open_streams_sequences, shrinks_refl.
    set (s2 := ws_open_streams _ _ _ _) in *. clearbody s2.
    assert (ws_sequenced s2 /\ ws_next_sequence_ s2 <= 0) as Hs2.
    { split; [|destruct Hk as [-> _]; done]. eapply sequenced_shrinks; [exact Hk|]. split; [done|].
      intros i x [-> _]%lookup_replicate. repeat constructor. }
    by destruct (_ =? 0).
  - rewrite length_app in *. destruct (IH ltac:(lia)) as [Hq Hn].
    destruct (sequenced_step s l s' Hs ltac:(lia) Hq). split; [done|lia].
Qed.

End Executions.

(** ** Sweeps

    [prepare], [finish] and [terminate] end with a loop over the connections. *)

(** The operation changes the connection of the index only. *)
Definition ws_only (i : nat) (s s' : ws) : Prop :=
  length (ws_streams_ s') = length (ws_streams_ s) /\
  forall j, j <> i -> ws_streams_ s' !! j = ws_streams_ s !! j.

Lemma only_trans i s1 s2 s3 : ws_only i s1 s2 -> ws_only i s2 s3 -> ws_only i s1 s3.
Proof. intros [E1 H1] [E2 H2]. split; [congruence|]. intros j Hj. by rewrite H2, H1. Qed.

Lemma only_core i g s s' : ws_core s' = ws_core (ws_update i g s) -> ws_only i s s'.
Proof.
  unfold ws_core. intros E. injection E as _ E _ _ _ _ _ _. unfold ws_only. rewrite E. cbn.
  split; [by rewrite length_alter|]. intros j Hj. by rewrite list_lookup_alter_ne.
Qed.

Lemma only_close i s : ws_only i s (ws_closeStream i s).
Proof.
  destruct (decide (wx_state (ws_at s i) = WsClosed)) as [E|E].
  - unfold ws_closeStream. by rewrite E.
  - by eapply only_core, core_close.
Qed.

Lemma only_update i g s : ws_only i s (ws_update i g s).
Proof. by eapply only_core. Qed.

(** A loop over all connections makes of each what a turn makes of it. *)
Lemma sweep_settles (I : ws -> Prop) (P : WsStream -> Prop) (f : ws -> nat -> ws) s :
  (forall s i, I s -> I (f s i)) -> (forall s i, I s -> ws_only i s (f s i)) ->
  (forall s i x, I s -> ws_streams_ (f s i) !! i = Some x -> P x) ->
  I s -> forall j x, ws_streams_ (foldl f s (seq 0 (length (ws_streams_ s)))) !! j = Some x -> P x.
Proof.
  intros HI Ho HP Hs.
  assert (forall ls s, I s ->
            length (ws_streams_ (foldl f s ls)) = length (ws_streams_ s) /\
            forall j x, ws_streams_ (foldl f s ls) !! j = Some x ->
              (j ∈ ls -> P x) /\ (j ∉ ls -> ws_streams_ s !! j = Some x)) as Hl.
  { clear s Hs. intros ls. induction ls as [|i ls IH]; intros s Hs; cbn [foldl].
    { split; [done|]. intros j x Hx. split; [by intros ?%elem_of_nil|done]. }
    destruct (IH (f s i) (HI s i Hs)) as [El Hx]. destruct (Ho s i Hs) as [Ei Hj]. split; [congruence|].
    intros j x Hjx. destruct (Hx j x Hjx) as [H1 H2]. split.
    - intros Hin. destruct (decide (j ∈ ls)) as [Hin'|Hin']; [by apply H1|].
      apply elem_of_cons in Hin as [-> | Hin]; [|done]. by apply (HP s i x Hs), H2.
    - intros [Hne Hin]%not_elem_of_cons. rewrite <- Hj by done. by apply H2. }
  intros j x Hx. destruct (Hl (seq 0 (length (ws_streams_ s))) s Hs) as [El Hj].
  apply (Hj j x Hx). apply elem_of_seq. apply lookup_lt_Some in Hx. lia.
Qed.

Lemma give_up_settles k s i :
  ws_wf k s -> ws_only i s (ws_give_up s i) /\ wx_state (ws_at (ws_give_up s i) i) <> WsOpening.
Proof.
  intros Hw. unfold ws_give_up. cbn zeta. destruct (wx_state (ws_at s i)) eqn:Es; try (split; [done|congruence]).
  set (s1 := ws_update i _ _).
  assert (ws_only i s s1) as H1 by (eapply only_trans; [|apply only_update]; by split). clearbody s1.
  assert (ws_only i s (ws_closeStream i s1)) as H2 by (eapply only_trans; [exact H1|apply only_close]).
  pose proof (closed_after_close i s1) as Hc.
  destruct (wx_encoder _); [rewrite reset_closed by done|destruct (wx_cancellable _)];
    (split; [exact H2|]); match goal with |- wx_state ?t <> _ =>
      change t with (ws_at (ws_closeStream i s1) i) end; congruence.
Qed.

Lemma terminate_settles k s i :
  ws_wf k s -> ws_only i s (ws_terminate_stream s i) /\ wx_state (ws_at (ws_terminate_stream s i) i) = WsClosed.
Proof.
  intros Hw. unfold ws_terminate_stream. cbn zeta.
  destruct (bool_decide _ && _ && _).
  { split; [eapply only_trans; [|apply only_update]; by split|].
    match goal with |- wx_state (ws_at (ws_add_pending _ ?t) i) = _ =>
      change (wx_state (ws_at t i) = WsClosed) end.
    rewrite ws_at_update. by destruct (ws_streams_ _ !! i). }
  destruct (bool_decide (_ = WsClosed)) eqn:Es; [by apply bool_decide_eq_true in Es|].
  set (s1 := if bool_decide _ then _ else _).
  assert (ws_only i s s1) as H1 by (unfold s1; clear Es; destruct (bool_decide _); by split). clearbody s1.
  set (s2 := ws_completeInflight i (ws_update i wx_close s1)).
  assert (ws_core s2 = ws_core (ws_update i wx_closed s1)) as E2
    by (unfold s2; rewrite core_completeInflight; by eapply core_update_update).
  assert (ws_only i s s2) as H2 by (eapply only_trans; [exact H1|]; by eapply only_core).
  assert (wx_state (ws_at s2 i) = WsClosed) as Hs2
    by (rewrite (ws_core_at _ _ i E2), ws_at_update; by destruct (ws_streams_ s1 !! i)).
  clearbody s2. destruct (wx_encoder _); [rewrite reset_closed by done|]; by split.
Qed.

Lemma drain_settles k s i x :
  ws_wf k s -> ws_only i s (ws_drain_stream s i) /\
  (ws_streams_ (ws_drain_stream s i) !! i = Some x -> wx_inflight x = []).
Proof.
  intros Hw. unfold ws_drain_stream. destruct (ws_is_open (ws_at s i)) eqn:Eo.
  - pose proof (core_completeInflight i (ws_count ws_drain_incomplete s)) as Hc.
    split; [by eapply only_core in Hc|]. unfold ws_core in Hc. injection Hc as _ -> _ _ _ _ _ _. cbn.
    rewrite list_lookup_alter_eq. destruct (ws_streams_ s !! i); [|done]. by intros [= <-].
  - split; [done|]. intros Hx. apply (wo_idle _ x (ww_streams k s Hw i x Hx)). by rewrite <- (ws_at_lookup s i x Hx).
Qed.

Lemma none_outstanding s :
  (forall i x, ws_streams_ s !! i = Some x -> wx_inflight x = []) -> ws_outstanding s = [].
Proof.
  intros Hx. apply elem_of_nil_inv. intros c (x & Hc & [i Hi]%list_elem_of_lookup)%list_elem_of_bind.
  rewrite (Hx i x Hi) in Hc. by apply elem_of_nil in Hc.
Qed.

Lemma finish_end_settles_ws s : ws_wf 0 s -> ws_outstanding (ws_finish_end s) = [].
Proof.
  intros Hw. apply none_outstanding.
  apply (sweep_settles (ws_wf 0) (fun x => wx_inflight x = []) ws_drain_stream (ws_wait WsNothing s));
    auto with wss.
  - intros s1 i Hw1. by apply (drain_settles 0 s1 i inhabitant).
  - intros s1 i x Hw1. by apply (drain_settles 0).
Qed.

Lemma finish_returns_settled_ws mask s :
  ws_wf 0 s -> ws_finished_ s = false -> fst (WebSocketStreamBenchmarkClientImpl_finish mask s) = false ->
  ws_outstanding (snd (WebSocketStreamBenchmarkClientImpl_finish mask s)) = [].
Proof.
  intros Hw Hf. pose proof (wf_finish mask 0 s Hw) as Hw'. revert Hw'.
  unfold WebSocketStreamBenchmarkClientImpl_finish. rewrite Hf. cbn zeta.
  set (s1 := foldl _ _ _). destruct (ws_openStreams s1 =? 0)%nat eqn:Eo; cbn [fst snd]; [|done].
  intros Hw1 _. apply none_outstanding. intros i x Hx. apply (wo_idle _ x (ww_streams 0 s1 Hw1 i x Hx)).
  apply Nat.eqb_eq, length_zero_iff_nil in Eo. destruct (ws_is_open x) eqn:Ex; [|done].
  assert (x ∈ List.filter ws_is_open (ws_streams_ s1)) as Hin.
  { apply list_elem_of_In, filter_In. split; [|done]. apply list_elem_of_In. by apply list_elem_of_lookup_2 in Hx. }
  rewrite Eo in Hin. by apply elem_of_nil in Hin.
Qed.

(** After [prepare] no connection is opening. *)
Lemma prepare_end_settles s :
  ws_wf 0 s -> forall i x, ws_streams_ (ws_prepare_end s) !! i = Some x -> wx_state x <> WsOpening.
Proof.
  intros Hw. unfold ws_prepare_end. rewrite <- (ww_count 0 s Hw).
  apply (sweep_settles (ws_wf 0) (fun x => wx_state x <> WsOpening) ws_give_up (ws_wait WsNothing s));
    auto with wss.
  - intros s1 i Hw1. by apply (give_up_settles 0).
  - intros s1 i x Hw1 Hx. rewrite <- (ws_at_lookup _ i x Hx). by apply (give_up_settles 0).
Qed.

Lemma terminate_end_settles s :
  ws_wf 0 s -> forall i x, ws_streams_ (ws_terminate_end s) !! i = Some x -> wx_state x = WsClosed.
Proof.
  intros Hw. unfold ws_terminate_end. set (s1 := ws_setShouldMeasureLatencies false s).
  assert (ws_wf 0 s1) as Hw1 by (unfold s1, ws_setShouldMeasureLatencies; auto with wss).
  rewrite <- (ww_count 0 s1 Hw1).
  apply (sweep_settles (ws_wf 0) (fun x => wx_state x = WsClosed) ws_terminate_stream s1); auto with wss.
  - intros s2 i Hw2. by apply (terminate_settles 0).
  - intros s2 i x Hw2 Hx. rewrite <- (ws_at_lookup _ i x Hx). by apply (terminate_settles 0).
Qed.

(** ** Theorems *)

Section Theorems.
Context {H : Type} `{EnvoyHeaders H} `{AbslMatch} `{HandshakeKeys} `{AbslStrings}.
Context (mask_word : nat -> Z).

(** C21. In every execution of the WebSocket client each callback handed to it
    was called once, posted once or belongs to one message outstanding on a
    connection, and the counters count exactly these outcomes; no connection has
    more than [max_inflight_per_stream] messages outstanding, and opening and
    closed ones have none; the pending opens are the connections still opening;
    nothing was ever written through a null encoder. When [finish] returns, at
    once or after its drain, nothing is outstanding. *)
Theorem ws_stream_accounting cfg started s :
  ws_reachable mask_word cfg started s ->
  ws_books started s /\ ws_wf 0 s /\
  (ws_waiting_for_ s = WsCloses -> ws_outstanding (ws_finish_end s) = []) /\
  (ws_finished_ s = false -> fst (WebSocketStreamBenchmarkClientImpl_finish mask_word s) = false ->
   ws_outstanding (snd (WebSocketStreamBenchmarkClientImpl_finish mask_word s)) = []).
Proof.
  intros Hr. destruct (reachable_ws mask_word cfg started s Hr) as [Hw Hb].
  split; [done|]. split; [done|]. split; [intros _; by apply finish_end_settles_ws|].
  by apply finish_returns_settled_ws.
Qed.

(** A measurement begins and ends with what it has: when the wait of
    [prepare] is over no connection is opening and no open is pending, so none
    joins the run partway; when [terminate] returns every connection is closed,
    none has an encoder handle to cancel and nothing is outstanding. *)
Lemma ws_connections_settled cfg started s :
  ws_reachable mask_word cfg started s ->
  (ws_waiting_for_ s = WsOpens ->
   ws_pending_opens_ (ws_prepare_end s) = 0 /\
   forall i x, ws_streams_ (ws_prepare_end s) !! i = Some x -> wx_state x <> WsOpening) /\
  (ws_waiting_for_ s = WsNothing -> ws_finished_ s = true ->
   ws_outstanding (ws_terminate_end s) = [] /\
   forall i x, ws_streams_ (ws_terminate_end s) !! i = Some x ->
     wx_state x = WsClosed /\ wx_cancellable x = false).
Proof.
  intros Hr. destruct (reachable_ws mask_word cfg started s Hr) as [Hw _]. split.
  - intros Hp. pose proof (prepare_end_settles s Hw) as Hs. split; [|done].
    pose proof (wf_step mask_word s [] _ (wstep_prepared mask_word s Hp) Hw) as [_ _ _ Hc _].
    rewrite Z.add_0_r in Hc. rewrite Hc. apply (f_equal Z.of_nat (y := 0%nat)), length_zero_iff_nil.
    apply elem_of_nil_inv. intros x Hx%list_elem_of_In%filter_In.
    destruct Hx as [Hx%list_elem_of_In Ho]. apply list_elem_of_lookup in Hx as [i Hi].
    specialize (Hs i x Hi). unfold ws_opening in Ho. by destruct (wx_state x).
  - intros Hn Hf. pose proof (terminate_end_settles s Hw) as Hs.
    pose proof (wf_step mask_word s [] _ (wstep_terminate mask_word s Hn Hf) Hw) as [_ _ Hok _ _]. split.
    + apply none_outstanding. intros i x Hx. apply (wo_idle _ x (Hok i x Hx)).
      unfold ws_is_open. by rewrite (Hs i x Hx).
    + intros i x Hx. specialize (Hs i x Hx). split; [done|]. destruct (wx_cancellable x) eqn:Ec; [|done].
      destruct (wo_cancellable _ x (Hok i x Hx) Ec). congruence.
Qed.

(** The event loops the WebSocket client runs are left when the last of
    what they wait for is there: when the loop of [prepare] begins an upgrade is
    still pending, and no event takes away the last pending upgrade, or the last
    open connection of [finish], without a request to exit made since the loop
    began. *)
Lemma ws_wait_loops_are_woken cfg :
  (forall request pool s0 s, WebSocketStreamBenchmarkClientImpl_new cfg = Ok s0 ->
     WebSocketStreamBenchmarkClientImpl_prepare (Some request) pool s0 = Ok s -> ws_woken (ws_exits s) s) /\
  (forall n s l s', ws_step mask_word s l s' -> ws_woken n s -> ws_woken n s').
Proof.
  split; [|intros n s l s'; apply woken_step_ws].
  intros request pool s0 s Hn Hp. by destruct (prepared_ws cfg request pool s0 s Hn Hp) as (_ & _ & Hw).
Qed.

End Theorems.

(** ** A run

    Two connections, one of which has no pool; a message on the other and one
    that finds no connection. *)

Section Demo.
#[local] Existing Instance absl_documented.
#[local] Existing Instance absl_match_documented.
#[local] Existing Instance fields_headers.
#[local] Existing Instance plain_keys.

Definition demo_ws_config : WsConfig := mkWsConfig 2 1 1000000 5 true.

Definition demo_masks (n : nat) : Z := 0x01020304 + Z.of_nat n.

Definition demo_ws_request : field_list * list Z := (([], 0), [104; 105]).

Definition demo_ws_pool (i : nat) : option (Z * Z * WsPoolAnswer (H := field_list)) :=
  match i with O => Some (1, 2, WsLater) | _ => None end.

Definition demo_ws_new : ws :=
  mkWs demo_ws_config (fun _ => 0) [new_ws_stream; new_ws_stream] [] 0 0 0 false WsNothing false
    (mkWsLog [] [] [] 0 [] [] [] 0).

Definition demo_ws_prepared : ws :=
  match WebSocketStreamBenchmarkClientImpl_prepare (Some demo_ws_request) demo_ws_pool demo_ws_new with
  | Ok s => s
  | _ => demo_ws_new
  end.

Lemma demo_ws_prepared_ok :
  WebSocketStreamBenchmarkClientImpl_prepare (Some demo_ws_request) demo_ws_pool demo_ws_new =
  Ok demo_ws_prepared.
Proof. vm_compute. reflexivity. Qed.

Definition demo_switching : field_list :=
  ([(ConnectionHeader, "keep-alive, Upgrade"); (UpgradeHeader, "WebSocket");
    (secWebSocketAccept, acceptKey (newKey 1 2))]%string, 101).

Definition demo_ws_asked : ws := ws_onStreamReady (fst demo_ws_request) (fun _ => true) 0 demo_ws_prepared.

Definition demo_ws_open : ws := ws_onResponseHeaders 0 demo_switching false demo_ws_asked.

Definition demo_ws_ready : ws := ws_prepare_end demo_ws_open.

Definition demo_ws_sent : ws :=
  WebSocketStreamBenchmarkClientImpl_tryStartRequest demo_masks 20 8
    (WebSocketStreamBenchmarkClientImpl_tryStartRequest demo_masks 10 7 demo_ws_ready).

Definition demo_ws_finished : ws :=
  snd (WebSocketStreamBenchmarkClientImpl_finish demo_masks demo_ws_sent).

Lemma demo_ws_open_reachable : ws_reachable demo_masks demo_ws_config [] demo_ws_open.
Proof.
  apply (ws_steps _ _ [] demo_ws_asked []); [|by apply wstep_headers].
  apply (ws_steps _ _ [] demo_ws_prepared []); [|by apply wstep_ready].
  by apply (ws_prepared _ _ demo_ws_request demo_ws_pool demo_ws_new); [|exact demo_ws_prepared_ok].
Qed.

Lemma demo_ws_sent_reachable : ws_reachable demo_masks demo_ws_config [7; 8]%nat demo_ws_sent.
Proof.
  apply (ws_steps _ _ [7%nat] (WebSocketStreamBenchmarkClientImpl_tryStartRequest demo_masks 10 7 demo_ws_ready)
           [8%nat]); [|apply wstep_request].
  apply (ws_steps _ _ [] demo_ws_ready [7%nat]); [|apply wstep_request].
  apply (ws_steps _ _ [] demo_ws_open []); [|by apply wstep_prepared]. apply demo_ws_open_reachable.
Qed.

Lemma ws_stream_accounting_witness :
  ws_counters demo_ws_sent ws_messages_sent = 1 /\ ws_books [7; 8]%nat demo_ws_sent.
Proof.
  split; [reflexivity|].
  apply (ws_stream_accounting demo_masks demo_ws_config [7; 8]%nat demo_ws_sent demo_ws_sent_reachable).
Defined.

Lemma ws_connections_settled_witness :
  ws_waiting_for_ demo_ws_open = WsOpens /\ ws_pending_opens_ (ws_prepare_end demo_ws_open) = 0.
Proof.
  split; [reflexivity|].
  apply (ws_connections_settled demo_masks demo_ws_config [] demo_ws_open demo_ws_open_reachable). reflexivity.
Defined.

Lemma ws_wait_loops_are_woken_witness :
  ws_waiting_for_ demo_ws_prepared = WsOpens /\ ws_woken (ws_exits demo_ws_prepared) demo_ws_prepared.
Proof.
  split; [reflexivity|].
  apply (proj1 (ws_wait_loops_are_woken demo_masks demo_ws_config) demo_ws_request demo_ws_pool demo_ws_new);
    [reflexivity|exact demo_ws_prepared_ok].
Defined.

End Demo.
