(* ===== verification/WebSocketEcho.v ===== *)
(** * The WebSocket echo filter, and the client against it

    Models [engine/source/server/websocket_echo_filter.{h,cc}], the server side
    of a WebSocket load test: it answers the upgrade and echoes frames. The
    theorems compose it with the stream client of [WebSocketClient]: the
    handshake succeeds, the segmentation of the stream does not matter to the
    client, and an echo completes the message it answers.

    [isWebSocketUpgradeRequest] and the header maps are Envoy's, with the laws
    the code relies on as a class. *)

From S2P Require Import Prelude Text WebSocket WebSocketClient WebSocketClientProofs WebSocketClientLife.

#[local] Arguments Decoder_feed : simpl never.

(** ** What Envoy promises *)

Class EnvoyHeadersLaws (H : Type) {E : EnvoyHeaders H} : Prop := {
  get_set_eq n v (h : H) : header_get n (header_set n v h) = [v];
  get_set_ne n m v (h : H) : n <> m -> header_get n (header_set m v h) = header_get n h;
  get_add_eq n v (h : H) : header_get n (header_add n v h) = header_get n h ++ [v];
  get_add_ne n m v (h : H) : n <> m -> header_get n (header_add m v h) = header_get n h;
  get_empty n : header_get n (header_empty : H) = [];
  get_setStatus n z (h : H) : header_get n (header_setStatus z h) = header_get n h;
  status_setStatus z (h : H) : getResponseStatus (header_setStatus z h) = z;
  status_set n v (h : H) : getResponseStatus (header_set n v h) = getResponseStatus h;
  status_add n v (h : H) : getResponseStatus (header_add n v h) = getResponseStatus h;
  upgrade_request_recognized (h : H) :
    header_value MethodHeader h = Some MethodValues_Get ->
    header_value ConnectionHeader h = Some ConnectionValues_Upgrade ->
    header_value UpgradeHeader h = Some UpgradeValues_WebSocket ->
    isWebSocketUpgradeRequest h = true;
  connection_token :
    all_chars (fun c => c <> ","%char /\ ascii_isspace c = false) ConnectionValues_Upgrade;
}.

(** ** The filter *)

(** What the filter asks its callbacks to do. *)
Inductive EchoOutput (H : Type) : Type :=
| SendLocalReply (code : Z) (details : string)
| EncodeHeaders (headers : H) (end_stream : bool)
| EncodeData (bytes : list Z) (end_stream : bool).

Arguments SendLocalReply {H} code details.
Arguments EncodeHeaders {H} headers end_stream.
Arguments EncodeData {H} bytes end_stream.

Record WebSocketEchoFilter (H : Type) : Type := mkEcho {
  upgraded_ : bool;
  closed_ : bool;
  echo_log : list (EchoOutput H);
}.

Arguments mkEcho {H}.
Arguments upgraded_ {H}.
Arguments closed_ {H}.
Arguments echo_log {H}.

Section Filter.
Context {H : Type} `{EnvoyHeaders H} `{HandshakeKeys}.

Abbreviation filter_state := (WebSocketEchoFilter H).

Definition echo_output (o : EchoOutput H) (s : filter_state) : filter_state :=
  mkEcho (upgraded_ s) (closed_ s) (echo_log s ++ [o]).

(** The answer to an upgrade: 101, with the accept key. *)
Definition switching_protocols (key : string) : H :=
  let response := header_setStatus 101 header_empty in
  let response := header_set ConnectionHeader ConnectionValues_Upgrade response in
  let response := header_set UpgradeHeader UpgradeValues_WebSocket response in
  header_add secWebSocketAccept (acceptKey key) response.

Definition WebSocketEchoFilter_decodeHeaders (headers : H) (s : filter_state) : filter_state :=
  if negb (isWebSocketUpgradeRequest headers) then
    echo_output (SendLocalReply 426 "websocket_echo_not_an_upgrade") s
  else
    match header_get secWebSocketKey headers with
    | [key] =>
        echo_output (EncodeHeaders (switching_protocols key) false) (mkEcho true (closed_ s) (echo_log s))
    | _ => echo_output (SendLocalReply 400 "websocket_echo_bad_key") s
    end.

(** An unmasked frame draws no random word. *)
Definition WebSocketEchoFilter_send (frame : Frame) (end_stream : bool) (s : filter_state) : filter_state :=
  if closed_ s then s
  else echo_output (EncodeData (encodeFrame 0 frame false) end_stream)
         (mkEcho (upgraded_ s) end_stream (echo_log s)).

(** The loop over the frames; [true]: it returned from the handler. *)
Fixpoint echo_frames (frames : list Frame) (s : filter_state) : bool * filter_state :=
  match frames with
  | [] => (false, s)
  | frame :: frames =>
      match opcode frame with
      | Text | Binary | Continuation => echo_frames frames (WebSocketEchoFilter_send frame false s)
      | Ping =>
          echo_frames frames (WebSocketEchoFilter_send (mkFrame (fin frame) Pong (payload frame)) false s)
      | Pong => echo_frames frames s
      | Close => (true, WebSocketEchoFilter_send frame true s)
      end
  end.

(** [decodeData], which always answers [StopIterationNoBuffer]; what it leaves in
    the buffer it was handed comes first. *)
Definition WebSocketEchoFilter_decodeData (data : list Z) (end_stream : bool) (s : filter_state) :
    list Z * filter_state :=
  if negb (upgraded_ s) || closed_ s then ([], s)
  else
    match Decoder_feed data [] with
    | (false, rest, _) => (rest, WebSocketEchoFilter_send (closeFrame 1002) true s)
    | (true, rest, frames) =>
        match echo_frames frames s with
        | (true, s) => (rest, s)
        | (false, s) =>
            (rest, if end_stream && negb (closed_ s)
                   then echo_output (EncodeData [] true) (mkEcho (upgraded_ s) true (echo_log s)) else s)
        end
    end.

(** ** What is echoed *)

(** The frames that answer a frame other than Close. *)
Definition echo_of (f : Frame) : list Frame :=
  match opcode f with
  | Text | Binary | Continuation => [f]
  | Ping => [mkFrame (fin f) Pong (payload f)]
  | _ => []
  end.

Definition echo_bytes (fs : list Frame) : list (EchoOutput H) :=
  (fun f => EncodeData (encodeFrame 0 f false) false) <$> (fs ≫= echo_of).

Lemma echo_frames_log fs s :
  closed_ s = false -> Forall (fun f => opcode f <> Close) fs ->
  echo_frames fs s = (false, mkEcho (upgraded_ s) false (echo_log s ++ echo_bytes fs)).
Proof.
  revert s. induction fs as [|f fs IH]; intros s Hc Hf; cbn [echo_frames].
  { destruct s. cbn in *. subst. unfold echo_bytes. cbn. by rewrite app_nil_r. }
  apply Forall_cons in Hf as [Hf Hfs]. unfold echo_bytes. cbn [mbind list_bind]. rewrite fmap_app.
  unfold echo_of at 1, WebSocketEchoFilter_send.
  destruct (opcode f); rewrite ?Hc; try done; rewrite IH by done; cbn; by rewrite <- ?app_assoc.
Qed.

(** Frames encoded one behind the other, each with a mask of its own. *)
Fixpoint encode_all (mask : nat -> Z) (masked : bool) (fs : list Frame) : list Z :=
  match fs with
  | [] => []
  | f :: fs => encodeFrame (mask 0%nat) f masked ++ encode_all (fun n => mask (S n)) masked fs
  end.

Lemma feed_encoded_frames mask masked fs rest :
  Forall frame_ok fs ->
  Decoder_feed (encode_all mask masked fs ++ rest) [] =
  let '(ok, r, new) := Decoder_feed rest [] in (ok, r, fs ++ new).
Proof.
  revert mask. induction fs as [|f fs IH]; intros mask Hf; cbn.
  { by destruct (Decoder_feed rest []) as [[ok r] new]. }
  apply Forall_cons in Hf as [Hf Hfs]. rewrite <- app_assoc, feed_turn, decode_encoded by done.
  rewrite feed_acc, IH by done. by destruct (Decoder_feed rest []) as [[ok r] new].
Qed.

(** The filter echoes exactly what it is sent: of a buffer of whole frames
    none of which is a Close, every data frame is sent back unmasked, every ping
    is answered by a pong with its payload, in order, nothing else is sent and
    nothing is left in the buffer. *)
Lemma echo_filter_answers mask masked fs s :
  upgraded_ s = true -> closed_ s = false ->
  Forall frame_ok fs -> Forall (fun f => opcode f <> Close) fs ->
  WebSocketEchoFilter_decodeData (encode_all mask masked fs) false s =
  ([], mkEcho true false (echo_log s ++ echo_bytes fs)).
Proof.
  intros Hu Hc Hf Hcl. unfold WebSocketEchoFilter_decodeData. rewrite Hu, Hc. cbn [negb orb].
  pose proof (feed_encoded_frames mask masked fs [] Hf) as E. rewrite app_nil_r in E. rewrite E.
  change (Decoder_feed [] []) with (true, @nil Z, @nil Frame). cbn beta iota.
  rewrite app_nil_r, echo_frames_log by done. cbn. by rewrite Hu.
Qed.

(** The filter keeps no bytes between two calls: when what it is handed is
    the beginning of a frame it sends nothing, is in the state it was in, and
    the bytes stay in the buffer, which [StopIterationNoBuffer] tells Envoy not
    to keep. The rest of the frame is then decoded as if it began one: a text
    frame of 200 bytes cut after 100 of them is not echoed but answered with a
    protocol error, and handed over whole it is echoed. *)
Lemma echo_filter_keeps_no_bytes :
  (forall data rest s, upgraded_ s = true -> closed_ s = false ->
     Decoder_feed data [] = (true, rest, []) ->
     WebSocketEchoFilter_decodeData data false s = (rest, s)) /\
  (let f := mkFrame true Text (repeat 255 200) in
   let s := mkEcho true false [] in
   let data := encodeFrame 0 f true in
   let s1 := snd (WebSocketEchoFilter_decodeData (take 100 data) false s) in
   frame_ok f /\
   echo_log (snd (WebSocketEchoFilter_decodeData (drop 100 data) false s1)) =
     [EncodeData (encodeFrame 0 (closeFrame 1002) false) true] /\
   echo_log (snd (WebSocketEchoFilter_decodeData data false s)) =
     [EncodeData (encodeFrame 0 f false) false]).
Proof.
  split.
  - intros data rest s Hu Hc Hd. unfold WebSocketEchoFilter_decodeData. rewrite Hu, Hc, Hd. done.
  - split; [split; [vm_compute; discriminate|done]|]. split; vm_compute; reflexivity.
Qed.

End Filter.

(** ** The stream in parts *)

(** The bytes received and not decoded of a connection, changed. *)
Definition ws_set_received (i : nat) (r : list Z) (s : ws) : ws :=
  ws_update i (fun x => wx_set_bytes r (wx_fragments x) x) s.

Lemma update_comm i f g s :
  (forall x, f (g x) = g (f x)) -> ws_update i f (ws_update i g s) = ws_update i g (ws_update i f s).
Proof.
  intros Hfg. unfold ws_update, ws_set_streams. cbn. f_equal. rewrite !list_alter_alter_eq.
  apply list_alter_ext; [|done]. intros x _. apply Hfg.
Qed.

Lemma received_at i r s :
  ws_at (ws_set_received i r s) i =
  match ws_streams_ s !! i with Some _ => wx_set_bytes r (wx_fragments (ws_at s i)) (ws_at s i) | None => ws_at s i end.
Proof.
  unfold ws_set_received. rewrite ws_at_update. destruct (ws_streams_ s !! i) as [x|] eqn:E.
  - by rewrite (ws_at_lookup s i x E).
  - by rewrite (ws_at_out s i E).
Qed.

Lemma received_fields i r s :
  let x := ws_at (ws_set_received i r s) i in
  let y := ws_at s i in
  wx_state x = wx_state y /\ wx_encoder x = wx_encoder y /\ wx_inflight x = wx_inflight y /\
  wx_fragments x = wx_fragments y.
Proof. cbn zeta. rewrite received_at. by destruct (ws_streams_ s !! i). Qed.

Section Parts.
Context `{AbslStrings} (mask_word : nat -> Z).

Lemma received_message now i p r s :
  ws_onMessage now i p (ws_set_received i r s) = ws_set_received i r (ws_onMessage now i p s).
Proof.
  destruct (received_fields i r s) as (_ & _ & Ei & _). unfold ws_onMessage. rewrite Ei.
  destruct (_ <? _)%nat; [done|]. destruct (SimpleHexAtoi _); [|done].
  destruct (take_message _ _) as [[m q]|]; [|done]. cbn zeta.
  unfold ws_set_received. rewrite (update_comm i (wx_set_inflight q)) by done.
  change (ws_measure_latencies_ (ws_count ws_messages_received (ws_update i (fun x => wx_set_bytes r (wx_fragments x) x)
            (ws_update i (wx_set_inflight q) s)))) with (ws_measure_latencies_ s).
  change (ws_measure_latencies_ (ws_count ws_messages_received (ws_update i (wx_set_inflight q) s)))
    with (ws_measure_latencies_ s).
  by destruct (ws_measure_latencies_ s).
Qed.

Lemma received_send i f r s :
  ws_send mask_word i f (ws_set_received i r s) = ws_set_received i r (ws_send mask_word i f s).
Proof.
  destruct (received_fields i r s) as (_ & Ee & _). unfold ws_send. rewrite Ee. by destruct (wx_encoder (ws_at s i)).
Qed.

Lemma received_data_frame now i f r s :
  ws_data_frame now i f (ws_set_received i r s) = ws_set_received i r (ws_data_frame now i f s).
Proof.
  destruct (received_fields i r s) as (_ & _ & _ & Ef). unfold ws_data_frame. rewrite Ef. cbn zeta.
  set (fr := _ ++ _).
  assert (forall q s1, ws_update i (fun x => wx_set_bytes (wx_received x) q x) (ws_set_received i r s1) =
            ws_set_received i r (ws_update i (fun x => wx_set_bytes (wx_received x) q x) s1)) as Hc.
  { intros q s1. unfold ws_set_received, ws_update, ws_set_streams. cbn. f_equal.
    rewrite !list_alter_alter_eq. by apply list_alter_ext. }
  rewrite Hc. destruct (fin f); [|done]. by rewrite received_message, Hc.
Qed.

Lemma on_frames_received now i fs r s :
  Forall (fun f => opcode f <> Close) fs ->
  ws_on_frames mask_word now i fs (ws_set_received i r s) =
  (false, ws_set_received i r (snd (ws_on_frames mask_word now i fs s))) /\
  fst (ws_on_frames mask_word now i fs s) = false.
Proof.
  revert s. induction fs as [|f fs IH]; intros s Hf; [done|]. apply Forall_cons in Hf as [Hf Hfs].
  destruct (received_fields i r s) as (Es & _ & _ & Ef). cbn [ws_on_frames].
  assert (forall s, (let s1 := ws_update i (fun x => wx_set_bytes (wx_received x) (wx_fragments (ws_at s i) ++ payload f) x) s in
                     if fin f then ws_update i (fun x => wx_set_bytes (wx_received x) [] x)
                       (ws_onMessage now i (wx_fragments (ws_at s i) ++ payload f) s1) else s1) =
                    ws_data_frame now i f s) as Ed by done.
  destruct (opcode f); try done;
    try (cbn zeta in Ed |- *; rewrite !Ed, received_data_frame; by apply IH).
  - rewrite Es. destruct (wx_state (ws_at s i)); rewrite ?received_send; by apply IH.
  - by apply IH.
Qed.

Lemma on_frames_app now i fs1 fs2 s :
  fst (ws_on_frames mask_word now i fs1 s) = false ->
  ws_on_frames mask_word now i (fs1 ++ fs2) s =
  ws_on_frames mask_word now i fs2 (snd (ws_on_frames mask_word now i fs1 s)).
Proof.
  revert s. induction fs1 as [|f fs1 IH]; intros s; [done|]. cbn [ws_on_frames app].
  destruct (opcode f); try done; apply IH.
Qed.

Lemma set_received_twice i r1 r2 s : ws_set_received i r1 (ws_set_received i r2 s) = ws_set_received i r1 s.
Proof.
  unfold ws_set_received, ws_update, ws_set_streams. cbn. f_equal. rewrite list_alter_alter_eq.
  by apply list_alter_ext.
Qed.

(** The frames of a message in progress keep the connection what it was. *)
Lemma on_frames_state now i fs s :
  Forall (fun f => opcode f <> Close) fs ->
  wx_state (ws_at (snd (ws_on_frames mask_word now i fs s)) i) = wx_state (ws_at s i) /\
  length (ws_streams_ (snd (ws_on_frames mask_word now i fs s))) = length (ws_streams_ s).
Proof.
  revert s. induction fs as [|f fs IH]; intros s Hf; [done|]. apply Forall_cons in Hf as [Hf Hfs].
  assert (forall s1, wx_state (ws_at s1 i) = wx_state (ws_at s i) -> length (ws_streams_ s1) = length (ws_streams_ s) ->
            wx_state (ws_at (snd (ws_on_frames mask_word now i fs s1)) i) = wx_state (ws_at s i) /\
            length (ws_streams_ (snd (ws_on_frames mask_word now i fs s1))) = length (ws_streams_ s)) as Hk.
  { intros s1 E1 E2. rewrite <- E1, <- E2. by apply IH. }
  assert (length (ws_streams_ (ws_data_frame now i f s)) = length (ws_streams_ s)) as Hl.
  { unfold ws_data_frame. cbn zeta. set (fr := _ ++ _). set (s1 := ws_update i _ s).
    assert (length (ws_streams_ s1) = length (ws_streams_ s)) as E1 by (cbn; by rewrite length_alter).
    destruct (fin f); [|done]. cbn. rewrite length_alter.
    destruct (core_message now i fr s1) as (q & _ & E). unfold ws_core in E. injection E as _ E _ _ _ _ _ _.
    rewrite E. cbn. by rewrite !length_alter. }
  cbn [ws_on_frames]. pose proof (data_frame_state now i f s) as Hd.
  destruct (opcode f); try done; try exact (Hk (ws_data_frame now i f s) Hd Hl); [|by apply IH].
  destruct (wx_state (ws_at s i)) eqn:Es; apply Hk; try done; unfold ws_send; by destruct (wx_encoder _).
Qed.

(** How the network cuts the stream does not matter: data that arrives in
    two parts leaves the client in exactly the state it is in when the parts
    arrive as one, as long as the bytes are well-formed and the first part
    closes nothing. *)
Lemma ws_data_in_parts now i part1 part2 end_stream s rest frames :
  ws_is_open (ws_at s i) = true ->
  Decoder_feed (wx_received (ws_at s i) ++ part1 ++ part2) [] = (true, rest, frames) ->
  Forall (fun f => opcode f <> Close) frames ->
  ws_onResponseData mask_word now i part2 end_stream (ws_onResponseData mask_word now i part1 false s) =
  ws_onResponseData mask_word now i (part1 ++ part2) end_stream s.
Proof.
  intros Ho Hfeed Hcl. pose proof (ws_at_in s i) as Hx. unfold ws_onResponseData at 2 3. rewrite Ho, Hfeed.
  rewrite app_assoc, feed_parts in Hfeed.
  destruct (Decoder_feed (wx_received (ws_at s i) ++ part1) []) as [[[] rest1] fs1] eqn:E1; [|done].
  rewrite feed_acc in Hfeed. destruct (Decoder_feed (rest1 ++ part2) []) as [[ok2 rest2] fs2] eqn:E2.
  injection Hfeed as -> -> <-. apply Forall_app in Hcl as [Hc1 Hc2].
  fold (ws_set_received i rest1 s) (ws_set_received i rest s).
  destruct (on_frames_received now i fs1 rest1 s Hc1) as [-> Hf1].
  destruct (on_frames_received now i fs1 rest s Hc1) as [Ew _].
  destruct (on_frames_state now i fs1 s Hc1) as [Est El].
  set (s1 := snd (ws_on_frames mask_word now i fs1 s)) in *.
  rewrite on_frames_app by (by rewrite Ew). rewrite Ew. cbn [snd].
  assert (ws_streams_ s !! i = Some (ws_at s i)) as Hi.
  { apply Hx. unfold ws_is_open in Ho. by destruct (wx_state (ws_at s i)). }
  assert (is_Some (ws_streams_ s1 !! i)) as [x1 Hi1]
    by (apply lookup_lt_is_Some; rewrite El; by apply lookup_lt_Some in Hi).
  unfold ws_onResponseData. rewrite received_at, Hi1.
  assert (ws_is_open (ws_at s1 i) = true) as Ho1 by (unfold ws_is_open in *; by rewrite Est).
  change (ws_is_open (wx_set_bytes rest1 (wx_fragments (ws_at s1 i)) (ws_at s1 i))) with (ws_is_open (ws_at s1 i)).
  rewrite Ho1. cbn [wx_received wx_set_bytes]. rewrite E2.
  fold (ws_set_received i rest (ws_set_received i rest1 s1)). by rewrite set_received_twice.
Qed.

End Parts.

(** ** The handshake *)

Section Handshake.
Context {H : Type} `{E : EnvoyHeaders H} `{M : AbslMatch} `{HandshakeKeys}.

(** A closing of a connection counts lost messages only. *)
Lemma closing_counters i n s :
  n <> ws_inflight_lost -> ws_counters (ws_closeStream i s) n = ws_counters s n.
Proof.
  intros Hn.
  assert (forall q s, ws_counters (ws_complete_loop q i s) n = ws_counters s n) as Hl.
  { intros q. induction q as [|m q IH]; intros s1; cbn [ws_complete_loop]; [done|]. rewrite IH. cbn.
    destruct n; try done. }
  assert (forall s, ws_counters (ws_maybeExitWaitLoop s) n = ws_counters s n) as Hm
    by (intros s1; unfold ws_maybeExitWaitLoop; destruct (ws_waiting_for_ s1); by split_ifs).
  unfold ws_closeStream, ws_completeInflight.
  destruct (wx_state _); rewrite ?Hm, ?Hl; done.
Qed.

(** An answer short of what RFC 6455 asks for opens nothing: without status
    101, an [Upgrade] of websocket, a [Connection] that names the upgrade and one
    accept key that matches the connection's, or when the response is over, the
    connection is closed, the refusal is counted, no opening is, the pending open
    is over, and a stream still there is reset. *)
Lemma ws_upgrade_refused i (headers : H) end_stream s :
  wx_state (ws_at s i) = WsOpening ->
  getResponseStatus headers <> 101 \/ upgrade_header_ok headers = false \/
    connection_header_ok headers = false \/
    header_get secWebSocketAccept headers <> [acceptKey (wx_key (ws_at s i))] \/ end_stream = true ->
  let s' := ws_onResponseHeaders i headers end_stream s in
  wx_state (ws_at s' i) = WsClosed /\
  ws_counters s' ws_upgrade_rejected = ws_counters s ws_upgrade_rejected + 1 /\
  ws_counters s' ws_streams_opened = ws_counters s ws_streams_opened /\
  ws_pending_opens_ s' = ws_pending_opens_ s - 1 /\
  log_resets (ws_log s') =
    log_resets (ws_log s) ++ (if wx_encoder (ws_at s i) && negb end_stream then [i] else []).
Proof.
  intros Hs Hbad. cbn zeta. unfold ws_onResponseHeaders. rewrite Hs. cbn zeta.
  assert (negb (upgrade_accepted headers (wx_key (ws_at s i))) || end_stream = true) as ->.
  { destruct end_stream; [apply orb_true_r|]. rewrite orb_false_r. apply negb_true_iff. unfold upgrade_accepted.
    destruct Hbad as [Hb|[Hb|[Hb|[Hb|Hb]]]]; [| | | |done].
    - apply Z.eqb_neq in Hb. by rewrite Hb.
    - rewrite Hb. by rewrite andb_false_r.
    - rewrite Hb. by rewrite andb_false_r.
    - apply andb_false_iff. right. destruct (header_get _ headers) as [|v [|]]; try done.
      apply String.eqb_neq. congruence. }
  set (s1 := ws_count ws_upgrade_rejected (ws_add_pending (-1) s)).
  pose proof (closed_after_close i s1) as Hc.
  assert (ws_pending_opens_ (ws_closeStream i s1) = ws_pending_opens_ s - 1) as Hp.
  { assert (wx_state (ws_at s1 i) <> WsClosed) as Hne
      by (change (wx_state (ws_at s i) <> WsClosed); congruence).
    pose proof (core_close i s1 Hne) as Hcore. unfold ws_core in Hcore. by injection Hcore as _ _ _ _ -> _ _ _. }
  assert (log_resets (ws_log (ws_closeStream i s1)) = log_resets (ws_log s)) as Hr.
  { assert (forall q s, log_resets (ws_log (ws_complete_loop q i s)) = log_resets (ws_log s)) as Hl
      by (intros q; induction q as [|m q IH]; intros s2; cbn [ws_complete_loop]; [done|by rewrite IH]).
    assert (forall s, log_resets (ws_log (ws_maybeExitWaitLoop s)) = log_resets (ws_log s)) as Hm
      by (intros s2; unfold ws_maybeExitWaitLoop; destruct (ws_waiting_for_ s2); by split_ifs).
    unfold ws_closeStream, ws_completeInflight. destruct (wx_state (ws_at s1 i)); by rewrite ?Hm, ?Hl. }
  assert (ws_counters (ws_closeStream i s1) ws_upgrade_rejected = ws_counters s ws_upgrade_rejected + 1 /\
          ws_counters (ws_closeStream i s1) ws_streams_opened = ws_counters s ws_streams_opened) as [Hc1 Hc2]
    by (by rewrite !closing_counters).
  destruct (wx_encoder (ws_at s i) && negb end_stream).
  - rewrite reset_closed by done. split; [exact Hc|]. cbn. rewrite Hr. done.
  - rewrite app_nil_r. done.
Qed.

(** The two ends agree on the handshake: the filter takes the upgrade request
    the client sends for any key and answers it, and by that answer the client's
    connection is open: counted once, no longer pending, and not reset. *)
Lemma ws_handshake `{!EnvoyHeadersLaws H} `{!AbslMatchLaws} (request : H) key :
  let f := WebSocketEchoFilter_decodeHeaders (upgrade_headers request key) (mkEcho false false []) in
  upgraded_ f = true /\
  echo_log f = [EncodeHeaders (switching_protocols key) false] /\
  forall i s, wx_state (ws_at s i) = WsOpening -> wx_key (ws_at s i) = key ->
    let s' := ws_onResponseHeaders i (switching_protocols key) false s in
    wx_state (ws_at s' i) = WsOpen /\
    ws_counters s' ws_streams_opened = ws_counters s ws_streams_opened + 1 /\
    ws_pending_opens_ s' = ws_pending_opens_ s - 1 /\ log_resets (ws_log s') = log_resets (ws_log s).
Proof.
  assert (upgrade_accepted (switching_protocols key) key = true) as Ha.
  { unfold upgrade_accepted, upgrade_header_ok, connection_header_ok, header_value, switching_protocols.
    rewrite status_add, !status_set, status_setStatus, !get_add_ne, get_set_eq, get_set_ne, get_set_eq by done.
    rewrite get_add_eq, !get_set_ne, get_setStatus, get_empty by done. cbn.
    rewrite equals_refl, String.eqb_refl, split_whole, andb_true_r; cbn.
    - rewrite strip_none, equals_refl; [done|]. eapply all_chars_impl; [|apply connection_token]. by intros c [].
    - eapply all_chars_impl; [|apply connection_token]. by intros c []. }
  assert (WebSocketEchoFilter_decodeHeaders (upgrade_headers request key) (mkEcho false false []) =
          mkEcho true false [EncodeHeaders (switching_protocols key) false]) as Ef.
  { unfold WebSocketEchoFilter_decodeHeaders, upgrade_headers. rewrite upgrade_request_recognized; cbn [negb].
    - by rewrite get_set_eq.
    - unfold header_value. by rewrite !get_set_ne, get_set_eq by done.
    - unfold header_value. by rewrite !get_set_ne, get_set_eq by done.
    - unfold header_value. by rewrite !get_set_ne, get_set_eq by done. }
  cbn zeta. rewrite Ef. split; [done|]. split; [done|]. intros i s Hs <-. unfold ws_onResponseHeaders.
  rewrite Hs, Ha. cbn zeta. cbn [negb orb]. set (s1 := ws_count _ _).
  pose proof (core_maybeExit s1) as Hc. rewrite (ws_core_at _ _ i Hc).
  change (ws_at s1 i) with (ws_at (ws_update i (wx_set_state WsOpen) (ws_add_pending (-1) s)) i).
  rewrite ws_at_update. change (ws_streams_ (ws_add_pending (-1) s)) with (ws_streams_ s).
  rewrite (ws_at_in s i) by congruence. split; [done|].
  unfold ws_core in Hc. injection Hc as _ _ _ _ -> _ _ _.
  assert (ws_counters (ws_maybeExitWaitLoop s1) = ws_counters s1 /\
          log_resets (ws_log (ws_maybeExitWaitLoop s1)) = log_resets (ws_log s1)) as [-> ->]
    by (unfold ws_maybeExitWaitLoop; destruct (ws_waiting_for_ s1); by split_ifs).
  done.
Qed.

End Handshake.

(** ** A message and its echo *)

Lemma of_to_bytes s : of_bytes (to_bytes s) = s.
Proof.
  unfold of_bytes, to_bytes. rewrite map_map.
  rewrite (map_ext _ (fun c => c)), map_id, String.string_of_list_ascii_of_string; [done|].
  intros c. unfold code. rewrite N2Z.id. apply ascii_N_embedding.
Qed.

Lemma to_bytes_length s : length (to_bytes s) = String.length s.
Proof. unfold to_bytes. rewrite length_map. induction s as [|c s IH]; cbn; [done|]. by rewrite IH. Qed.

Lemma take_message_last k q m :
  Forall (fun y => 0 <= wm_sequence y < k) q -> wm_sequence m = k -> take_message k (q ++ [m]) = Some (m, q).
Proof.
  intros Hq Hm. induction Hq as [|y q Hy Hq IH]; cbn.
  - by rewrite Hm, Z.eqb_refl.
  - replace (wm_sequence y =? k) with false by lia. by rewrite IH.
Qed.

Section RoundTrip.
Context {H : Type} `{EnvoyHeaders H} `{AbslMatch} `{HandshakeKeys} `{A : AbslStrings}.
Context (mask_word : nat -> Z).

(** The frame of a message, and what of it [onMessage] parses. *)
Definition message_frame (sequence : Z) (s : ws) : Frame :=
  mkFrame true (if ws_binary_ (ws_config s) then Binary else Text)
    (to_bytes (ws_sequencePrefix sequence) ++ ws_message_ s).

Lemma message_frame_parsed `{!AbslHexLaws A} k s :
  in_u64 k ->
  (length (payload (message_frame k s)) <? ws_kSequencePrefixLength)%nat = false /\
  SimpleHexAtoi (of_bytes (take ws_kSequencePrefixLength (payload (message_frame k s)))) = Some k.
Proof.
  intros Hk. pose proof (format_016x_length k Hk) as Hl. unfold message_frame, ws_sequencePrefix. cbn [payload].
  assert (length (to_bytes (StrFormat_016x k)) = 16%nat) as Hb by (by rewrite to_bytes_length).
  split.
  - apply Nat.ltb_ge. rewrite length_app, Hb. unfold ws_kSequencePrefixLength. lia.
  - unfold ws_kSequencePrefixLength. rewrite <- Hb, take_app_length, of_to_bytes. by apply format_016x_parsed.
Qed.

(** A message that is sent. *)
Lemma request_sends now cb s :
  let i := ws_next_stream_ s in
  let k := ws_next_sequence_ s in
  let x := ws_at s i in
  wx_state x = WsOpen -> wx_encoder x = true -> wx_write_blocked x = false ->
  (length (wx_inflight x) < ws_max_inflight_per_stream_ (ws_config s))%nat ->
  exists s1,
    WebSocketStreamBenchmarkClientImpl_tryStartRequest mask_word now cb s = s1 /\
    log_wire (ws_log s1) = log_wire (ws_log s) ++
      [(i, encodeFrame (mask_word (length (log_wire (ws_log s)))) (message_frame k s) true)] /\
    ws_streams_ s1 = alter (wx_set_inflight (wx_inflight x ++ [mkWsMessage k now cb])) i (ws_streams_ s) /\
    ws_config s1 = ws_config s /\ ws_message_ s1 = ws_message_ s /\
    ws_measure_latencies_ s1 = ws_measure_latencies_ s /\
    ws_counters s1 ws_messages_received = ws_counters s ws_messages_received /\
    log_run (ws_log s1) = log_run (ws_log s) /\ log_latencies (ws_log s1) = log_latencies (ws_log s).
Proof.
  cbn zeta. intros Hs He Hb Hl. eexists. split; [reflexivity|].
  unfold WebSocketStreamBenchmarkClientImpl_tryStartRequest. cbn zeta.
  set (s0 := ws_set_next (ws_next_sequence_ s) _ s). change (ws_at s0) with (ws_at s). rewrite Hs, Hb.
  change (ws_config s0) with (ws_config s). replace (_ <=? _)%nat with false by (symmetry; apply Nat.leb_gt; lia).
  cbn [orb]. unfold ws_send. rewrite ws_at_update.
  change (ws_streams_ (ws_set_next _ _ s0)) with (ws_streams_ s).
  rewrite (ws_at_in s (ws_next_stream_ s)) by congruence. cbn [wx_encoder wx_set_inflight]. rewrite He. done.
Qed.

Lemma data_frame_alone now i f s :
  opcode f = Text \/ opcode f = Binary ->
  ws_on_frames mask_word now i [f] s = (false, ws_data_frame now i f s).
Proof. intros [Ef|Ef]; cbn [ws_on_frames]; by rewrite Ef. Qed.

(** The echo of an outstanding message that comes in one piece. *)
Lemma echo_received `{!AbslHexLaws A} now i k m q x s :
  in_u64 k -> ws_streams_ s !! i = Some x -> ws_is_open x = true ->
  wx_received x = [] -> wx_fragments x = [] -> take_message k (wx_inflight x) = Some (m, q) ->
  frame_ok (message_frame k s) ->
  let s' := ws_onResponseData mask_word now i (encodeFrame 0 (message_frame k s) false) false s in
  log_run (ws_log s') = log_run (ws_log s) ++ [(wm_callback m, true)] /\
  log_latencies (ws_log s') =
    log_latencies (ws_log s) ++ (if ws_measure_latencies_ s then [now - wm_sent_at m] else []) /\
  ws_counters s' ws_messages_received = ws_counters s ws_messages_received + 1 /\
  exists y, ws_streams_ s' = <[i := y]> (ws_streams_ s) /\ wx_inflight y = q /\ wx_state y = wx_state x /\
    wx_received y = [] /\ wx_fragments y = [].
Proof.
  intros Hk Hi Ho Hr Hf Ht Hok. cbn zeta. pose proof (message_frame_parsed k s Hk) as [Hlen Hp].
  unfold ws_onResponseData. rewrite (ws_at_lookup s i x Hi), Ho, Hr. cbn [app]. cbn zeta.
  pose proof (decode_encoded 0 (message_frame k s) false [] Hok) as Hd. rewrite app_nil_r in Hd.
  rewrite feed_turn, Hd. change (Decoder_feed [] _) with (true, @nil Z, [message_frame k s]). cbn beta iota.
  set (s1 := ws_update i _ s).
  assert (ws_at s1 i = wx_set_bytes [] (wx_fragments x) x) as E1 by (unfold s1; by rewrite ws_at_update, Hi).
  assert (ws_on_frames mask_word now i [message_frame k s] s1 = (false, ws_data_frame now i (message_frame k s) s1)) as ->
    by (apply data_frame_alone; cbn; destruct (ws_binary_ _); auto).
  unfold ws_data_frame. rewrite E1. cbn [wx_fragments wx_set_bytes]. rewrite Hf. cbn [app fin message_frame]. cbn zeta.
  set (p := payload (message_frame k s)) in *. clearbody p.
  unfold ws_onMessage. rewrite Hlen, Hp, ws_at_update. change (ws_streams_ s1) with (alter (fun x => wx_set_bytes [] (wx_fragments x) x) i (ws_streams_ s)).
  rewrite list_lookup_alter_eq, Hi. cbn [fmap option_fmap option_map wx_inflight wx_set_bytes]. rewrite Ht. cbn zeta.
  set (s2 := ws_count _ _). change (ws_measure_latencies_ s2) with (ws_measure_latencies_ s).
  assert (exists y, alter (fun x => wx_set_bytes (wx_received x) [] x) i (ws_streams_ s2) = <[i := y]> (ws_streams_ s) /\
            wx_inflight y = q /\ wx_state y = wx_state x /\ wx_received y = [] /\ wx_fragments y = []) as Hy.
  { eexists. split; [|]. { unfold s2. cbn. rewrite !list_alter_alter_eq. apply list_alter_insert_lookup, Hi. } done. }
  destruct (ws_measure_latencies_ s); cbn; rewrite ?app_nil_r; done.
Qed.

Lemma ws_message_echoed word k s (f : WebSocketEchoFilter H) :
  frame_ok (message_frame k s) -> upgraded_ f = true -> closed_ f = false ->
  WebSocketEchoFilter_decodeData (encodeFrame word (message_frame k s) true) false f =
  ([], mkEcho true false (echo_log f ++ [EncodeData (encodeFrame 0 (message_frame k s) false) false])).
Proof.
  intros Hok Hu Hc. unfold WebSocketEchoFilter_decodeData. rewrite Hu, Hc. cbn [negb orb].
  pose proof (feed_encoded_frames (fun _ => word) true [message_frame k s] []
                ltac:(constructor; [exact Hok|constructor])) as Hf. cbn [encode_all] in Hf.
  rewrite !app_nil_r in Hf. rewrite Hf.
  change (Decoder_feed [] []) with (true, @nil Z, @nil Frame). cbn beta iota.
  rewrite echo_frames_log; [|done|constructor; [by cbn; destruct (ws_binary_ _)|constructor]].
  rewrite Hu. cbn [andb]. unfold message_frame. by destruct (ws_binary_ (ws_config s)).
Qed.

(** C22. A message and its echo, end to end: a message started on an open, quiet
    connection is written as bytes from which the echo filter decodes one frame
    and sends it back, unmasked and with nothing left over, and those bytes,
    handed to the client, complete that message: its callback is called with
    success, its latency is the time since it was sent, the messages outstanding
    are those from before it, and the connection is quiet again. *)
Theorem ws_echo_round_trip `{!AbslHexLaws A} cfg started s (f : WebSocketEchoFilter H) now now' cb :
  ws_reachable mask_word cfg started s -> Z.of_nat (length started) < UINT64_MAX ->
  let i := ws_next_stream_ s in
  let x := ws_at s i in
  wx_state x = WsOpen -> wx_write_blocked x = false ->
  (length (wx_inflight x) < ws_max_inflight_per_stream_ (ws_config s))%nat ->
  wx_received x = [] -> wx_fragments x = [] ->
  Z.of_nat (length (ws_message_ s)) + 16 <= kMaxPayloadLength ->
  upgraded_ f = true -> closed_ f = false ->
  let s1 := WebSocketStreamBenchmarkClientImpl_tryStartRequest mask_word now cb s in
  exists bytes echo,
    log_wire (ws_log s1) = log_wire (ws_log s) ++ [(i, bytes)] /\
    WebSocketEchoFilter_decodeData bytes false f =
      ([], mkEcho true false (echo_log f ++ [EncodeData echo false])) /\
    let s2 := ws_onResponseData mask_word now' i echo false s1 in
    log_run (ws_log s2) = log_run (ws_log s) ++ [(cb, true)] /\
    log_latencies (ws_log s2) =
      log_latencies (ws_log s) ++ (if ws_measure_latencies_ s then [now' - now] else []) /\
    ws_counters s2 ws_messages_received = ws_counters s ws_messages_received + 1 /\
    ws_outstanding s2 = ws_outstanding s /\
    wx_state (ws_at s2 i) = WsOpen /\ wx_received (ws_at s2 i) = [] /\ wx_fragments (ws_at s2 i) = [].
Proof.
  intros Hr Hl. cbn zeta. intros Hs Hb Hq Hrec Hfr Hlen Hu Hc.
  set (i := ws_next_stream_ s) in *. set (k := ws_next_sequence_ s). pose proof (ws_at_in s i ltac:(congruence)) as Hi.
  destruct (reachable_ws mask_word cfg started s Hr) as [Hw _].
  destruct (reachable_sequenced mask_word cfg started s Hr ltac:(lia)) as [[Hz Hseq] Hn].
  pose proof (open_encoder 0 s i Hw (state_is_open _ Hs)) as He.
  assert (in_u64 k) as Hk by (unfold in_u64, UINT64_MAX, k in *; lia).
  destruct (request_sends now cb s Hs He Hb Hq) as (s1 & -> & Hwire & Hst & Hcfg & Hmsg & Hme & Hcnt & Hrun & Hlat).
  fold i k in Hwire, Hst.
  assert (frame_ok (message_frame k s)) as Hok.
  { split; [|by cbn; destruct (ws_binary_ _)]. cbn. pose proof (format_016x_length k Hk) as H16.
    unfold ws_sequencePrefix. rewrite length_app, to_bytes_length, H16. lia. }
  assert (message_frame k s1 = message_frame k s) as Em by (unfold message_frame; by rewrite Hcfg, Hmsg).
  set (m := mkWsMessage k now cb) in *. set (x1 := wx_set_inflight (wx_inflight (ws_at s i) ++ [m]) (ws_at s i)).
  assert (ws_streams_ s1 !! i = Some x1) as Hi1 by (by rewrite Hst, list_lookup_alter_eq, Hi).
  exists (encodeFrame (mask_word (length (log_wire (ws_log s)))) (message_frame k s) true),
    (encodeFrame 0 (message_frame k s) false).
  split; [done|]. split; [by apply ws_message_echoed|].
  assert (take_message k (wx_inflight x1) = Some (m, wx_inflight (ws_at s i))) as Ht
    by (apply take_message_last; [apply (Hseq i _ Hi)|done]).
  rewrite <- Em in Hok |- *.
  destruct (echo_received now' i k m _ x1 s1 Hk Hi1 (state_is_open x1 Hs) Hrec Hfr Ht Hok)
    as (R1 & R2 & R3 & y & R4 & R5 & R6 & R7 & R8).
  rewrite R1, R2, R3, Hrun, Hlat, Hme, Hcnt. split_and!; try done.
  - unfold ws_outstanding. rewrite R4, Hst, (list_alter_insert_lookup _ _ _ _ Hi), list_insert_insert_eq.
    apply (bind_insert_same _ _ _ _ _ Hi). by rewrite R5.
  - rewrite (ws_at_lookup _ i y); [by rewrite R6|]. rewrite R4.
    apply list_lookup_insert_eq. by apply lookup_lt_Some in Hi1.
  - rewrite (ws_at_lookup _ i y); [done|]. rewrite R4. apply list_lookup_insert_eq. by apply lookup_lt_Some in Hi1.
  - rewrite (ws_at_lookup _ i y); [done|]. rewrite R4. apply list_lookup_insert_eq. by apply lookup_lt_Some in Hi1.
Qed.

End RoundTrip.

(** ** The laws hold of the instances *)

Lemma filter_filter_same {T} (p q : T -> bool) l :
  (forall x, q x = true -> p x = true) -> List.filter q (List.filter p l) = List.filter q l.
Proof.
  intros Hpq. induction l as [|x l IH]; cbn; [done|]. destruct (p x) eqn:Ep; cbn; rewrite IH; [done|].
  destruct (q x) eqn:Eq; [|done]. rewrite (Hpq x Eq) in Ep. discriminate.
Qed.

Lemma filter_filter_none {T} (p q : T -> bool) l :
  (forall x, p x = true -> q x = false) -> List.filter q (List.filter p l) = [].
Proof.
  intros Hpq. induction l as [|x l IH]; cbn; [done|]. destruct (p x) eqn:Ep; cbn; [|done].
  by rewrite (Hpq x Ep).
Qed.

Lemma fields_laws : EnvoyHeadersLaws field_list (E := fields_headers).
Proof.
  split; intros; cbn in *; try done.
  - unfold fields_get, fields_without. cbn. rewrite List.filter_app, fmap_app.
    rewrite filter_filter_none by (intros x; by rewrite negb_true_iff). cbn. by rewrite bool_decide_true.
  - unfold fields_get, fields_without. cbn. rewrite List.filter_app, filter_filter_same; cbn.
    + rewrite bool_decide_false by done. by rewrite app_nil_r.
    + intros x ->%bool_decide_eq_true. by rewrite bool_decide_false.
  - unfold fields_get. cbn. rewrite List.filter_app, fmap_app. cbn. by rewrite bool_decide_true.
  - unfold fields_get. cbn. rewrite List.filter_app, fmap_app. cbn. rewrite bool_decide_false by done.
    by rewrite app_nil_r.
  - by rewrite !bool_decide_true.
Qed.

(** ** A run against the filter *)

Section Demo.
#[local] Existing Instance absl_documented.
#[local] Existing Instance absl_match_documented.
#[local] Existing Instance fields_headers.
#[local] Existing Instance plain_keys.
#[local] Existing Instance fields_laws.
#[local] Existing Instance absl_match_laws.

Definition demo_echo : WebSocketEchoFilter field_list := mkEcho true false [].

Definition demo_frames : list Frame := [mkFrame true Text [104; 105]; mkFrame true Ping [1]].

Lemma demo_frames_ok : Forall frame_ok demo_frames /\ Forall (fun f => opcode f <> Close) demo_frames.
Proof. split; repeat constructor; done. Qed.

Lemma echo_filter_answers_witness :
  WebSocketEchoFilter_decodeData (encode_all demo_masks true demo_frames) false demo_echo =
  ([], mkEcho true false
         [EncodeData [0x81; 2; 104; 105] false; EncodeData [0x8A; 1; 1] false]).
Proof.
  rewrite (echo_filter_answers demo_masks true demo_frames demo_echo eq_refl eq_refl
             (proj1 demo_frames_ok) (proj2 demo_frames_ok)).
  reflexivity.
Defined.

Lemma echo_filter_keeps_no_bytes_witness :
  WebSocketEchoFilter_decodeData [0x81; 5; 104] false demo_echo = ([0x81; 5; 104], demo_echo).
Proof. apply (proj1 echo_filter_keeps_no_bytes); reflexivity. Defined.

Definition demo_reply : list Z := [0x89; 1; 7; 0x82; 17].

Lemma ws_data_in_parts_witness :
  ws_onResponseData demo_masks 30 0 [7; 0x82; 17] false
    (ws_onResponseData demo_masks 30 0 [0x89; 1] false demo_ws_sent) =
  ws_onResponseData demo_masks 30 0 demo_reply false demo_ws_sent.
Proof.
  apply (ws_data_in_parts demo_masks 30 0 [0x89; 1] [7; 0x82; 17] false demo_ws_sent [0x82; 17]
           [mkFrame true Ping [7]]).
  - vm_compute. reflexivity.
  - vm_compute. reflexivity.
  - constructor; [discriminate|constructor].
Defined.

Lemma ws_upgrade_refused_witness :
  wx_state (ws_at (ws_onResponseHeaders 0 (([], 403) : field_list) false demo_ws_asked) 0) = WsClosed.
Proof.
  apply (ws_upgrade_refused 0 (([], 403) : field_list) false demo_ws_asked).
  - vm_compute. reflexivity.
  - left. cbn. discriminate.
Defined.

Lemma ws_handshake_witness :
  upgraded_ (WebSocketEchoFilter_decodeHeaders
    (upgrade_headers (fst demo_ws_request) (newKey 1 2)) (mkEcho false false [])) = true.
Proof. apply (ws_handshake (fst demo_ws_request) (newKey 1 2)). Defined.

Definition demo_ws_idle : ws := ws_prepare_end demo_ws_open.

Lemma demo_ws_idle_reachable : ws_reachable demo_masks demo_ws_config [] demo_ws_idle.
Proof. apply (ws_steps _ _ [] demo_ws_open []); [apply demo_ws_open_reachable|by apply wstep_prepared]. Qed.

Lemma ws_echo_round_trip_witness :
  exists bytes echo,
    log_wire (ws_log (WebSocketStreamBenchmarkClientImpl_tryStartRequest demo_masks 10 7 demo_ws_idle)) =
      [(0%nat, bytes)] /\
    WebSocketEchoFilter_decodeData bytes false demo_echo = ([], mkEcho true false [EncodeData echo false]).
Proof.
  destruct (ws_echo_round_trip demo_masks demo_ws_config [] demo_ws_idle demo_echo 10 30 7
              demo_ws_idle_reachable) as (bytes & echo & Hw & He & _);
    [by vm_compute..|].
  exists bytes, echo. split; [exact Hw|exact He].
Defined.

End Demo.
