(* ===== verification/BackendName.v ===== *)
(** * Names of backends in metric names

    Models [engine/source/client/backend_name.{h,cc}]: the reduction of a
    service's name to one component of a metric name, and its insertion into the
    prefixes of the stats sinks of a request.

    A packed protobuf message is its type and what it parses to, if it parses;
    the fields the code does not touch are kept as they are ([_rest]). *)

From S2P Require Import Prelude Text.

Definition BackendNameToken : string := "%BACKEND%".

(** ** Reducing a name *)

Definition name_char (c : ascii) : bool := is_lower c || is_digit c || Ascii.eqb c "_"%char.

Section Names.
Context `{AbslMatch}.

Fixpoint sanitize_loop (name out : string) (pending : bool) : string :=
  match name with
  | EmptyString => out
  | String c name =>
      let lower := absl_ascii_tolower c in
      if name_char lower then
        let out := if pending && negb (out =? EmptyString)%string then out +:+ "_" else out in
        sanitize_loop name (out +:+ String lower EmptyString) false
      else sanitize_loop name out true
  end.

Definition sanitizeBackendName (name : string) : string := sanitize_loop name EmptyString false.

(** ** Expanding the token *)

Record SinkMessage : Type := mkSinkMessage { sink_prefix : string; sink_rest : list Z }.

Inductive SinkAny : Type :=
| StatsdSinkAny (parsed : option SinkMessage)
| DogStatsdSinkAny (parsed : option SinkMessage)
| OtherSinkAny (bytes : list Z).

Record AdapterMessage : Type := mkAdapterMessage {
  adapter_typed_config : option SinkAny;
  adapter_rest : list Z;
}.

Inductive StatsSink : Type :=
| AdapterSink (parsed : option AdapterMessage)
| OtherStatsSink (bytes : list Z).

(** The error of a prefix that names a backend without a name. *)
Definition no_backend_name (prefix : string) : string :=
  "a stats sink's prefix (" +:+ prefix +:+ ") names this backend with " +:+ BackendNameToken +:+
  ", and this service has no name: start nighthawk_service with --backend-name".

(** [expandIn]: whether the configuration was rewritten, and what it is then.
    [parse] is [Is] and [UnpackTo] of the type, [pack] its [PackFrom]. *)
Definition expandIn (parse : SinkAny -> option SinkMessage) (pack : SinkMessage -> SinkAny)
    (backend_name : string) (config : SinkAny) : string + bool * SinkAny :=
  match parse config with
  | None => inr (false, config)
  | Some sink =>
      if negb (StrContains (sink_prefix sink) BackendNameToken) then inr (false, config)
      else if (backend_name =? EmptyString)%string then inl (no_backend_name (sink_prefix sink))
      else
        inr (true, pack (mkSinkMessage (StrReplaceAll BackendNameToken backend_name (sink_prefix sink))
                           (sink_rest sink)))
  end.

Definition parse_statsd (config : SinkAny) : option SinkMessage :=
  match config with StatsdSinkAny m => m | _ => None end.

Definition parse_dog_statsd (config : SinkAny) : option SinkMessage :=
  match config with DogStatsdSinkAny m => m | _ => None end.

(** One turn of the loop over the sinks. *)
Definition expand_sink (backend_name : string) (outer : StatsSink) : string + StatsSink :=
  match outer with
  | OtherStatsSink _ | AdapterSink None => inr outer
  | AdapterSink (Some adapter) =>
      match adapter_typed_config adapter with
      | None => inr outer
      | Some inner =>
          let rewritten :=
            match expandIn parse_statsd (fun m => StatsdSinkAny (Some m)) backend_name inner with
            | inr (false, inner) =>
                expandIn parse_dog_statsd (fun m => DogStatsdSinkAny (Some m)) backend_name inner
            | r => r
            end in
          match rewritten with
          | inl e => inl e
          | inr (true, inner) => inr (AdapterSink (Some (mkAdapterMessage (Some inner) (adapter_rest adapter))))
          | inr (false, _) => inr outer
          end
      end
  end.

(** The status, [None] when it is OK, and the sinks, which are changed in place
    up to an error. *)
Fixpoint expandBackendName (backend_name : string) (sinks : list StatsSink) :
    option string * list StatsSink :=
  match sinks with
  | [] => (None, [])
  | outer :: sinks =>
      match expand_sink backend_name outer with
      | inl e => (Some e, outer :: sinks)
      | inr outer => let '(e, sinks) := expandBackendName backend_name sinks in (e, outer :: sinks)
      end
  end.

(** ** The reduction *)

(** The runs of kept characters of a name, lowered; [cur] is the run being read. *)
Fixpoint name_runs (cur name : string) : list string :=
  match name with
  | EmptyString => if (cur =? EmptyString)%string then [] else [cur]
  | String c name =>
      if name_char (ascii_tolower c) then name_runs (cur +:+ String (ascii_tolower c) EmptyString) name
      else if (cur =? EmptyString)%string then name_runs EmptyString name
      else cur :: name_runs EmptyString name
  end.

Lemma sjoin_snoc sep l s : l <> [] -> sjoin sep (l ++ [s]) = sjoin sep l +:+ sep +:+ s.
Proof.
  intros Hl. induction l as [|a l IH]; [done|]. destruct l as [|b l]; [done|].
  change ((a :: b :: l) ++ [s]) with (a :: ((b :: l) ++ [s])).
  rewrite (sjoin_cons sep a ((b :: l) ++ [s])) by done. rewrite IH by done.
  rewrite (sjoin_cons sep a (b :: l)) by done. by rewrite !sapp_assoc.
Qed.

Lemma sjoin_last sep l s t : sjoin sep (l ++ [s]) +:+ t = sjoin sep (l ++ [s +:+ t]).
Proof.
  destruct l as [|a l]; [done|]. rewrite !sjoin_snoc by done. by rewrite !sapp_assoc.
Qed.

Lemma sapp_nonempty s t : s <> EmptyString \/ t <> EmptyString -> s +:+ t <> EmptyString.
Proof. destruct s; [rewrite sapp_nil; by intros [Hs|Ht]|by rewrite sapp_cons]. Qed.

Lemma sjoin_nonempty sep l : l <> [] -> Forall (fun s => s <> EmptyString) l -> sjoin sep l <> EmptyString.
Proof.
  destruct l as [|a l]; [done|]. intros _ [Ha _]%Forall_cons.
  destruct l; [done|]. rewrite sjoin_cons by done. apply sapp_nonempty. by left.
Qed.

Lemma string_eqb_false s : s <> EmptyString -> (s =? EmptyString)%string = false.
Proof. apply String.eqb_neq. Qed.

Context `{!AbslMatchLaws}.

(** With a run being read, and between two runs. *)
Lemma sanitize_runs name :
  (forall ws cur, cur <> EmptyString ->
     Forall (fun s => s <> EmptyString) ws ->
     sanitize_loop name (sjoin "_" (ws ++ [cur])) false = sjoin "_" (ws ++ name_runs cur name)) /\
  (forall ws, ws <> [] -> Forall (fun s => s <> EmptyString) ws ->
     sanitize_loop name (sjoin "_" ws) true = sjoin "_" (ws ++ name_runs EmptyString name)).
Proof.
  induction name as [|c name [IH1 IH2]]; split; cbn [sanitize_loop name_runs].
  - intros ws cur Hc _. by rewrite string_eqb_false.
  - intros ws _ _. cbn. by rewrite app_nil_r.
  - intros ws cur Hc Hw. cbn zeta. rewrite tolower_documented. destruct (name_char _); cbn [andb].
    + rewrite sjoin_last. apply IH1; [|done]. apply sapp_nonempty. by left.
    + rewrite string_eqb_false by done. rewrite IH2, <- app_assoc; [done|by destruct ws|].
      apply Forall_app. split; [done|by constructor].
  - intros ws Hne Hw. cbn zeta. rewrite tolower_documented. destruct (name_char _); cbn [andb].
    + rewrite string_eqb_false by (by apply sjoin_nonempty). cbn [negb].
      rewrite sapp_assoc, <- sjoin_snoc by done. by apply IH1.
    + cbn. by apply IH2.
Qed.

Lemma sanitize_reference name : sanitizeBackendName name = sjoin "_" (name_runs EmptyString name).
Proof.
  unfold sanitizeBackendName.
  assert (forall b, sanitize_loop name EmptyString b = sjoin "_" (name_runs EmptyString name)) as Hs; [|apply Hs].
  induction name as [|c name IH]; intros b; cbn [sanitize_loop name_runs]; [done|]. cbn zeta.
  rewrite tolower_documented. destruct (name_char _); cbn.
  - rewrite andb_false_r. apply (proj1 (sanitize_runs name) []); [done|constructor].
  - apply IH.
Qed.

(** Every run is kept characters, and not empty. *)
Lemma name_runs_chars name cur :
  all_chars (fun c => name_char c = true) cur ->
  Forall (fun r => r <> EmptyString /\ all_chars (fun c => name_char c = true) r) (name_runs cur name).
Proof.
  revert cur. induction name as [|c name IH]; intros cur Hc; cbn [name_runs].
  - destruct (String.eqb_spec cur EmptyString); [constructor|]. by repeat constructor.
  - destruct (name_char _) eqn:E.
    + apply IH, all_chars_app. by repeat split.
    + destruct (String.eqb_spec cur EmptyString); [by apply IH|]. constructor; [done|by apply IH].
Qed.

Lemma sjoin_chars (P : ascii -> Prop) sep l :
  all_chars P sep -> Forall (all_chars P) l -> all_chars P (sjoin sep l).
Proof.
  intros Hs Hl. induction Hl as [|a l Ha Hl IH]; [done|]. destruct l; [done|].
  rewrite sjoin_cons by done. by rewrite !all_chars_app.
Qed.

Lemma sanitized_chars name : all_chars (fun c => name_char c = true) (sanitizeBackendName name).
Proof.
  rewrite sanitize_reference. apply sjoin_chars; [by repeat constructor|].
  eapply Forall_impl; [by apply (name_runs_chars name EmptyString)|]. by intros r [].
Qed.

(** Lowering changes no kept character. *)
Lemma name_char_lower c : name_char c = true -> ascii_tolower c = c.
Proof. unfold name_char. by destruct c as [[] [] [] [] [] [] [] []]. Qed.

Lemma name_runs_kept name cur :
  all_chars (fun c => name_char c = true) name -> cur +:+ name <> EmptyString ->
  name_runs cur name = [cur +:+ name].
Proof.
  revert cur. induction name as [|c name IH]; intros cur Hn Hne; cbn [name_runs].
  - rewrite sapp_nil_r in *. by rewrite string_eqb_false.
  - destruct Hn as [Hc Hn]. rewrite (name_char_lower c Hc), Hc, IH, sapp_assoc; [done|done|].
    rewrite sapp_assoc. done.
Qed.

(** [sanitizeBackendName] does what its documentation says: the name is the
    runs of letters, digits and underscores of the lowered name with one
    underscore between them; every character of it is one of [a-z0-9_], so it
    adds no level to a metric name; and a name already reduced stays as it is. *)
Lemma sanitize_documented name :
  sanitizeBackendName name = sjoin "_" (name_runs EmptyString name) /\
  all_chars (fun c => name_char c = true) (sanitizeBackendName name) /\
  sanitizeBackendName (sanitizeBackendName name) = sanitizeBackendName name.
Proof.
  split; [apply sanitize_reference|]. split; [apply sanitized_chars|].
  rewrite sanitize_reference at 1. destruct (String.eqb_spec (sanitizeBackendName name) EmptyString) as [E|E].
  - by rewrite E.
  - by rewrite name_runs_kept by (rewrite ?sapp_nil; auto using sanitized_chars).
Qed.

(** ** The expansion *)

(** The prefix the expansion is about, and the sink with another. *)
Definition prefix_of (sink : StatsSink) : option string :=
  match sink with
  | AdapterSink (Some (mkAdapterMessage (Some (StatsdSinkAny (Some m) | DogStatsdSinkAny (Some m))) _)) =>
      Some (sink_prefix m)
  | _ => None
  end.

Definition with_prefix (prefix : string) (sink : StatsSink) : StatsSink :=
  match sink with
  | AdapterSink (Some (mkAdapterMessage (Some (StatsdSinkAny (Some m))) rest)) =>
      AdapterSink (Some (mkAdapterMessage (Some (StatsdSinkAny (Some (mkSinkMessage prefix (sink_rest m))))) rest))
  | AdapterSink (Some (mkAdapterMessage (Some (DogStatsdSinkAny (Some m))) rest)) =>
      AdapterSink (Some (mkAdapterMessage (Some (DogStatsdSinkAny (Some (mkSinkMessage prefix (sink_rest m))))) rest))
  | _ => sink
  end.

(** Whether the prefix of the sink carries the token. *)
Definition names_backend (sink : StatsSink) : bool :=
  match prefix_of sink with Some p => StrContains p BackendNameToken | None => false end.

(** What is made of one sink. *)
Definition expanded (backend_name : string) (sink : StatsSink) : StatsSink :=
  match prefix_of sink with
  | Some p => if StrContains p BackendNameToken
              then with_prefix (StrReplaceAll BackendNameToken backend_name p) sink else sink
  | None => sink
  end.

Lemma expand_sink_spec backend_name sink :
  expand_sink backend_name sink =
  if names_backend sink && (backend_name =? EmptyString)%string
  then inl (no_backend_name (default EmptyString (prefix_of sink)))
  else inr (expanded backend_name sink).
Proof.
  unfold names_backend, expanded, expand_sink, expandIn.
  destruct sink as [[[[[[[p r]|]|[[p r]|]|]|] rest]|]|]; cbn; try done;
    destruct (StrContains p BackendNameToken); cbn; try done;
    destruct (backend_name =? EmptyString)%string; done.
Qed.

(** A token at the beginning of a string, before text it shares no character
    with, is in the string. *)
Lemma sprefix_apart t a b c :
  b <> EmptyString -> t <> EmptyString ->
  (forall x, all_chars (fun d => d <> x) t \/ all_chars (fun d => d <> x) b) ->
  (exists v, a +:+ b +:+ c = t +:+ v) -> exists v, a = t +:+ v.
Proof.
  intros Hb _ Hd [v E]. revert t v Hd E. induction a as [|x a IH]; intros t v Hd E.
  - rewrite sapp_nil in E. destruct b as [|y b]; [done|]. destruct t as [|z t]; [by exists EmptyString|].
    rewrite !sapp_cons in E. injection E as -> _. destruct (Hd z) as [[? _]|[? _]]; done.
  - destruct t as [|z t]; [by exists (String x a)|]. rewrite !sapp_cons in E. injection E as -> E.
    destruct (IH t v) as [v' ->]; [|done|exists v'; by rewrite sapp_cons].
    intros w. destruct (Hd w) as [[_ ?]|?]; [by left|by right].
Qed.

(** A token that shares no character with the nonempty text between two strings
    occurs in one of them or not at all. *)
Lemma occurs_apart t a b c :
  b <> EmptyString -> t <> EmptyString ->
  (forall x, all_chars (fun d => d <> x) t \/ all_chars (fun d => d <> x) b) ->
  occurs t (a +:+ b +:+ c) -> occurs t a \/ occurs t c.
Proof.
  intros Hb Ht Hd. induction a as [|x a IH].
  - rewrite sapp_nil. intros (u & v & E). right. revert u v E.
    induction b as [|y b IHb]; intros u v E; [done|].
    assert (all_chars (fun d => d <> y) t) as Hy by (destruct (Hd y) as [|[? _]]; done).
    destruct u as [|z u].
    { rewrite sapp_nil in E. destruct t as [|z t]; [done|]. rewrite !sapp_cons in E. injection E as -> _.
      by destruct Hy. }
    rewrite !sapp_cons in E. injection E as -> E. destruct b as [|y' b].
    + exists u, v. by rewrite sapp_nil in E.
    + apply (IHb ltac:(done)) with u v; [|done]. intros w. destruct (Hd w) as [?|[_ ?]]; [by left|by right].
  - rewrite sapp_cons. intros (u & v & E). destruct u as [|z u].
    + rewrite sapp_nil in E. left.
      destruct (sprefix_apart t (String x a) b c Hb Ht Hd) as [v' ->]; [exists v; by rewrite sapp_cons|].
      exists EmptyString, v'. by rewrite sapp_nil.
    + rewrite sapp_cons in E. injection E as -> E.
      destruct IH as [(u' & v' & ->)|?]; [by exists u, v| |by right]. left. exists (String z u'), v'. by rewrite sapp_cons.
Qed.

Lemma sjoin_apart t sep l :
  sep <> EmptyString -> t <> EmptyString ->
  (forall x, all_chars (fun d => d <> x) t \/ all_chars (fun d => d <> x) sep) ->
  Forall (fun p => ~ occurs t p) l -> ~ occurs t (sjoin sep l).
Proof.
  intros Hs Ht Hd Hl. induction Hl as [|a l Ha Hl IH].
  - intros (u & v & E). destruct u; [|by rewrite sapp_cons in E]. rewrite sapp_nil in E. by destruct t.
  - destruct l; [done|]. rewrite sjoin_cons by done.
    intros Ho. by apply (occurs_apart t a sep) in Ho as [?|?].
Qed.

(** The token has no character a reduced name can have. *)
Lemma token_apart name x :
  all_chars (fun c => name_char c = true) name ->
  all_chars (fun d => d <> x) BackendNameToken \/ all_chars (fun d => d <> x) name.
Proof.
  intros Hn. destruct (name_char x) eqn:Ex.
  - left. assert (all_chars (fun c => name_char c = false) BackendNameToken) as Ht by (by repeat split).
    eapply all_chars_impl; [|exact Ht]. intros c Hc ->. congruence.
  - right. eapply all_chars_impl; [|exact Hn]. intros c Hc ->. congruence.
Qed.

Lemma expanded_no_token name sink :
  name <> EmptyString -> all_chars (fun c => name_char c = true) name ->
  names_backend (expanded name sink) = false.
Proof.
  intros Hne Hn. unfold expanded. destruct (prefix_of sink) as [p|] eqn:Ep.
  2: { unfold names_backend. by rewrite Ep. }
  destruct (StrContains p BackendNameToken) eqn:Ec; [|unfold names_backend; by rewrite Ep].
  destruct (replace_pieces BackendNameToken name p) as (pieces & _ & -> & Hp); [done|].
  assert (forall q, prefix_of (with_prefix q sink) = Some q) as Hq
    by (intros q; destruct sink as [[[[[[[? ?]|]|[[? ?]|]|]|] ?]|]|]; done).
  unfold names_backend. rewrite Hq. apply not_true_iff_false. rewrite contains_occurs.
  apply sjoin_apart; [done|done|intros x; by apply token_apart|done].
Qed.

(** [expandBackendName]: with a sanitized name it always succeeds, changes
    nothing but the prefixes that carry the token, in each of those replaces it,
    and no prefix carries it afterwards. Without a name it fails exactly when a
    prefix carries the token, with the first such prefix in the error, and
    otherwise leaves every sink as it was. *)
Lemma expand_backend_name_spec name sinks :
  (name <> EmptyString -> all_chars (fun c => name_char c = true) name ->
   expandBackendName name sinks = (None, expanded name <$> sinks) /\
   Forall (fun sink => names_backend sink = false) (snd (expandBackendName name sinks))) /\
  (name = EmptyString ->
   fst (expandBackendName name sinks) =
     no_backend_name ∘ default EmptyString ∘ prefix_of <$> head (List.filter names_backend sinks) /\
   (fst (expandBackendName name sinks) = None -> snd (expandBackendName name sinks) = sinks)).
Proof.
  split.
  - intros Hne Hn.
    assert (expandBackendName name sinks = (None, expanded name <$> sinks)) as E.
    { induction sinks as [|sink sinks IH]; cbn; [done|].
      rewrite expand_sink_spec, string_eqb_false, andb_false_r by done. by rewrite IH. }
    split; [done|]. rewrite E. cbn. apply Forall_fmap, Forall_true. intros sink. by apply expanded_no_token.
  - intros ->. induction sinks as [|sink sinks [IH1 IH2]]; cbn; [done|].
    rewrite expand_sink_spec, String.eqb_refl, andb_true_r. destruct (names_backend sink) eqn:Eb; cbn; [done|].
    destruct (expandBackendName EmptyString sinks) as [e l]. cbn in *. split; [done|]. intros He.
    rewrite (IH2 He). f_equal. unfold expanded. unfold names_backend in Eb.
    destruct (prefix_of sink); [by rewrite Eb|done].
Qed.

End Names.

Section Demo.
#[local] Existing Instance absl_match_documented.
#[local] Existing Instance absl_match_laws.

Definition demo_sinks : list StatsSink :=
  [OtherStatsSink [1];
   AdapterSink (Some (mkAdapterMessage (Some (StatsdSinkAny (Some (mkSinkMessage "load.%BACKEND%.x" [7])))) [8]))].

Lemma sanitize_demo : sanitizeBackendName "-Node-A..example_1 " = "node_a_example_1"%string.
Proof. reflexivity. Qed.

Lemma expand_backend_name_spec_witness :
  expandBackendName "node_a" demo_sinks =
  (None,
   [OtherStatsSink [1];
    AdapterSink (Some (mkAdapterMessage (Some (StatsdSinkAny (Some (mkSinkMessage "load.node_a.x" [7])))) [8]))]).
Proof.
  destruct (proj1 (expand_backend_name_spec "node_a" demo_sinks)) as [-> _]; [done|by repeat split|reflexivity].
Defined.

Lemma sanitize_documented_witness : sanitizeBackendName (sanitizeBackendName "A b") = sanitizeBackendName "A b".
Proof. apply (sanitize_documented "A b"). Defined.

End Demo.
