(* ===== verification/Service.v ===== *)
(** * The service

    Models [engine/source/client/service_impl.{h,cc}]: a gRPC service on which
    streams start executions, up to a number at once, cancel them, and read
    interim responses and a final one.

    Every stream has a thread of its own and every execution another; they share
    the count of running executions and, per execution, whether it is done, its
    process and whether a cancellation was asked for. Every section under a lock
    is one step; the steps of all threads interleave freely. What building the
    options, creating the process and running it yield are arguments of the
    steps; the options themselves have a verbosity, stats sinks and a rest that
    is not looked at. *)

From S2P Require Import Prelude Text BackendName.

(** ** Data *)

Inductive StatusCode : Type := OK | INVALID_ARGUMENT | RESOURCE_EXHAUSTED | INTERNAL.

#[export] Instance StatusCode_eq_dec : EqDecision StatusCode.
Proof. solve_decision. Defined.

Inductive Verbosity : Type := TRACE | DEBUG | INFO | WARN | ERROR | CRITICAL.

#[export] Instance Verbosity_eq_dec : EqDecision Verbosity.
Proof. solve_decision. Defined.

(** The levels of the logging library. *)
Inductive log_level : Type :=
| level_trace | level_debug | level_info | level_warn | level_err | level_critical | level_off.

Definition currentVerbosity (level : log_level) : Verbosity :=
  match level with
  | level_trace => TRACE
  | level_debug => DEBUG
  | level_info => INFO
  | level_warn => WARN
  | level_err => ERROR
  | level_critical | level_off => CRITICAL
  end.

Record CommandLineOptions : Type := mkCommandLineOptions {
  clo_verbosity : option Verbosity;
  clo_stats_sinks : list StatsSink;
  clo_rest : list Z;
}.

(** A duration is seconds and nanoseconds, 64 and 32 bits wide. *)
Record StartRequest : Type := mkStartRequest {
  start_options : CommandLineOptions;
  start_progress_interval : option (Z * Z);
  start_progress_statistics : bool;
}.

Inductive ExecutionRequest : Type :=
| start_request (r : StartRequest)
| update_request
| cancellation_request
| no_command.

(** ** The beginning of an execution

    What [handleExecutionRequest] does before it creates a process: the options
    to run with and the interval of the progress, or the error to answer with. *)

Record ErrorDetail : Type := mkErrorDetail { error_code : StatusCode; error_message : string }.

Definition bad_progress_interval : string :=
  "progress_interval must be at least 1ms (it is the period of the progress timer)".

(** In milliseconds, rounded up; arithmetic on [int64_t] that overflows is
    undefined. *)
Definition progress_interval (interval : option (Z * Z)) : outcome (ErrorDetail + Z) :=
  match interval with
  | None => Ok (inr 0)
  | Some (seconds, nanos) =>
      let total := seconds * 1000000000 + nanos in
      if negb ((- 2 ^ 63 <=? seconds * 1000000000) && (seconds * 1000000000 <=? INT64_MAX) &&
               (- 2 ^ 63 <=? total) && (total <=? INT64_MAX)) then Undefined
      else if total <? 1000000 then Ok (inl (mkErrorDetail INVALID_ARGUMENT bad_progress_interval))
      else if INT64_MAX <? total + 999999 then Undefined
      else Ok (inr (Z.quot (total + 999999) 1000000))
  end.

Section Setup.
Context `{AbslMatch}.

(** The requested options as they are run: the service's verbosity when
    executions run concurrently, the backend's name in the sinks. *)
Definition requested_options (max_concurrent : Z) (service_verbosity : Verbosity) (backend_name : string)
    (options : CommandLineOptions) : ErrorDetail + CommandLineOptions :=
  let verbosity := if 1 <? max_concurrent then Some service_verbosity else clo_verbosity options in
  match expandBackendName backend_name (clo_stats_sinks options) with
  | (Some e, _) => inl (mkErrorDetail INVALID_ARGUMENT e)
  | (None, sinks) => inr (mkCommandLineOptions verbosity sinks (clo_rest options))
  end.

(** [build]: the construction of [OptionsImpl], which throws on malformed ones. *)
Definition execution_setup (max_concurrent : Z) (service_verbosity : Verbosity) (backend_name : string)
    (build : CommandLineOptions -> option string) (request : StartRequest) :
    outcome (ErrorDetail + CommandLineOptions * Z) :=
  match requested_options max_concurrent service_verbosity backend_name (start_options request) with
  | inl e => Ok (inl e)
  | inr options =>
      match build options with
      | Some what => Ok (inl (mkErrorDetail INTERNAL what))
      | None =>
          let* interval := progress_interval (start_progress_interval request) in
          match interval with
          | inl e => Ok (inl e)
          | inr ms => Ok (inr (options, ms))
          end
      end
  end.

End Setup.

(** ** Threads *)

(** A response on a stream: of the execution with that number on the stream. *)
Inductive ExecutionResponse : Type :=
| Interim (run : nat)
| Final (run : nat) (error : option ErrorDetail).

(** Where the thread of an execution is: building the process; running it; run,
    the progress thread joined; the process unpublished; the slot given back;
    marked done; over. [None] as the response: it unwinds an exception. *)
Inductive RunPc : Type :=
| Building
| Running
| RunOver (response : option ExecutionResponse)
| Unpublished (response : option ExecutionResponse)
| SlotReleased (response : option ExecutionResponse)
| MarkedDone (response : option ExecutionResponse)
| ThreadOver.

(** [ex_process]: whether a process is published; [ex_cancelled]: whether its
    cancellation was requested; [ex_cancel_seen] remembers that a cancellation
    was read before the execution was done. *)
Record Execution : Type := mkExecution {
  ex_pc : RunPc;
  ex_process : bool;
  ex_done : bool;
  ex_cancel_requested : bool;
  ex_cancelled : bool;
  ex_cancel_seen : bool;
}.

Definition new_execution : Execution := mkExecution Building false false false false false.

(** Where the thread of a stream is: at [Read]; waiting for the thread of an
    execution that is done; about to count itself in; counted in, about to create
    the execution; finishing, after waiting for the execution or not; returned. *)
Inductive StreamPc : Type :=
| Reading
| Joining
| Starting
| Spawning
| Finishing (wait : bool) (status : StatusCode)
| Returned (status : StatusCode).

Record ServiceStream : Type := mkServiceStream {
  st_pc : StreamPc;
  st_execution : option Execution;
  st_runs : nat;
  st_responses : list ExecutionResponse;
  st_trailer : option Z;
}.

Definition new_stream_state : ServiceStream := mkServiceStream Reading None 0 [] None.

#[export] Instance ServiceStream_inhabited : Inhabited ServiceStream := populate new_stream_state.

Record ServiceImpl : Type := mkService {
  max_concurrent_executions_ : Z;
  active_executions_ : Z;
  service_streams : list ServiceStream;
  service_panicked : bool;
}.

(** Field updates. *)
Definition set_st_pc (pc : StreamPc) (x : ServiceStream) : ServiceStream :=
  mkServiceStream pc (st_execution x) (st_runs x) (st_responses x) (st_trailer x).

Definition set_st_execution (e : option Execution) (x : ServiceStream) : ServiceStream :=
  mkServiceStream (st_pc x) e (st_runs x) (st_responses x) (st_trailer x).

Definition set_ex_pc (pc : RunPc) (e : Execution) : Execution :=
  mkExecution pc (ex_process e) (ex_done e) (ex_cancel_requested e) (ex_cancelled e) (ex_cancel_seen e).

Definition with_execution (e : Execution) (x : ServiceStream) : ServiceStream := set_st_execution (Some e) x.

Definition add_response (r : ExecutionResponse) (x : ServiceStream) : ServiceStream :=
  mkServiceStream (st_pc x) (st_execution x) (st_runs x) (st_responses x ++ [r]) (st_trailer x).

Definition update_st (i : nat) (f : ServiceStream -> ServiceStream) (s : ServiceImpl) : ServiceImpl :=
  mkService (max_concurrent_executions_ s) (active_executions_ s) (alter f i (service_streams s))
    (service_panicked s).

Definition set_active (n : Z) (s : ServiceImpl) : ServiceImpl :=
  mkService (max_concurrent_executions_ s) n (service_streams s) (service_panicked s).

(** An assertion fails, which ends the service. *)
Definition service_panic (s : ServiceImpl) : ServiceImpl :=
  mkService (max_concurrent_executions_ s) (active_executions_ s) (service_streams s) true.

(** ** The thread of a stream *)

(** The start of [ExecutionStream]'s loop body on a start request. *)
Definition read_start (x : ServiceStream) : ServiceStream :=
  match st_execution x with
  | None => set_st_pc Starting x
  | Some e => if ex_done e then set_st_pc Joining x else set_st_pc (Finishing true INTERNAL) x
  end.

Definition read_cancellation (x : ServiceStream) : ServiceStream :=
  match st_execution x with
  | None => x
  | Some e =>
      if ex_done e then x
      else if ex_process e then
        with_execution (mkExecution (ex_pc e) (ex_process e) (ex_done e) (ex_cancel_requested e) true true) x
      else
        with_execution (mkExecution (ex_pc e) (ex_process e) (ex_done e) true (ex_cancelled e) true) x
  end.

(** One request read; [None]: the stream is at its end. *)
Definition read_request (request : option ExecutionRequest) (i : nat) (s : ServiceImpl) : ServiceImpl :=
  match request with
  | None => update_st i (set_st_pc (Finishing true OK)) s
  | Some (start_request _) => update_st i read_start s
  | Some cancellation_request => update_st i read_cancellation s
  | Some update_request => update_st i (set_st_pc (Finishing true INTERNAL)) s
  | Some no_command => service_panic s
  end.

(** The slot is taken, or the stream refused with the cap in its trailer. *)
Definition take_slot (i : nat) (s : ServiceImpl) : ServiceImpl :=
  if max_concurrent_executions_ s <=? active_executions_ s then
    update_st i (fun x => mkServiceStream (Finishing false RESOURCE_EXHAUSTED) (st_execution x) (st_runs x)
                            (st_responses x) (Some (max_concurrent_executions_ s))) s
  else update_st i (set_st_pc Spawning) (set_active (active_executions_ s + 1) s).

(** The execution and its thread are created, or something throws. *)
Definition spawn (created : bool) (i : nat) (s : ServiceImpl) : ServiceImpl :=
  if created then
    update_st i (fun x => mkServiceStream Reading (Some new_execution) (S (st_runs x)) (st_responses x)
                            (st_trailer x)) s
  else
    update_st i (fun x => set_st_pc (Finishing false INTERNAL) (set_st_execution None x))
      (set_active (active_executions_ s - 1) s).

(** Whether the thread of the stream's execution is over, if there is one. *)
Definition execution_over (x : ServiceStream) : bool :=
  match st_execution x with
  | Some e => match ex_pc e with ThreadOver => true | _ => false end
  | None => true
  end.

(** ** The thread of an execution *)

(** The process is published; a cancellation asked for before is passed on. *)
Definition publish (e : Execution) : Execution :=
  mkExecution Running true (ex_done e) (ex_cancel_requested e) (ex_cancel_requested e) (ex_cancel_seen e).

Definition unpublish (response : option ExecutionResponse) (e : Execution) : Execution :=
  mkExecution (Unpublished response) false (ex_done e) (ex_cancel_requested e) (ex_cancelled e) (ex_cancel_seen e).

Definition mark_done (response : option ExecutionResponse) (e : Execution) : Execution :=
  mkExecution (MarkedDone response) (ex_process e) true (ex_cancel_requested e) (ex_cancelled e) (ex_cancel_seen e).

Definition update_ex (i : nat) (e : Execution) (s : ServiceImpl) : ServiceImpl :=
  update_st i (with_execution e) s.

Definition execution_at (s : ServiceImpl) (i : nat) : option Execution :=
  service_streams s !! i ≫= st_execution.

(** ** Executions

    [run_step]: a step of the thread of the execution [e], the [n]th of stream
    [i]. A setup that failed answers with its error; [run] returns, with success
    or not, or throws. An exception leaves without [shutdown()] of the process:
    thrown once the process was set up, the assertion of its destructor ends the
    service. *)

Inductive run_step (i n : nat) (e : Execution) (s : ServiceImpl) : ServiceImpl -> Prop :=
| run_setup_failed error :
    ex_pc e = Building ->
    run_step i n e s (update_ex i (set_ex_pc (Unpublished (Some (Final n (Some error)))) e) s)
| run_published : ex_pc e = Building -> run_step i n e s (update_ex i (publish e) s)
| run_progress : ex_pc e = Running -> run_step i n e s (update_st i (add_response (Interim n)) s)
| run_returned error :
    ex_pc e = Running -> run_step i n e s (update_ex i (set_ex_pc (RunOver (Some (Final n error))) e) s)
| run_threw : ex_pc e = Running -> run_step i n e s (update_ex i (set_ex_pc (RunOver None) e) s)
| run_threw_set_up : ex_pc e = Running -> run_step i n e s (service_panic s)
| run_unpublished r : ex_pc e = RunOver r -> run_step i n e s (update_ex i (unpublish r e) s)
| run_released r :
    ex_pc e = Unpublished r ->
    run_step i n e s (update_ex i (set_ex_pc (SlotReleased r) e) (set_active (active_executions_ s - 1) s))
| run_done r : ex_pc e = SlotReleased r -> run_step i n e s (update_ex i (mark_done r e) s)
| run_answered r :
    ex_pc e = MarkedDone (Some r) ->
    run_step i n e s (update_st i (fun x => add_response r (with_execution (set_ex_pc ThreadOver e) x)) s)
| run_ended :
    ex_pc e = MarkedDone None -> run_step i n e s (update_ex i (set_ex_pc ThreadOver e) s).

Inductive service_step (s : ServiceImpl) : ServiceImpl -> Prop :=
| step_stream_opened :
    service_step s (mkService (max_concurrent_executions_ s) (active_executions_ s)
                      (service_streams s ++ [new_stream_state]) (service_panicked s))
| step_read i x request :
    service_streams s !! i = Some x -> st_pc x = Reading -> service_step s (read_request request i s)
| step_joined i x :
    service_streams s !! i = Some x -> st_pc x = Joining -> execution_over x = true ->
    service_step s (update_st i (set_st_pc Starting) s)
| step_take_slot i x :
    service_streams s !! i = Some x -> st_pc x = Starting -> service_step s (take_slot i s)
| step_spawn created i x :
    service_streams s !! i = Some x -> st_pc x = Spawning -> service_step s (spawn created i s)
| step_finished i x wait status :
    service_streams s !! i = Some x -> st_pc x = Finishing wait status ->
    wait = false \/ execution_over x = true ->
    service_step s (update_st i (set_st_pc (Returned status)) s)
| step_run i x e s' :
    service_streams s !! i = Some x -> st_execution x = Some e ->
    run_step i (st_runs x) e s s' -> service_step s s'.

Inductive service_reachable (max : Z) : ServiceImpl -> Prop :=
| service_new : service_reachable max (mkService max 0 [] false)
| service_steps s s' :
    service_reachable max s -> service_panicked s = false -> service_step s s' -> service_reachable max s'.

(** ** The invariant *)

Definition running_in_slot (e : Execution) : bool :=
  match ex_pc e with
  | Building | Running | RunOver _ | Unpublished _ => true
  | SlotReleased _ | MarkedDone _ | ThreadOver => false
  end.

Definition holds_slot (x : ServiceStream) : bool :=
  match st_pc x, st_execution x with
  | Spawning, _ => true
  | _, Some e => running_in_slot e
  | _, None => false
  end.

Definition pc_response (pc : RunPc) : option ExecutionResponse :=
  match pc with
  | RunOver r | Unpublished r | SlotReleased r | MarkedDone r => r
  | _ => None
  end.

(** The execution [n] of a stream. *)
Record ex_ok (n : nat) (e : Execution) : Prop := {
  eo_done : ex_done e = match ex_pc e with MarkedDone _ | ThreadOver => true | _ => false end;
  eo_process : ex_process e = match ex_pc e with Running | RunOver _ => true | _ => false end;
  eo_cancel : ex_cancel_seen e = true ->
    match ex_pc e with
    | Building => ex_cancel_requested e = true
    | Running | RunOver _ => ex_cancelled e = true
    | _ => True
    end;
  eo_response : forall r, pc_response (ex_pc e) = Some r -> exists error, r = Final n error;
}.

(** What may be followed by what on a stream: an interim response by others of
    its execution or of a later one, a final one by a later execution's only. *)
Definition run_of (r : ExecutionResponse) : nat := match r with Interim n | Final n _ => n end.

Definition response_before (a b : ExecutionResponse) : Prop :=
  match a with Interim n => n <= run_of b | Final n _ => n < run_of b end%nat.

(** The responses written when [runs] executions were started, the last of which
    is over or not. *)
Definition responses_ok (runs : nat) (over : bool) (l : list ExecutionResponse) : Prop :=
  StronglySorted response_before l /\
  Forall (fun r => match r with
                   | Interim n => n <= runs
                   | Final n _ => n < runs \/ (over = true /\ n = runs)
                   end%nat) l.

Record st_ok (x : ServiceStream) : Prop := {
  so_execution : forall e, st_execution x = Some e -> ex_ok (st_runs x) e;
  so_over : match st_pc x with
            | Starting | Spawning | Finishing false _ | Returned _ => execution_over x = true
            | _ => True
            end;
  so_responses : responses_ok (st_runs x) (execution_over x) (st_responses x);
}.

Record service_ok (s : ServiceImpl) : Prop := {
  sv_active : active_executions_ s = Z.of_nat (length (List.filter holds_slot (service_streams s)));
  sv_bound : active_executions_ s <= max_concurrent_executions_ s;
  sv_streams : forall i x, service_streams s !! i = Some x -> st_ok x;
}.

Lemma over_no_slot x : execution_over x = true -> st_pc x <> Spawning -> holds_slot x = false.
Proof.
  unfold execution_over, holds_slot, running_in_slot. intros Ho Hs.
  destruct (st_execution x) as [e|]; [destruct (ex_pc e)|]; try done; by destruct (st_pc x).
Qed.

(** A change of one stream, with the count. *)
Lemma service_update i x g a s :
  service_streams s !! i = Some x -> st_ok (g x) ->
  a = active_executions_ s - Z.b2z (holds_slot x) + Z.b2z (holds_slot (g x)) ->
  a <= max_concurrent_executions_ s ->
  service_ok s -> service_ok (update_st i g (set_active a s)).
Proof.
  intros Hi Hg -> Hb [Ha Hm Hs]. split; cbn; [|done|].
  - rewrite (filter_alter_length _ _ _ _ _ Hi), <- Ha. done.
  - intros j y Hy. rewrite list_lookup_alter in Hy. case_decide; [subst j|by apply (Hs j)].
    rewrite Hi in Hy. by injection Hy as <-.
Qed.

Lemma set_active_same s : set_active (active_executions_ s) s = s.
Proof. by destruct s. Qed.

(** A change that neither takes nor gives a slot. *)
Lemma service_update_same i x g s :
  service_streams s !! i = Some x -> st_ok (g x) -> holds_slot (g x) = holds_slot x ->
  service_ok s -> service_ok (update_st i g s).
Proof.
  intros Hi Hg He Hs. rewrite <- (set_active_same s). apply (service_update i x); try done.
  - rewrite He. lia.
  - apply Hs.
Qed.

Lemma responses_over runs b l : responses_ok runs false l -> responses_ok runs b l.
Proof.
  intros [Hs Hf]. split; [done|]. eapply Forall_impl; [exact Hf|]. intros [n|n e]; [done|]. intros [?|[? _]]; [by left|done].
Qed.

Lemma responses_next runs b l : responses_ok runs b l -> responses_ok (S runs) false l.
Proof.
  intros [Hs Hf]. split; [done|]. eapply Forall_impl; [exact Hf|]. intros [n|n e]; cbn; [lia|]. intros [?|[_ ?]]; left; lia.
Qed.

Lemma responses_add runs r b l :
  responses_ok runs false l -> run_of r = runs -> (forall n e, r = Final n e -> b = true) ->
  responses_ok runs b (l ++ [r]).
Proof.
  intros [Hs Hf] Hr Hb. split.
  - assert (Forall (fun a => response_before a r) l) as Hl.
    { eapply Forall_impl; [exact Hf|]. intros [n|n e]; cbn; rewrite Hr; [done|]. intros [?|[? _]]; done. }
    clear -Hs Hl. induction Hs as [|a l Hs IH Ha]; cbn; [by repeat constructor|].
    apply Forall_cons in Hl as [H1 H2]. constructor; [by apply IH|]. apply Forall_app. split; [done|by constructor].
  - apply Forall_app. split.
    + eapply Forall_impl; [exact Hf|]. intros [n|n e]; [done|]. intros [?|[? _]]; [by left|done].
    + constructor; [|constructor]. destruct r as [n|n e]; cbn in *; subst; [done|]. right. split; [by eapply Hb|done].
Qed.

(** The execution of a stream moves on, and is not over. *)
Lemma st_ok_execution e e' x :
  st_ok x -> st_execution x = Some e -> ex_pc e <> ThreadOver -> ex_ok (st_runs x) e' ->
  st_ok (with_execution e' x).
Proof.
  intros [He Ho Hr] Hx Hpc He'.
  assert (execution_over x = false) as Hov by (unfold execution_over; rewrite Hx; by destruct (ex_pc e)).
  split; cbn.
  - by intros e0 [= <-].
  - rewrite Hov in Ho. destruct (st_pc x) as [| | | |[] |]; done.
  - rewrite Hov in Hr. by apply responses_over.
Qed.

Lemma slot_execution e e' x :
  st_execution x = Some e -> running_in_slot e' = running_in_slot e ->
  holds_slot (with_execution e' x) = holds_slot x.
Proof. intros Hx He. unfold holds_slot. cbn. rewrite Hx, He. done. Qed.

Lemma live_not_spawning e x :
  st_ok x -> st_execution x = Some e -> ex_pc e <> ThreadOver ->
  execution_over x = false /\ st_pc x <> Spawning /\ holds_slot x = running_in_slot e.
Proof.
  intros [_ Ho _] Hx Hpc.
  assert (execution_over x = false) as Hov by (unfold execution_over; rewrite Hx; by destruct (ex_pc e)).
  rewrite Hov in Ho. assert (st_pc x <> Spawning) as Hs by (by intros Es; rewrite Es in Ho).
  split_and!; [done|done|]. unfold holds_slot. rewrite Hx. by destruct (st_pc x).
Qed.

(** The execution moves on inside its slot, or outside it. *)
Lemma service_execution i x e e' s :
  service_ok s -> service_streams s !! i = Some x -> st_execution x = Some e -> ex_pc e <> ThreadOver ->
  ex_ok (st_runs x) e' -> running_in_slot e' = running_in_slot e -> service_ok (update_ex i e' s).
Proof.
  intros Hs Hi Hx Hpc He' Hslot. apply (service_update_same i x); try done.
  - eapply st_ok_execution; [by apply (sv_streams s Hs i)|done..].
  - by eapply slot_execution.
Qed.

Lemma run_step_ok i x e s s' :
  service_ok s -> service_streams s !! i = Some x -> st_execution x = Some e ->
  run_step i (st_runs x) e s s' -> service_ok s'.
Proof.
  intros Hs Hi Hx Hr. pose proof (sv_streams s Hs i x Hi) as Hst.
  pose proof (so_execution x Hst e Hx) as [Hd Hp Hc Hre].
  destruct Hr as [error Hpc|Hpc|Hpc|error Hpc|Hpc|Hpc|r Hpc|r Hpc|r Hpc|r Hpc|Hpc];
    rewrite Hpc in Hd, Hp, Hc, Hre;
    destruct (live_not_spawning e x Hst Hx ltac:(congruence)) as (Hov & Hsp & Hsl).
  - apply (service_execution i x e _ s Hs Hi Hx ltac:(congruence)); [|unfold running_in_slot; by rewrite Hpc].
    split; cbn; [done|done|done|]. intros r [= <-]. by eexists.
  - apply (service_execution i x e _ s Hs Hi Hx ltac:(congruence)); [|unfold running_in_slot; by rewrite Hpc].
    split; cbn; try done. 
  - apply (service_update_same i x); try done. split; cbn.
    + intros e0 He0. rewrite Hx in He0. injection He0 as <-. by apply (so_execution x Hst).
    + apply (so_over x Hst).
    + change (execution_over (add_response (Interim (st_runs x)) x)) with (execution_over x). rewrite Hov.
      apply responses_add; [|done|done]. rewrite <- Hov. apply (so_responses x Hst).
  - apply (service_execution i x e _ s Hs Hi Hx ltac:(congruence)); [|unfold running_in_slot; by rewrite Hpc].
    split; cbn; try done. intros r [= <-]. by eexists.
  - apply (service_execution i x e _ s Hs Hi Hx ltac:(congruence)); [|unfold running_in_slot; by rewrite Hpc].
    by split; cbn.
  - destruct Hs as [H1 H2 H3]. by split.
  - apply (service_execution i x e _ s Hs Hi Hx ltac:(congruence)); [|unfold running_in_slot; by rewrite Hpc].
    by split; cbn.
  - assert (running_in_slot e = true) as Hin by (unfold running_in_slot; by rewrite Hpc).
    assert (holds_slot (with_execution (set_ex_pc (SlotReleased r) e) x) = false) as Hout
      by (unfold holds_slot; cbn; by destruct (st_pc x)).
    apply (service_update i x (with_execution (set_ex_pc (SlotReleased r) e))); try done.
    + eapply st_ok_execution; [done..|congruence|by split; cbn].
    + rewrite Hsl, Hin, Hout. cbn. lia.
    + pose proof (sv_bound s Hs). lia.
  - apply (service_execution i x e _ s Hs Hi Hx ltac:(congruence)); [|unfold running_in_slot; by rewrite Hpc].
    by split; cbn.
  - destruct (Hre r eq_refl) as [error ->].
    apply (service_update_same i x); try done.
    + split; cbn.
      * intros e0 [= <-]. by split; cbn.
      * by destruct (st_pc x) as [| | | |[] |].
      * change (execution_over _) with true. apply responses_add; [|done|done].
        rewrite <- Hov. apply (so_responses x Hst).
    + rewrite Hsl. unfold holds_slot, running_in_slot. cbn. rewrite Hpc. by destruct (st_pc x).
  - apply (service_update_same i x); try done.
    + split; cbn.
      * intros e0 [= <-]. by split; cbn.
      * by destruct (st_pc x) as [| | | |[] |].
      * change (execution_over _) with true. apply responses_over. rewrite <- Hov. apply (so_responses x Hst).
    + rewrite Hsl. unfold holds_slot, running_in_slot. cbn. rewrite Hpc. by destruct (st_pc x).
Qed.

(** The thread of a stream goes to another place. *)
Lemma st_ok_pc pc x :
  st_ok x ->
  match pc with Starting | Spawning | Finishing false _ | Returned _ => execution_over x = true | _ => True end ->
  st_ok (set_st_pc pc x).
Proof. intros [He Ho Hr] Hpc. by split. Qed.

Lemma slot_pc pc x :
  st_pc x <> Spawning -> pc <> Spawning -> holds_slot (set_st_pc pc x) = holds_slot x.
Proof. intros H1 H2. unfold holds_slot. cbn. by destruct (st_pc x), pc. Qed.

Lemma read_ok request i x s :
  service_ok s -> service_streams s !! i = Some x -> st_pc x = Reading -> service_ok (read_request request i s).
Proof.
  intros Hs Hi Hpc. pose proof (sv_streams s Hs i x Hi) as Hst.
  assert (forall pc, (match pc with Joining | Finishing true _ => True | Starting => st_execution x = None | _ => False end) ->
            st_ok (set_st_pc pc x) /\ holds_slot (set_st_pc pc x) = holds_slot x) as Hgo.
  { intros pc Hp. split.
    - apply st_ok_pc; [done|]. destruct pc as [| | | |[] |]; try done. unfold execution_over. by rewrite Hp.
    - apply slot_pc; [congruence|]. by destruct pc. }
  destruct request as [[r| | |]|]; cbn [read_request].
  - apply (service_update_same i x); try done; unfold read_start;
      destruct (st_execution x) as [e|] eqn:Ee; try destruct (ex_done e); by apply Hgo.
  - apply (service_update_same i x); [done|apply Hgo; done|apply Hgo; done|done].
  - apply (service_update_same i x); try done; unfold read_cancellation;
      destruct (st_execution x) as [e|] eqn:Ee; try done; destruct (ex_done e) eqn:Ed; try done;
      pose proof (so_execution x Hst e Ee) as [Hd Hp Hc Hre];
      assert (ex_pc e <> ThreadOver) as Hne by (intros E; rewrite E in Hd; congruence).
    + rewrite Ed in Hd. destruct (ex_process e) eqn:Ep; (eapply st_ok_execution; [done..|]);
        split; cbn; rewrite ?Ep; try done; by destruct (ex_pc e).
    + destruct (ex_process e); (eapply slot_execution; [exact Ee|]); done.
  - by destruct Hs.
  - apply (service_update_same i x); [done|apply Hgo; done|apply Hgo; done|done].
Qed.

Lemma service_step_ok s s' : service_step s s' -> service_ok s -> service_ok s'.
Proof.
  intros Hstep Hs. destruct Hstep as [|i x request Hi Hpc|i x Hi Hpc Ho|i x Hi Hpc|created i x Hi Hpc|i x wait status Hi Hpc Ho|i x e s' Hi Hx Hr];
    try pose proof (sv_streams s Hs i x Hi) as Hst.
  - destruct Hs as [Ha Hb Hs]. split; cbn; [|done|].
    + rewrite List.filter_app, length_app. cbn. lia.
    + intros j y [Hy|[_ Hy]]%lookup_app_Some; [by apply (Hs j)|].
      apply list_lookup_singleton_Some in Hy as [_ <-].
      split; [done|done|]. split; constructor.
  - by apply (read_ok request i x).
  - apply (service_update_same i x); [done|by apply st_ok_pc|apply slot_pc; congruence|done].
  - pose proof (so_over x Hst) as Hov. rewrite Hpc in Hov. unfold take_slot.
    assert (holds_slot x = false) as Hsl by (apply over_no_slot; congruence).
    destruct (_ <=? _) eqn:Ele; b2p.
    + apply (service_update_same i x); [done|by destruct Hst| |done].
      rewrite Hsl. apply over_no_slot; [done|]. cbn. congruence.
    + apply (service_update i x); [done|by apply st_ok_pc| | |done].
      * rewrite Hsl. cbn. lia.
      * lia.
  - pose proof (so_over x Hst) as Hov. rewrite Hpc in Hov. unfold spawn.
    assert (holds_slot x = true) as Hsl by (unfold holds_slot; by rewrite Hpc).
    destruct created.
    + apply (service_update_same i x); [done| |by rewrite Hsl|done]. split; cbn; try done.
      * intros e [= <-]. by split; cbn.
      * by eapply responses_next, so_responses.
    + apply (service_update i x); [done| | | |done].
      * split; cbn; try done. pose proof (so_responses x Hst) as Hr. by rewrite Hov in Hr.
      * rewrite Hsl. cbn. lia.
      * pose proof (sv_bound s Hs). lia.
  - assert (execution_over x = true) as Hov.
    { destruct Ho as [-> | ?]; [|done]. pose proof (so_over x Hst) as Hov. by rewrite Hpc in Hov. }
    apply (service_update_same i x); [done|by apply st_ok_pc|apply slot_pc; congruence|done].
  - by eapply run_step_ok.
Qed.

Lemma step_max s s' : service_step s s' -> max_concurrent_executions_ s' = max_concurrent_executions_ s.
Proof.
  intros Hs. destruct Hs as [|i x [[]|]|i x|i x|[] i x|i x w st|i x e s' _ _ Hr]; try done.
  - unfold take_slot. by destruct (_ <=? _).
  - by destruct Hr.
Qed.

Lemma reachable_service max s :
  0 <= max -> service_reachable max s -> service_ok s /\ max_concurrent_executions_ s = max.
Proof.
  intros Hm. induction 1 as [|s s' Hr [IH1 IH2] _ Hs].
  - split; [|done]. split; cbn; [done|lia|done].
  - split; [by eapply service_step_ok|]. rewrite (step_max s s' Hs). done.
Qed.

(** ** Waiting for an execution *)

(** Steps of the thread of the stream's execution only. *)
Definition execution_steps (i : nat) (s s' : ServiceImpl) : Prop :=
  exists x e, service_streams s !! i = Some x /\ st_execution x = Some e /\ run_step i (st_runs x) e s s'.

(** How many steps the thread has left, its process returning when it can. *)
Definition pc_rank (pc : RunPc) : nat :=
  match pc with
  | Building => 6 | Running => 5 | RunOver _ => 4 | Unpublished _ => 3 | SlotReleased _ => 2 | MarkedDone _ => 1
  | ThreadOver => 0
  end.

Lemma update_st_lookup i g s x :
  service_streams s !! i = Some x -> service_streams (update_st i g s) !! i = Some (g x).
Proof. intros Hi. cbn. by rewrite list_lookup_alter_eq, Hi. Qed.

Lemma execution_proceeds i x e s :
  service_streams s !! i = Some x -> st_execution x = Some e -> ex_pc e <> ThreadOver ->
  exists s' x' e', execution_steps i s s' /\ service_streams s' !! i = Some x' /\
    st_execution x' = Some e' /\ st_pc x' = st_pc x /\ (pc_rank (ex_pc e') < pc_rank (ex_pc e))%nat.
Proof.
  intros Hi Hx Hpc.
  assert (forall g s', run_step i (st_runs x) e s (update_st i g s') -> service_streams s' = service_streams s ->
            forall e', st_execution (g x) = Some e' -> st_pc (g x) = st_pc x ->
            (pc_rank (ex_pc e') < pc_rank (ex_pc e))%nat ->
            exists s' x' e', execution_steps i s s' /\ service_streams s' !! i = Some x' /\
              st_execution x' = Some e' /\ st_pc x' = st_pc x /\ (pc_rank (ex_pc e') < pc_rank (ex_pc e))%nat) as Hgo.
  { intros g s' Hr Es e' He' Hp Hlt. exists (update_st i g s'), (g x), e'. split; [by exists x, e|].
    split; [apply update_st_lookup; by rewrite Es|done]. }
  destruct (ex_pc e) eqn:Epc; try done; rewrite ?Epc in Hgo.
  - eapply Hgo; [apply (run_published _ _ _ _ Epc)|done|done|done|cbn; lia].
  - eapply Hgo; [apply (run_returned _ _ _ _ None Epc)|done|done|done|cbn; lia].
  - eapply Hgo; [apply (run_unpublished _ _ _ _ _ Epc)|done|done|done|cbn; lia].
  - eapply Hgo; [apply (run_released _ _ _ _ _ Epc)|done|done|done|cbn; lia].
  - eapply Hgo; [apply (run_done _ _ _ _ _ Epc)|done|done|done|cbn; lia].
  - destruct response as [r|].
    + eapply Hgo; [apply (run_answered _ _ _ _ _ Epc)|done|done|done|cbn; lia].
    + eapply Hgo; [apply (run_ended _ _ _ _ Epc)|done|done|done|cbn; lia].
Qed.

Lemma execution_ends i x s :
  service_streams s !! i = Some x ->
  exists s' x', rtc (execution_steps i) s s' /\ service_streams s' !! i = Some x' /\ st_pc x' = st_pc x /\
    execution_over x' = true.
Proof.
  intros Hi. destruct (st_execution x) as [e|] eqn:Hx.
  2: { exists s, x. split; [done|]. split_and!; try done. unfold execution_over. by rewrite Hx. }
  remember (pc_rank (ex_pc e)) as n eqn:En. revert s x e Hi Hx En.
  induction (lt_wf n) as [n _ IH]. intros s x e Hi Hx ->.
  destruct (decide (pc_rank (ex_pc e) = 0%nat)) as [E0|E0].
  - exists s, x. split; [done|]. split_and!; try done. unfold execution_over. rewrite Hx. by destruct (ex_pc e).
  - destruct (execution_proceeds i x e s Hi Hx) as (s1 & x1 & e1 & Hs1 & Hi1 & Hx1 & Hp1 & Hlt);
      [by intros E; rewrite E in E0|].
    destruct (IH _ Hlt s1 x1 e1 Hi1 Hx1 eq_refl) as (s2 & x2 & Hs2 & Hi2 & Hp2 & Ho2).
    exists s2, x2. split; [by eapply rtc_l|]. split_and!; try done. congruence.
Qed.

Lemma filter_delete_length {A} (p : A -> bool) i (l : list A) x :
  l !! i = Some x -> p x = false -> length (List.filter p (delete i l)) = length (List.filter p l).
Proof.
  intros Hi Hp. rewrite delete_take_drop. rewrite <- (take_drop_middle l i x Hi) at 3.
  rewrite !List.filter_app. cbn. by rewrite Hp.
Qed.

(** ** Theorems *)

(** C24. However the threads of a service interleave, the count of running
    executions is exactly the number of slots taken, by a stream about to create
    its execution or by an execution that has not given its slot back; it never
    exceeds the maximum, and never falls below zero. *)
Theorem service_slots_exact max s :
  0 <= max -> service_reachable max s ->
  active_executions_ s = Z.of_nat (length (List.filter holds_slot (service_streams s))) /\
  0 <= active_executions_ s <= max.
Proof.
  intros Hm Hr. destruct (reachable_service max s Hm Hr) as [[Ha Hb _] <-]. split; [done|]. lia.
Qed.

(** A run never stands in the way of the next one of its own stream: a
    stream about to start an execution holds no slot and no thread of an earlier
    one is left, so when it is refused the slots are all held by other streams;
    and once the final response of its last execution is written that
    execution's slot is free and it is marked done. *)
Lemma service_refused_by_others max s i x :
  0 <= max -> service_reachable max s -> service_streams s !! i = Some x ->
  (st_pc x = Starting ->
   execution_over x = true /\ holds_slot x = false /\
   (st_pc (default inhabitant (service_streams (take_slot i s) !! i)) = Finishing false RESOURCE_EXHAUSTED ->
    max <= Z.of_nat (length (List.filter holds_slot (delete i (service_streams s)))))) /\
  (forall error e, Final (st_runs x) error ∈ st_responses x -> st_execution x = Some e ->
   ex_done e = true /\ running_in_slot e = false).
Proof.
  intros Hm Hr Hi. destruct (reachable_service max s Hm Hr) as [Hs Hmax].
  pose proof (sv_streams s Hs i x Hi) as Hst.
  assert (forall error e, Final (st_runs x) error ∈ st_responses x -> st_execution x = Some e ->
            execution_over x = true /\ ex_done e = true /\ running_in_slot e = false) as Hfin.
  { intros error e Hin Hx. destruct (so_responses x Hst) as [_ Hf]. rewrite Forall_forall in Hf.
    destruct (Hf _ Hin) as [?|[Ho _]]; [lia|]. split; [done|].
    pose proof (eo_done _ e (so_execution x Hst e Hx)) as Hd. unfold execution_over in Ho. rewrite Hx in Ho.
    unfold running_in_slot. by destruct (ex_pc e). }
  split_and!.
  - intros Hpc. pose proof (so_over x Hst) as Ho. rewrite Hpc in Ho.
    assert (holds_slot x = false) as Hsl by (apply over_no_slot; congruence). split_and!; [done|done|].
    unfold take_slot. destruct (_ <=? _) eqn:Ele; b2p.
    + intros _. rewrite <- Hmax. etransitivity; [exact Ele|]. rewrite (sv_active s Hs).
      by rewrite (filter_delete_length holds_slot i _ x Hi Hsl).
    + cbn. rewrite list_lookup_alter_eq, Hi. done.
  - intros error e Hin Hx. by destruct (Hfin error e Hin Hx) as (_ & ?).
Qed.


(** A cancellation is not lost: once a stream has read one before its
    execution was done, the process is cancelled as long as it runs, and one
    still being built is cancelled at the moment it is published. *)
Lemma service_cancellation_kept max s i x e :
  0 <= max -> service_reachable max s -> service_streams s !! i = Some x -> st_execution x = Some e ->
  (st_pc x = Reading -> ex_done e = false ->
   exists e', st_execution (read_cancellation x) = Some e' /\ ex_cancel_seen e' = true) /\
  (ex_cancel_seen e = true -> ex_process e = true -> ex_cancelled e = true) /\
  (ex_cancel_seen e = true -> ex_pc e = Building -> ex_cancelled (publish e) = true).
Proof.
  intros Hm Hr Hi Hx. destruct (reachable_service max s Hm Hr) as [Hs _].
  pose proof (so_execution x (sv_streams s Hs i x Hi) e Hx) as [Hd Hp Hc _]. split_and!.
  - intros _ Hnd. unfold read_cancellation. rewrite Hx, Hnd. destruct (ex_process e); by eexists.
  - intros Hseen Hpr. specialize (Hc Hseen). rewrite Hp in Hpr. by destruct (ex_pc e).
  - intros Hseen Hb. specialize (Hc Hseen). by rewrite Hb in Hc.
Qed.

(** No stream waits for ever on its own execution: from every state of a
    stream that waits for one, steps of that execution's thread alone, with its
    process returning, lead to a state where the stream goes on. *)
Lemma service_waits_end s i x :
  service_streams s !! i = Some x ->
  st_pc x = Joining \/ (exists status, st_pc x = Finishing true status) ->
  exists s' s'' y, rtc (execution_steps i) s s' /\ service_step s' s'' /\
    service_streams s'' !! i = Some y /\
    (st_pc x = Joining -> st_pc y = Starting) /\
    (forall status, st_pc x = Finishing true status -> st_pc y = Returned status).
Proof.
  intros Hi Hpc. destruct (execution_ends i x s Hi) as (s' & x' & Hst & Hi' & Hp' & Ho).
  destruct Hpc as [Hpc|[status Hpc]].
  - exists s', (update_st i (set_st_pc Starting) s'), (set_st_pc Starting x'). split; [done|].
    split; [eapply step_joined; [exact Hi'|congruence|done]|]. split; [by apply update_st_lookup|].
    split; [done|]. intros status. congruence.
  - exists s', (update_st i (set_st_pc (Returned status)) s'), (set_st_pc (Returned status) x'). split; [done|].
    split; [eapply step_finished; [exact Hi'|by rewrite Hp'|by right]|]. split; [by apply update_st_lookup|].
    split; [congruence|]. intros status' E. rewrite Hpc in E. by injection E as ->.
Qed.

(** The interval of progress snapshots: one of at least a millisecond whose
    nanoseconds fit 64 bits is taken, rounded up to milliseconds, never more often
    than asked for; a shorter one is an [INVALID_ARGUMENT]; from 9223372037
    seconds on the multiplication overflows, which is undefined although such a
    duration is a valid one. *)
Lemma progress_interval_spec seconds nanos :
  0 <= nanos < 1000000000 ->
  let total := seconds * 1000000000 + nanos in
  (1000000 <= total -> total + 999999 <= INT64_MAX ->
   exists ms, progress_interval (Some (seconds, nanos)) = Ok (inr ms) /\
     1 <= ms /\ (ms - 1) * 1000000 < total <= ms * 1000000) /\
  (- 2 ^ 63 <= seconds * 1000000000 -> total < 1000000 ->
   progress_interval (Some (seconds, nanos)) =
     Ok (inl (mkErrorDetail INVALID_ARGUMENT bad_progress_interval))) /\
  (9223372037 <= seconds <= 315576000000 -> progress_interval (Some (seconds, nanos)) = Undefined).
Proof.
  intros Hn. cbn zeta. unfold progress_interval. set (total := seconds * 1000000000 + nanos) in *.
  unfold INT64_MAX in *. split_and!.
  - intros H1 H2. replace (negb _) with false by (symmetry; apply negb_false_iff; lia).
    replace (total <? 1000000) with false by lia. replace (_ <? total + 999999) with false by lia.
    eexists. split; [done|]. rewrite Z.quot_div_nonneg by lia.
    pose proof (Z.div_mod (total + 999999) 1000000 ltac:(lia)).
    pose proof (Z.mod_pos_bound (total + 999999) 1000000 ltac:(lia)). lia.
  - intros H1 H2. replace (negb _) with false by (symmetry; apply negb_false_iff; lia).
    by replace (total <? 1000000) with true by lia.
  - intros H1. replace (negb _) with true by (symmetry; apply negb_true_iff; lia). done.
Qed.

(** What an execution runs with: on a service that runs several at once
    always the service's own verbosity, on one that runs one at a time the
    request's; the sinks as [expandBackendName] leaves them, and everything else
    as requested. A backend name that is missing is refused before the options
    are built, malformed options before the interval is looked at. *)
Lemma execution_setup_spec `{AbslMatch} max verbosity name build request :
  (forall options ms, execution_setup max verbosity name build request = Ok (inr (options, ms)) ->
   clo_verbosity options = (if 1 <? max then Some verbosity else clo_verbosity (start_options request)) /\
   expandBackendName name (clo_stats_sinks (start_options request)) = (None, clo_stats_sinks options) /\
   clo_rest options = clo_rest (start_options request) /\
   build options = None /\ progress_interval (start_progress_interval request) = Ok (inr ms)) /\
  (forall e, fst (expandBackendName name (clo_stats_sinks (start_options request))) = Some e ->
   execution_setup max verbosity name build request = Ok (inl (mkErrorDetail INVALID_ARGUMENT e))).
Proof.
  unfold execution_setup, requested_options.
  destruct (expandBackendName name (clo_stats_sinks (start_options request))) as [[e|] sinks]; cbn; split.
  - intros options ms. discriminate.
  - by intros e' [= ->].
  - intros options ms. destruct (build _) eqn:Eb; [discriminate|].
    destruct (progress_interval _) as [[e|ms']| | |] eqn:Ei; cbn; try discriminate. intros [= <- <-]. done.
  - discriminate.
Qed.

(** ** A run

    A service for one execution at a time, with two streams: the first starts an
    execution and cancels it while it is built, the second is refused. *)

Definition demo_start : ExecutionRequest :=
  start_request (mkStartRequest (mkCommandLineOptions None [] []) None false).

Definition demo_service_opened : ServiceImpl := mkService 1 0 [new_stream_state; new_stream_state] false.

Definition demo_service_starting : ServiceImpl := read_request (Some demo_start) 0 demo_service_opened.

Definition demo_service_spawned : ServiceImpl := spawn true 0 (take_slot 0 demo_service_starting).

Lemma demo_service_spawned_reachable : service_reachable 1 demo_service_spawned.
Proof.
  apply (service_steps 1 (take_slot 0 demo_service_starting)); [|done|by eapply step_spawn].
  apply (service_steps 1 demo_service_starting); [|done|by eapply step_take_slot].
  apply (service_steps 1 demo_service_opened); [|done|by eapply step_read].
  apply (service_steps 1 (mkService 1 0 [new_stream_state] false)); [|done|apply step_stream_opened].
  apply (service_steps 1 (mkService 1 0 [] false)); [apply service_new|done|apply step_stream_opened].
Qed.

Definition demo_service_cancelled : ServiceImpl :=
  read_request (Some demo_start) 1 (read_request (Some cancellation_request) 0 demo_service_spawned).

Lemma demo_service_cancelled_reachable : service_reachable 1 demo_service_cancelled.
Proof.
  apply (service_steps 1 (read_request (Some cancellation_request) 0 demo_service_spawned)); [|done|by eapply step_read].
  apply (service_steps 1 demo_service_spawned); [apply demo_service_spawned_reachable|done|by eapply step_read].
Qed.

Definition demo_execution_cancelled : Execution := mkExecution Building false false true false true.

Lemma service_slots_exact_witness : active_executions_ demo_service_cancelled = 1.
Proof.
  destruct (service_slots_exact 1 demo_service_cancelled ltac:(lia) demo_service_cancelled_reachable) as [-> _].
  reflexivity.
Defined.

Lemma service_refused_by_others_witness :
  1 <= Z.of_nat (length (List.filter holds_slot (delete 1%nat (service_streams demo_service_cancelled)))).
Proof.
  destruct (service_refused_by_others 1 demo_service_cancelled 1 (mkServiceStream Starting None 0 [] None)
              ltac:(lia) demo_service_cancelled_reachable eq_refl) as [Hs _].
  destruct (Hs eq_refl) as (_ & _ & Hr). apply Hr. reflexivity.
Defined.


Lemma service_cancellation_kept_witness : ex_cancelled (publish demo_execution_cancelled) = true.
Proof.
  apply (service_cancellation_kept 1 demo_service_cancelled 0
           (mkServiceStream Reading (Some demo_execution_cancelled) 1 [] None) demo_execution_cancelled
           ltac:(lia) demo_service_cancelled_reachable); reflexivity.
Defined.

Definition demo_service_finishing : ServiceImpl := read_request None 0 demo_service_spawned.

Lemma service_waits_end_witness :
  exists s' s'' y, rtc (execution_steps 0) demo_service_finishing s' /\ service_step s' s'' /\
    service_streams s'' !! 0%nat = Some y /\ st_pc y = Returned OK.
Proof.
  destruct (service_waits_end demo_service_finishing 0
              (mkServiceStream (Finishing true OK) (Some new_execution) 1 [] None)) as (s' & s'' & y & H1 & H2 & H3 & _ & H4);
    [reflexivity|right; by exists OK|].
  exists s', s'', y. split_and!; [exact H1|exact H2|exact H3|by apply H4].
Defined.

Lemma progress_interval_spec_witness :
  progress_interval (Some (0, 999999)) = Ok (inl (mkErrorDetail INVALID_ARGUMENT bad_progress_interval)).
Proof. apply (progress_interval_spec 0 999999); lia. Defined.

Section Demo.
#[local] Existing Instance absl_match_documented.

Lemma execution_setup_spec_witness :
  execution_setup 2 INFO "" (fun _ => None)
    (mkStartRequest (mkCommandLineOptions (Some TRACE) demo_sinks []) None false) =
  Ok (inl (mkErrorDetail INVALID_ARGUMENT (no_backend_name "load.%BACKEND%.x"))).
Proof. apply (execution_setup_spec 2 INFO "" (fun _ => None)). reflexivity. Defined.

End Demo.
