(* ===== verification/Uri.v ===== *)
(** * URIs, SNI and small utilities

    Models [engine/source/common/uri_impl.{h,cc}], [findPortSeparator],
    [mapCountersFromStore], [translateFamilyOptionString] and [grpcFrameMessage]
    of [engine/source/common/utility.cc], and
    [engine/source/client/sni_utility.cc].

    How Envoy splits a URI into host and path, what a resolver answers and how
    numbers are printed are arguments, with the laws the code relies on. *)

From S2P Require Import Prelude Text.

(** ** Positions in strings *)

(** [find(c, pos)], [rfind(c)] of [std::string_view]; [None] is [npos]. *)
Fixpoint find_char (c : ascii) (s : string) : option nat :=
  match s with
  | EmptyString => None
  | String d s => if Ascii.eqb c d then Some 0%nat else S <$> find_char c s
  end.

Definition find_from (c : ascii) (pos : option nat) (s : string) : option nat :=
  match pos with
  | None => None
  | Some p => Nat.add p <$> find_char c (sdrop p s)
  end.

Fixpoint rfind_char (c : ascii) (s : string) : option nat :=
  match s with
  | EmptyString => None
  | String d s =>
      match rfind_char c s with
      | Some p => Some (S p)
      | None => if Ascii.eqb c d then Some 0%nat else None
      end
  end.

(** [find] of a string. *)
Fixpoint find_string (t s : string) : option nat :=
  if sprefix t s then Some 0%nat
  else match s with EmptyString => None | String _ s => S <$> find_string t s end.

Definition first_char (s : string) : option ascii :=
  match s with EmptyString => None | String c _ => Some c end.

Definition findPortSeparator (hostname : string) : option nat :=
  match first_char hostname with
  | Some c => if Ascii.eqb c "["%char then find_from ":"%char (find_char "]"%char hostname) hostname
              else rfind_char ":"%char hostname
  | None => rfind_char ":"%char hostname
  end.

(** ** URIs *)

(** [extractHostPathFromUri] of Envoy, [fmt::format] of a number, and of Abseil
    [SimpleAtoi] of an [int], [StrJoin], and [StrReplaceAll] of both brackets by
    nothing. *)
Class UriEnv : Type := {
  extractHostPathFromUri : string -> string * string;
  fmt_u64 : Z -> string;
  atoi_i32 : string -> option Z;
  StrJoin : list string -> string -> string;
  without_brackets : string -> string;
}.

Record UriImpl : Type := mkUri {
  host_and_port_ : string;
  host_without_port_ : string;
  path_ : string;
  port_ : Z;
  scheme_ : string;
}.

Definition known_schemes : list string := ["http"; "https"; "zipkin"; "grpc"; "tcp"; "tcps"; "udp"]%string.

Definition UriImpl_isValid (u : UriImpl) : bool :=
  existsb (String.eqb (scheme_ u)) known_schemes &&
  ((0 <? port_ u) && (port_ u <=? 65535)) &&
  match first_char (host_without_port_ u) with
  | Some c => negb (Ascii.eqb c "-"%char)
  | None => false
  end.

Definition default_port (scheme : string) : Z :=
  if (scheme =? "https")%string then 443
  else if (scheme =? "grpc")%string then 8443
  else if (scheme =? "tcp")%string || (scheme =? "tcps")%string || (scheme =? "udp")%string then 0
  else 80.

Section Uris.
Context `{UriEnv} `{AbslStrings}.

Definition UriImpl_new (uri default_scheme : string) : outcome UriImpl :=
  let '(host, path) := extractHostPathFromUri uri in
  if (host =? EmptyString)%string then Throw (UriException "Invalid URI (no host)")
  else
    let scheme := match find_string "://" uri with
                  | Some scheme_end => AsciiStrToLower (stake scheme_end uri)
                  | None => default_scheme
                  end in
    let* u := match findPortSeparator host with
              | None =>
                  let port := default_port scheme in
                  Ok (mkUri (host +:+ ":" +:+ fmt_u64 port) host path port scheme)
              | Some colon =>
                  match atoi_u64 (sdrop (S colon) host) with
                  | Some port => Ok (mkUri host (stake colon host) path port scheme)
                  | None => Throw (UriException "Invalid URI, couldn't parse port")
                  end
              end in
    if UriImpl_isValid u then Ok u else Throw (UriException "Invalid URI").

(** ** Resolution *)

Inductive DnsLookupFamily : Type := V4Only | V6Only | Auto.

Inductive AddressFamilyOption : Type := FamilyV4 | FamilyV6 | FamilyAuto | FamilyDefault.

Definition translateFamilyOptionString (value : AddressFamilyOption) : outcome DnsLookupFamily :=
  match value with
  | FamilyV4 => Ok V4Only
  | FamilyV6 => Ok V6Only
  | FamilyAuto => Ok Auto
  | FamilyDefault => Panic "not reached"
  end.

Inductive ip_version : Type := IPv4 | IPv6.

Record Address : Type := mkAddress { address_ip : string; address_version : ip_version; address_port : Z }.

(** The address and whether resolution was attempted. *)
Record UriResolution : Type := mkResolution { address_ : option Address; resolve_attempted_ : bool }.

Fixpoint last_char (s : string) : option ascii :=
  match s with
  | EmptyString => None
  | String c EmptyString => Some c
  | String _ s => last_char s
  end.

(** The name asked for: an address in brackets without them. *)
Definition lookup_name (u : UriImpl) : string :=
  let hostname := host_without_port_ u in
  match first_char hostname, last_char hostname with
  | Some c, Some d =>
      if Ascii.eqb c "["%char && Ascii.eqb d "]"%char then without_brackets hostname else hostname
  | _, _ => hostname
  end.

(** [dns]: what the resolver answers for a name and a family: the addresses, if it
    completes. *)
Definition performDnsLookup (dns : string -> DnsLookupFamily -> option (list (string * ip_version)))
    (family : DnsLookupFamily) (u : UriImpl) (r : UriResolution) : bool * UriResolution :=
  let address := match dns (lookup_name u) family with
                 | Some ((ip, version) :: _) => Some (mkAddress ip version (port_ u))
                 | _ => address_ r
                 end in
  (match address with Some _ => true | None => false end, mkResolution address (resolve_attempted_ r)).

Definition family_fits (family : DnsLookupFamily) (a : option Address) : bool :=
  match family, a with
  | V6Only, Some a => match address_version a with IPv6 => true | IPv4 => false end
  | V4Only, Some a => match address_version a with IPv4 => true | IPv6 => false end
  | _, _ => true
  end.

Definition UriImpl_resolve (dns : string -> DnsLookupFamily -> option (list (string * ip_version)))
    (family : DnsLookupFamily) (u : UriImpl) (r : UriResolution) : outcome (option Address) * UriResolution :=
  if resolve_attempted_ r then (Ok (address_ r), r)
  else
    let r := mkResolution (address_ r) true in
    let '(ok, r) := performDnsLookup dns family u r in
    if ok && family_fits family (address_ r) then (Ok (address_ r), r)
    else (Throw (UriException "Could not determine address"), mkResolution None true).

(** ** Counters *)

(** The name of a counter without the prefixes of clusters and workers. *)
Definition strip_stat_name `{AbslMatch} (name : string) : outcome string :=
  let v := StrSplit "."%char name in
  let v := match v with
           | first :: rest => if (first =? "cluster")%string || (first =? "worker")%string then rest else v
           | [] => v
           end in
  match v with
  | [] => Undefined
  | first :: rest => Ok (StrJoin (match atoi_i32 first with Some _ => rest | None => v end) ".")
  end.

Fixpoint mapCountersFromStore `{AbslMatch} (filter : string -> Z -> bool) (counters : list (string * Z))
    (results : gmap string Z) : outcome (gmap string Z) :=
  match counters with
  | [] => Ok results
  | (name, value) :: counters =>
      if filter name value then
        let* stat_name := strip_stat_name name in
        mapCountersFromStore filter counters
          (<[stat_name := u64 (default 0 (results !! stat_name) + value)]> results)
      else mapCountersFromStore filter counters results
  end.

End Uris.

(** ** Framing of gRPC messages *)

Definition grpcFrameMessage (message : list Z) : outcome (list Z) :=
  let length := Z.of_nat (List.length message) in
  if UINT32_MAX <? length then Panic "gRPC message too large to frame"
  else
    Ok (0 :: u8 (Z.land (Z.shiftr length 24) 0xff) :: u8 (Z.land (Z.shiftr length 16) 0xff) ::
        u8 (Z.land (Z.shiftr length 8) 0xff) :: u8 (Z.land length 0xff) :: message).

(** ** Server name indication *)

Section Sni.
Context `{AbslStrings} `{AbslMatch}.

(** Whether the header names the host. *)
Definition names_host (consider_authority : bool) (lowered : string) : bool :=
  StartsWithIgnoreCase lowered "host:" ||
  (StartsWithIgnoreCase lowered ":authority:" && consider_authority).

Definition host_of_header (lowered : string) : string :=
  StripAsciiWhitespace (StripPrefix (StripPrefix lowered "host:") ":authority:").

(** The loop over the headers: whether the host is ambiguous, and the last one. *)
Fixpoint sni_loop (consider_authority : bool) (headers : list string) (ambiguous : bool) (sni : string) :
    bool * string :=
  match headers with
  | [] => (ambiguous, sni)
  | header :: headers =>
      let lowered := AsciiStrToLower header in
      if names_host consider_authority lowered
      then sni_loop consider_authority headers (ambiguous || negb (sni =? EmptyString)%string)
             (host_of_header lowered)
      else sni_loop consider_authority headers ambiguous sni
  end.

(** [http2_or_3]: the protocol has an [:authority] header. *)
Definition computeSniHost (uris : list UriImpl) (request_headers : list string) (http2_or_3 : bool) : string :=
  let uri_sni := match uris with [u] => host_without_port_ u | _ => EmptyString end in
  let '(ambiguous, request_sni) := sni_loop http2_or_3 request_headers false EmptyString in
  if ambiguous then EmptyString
  else if (request_sni =? EmptyString)%string then uri_sni else request_sni.

End Sni.

(** ** Where the port begins *)

Lemma find_char_split c s p :
  find_char c s = Some p -> s = stake p s +:+ String c (sdrop (S p) s) /\ all_chars (fun d => d <> c) (stake p s).
Proof.
  revert p. induction s as [|d s IH]; intros p; cbn [find_char]; [done|].
  destruct (Ascii.eqb_spec c d) as [<-|Hne]; [by intros [= <-]|].
  destruct (find_char c s) as [q|]; [|done]. intros [= <-]. destruct (IH q eq_refl) as [E Ha].
  cbn [stake sdrop all_chars]. rewrite sapp_cons. split; [by f_equal|]. split; [congruence|done].
Qed.

Lemma find_char_none c s : find_char c s = None <-> all_chars (fun d => d <> c) s.
Proof.
  induction s as [|d s IH]; cbn; [done|]. destruct (Ascii.eqb_spec c d) as [<-|Hne].
  - split; [done|]. by intros [? _].
  - destruct (find_char c s); cbn; rewrite <- IH; (split; [intros Hs|intros [Hd Hs]]); done || (split; [congruence|done]).
Qed.

Lemma find_char_app c s t :
  all_chars (fun d => d <> c) s -> find_char c (s +:+ t) = Nat.add (String.length s) <$> find_char c t.
Proof.
  induction s as [|d s IH]; cbn [all_chars String.length]; intros Hs.
  - rewrite sapp_nil. by destruct (find_char c t).
  - rewrite sapp_cons. cbn. destruct Hs as [Hd Hs]. destruct (Ascii.eqb_spec c d); [congruence|].
    rewrite IH by done. by destruct (find_char c t).
Qed.

Lemma rfind_char_none c s : rfind_char c s = None <-> all_chars (fun d => d <> c) s.
Proof.
  induction s as [|d s IH]; cbn; [done|]. rewrite <- IH. destruct (rfind_char c s).
  - split; [done|]. by intros [_ ?].
  - destruct (Ascii.eqb_spec c d) as [<-|Hne]; (split; [intros Hs|intros [Hd Hs]]); done || (split; [congruence|done]).
Qed.

Lemma rfind_char_last c s t :
  all_chars (fun d => d <> c) t -> rfind_char c (s +:+ String c t) = Some (String.length s).
Proof.
  intros Ht. induction s as [|d s IH].
  - rewrite sapp_nil. cbn. apply rfind_char_none in Ht. by rewrite Ht, Ascii.eqb_refl.
  - rewrite sapp_cons. cbn. by rewrite IH.
Qed.

Lemma rfind_char_split c s p :
  rfind_char c s = Some p -> s = stake p s +:+ String c (sdrop (S p) s).
Proof.
  revert p. induction s as [|d s IH]; intros p; cbn [rfind_char]; [done|].
  destruct (rfind_char c s) as [q|] eqn:E.
  - intros [= <-]. cbn [stake sdrop]. rewrite sapp_cons. f_equal. by apply IH.
  - destruct (Ascii.eqb_spec c d) as [<-|]; [|done]. intros [= <-]. cbn. done.
Qed.

Lemma sdrop_sdrop n m s : sdrop n (sdrop m s) = sdrop (m + n) s.
Proof. revert s. induction m as [|m IH]; intros s; cbn; [done|]. destruct s; cbn; [by destruct n|apply IH]. Qed.

Lemma stake_stake_app n m s : stake m s +:+ stake n (sdrop m s) = stake (m + n) s.
Proof.
  revert s. induction m as [|m IH]; intros s; cbn; [by rewrite sapp_nil|].
  destruct s; cbn [stake sdrop]; [by destruct n|]. rewrite sapp_cons. by rewrite IH.
Qed.

(** The separator is a colon with the host before it and the port behind it. *)
Lemma separator_split host p :
  findPortSeparator host = Some p -> host = stake p host +:+ ":" +:+ sdrop (S p) host.
Proof.
  unfold findPortSeparator.
  assert (forall q, rfind_char ":"%char host = Some q -> host = stake q host +:+ ":" +:+ sdrop (S q) host) as Hr
    by (intros q Hq; by apply rfind_char_split in Hq).
  destruct (first_char host) as [c|]; [|by apply Hr]. destruct (Ascii.eqb c "["%char); [|by apply Hr].
  unfold find_from. destruct (find_char "]"%char host) as [b|]; [|done].
  destruct (find_char ":"%char (sdrop b host)) as [q|] eqn:E; [|done]. intros [= <-].
  apply find_char_split in E as [E _]. rewrite sdrop_sdrop in E.
  rewrite <- (stake_sdrop b host) at 1. rewrite E at 1. rewrite <- sapp_assoc, stake_stake_app.
  by replace (b + S q)%nat with (S (b + q)) by lia.
Qed.

(** A port added to a host without one is found. *)
Lemma separator_added host port :
  findPortSeparator host = None -> host <> EmptyString ->
  (first_char host = Some "["%char -> find_char "]"%char host <> None) ->
  all_chars (fun d => d <> ":"%char) port ->
  findPortSeparator (host +:+ ":" +:+ port) = Some (String.length host).
Proof.
  intros Hn Hne Hb Hp. destruct host as [|c host]; [done|]. unfold findPortSeparator in *.
  rewrite sapp_cons. cbn [first_char] in *. destruct (Ascii.eqb_spec c "["%char) as [->|Hc].
  2: { rewrite <- sapp_cons. change (":" +:+ port) with (String ":"%char port). by apply rfind_char_last. }
  specialize (Hb eq_refl). rewrite <- sapp_cons. set (h := String "["%char host) in *. clearbody h.
  destruct (find_char "]"%char h) as [b|] eqn:Eb; [|done]. cbn [find_from] in Hn.
  destruct (find_char ":"%char (sdrop b h)) as [q|] eqn:Eq; [done|]. apply find_char_none in Eq.
  apply find_char_split in Eb as [Es Ha].
  assert (String.length (stake b h) = b) as Hl.
  { clear -Es. pose proof (f_equal String.length Es) as El. rewrite slength_app in El. cbn in El.
    assert (forall n s, String.length (stake n s) <= n)%nat as Hle
      by (intros n; induction n as [|n IH]; intros [|? s]; cbn; try lia; specialize (IH s); lia).
    assert (forall n s, String.length (stake n s) < n -> sdrop n s = EmptyString)%nat as Hlt
      by (intros n; induction n as [|n IH]; intros [|? s]; cbn; try lia; intros; auto with lia).
    specialize (Hle b h). destruct (decide (String.length (stake b h) < b)%nat) as [Hlt'|]; [|lia].
    pose proof (stake_sdrop b h) as Ed. rewrite (Hlt _ _ Hlt'), sapp_nil_r in Ed.
    apply (f_equal String.length) in Ed. lia. }
  assert (find_char "]"%char (h +:+ ":" +:+ port) = Some b) as ->.
  { rewrite Es at 1. rewrite sapp_assoc, find_char_app by done. rewrite sapp_cons. cbn [find_char]. rewrite Ascii.eqb_refl.
    cbn. f_equal. lia. }
  cbn [find_from].
  assert (sdrop b (h +:+ ":" +:+ port) = sdrop b h +:+ ":" +:+ port) as ->.
  { rewrite <- (stake_sdrop b h) at 1. rewrite sapp_assoc. rewrite <- Hl at 1. apply sdrop_app. }
  rewrite find_char_app by done. change (find_char ":"%char (":" +:+ port)) with (Some 0%nat). cbn [fmap option_fmap option_map]. f_equal.
  pose proof (f_equal String.length (stake_sdrop b h)) as El. rewrite slength_app in El. lia.
Qed.

(** ** Theorems on URIs *)

(** What Envoy documents of splitting a URI, and that a printed number is digits
    and is parsed to itself. *)
Class UriEnvLaws `{UriEnv} `{AbslStrings} : Prop := {
  extract_parts scheme host path :
    all_chars (fun c => c <> ":"%char) scheme -> host <> EmptyString ->
    all_chars (fun c => c <> "/"%char) host -> first_char path = Some "/"%char ->
    extractHostPathFromUri (scheme +:+ "://" +:+ host +:+ path) = (host, path);
  extract_host scheme host :
    all_chars (fun c => c <> ":"%char) scheme -> host <> EmptyString -> all_chars (fun c => c <> "/"%char) host ->
    extractHostPathFromUri (scheme +:+ "://" +:+ host) = (host, "/"%string);
  extract_shape uri host path :
    extractHostPathFromUri uri = (host, path) ->
    all_chars (fun c => c <> "/"%char) host /\ first_char path = Some "/"%char;
  fmt_digits v : in_u64 v -> all_chars (fun c => is_digit c = true) (fmt_u64 v);
  fmt_parsed v : in_u64 v -> atoi_u64 (fmt_u64 v) = Some v;
  lower_known scheme : scheme ∈ known_schemes -> AsciiStrToLower scheme = scheme;
}.

Section UriProofs.
Context `{UriEnv} `{AbslStrings} `{!UriEnvLaws}.

Lemma default_port_range scheme : 0 <= default_port scheme <= 65535.
Proof. unfold default_port. split_ifs; lia. Qed.

(** The fields of a URI that was constructed. *)
Lemma uri_inv uri d u :
  UriImpl_new uri d = Ok u ->
  exists host, extractHostPathFromUri uri = (host, path_ u) /\ host <> EmptyString /\
    UriImpl_isValid u = true /\
    ((findPortSeparator host = None /\ host_without_port_ u = host /\ port_ u = default_port (scheme_ u) /\
      host_and_port_ u = host +:+ ":" +:+ fmt_u64 (port_ u)) \/
     (exists p, findPortSeparator host = Some p /\ host_and_port_ u = host /\ host_without_port_ u = stake p host /\
      atoi_u64 (sdrop (S p) host) = Some (port_ u))).
Proof.
  unfold UriImpl_new. destruct (extractHostPathFromUri uri) as [host path].
  destruct (String.eqb_spec host EmptyString) as [|Hne]; [done|]. 
  set (scheme := match find_string "://" uri with Some n => AsciiStrToLower (stake n uri) | None => d end).
  clearbody scheme. intros Hu. exists host.
  destruct (findPortSeparator host) as [p|] eqn:Ep; cbn in Hu.
  - destruct (atoi_u64 _) as [port|] eqn:Ea; cbn in Hu; [|done].
    destruct (UriImpl_isValid _) eqn:Ev; [|done]. injection Hu as <-. cbn. split_and!; try done. right. by exists p.
  - destruct (UriImpl_isValid _) eqn:Ev; [|done]. injection Hu as <-. cbn. split_and!; try done. by left.
Qed.

Lemma valid_inv u :
  UriImpl_isValid u = true ->
  scheme_ u ∈ known_schemes /\ 1 <= port_ u <= 65535 /\
  exists c rest, host_without_port_ u = String c rest /\ c <> "-"%char.
Proof.
  unfold UriImpl_isValid. intros Hv. apply andb_prop in Hv as [[Hs Hp]%andb_prop Hh]. split_and!; [|lia|lia|].
  - apply existsb_exists in Hs as (s & Hin & E). apply String.eqb_eq in E as ->. by apply list_elem_of_In.
  - destruct (host_without_port_ u) as [|c rest]; [done|]. cbn in Hh. exists c, rest. split; [done|].
    apply negb_true_iff in Hh. by apply Ascii.eqb_neq in Hh.
Qed.

(** C39. Every URI the constructor lets through is well-formed: its scheme is one
    of the seven, its port is in 1..65535, its host is not empty and does not
    begin with a dash, its path begins with a slash, and host-and-port is the
    host, a colon and a text that is parsed to the port. *)
Theorem uri_well_formed uri d u :
  UriImpl_new uri d = Ok u ->
  scheme_ u ∈ known_schemes /\ 1 <= port_ u <= 65535 /\
  (exists c rest, host_without_port_ u = String c rest /\ c <> "-"%char) /\
  first_char (path_ u) = Some "/"%char /\
  exists port, host_and_port_ u = host_without_port_ u +:+ ":" +:+ port /\ atoi_u64 port = Some (port_ u).
Proof.
  intros Hu. destruct (uri_inv uri d u Hu) as (host & He & Hne & Hv & Hc).
  destruct (valid_inv u Hv) as (Hs & Hp & Hh). destruct (extract_shape uri host (path_ u) He) as [_ Hpath].
  split_and!; try done; [lia|lia|]. destruct Hc as [(Hn & -> & _ & ->)|(p & Hn & E1 & -> & Ha)].
  - exists (fmt_u64 (port_ u)). split; [done|]. apply fmt_parsed. unfold in_u64. lia.
  - exists (sdrop (S p) host). split; [|done]. rewrite E1. by apply separator_split.
Qed.

Lemma find_scheme scheme rest :
  all_chars (fun c => c <> ":"%char) scheme ->
  find_string "://" (scheme +:+ "://" +:+ rest) = Some (String.length scheme).
Proof.
  induction scheme as [|c scheme IH]; intros Hs.
  - rewrite sapp_nil. reflexivity.
  - destruct Hs as [Hc Hs]. rewrite sapp_cons. cbn [find_string].
    change (sprefix "://" (String c _)) with (Ascii.eqb ":"%char c && sprefix "//" (scheme +:+ "://" +:+ rest)).
    destruct (Ascii.eqb_spec ":"%char c); [congruence|]. cbn [andb]. by rewrite IH.
Qed.

Lemma known_scheme_chars scheme : scheme ∈ known_schemes -> all_chars (fun c => c <> ":"%char) scheme.
Proof.
  intros Hs. assert (Forall (fun s => all_chars (fun c => c <> ":"%char) s) known_schemes) as Hf
    by (repeat constructor; discriminate).
  rewrite Forall_forall in Hf. by apply Hf.
Qed.

Lemma digits_not c s : is_digit c = false -> all_chars (fun d => is_digit d = true) s -> all_chars (fun d => d <> c) s.
Proof. intros Hc. apply all_chars_impl. intros d Hd ->. congruence. Qed.

(** Printing a URI and parsing it again gives the same URI: scheme, [://],
    host-and-port and path, whatever default scheme is given, for every URI that
    was constructed and whose host, if it begins with a bracket, closes it. *)
Lemma uri_round_trip uri d d' u :
  UriImpl_new uri d = Ok u ->
  (first_char (host_without_port_ u) = Some "["%char -> find_char "]"%char (host_without_port_ u) <> None) ->
  UriImpl_new (scheme_ u +:+ "://" +:+ host_and_port_ u +:+ path_ u) d' = Ok u.
Proof.
  intros Hu Hbr. destruct (uri_inv uri d u Hu) as (host & He & Hne & Hv & Hc).
  destruct (valid_inv u Hv) as (Hs & Hp & _). destruct (extract_shape uri host (path_ u) He) as [Hsl Hpath].
  pose proof (known_scheme_chars _ Hs) as Hsc.
  assert (in_u64 (port_ u)) as Hport by (unfold in_u64; lia).
  pose proof (fmt_digits _ Hport) as Hd.
  assert (host_and_port_ u <> EmptyString /\ all_chars (fun c => c <> "/"%char) (host_and_port_ u)) as [Hn1 Hn2].
  { destruct Hc as [(_ & _ & _ & ->)|(p & _ & -> & _)]; [|done]. split; [by destruct host|].
    rewrite !all_chars_app. split; [done|]. split; [by repeat constructor|]. by apply (digits_not "/"%char). }
  unfold UriImpl_new. rewrite extract_parts, find_scheme, stake_app, lower_known by done.
  destruct (String.eqb_spec (host_and_port_ u) EmptyString); [done|].
  destruct Hc as [(Hsep & Eh & Epo & Ehp)|(p & Hsep & Ehp & Eh & Ha)].
  - rewrite Ehp, separator_added; [|done|done|by rewrite <- Eh|by apply (digits_not ":"%char)].
    change (":" +:+ fmt_u64 (port_ u)) with (String ":" (fmt_u64 (port_ u))).
    assert (sdrop (S (String.length host)) (host +:+ String ":" (fmt_u64 (port_ u))) = fmt_u64 (port_ u)) as ->.
    { replace (S (String.length host)) with (String.length host + 1)%nat by lia.
      by rewrite <- sdrop_sdrop, sdrop_app. }
    rewrite fmt_parsed by done. cbn [obind]. rewrite stake_app.
    assert (mkUri (host +:+ String ":" (fmt_u64 (port_ u))) host (path_ u) (port_ u) (scheme_ u) = u) as ->; [|by rewrite Hv].
    destruct u. cbn in *. by subst.
  - rewrite Ehp, Hsep, Ha. cbn [obind].
    assert (mkUri host (stake p host) (path_ u) (port_ u) (scheme_ u) = u) as ->; [|by rewrite Hv].
    destruct u. cbn in *. by subst.
Qed.

(** A URI is resolved at most once: a later [resolve] returns what the first
    left, whatever the resolver says by then. The first one returns an address
    only with the port of the URI and of the family asked for; when it throws
    there is no address, and the calls after it return none without throwing. *)
Lemma uri_resolved_once dns family u r :
  let '(result, r') := UriImpl_resolve dns family u r in
  resolve_attempted_ r' = true /\
  (forall dns' family', UriImpl_resolve dns' family' u r' = (Ok (address_ r'), r')) /\
  (resolve_attempted_ r = false -> address_ r = None ->
   (forall a, result = Ok a -> a = address_ r' /\
      exists ip version rest, a = Some (mkAddress ip version (port_ u)) /\
        dns (lookup_name u) family = Some ((ip, version) :: rest) /\ family_fits family a = true) /\
   (forall e, result = Throw e -> address_ r' = None)).
Proof.
  unfold UriImpl_resolve. destruct (resolve_attempted_ r) eqn:Er.
  { rewrite Er. split_and!; done. }
  destruct (performDnsLookup dns family u (mkResolution (address_ r) true)) as [ok r'] eqn:El.
  assert (resolve_attempted_ r' = true) as Ha by (unfold performDnsLookup in El; by injection El as <- <-).
  destruct (ok && family_fits family (address_ r')) eqn:Eo.
  - rewrite Ha. split_and!; try done. intros _ Hnone. split; [|done]. intros a [= <-]. split; [done|].
    apply andb_prop in Eo as [-> Hf]. unfold performDnsLookup in El. cbn in El. rewrite Hnone in El.
    destruct (dns (lookup_name u) family) as [[|[ip version] rest]|]; simplify_eq.
    by exists ip, version, rest.
  - by cbn.
Qed.

End UriProofs.

(** ** The documented functions *)

(** [v] in decimal, with at most [n] digits. *)
Fixpoint dec_string (n : nat) (v : Z) : string :=
  match n with
  | O => EmptyString
  | S n => (if v <? 10 then EmptyString else dec_string n (v / 10)) +:+
           String (ascii_of_N (Z.to_N (48 + v mod 10))) EmptyString
  end.

Definition split_uri (uri : string) : string * string :=
  let rest := match find_string "://" uri with Some p => sdrop (p + 3) uri | None => uri end in
  match find_char "/"%char rest with
  | Some p => (stake p rest, sdrop p rest)
  | None => (rest, "/"%string)
  end.

Definition uri_env_documented : UriEnv := {|
  extractHostPathFromUri := split_uri;
  fmt_u64 := dec_string 20;
  atoi_i32 := strict_atoi (- 2 ^ 31) (2 ^ 31 - 1);
  StrJoin l sep := sjoin sep l;
  without_brackets s := sjoin EmptyString (cut_at "]" 0 EmptyString (sjoin EmptyString (cut_at "[" 0 EmptyString s)));
|}.

Lemma dec_char_cases v :
  0 <= v < 10 ->
  let c := ascii_of_N (Z.to_N (48 + v)) in
  is_digit c = true /\ code c = 48 + v.
Proof.
  intros H.
  assert (v = 0 \/ v = 1 \/ v = 2 \/ v = 3 \/ v = 4 \/ v = 5 \/ v = 6 \/ v = 7 \/ v = 8 \/ v = 9) as Hv by lia.
  repeat destruct Hv as [-> | Hv]; try (split; reflexivity). subst. split; reflexivity.
Qed.

Lemma digits_app acc s t : digits acc (s +:+ t) = digits acc s ≫= (fun v => digits v t).
Proof.
  revert acc. induction s as [|c s IH]; intros acc; [done|]. rewrite sapp_cons. cbn [digits].
  destruct (is_digit c); [apply IH|done].
Qed.

Lemma dec_string_digits n v : all_chars (fun c => is_digit c = true) (dec_string n v).
Proof.
  revert v. induction n as [|n IH]; intros v; cbn [dec_string]; [done|]. apply all_chars_app.
  split; [by destruct (v <? 10)|]. split; [|done]. apply dec_char_cases, Z.mod_pos_bound. lia.
Qed.

Lemma dec_string_nonempty n v : dec_string (S n) v <> EmptyString.
Proof. cbn [dec_string]. intros E%(f_equal String.length). rewrite slength_app in E. cbn in E. lia. Qed.

Lemma dec_string_value n v : 0 <= v < 10 ^ Z.of_nat n -> digits 0 (dec_string n v) = Some v.
Proof.
  revert v. induction n as [|n IH]; intros v Hv.
  { cbn in *. f_equal. lia. }
  cbn [dec_string]. destruct (dec_char_cases (v mod 10)) as [Hd Hc]; [apply Z.mod_pos_bound; lia|].
  pose proof (Z.div_mod v 10 ltac:(lia)) as Hdm. rewrite digits_app.
  assert (digits 0 (if v <? 10 then EmptyString else dec_string n (v / 10)) = Some (v / 10)) as ->.
  { destruct (Z.ltb_spec v 10); [cbn; rewrite Z.div_small; [done|lia]|]. apply IH.
    rewrite Nat2Z.inj_succ, Z.pow_succ_r in Hv by lia. split; [apply Z.div_pos; lia|].
    apply Z.div_lt_upper_bound; lia. }
  cbn -[ascii_of_N Z.to_N Z.div]. rewrite Hd, Hc. f_equal. lia.
Qed.

Lemma digit_plain c : is_digit c = true -> ascii_isspace c = false /\ Ascii.eqb c "-" = false /\ Ascii.eqb c "+" = false.
Proof.
  intros Hc. unfold is_digit in Hc. unfold ascii_isspace. split; [lia|].
  split; apply Ascii.eqb_neq; intros ->; by vm_compute in Hc.
Qed.

Lemma strict_atoi_digits min max s v :
  all_chars (fun c => is_digit c = true) s -> s <> EmptyString -> digits 0 s = Some v -> min <= v <= max ->
  strict_atoi min max s = Some v.
Proof.
  intros Hs Hne Hv Hr. unfold strict_atoi.
  rewrite strip_space_none by (apply (all_chars_impl _ _ _ (fun c Hc => proj1 (digit_plain c Hc))), Hs).
  destruct s as [|c s]; [done|]. destruct (digit_plain c (proj1 Hs)) as (_ & -> & ->). rewrite Hv.
  by replace ((min <=? v) && (v <=? max)) with true by lia.
Qed.

Lemma all_chars_stake P n s : all_chars P s -> all_chars P (stake n s).
Proof. revert s. induction n as [|n IH]; intros [|c s]; cbn; [done..|]. intros [Hc Hs]. auto. Qed.

Lemma find_char_head c s p : find_char c s = Some p -> first_char (sdrop p s) = Some c.
Proof.
  revert p. induction s as [|d s IH]; intros p; cbn [find_char]; [done|].
  destruct (Ascii.eqb_spec c d) as [<-|]; [by intros [= <-]|]. destruct (find_char c s); [|done]. intros [= <-].
  cbn. by apply IH.
Qed.

Lemma uri_env_laws : @UriEnvLaws uri_env_documented absl_documented.
Proof.
  split; cbn [extractHostPathFromUri fmt_u64 atoi_u64 AsciiStrToLower uri_env_documented absl_documented].
  - intros scheme host path Hs Hne Hh Hp. unfold split_uri. rewrite find_scheme by done.
    rewrite <- sdrop_sdrop, sdrop_app. change (sdrop 3 ("://" +:+ host +:+ path)) with (host +:+ path).
    destruct path as [|c path]; [done|]. cbn in Hp. injection Hp as ->.
    rewrite (find_char_app "/"%char host (String "/" path) Hh). cbn [find_char]. rewrite Ascii.eqb_refl. cbn [fmap option_fmap option_map].
    rewrite Nat.add_0_r. by rewrite stake_app, sdrop_app.
  - intros scheme host Hs Hne Hh. unfold split_uri. rewrite find_scheme by done.
    rewrite <- sdrop_sdrop, sdrop_app. change (sdrop 3 ("://" +:+ host)) with host.
    by rewrite (proj2 (find_char_none "/"%char host) Hh).
  - intros uri host path. unfold split_uri. set (rest := match find_string "://" uri with Some p => sdrop (p + 3) uri | None => uri end).
    clearbody rest. destruct (find_char "/"%char rest) as [p|] eqn:E; intros [= <- <-].
    + apply find_char_head in E as Hh. apply find_char_split in E as [_ E]. done.
    + split; [by apply find_char_none|done].
  - intros v _. apply dec_string_digits.
  - intros v Hv. unfold in_u64, UINT64_MAX in *. apply strict_atoi_digits; [apply dec_string_digits| |apply dec_string_value|].
    + apply (dec_string_nonempty 19).
    + cbn. lia.
    + unfold UINT64_MAX. lia.
  - intros scheme Hs. assert (Forall (fun s => lower_case s = s) known_schemes) as Hf by (by repeat constructor).
    rewrite Forall_forall in Hf. by apply Hf.
Qed.

(** ** Theorems on counters, frames and server names *)

Section UtilityProofs.
Context `{UriEnv} `{AbslStrings} `{AbslMatch}.

(** The values of the counters let through that have this name once stripped. *)
Definition values_named (filter : string -> Z -> bool) (name : string) (counters : list (string * Z)) : list Z :=
  omap (fun '(n, v) => if filter n v then match strip_stat_name n with
                                          | Ok n => if (n =? name)%string then Some v else None
                                          | _ => None
                                          end
                       else None) counters.

(** The sum on top of what is there, in 64 bits. *)
Definition add_values (base : option Z) (values : list Z) : option Z :=
  match base, values with
  | None, [] => None
  | Some b, [] => Some b
  | _, _ => Some (u64 (default 0 base + foldr Z.add 0 values))
  end.

Lemma add_values_cons base v values :
  add_values (Some (u64 (default 0 base + v))) values = add_values base (v :: values).
Proof.
  destruct values as [|w values]; [destruct base; cbn; do 2 f_equal; lia|].
  assert (forall b, Some (u64 (u64 (b + v) + (w + foldr Z.add 0 values))) = Some (u64 (b + (v + (w + foldr Z.add 0 values))))) as E.
  { intros b. f_equal. unfold u64, wrap_u. rewrite Z.add_mod_idemp_l by lia. f_equal. lia. }
  destruct base; apply E.
Qed.

Lemma counters_fold filter counters results :
  (forall m, mapCountersFromStore filter counters results = Ok m ->
    forall name, m !! name = add_values (results !! name) (values_named filter name counters)) /\
  ((forall n v, (n, v) ∈ counters -> filter n v = true -> exists name, strip_stat_name n = Ok name) ->
   exists m, mapCountersFromStore filter counters results = Ok m).
Proof.
  revert results. induction counters as [|[n v] counters IH]; intros results; cbn.
  { split; [|eauto]. intros m [= <-] name. by destruct (results !! name). }
  destruct (filter n v) eqn:Ef.
  - destruct (strip_stat_name n) as [stat| | |] eqn:Es; cbn; [|split; [done|]..].
    2-4: intros Hall; destruct (Hall n v) as [name E]; [left|done|congruence].
    destruct (IH (<[stat:=u64 (default 0 (results !! stat) + v)]> results)) as [IH1 IH2]. split.
    + intros m Hm name. rewrite (IH1 m Hm name). destruct (String.eqb_spec stat name) as [->|Hne].
      * by rewrite lookup_insert_eq, add_values_cons.
      * by rewrite lookup_insert_ne.
    + intros Hall. apply IH2. intros n' v' Hin. apply Hall. by right.
  - destruct (IH results) as [IH1 IH2]. split; [done|]. intros Hall. apply IH2. intros n' v' Hin. apply Hall. by right.
Qed.

(** The counters of the store are added up by stripped name: a name is in
    the result exactly when a counter let through has it, and its value is the
    sum of theirs in 64 bits, whatever the order of the store. The result exists
    when every counter let through has something behind its prefix. *)
Lemma counters_summed_by_name filter counters :
  (forall m, mapCountersFromStore filter counters ∅ = Ok m ->
    forall name, m !! name = match values_named filter name counters with
                             | [] => None
                             | values => Some (u64 (foldr Z.add 0 values))
                             end) /\
  ((forall n v, (n, v) ∈ counters -> filter n v = true -> exists name, strip_stat_name n = Ok name) ->
   exists m, mapCountersFromStore filter counters ∅ = Ok m).
Proof.
  destruct (counters_fold filter counters ∅) as [Hm1 Hm2]. split; [|done]. intros m Hm name. rewrite (Hm1 m Hm name).
  rewrite lookup_empty. by destruct (values_named filter name counters).
Qed.

(** The names of the hosts the headers give, in order. *)
Definition header_hosts (consider_authority : bool) (headers : list string) : list string :=
  omap (fun h => if names_host consider_authority (AsciiStrToLower h)
                 then Some (host_of_header (AsciiStrToLower h)) else None) headers.

Definition nonempty (s : string) : bool := negb (s =? EmptyString)%string.

Lemma sni_loop_spec ca headers ambiguous sni :
  sni_loop ca headers ambiguous sni =
  (ambiguous || existsb nonempty (removelast (sni :: header_hosts ca headers)), List.last (sni :: header_hosts ca headers) EmptyString).
Proof.
  revert ambiguous sni. induction headers as [|h headers IH]; intros ambiguous sni; [cbn; by rewrite orb_false_r|].
  unfold header_hosts. cbn [sni_loop omap list_omap]. destruct (names_host ca (AsciiStrToLower h)).
  - rewrite IH. fold (header_hosts ca headers). set (hs := header_hosts ca headers).
    cbn [removelast existsb List.last]. by rewrite orb_assoc.
  - apply IH.
Qed.

(** The name sent to the server: with a host header whose value is not empty
    before another host header there is none; otherwise it is the last header's
    value, and if that is empty or there is no such header, the host of the URI
    when there is exactly one. *)
Lemma sni_host_spec uris headers http2_or_3 :
  let hosts := header_hosts http2_or_3 headers in
  computeSniHost uris headers http2_or_3 =
    if existsb nonempty (removelast hosts) then EmptyString
    else let request := List.last hosts EmptyString in
         if nonempty request then request
         else match uris with [u] => host_without_port_ u | _ => EmptyString end.
Proof.
  cbv zeta. unfold computeSniHost. rewrite sni_loop_spec. set (hosts := header_hosts http2_or_3 headers).
  assert (existsb nonempty (removelast (EmptyString :: hosts)) = existsb nonempty (removelast hosts)) as -> by (by destruct hosts).
  assert (List.last (EmptyString :: hosts) EmptyString = List.last hosts EmptyString) as -> by (by destruct hosts).
  cbn [orb]. destruct (existsb _ _); [done|]. unfold nonempty. by destruct (_ =? _)%string.
Qed.

End UtilityProofs.

(** A framed message is five bytes and the message: the flag of no
    compression and the length of the message, big-endian, in bytes that each are
    in range; a message too long for the length is not framed. *)
Lemma grpc_frame_parsed message :
  (Z.of_nat (List.length message) <= UINT32_MAX ->
   exists b3 b2 b1 b0, grpcFrameMessage message = Ok (0 :: b3 :: b2 :: b1 :: b0 :: message) /\
     Forall (fun b => 0 <= b < 256) [b3; b2; b1; b0] /\
     ((b3 * 256 + b2) * 256 + b1) * 256 + b0 = Z.of_nat (List.length message)) /\
  (UINT32_MAX < Z.of_nat (List.length message) -> exists e, grpcFrameMessage message = Panic e).
Proof.
  unfold grpcFrameMessage. set (n := Z.of_nat (List.length message)). assert (0 <= n) as Hn by lia. clearbody n.
  unfold UINT32_MAX. split; intros Hm.
  2: { replace (2 ^ 32 - 1 <? n) with true by lia. eauto. }
  replace (2 ^ 32 - 1 <? n) with false by lia.
  assert (forall z, u8 (Z.land z 0xff) = z mod 256) as E.
  { intros z. change 0xff with (Z.ones 8). rewrite Z.land_ones by lia. unfold u8, wrap_u. by rewrite Z.mod_mod. }
  rewrite !E. eexists _, _, _, _. split; [done|]. rewrite !Z.shiftr_div_pow2 by lia.
  split; [repeat constructor; apply Z.mod_pos_bound; lia|].
  change (2 ^ 24) with (256 * (256 * 256)). change (2 ^ 16) with (256 * 256). change (2 ^ 8) with 256.
  rewrite <- !Z.div_div by lia.
  pose proof (Z.div_mod n 256). pose proof (Z.div_mod (n / 256) 256). pose proof (Z.div_mod (n / 256 / 256) 256).
  assert (n / 256 / 256 / 256 mod 256 = n / 256 / 256 / 256) as ->; [|lia].
  apply Z.mod_small. rewrite !Z.div_div by lia. split; [apply Z.div_pos; lia|]. apply Z.div_lt_upper_bound; lia.
Qed.

(** ** Executions *)

Section UriDemo.
#[local] Existing Instance absl_documented.
#[local] Existing Instance absl_match_documented.
#[local] Existing Instance uri_env_documented.
#[local] Existing Instance uri_env_laws.

Definition demo_uri : UriImpl := mkUri "[::1]:8443" "[::1]" "/a" 8443 "grpc".

Lemma demo_uri_constructed : UriImpl_new "GRPC://[::1]/a" "http" = Ok demo_uri.
Proof. by vm_compute. Qed.

Lemma uri_well_formed_witness :
  UriImpl_new "GRPC://[::1]/a" "http" = Ok demo_uri /\ 1 <= port_ demo_uri <= 65535.
Proof.
  split; [exact demo_uri_constructed|].
  exact (proj1 (proj2 (uri_well_formed "GRPC://[::1]/a" "http" demo_uri demo_uri_constructed))).
Defined.

Lemma uri_round_trip_witness : UriImpl_new "grpc://[::1]:8443/a" "tcp" = Ok demo_uri.
Proof. by apply (uri_round_trip "GRPC://[::1]/a" "http" "tcp" demo_uri demo_uri_constructed). Defined.

(** A resolver that knows one address. *)
Definition demo_dns (name : string) (family : DnsLookupFamily) : option (list (string * ip_version)) :=
  if (name =? "::1")%string then Some [("::1"%string, IPv6)] else None.

(** The wrong family: the first call throws, the second returns no address. *)
Definition demo_unresolved : UriResolution := mkResolution None true.

Lemma uri_resolved_once_witness :
  UriImpl_resolve demo_dns V4Only demo_uri (mkResolution None false) =
    (Throw (UriException "Could not determine address"), demo_unresolved) /\
  UriImpl_resolve demo_dns V6Only demo_uri demo_unresolved = (Ok None, demo_unresolved).
Proof.
  pose proof (uri_resolved_once demo_dns V4Only demo_uri (mkResolution None false)) as Ht.
  vm_compute in Ht |- *. destruct Ht as (_ & Hn & _). split; [done|]. exact (Hn demo_dns V6Only).
Defined.

Definition demo_counters : list (string * Z) :=
  [("cluster.0.upstream_rq"%string, UINT64_MAX); ("cluster.1.upstream_rq"%string, 5); ("loaded"%string, 1)].

Lemma counters_summed_by_name_witness :
  exists m, mapCountersFromStore (fun _ _ => true) demo_counters ∅ = Ok m /\ m !! "upstream_rq"%string = Some 4.
Proof.
  destruct (proj2 (counters_summed_by_name (fun _ _ => true) demo_counters)) as [m Hm].
  { intros n v Hin _. unfold demo_counters in Hin. rewrite !elem_of_cons, elem_of_nil in Hin.
    destruct Hin as [[= -> ->]|[[= -> ->]|[[= -> ->]|[]]]]; eexists; vm_compute; reflexivity. }
  exists m. split; [exact Hm|]. rewrite (proj1 (counters_summed_by_name (fun _ _ => true) demo_counters) m Hm).
  by vm_compute.
Defined.

(** A counter with the name of a prefix alone has no element to look at. *)
Lemma counter_named_prefix : mapCountersFromStore (fun _ _ => true) [("cluster"%string, 1)] ∅ = Undefined.
Proof. by vm_compute. Qed.

Lemma demo_sni :
  computeSniHost [demo_uri] ["Accept: */*"; "HOST: Example.org "; ":authority: x"]%string false = "example.org"%string /\
  computeSniHost [demo_uri] ["Host: a"; "host: a"]%string false = EmptyString.
Proof. by vm_compute. Qed.

Lemma grpc_frame_parsed_witness : exists b3 b2 b1 b0,
  grpcFrameMessage [7; 8] = Ok (0 :: b3 :: b2 :: b1 :: b0 :: [7; 8]) /\ ((b3 * 256 + b2) * 256 + b1) * 256 + b0 = 2.
Proof.
  destruct (proj1 (grpc_frame_parsed [7; 8]) ltac:(by vm_compute)) as (b3 & b2 & b1 & b0 & E & _ & El).
  by exists b3, b2, b1, b0.
Defined.

End UriDemo.
