(* ===== verification/RequestSource.v ===== *)
(** * Request sources

    Models [engine/source/common/request_source_impl.{h,cc}],
    [engine/source/common/request_stream_grpc_client_impl.{h,cc}], the plug-ins of
    [engine/source/request_source/], [RequestSourceFactoryImpl] and
    [rawMessageGenerator] of [engine/source/client/factories_impl.cc], and
    [RequestSourceServiceImpl] of [engine/source/client/service_impl.cc].

    Envoy's header maps, how numbers are printed and how a file is loaded are
    arguments, with the laws the code relies on. A generator is the state its
    closure captures and a function that is called on it; a null request is
    [None]. Bodies are strings of bytes. *)

From S2P Require Import Prelude Text WebSocketClient Uri.

(** ** Envoy's request headers *)

(** Names are lower-case strings. Setting replaces every value of the name;
    [rh_addCopy] adds one, [rh_appendCopy] adds to a value there is. The setters of well-known names ([setPath], [setHost]
    and the like) set the name of the header. *)
Class RequestHeaders (H : Type) : Type := {
  rh_empty : H;
  rh_get : string -> H -> list string;
  rh_copyFrom : H -> H -> H;
  rh_remove : string -> H -> H;
  rh_addCopy : string -> string -> H -> H;
  rh_setCopy : string -> string -> H -> H;
  rh_appendCopy : string -> string -> H -> H;
  rh_iterate : H -> list (string * string);
  LowerCaseString : string -> string;
  Headers_ContentLength : string;
  Headers_ContentType : string;
  Headers_Host : string;
  Headers_Path : string;
  Headers_Method : string;
  Headers_Scheme : string;
  Headers_TE : string;
  SchemeValues_Http : string;
  SchemeValues_Https : string;
  ContentTypeValues_Grpc : string;
  TEValues_Trailers : string;
  RequestMethod_Name : Z -> string;
  RequestMethod_POST : Z;
  print_number : Z -> string;
}.

Record RequestImpl (H : Type) : Type := mkRequest { request_header : H; request_body : string }.

Arguments mkRequest {H}.
Arguments request_header {H}.
Arguments request_body {H}.

Section Sources.
Context {H : Type} `{RequestHeaders H}.

(** ** The static source *)

Record StaticRequestSourceImpl : Type := mkStatic {
  static_header_ : H;
  yields_left_ : Z;
  static_body_ : string;
}.

(** A call of the generator: the counter is decremented whether or not it was
    zero. *)
Definition StaticRequestSourceImpl_next (s : StaticRequestSourceImpl) : option (RequestImpl H) * StaticRequestSourceImpl :=
  let s' := mkStatic (static_header_ s) (u64 (yields_left_ s - 1)) (static_body_ s) in
  if yields_left_ s =? 0 then (None, s') else (Some (mkRequest (static_header_ s) (static_body_ s)), s').

(** ** The list of options *)

Record RequestOptions : Type := mkRequestOptions {
  request_method : Z;
  request_headers : list (string * string);
  json_body : string;
  request_body_size : Z;
}.

Record OptionsListRequestSource : Type := mkOptionsList {
  ol_header_ : H;
  options_list_ : list RequestOptions;
  request_count_ : list Z;
  total_requests_ : Z;
}.

Definition OptionsListRequestSource_new (total_requests : Z) (header : H) (options : list RequestOptions) :
    OptionsListRequestSource :=
  mkOptionsList header options [] total_requests.

(** A generator begins with a copy of the counter just pushed. *)
Definition OptionsListRequestSource_get (s : OptionsListRequestSource) : Z * OptionsListRequestSource :=
  (0, mkOptionsList (ol_header_ s) (options_list_ s) (request_count_ s ++ [0]) (total_requests_ s)).

Definition set_all (headers : list (string * string)) (h : H) : H :=
  fold_left (fun h kv => rh_setCopy (LowerCaseString kv.1) kv.2 h) headers h.

(** The default header with what the options override. *)
Definition apply_options (o : RequestOptions) (header : H) : H :=
  let header := rh_setCopy Headers_Method (RequestMethod_Name (request_method o)) header in
  let content_length := if (json_body o =? EmptyString)%string then request_body_size o
                        else u32 (Z.of_nat (String.length (json_body o))) in
  let header := if 0 <? content_length
                then rh_setCopy Headers_ContentLength (print_number content_length) header else header in
  let header := if (json_body o =? EmptyString)%string then header
                else rh_setCopy Headers_ContentType "application/json" header in
  set_all (request_headers o) header.

Definition OptionsListRequestSource_next (s : OptionsListRequestSource) (lambda_counter : Z) :
    outcome (option (RequestImpl H) * Z) :=
  let header := rh_copyFrom rh_empty (ol_header_ s) in
  if (total_requests_ s <=? lambda_counter) && negb (total_requests_ s =? 0) then Ok (None, lambda_counter)
  else
    let options_size := Z.of_nat (length (options_list_ s)) in
    if options_size =? 0 then Ok (Some (mkRequest header EmptyString), lambda_counter)
    else
      let index := lambda_counter mod u32 options_size in
      match options_list_ s !! Z.to_nat index with
      | None => Undefined
      | Some o => Ok (Some (mkRequest (apply_options o header) (json_body o)), u32 (lambda_counter + 1))
      end.

(** ** Completions requests *)

Definition kCharset : string := "0123456789ABCDEFGHIJKLMNOPQRSTUVWXYZabcdefghijklmnopqrstuvwxyz".

Fixpoint char_at (n : nat) (s : string) : option ascii :=
  match n, s with
  | _, EmptyString => None
  | O, String c _ => Some c
  | S n, String _ s => char_at n s
  end.

(** [Uniform i]: the number drawn for token [i], below the length of the set. The
    loop runs for [i] from [num_tokens - remaining]. *)
Fixpoint prompt_loop (Uniform : Z -> nat) (num_tokens : Z) (remaining : nat) : string :=
  match remaining with
  | O => EmptyString
  | S remaining =>
      let i := num_tokens - Z.of_nat (S remaining) in
      match char_at (Uniform i) kCharset with Some c => String c EmptyString | None => EmptyString end +:+
      (if i <? num_tokens - 1 then " " else "") +:+
      prompt_loop Uniform num_tokens remaining
  end.

Definition GenerateRandomPrompt (Uniform : Z -> nat) (num_tokens : Z) : string :=
  prompt_loop Uniform num_tokens (Z.to_nat num_tokens).

Record LlmRequestSourcePlugin : Type := mkLlm {
  model_name_ : string;
  req_token_count_ : Z;
  resp_max_tokens_ : Z;
  llm_header_ : H;
}.

(** A line break and a double quote. *)
Definition NL : string := String "010"%char EmptyString.

Definition DQ : string := String "034"%char EmptyString.

Definition llm_body (model : string) (max_tokens : Z) (content : string) : string :=
  NL +:+ "      {" +:+ NL +:+
  "        " +:+ DQ +:+ "model" +:+ DQ +:+ ": " +:+ DQ +:+ model +:+ DQ +:+ "," +:+ NL +:+
  "        " +:+ DQ +:+ "max_tokens" +:+ DQ +:+ ": " +:+ print_number max_tokens +:+ "," +:+ NL +:+
  "        " +:+ DQ +:+ "messages" +:+ DQ +:+ ": [" +:+ NL +:+
  "          {" +:+ NL +:+
  "            " +:+ DQ +:+ "role" +:+ DQ +:+ ": " +:+ DQ +:+ "user" +:+ DQ +:+ "," +:+ NL +:+
  "            " +:+ DQ +:+ "content" +:+ DQ +:+ ": " +:+ DQ +:+ content +:+ DQ +:+ NL +:+
  "          }" +:+ NL +:+ "        ]" +:+ NL +:+ "      }" +:+ NL +:+ "    ".

Definition LlmRequestSourcePlugin_next (Uniform : Z -> nat) (s : LlmRequestSourcePlugin) : RequestImpl H :=
  let headers := rh_copyFrom rh_empty (llm_header_ s) in
  let body := llm_body (model_name_ s) (resp_max_tokens_ s) (GenerateRandomPrompt Uniform (req_token_count_ s)) in
  let headers := rh_setCopy Headers_Method (RequestMethod_Name RequestMethod_POST) headers in
  let headers := rh_setCopy Headers_ContentType "application/json" headers in
  let headers := rh_setCopy Headers_ContentLength (print_number (Z.of_nat (String.length body))) headers in
  mkRequest (rh_setCopy ":path" "/v1/completions" headers) body.

(** ** Requests from a service *)

Inductive OneofHeaders : Type :=
| headers_not_set
| v2_headers (l : list (string * string))
| v3_headers (l : list (string * string)).

Record RequestSpecifier : Type := mkSpecifier {
  spec_method : option string;
  spec_path : option string;
  spec_authority : option string;
  spec_content_length : option Z;
  spec_headers : OneofHeaders;
}.

(** The specifier of a [RequestStreamResponse], if it has one. *)
Definition RequestStreamResponse : Type := option RequestSpecifier.

Definition replace_header (header : H) (kv : string * string) : H :=
  let header_name := LowerCaseString kv.1 in
  rh_addCopy header_name kv.2 (rh_remove header_name header).

Definition replace_known (name : string) (value : option string) (header : H) : H :=
  match value with
  | Some v => rh_setCopy name v (rh_remove name header)
  | None => header
  end.

Definition messageToRequest (base_header : H) (message : RequestStreamResponse) : RequestImpl H :=
  let header := rh_copyFrom rh_empty base_header in
  mkRequest
    match message with
    | None => header
    | Some spec =>
        let header := match spec_headers spec with
                      | v3_headers l => fold_left replace_header l header
                      | v2_headers l => fold_left replace_header l header
                      | headers_not_set => header
                      end in
        let header := replace_known Headers_ContentLength (print_number <$> spec_content_length spec) header in
        let header := replace_known Headers_Host (spec_authority spec) header in
        let header := replace_known Headers_Path (spec_path spec) header in
        replace_known Headers_Method (spec_method spec) header
    end EmptyString.

(** The client of the stream. [sent_quantities] are the requests sent on it. *)
Record RequestStreamGrpcClientImpl : Type := mkStreamClient {
  stream_ : bool;
  messages_ : list RequestStreamResponse;
  in_flight_headers_ : Z;
  total_messages_received_ : Z;
  base_header_ : H;
  header_buffer_length_ : Z;
  sent_quantities : list Z;
}.

Definition RequestStreamGrpcClientImpl_new (base_header : H) (header_buffer_length : Z) : RequestStreamGrpcClientImpl :=
  mkStreamClient false [] 0 0 base_header header_buffer_length [].

Definition trySendRequest (s : RequestStreamGrpcClientImpl) : RequestStreamGrpcClientImpl :=
  if stream_ s
  then mkStreamClient (stream_ s) (messages_ s) (header_buffer_length_ s) (total_messages_received_ s)
         (base_header_ s) (header_buffer_length_ s) (sent_quantities s ++ [header_buffer_length_ s])
  else s.

(** [ok]: the stream could be made. *)
Definition RequestStreamGrpcClientImpl_start (ok : bool) (s : RequestStreamGrpcClientImpl) : RequestStreamGrpcClientImpl :=
  trySendRequest
    (mkStreamClient ok (messages_ s) (in_flight_headers_ s) (total_messages_received_ s)
       (base_header_ s) (header_buffer_length_ s) (sent_quantities s)).

Definition onReceiveMessage (m : RequestStreamResponse) (s : RequestStreamGrpcClientImpl) : RequestStreamGrpcClientImpl :=
  mkStreamClient (stream_ s) (messages_ s ++ [m]) (u32 (in_flight_headers_ s - 1))
    (u32 (total_messages_received_ s + 1)) (base_header_ s) (header_buffer_length_ s) (sent_quantities s).

Definition onRemoteClose (s : RequestStreamGrpcClientImpl) : RequestStreamGrpcClientImpl :=
  mkStreamClient false (messages_ s) (in_flight_headers_ s) (total_messages_received_ s)
    (base_header_ s) (header_buffer_length_ s) (sent_quantities s).

Definition streamStatusKnown (s : RequestStreamGrpcClientImpl) : bool :=
  negb (stream_ s) || (0 <? total_messages_received_ s).

Definition maybeDequeue (s : RequestStreamGrpcClientImpl) : option (RequestImpl H) * RequestStreamGrpcClientImpl :=
  match messages_ s with
  | [] => (None, s)
  | message :: rest =>
      let s' := mkStreamClient (stream_ s) rest (in_flight_headers_ s) (total_messages_received_ s)
                  (base_header_ s) (header_buffer_length_ s) (sent_quantities s) in
      (Some (messageToRequest (base_header_ s) message),
       if (in_flight_headers_ s' =? 0) && (Z.of_nat (length rest) <? header_buffer_length_ s')
       then trySendRequest s' else s')
  end.

(** The set-up of a remote source, which waits for the status of the stream.
    [run i] is what the dispatcher does to the client in turn [i], [clock i] the
    time read after it. The result says whether it timed out. *)
Definition STREAM_SETUP_TIMEOUT : Z := 60 * 1000000000.

Fixpoint setup_loop (fuel : nat) (run : nat -> RequestStreamGrpcClientImpl -> RequestStreamGrpcClientImpl)
    (clock : nat -> Z) (start : Z) (i : nat) (s : RequestStreamGrpcClientImpl) :
    option (bool * RequestStreamGrpcClientImpl) :=
  match fuel with
  | O => None
  | S fuel =>
      let s := run i s in
      let timeout := STREAM_SETUP_TIMEOUT <? clock i - start in
      if negb (streamStatusKnown s) && negb timeout then setup_loop fuel run clock start (S i) s
      else Some (timeout, s)
  end.

(** [have_cluster]: the cluster manager knows the cluster of the service. *)
Definition connectToRequestStreamGrpcService (fuel : nat) (have_cluster ok : bool)
    (run : nat -> RequestStreamGrpcClientImpl -> RequestStreamGrpcClientImpl) (clock : nat -> Z) (start : Z)
    (base_header : H) (header_buffer_length : Z) : outcome (option (bool * RequestStreamGrpcClientImpl)) :=
  if have_cluster
  then Ok (setup_loop fuel run clock start 0
             (RequestStreamGrpcClientImpl_start ok (RequestStreamGrpcClientImpl_new base_header header_buffer_length)))
  else Panic "Failed to find service cluster".

(** ** The service that answers *)

(** [amount] is 32 bits wide. *)
Definition createStaticEmptyRequestSource (amount : Z) : StaticRequestSourceImpl :=
  mkStatic (rh_addCopy (LowerCaseString "x-from-remote-request-source") "1" rh_empty) (u32 amount) EmptyString.

Definition response_of (request : RequestImpl H) : RequestStreamResponse :=
  Some (mkSpecifier None None None None (v3_headers (rh_iterate (request_header request)))).

(** The inner loop. [write n] is whether the [n]th response can be written;
    [written] are those written to the stream. *)
Fixpoint serve_loop (fuel : nat) (write : nat -> bool) (source : StaticRequestSourceImpl)
    (written : list RequestStreamResponse) : option (bool * list RequestStreamResponse) :=
  match fuel with
  | O => None
  | S fuel =>
      match StaticRequestSourceImpl_next source with
      | (None, _) => Some (true, written)
      | (Some request, source) =>
          if write (length written) then serve_loop fuel write source (written ++ [response_of request])
          else Some (false, written)
      end
  end.

(** The quantities read, and the status returned. *)
Fixpoint RequestStream (fuel : nat) (write : nat -> bool) (quantities : list Z)
    (written : list RequestStreamResponse) : option (bool * list RequestStreamResponse) :=
  match quantities with
  | [] => Some (true, written)
  | quantity :: quantities =>
      match serve_loop fuel write (createStaticEmptyRequestSource quantity) written with
      | None => None
      | Some (false, written) => Some (false, written)
      | Some (true, written) => RequestStream fuel write quantities written
      end
  end.

(** ** The generator of raw messages *)

(** [next] is what the generator of the source returned. *)
Definition rawMessageGenerator (body_size : nat) (next : option (RequestImpl H)) : option (RequestImpl H) :=
  match next with
  | Some request =>
      if (request_body request =? EmptyString)%string && (0 <? Z.of_nat body_size)
      then Some (mkRequest (request_header request) (String.string_of_list_ascii (repeat "a"%char body_size)))
      else Some request
  | None => None
  end.

End Sources.

Arguments StaticRequestSourceImpl : clear implicits.
Arguments OptionsListRequestSource : clear implicits.
Arguments LlmRequestSourcePlugin : clear implicits.
Arguments RequestStreamGrpcClientImpl : clear implicits.

(** ** Plug-ins and the factory *)

(** The messages the plug-ins unpack their configuration to. *)
Inductive PluginMessage : Type :=
| FileBasedOptionsListRequestSourceConfig (file_path : string) (max_file_size : option Z) (num_requests : Z)
| InLineOptionsListRequestSourceConfig (options_list : list RequestOptions) (num_requests : Z)
| LlmRequestSourcePluginConfig (model_name : string) (req_token_count resp_max_tokens : Z)
    (options_list : list RequestOptions)
| OtherPluginMessage.

Record TypedExtensionConfig : Type := mkExtension { extension_name : string; typed_config : PluginMessage }.

Inductive RequestSourcePtr (H : Type) : Type :=
| StaticSource (s : StaticRequestSourceImpl H)
| OptionsListSource (s : OptionsListRequestSource H)
| LlmSource (s : LlmRequestSourcePlugin H)
| RemoteSource (service_cluster_name : string) (base_header : H) (header_buffer_length : Z).

Arguments StaticSource {H}.
Arguments OptionsListSource {H}.
Arguments LlmSource {H}.
Arguments RemoteSource {H}.

(** What the factory reads of the options. *)
Record SourceOptions : Type := mkSourceOptions {
  opt_uri : option string;
  opt_multiTargetPath : string;
  opt_multiTargetUseHttps : bool;
  opt_requestMethod : Z;
  opt_requestBody : string;
  opt_grpcMode : bool;
  opt_requestBodySize : Z;
  opt_request_headers : list (string * string);
  opt_requestSource : string;
  opt_requestSourcePluginConfig : option TypedExtensionConfig;
  opt_requestsPerSecond : Z;
}.

Section Factory.
Context {H : Type} `{RequestHeaders H} `{UriEnv} `{AbslStrings}.
(** The size of a file, the list loaded from it, and the texts of Envoy's
    exceptions. *)
Context (fileSize : string -> Z) (loadFromFile : string -> option (list RequestOptions)).
Context (load_error unpack_error lookup_error : string).

Definition FileBased_createRequestSourcePlugin (message : PluginMessage) (header : H) : outcome (RequestSourcePtr H) :=
  match message with
  | FileBasedOptionsListRequestSourceConfig file_path max_file_size num_requests =>
      if default 1000000 max_file_size <? fileSize file_path
      then Throw (NighthawkException "file size must be less than max_file_size")
      else match loadFromFile file_path with
           | Some loaded_list => Ok (OptionsListSource (OptionsListRequestSource_new num_requests header loaded_list))
           | None => Throw (EnvoyException load_error)
           end
  | _ => Throw (EnvoyException unpack_error)
  end.

Definition InLine_createRequestSourcePlugin (message : PluginMessage) (header : H) : outcome (RequestSourcePtr H) :=
  match message with
  | InLineOptionsListRequestSourceConfig options_list num_requests =>
      Ok (OptionsListSource (OptionsListRequestSource_new num_requests header options_list))
  | _ => Throw (EnvoyException unpack_error)
  end.

Definition Llm_createRequestSourcePlugin (message : PluginMessage) (header : H) : outcome (RequestSourcePtr H) :=
  match message with
  | LlmRequestSourcePluginConfig model_name req_token_count resp_max_tokens options_list =>
      if (model_name =? EmptyString)%string then Throw (EnvoyException "Model name is required.")
      else
        let header := fold_left (fun h o => set_all (request_headers o) h) options_list header in
        Ok (LlmSource (mkLlm model_name req_token_count resp_max_tokens header))
  | _ => Throw (EnvoyException unpack_error)
  end.

(** A status with a message, or the source. An exception that is not Envoy's is
    not caught. *)
Definition LoadRequestSourcePlugin (config : TypedExtensionConfig) (header : H) :
    outcome (string + RequestSourcePtr H) :=
  let name := extension_name config in
  let created :=
    if (name =? "nighthawk.file-based-request-source-plugin")%string
    then FileBased_createRequestSourcePlugin (typed_config config) header
    else if (name =? "nighthawk.in-line-options-list-request-source-plugin")%string
    then InLine_createRequestSourcePlugin (typed_config config) header
    else if (name =? "nighthawk.request_source.llm")%string
    then Llm_createRequestSourcePlugin (typed_config config) header
    else Throw (EnvoyException lookup_error) in
  match created with
  | Ok s => Ok (inr s)
  | Throw (EnvoyException what) => Ok (inl ("Could not load plugin: " +:+ name +:+ ": " +:+ what))
  | Throw e => Throw e
  | Panic e => Panic e
  | Undefined => Undefined
  end.

Definition setRequestHeader (header : H) (kv : string * string) : H :=
  let lower_case_key := LowerCaseString kv.1 in
  rh_addCopy lower_case_key kv.2 (rh_remove lower_case_key header).

(** The headers taken from the target. *)
Definition target_header (o : SourceOptions) (header : H) : outcome H :=
  match opt_uri o with
  | Some uri =>
      let* u := UriImpl_new uri "http" in
      let header := rh_setCopy Headers_Path (path_ u) header in
      let header := rh_setCopy Headers_Host (host_and_port_ u) header in
      Ok (rh_setCopy Headers_Scheme (if (scheme_ u =? "https")%string then SchemeValues_Https else SchemeValues_Http)
            header)
  | None =>
      let header := rh_setCopy Headers_Path (opt_multiTargetPath o) header in
      let header := rh_setCopy Headers_Host "host-not-supported-in-multitarget-mode" header in
      Ok (rh_setCopy Headers_Scheme (if opt_multiTargetUseHttps o then SchemeValues_Https else SchemeValues_Http)
            header)
  end.

(** The headers of the body, and the body as it is sent. *)
Definition body_header (o : SourceOptions) (header : H) : outcome (H * string) :=
  let body := opt_requestBody o in
  if opt_grpcMode o then
    let* framed := grpcFrameMessage (to_bytes body) in
    Ok (rh_setCopy Headers_TE TEValues_Trailers (rh_setCopy Headers_ContentType ContentTypeValues_Grpc header),
        of_bytes framed)
  else if negb (body =? EmptyString)%string then
    Ok (rh_setCopy Headers_ContentLength (print_number (Z.of_nat (String.length body))) header, body)
  else if 0 <? opt_requestBodySize o then
    Ok (rh_setCopy Headers_ContentLength (print_number (opt_requestBodySize o)) header, body)
  else Ok (header, body).

Definition RequestSourceFactoryImpl_create (o : SourceOptions) (service_cluster_name : string) :
    outcome (RequestSourcePtr H) :=
  let* header := target_header o rh_empty in
  let header := rh_setCopy Headers_Method (RequestMethod_Name (opt_requestMethod o)) header in
  let* hb := body_header o header in
  let '(header, body) := hb in
  let header := fold_left setRequestHeader (opt_request_headers o) header in
  if negb (opt_requestSource o =? EmptyString)%string then
    if (service_cluster_name =? EmptyString)%string then Panic "expected cluster name to be set"
    else Ok (RemoteSource service_cluster_name header (opt_requestsPerSecond o))
  else match opt_requestSourcePluginConfig o with
       | Some config =>
           let* plugin_or := LoadRequestSourcePlugin config header in
           match plugin_or with
           | inl message =>
               Throw (NighthawkException ("Request Source plugin loading error should have been caught " +:+
                                          "during input validation: " +:+ message))
           | inr s => Ok s
           end
       | None => Ok (StaticSource (mkStatic header UINT64_MAX body))
       end.

End Factory.
