(* ===== verification/RequestSourceProofs.v ===== *)
(** * Request sources: theorems

    How many requests each source yields and what is in them; the flow between the
    client of a remote source and the service that answers it. *)

From S2P Require Import Prelude Text WebSocketClient Uri RequestSource.

(** ** What Envoy promises *)

Class RequestHeadersLaws (H : Type) `{RequestHeaders H} : Prop := {
  rhl_empty n : rh_get n rh_empty = [];
  rhl_copy n h : rh_get n (rh_copyFrom rh_empty h) = rh_get n h;
  rhl_remove_eq n h : rh_get n (rh_remove n h) = [];
  rhl_remove_ne n m h : n <> m -> rh_get n (rh_remove m h) = rh_get n h;
  rhl_add_new n v h : rh_get n h = [] -> rh_get n (rh_addCopy n v h) = [v];
  rhl_add_ne n m v h : n <> m -> rh_get n (rh_addCopy m v h) = rh_get n h;
  rhl_set_eq n v h : rh_get n (rh_setCopy n v h) = [v];
  rhl_set_ne n m v h : n <> m -> rh_get n (rh_setCopy m v h) = rh_get n h;
  rhl_iterate_one n v : rh_iterate (rh_addCopy n v rh_empty) = [(n, v)];
  rhl_names : NoDup [Headers_ContentLength; Headers_ContentType; Headers_Host; Headers_Path; Headers_Method;
                     Headers_Scheme; Headers_TE];
  rhl_path : Headers_Path = ":path"%string;
}.

Lemma name_ne {H : Type} `{RequestHeadersLaws H} (i j : nat) (a b : string) :
  let names := [Headers_ContentLength; Headers_ContentType; Headers_Host; Headers_Path; Headers_Method; Headers_Scheme;
                Headers_TE] in
  names !! i = Some a -> names !! j = Some b -> bool_decide (i <> j) = true -> a <> b.
Proof.
  intros names Hi Hj Hne%bool_decide_eq_true_1 ->. apply Hne. exact (NoDup_lookup names i j b rhl_names Hi Hj).
Qed.

(** Looks a well-known name up in headers that were set one by one. *)
Ltac name_index n :=
  lazymatch n with
  | Headers_ContentLength => constr:(0%nat)
  | Headers_ContentType => constr:(1%nat)
  | Headers_Host => constr:(2%nat)
  | Headers_Path => constr:(3%nat)
  | Headers_Method => constr:(4%nat)
  | Headers_Scheme => constr:(5%nat)
  | Headers_TE => constr:(6%nat)
  end.

Ltac header_ne :=
  lazymatch goal with
  | |- ?a <> ?b => let i := name_index a in let j := name_index b in exact (name_ne i j a b eq_refl eq_refl eq_refl)
  end.

Ltac header_lookup := repeat first [rewrite rhl_set_eq|rewrite rhl_set_ne by header_ne|rewrite rhl_empty]; try reflexivity.

Section HeaderProofs.
Context {H : Type} `{RequestHeadersLaws H}.

(** An operation on headers that gives the name this value and keeps the rest. *)
Definition puts (name value : string) (h h' : H) : Prop :=
  forall n, rh_get n h' = if (n =? name)%string then [value] else rh_get n h.

Lemma set_puts name v h : puts name v h (rh_setCopy name v h).
Proof. intros n. destruct (String.eqb_spec n name) as [->|Hn]; [apply rhl_set_eq|by apply rhl_set_ne]. Qed.

Lemma replace_puts name v h : puts name v h (rh_addCopy name v (rh_remove name h)).
Proof.
  intros n. destruct (String.eqb_spec n name) as [->|Hn].
  - apply rhl_add_new, rhl_remove_eq.
  - by rewrite rhl_add_ne, rhl_remove_ne.
Qed.

Lemma known_puts name v h : puts name v h (rh_setCopy name v (rh_remove name h)).
Proof.
  intros n. destruct (String.eqb_spec n name) as [->|Hn]; [apply rhl_set_eq|]. by rewrite rhl_set_ne, rhl_remove_ne.
Qed.

(** The last value given for a name. *)
Definition last_value (n : string) (l : list (string * string)) (acc : option string) : option string :=
  fold_left (fun acc kv => if (n =? LowerCaseString kv.1)%string then Some kv.2 else acc) l acc.

Definition value_or (v : option string) (rest : list string) : list string :=
  match v with Some v => [v] | None => rest end.

Lemma last_value_acc n l acc :
  last_value n l acc = match last_value n l None with Some v => Some v | None => acc end.
Proof.
  revert acc. induction l as [|kv l IH]; intros acc; [done|]. unfold last_value. cbn [fold_left].
  fold (last_value n l (if (n =? LowerCaseString kv.1)%string then Some kv.2 else acc)).
  fold (last_value n l (if (n =? LowerCaseString kv.1)%string then Some kv.2 else None)).
  destruct (n =? LowerCaseString kv.1)%string; [|apply IH]. rewrite IH. by destruct (last_value n l None).
Qed.

(** Putting the headers of a list one by one leaves the last value of each name. *)
Lemma fold_puts (f : H -> string * string -> H) l h n :
  (forall h kv, puts (LowerCaseString kv.1) kv.2 h (f h kv)) ->
  rh_get n (fold_left f l h) = value_or (last_value n l None) (rh_get n h).
Proof.
  intros Hf. revert h. induction l as [|kv l IH]; intros h; [done|]. cbn [fold_left]. rewrite IH, (Hf h kv n).
  unfold last_value. cbn [fold_left]. destruct (n =? LowerCaseString kv.1)%string; [|done].
  fold (last_value n l (Some kv.2)) (last_value n l None). rewrite (last_value_acc n l (Some kv.2)).
  by destruct (last_value n l None).
Qed.

Lemma get_known n name v h :
  rh_get n (replace_known name v h) = value_or (if (n =? name)%string then v else None) (rh_get n h).
Proof.
  destruct v as [v|]; cbn [replace_known]; [|by destruct (n =? name)%string]. rewrite (known_puts name v h n).
  by destruct (n =? name)%string.
Qed.

Definition headers_of (o : OneofHeaders) : list (string * string) :=
  match o with headers_not_set => [] | v2_headers l => l | v3_headers l => l end.

(** What a specifier says of a header: an explicit field before a header of the
    list, the last of the list before those in front of it. *)
Definition specified (n : string) (spec : RequestSpecifier) : option string :=
  let explicit name v rest := if (n =? name)%string then match v with Some v => Some v | None => rest end else rest in
  explicit Headers_Method (spec_method spec)
    (explicit Headers_Path (spec_path spec)
      (explicit Headers_Host (spec_authority spec)
        (explicit Headers_ContentLength (print_number <$> spec_content_length spec)
          (last_value n (headers_of (spec_headers spec)) None)))).

Lemma value_or_or (a b : option string) rest :
  value_or a (value_or b rest) = value_or (match a with Some v => Some v | None => b end) rest.
Proof. by destruct a. Qed.

(** A request made of a message from the service has the headers of the
    message over those configured: a method, path, authority or content length
    given explicitly wins over a header of that name, the last header of a name
    wins over those before it, what the message names has exactly that one
    value, and everything else is as configured. *)
Lemma message_overrides base spec n :
  rh_get n (request_header (messageToRequest base (Some spec))) =
    value_or (specified n spec) (rh_get n base) /\
  rh_get n (request_header (messageToRequest base None)) = rh_get n base.
Proof.
  split; cbn; [|apply rhl_copy]. rewrite !get_known, !value_or_or.
  assert (rh_get n match spec_headers spec with
                   | headers_not_set => rh_copyFrom rh_empty base
                   | v2_headers l => fold_left replace_header l (rh_copyFrom rh_empty base)
                   | v3_headers l => fold_left replace_header l (rh_copyFrom rh_empty base)
                   end = value_or (last_value n (headers_of (spec_headers spec)) None) (rh_get n base)) as ->.
  { destruct (spec_headers spec) as [|l|l]; cbn [headers_of]; [apply rhl_copy|..];
      (rewrite (fold_puts replace_header l); [by rewrite rhl_copy|intros h kv; apply replace_puts]). }
  rewrite value_or_or. unfold specified. f_equal.
  by repeat match goal with |- context [(n =? ?m)%string] => destruct (n =? m)%string end;
    destruct (spec_method spec), (spec_path spec), (spec_authority spec), (spec_content_length spec).
Qed.

End HeaderProofs.

(** ** How many requests a source yields *)

Section Counting.
Context {H : Type} `{RequestHeaders H}.

(** The result of the call after [k] others. *)
Definition static_after (k : nat) (s : StaticRequestSourceImpl H) : StaticRequestSourceImpl H :=
  Nat.iter k (fun s => (StaticRequestSourceImpl_next s).2) s.

Lemma static_after_fields k s :
  in_u64 (yields_left_ s) ->
  static_after k s = mkStatic (static_header_ s) (u64 (yields_left_ s - Z.of_nat k)) (static_body_ s).
Proof.
  intros Hs. induction k as [|k IH].
  - cbn. rewrite Z.sub_0_r, u64_small by done. by destruct s.
  - change (static_after (S k) s) with (StaticRequestSourceImpl_next (static_after k s)).2. rewrite IH.
    unfold StaticRequestSourceImpl_next. cbn -[Z.of_nat].
    rewrite Nat2Z.inj_succ. destruct (_ =? 0); cbn; f_equal; unfold u64, wrap_u; rewrite Zminus_mod_idemp_l;
      f_equal; lia.
Qed.

Lemma static_call k s :
  in_u64 (yields_left_ s) ->
  (StaticRequestSourceImpl_next (static_after k s)).1 =
    if u64 (yields_left_ s - Z.of_nat k) =? 0 then None else Some (mkRequest (static_header_ s) (static_body_ s)).
Proof. intros Hs. rewrite static_after_fields by done. unfold StaticRequestSourceImpl_next. cbn. by destruct (_ =? 0). Qed.

(** The static source yields its request exactly [max_yields] times and then
    null once; but the call that returns null wraps the counter, so that every
    one of the next 2^64 - 1 calls yields a request again. *)
Lemma static_source_yields (s : StaticRequestSourceImpl H) (k : nat) :
  in_u64 (yields_left_ s) ->
  let call := (StaticRequestSourceImpl_next (static_after k s)).1 in
  let request := Some (mkRequest (static_header_ s) (static_body_ s)) in
  (Z.of_nat k < yields_left_ s -> call = request) /\
  (Z.of_nat k = yields_left_ s -> call = None) /\
  (yields_left_ s < Z.of_nat k < yields_left_ s + 2 ^ 64 -> call = request).
Proof.
  intros Hs. cbv zeta. rewrite static_call by done. unfold in_u64 in Hs. split_and!; intros Hk.
  - rewrite u64_small by (unfold in_u64; lia). by replace (_ =? 0) with false by lia.
  - rewrite <- Hk, Z.sub_diag. done.
  - assert (u64 (yields_left_ s - Z.of_nat k) = yields_left_ s - Z.of_nat k + 2 ^ 64) as ->.
    { unfold u64, wrap_u. rewrite <- (Z.mod_add _ 1) by lia. rewrite Z.mod_small; lia. }
    by replace (_ =? 0) with false by lia.
Qed.

(** The results of the first calls of a generator. *)
Fixpoint options_calls (s : OptionsListRequestSource H) (k : nat) (counter : Z) : outcome (list (option (RequestImpl H))) :=
  match k with
  | O => Ok []
  | S k =>
      let* rc := OptionsListRequestSource_next s counter in
      let* rest := options_calls s k rc.2 in
      Ok (rc.1 :: rest)
  end.

(** What call [i] is to return when the list is not empty. *)
Definition options_request (s : OptionsListRequestSource H) (i : nat) : option (RequestImpl H) :=
  if (total_requests_ s <=? Z.of_nat i) && negb (total_requests_ s =? 0) then None
  else (fun o => mkRequest (apply_options o (rh_copyFrom rh_empty (ol_header_ s))) (json_body o)) <$>
       options_list_ s !! (i mod length (options_list_ s))%nat.

Definition options_counter (s : OptionsListRequestSource H) (i : nat) : Z :=
  if total_requests_ s =? 0 then Z.of_nat i else Z.min (Z.of_nat i) (total_requests_ s).

Lemma options_step s i :
  options_list_ s <> [] -> Z.of_nat (length (options_list_ s)) < 2 ^ 31 -> 0 <= total_requests_ s < 2 ^ 32 ->
  Z.of_nat i < 2 ^ 32 - 1 ->
  OptionsListRequestSource_next s (options_counter s i) = Ok (options_request s i, options_counter s (S i)).
Proof.
  intros Hne Hl Ht Hi. unfold OptionsListRequestSource_next, options_request, options_counter.
  set (N := total_requests_ s) in *. set (l := options_list_ s) in *.
  assert (0 < Z.of_nat (length l)) as Hpos by (destruct l; cbn; [done|lia]).
  destruct (Z.eqb_spec N 0) as [E|E]; cbn [negb]; rewrite ?andb_false_r, ?andb_true_r.
  2: destruct (Z.leb_spec N (Z.min (Z.of_nat i) N)) as [Hle|Hle].
  2: { replace (N <=? Z.of_nat i) with true by lia. do 2 f_equal. lia. }
  1: set (c := Z.of_nat i). 2: replace (N <=? Z.of_nat i) with false by lia; set (c := Z.min (Z.of_nat i) N).
  1: assert (c = Z.of_nat i) as Ec by done. 2: assert (c = Z.of_nat i) as Ec by lia.
  all: clearbody c; subst c; replace (Z.of_nat (length l) =? 0) with false by lia.
  all: unfold u32, wrap_u; rewrite (Z.mod_small (Z.of_nat (length l))) by lia.
  all: rewrite <- Nat2Z.inj_mod, Nat2Z.id.
  all: destruct (lookup_lt_is_Some_2 l (i mod length l)) as [o Ho]; [apply Nat.mod_upper_bound; lia|].
  all: rewrite Ho; cbn; rewrite Z.mod_small by lia; do 2 f_equal; lia.
Qed.

Lemma options_calls_from s k i :
  options_list_ s <> [] -> Z.of_nat (length (options_list_ s)) < 2 ^ 31 -> 0 <= total_requests_ s < 2 ^ 32 ->
  Z.of_nat (i + k) < 2 ^ 32 ->
  options_calls s k (options_counter s i) = Ok (options_request s <$> seq i k).
Proof.
  intros Hne Hl Ht. revert i. induction k as [|k IH]; intros i Hi; [done|]. cbn [options_calls].
  rewrite options_step by (done || lia). cbn [obind snd fst]. rewrite IH by lia. done.
Qed.

(** A source with a list of options replays the list from its beginning,
    over and over, and yields exactly [total_requests] requests when that is not
    zero, for fewer than 2^32 calls. With an empty list the limit does not
    apply: the default header comes back for ever. *)
Lemma options_list_replays (s : OptionsListRequestSource H) (k : nat) :
  Z.of_nat (length (options_list_ s)) < 2 ^ 31 -> 0 <= total_requests_ s < 2 ^ 32 -> Z.of_nat k < 2 ^ 32 ->
  let '(counter, s') := OptionsListRequestSource_get s in
  (options_list_ s <> [] ->
   options_calls s' k counter = Ok (options_request s <$> seq 0 k) /\
   (total_requests_ s <> 0 ->
    length (List.filter (fun r => match r with Some _ => true | None => false end) (options_request s <$> seq 0 k)) =
      Nat.min k (Z.to_nat (total_requests_ s)))) /\
  (options_list_ s = [] ->
   options_calls s' k counter = Ok (repeat (Some (mkRequest (rh_copyFrom rh_empty (ol_header_ s)) EmptyString)) k)).
Proof.
  intros Hl Ht Hk. cbn [OptionsListRequestSource_get]. set (s' := mkOptionsList _ _ _ _). split.
  - intros Hne. split.
    + assert (options_counter s' 0 = 0) as E by (unfold options_counter; cbn; destruct (_ =? 0); lia).
      rewrite <- E. exact (options_calls_from s' k 0 Hne Hl Ht Hk).
    + intros Hn. clear Hk. induction k as [|k IH]; [done|]. rewrite seq_S, fmap_app, List.filter_app, length_app, IH.
      cbn [Nat.add fmap list_fmap List.filter]. unfold options_request at 1. replace (total_requests_ s =? 0) with false by lia. rewrite andb_true_r.
      destruct (Z.leb_spec (total_requests_ s) (Z.of_nat k)) as [Hle|Hle]; [cbn [length]; lia|].
      destruct (lookup_lt_is_Some_2 (options_list_ s) (k mod length (options_list_ s))) as [o ->]; [|cbn [fmap option_fmap option_map length]; lia].
      apply Nat.mod_upper_bound. by destruct (options_list_ s).
  - intros Hnil. clear Hk.
    assert (OptionsListRequestSource_next s' 0 =
            Ok (Some (mkRequest (rh_copyFrom rh_empty (ol_header_ s)) EmptyString), 0)) as E.
    { unfold OptionsListRequestSource_next. cbn. rewrite Hnil. cbn.
      by replace ((total_requests_ s <=? 0) && negb (total_requests_ s =? 0)) with false by lia. }
    clearbody s'. induction k as [|k IH]; [done|]. cbn [options_calls repeat]. rewrite E. cbn [obind fst snd].
    by rewrite IH.
Qed.

End Counting.

(** ** The service *)

Section ServiceProofs.
Context {H : Type} `{RequestHeadersLaws H}.

Definition the_response : RequestStreamResponse :=
  Some (mkSpecifier None None None None (v3_headers [(LowerCaseString "x-from-remote-request-source", "1"%string)])).

(** The inner loop writes what is left of the source, up to the first response
    that cannot be written. *)
Lemma serve_loop_writes n fuel write header written :
  (n < fuel)%nat -> Z.of_nat n < 2 ^ 64 ->
  let r := response_of (mkRequest header EmptyString) in
  let count := length written in
  ((forall i, (i < n)%nat -> write (count + i)%nat = true) ->
   serve_loop (H := H) fuel write (mkStatic header (Z.of_nat n) EmptyString) written = Some (true, written ++ repeat r n)) /\
  (forall k, (k < n)%nat -> (forall i, (i < k)%nat -> write (count + i)%nat = true) -> write (count + k)%nat = false ->
   serve_loop (H := H) fuel write (mkStatic header (Z.of_nat n) EmptyString) written = Some (false, written ++ repeat r k)).
Proof.
  cbv zeta. revert n written. induction fuel as [|fuel IH]; intros n written Hf Hn; [lia|].
  cbn [serve_loop]. unfold StaticRequestSourceImpl_next. cbn [yields_left_ static_header_ static_body_].
  destruct n as [|n].
  { cbn. split; [by rewrite app_nil_r|intros k Hk; lia]. }
  rewrite (proj2 (Z.eqb_neq (Z.of_nat (S n)) 0)) by lia. rewrite u64_small by (unfold in_u64; lia).
  replace (Z.of_nat (S n) - 1) with (Z.of_nat n) by lia.
  set (r := response_of _). destruct (IH n (written ++ [r])) as [IH1 IH2]; [lia|lia|].
  rewrite length_app, Nat.add_1_r in *. split.
  - intros Hw. pose proof (Hw 0%nat ltac:(lia)) as E. rewrite Nat.add_0_r in E. rewrite E.
    rewrite IH1, <- app_assoc; [done|]. intros i Hi. rewrite <- (Hw (S i)) by lia. f_equal. lia.
  - intros [|k] Hk Hw Hr.
    + rewrite Nat.add_0_r in Hr. rewrite Hr. cbn. by rewrite app_nil_r.
    + pose proof (Hw 0%nat ltac:(lia)) as E. rewrite Nat.add_0_r in E. rewrite E.
      rewrite (IH2 k), <- app_assoc; [done|lia| |]; [intros i Hi; rewrite <- (Hw (S i)) by lia|rewrite <- Hr]; f_equal; lia.
Qed.

(** How many responses the quantities ask for: the service sees 32 bits of each. *)
Definition asked (quantities : list Z) : nat := list_sum (map (fun q => Z.to_nat (u32 q)) quantities).

Lemma u32_range z : 0 <= u32 z < 2 ^ 32.
Proof. unfold u32, wrap_u. apply Z.mod_pos_bound. lia. Qed.

Lemma serve_quantity fuel write q written :
  (Z.to_nat (u32 q) < fuel)%nat ->
  ((forall i, (i < Z.to_nat (u32 q))%nat -> write (length written + i)%nat = true) ->
   serve_loop (H := H) fuel write (createStaticEmptyRequestSource q) written =
     Some (true, written ++ repeat the_response (Z.to_nat (u32 q)))) /\
  (forall k, (k < Z.to_nat (u32 q))%nat -> (forall i, (i < k)%nat -> write (length written + i)%nat = true) ->
   write (length written + k)%nat = false ->
   serve_loop (H := H) fuel write (createStaticEmptyRequestSource q) written =
     Some (false, written ++ repeat the_response k)).
Proof.
  intros Hf. pose proof (u32_range q) as Hr.
  assert (createStaticEmptyRequestSource (H := H) q =
          mkStatic (rh_addCopy (LowerCaseString "x-from-remote-request-source") "1" rh_empty)
            (Z.of_nat (Z.to_nat (u32 q))) EmptyString) as ->.
  { unfold createStaticEmptyRequestSource. by rewrite Z2Nat.id by lia. }
  pose proof (serve_loop_writes (Z.to_nat (u32 q)) fuel write
                (rh_addCopy (LowerCaseString "x-from-remote-request-source") "1" rh_empty) written Hf ltac:(lia)) as Hw.
  cbv zeta in Hw. unfold response_of in Hw at 1 2. cbn [request_header] in Hw. by rewrite rhl_iterate_one in Hw.
Qed.

(** The service answers the quantities it reads with that many responses
    in all, each quantity taken modulo 2^32, and returns success; with a write
    that fails the responses before it were written and it returns an error.
    The loops end: a turn per response and one more is enough. *)
Lemma request_stream_answers fuel write quantities written :
  Forall (fun q => (Z.to_nat (u32 q) < fuel)%nat) quantities ->
  ((forall i, (i < asked quantities)%nat -> write (length written + i)%nat = true) ->
   RequestStream (H := H) fuel write quantities written = Some (true, written ++ repeat the_response (asked quantities))) /\
  (forall k, (k < asked quantities)%nat -> (forall i, (i < k)%nat -> write (length written + i)%nat = true) ->
   write (length written + k)%nat = false ->
   RequestStream (H := H) fuel write quantities written = Some (false, written ++ repeat the_response k)).
Proof.
  intros Hf. revert written. induction Hf as [|q quantities Hq Hf IH]; intros written; cbn [RequestStream].
  { cbn. split; [by rewrite app_nil_r|intros k Hk; lia]. }
  destruct (serve_quantity fuel write q written Hq) as [H1' H2'].
  change (asked (q :: quantities)) with (Z.to_nat (u32 q) + asked quantities)%nat. set (n := Z.to_nat (u32 q)) in *.
  destruct (IH (written ++ repeat the_response n)) as [IH1 IH2]. rewrite length_app, repeat_length in IH1, IH2. split.
  - intros Hw. rewrite H1' by (intros; apply Hw; lia).
    rewrite IH1, <- app_assoc, <- repeat_app; [done|]. intros i Hi. rewrite <- Nat.add_assoc. apply Hw. lia.
  - intros k Hk Hw Hr. destruct (decide (k < n)%nat) as [Hlt|Hge]; [by rewrite (H2' k)|].
    rewrite H1' by (intros; apply Hw; lia). rewrite (IH2 (k - n)%nat).
    + rewrite <- app_assoc, <- repeat_app. do 4 f_equal. lia.
    + lia.
    + intros i Hi. rewrite <- Nat.add_assoc. apply Hw. lia.
    + rewrite <- Hr. f_equal. lia.
Qed.

End ServiceProofs.

(** ** The client and the service together *)

Section Remote.
Context {H : Type} `{RequestHeadersLaws H}.

(** The client; how many of its requests the service has read; the responses on
    their way; and, for the statements, what was received and dequeued. *)
Record RemoteSystem : Type := mkRemote {
  rs_client : RequestStreamGrpcClientImpl H;
  rs_read : nat;
  rs_wire : list RequestStreamResponse;
  rs_received : list RequestStreamResponse;
  rs_dequeued : list (RequestImpl H);
}.

(** The quantities sent and not read yet. *)
Definition rs_pending (s : RemoteSystem) : list Z := drop (rs_read s) (sent_quantities (rs_client s)).

(** The service reads a quantity and its loop, which ends, writes the responses; the client
    receives one, is asked for a request, or sees the stream closed. *)
Inductive remote_step : RemoteSystem -> RemoteSystem -> Prop :=
| remote_serve s q qs responses :
    rs_pending s = q :: qs ->
    RequestStream (H := H) (S (Z.to_nat (u32 q))) (fun _ => true) [q] [] = Some (true, responses) ->
    remote_step s (mkRemote (rs_client s) (S (rs_read s)) (rs_wire s ++ responses) (rs_received s) (rs_dequeued s))
| remote_receive s m wire :
    stream_ (rs_client s) = true -> rs_wire s = m :: wire ->
    remote_step s (mkRemote (onReceiveMessage m (rs_client s)) (rs_read s) wire (rs_received s ++ [m]) (rs_dequeued s))
| remote_dequeue s request client :
    maybeDequeue (rs_client s) = (Some request, client) ->
    remote_step s (mkRemote client (rs_read s) (rs_wire s) (rs_received s) (rs_dequeued s ++ [request]))
| remote_close s :
    remote_step s (mkRemote (onRemoteClose (rs_client s)) (rs_read s) (rs_wire s) (rs_received s) (rs_dequeued s)).

Inductive remote_reachable (base : H) (n : Z) : RemoteSystem -> Prop :=
| remote_start ok :
    remote_reachable base n
      (mkRemote (RequestStreamGrpcClientImpl_start ok (RequestStreamGrpcClientImpl_new base n)) 0 [] [] [])
| remote_next s s' : remote_reachable base n s -> remote_step s s' -> remote_reachable base n s'.

(** The responses still to come are counted exactly; the buffer is bounded; an
    open stream is never left with neither messages nor responses to come. *)
Record remote_inv (base : H) (n : Z) (s : RemoteSystem) : Prop := mkRemoteInv {
  ri_base : base_header_ (rs_client s) = base;
  ri_length : header_buffer_length_ (rs_client s) = n;
  ri_read : (rs_read s <= length (sent_quantities (rs_client s)))%nat;
  ri_order : rs_dequeued s ++ (messageToRequest base <$> messages_ (rs_client s)) = messageToRequest base <$> rs_received s;
  ri_flight : stream_ (rs_client s) = true ->
    in_flight_headers_ (rs_client s) = Z.of_nat (asked (rs_pending s) + length (rs_wire s));
  ri_range : 0 <= in_flight_headers_ (rs_client s) <= n;
  ri_bound : Z.of_nat (length (messages_ (rs_client s))) + in_flight_headers_ (rs_client s) <= Z.max n (2 * n - 1);
  ri_busy : stream_ (rs_client s) = true -> 0 < n -> messages_ (rs_client s) = [] -> 0 < in_flight_headers_ (rs_client s);
}.

#[local] Arguments asked : simpl never.

Lemma asked_app l1 l2 : asked (l1 ++ l2) = (asked l1 + asked l2)%nat.
Proof. unfold asked. by rewrite map_app, list_sum_app. Qed.

Lemma u32_small z : 0 <= z < 2 ^ 32 -> u32 z = z.
Proof. intros Hz. unfold u32, wrap_u. by apply Z.mod_small. Qed.

Lemma remote_inv_start base n ok :
  0 <= n < 2 ^ 32 ->
  remote_inv base n
    (mkRemote (RequestStreamGrpcClientImpl_start ok (RequestStreamGrpcClientImpl_new base n)) 0 [] [] []).
Proof.
  intros Hn. unfold RequestStreamGrpcClientImpl_start, trySendRequest. cbn. destruct ok; cbn; split; cbn; try done; try lia.
  intros _. unfold asked, rs_pending. cbn. rewrite u32_small by done. lia.
Qed.

Lemma serve_one q responses :
  RequestStream (H := H) (S (Z.to_nat (u32 q))) (fun _ => true) [q] [] = Some (true, responses) ->
  length responses = Z.to_nat (u32 q).
Proof.
  cbn [RequestStream]. rewrite (proj1 (serve_quantity (S (Z.to_nat (u32 q))) (fun _ => true) q [] ltac:(lia))) by done.
  intros [= <-]. apply repeat_length.
Qed.

Lemma remote_inv_serve base n s q qs responses :
  rs_pending s = q :: qs -> length responses = Z.to_nat (u32 q) -> remote_inv base n s ->
  remote_inv base n (mkRemote (rs_client s) (S (rs_read s)) (rs_wire s ++ responses) (rs_received s) (rs_dequeued s)).
Proof.
  intros Hp Hs [Hb Hl Hr Ho Hf Hrg Hbd Hbusy].
  assert ((rs_read s < length (sent_quantities (rs_client s)))%nat) as Hlt.
  { unfold rs_pending in Hp. pose proof (length_drop (sent_quantities (rs_client s)) (rs_read s)) as E. rewrite Hp in E.
    cbn in E. lia. }
  split; cbn; try done. intros Hopen. rewrite Hf by done.
  destruct (lookup_lt_is_Some_2 (sent_quantities (rs_client s)) (rs_read s) Hlt) as [q' Hq].
  unfold rs_pending in *. cbn [rs_read rs_client]. rewrite (drop_S _ q' _ Hq) in Hp |- *. injection Hp as -> ->.
  change (asked (q :: qs)) with (Z.to_nat (u32 q) + asked qs)%nat. rewrite length_app. lia.
Qed.

Lemma remote_inv_receive base n s m wire :
  0 <= n < 2 ^ 32 -> stream_ (rs_client s) = true -> rs_wire s = m :: wire -> remote_inv base n s ->
  remote_inv base n (mkRemote (onReceiveMessage m (rs_client s)) (rs_read s) wire (rs_received s ++ [m]) (rs_dequeued s)).
Proof.
  intros Hn Hopen Hw [Hb Hl Hr Ho Hf Hrg Hbd Hbusy]. specialize (Hf Hopen). rewrite Hw in Hf. cbn [length] in Hf.
  split; cbn; try done; rewrite ?(u32_small (in_flight_headers_ (rs_client s) - 1)) by lia; try lia.
  - by rewrite !fmap_app, <- Ho, app_assoc.
  - intros _. unfold rs_pending in *. cbn. lia.
  - rewrite length_app. cbn. lia.
  - intros _ _ E. by apply app_nil in E as [_ ?].
Qed.

Lemma remote_inv_dequeue base n s request client :
  0 <= n < 2 ^ 32 -> maybeDequeue (rs_client s) = (Some request, client) -> remote_inv base n s ->
  remote_inv base n (mkRemote client (rs_read s) (rs_wire s) (rs_received s) (rs_dequeued s ++ [request])).
Proof.
  intros Hn Hd [Hb Hl Hr Ho Hf Hrg Hbd Hbusy]. unfold maybeDequeue in Hd.
  destruct (messages_ (rs_client s)) as [|m rest] eqn:Em; [done|]. cbn [length] in Hbd. injection Hd as <- <-. cbn.
  assert (rs_dequeued s ++ messageToRequest (base_header_ (rs_client s)) m :: (messageToRequest base <$> rest) =
          messageToRequest base <$> rs_received s) as Ho' by (rewrite <- Ho, Hb; done).
  rewrite Hl. destruct ((in_flight_headers_ (rs_client s) =? 0) && (Z.of_nat (length rest) <? n)) eqn:Ec.
  2: { split; cbn; try done; [by rewrite <- app_assoc|lia|]. intros Hopen Hpos ->.
       cbn [length] in Ec. apply andb_false_iff in Ec as [Ec%Z.eqb_neq|Ec%Z.ltb_ge]; lia. }
  apply andb_true_iff in Ec as [Ez%Z.eqb_eq El%Z.ltb_lt].
  unfold trySendRequest. cbn. destruct (stream_ (rs_client s)) eqn:Eo; split; cbn; try done; try lia;
    try (by rewrite <- app_assoc).
  - rewrite length_app. lia.
  - intros _. specialize (Hf eq_refl). unfold rs_pending in *. cbn. rewrite drop_app_le by done. rewrite asked_app.
    unfold asked at 2. cbn. rewrite u32_small by done. lia.
Qed.

Lemma remote_inv_reachable base n s : 0 <= n < 2 ^ 32 -> remote_reachable base n s -> remote_inv base n s.
Proof.
  intros Hn Hr. induction Hr as [ok|s s' Hr IH Hs]; [by apply remote_inv_start|].
  destruct Hs as [s q qs responses Hp Hresp|s m wire Ho Hw|s request client Hd|s].
  - by eapply remote_inv_serve; [|apply serve_one|].
  - by eapply remote_inv_receive.
  - by eapply remote_inv_dequeue.
  - destruct IH as [Hb Hl Hrd Hor Hf Hrg Hbd Hbusy]. by split.
Qed.

(** C34. A client served by the service: the requests handed out are the messages
    received, in order, and none is lost; while the stream is open the count of
    headers in flight is exactly what is still to come, so it never wraps; at
    most twice the buffer length is buffered or in flight; and an open stream
    without a message to hand out can always go on: a response is on its way or
    a quantity is waiting to be read. *)
Theorem remote_stream_flow base n s :
  0 <= n < 2 ^ 32 -> remote_reachable base n s ->
  let c := rs_client s in
  rs_dequeued s ++ (messageToRequest base <$> messages_ c) = messageToRequest base <$> rs_received s /\
  (stream_ c = true -> in_flight_headers_ c = Z.of_nat (asked (rs_pending s) + length (rs_wire s))) /\
  Z.of_nat (length (messages_ c)) + in_flight_headers_ c <= Z.max n (2 * n - 1) /\
  (stream_ c = true -> 0 < n -> messages_ c = [] ->
   exists s', remote_step s s' /\ (rs_received s' <> rs_received s \/ (rs_read s < rs_read s')%nat)).
Proof.
  intros Hn Hr. destruct (remote_inv_reachable base n s Hn Hr) as [Hb Hl Hrd Hor Hf Hrg Hbd Hbusy]. cbv zeta.
  split_and!; try done. intros Hopen Hpos Hnil. specialize (Hbusy Hopen Hpos Hnil). rewrite (Hf Hopen) in Hbusy.
  destruct (rs_wire s) as [|m wire] eqn:Ew.
  - destruct (rs_pending s) as [|q qs] eqn:Ep; [unfold asked in Hbusy; cbn in Hbusy; lia|].
    eexists. split; [eapply remote_serve; [exact Ep|]|right; cbn; lia].
    cbn [RequestStream]. by rewrite (proj1 (serve_quantity (S (Z.to_nat (u32 q))) (fun _ => true) q [] ltac:(lia))).
  - eexists. split; [by eapply remote_receive|]. left. cbn. intros E. apply (f_equal length) in E. rewrite length_app in E.
    cbn in E. lia.
Qed.

(** The set-up of a remote source returns: as soon as a turn of the
    dispatcher ends more than a minute after the start, whatever the stream
    does. When it returns earlier the status of the stream is known. *)
Lemma remote_setup_returns run clock start k base n :
  STREAM_SETUP_TIMEOUT < clock k - start ->
  exists timeout s,
    connectToRequestStreamGrpcService (H := H) (S k) true true run clock start base n = Ok (Some (timeout, s)) /\
    (timeout = false -> streamStatusKnown s = true).
Proof.
  intros Hk. unfold connectToRequestStreamGrpcService. set (c := RequestStreamGrpcClientImpl_start _ _). clearbody c.
  assert (forall fuel i s, (i <= k)%nat -> (k < i + fuel)%nat -> exists timeout s',
    setup_loop fuel run clock start i s = Some (timeout, s') /\ (timeout = false -> streamStatusKnown s' = true)) as Hloop.
  { intros fuel. induction fuel as [|fuel IH]; intros i s Hi Hf; [lia|]. cbn [setup_loop].
    destruct (streamStatusKnown (run i s)) eqn:Es; cbn; [eauto|].
    destruct (Z.ltb_spec STREAM_SETUP_TIMEOUT (clock i - start)); cbn; [eauto|].
    assert (i <> k) by (intros ->; lia). apply IH; lia. }
  destruct (Hloop (S k) 0%nat c) as (timeout & s & E & Hs); [lia|lia|]. exists timeout, s. by rewrite E.
Qed.

End Remote.

(** ** Completions requests *)

Section LlmProofs.
Context {H : Type} `{RequestHeadersLaws H}.

Lemma char_at_some n s : (n < String.length s)%nat -> exists c, char_at n s = Some c.
Proof.
  revert n. induction s as [|c s IH]; intros n Hn; cbn in Hn; [lia|]. destruct n as [|n]; [by exists c|].
  apply IH. lia.
Qed.

Lemma prompt_tokens Uniform n k :
  (forall i, (Uniform i < String.length kCharset)%nat) ->
  exists tokens, length tokens = k /\
    Forall (fun t => exists c j, t = String c EmptyString /\ char_at j kCharset = Some c) tokens /\
    prompt_loop Uniform n k = sjoin " " tokens.
Proof.
  intros Hu. induction k as [|k (tokens & Hl & Ht & IH)]; [by exists []|]. cbn [prompt_loop].
  set (i := n - Z.of_nat (S k)). destruct (char_at_some (Uniform i) kCharset (Hu i)) as [c Hc]. rewrite Hc, IH.
  exists (String c EmptyString :: tokens). split; [by cbn; rewrite Hl|]. split; [constructor; eauto|].
  destruct tokens as [|t tokens]; cbn in Hl; subst k.
  - replace (i <? n - 1) with false by lia. done.
  - replace (i <? n - 1) with true by lia. done.
Qed.

(** A completions request is a POST to [/v1/completions] whose content length
    is the number of bytes of its body, and the prompt in the body has exactly
    the configured number of tokens, one character of the set each, with one
    space between them. *)
Lemma llm_request_shape Uniform (s : LlmRequestSourcePlugin H) :
  (forall i, (Uniform i < String.length kCharset)%nat) ->
  let r := LlmRequestSourcePlugin_next Uniform s in
  rh_get Headers_Path (request_header r) = ["/v1/completions"%string] /\
  rh_get Headers_Method (request_header r) = [RequestMethod_Name RequestMethod_POST] /\
  rh_get Headers_ContentType (request_header r) = ["application/json"%string] /\
  rh_get Headers_ContentLength (request_header r) = [print_number (Z.of_nat (String.length (request_body r)))] /\
  exists tokens, length tokens = Z.to_nat (req_token_count_ s) /\
    Forall (fun t => exists c j, t = String c EmptyString /\ char_at j kCharset = Some c) tokens /\
    request_body r = llm_body (model_name_ s) (resp_max_tokens_ s) (sjoin " " tokens).
Proof.
  intros Hu. destruct (prompt_tokens Uniform (req_token_count_ s) (Z.to_nat (req_token_count_ s)) Hu)
    as (tokens & Hl & Ht & Ep).
  unfold LlmRequestSourcePlugin_next. cbv zeta. cbn [request_header request_body].
  rewrite <- rhl_path. split_and!; [header_lookup..|].
  exists tokens. split_and!; [done..|]. unfold GenerateRandomPrompt. by rewrite Ep.
Qed.

End LlmProofs.

(** ** The factory *)

Section FactoryProofs.
Context {H : Type} `{RequestHeadersLaws H} `{UriEnv} `{AbslStrings}.
Context (fileSize : string -> Z) (loadFromFile : string -> option (list RequestOptions)).
Context (load_error unpack_error lookup_error : string).

(** The headers of a source as the factory configured them. *)
Definition configured_header (s : RequestSourcePtr H) : option H :=
  match s with
  | StaticSource s => Some (static_header_ s)
  | RemoteSource _ header _ => Some header
  | OptionsListSource s => Some (ol_header_ s)
  | LlmSource _ => None
  end.

Lemma plugin_header config header s h :
  LoadRequestSourcePlugin (H := H) fileSize loadFromFile load_error unpack_error lookup_error config header = Ok (inr s) ->
  configured_header s = Some h -> h = header.
Proof.
  unfold LoadRequestSourcePlugin. intros Hl Hs.
  repeat match type of Hl with context [if ?b then _ else _] => destruct b; [destruct (typed_config config); cbn in Hl|] end;
    try done; repeat case_match; simplify_eq/=; done.
Qed.

(** The header the factory made, and the body. *)
Lemma factory_inv o cluster s h :
  RequestSourceFactoryImpl_create (H := H) fileSize loadFromFile load_error unpack_error lookup_error o cluster = Ok s ->
  configured_header s = Some h ->
  exists target hb, target_header o rh_empty = Ok target /\
    body_header o (rh_setCopy Headers_Method (RequestMethod_Name (opt_requestMethod o)) target) = Ok hb /\
    h = fold_left setRequestHeader (opt_request_headers o) hb.1 /\
    (forall st, s = StaticSource st -> static_body_ st = hb.2 /\ yields_left_ st = UINT64_MAX).
Proof.
  unfold RequestSourceFactoryImpl_create. intros Hc Hs.
  destruct (target_header o rh_empty) as [target| | |]; cbn [obind] in Hc; try done.
  destruct (body_header o _) as [[hh body]| | |] eqn:Eb; cbn [obind] in Hc; try done.
  exists target, (hh, body). cbn [fst snd]. destruct (negb _).
  { destruct (cluster =? EmptyString)%string; [done|]. injection Hc as <-. cbn in Hs. by injection Hs as <-. }
  destruct (opt_requestSourcePluginConfig o) as [config|].
  2: { injection Hc as <-. cbn in Hs. injection Hs as <-. split_and!; try done. by intros st [= <-]. }
  destruct (LoadRequestSourcePlugin _ _ _ _ _ config _) as [[msg|s']| | |] eqn:El; cbn [obind] in Hc; try done.
  injection Hc as ->. split_and!; try done; [by apply (plugin_header _ _ _ _ El)|]. intros st ->.
  clear Hs. unfold LoadRequestSourcePlugin in El.
  repeat match type of El with context [if ?b then _ else _] => destruct b; [destruct (typed_config config); cbn in El|] end;
    try done; repeat case_match; simplify_eq.
Qed.

(** The headers of the requests of a source that was made for a URI: a header
    given on the command line has exactly the value given last, whatever its
    name; otherwise path and host are those of the URI, the method is the one
    asked for, and without gRPC the content length is the number of bytes of the
    body, or the size asked for when there is no body. With gRPC there is no
    content length and the body of a static source is a frame. A static source
    yields for ever. *)
Lemma factory_headers o cluster uri u s h :
  opt_uri o = Some uri -> UriImpl_new uri "http" = Ok u ->
  RequestSourceFactoryImpl_create (H := H) fileSize loadFromFile load_error unpack_error lookup_error o cluster = Ok s ->
  configured_header s = Some h ->
  let given n rest := value_or (last_value n (opt_request_headers o) None) rest in
  (forall n v, last_value n (opt_request_headers o) None = Some v -> rh_get n h = [v]) /\
  rh_get Headers_Path h = given Headers_Path [path_ u] /\
  rh_get Headers_Host h = given Headers_Host [host_and_port_ u] /\
  rh_get Headers_Method h = given Headers_Method [RequestMethod_Name (opt_requestMethod o)] /\
  rh_get Headers_ContentLength h = given Headers_ContentLength
    (if opt_grpcMode o then []
     else if negb (opt_requestBody o =? EmptyString)%string
          then [print_number (Z.of_nat (String.length (opt_requestBody o)))]
          else if 0 <? opt_requestBodySize o then [print_number (opt_requestBodySize o)] else []) /\
  (forall st, s = StaticSource st -> yields_left_ st = UINT64_MAX /\
     (opt_grpcMode o = false -> static_body_ st = opt_requestBody o) /\
     (opt_grpcMode o = true -> exists framed, grpcFrameMessage (to_bytes (opt_requestBody o)) = Ok framed /\
        static_body_ st = of_bytes framed)).
Proof.
  intros Huri Hu Hc Hs. destruct (factory_inv o cluster s h Hc Hs) as (target & [hh body] & Ht & Hb & -> & Hst).
  cbn [fst snd] in *. cbv zeta. unfold target_header in Ht. rewrite Huri, Hu in Ht. cbn [obind] in Ht. injection Ht as <-.
  assert (forall n, rh_get n (fold_left setRequestHeader (opt_request_headers o) hh) =
    value_or (last_value n (opt_request_headers o) None) (rh_get n hh)) as Hg
    by (intros n; apply fold_puts; intros ? ?; apply replace_puts).
  rewrite !Hg. split; [intros n v Hv; by rewrite Hg, Hv|].
  unfold body_header in Hb. destruct (opt_grpcMode o).
  - destruct (grpcFrameMessage _) as [framed| | |]; cbn [obind] in Hb; try done. injection Hb as <- <-.
    split_and!; [f_equal; header_lookup..|].
    intros st ->. destruct (Hst st eq_refl) as [-> ->]. split_and!; try done. intros _. by exists framed.
  - destruct (negb _); [|destruct (0 <? _)]; injection Hb as <- <-; (split_and!; [f_equal; header_lookup..|]);
      intros st ->; destruct (Hst st eq_refl) as [-> ->]; done.
Qed.

End FactoryProofs.

(** ** Executions

    Header maps as lists of names and values. *)

Section SourceDemo.

Definition pairs_without (n : string) (h : list (string * string)) : list (string * string) :=
  List.filter (fun kv => negb (kv.1 =? n)%string) h.

#[local] Instance pair_headers : RequestHeaders (list (string * string)) := {|
  rh_empty := [];
  rh_get n h := snd <$> List.filter (fun kv => kv.1 =? n)%string h;
  rh_copyFrom to from := to ++ from;
  rh_remove := pairs_without;
  rh_addCopy n v h := h ++ [(n, v)];
  rh_setCopy n v h := pairs_without n h ++ [(n, v)];
  rh_appendCopy n v h :=
    pairs_without n h ++ [(n, sjoin "," ((snd <$> List.filter (fun kv => kv.1 =? n)%string h) ++ [v]))];
  rh_iterate h := h;
  LowerCaseString := lower_case;
  Headers_ContentLength := "content-length";
  Headers_ContentType := "content-type";
  Headers_Host := ":authority";
  Headers_Path := ":path";
  Headers_Method := ":method";
  Headers_Scheme := ":scheme";
  Headers_TE := "te";
  SchemeValues_Http := "http";
  SchemeValues_Https := "https";
  ContentTypeValues_Grpc := "application/grpc";
  TEValues_Trailers := "trailers";
  RequestMethod_Name m := if m =? 3 then "POST" else "GET";
  RequestMethod_POST := 3;
  print_number := dec_string 20;
|}.

Lemma pairs_filter_without n h : List.filter (fun kv => kv.1 =? n)%string (pairs_without n h) = [].
Proof.
  induction h as [|[k v] h IH]; [done|]. cbn. destruct (k =? n)%string eqn:E; cbn; [done|]. by rewrite E.
Qed.

Lemma pairs_filter_other n m h : n <> m ->
  List.filter (fun kv => kv.1 =? n)%string (pairs_without m h) = List.filter (fun kv => kv.1 =? n)%string h.
Proof.
  intros Hn. unfold pairs_without. induction h as [|[k v] h IH]; [done|]. cbn.
  destruct (String.eqb_spec k m) as [->|Hk]; cbn; rewrite IH; [|done]. destruct (String.eqb_spec m n); [congruence|done].
Qed.

#[local] Instance pair_laws : RequestHeadersLaws (list (string * string)).
Proof.
  split; cbn; try done.
  - intros n h. by rewrite pairs_filter_without.
  - intros n m h Hn. by rewrite pairs_filter_other.
  - intros n v h E. rewrite List.filter_app, fmap_app, E. cbn. by rewrite String.eqb_refl.
  - intros n m v h Hn. rewrite List.filter_app, fmap_app. cbn. destruct (String.eqb_spec m n); [congruence|].
    cbn. by rewrite app_nil_r.
  - intros n v h. rewrite List.filter_app, pairs_filter_without. cbn. by rewrite String.eqb_refl.
  - intros n m v h Hn. rewrite List.filter_app, pairs_filter_other by done. cbn.
    destruct (String.eqb_spec m n); [congruence|]. by rewrite app_nil_r.
  - apply (bool_decide_eq_true_1 _). by vm_compute.
Qed.

#[local] Existing Instance absl_documented.
#[local] Existing Instance uri_env_documented.

Definition demo_base : list (string * string) := [(":path", "/"); ("x", "1")]%string.

Definition demo_spec : RequestSpecifier :=
  mkSpecifier (Some "POST"%string) None None (Some 3) (v3_headers [("X", "2"); ("x", "3")]%string).

Lemma demo_message :
  request_header (messageToRequest demo_base (Some demo_spec)) =
    [(":path", "/"); ("x", "3"); ("content-length", "3"); (":method", "POST")]%string.
Proof. by vm_compute. Qed.

Lemma message_overrides_witness :
  rh_get "x" (request_header (messageToRequest demo_base (Some demo_spec))) = ["3"%string].
Proof. rewrite (proj1 (message_overrides demo_base demo_spec "x")). by vm_compute. Defined.

(** A source of two: the third call returns null, the fourth a request again. *)
Lemma static_source_yields_witness :
  let s := mkStatic demo_base 2 "b" in
  (StaticRequestSourceImpl_next (static_after 2 s)).1 = None /\
  (StaticRequestSourceImpl_next (static_after 3 s)).1 = Some (mkRequest demo_base "b").
Proof.
  split.
  - apply (static_source_yields (mkStatic demo_base 2 "b") 2); cbn; [split; lia|lia].
  - apply (static_source_yields (mkStatic demo_base 2 "b") 3); cbn; [split; lia|lia].
Defined.

Definition demo_options : RequestOptions := mkRequestOptions 3 [("A", "b")]%string "{}" 0.

Lemma options_list_replays_witness :
  options_calls (OptionsListRequestSource_get (OptionsListRequestSource_new 1 demo_base [])).2 3 0 =
    Ok (repeat (Some (mkRequest demo_base EmptyString)) 3) /\
  options_calls (OptionsListRequestSource_get (OptionsListRequestSource_new 1 demo_base [demo_options])).2 2 0 =
    Ok [Some (mkRequest [(":path", "/"); ("x", "1"); (":method", "POST"); ("content-length", "2");
                         ("content-type", "application/json"); ("a", "b")]%string "{}"); None].
Proof.
  split.
  - pose proof (options_list_replays (OptionsListRequestSource_new 1 demo_base []) 3 ltac:(done) ltac:(done) ltac:(done)) as Ht.
    exact (proj2 Ht eq_refl).
  - pose proof (options_list_replays (OptionsListRequestSource_new 1 demo_base [demo_options]) 2 ltac:(done) ltac:(done)
                  ltac:(done)) as Ht.
    exact (proj1 (proj1 Ht ltac:(done))).
Defined.

(** A quantity of 2^32 + 1 is answered with one response. *)
Lemma request_stream_answers_witness :
  RequestStream (H := list (string * string)) 2 (fun _ => true) [2 ^ 32 + 1] [] = Some (true, [the_response]).
Proof.
  apply (request_stream_answers (H := list (string * string)) 2 (fun _ => true) [2 ^ 32 + 1] []); [|done].
  constructor; [by vm_compute; lia|constructor].
Defined.

(** The first quantity was read and its two responses are on their way. *)
Definition demo_remote : RemoteSystem :=
  mkRemote (RequestStreamGrpcClientImpl_start true (RequestStreamGrpcClientImpl_new demo_base 2)) 1
    [the_response; the_response] [] [].

Lemma demo_remote_reachable : remote_reachable demo_base 2 demo_remote.
Proof.
  eapply remote_next; [apply (remote_start demo_base 2 true)|].
  by apply (remote_serve (mkRemote (RequestStreamGrpcClientImpl_start true (RequestStreamGrpcClientImpl_new demo_base 2)) 0 [] [] [])
              2 [] [the_response; the_response]).
Qed.

Lemma remote_stream_flow_witness :
  in_flight_headers_ (rs_client demo_remote) = 2 /\ exists s', remote_step demo_remote s'.
Proof.
  destruct (remote_stream_flow demo_base 2 demo_remote ltac:(lia) demo_remote_reachable) as (_ & Hf & _ & Hgo).
  split; [exact (Hf eq_refl)|]. destruct (Hgo eq_refl eq_refl eq_refl) as (s' & Hs & _). by exists s'.
Defined.

Lemma remote_setup_returns_witness :
  exists timeout s, connectToRequestStreamGrpcService (H := list (string * string)) 2 true true (fun _ c => c)
    (fun i => 61000000000 * Z.of_nat i) 0 demo_base 2 = Ok (Some (timeout, s)).
Proof.
  destruct (remote_setup_returns (fun _ c => c) (fun i => 61000000000 * Z.of_nat i) 0 1 demo_base 2) as (t & s & E & _);
    [by vm_compute|]. by exists t, s.
Defined.

Lemma llm_request_shape_witness :
  let r := LlmRequestSourcePlugin_next (fun _ => 10%nat) (mkLlm "m" 3 5 demo_base) in
  rh_get Headers_ContentLength (request_header r) = [print_number (Z.of_nat (String.length (request_body r)))].
Proof.
  apply (llm_request_shape (fun _ => 10%nat) (mkLlm "m" 3 5 demo_base)). intros _. by vm_compute; lia.
Defined.

Definition demo_source_options : SourceOptions :=
  mkSourceOptions (Some "http://h/p"%string) "/" false 1 "body" false 0 [("Host2", "x"); (":Path", "/q")]%string "" None 5.

Definition demo_source_header : list (string * string) :=
  [(":authority", "h:80"); (":scheme", "http"); (":method", "GET"); ("content-length", "4"); ("host2", "x");
   (":path", "/q")]%string.

Lemma factory_headers_witness :
  RequestSourceFactoryImpl_create (fun _ => 0) (fun _ => None) "" "" "" demo_source_options "" =
    Ok (StaticSource (mkStatic demo_source_header UINT64_MAX "body")) /\
  rh_get ":path" demo_source_header = ["/q"%string].
Proof.
  split; [by vm_compute|].
  apply (factory_headers (fun _ => 0) (fun _ => None) "" "" "" demo_source_options "" "http://h/p"
           (mkUri "h:80" "h" "/p" 80 "http") (StaticSource (mkStatic demo_source_header UINT64_MAX "body"))
           demo_source_header); by vm_compute.
Defined.

End SourceDemo.
