(* ===== verification/Worker.v ===== *)
(** * Workers

    Models [engine/source/common/worker_impl.{h,cc}],
    [engine/source/common/phase_impl.{h,cc}], the counters, statistics and
    cancellation of [engine/source/client/client_worker_impl.{h,cc}], and
    [engine/source/client/flush_worker_impl.{h,cc}].

    A worker is its members and the place its thread is at; the owner's calls and
    the steps of the thread interleave. A promise is whether its value is set and
    its future taken; setting or taking twice throws. *)

From S2P Require Import Prelude Text Statistic Uri.

(** ** The thread of a worker *)

(** Where the thread is: before the call named, ended, or joined. *)
Inductive ThreadPc : Type :=
| NotCreated
| AtDispatcherRun
| AtWork
| AtComplete
| AtExitWait
| AtShutdownThread
| AtTlsShutdown
| Exited
| JoinedThread.

#[export] Instance ThreadPc_eq_dec : EqDecision ThreadPc.
Proof. solve_decision. Defined.

(** What the thread has called, in order. *)
Inductive worker_call : Type := DispatcherRan | WorkRan | ShutdownThreadRan | TlsShutdownRan.

#[export] Instance worker_call_eq_dec : EqDecision worker_call.
Proof. solve_decision. Defined.

Record WorkerImpl : Type := mkWorker {
  thread_ : ThreadPc;
  started_ : bool;
  complete_set : bool;
  complete_taken : bool;
  exit_set : bool;
  exit_signaled_ : bool;
  worker_shutdown_ : bool;
  thread_log : list worker_call;
}.

Definition WorkerImpl_new : WorkerImpl := mkWorker NotCreated false false false false false true [].

Definition joinable (w : WorkerImpl) : bool :=
  match thread_ w with NotCreated | JoinedThread => false | _ => true end.

Definition WorkerImpl_initiateShutdown (w : WorkerImpl) : outcome WorkerImpl :=
  if exit_signaled_ w
  then Ok (mkWorker (thread_ w) (started_ w) (complete_set w) (complete_taken w) (exit_set w) true true (thread_log w))
  else if exit_set w then Throw (EnvoyException "promise already satisfied")
  else Ok (mkWorker (thread_ w) (started_ w) (complete_set w) (complete_taken w) true true true (thread_log w)).

(** [thread_.join()]; [None] while the thread has not ended. *)
Definition join_thread (w : WorkerImpl) : option WorkerImpl :=
  if joinable w then
    if decide (thread_ w = Exited)
    then Some (mkWorker JoinedThread (started_ w) (complete_set w) (complete_taken w) (exit_set w) (exit_signaled_ w)
                 (worker_shutdown_ w) (thread_log w))
    else None
  else Some w.

Definition WorkerImpl_start (w : WorkerImpl) : outcome WorkerImpl :=
  if started_ w then Panic "WorkerImpl::start() expected started_ to be false"
  else Ok (mkWorker AtDispatcherRun true (complete_set w) (complete_taken w) (exit_set w) (exit_signaled_ w) false
             (thread_log w)).

Definition at_pc (pc : ThreadPc) (log : list worker_call) (w : WorkerImpl) : WorkerImpl :=
  mkWorker pc (started_ w) (complete_set w) (complete_taken w) (exit_set w) (exit_signaled_ w) (worker_shutdown_ w)
    (thread_log w ++ log).

(** A step of the function the thread runs; [None] when it cannot make one. *)
Definition thread_step (w : WorkerImpl) : option (outcome WorkerImpl) :=
  match thread_ w with
  | AtDispatcherRun => Some (Ok (at_pc AtWork [DispatcherRan] w))
  | AtWork => Some (Ok (at_pc AtComplete [WorkRan] w))
  | AtComplete =>
      if complete_set w then Some (Throw (EnvoyException "promise already satisfied"))
      else Some (Ok (mkWorker AtExitWait (started_ w) true (complete_taken w) (exit_set w) (exit_signaled_ w)
                       (worker_shutdown_ w) (thread_log w)))
  | AtExitWait => if exit_set w then Some (Ok (at_pc AtShutdownThread [] w)) else None
  | AtShutdownThread => Some (Ok (at_pc AtTlsShutdown [ShutdownThreadRan] w))
  | AtTlsShutdown => Some (Ok (at_pc Exited [TlsShutdownRan] w))
  | NotCreated | Exited | JoinedThread => None
  end.

(** [waitForCompletion] takes the future of a promise, which throws the second
    time, and waits: [None] while it does. *)
Definition WorkerImpl_waitForCompletion (w : WorkerImpl) : option (outcome WorkerImpl) :=
  if complete_taken w then Some (Throw (EnvoyException "future already retrieved"))
  else if complete_set w
       then Some (Ok (mkWorker (thread_ w) (started_ w) (complete_set w) true (exit_set w) (exit_signaled_ w)
                        (worker_shutdown_ w) (thread_log w)))
       else None.

(** The destructor: a thread that was not joined ends the process too. *)
Definition WorkerImpl_delete (w : WorkerImpl) : outcome unit :=
  if worker_shutdown_ w then if joinable w then Panic "std::terminate" else Ok tt
  else Panic "Call shutdown() before destruction.".

(** The owner's calls and the thread's steps. *)
Inductive worker_step (w : WorkerImpl) : outcome WorkerImpl -> Prop :=
| worker_thread r : thread_step w = Some r -> worker_step w r
| worker_start : started_ w = false -> worker_step w (WorkerImpl_start w)
| worker_initiateShutdown : worker_step w (WorkerImpl_initiateShutdown w)
| worker_join w' : exit_signaled_ w = true -> join_thread w = Some w' -> worker_step w (Ok w')
| worker_wait r : complete_taken w = false -> WorkerImpl_waitForCompletion w = Some r -> worker_step w r.

Inductive worker_reachable : WorkerImpl -> Prop :=
| worker_init : worker_reachable WorkerImpl_new
| worker_more w w' : worker_reachable w -> worker_step w (Ok w') -> worker_reachable w'.

(** What the thread has called when it is at a place. *)
Definition calls_at (pc : ThreadPc) : list worker_call :=
  match pc with
  | NotCreated | AtDispatcherRun => []
  | AtWork => [DispatcherRan]
  | AtComplete | AtExitWait | AtShutdownThread => [DispatcherRan; WorkRan]
  | AtTlsShutdown => [DispatcherRan; WorkRan; ShutdownThreadRan]
  | Exited | JoinedThread => [DispatcherRan; WorkRan; ShutdownThreadRan; TlsShutdownRan]
  end.

Definition started_at (pc : ThreadPc) : bool := match pc with NotCreated => false | _ => true end.

Definition completed_at (pc : ThreadPc) : bool :=
  match pc with NotCreated | AtDispatcherRun | AtWork | AtComplete => false | _ => true end.

Definition released_at (pc : ThreadPc) : bool :=
  match pc with AtShutdownThread | AtTlsShutdown | Exited | JoinedThread => true | _ => false end.

Record worker_ok (w : WorkerImpl) : Prop := mkWorkerOk {
  wo_log : thread_log w = calls_at (thread_ w);
  wo_complete : complete_set w = completed_at (thread_ w);
  wo_started : started_ w = started_at (thread_ w);
  wo_exit : exit_set w = exit_signaled_ w;
  wo_released : released_at (thread_ w) = true -> exit_signaled_ w = true;
  wo_taken : complete_taken w = true -> complete_set w = true;
}.

Lemma worker_ok_step w r : worker_ok w -> worker_step w r -> exists w', r = Ok w' /\ worker_ok w'.
Proof.
  intros [Hl Hc Hs He Hr Ht] Hstep. destruct w as [pc st cs ct es eg sh log]. cbn in *. subst log cs st es.
  destruct Hstep as [r Hstep|Hst| |w' Hex Hj|r Htk Hw]; cbn in *.
  - unfold thread_step in Hstep. cbn in Hstep.
    destruct pc; [done|..|done|done]; cbn in *; try (destruct eg; [|done]); injection Hstep as <-; eexists; (split; [done|]);
      by split.
  - unfold WorkerImpl_start. cbn. rewrite Hst. eexists. split; [done|]. destruct pc; [|done..]. by split.
  - unfold WorkerImpl_initiateShutdown. cbn. destruct eg; eexists; (split; [done|]); by split.
  - exists w'. split; [done|]. unfold join_thread, joinable in Hj. cbn in Hj. destruct pc; cbn in Hj; simplify_eq/=; by split.
  - unfold WorkerImpl_waitForCompletion in Hw. cbn in Hw. rewrite Htk in Hw.
    destruct (completed_at pc) eqn:Ec; simplify_eq/=. eexists. split; [done|]. by split.
Qed.

Lemma worker_ok_reachable w : worker_reachable w -> worker_ok w.
Proof.
  induction 1 as [|w w' Hw IH Hs]; [by split|]. destruct (worker_ok_step w _ IH Hs) as (w'' & [= <-] & Hok). done.
Qed.

(** How many steps the thread has left. *)
Definition steps_left (pc : ThreadPc) : nat :=
  match pc with
  | AtDispatcherRun => 6 | AtWork => 5 | AtComplete => 4 | AtExitWait => 3 | AtShutdownThread => 2 | AtTlsShutdown => 1
  | _ => 0
  end.

(** Steps of the thread alone. *)
Fixpoint run_thread (n : nat) (w : WorkerImpl) : WorkerImpl :=
  match n with
  | O => w
  | S n => match thread_step w with Some (Ok w') => run_thread n w' | _ => w end
  end.

Lemma thread_exits w :
  worker_ok w -> exit_signaled_ w = true -> thread_ w <> NotCreated -> thread_ w <> JoinedThread ->
  thread_ (run_thread (steps_left (thread_ w)) w) = Exited.
Proof.
  intros [Hl Hc Hs He Hr Ht] Hex Hn Hj. destruct w as [pc st cs ct es eg sh log]. cbn in *. subst cs es eg.
  by destruct pc.
Qed.

(** A worker's thread, however the owner's calls interleave with it: no step
    throws, so neither promise is set twice; [work()] runs at most once and
    [waitForCompletion] returns only after it; [shutdownThread()] runs only
    after the owner asked for it and after [work()]; and once the owner has
    asked, the thread ends by itself, so that the join returns. *)
Lemma worker_lifecycle w :
  worker_reachable w ->
  (forall r, worker_step w r -> exists w', r = Ok w') /\
  thread_log w = calls_at (thread_ w) /\
  (complete_taken w = true -> WorkRan ∈ thread_log w) /\
  (ShutdownThreadRan ∈ thread_log w -> exit_signaled_ w = true) /\
  (exit_signaled_ w = true -> thread_ w <> NotCreated -> thread_ w <> JoinedThread ->
   exists w', join_thread (run_thread (steps_left (thread_ w)) w) = Some w' /\ thread_ w' = JoinedThread).
Proof.
  intros Hw. pose proof (worker_ok_reachable w Hw) as Hok. pose proof Hok as [Hl Hc Hs He Hr Ht]. split_and!.
  - intros r Hstep. destruct (worker_ok_step w r Hok Hstep) as (w' & -> & _). by exists w'.
  - done.
  - intros Htk. specialize (Ht Htk). rewrite Hc in Ht. rewrite Hl. destruct (thread_ w); cbn in *; try done;
      by apply (bool_decide_eq_true_1 _).
  - rewrite Hl. intros Hin%(bool_decide_eq_true_2 _). apply Hr. by destruct (thread_ w).
  - intros Hex Hn Hj. pose proof (thread_exits w Hok Hex Hn Hj) as E. set (w1 := run_thread _ w) in *.
    unfold join_thread, joinable. rewrite E. cbn. eexists. split; [done|]. done.
Qed.

(** ** The flush worker

    [engine/source/client/flush_worker_impl]: a worker whose work is to run its
    dispatcher until it is asked to exit, and to flush the statistics to the
    sinks whenever its timer fires and once more at its end. *)

(** [stat_flush_timer_]: whether the timer is enabled, if there is one.
    [fw_exit_requested]: the dispatcher was asked to exit, which it keeps until its
    loop runs. [fw_flushes] counts the flushes. *)
Record FlushWorkerImpl : Type := mkFlush {
  fw_worker : WorkerImpl;
  fw_exit_requested : bool;
  stat_flush_timer_ : option bool;
  fw_flushes : nat;
}.

Definition FlushWorkerImpl_new : FlushWorkerImpl := mkFlush WorkerImpl_new false None 0.

Definition set_fw_worker (w : WorkerImpl) (f : FlushWorkerImpl) : FlushWorkerImpl :=
  mkFlush w (fw_exit_requested f) (stat_flush_timer_ f) (fw_flushes f).

Definition set_flush_timer (t : option bool) (f : FlushWorkerImpl) : FlushWorkerImpl :=
  mkFlush (fw_worker f) (fw_exit_requested f) t (fw_flushes f).

Definition flushStats (f : FlushWorkerImpl) : FlushWorkerImpl :=
  mkFlush (fw_worker f) (fw_exit_requested f)
    (match stat_flush_timer_ f with Some _ => Some true | None => None end) (S (fw_flushes f)).

Definition FlushWorkerImpl_exitDispatcher (f : FlushWorkerImpl) : FlushWorkerImpl :=
  mkFlush (fw_worker f) true (stat_flush_timer_ f) (fw_flushes f).

(** [work()] up to the run of the dispatcher. *)
Definition FlushWorkerImpl_work (f : FlushWorkerImpl) : FlushWorkerImpl := set_flush_timer (Some true) f.

Definition FlushWorkerImpl_shutdownThread (f : FlushWorkerImpl) : FlushWorkerImpl :=
  flushStats (set_flush_timer None f).

(** The timer fires in the dispatcher's loop. *)
Definition flush_timer_fires (f : FlushWorkerImpl) : option FlushWorkerImpl :=
  match thread_ (fw_worker f), stat_flush_timer_ f with
  | AtWork, Some true => Some (flushStats (set_flush_timer (Some false) f))
  | _, _ => None
  end.

(** A step of its thread, which leaves the dispatcher's loop only when asked to. *)
Definition flush_thread_step (f : FlushWorkerImpl) : option (outcome FlushWorkerImpl) :=
  let go effect := (fun r => let* w := r in Ok (effect (set_fw_worker w f))) <$> thread_step (fw_worker f) in
  match thread_ (fw_worker f) with
  | AtDispatcherRun => go FlushWorkerImpl_work
  | AtWork => if fw_exit_requested f then go id else None
  | AtShutdownThread => go FlushWorkerImpl_shutdownThread
  | _ => go id
  end.

Fixpoint run_flush_thread (n : nat) (f : FlushWorkerImpl) : FlushWorkerImpl :=
  match n with
  | O => f
  | S n => match flush_thread_step f with Some (Ok f') => run_flush_thread n f' | _ => f end
  end.

Definition worked_at (pc : ThreadPc) : bool :=
  match pc with NotCreated | AtDispatcherRun | AtWork => false | _ => true end.

Definition shutdown_ran_at (pc : ThreadPc) : bool :=
  match pc with AtTlsShutdown | Exited | JoinedThread => true | _ => false end.

(** What holds of a flush worker: that of every worker; the timer is there while the
    worker works and gone, with a flush made, once [shutdownThread()] has run. *)
Record flush_ok (f : FlushWorkerImpl) : Prop := mkFlushOk {
  fo_worker : worker_ok (fw_worker f);
  fo_exit : worked_at (thread_ (fw_worker f)) = true -> fw_exit_requested f = true;
  fo_timer : shutdown_ran_at (thread_ (fw_worker f)) = true ->
    stat_flush_timer_ f = None /\ (0 < fw_flushes f)%nat;
}.

Lemma flush_ok_step f r : flush_ok f -> flush_thread_step f = Some r -> exists f', r = Ok f' /\ flush_ok f'.
Proof.
  intros [Hw He Ht] Hs. unfold flush_thread_step in Hs.
  destruct (thread_step (fw_worker f)) as [rw|] eqn:Est; cbn [fmap option_fmap option_map] in Hs;
    [|destruct (thread_ (fw_worker f)); try done; by destruct (fw_exit_requested f)].
  destruct (worker_ok_step _ _ Hw (worker_thread _ _ Est)) as (w & -> & Hok).
  destruct f as [[pc st cs ct es eg sh log] ex tm fl]. unfold thread_step in Est.
  cbn [thread_ fw_worker complete_set exit_set fw_exit_requested] in *.
  destruct pc; try done; cbn in Hs; try (destruct ex; [|done]); injection Hs as <-; eexists; (split; [done|]);
    repeat (case_match; try done); simplify_eq/=; split; cbn in *; try done; try (by auto);
    try (intros _; split; [done|lia]).
Qed.

Lemma flush_thread_exits f :
  flush_ok f -> exit_signaled_ (fw_worker f) = true -> fw_exit_requested f = true ->
  thread_ (fw_worker f) <> NotCreated -> thread_ (fw_worker f) <> JoinedThread ->
  let f' := run_flush_thread (steps_left (thread_ (fw_worker f))) f in
  thread_ (fw_worker f') = Exited /\ flush_ok f' /\ exit_signaled_ (fw_worker f') = true /\
  fw_exit_requested f' = true /\
  worker_shutdown_ (fw_worker f') = worker_shutdown_ (fw_worker f).
Proof.
  intros [[Hl Hc Hs He Hr Ht] Hex Htm] Hsig Hreq Hn Hj.
  destruct f as [[pc st cs ct es eg sh log] ex tm fl]. cbn in *. subst.
  destruct pc; try done; cbn; (split; [done|]); (split; [|done]); split; cbn; try done;
    try (by split); intros _; by first [apply Htm|split; [done|lia]].
Qed.

(** Flushes never stop early and are never lost at the end: while the worker works
    its timer is enabled again by every flush, and when its thread has ended the
    last flush was made with the timer gone. *)
Lemma flush_worker_flushes f :
  flush_ok f ->
  (forall f', flush_timer_fires f = Some f' ->
     flush_ok f' /\ fw_flushes f' = S (fw_flushes f) /\ stat_flush_timer_ f' = Some true) /\
  (thread_ (fw_worker f) = Exited -> stat_flush_timer_ f = None /\ (0 < fw_flushes f)%nat).
Proof.
  intros [Hw He Ht]. split.
  - intros f' Hf. unfold flush_timer_fires in Hf. destruct (thread_ (fw_worker f)) eqn:Epc; try done.
    destruct (stat_flush_timer_ f) as [[]|]; try done. injection Hf as <-. split; [|done].
    split; cbn; rewrite ?Epc; done.
  - intros E. apply Ht. by rewrite E.
Qed.

(** ** What a client worker does on its thread *)

Inductive client_call : Type :=
| SetShouldMeasureLatencies (on : bool)
| InitOnThread
| TryStartRequest
| DispatcherRunUntilExit
| PrepareClient
| SequencerStart
| SequencerWait
| AbandonOutstandingWork
| FinishClient
| SnapshotCounters
| TerminateClient
| DestroyOnThread.

Definition PhaseImpl_run : list client_call := [SequencerStart; SequencerWait].

(** [started]: whether the request of the warm-up could be started. *)
Definition simpleWarmup (started : bool) : list client_call :=
  TryStartRequest :: if started then [DispatcherRunUntilExit] else [].

(** [failed_terminations]: the counter of the sequencer after the phase. *)
Definition ClientWorkerImpl_work (warmup warmup_started measure : bool) (failed_terminations : Z) : list client_call :=
  [SetShouldMeasureLatencies false; InitOnThread] ++
  (if warmup then simpleWarmup warmup_started else []) ++
  [PrepareClient; SetShouldMeasureLatencies measure] ++ PhaseImpl_run ++
  (if 0 <? failed_terminations then [AbandonOutstandingWork] else []) ++
  [FinishClient; SnapshotCounters].

Definition ClientWorkerImpl_shutdownThread : list client_call := [TerminateClient; DestroyOnThread].

(** ** The counters of a client worker *)

Section Counters.
Context `{UriEnv} `{AbslStrings} `{AbslMatch}.




End Counters.

(** What Abseil documents of the functions on names. *)
Class CounterLaws `{UriEnv} `{AbslStrings} `{AbslMatch} : Prop := {
  split_cons c a s : all_chars (fun d => d <> c) a -> StrSplit c (a +:+ String c s) = a :: StrSplit c s;
  join_split s : StrJoin (StrSplit "."%char s) "." = s;
  starts_with_spec s t : StartsWith s t = true <-> exists v, s = t +:+ v;
  strip_prefix_eq t v : StripPrefix (t +:+ v) t = v;
  strip_prefix_ne s t : StartsWith s t = false -> StripPrefix s t = s;
  fmt_number v : 0 <= v < 2 ^ 31 -> atoi_i32 (fmt_u64 v) = Some v;
  fmt_all_digits v : 0 <= v < 2 ^ 31 -> fmt_u64 v <> EmptyString /\ all_chars (fun c => is_digit c = true) (fmt_u64 v);
}.

Section CounterProofs.
Context `{UriEnv} `{AbslStrings} `{AbslMatch} `{!CounterLaws}.
















End CounterProofs.

(** ** Executions *)

Section WorkerDemo.
#[local] Existing Instance absl_documented.
#[local] Existing Instance absl_match_documented.
#[local] Existing Instance uri_env_documented.

Lemma split_at_cons c s : exists w l, split_at c s = w :: l.
Proof.
  induction s as [|d s (w & l & E)]; cbn; [by eexists _, _|]. rewrite E. destruct (Ascii.eqb c d); by eexists _, _.
Qed.

#[local] Instance counter_laws : CounterLaws.
Proof.
  split; cbn [StrSplit StrJoin StartsWith StripPrefix fmt_u64 atoi_i32 absl_match_documented uri_env_documented].
  - intros c a s. destruct (split_at_cons c s) as (w & l & E). induction a as [|d a IH]; intros Ha.
    + rewrite sapp_nil. cbn. by rewrite E, Ascii.eqb_refl.
    + destruct Ha as [Hd Ha]. rewrite sapp_cons. cbn [split_at]. rewrite IH by done.
      destruct (Ascii.eqb_spec c d); [congruence|done].
  - intros s. induction s as [|d s IH]; [done|]. cbn [split_at]. destruct (split_at_cons "." s) as (w & l & E).
    rewrite E in IH |- *. destruct (Ascii.eqb_spec "."%char d) as [<-|].
    + rewrite sjoin_cons, IH by done. done.
    + destruct l as [|w' l]; [cbn in *; by f_equal|]. rewrite sjoin_cons in IH |- * by done. rewrite sapp_cons. by f_equal.
  - intros s t. apply sprefix_spec.
  - intros t v. assert (sprefix t (t +:+ v) = true) as -> by (apply sprefix_spec; by exists v). apply sdrop_app.
  - intros s t ->. done.
  - intros v Hv. apply strict_atoi_digits; [apply dec_string_digits|apply (dec_string_nonempty 19)|apply dec_string_value; lia|lia].
  - intros v Hv. split; [apply (dec_string_nonempty 19)|apply dec_string_digits].
Qed.



(** Started, asked to shut down while at work. *)
Definition demo_worker : WorkerImpl := mkWorker AtWork true false false true true true [DispatcherRan].

Lemma demo_worker_reachable : worker_reachable demo_worker.
Proof.
  eapply worker_more; [eapply worker_more; [eapply worker_more; [apply worker_init|]|]|].
  - apply (worker_start WorkerImpl_new). done.
  - by apply worker_thread.
  - apply worker_initiateShutdown.
Qed.

Lemma worker_lifecycle_witness :
  exists w', join_thread (run_thread 5 demo_worker) = Some w' /\ thread_ w' = JoinedThread.
Proof. apply (worker_lifecycle demo_worker demo_worker_reachable); done. Defined.

End WorkerDemo.
