(* ===== verification/Process.v ===== *)
(** * The process

    Models of [engine/source/client/process_impl.{h,cc}]: how many workers there
    are and when each begins, the set-up of a run under the lock of the workers,
    cancellation, shutdown, snapshots taken while workers run, and the results a
    run reports; and [addResult] of
    [engine/source/client/output_collector_impl.cc].

    The set-up of Envoy's runtime, cluster manager and TLS is an argument that
    says which of them fails. Plug-ins that aggregate output are arguments. The
    run through a tunnel, which forks, is not modelled; whether its subprocess
    can be terminated is an argument of a cancellation. *)

From S2P Require Import Prelude Double Text Statistic Uri Worker.

(** ** How many workers, and when they begin *)

(** [cpus]: the processors the process may run on. *)
Definition determineConcurrency (cpus : Z) (concurrency : string) : outcome Z :=
  if (concurrency =? "auto")%string then Ok cpus
  else match stoi concurrency with
       | Some c => Ok (u32 c)
       | None => Throw (EnvoyException "stoi")
       end.

(** Times are nanoseconds. *)
Definition computeFirstWorkerStart (system_now monotonic_now : Z) (scheduled_start : option Z) (concurrency : Z) : Z :=
  let first_worker_delay := match scheduled_start with
                            | Some s => s - system_now
                            | None => 500000000 + concurrency * 50000000
                            end in
  monotonic_now + first_worker_delay.

(** In doubles; the cast of the microseconds to nanoseconds truncates. *)
Definition computeInterWorkerDelay (concurrency rps : Z) : outcome Z :=
  let inter_worker_delay_usec := ddiv (dmul (ddiv d1 (d_of_Z rps)) (d_of_Z 1000000)) (d_of_Z concurrency) in
  cast_i64 (truncZ (dmul (dmul inter_worker_delay_usec d1) (d_of_Z 1000))).

(** ** Workers of a process *)

(** A client worker: its thread, when it begins, and how many cancellations were
    posted to its dispatcher. *)
Record ClientWorker : Type := mkClientWorker {
  cw_worker : WorkerImpl;
  cw_starting_time : Z;
  cw_cancellations : nat;
}.

Definition requestWorkerCancellation (w : ClientWorker) : ClientWorker :=
  mkClientWorker (cw_worker w) (cw_starting_time w) (S (cw_cancellations w)).

(** The loop of [createWorkers]: [todo] workers more, from [worker_number] on;
    [plugins n]: the output plug-ins of worker [n] could be made. Whether it
    succeeded, and the workers there are then. *)
Fixpoint create_loop (plugins : Z -> bool) (first delay : Z) (worker_number : Z) (todo : nat)
    (workers : list ClientWorker) : bool * list ClientWorker :=
  match todo with
  | O => (true, workers)
  | S todo =>
      if plugins worker_number
      then create_loop plugins first delay (worker_number + 1) todo
             (workers ++ [mkClientWorker WorkerImpl_new (first + delay * worker_number) 0])
      else (false, workers)
  end.

(** What the set-up meets: which parts of Envoy could be made, the plug-ins, and
    the clocks. *)
Record SetupEnv : Type := mkSetupEnv {
  se_stats_sinks : bool;
  se_tag_producer : bool;
  se_plugins : Z -> bool;
  se_envoy : bool;
  se_system_now : Z;
  se_monotonic_now : Z;
  se_scheduled_start : option Z;
  se_rps : Z;
}.

Record ProcessImpl : Type := mkProcess {
  workers_ : list ClientWorker;
  flush_worker_ : option FlushWorkerImpl;
  process_shutdown_ : bool;
  cancelled_ : bool;
  workers_running_ : bool;
}.

Definition ProcessImpl_new : ProcessImpl := mkProcess [] None true false false.

Definition createWorkers (env : SetupEnv) (concurrency : Z) (p : ProcessImpl) : outcome (bool * ProcessImpl) :=
  let first := computeFirstWorkerStart (se_system_now env) (se_monotonic_now env) (se_scheduled_start env) concurrency in
  let* delay := computeInterWorkerDelay concurrency (se_rps env) in
  let '(ok, workers) := create_loop (se_plugins env) first delay 0 (Z.to_nat concurrency - length (workers_ p)) (workers_ p) in
  Ok (ok, mkProcess workers (flush_worker_ p) (process_shutdown_ p) (cancelled_ p) (workers_running_ p)).

Fixpoint start_all (workers : list ClientWorker) : outcome (list ClientWorker) :=
  match workers with
  | [] => Ok []
  | w :: workers =>
      let* t := WorkerImpl_start (cw_worker w) in
      let* rest := start_all workers in
      Ok (mkClientWorker t (cw_starting_time w) (cw_cancellations w) :: rest)
  end.

(** [nigthawk_fn]: the part of a run under the lock. Its result is that of the run
    so far. *)
Definition run_setup (env : SetupEnv) (concurrency : Z) (p : ProcessImpl) : outcome (bool * ProcessImpl) :=
  if cancelled_ p then Ok (true, p)
  else
    let p := mkProcess (workers_ p) (flush_worker_ p) false (cancelled_ p) (workers_running_ p) in
    if se_stats_sinks env && negb (se_tag_producer env) then Ok (false, p)
    else
      let* created := createWorkers env concurrency p in
      let '(ok, p) := created in
      if negb ok then Ok (false, p)
      else if negb (se_envoy env) then Ok (false, p)
      else
        let* flush := if se_stats_sinks env then (let* w := WorkerImpl_start WorkerImpl_new in Ok (Some (set_fw_worker w FlushWorkerImpl_new)))
                      else Ok (flush_worker_ p) in
        let* started := start_all (workers_ p) in
        Ok (true, mkProcess started flush (process_shutdown_ p) (cancelled_ p) true).

(** [terminated]: there is no subprocess, or it could be terminated. *)
Definition ProcessImpl_requestExecutionCancellation (terminated : bool) (p : ProcessImpl) : bool * ProcessImpl :=
  let p := mkProcess (requestWorkerCancellation <$> workers_ p) (flush_worker_ p) (process_shutdown_ p) (cancelled_ p)
             (workers_running_ p) in
  if terminated
  then (true, mkProcess (workers_ p) (flush_worker_ p) (process_shutdown_ p) true (workers_running_ p))
  else (false, p).

(** What [runInternal] does when the workers it waited for are complete: they no
    longer run, and the flush worker is asked to end its work. *)
Definition after_workers (p : ProcessImpl) : ProcessImpl :=
  mkProcess (workers_ p) (FlushWorkerImpl_exitDispatcher <$> flush_worker_ p) (process_shutdown_ p) (cancelled_ p) false.

(** [shutdown()] of a worker: asked to end, its thread runs to its end and is
    joined; [Undefined] when the join does not return. *)
Definition shutdown_worker (w : WorkerImpl) : outcome WorkerImpl :=
  let* w := WorkerImpl_initiateShutdown w in
  match join_thread (run_thread (steps_left (thread_ w)) w) with
  | Some w => Ok w
  | None => Undefined
  end.

Definition shutdown_flush (f : FlushWorkerImpl) : outcome FlushWorkerImpl :=
  let* w := WorkerImpl_initiateShutdown (fw_worker f) in
  let f := run_flush_thread (steps_left (thread_ w)) (set_fw_worker w f) in
  match join_thread (fw_worker f) with
  | Some w => Ok (set_fw_worker w f)
  | None => Undefined
  end.

Fixpoint initiate_all (workers : list ClientWorker) : outcome (list WorkerImpl) :=
  match workers with
  | [] => Ok []
  | w :: workers =>
      let* t := WorkerImpl_initiateShutdown (cw_worker w) in
      let* rest := initiate_all workers in
      Ok (t :: rest)
  end.

Fixpoint shutdown_all (workers : list WorkerImpl) : outcome (list WorkerImpl) :=
  match workers with
  | [] => Ok []
  | w :: workers => let* w := shutdown_worker w in let* rest := shutdown_all workers in Ok (w :: rest)
  end.

(** [workers_.clear()]. *)
Fixpoint delete_all (workers : list WorkerImpl) : outcome unit :=
  match workers with
  | [] => Ok tt
  | w :: workers => let* _ := WorkerImpl_delete w in delete_all workers
  end.

(** The flush worker first, then every worker is asked to end, then each is
    joined, and then they are deleted. *)
Definition ProcessImpl_shutdown (p : ProcessImpl) : outcome ProcessImpl :=
  let* flush := match flush_worker_ p with
                | Some f => let* f := shutdown_flush f in Ok (Some f)
                | None => Ok None
                end in
  let* signalled := initiate_all (workers_ p) in
  let* joined := shutdown_all signalled in
  let* _ := delete_all joined in
  Ok (mkProcess [] flush true (cancelled_ p) (workers_running_ p)).

(** The destructor, and that of the flush worker. *)
Definition ProcessImpl_delete (p : ProcessImpl) : outcome unit :=
  if process_shutdown_ p
  then match flush_worker_ p with Some f => WorkerImpl_delete (fw_worker f) | None => Ok tt end
  else Panic "shutdown not called before destruction.".

(** ** Runs and cancellations in any order *)

(** Where the run is: before its set-up; set up, with the result so far; waiting for
    the flush worker; over; or the process shut down. *)
Inductive process_pc : Type := BeforeSetup | SetUp (result : bool) | WorkersDone | RunReturned | ShutDown.

(** [run()] is not under way. *)
Definition run_returned (pc : process_pc) : bool :=
  match pc with SetUp true | WorkersDone => false | _ => true end.

(** [pr_refused]: the workers were to be created when a cancellation was already
    in, and were not. *)
Record ProcessRun : Type := mkProcessRun { pr_pc : process_pc; pr_process : ProcessImpl; pr_refused : bool }.

Definition set_flush (f : option FlushWorkerImpl) (p : ProcessImpl) : ProcessImpl :=
  mkProcess (workers_ p) f (process_shutdown_ p) (cancelled_ p) (workers_running_ p).

Inductive process_step : ProcessRun -> ProcessRun -> Prop :=
| process_setup env concurrency p refused ok p' :
    run_setup env concurrency p = Ok (ok, p') ->
    process_step (mkProcessRun BeforeSetup p refused) (mkProcessRun (SetUp ok) p' (cancelled_ p))
| process_cancel pc p refused terminated :
    process_step (mkProcessRun pc p refused)
      (mkProcessRun pc (ProcessImpl_requestExecutionCancellation terminated p).2 refused)
| process_thread pc p refused i w t :
    workers_ p !! i = Some w -> thread_step (cw_worker w) = Some (Ok t) ->
    process_step (mkProcessRun pc p refused)
      (mkProcessRun pc (mkProcess (<[i := mkClientWorker t (cw_starting_time w) (cw_cancellations w)]> (workers_ p))
                          (flush_worker_ p) (process_shutdown_ p) (cancelled_ p) (workers_running_ p)) refused)
| process_flush_thread pc p refused f f' :
    flush_worker_ p = Some f -> flush_thread_step f = Some (Ok f') ->
    process_step (mkProcessRun pc p refused) (mkProcessRun pc (set_flush (Some f') p) refused)
| process_flush_timer pc p refused f f' :
    flush_worker_ p = Some f -> flush_timer_fires f = Some f' ->
    process_step (mkProcessRun pc p refused) (mkProcessRun pc (set_flush (Some f') p) refused)
| process_wait p refused i w t :
    workers_ p !! i = Some w -> WorkerImpl_waitForCompletion (cw_worker w) = Some (Ok t) ->
    process_step (mkProcessRun (SetUp true) p refused)
      (mkProcessRun (SetUp true)
         (mkProcess (<[i := mkClientWorker t (cw_starting_time w) (cw_cancellations w)]> (workers_ p))
            (flush_worker_ p) (process_shutdown_ p) (cancelled_ p) (workers_running_ p)) refused)
| process_workers_done p refused :
    Forall (fun w => complete_taken (cw_worker w) = true) (workers_ p) ->
    process_step (mkProcessRun (SetUp true) p refused) (mkProcessRun WorkersDone (after_workers p) refused)
| process_flush_done p refused f w :
    flush_worker_ p = Some f -> WorkerImpl_waitForCompletion (fw_worker f) = Some (Ok w) ->
    process_step (mkProcessRun WorkersDone p refused)
      (mkProcessRun RunReturned (set_flush (Some (set_fw_worker w f)) p) refused)
| process_no_flush p refused :
    flush_worker_ p = None ->
    process_step (mkProcessRun WorkersDone p refused) (mkProcessRun RunReturned p refused)
| process_shut pc p refused p' :
    run_returned pc = true -> ProcessImpl_shutdown p = Ok p' ->
    process_step (mkProcessRun pc p refused) (mkProcessRun ShutDown p' refused).

Inductive process_reachable : ProcessRun -> Prop :=
| process_init : process_reachable (mkProcessRun BeforeSetup ProcessImpl_new false)
| process_more s s' : process_reachable s -> process_step s s' -> process_reachable s'.

(** ** Theorems on cancellation and shutdown *)

Record process_ok (s : ProcessRun) : Prop := mkProcessOk {
  po_workers : Forall (fun w => worker_ok (cw_worker w)) (workers_ (pr_process s));
  po_flush : forall f, flush_worker_ (pr_process s) = Some f ->
    flush_ok f /\ (pr_pc s = SetUp true \/ fw_exit_requested f = true);
  po_before : pr_pc s = BeforeSetup ->
    workers_ (pr_process s) = [] /\ pr_refused s = false /\ flush_worker_ (pr_process s) = None;
  po_refused : pr_refused s = true -> workers_ (pr_process s) = [];
  po_cancelled : cancelled_ (pr_process s) = true ->
    Forall (fun w => (0 < cw_cancellations w)%nat) (workers_ (pr_process s));
}.

Lemma worker_new_ok : worker_ok WorkerImpl_new.
Proof. apply worker_ok_reachable, worker_init. Qed.

Lemma create_loop_fresh plugins first delay n todo workers ok workers' :
  create_loop plugins first delay n todo workers = (ok, workers') ->
  Forall (fun w => cw_worker w = WorkerImpl_new) workers -> Forall (fun w => cw_worker w = WorkerImpl_new) workers'.
Proof.
  revert n workers. induction todo as [|todo IH]; intros n workers; cbn; [by intros [= _ <-]|].
  destruct (plugins n); [|by intros [= _ <-]]. intros Hc Hw. apply (IH _ _ Hc), Forall_app. split; [done|]. by constructor.
Qed.

Lemma start_all_fresh workers :
  Forall (fun w => cw_worker w = WorkerImpl_new) workers ->
  exists started, start_all workers = Ok started /\ length started = length workers /\
    Forall (fun w => worker_ok (cw_worker w)) started.
Proof.
  induction 1 as [|w workers Hw _ (started & E & El & IH)]; [by exists []|]. cbn. rewrite Hw, E. cbn.
  eexists. split; [done|]. cbn. split; [by rewrite El|]. constructor; [|done]. cbn.
  apply worker_ok_reachable. eapply worker_more; [apply worker_init|]. by apply (worker_start WorkerImpl_new).
Qed.

Lemma fresh_ok workers :
  Forall (fun w => cw_worker w = WorkerImpl_new) workers -> Forall (fun w => worker_ok (cw_worker w)) workers.
Proof. intros Hw. apply (Forall_impl _ _ _ Hw). intros w ->. apply worker_new_ok. Qed.

Lemma flush_started_ok :
  exists w, WorkerImpl_start WorkerImpl_new = Ok w /\ flush_ok (set_fw_worker w FlushWorkerImpl_new).
Proof.
  eexists. split; [done|]. split; [|done..]. apply worker_ok_reachable.
  eapply worker_more; [apply worker_init|]. by apply (worker_start WorkerImpl_new).
Qed.

(** The set-up of a process without workers leaves workers in order, all new or
    all started, and a flush worker only when it succeeds. *)
Lemma run_setup_ok env concurrency p ok p' :
  workers_ p = [] -> cancelled_ p = false -> flush_worker_ p = None ->
  run_setup env concurrency p = Ok (ok, p') ->
  Forall (fun w => worker_ok (cw_worker w)) (workers_ p') /\ cancelled_ p' = false /\
  (forall f, flush_worker_ p' = Some f -> flush_ok f /\ ok = true).
Proof.
  intros Hw Hc Hf. unfold run_setup. rewrite Hc. destruct (se_stats_sinks env && _).
  { intros [= <- <-]. cbn. by rewrite Hw, Hf. }
  unfold createWorkers. cbn [workers_ flush_worker_]. rewrite Hw, Hf.
  destruct (computeInterWorkerDelay _ _) as [delay| | |]; cbn [obind]; try done.
  destruct (create_loop _ _ _ _ _ _) as [created workers] eqn:El. cbn [obind].
  pose proof (create_loop_fresh _ _ _ _ _ _ _ _ El (Forall_nil_2 _)) as Hn.
  destruct created; cbn [negb]; [|intros [= <- <-]; cbn; split_and!; by auto using fresh_ok].
  destruct (se_envoy env); cbn [negb]; [|intros [= <- <-]; cbn; split_and!; by auto using fresh_ok].
  destruct (start_all_fresh workers Hn) as (started & Es & _ & Hs). cbn [workers_ flush_worker_ cancelled_ process_shutdown_].
  rewrite Es. destruct flush_started_ok as (w & -> & Hfl).
  destruct (se_stats_sinks env); cbn [obind]; intros [= <- <-]; cbn; split_and!; try done.
  by intros f [= <-].
Qed.

Lemma po_update s i w t :
  process_ok s -> workers_ (pr_process s) !! i = Some w -> worker_ok t ->
  process_ok (mkProcessRun (pr_pc s) (mkProcess (<[i := mkClientWorker t (cw_starting_time w) (cw_cancellations w)]> (workers_ (pr_process s)))
    (flush_worker_ (pr_process s)) (process_shutdown_ (pr_process s)) (cancelled_ (pr_process s)) (workers_running_ (pr_process s)))
    (pr_refused s)).
Proof.
  intros [Hw Hf Hb Hr Hc] Hi Ht. split; cbn; try done.
  - by apply Forall_insert.
  - intros E. destruct (Hb E) as [En _]. by rewrite En in Hi.
  - intros E. by rewrite (Hr E) in Hi.
  - intros E. specialize (Hc E). apply Forall_insert; [done|]. cbn. by apply (Forall_lookup_1 _ _ _ _ Hc Hi).
Qed.

Lemma initiated_ok w :
  worker_ok w -> exists w', WorkerImpl_initiateShutdown w = Ok w' /\ worker_ok w' /\ exit_signaled_ w' = true /\
    worker_shutdown_ w' = true.
Proof.
  intros Hw. destruct (worker_ok_step w _ Hw (worker_initiateShutdown w)) as (w' & E & Hok). exists w'. split_and!; try done;
    unfold WorkerImpl_initiateShutdown in E; repeat case_match; simplify_eq; done.
Qed.

Lemma run_thread_shutdown n w : worker_shutdown_ (run_thread n w) = worker_shutdown_ w.
Proof.
  revert w. induction n as [|n IH]; intros w; cbn; [done|]. destruct (thread_step w) as [[w'| | |]|] eqn:E; try done.
  rewrite IH. unfold thread_step in E. repeat case_match; simplify_eq; done.
Qed.

(** A worker shut down may be deleted, and shut down again. *)
Definition worker_closed (w : WorkerImpl) : Prop :=
  joinable w = false /\ worker_shutdown_ w = true /\ exit_signaled_ w = true.

Lemma closed_delete w : worker_closed w -> WorkerImpl_delete w = Ok tt.
Proof. intros (Hj & Hs & _). unfold WorkerImpl_delete. by rewrite Hs, Hj. Qed.

Lemma closed_again w : worker_closed w -> WorkerImpl_initiateShutdown w = Ok w /\ join_thread w = Some w /\ steps_left (thread_ w) = 0%nat.
Proof.
  intros (Hj & Hs & He). unfold WorkerImpl_initiateShutdown, join_thread. rewrite Hj, He. destruct w as [pc ? ? ? ? ? ? ?].
  cbn in *. subst. split_and!; try done. by destruct pc.
Qed.

Lemma join_exited w :
  thread_ w = Exited -> worker_shutdown_ w = true -> exit_signaled_ w = true -> worker_ok w ->
  exists w', join_thread w = Some w' /\ worker_closed w' /\ worker_ok w' /\ thread_ w' = JoinedThread.
Proof.
  intros Et Hs He Hok. assert (exists w', join_thread w = Some w') as [w' Hj]
    by (unfold join_thread, joinable; rewrite Et; by eexists).
  destruct (worker_ok_step w _ Hok (worker_join w w' He Hj)) as (w'' & [= <-] & Hok'). exists w'.
  split; [done|]. unfold join_thread, joinable in Hj. rewrite Et in Hj. cbn in Hj. injection Hj as <-. by split_and!.
Qed.

Lemma run_thread_exit n w : exit_signaled_ (run_thread n w) = exit_signaled_ w.
Proof.
  revert w. induction n as [|n IH]; intros w; cbn; [done|]. destruct (thread_step w) as [[w'| | |]|] eqn:E; try done.
  rewrite IH. unfold thread_step in E. repeat case_match; simplify_eq; done.
Qed.

Lemma run_thread_ok n w : worker_ok w -> worker_ok (run_thread n w).
Proof.
  revert w. induction n as [|n IH]; intros w Hw; cbn; [done|]. destruct (thread_step w) as [[w'| | |]|] eqn:E; try done.
  apply IH. by destruct (worker_ok_step _ _ Hw (worker_thread _ _ E)) as (w'' & [= <-] & Hok).
Qed.

Lemma shutdown_worker_ok w : worker_ok w -> exists w', shutdown_worker w = Ok w' /\ worker_closed w'.
Proof.
  intros Hw. unfold shutdown_worker. destruct (initiated_ok w Hw) as (w' & -> & Hok & Hex & Hsd). cbn [obind].
  destruct (decide (thread_ w' = NotCreated \/ thread_ w' = JoinedThread)) as [E|E].
  - assert (worker_closed w') as Hcl by (split_and!; [unfold joinable; by destruct E as [-> | ->]|done..]).
    destruct (closed_again w' Hcl) as (_ & Hj & Hl). rewrite Hl. cbn. rewrite Hj. by exists w'.
  - assert (thread_ (run_thread (steps_left (thread_ w')) w') = Exited) as Et
      by (apply thread_exits; [done|done|intros En; apply E; by left|intros En; apply E; by right]).
    destruct (join_exited _ Et) as (w'' & -> & Hcl & _);
      [by rewrite run_thread_shutdown|by rewrite run_thread_exit|by apply run_thread_ok|by exists w''].
Qed.

Lemma shutdown_flush_ok f :
  flush_ok f -> fw_exit_requested f = true ->
  exists f', shutdown_flush f = Ok f' /\ flush_ok f' /\ fw_exit_requested f' = true /\ worker_closed (fw_worker f') /\
    shutdown_flush f' = Ok f'.
Proof.
  intros [Hw He Ht] Hreq. unfold shutdown_flush at 1. destruct (initiated_ok _ Hw) as (w' & Ei & Hok & Hex & Hsd).
  rewrite Ei. cbn [obind].
  assert (thread_ w' = thread_ (fw_worker f)) as Epc
    by (unfold WorkerImpl_initiateShutdown in Ei; repeat case_match; simplify_eq; done).
  assert (flush_ok (set_fw_worker w' f)) as Hfo by (split; cbn; rewrite ?Epc; done).
  assert (forall g, worker_closed (fw_worker g) -> shutdown_flush g = Ok g) as Hagain.
  { intros g Hcl. destruct (closed_again _ Hcl) as (E1 & E2 & E3). unfold shutdown_flush. rewrite E1. cbn [obind].
    rewrite E3. cbn [run_flush_thread set_fw_worker fw_worker]. rewrite E2. by destruct g. }
  destruct (decide (thread_ w' = NotCreated \/ thread_ w' = JoinedThread)) as [E|E].
  - assert (worker_closed w') as Hcl by (split_and!; [unfold joinable; by destruct E as [-> | ->]|done..]).
    destruct (closed_again w' Hcl) as (_ & Hj & Hl). rewrite Hl. cbn [run_flush_thread set_fw_worker fw_worker]. rewrite Hj.
    eexists. split; [done|]. split_and!; try done. by apply Hagain.
  - destruct (flush_thread_exits (set_fw_worker w' f)) as (Et & Hfo' & Hex' & Hreq' & Hsd'); try done;
      [intros En; apply E; by left|intros En; apply E; by right|].
    cbn [fw_worker set_fw_worker] in Et, Hfo', Hex', Hreq', Hsd'. set (g := run_flush_thread _ _) in *. clearbody g.
    rewrite Hsd in Hsd'. destruct Hfo' as [Hgw Hge Hgt].
    destruct (join_exited _ Et Hsd' Hex' Hgw) as (w'' & -> & Hcl & Hok'' & Ej). eexists. split; [done|].
    split_and!; try done; [|by apply Hagain]. split; cbn; [done|done|]. intros _. apply Hgt. by rewrite Et.
Qed.

Lemma initiate_all_ok workers :
  Forall (fun w => worker_ok (cw_worker w)) workers ->
  exists ts, initiate_all workers = Ok ts /\ Forall worker_ok ts.
Proof.
  induction 1 as [|w workers Hw _ (ts & E & Hts)]; [by exists []|]. cbn. destruct (initiated_ok _ Hw) as (t & -> & Ht & _).
  rewrite E. cbn. exists (t :: ts). split; [done|]. by constructor.
Qed.

Lemma shutdown_all_ok ts : Forall worker_ok ts -> exists joined, shutdown_all ts = Ok joined /\ Forall worker_closed joined.
Proof.
  induction 1 as [|t ts Ht _ (joined & E & Hj)]; [by exists []|]. cbn. destruct (shutdown_worker_ok t Ht) as (t' & -> & Hcl).
  cbn. rewrite E. cbn. eexists. split; [done|]. by constructor.
Qed.

Lemma delete_all_ok ts : Forall worker_closed ts -> delete_all ts = Ok tt.
Proof. induction 1 as [|t ts Ht _ IH]; [done|]. cbn. by rewrite (closed_delete t Ht). Qed.

(** The shutdown of a process whose workers are in order and whose flush worker, if
    there is one, was asked to end its work. *)
Lemma shutdown_ok p :
  Forall (fun w => worker_ok (cw_worker w)) (workers_ p) ->
  (forall f, flush_worker_ p = Some f -> flush_ok f /\ fw_exit_requested f = true) ->
  exists p', ProcessImpl_shutdown p = Ok p' /\ workers_ p' = [] /\ cancelled_ p' = cancelled_ p /\
    process_shutdown_ p' = true /\ ProcessImpl_shutdown p' = Ok p' /\ ProcessImpl_delete p' = Ok tt /\
    (forall f, flush_worker_ p' = Some f -> flush_ok f /\ fw_exit_requested f = true /\ joinable (fw_worker f) = false).
Proof.
  intros Hw Hf. destruct (initiate_all_ok _ Hw) as (ts & Ei & Hts). destruct (shutdown_all_ok ts Hts) as (js & Ej & Hjs).
  unfold ProcessImpl_shutdown at 1. destruct (flush_worker_ p) as [f|] eqn:Efl.
  - destruct (Hf f eq_refl) as [Hfo Hreq]. destruct (shutdown_flush_ok f Hfo Hreq) as (f' & -> & Hfo' & Hreq' & Hcl & Hag).
    cbn [obind]. rewrite Ei. cbn [obind]. rewrite Ej. cbn [obind]. rewrite (delete_all_ok js Hjs). cbn [obind].
    eexists. split; [done|]. unfold ProcessImpl_shutdown, ProcessImpl_delete.
    cbn [workers_ cancelled_ process_shutdown_ flush_worker_]. rewrite Hag, (closed_delete _ Hcl). split_and!; try done.
    intros g [= <-]. destruct Hcl as (Hj & _). done.
  - cbn [obind]. rewrite Ei. cbn [obind]. rewrite Ej. cbn [obind]. rewrite (delete_all_ok js Hjs). cbn [obind].
    eexists. done.
Qed.

Lemma po_set_flush s f f' :
  process_ok s -> flush_worker_ (pr_process s) = Some f -> flush_ok f' -> fw_exit_requested f' = fw_exit_requested f ->
  process_ok (mkProcessRun (pr_pc s) (set_flush (Some f') (pr_process s)) (pr_refused s)).
Proof.
  intros [Hw Hf Hb Hr Hc] Ef Hf' He. destruct (Hf f Ef) as [_ Hx]. split; cbn; try done.
  - intros g [= <-]. by rewrite He.
  - intros E. destruct (Hb E) as (_ & _ & En). by rewrite En in Ef.
Qed.

Lemma process_ok_cancel pc p refused terminated :
  process_ok (mkProcessRun pc p refused) ->
  process_ok (mkProcessRun pc (ProcessImpl_requestExecutionCancellation terminated p).2 refused).
Proof.
  intros [Hw Hf Hb Hr Hc]. cbn in *.
  assert (workers_ (ProcessImpl_requestExecutionCancellation terminated p).2 = requestWorkerCancellation <$> workers_ p) as Ew
    by (unfold ProcessImpl_requestExecutionCancellation; by destruct terminated).
  assert (flush_worker_ (ProcessImpl_requestExecutionCancellation terminated p).2 = flush_worker_ p) as Ef
    by (unfold ProcessImpl_requestExecutionCancellation; by destruct terminated).
  split; cbn; rewrite ?Ew, ?Ef; try done.
  - apply Forall_fmap. by apply (Forall_impl _ _ _ Hw).
  - intros E. by destruct (Hb E) as [-> ?].
  - intros E. by rewrite (Hr E).
  - intros _. apply Forall_fmap. apply Forall_true. intros w. cbn. lia.
Qed.

Lemma flush_step_exit f f' : flush_thread_step f = Some (Ok f') -> fw_exit_requested f' = fw_exit_requested f.
Proof.
  unfold flush_thread_step. destruct (thread_step (fw_worker f)) as [[w| | |]|]; cbn;
    destruct (thread_ (fw_worker f)); try done; try (destruct (fw_exit_requested f) eqn:?; try done);
    by intros [= <-].
Qed.

Lemma process_ok_step s s' : process_ok s -> process_step s s' -> process_ok s'.
Proof.
  intros Hok Hs.
  destruct Hs as [env conc p refused ok p' Hset|pc p refused term|pc p refused i w t Hi Ht|pc p refused f f' Ef Hst
                 |pc p refused f f' Ef Hft|p refused i w t Hi Ht|p refused Hall|p refused f w Ef Hwt|p refused Ef
                 |pc p refused p' Hret Hsh].
  - destruct Hok as [Hw Hf Hb Hr Hc]. destruct (Hb eq_refl) as (En & Erf & Efl). cbn in *. destruct (cancelled_ p) eqn:Ec.
    + unfold run_setup in Hset. rewrite Ec in Hset. injection Hset as <- <-. split; cbn; rewrite ?En, ?Efl; done.
    + destruct (run_setup_ok env conc p ok p' En Ec Efl Hset) as (Hw' & Hc' & Hf'). split; cbn; rewrite ?Hc'; try done.
      intros f E. destruct (Hf' f E) as [Hfo ->]. auto.
  - by apply process_ok_cancel.
  - apply (po_update (mkProcessRun pc p refused)); [done|done|]. destruct Hok as [Hw _ _ _ _].
    pose proof (Forall_lookup_1 _ _ _ _ Hw Hi) as Hwi. by destruct (worker_ok_step _ _ Hwi (worker_thread _ _ Ht)) as (t' & [= <-] & Hok).
  - apply (po_set_flush (mkProcessRun pc p refused) f f' Hok Ef); [|by apply flush_step_exit].
    destruct (po_flush _ Hok f Ef) as [Hfo _]. by destruct (flush_ok_step f _ Hfo Hst) as (g & [= <-] & Hg).
  - destruct (po_flush _ Hok f Ef) as [Hfo _]. destruct (flush_worker_flushes f Hfo) as [Hfire _].
    apply (po_set_flush (mkProcessRun pc p refused) f f' Hok Ef); [by apply Hfire|].
    unfold flush_timer_fires in Hft. repeat case_match; simplify_eq; done.
  - apply (po_update (mkProcessRun (SetUp true) p refused)); [done|done|]. destruct Hok as [Hw _ _ _ _].
    pose proof (Forall_lookup_1 _ _ _ _ Hw Hi) as Hwi.
    assert (complete_taken (cw_worker w) = false) as Htk
      by (unfold WorkerImpl_waitForCompletion in Ht; by destruct (complete_taken (cw_worker w))).
    by destruct (worker_ok_step _ _ Hwi (worker_wait _ _ Htk Ht)) as (t' & [= <-] & Hok).
  - destruct Hok as [Hw Hf Hb Hr Hc]. split; cbn in *; try done. intros f.
    destruct (flush_worker_ p) as [g|]; [|done]. intros [= <-]. destruct (Hf g eq_refl) as [[H1 H2 H3] _].
    split; [|by right]. by split.
  - destruct Hok as [Hw Hf Hb Hr Hc]. destruct (Hf f Ef) as [[H1 H2 H3] [|Hx]]; [done|]. split; cbn in *; try done.
    intros g [= <-]. split; [|by right].
    assert (complete_taken (fw_worker f) = false) as Htk
      by (unfold WorkerImpl_waitForCompletion in Hwt; by destruct (complete_taken (fw_worker f))).
    destruct (worker_ok_step _ _ H1 (worker_wait _ _ Htk Hwt)) as (t' & [= <-] & Hok).
    assert (thread_ w = thread_ (fw_worker f)) as Epc
      by (unfold WorkerImpl_waitForCompletion in Hwt; repeat case_match; simplify_eq; done).
    split; cbn; rewrite ?Epc; done.
  - destruct Hok as [Hw Hf Hb Hr Hc]. split; cbn in *; try done. by rewrite Ef.
  - destruct Hok as [Hw Hf Hb Hr Hc]. cbn in *.
    destruct (shutdown_ok p Hw) as (p'' & E & E1 & E2 & _ & _ & _ & Hfl).
    { intros f Ef. destruct (Hf f Ef) as [Hfo [->|Hx]]; done. }
    rewrite E in Hsh. injection Hsh as <-. split; cbn; rewrite ?E1; try done.
    intros f Ef. destruct (Hfl f Ef) as (? & ? & _). auto.
Qed.

Lemma process_ok_reachable s : process_reachable s -> process_ok s.
Proof. induction 1 as [|s s' Hs IH Hst]; [by split|]. by apply (process_ok_step s). Qed.

(** C26. A cancellation is kept, however it races with the set-up of the run: once
    one has succeeded, every worker there is has it posted to its dispatcher;
    when it came before the workers were made none is made then or later. *)
Theorem process_cancellation_kept s :
  process_reachable s ->
  (cancelled_ (pr_process s) = true -> Forall (fun w => (0 < cw_cancellations w)%nat) (workers_ (pr_process s))) /\
  (pr_refused s = true -> workers_ (pr_process s) = []) /\
  (pr_pc s = BeforeSetup -> cancelled_ (pr_process s) = true -> workers_ (pr_process s) = [] /\
   forall env concurrency, run_setup env concurrency (pr_process s) = Ok (true, pr_process s)).
Proof.
  intros Hs. destruct (process_ok_reachable s Hs) as [Hw Hf Hb Hr Hc]. split_and!; try done.
  intros Hpc Hcan. split; [apply (Hb Hpc)|]. intros env concurrency. unfold run_setup. by rewrite Hcan.
Qed.

(** Whenever the run is not under way - it never began, its set-up failed half
    way, it was cancelled, or it is over - the process can be shut down: no
    promise is set twice, every thread that was started, the flush worker's too,
    ends and is joined, and no worker is deleted while its thread runs.
    Afterwards the process may be deleted; shutting it down twice is harmless. *)
Lemma reachable_shutdown s :
  process_reachable s -> run_returned (pr_pc s) = true ->
  exists p, ProcessImpl_shutdown (pr_process s) = Ok p /\ workers_ p = [] /\
    (forall f, flush_worker_ p = Some f -> joinable (fw_worker f) = false) /\
    ProcessImpl_delete p = Ok tt /\ ProcessImpl_shutdown p = Ok p.
Proof.
  intros Hs Hret. destruct (process_ok_reachable s Hs) as [Hw Hf _ _ _].
  destruct (shutdown_ok (pr_process s) Hw) as (p & E & E1 & _ & _ & Eag & Ed & Hfl).
  { intros f Ef. destruct (Hf f Ef) as [Hfo [E|Hx]]; [|done]. by rewrite E in Hret. }
  exists p. split_and!; try done. intros f Ef. by apply Hfl.
Qed.

(** ** Snapshots while the workers run *)

Section Snapshots.
Context {A : Type}.

(** What one snapshot shares with the jobs it posts. *)
Record PendingSnapshot : Type := mkPending {
  ps_copies : list (list A);
  ps_outstanding : Z;
  ps_abandoned : bool;
}.

(** The job posted to a worker: not run, past the question whether it is still
    wanted, or over. *)
Inductive snapshot_job : Type := JobQueued | JobCopying | JobOver.

(** [sn_pending] is [None] once the snapshot has returned, which is when the weak
    references of the jobs expire; [sn_answers] are the answers stored. *)
Record SnapshotState : Type := mkSnapshot {
  sn_pending : option PendingSnapshot;
  sn_jobs : list snapshot_job;
  sn_taken : option (list (list A));
  sn_answers : list (option (list A));
}.

(** [workers] jobs are posted under the lock. *)
Definition snapshot_post (workers : nat) : SnapshotState :=
  mkSnapshot (Some (mkPending (repeat [] workers) (Z.of_nat workers) false)) (repeat JobQueued workers) None
    (repeat None workers).

Definition still_wanted (s : SnapshotState) : bool :=
  match sn_pending s with None => false | Some p => negb (ps_abandoned p) end.

(** The job asks whether it is wanted before it copies. *)
Definition job_begin (i : nat) (s : SnapshotState) : SnapshotState :=
  mkSnapshot (sn_pending s) (<[i := if still_wanted s then JobCopying else JobOver]> (sn_jobs s)) (sn_taken s)
    (sn_answers s).

(** The callback with the copies. *)
Definition job_answer (i : nat) (copies : list A) (s : SnapshotState) : SnapshotState :=
  let jobs := <[i := JobOver]> (sn_jobs s) in
  match sn_pending s with
  | None => mkSnapshot None jobs (sn_taken s) (sn_answers s)
  | Some p =>
      if ps_abandoned p then mkSnapshot (Some p) jobs (sn_taken s) (sn_answers s)
      else mkSnapshot (Some (mkPending (<[i := copies]> (ps_copies p)) (u64 (ps_outstanding p - 1)) (ps_abandoned p)))
             jobs (sn_taken s) (<[i := Some copies]> (sn_answers s))
  end.

(** The wait ends with every answer or the deadline. *)
Definition wait_over (now deadline : Z) (p : PendingSnapshot) : bool :=
  negb (0 <? ps_outstanding p) || (deadline <=? now).

Definition snapshot_take (p : PendingSnapshot) (s : SnapshotState) : SnapshotState :=
  mkSnapshot (Some (mkPending [] (ps_outstanding p) true)) (sn_jobs s) (Some (ps_copies p)) (sn_answers s).

Inductive snapshot_step : SnapshotState -> SnapshotState -> Prop :=
| snapshot_begin s i : sn_jobs s !! i = Some JobQueued -> snapshot_step s (job_begin i s)
| snapshot_answer s i copies : sn_jobs s !! i = Some JobCopying -> snapshot_step s (job_answer i copies s)
| snapshot_taken s p now deadline :
    sn_pending s = Some p -> sn_taken s = None -> wait_over now deadline p = true -> snapshot_step s (snapshot_take p s)
| snapshot_returned s copies :
    sn_taken s = Some copies -> snapshot_step s (mkSnapshot None (sn_jobs s) (sn_taken s) (sn_answers s)).

Inductive snapshot_reachable (workers : nat) : SnapshotState -> Prop :=
| snapshot_posted : snapshot_reachable workers (snapshot_post workers)
| snapshot_more s s' : snapshot_reachable workers s -> snapshot_step s s' -> snapshot_reachable workers s'.

(** How many workers have not answered. *)
Definition unanswered (l : list (option (list A))) : nat :=
  length (List.filter (fun a => match a with None => true | Some _ => false end) l).

#[local] Arguments unanswered : simpl never.

Record snapshot_ok (workers : nat) (s : SnapshotState) : Prop := mkSnapshotOk {
  so_jobs : length (sn_jobs s) = workers;
  so_answers : length (sn_answers s) = workers;
  so_once : forall i c, sn_answers s !! i = Some (Some c) -> sn_jobs s !! i = Some JobOver;
  so_waiting : sn_taken s = None -> exists p, sn_pending s = Some p /\ ps_abandoned p = false /\
    ps_copies p = default [] <$> sn_answers s /\ ps_outstanding p = Z.of_nat (unanswered (sn_answers s));
  so_taken : forall copies, sn_taken s = Some copies ->
    copies = default [] <$> sn_answers s /\ (forall p, sn_pending s = Some p -> ps_abandoned p = true);
}.

Lemma unanswered_insert l i c :
  l !! i = Some None -> Z.of_nat (unanswered (<[i := Some c]> l)) = Z.of_nat (unanswered l) - 1.
Proof.
  unfold unanswered. revert i. induction l as [|a l IH]; intros i Hi; [done|]. destruct i as [|i].
  - injection Hi as ->. cbn. lia.
  - specialize (IH i Hi). change (<[S i := Some c]> (a :: l)) with (a :: <[i := Some c]> l). cbn [List.filter].
    destruct a; cbn [length]; lia.
Qed.

Lemma unanswered_le l : (unanswered l <= length l)%nat.
Proof. unfold unanswered. apply filter_length_le. Qed.

Lemma unanswered_repeat n : unanswered (repeat None n) = n.
Proof. induction n as [|n IH]; [done|]. unfold unanswered in *. cbn. by rewrite IH. Qed.

Lemma so_over workers s i j c : snapshot_ok workers s -> sn_jobs s !! i = Some j -> j <> JobOver ->
  sn_answers s !! i <> Some (Some c).
Proof. intros [_ _ Ho _ _] Hi Hj Ha. rewrite (Ho i c Ha) in Hi. congruence. Qed.

Lemma snapshot_ok_answer workers s i copies :
  Z.of_nat workers < 2 ^ 64 -> snapshot_ok workers s -> sn_jobs s !! i = Some JobCopying ->
  snapshot_ok workers (job_answer i copies s).
Proof.
  intros Hb Hok Hi. pose proof Hok as [Hj Ha Ho Hw Ht]. unfold job_answer.
  assert (forall k c, sn_answers s !! k = Some (Some c) -> <[i := JobOver]> (sn_jobs s) !! k = Some JobOver) as Hover.
  { intros k c Hk. destruct (decide (i = k)) as [->|Hne]; [|rewrite list_lookup_insert_ne by done; by apply (Ho k c)].
    apply list_lookup_insert_eq. by apply lookup_lt_Some in Hi. }
  destruct (sn_pending s) as [p|] eqn:Ep; [destruct (ps_abandoned p) eqn:Eab|].
  - split; cbn; rewrite ?length_insert; try done.
  - assert (sn_taken s = None) as Et.
    { destruct (sn_taken s) as [c|]; [|done]. destruct (Ht c eq_refl) as [_ Hp]. specialize (Hp p eq_refl). congruence. }
    destruct (Hw Et) as (p' & [= <-] & _ & Hc & Hout).
    assert (sn_answers s !! i = Some None) as Hnone.
    { destruct (lookup_lt_is_Some_2 (sn_answers s) i) as [a Hai]; [rewrite Ha, <- Hj; by eapply lookup_lt_Some|].
      destruct a as [c|]; [|done]. by destruct (so_over workers s i _ c Hok Hi). }
    pose proof (unanswered_insert _ i copies Hnone) as Hun. pose proof (unanswered_le (sn_answers s)) as Hle.
    split; cbn; rewrite ?length_insert, ?Et; try done.
    + intros k c. destruct (decide (i = k)) as [->|Hne].
      * intros _. apply list_lookup_insert_eq. by apply lookup_lt_Some in Hi.
      * rewrite list_lookup_insert_ne by done. apply Hover.
    + intros _. eexists. split_and!; [done|done| |]; cbn.
      * by rewrite list_fmap_insert, Hc.
      * rewrite u64_small by (unfold in_u64; lia). lia.
  - split; cbn; rewrite ?length_insert; try done.
Qed.

Lemma snapshot_ok_reachable workers s :
  Z.of_nat workers < 2 ^ 64 -> snapshot_reachable workers s -> snapshot_ok workers s.
Proof.
  intros Hb. induction 1 as [|s s' Hs IH Hst].
  { split; cbn; rewrite ?repeat_length; try done.
    - intros i c Hi. apply list_elem_of_lookup_2, list_elem_of_In, repeat_spec in Hi. done.
    - intros _. eexists. split_and!; [done|done| |]; cbn; [|by rewrite unanswered_repeat].
      clear. induction workers as [|n IH]; cbn; [done|]. by rewrite IH. }
  destruct Hst as [s i Hi|s i copies Hi|s p now deadline Hp Ht Hover|s copies Ht].
  - pose proof IH as [Hj Ha Ho Hw Htk]. split; cbn; rewrite ?length_insert; try done. intros k c Hk.
    destruct (decide (i = k)) as [->|Hne]; [by destruct (so_over workers s k _ c IH Hi)|].
    rewrite list_lookup_insert_ne by done. by apply (Ho k c).
  - by apply snapshot_ok_answer.
  - destruct IH as [Hj Ha Ho Hw Htk]. destruct (Hw Ht) as (p' & E & _ & Hc & _). rewrite Hp in E. injection E as <-.
    split; cbn; try done. intros c [= <-]. split; [done|]. by intros p' [= <-].
  - destruct IH as [Hj Ha Ho Hw Htk]. destruct (Htk copies Ht) as [Hc _]. split; cbn; try done.
    + intros E. congruence.
    + intros c E. rewrite Ht in E. injection E as <-. done.
Qed.

(** C28. A snapshot, however its jobs interleave with its wait: while it waits the
    number outstanding is exactly the number of workers that have not answered,
    so it never wraps and reaches zero when all have; a worker answers once at
    most; what is taken is, worker by worker, its answer or nothing; and an
    answer after that is dropped, whether or not the snapshot has returned. *)
Theorem snapshot_exact workers s :
  Z.of_nat workers < 2 ^ 64 -> snapshot_reachable workers s ->
  (sn_taken s = None -> exists p, sn_pending s = Some p /\
     ps_outstanding p = Z.of_nat (unanswered (sn_answers s)) /\ length (ps_copies p) = workers) /\
  (forall copies, sn_taken s = Some copies -> copies = default [] <$> sn_answers s /\
     forall i c, sn_answers (job_answer i c s) = sn_answers s /\ sn_taken (job_answer i c s) = sn_taken s) /\
  (forall i c, sn_answers s !! i = Some (Some c) -> sn_jobs s !! i = Some JobOver).
Proof.
  intros Hb Hs. destruct (snapshot_ok_reachable workers s Hb Hs) as [Hj Ha Ho Hw Ht]. split_and!; [| |done].
  - intros E. destruct (Hw E) as (p & Hp & _ & Hc & Hout). exists p. split_and!; try done. by rewrite Hc, length_fmap.
  - intros copies E. destruct (Ht copies E) as [Hc Hab]. split; [done|]. intros i c. unfold job_answer.
    destruct (sn_pending s) as [p|]; [|done]. by rewrite (Hab p eq_refl).
Qed.

End Snapshots.

(** ** The results of a run *)

Section Results.
Context {A : Type} `{Statistic A} `{UriEnv}.

(** [toProto], which each type of statistic has its own version of, and
    [absl::EndsWith]. *)
Variable toProto : SerializationDomain -> A -> outcome StatisticProto.
Variable EndsWith : string -> string -> bool.

(** What a plug-in reports. *)
Inductive output_value : Type := TypedOutput (any : string) | OutputError (message : string).

Record UserDefinedOutput : Type := mkUserOutput { plugin_name : string; user_output : output_value }.

Definition collect_one (m : gmap string (list UserDefinedOutput)) (o : UserDefinedOutput) :
    gmap string (list UserDefinedOutput) :=
  match m !! plugin_name o with
  | None => <[plugin_name o := [o]]> m
  | Some l => <[plugin_name o := l ++ [o]]> m
  end.

Definition collectUserDefinedOutputs (m : gmap string (list UserDefinedOutput)) (l : list UserDefinedOutput) :
    gmap string (list UserDefinedOutput) :=
  fold_left collect_one l m.

(** [aggregate]: what the factory of a plug-in makes of the outputs of its
    workers: an error or a message. *)
Definition compileGlobalUserDefinedPluginOutputs (aggregate : string -> list UserDefinedOutput -> string + string)
    (by_plugin : gmap string (list UserDefinedOutput)) (factories : list string) : list UserDefinedOutput :=
  (fun name => mkUserOutput name
     match by_plugin !! name with
     | Some l => match aggregate name l with inr any => TypedOutput any | inl error => OutputError error end
     | None => OutputError "No per worker outputs found for a factory when performing aggregation"
     end) <$> factories.

(** What a run reads of a worker that is complete. *)
Record WorkerReport : Type := mkReport {
  wr_statistics : list (string * A);
  wr_counters : gmap string Z;
  wr_execution_duration : Z;
  wr_first_acquisition : option Z;
  wr_outputs : list UserDefinedOutput;
}.

(** A result of the output. Its times are nanoseconds; its counters are listed in
    the order of their names. *)
Record RunResult : Type := mkResult {
  result_name : string;
  result_statistics : list StatisticProto;
  result_counters : gmap string Z;
  result_execution_duration : Z;
  result_execution_start : option Z;
  result_outputs : list UserDefinedOutput;
}.

Definition serialization_domain (s : A) : SerializationDomain :=
  if EndsWith (st_id s) "_size" then RAW else DURATION.

Fixpoint add_statistics (statistics : list A) : outcome (list StatisticProto) :=
  match statistics with
  | [] => Ok []
  | s :: statistics =>
      let* proto := toProto (serialization_domain s) s in
      let* rest := add_statistics statistics in
      Ok (proto :: rest)
  end.

(** The output of the collector is the results added to it, in order. *)
Definition OutputCollectorImpl_addResult (name : string) (statistics : list A) (counters : gmap string Z)
    (execution_duration : Z) (first_acquisition : option Z) (outputs : list UserDefinedOutput)
    (output : list RunResult) : outcome (list RunResult) :=
  let* protos := add_statistics statistics in
  Ok (output ++ [mkResult name protos counters execution_duration first_acquisition outputs]).

Definition earliest (a b : option Z) : option Z :=
  match b with
  | Some t => Some match a with Some u => Z.min u t | None => t end
  | None => a
  end.

(** The loop over the workers: [i], the durations added up, the first acquisition,
    the outputs by plug-in, and the collector. *)
Record ResultLoop : Type := mkLoop {
  rl_i : Z;
  rl_total : Z;
  rl_first : option Z;
  rl_by_plugin : gmap string (list UserDefinedOutput);
  rl_output : list RunResult;
}.

Definition result_turn (workers : nat) (s : ResultLoop) (w : WorkerReport) : outcome ResultLoop :=
  let* output :=
    if (1 <? Z.of_nat workers)
    then OutputCollectorImpl_addResult ("worker_" +:+ fmt_u64 (rl_i s))
           (ProcessImpl_vectorizeStatisticPtrMap (wr_statistics w)) (wr_counters w) (wr_execution_duration w)
           (wr_first_acquisition w) (wr_outputs w) (rl_output s)
    else Ok (rl_output s) in
  Ok (mkLoop (rl_i s + 1) (rl_total s + wr_execution_duration w) (earliest (rl_first s) (wr_first_acquisition w))
        (collectUserDefinedOutputs (rl_by_plugin s) (wr_outputs w)) output).

Fixpoint result_loop (count : nat) (workers : list WorkerReport) (s : ResultLoop) : outcome ResultLoop :=
  match workers with
  | [] => Ok s
  | w :: workers => let* s := result_turn count s w in result_loop count workers s
  end.

(** What [runInternal] does once the workers are complete: the results, and whether
    the run succeeded. The duration is divided as an unsigned number. *)
Definition run_results (aggregate : string -> list UserDefinedOutput -> string + string) (factories : list string)
    (counters : gmap string Z) (workers : list WorkerReport) (output : list RunResult) : outcome (list RunResult * bool) :=
  let* s := result_loop (length workers) workers (mkLoop 0 0 None ∅ output) in
  let global_outputs := compileGlobalUserDefinedPluginOutputs aggregate (rl_by_plugin s) factories in
  let* output :=
    if (0 <? Z.of_nat (length workers))
    then let* merged := ProcessImpl_mergeWorkerStatistics (wr_statistics <$> workers) in
         OutputCollectorImpl_addResult "global" merged counters
           (i64 (u64 (rl_total s) / Z.of_nat (length workers))) (rl_first s) global_outputs (rl_output s)
    else Ok (rl_output s) in
  Ok (output, match counters !! "sequencer.failed_terminations"%string with None => true | Some _ => false end).

(** [r] is the result of worker [i]. *)
Definition reports (i : Z) (w : WorkerReport) (r : RunResult) : Prop :=
  exists protos, add_statistics (ProcessImpl_vectorizeStatisticPtrMap (wr_statistics w)) = Ok protos /\
    r = mkResult ("worker_" +:+ fmt_u64 i) protos (wr_counters w) (wr_execution_duration w)
          (wr_first_acquisition w) (wr_outputs w).

Lemma collect_app m l1 l2 :
  collectUserDefinedOutputs m (l1 ++ l2) = collectUserDefinedOutputs (collectUserDefinedOutputs m l1) l2.
Proof. apply fold_left_app. Qed.

Lemma result_loop_fields n workers s s' :
  result_loop n workers s = Ok s' ->
  rl_total s' = rl_total s + foldr Z.add 0 (wr_execution_duration <$> workers) /\
  rl_first s' = fold_left earliest (wr_first_acquisition <$> workers) (rl_first s) /\
  rl_by_plugin s' = collectUserDefinedOutputs (rl_by_plugin s) (workers ≫= wr_outputs) /\
  exists rs, rl_output s' = rl_output s ++ rs /\
    if 1 <? Z.of_nat n
    then Forall2 (fun iw r => reports iw.1 iw.2 r) (imap (fun k w => (rl_i s + Z.of_nat k, w)) workers) rs
    else rs = [].
Proof.
  revert s. induction workers as [|w workers IH]; intros s Hr; cbn [result_loop] in Hr.
  { injection Hr as <-. cbn. split_and!; [lia|done..|]. exists []. rewrite app_nil_r. by destruct (1 <? _). }
  unfold result_turn in Hr.
  destruct (1 <? Z.of_nat n) eqn:En; cbn [obind] in Hr; unfold OutputCollectorImpl_addResult in Hr; inv_bind.
  - destruct (IH _ Hr) as (Ht & Hf & Hm & rs & Ho & Hrs).
    cbn [rl_i rl_total rl_first rl_by_plugin rl_output] in *.
    rewrite Ht, Hf, Hm. cbn. rewrite <- collect_app. split_and!; [lia|done..|].
    eexists (_ :: rs). rewrite Ho, <- app_assoc. split; [done|]. constructor.
    + cbn. rewrite Z.add_0_r. eexists. split; [eassumption|done].
    + eapply Forall2_impl; [|by intros ?? Hx; exact Hx]. erewrite imap_ext; [exact Hrs|].
      intros k x _. cbn. f_equal. lia.
  - destruct (IH _ Hr) as (Ht & Hf & Hm & rs & Ho & ->).
    cbn [rl_i rl_total rl_first rl_by_plugin rl_output] in *.
    rewrite Ht, Hf, Hm. cbn. rewrite <- collect_app. split_and!; [lia|done..|]. by exists [].
Qed.

(** The outputs of a plug-in, in order. *)
Definition outputs_of (name : string) (l : list UserDefinedOutput) : list UserDefinedOutput :=
  List.filter (fun o => (plugin_name o =? name)%string) l.

Lemma collect_lookup m l name :
  collectUserDefinedOutputs m l !! name =
    match m !! name, outputs_of name l with
    | None, [] => None
    | base, found => Some (default [] base ++ found)
    end.
Proof.
  revert m. induction l as [|o l IH]; intros m.
  { cbn. destruct (m !! name); [by rewrite app_nil_r|done]. }
  cbn [collectUserDefinedOutputs fold_left]. fold (collectUserDefinedOutputs (collect_one m o) l). rewrite IH.
  change (outputs_of name (o :: l)) with (if (plugin_name o =? name)%string then o :: outputs_of name l else outputs_of name l).
  generalize (outputs_of name l). intros found. unfold collect_one.
  destruct (String.eqb_spec (plugin_name o) name) as [->|Hne].
  - destruct (m !! name) as [base|]; rewrite lookup_insert_eq; cbn; [by rewrite <- app_assoc|].
    by destruct found.
  - destruct (m !! plugin_name o); by rewrite lookup_insert_ne.
Qed.

Lemma earliest_fold l a :
  (forall t, a = Some t \/ Some t ∈ l -> exists m, fold_left earliest l a = Some m /\ m <= t) /\
  (forall m, fold_left earliest l a = Some m -> a = Some m \/ Some m ∈ l).
Proof.
  revert a. induction l as [|b l IH]; intros a; cbn [fold_left].
  { split; [|by left]. intros t [->|Hin]; [exists t; split; [done|lia]|by apply elem_of_nil in Hin]. }
  destruct (IH (earliest a b)) as [IH1 IH2]. split.
  - intros t Ht. rewrite elem_of_cons in Ht.
    assert ((exists u, earliest a b = Some u /\ u <= t) \/ Some t ∈ l) as [(u & Hu & Hle)|Hin].
    { destruct Ht as [->|[<-|Hin]]; [left|left|by right].
      - destruct b as [v|]; cbn; eexists; (split; [done|]); lia.
      - destruct a as [v|]; cbn; eexists; (split; [done|]); lia. }
    + destruct (IH1 u (or_introl Hu)) as (m & Hm & Hmu). exists m. split; [done|lia].
    + by apply IH1; right.
  - intros m Hm. rewrite elem_of_cons. destruct (IH2 m Hm) as [E|Hin]; [|by right; right].
    destruct a as [u|], b as [v|]; cbn in E; simplify_eq; [|by auto..].
    destruct (Z.min_spec u v) as [[_ ->]|[_ ->]]; auto.
Qed.

Lemma average_duration total n :
  0 < n -> 0 <= total < 2 ^ 63 -> i64 (u64 (0 + total) / n) = total / n.
Proof.
  intros Hn Ht. rewrite Z.add_0_l, u64_small by (unfold in_u64; lia). rewrite i64_small; [done|]. unfold in_i64.
  split; [pose proof (Z.div_pos total n ltac:(lia) Hn); lia|]. apply Z.div_lt_upper_bound; [lia|]. nia.
Qed.

Lemma add_statistics_total l :
  (forall domain s, exists proto, toProto domain s = Ok proto) -> exists protos, add_statistics l = Ok protos.
Proof.
  intros Hp. induction l as [|s l [protos IH]]; [by eexists|].
  destruct (Hp (serialization_domain s) s) as [proto E]. cbn. rewrite E, IH. by eexists.
Qed.

Lemma result_loop_total n workers s :
  (forall domain x, exists proto, toProto domain x = Ok proto) -> exists s', result_loop n workers s = Ok s'.
Proof.
  intros Hp. revert s. induction workers as [|w workers IH]; intros s; [by eexists|].
  cbn [result_loop]. unfold result_turn, OutputCollectorImpl_addResult.
  destruct (add_statistics_total (ProcessImpl_vectorizeStatisticPtrMap (wr_statistics w)) Hp) as [protos ->].
  destruct (1 <? _); apply IH.
Qed.

(** C30. The results of a run whose workers are complete. With several workers
    there is one result per worker, in order, and then the global one; with one
    worker only the global one, with none no result. A result has the messages
    of its statistics, raw for sizes and as durations otherwise. The global one
    has those of the merged statistics, begins with the earliest acquisition of
    any worker, has the average of the durations, and for every plug-in the
    aggregate of the outputs of all workers, in order, or an error when there are
    none. The run succeeded exactly when no failure predicate ended it. The
    results are there whenever the statistics can be merged and written. *)
Theorem run_results_spec aggregate factories counters workers output :
  (forall results ok, run_results aggregate factories counters workers output = Ok (results, ok) ->
   (ok = true <-> counters !! "sequencer.failed_terminations"%string = None) /\
   match workers with
   | [] => results = output
   | _ =>
       exists per_worker g merged, results = output ++ per_worker ++ [g] /\
         (if 1 <? Z.of_nat (length workers)
          then Forall2 (fun iw r => reports iw.1 iw.2 r) (imap (fun k w => (Z.of_nat k, w)) workers) per_worker
          else per_worker = []) /\
         result_name g = "global"%string /\
         ProcessImpl_mergeWorkerStatistics (wr_statistics <$> workers) = Ok merged /\
         add_statistics merged = Ok (result_statistics g) /\
         result_counters g = counters /\
         (let total := foldr Z.add 0 (wr_execution_duration <$> workers) in
          0 <= total < 2 ^ 63 -> result_execution_duration g = total / Z.of_nat (length workers)) /\
         (forall w t, w ∈ workers -> wr_first_acquisition w = Some t ->
            exists m, result_execution_start g = Some m /\ m <= t) /\
         (forall m, result_execution_start g = Some m -> exists w, w ∈ workers /\ wr_first_acquisition w = Some m) /\
         result_outputs g = (fun name => mkUserOutput name
           match outputs_of name (workers ≫= wr_outputs) with
           | [] => OutputError "No per worker outputs found for a factory when performing aggregation"
           | l => match aggregate name l with inr any => TypedOutput any | inl error => OutputError error end
           end) <$> factories
   end) /\
  ((forall domain s, exists proto, toProto domain s = Ok proto) ->
   (exists merged, ProcessImpl_mergeWorkerStatistics (wr_statistics <$> workers) = Ok merged) ->
   exists results, run_results aggregate factories counters workers output = Ok results).
Proof.
  split.
  - intros results ok Hr. unfold run_results in Hr.
    destruct (result_loop _ _ _) as [s| | |] eqn:El; cbn [obind] in Hr; try done.
    apply result_loop_fields in El as (Ht & Hf & Hm & rs & Ho & Hrs).
    cbn [rl_i rl_total rl_first rl_by_plugin rl_output] in *.
    destruct workers as [|w0 ws].
    { cbn in Hr, Hrs. injection Hr as <- <-. rewrite Ho, Hrs. split; [by destruct (counters !! _)|]. by rewrite app_nil_r. }
    set (workers := w0 :: ws) in *. assert (0 < Z.of_nat (length workers)) as Hpos by (cbn; lia). clearbody workers.
    rewrite (proj2 (Z.ltb_lt 0 (Z.of_nat (length workers))) Hpos) in Hr.
    unfold OutputCollectorImpl_addResult in Hr. inv_bind. split; [by destruct (counters !! _)|].
    exists rs. do 2 eexists. split; [by rewrite Ho, <- app_assoc|]. split; [exact Hrs|].
    split; [done|]. split; [eassumption|]. split; [eassumption|].
    cbn [result_name result_statistics result_counters result_execution_duration result_execution_start result_outputs].
    rewrite Ht, Hf, Hm. destruct (earliest_fold (wr_first_acquisition <$> workers) None) as [He1 He2].
    split; [done|]. split; [apply average_duration; exact Hpos|]. split_and!.
    + intros w t Hw Et. apply He1. right. apply list_elem_of_fmap. by exists w.
    + intros m Em. destruct (He2 m Em) as [|Hin]; [done|]. apply list_elem_of_fmap in Hin as (w & E & Hw). by exists w.
    + unfold compileGlobalUserDefinedPluginOutputs. apply list_fmap_ext. intros k name _. f_equal.
      rewrite collect_lookup, lookup_empty. by destruct (outputs_of name _).
  - intros Hp [merged Em]. unfold run_results.
    destruct (result_loop_total (length workers) workers (mkLoop 0 0 None ∅ output) Hp) as [s ->]. cbn [obind].
    unfold OutputCollectorImpl_addResult. rewrite Em. cbn [obind].
    destruct (add_statistics_total merged Hp) as [protos ->]. destruct (0 <? _); by eexists.
Qed.

End Results.

(** ** Executions *)

Section ProcessDemo.
#[local] Existing Instance uri_env_documented.

(** Two workers at 500 requests per second each: a millisecond apart. *)
Lemma demo_delay : computeInterWorkerDelay 2 500 = Ok 1000000.
Proof. by vm_compute. Qed.

Definition demo_setup_env : SetupEnv := mkSetupEnv true true (fun _ => true) true 100 1000 None 500.

Definition demo_started : WorkerImpl := mkWorker AtDispatcherRun true false false false false false [].

Definition demo_setup : ProcessRun :=
  mkProcessRun (SetUp true)
    (mkProcess [mkClientWorker demo_started 600001000 0; mkClientWorker demo_started 601001000 0]
       (Some (mkFlush demo_started false None 0)) false false true) false.

Lemma demo_setup_reachable : process_reachable demo_setup.
Proof.
  eapply process_more; [apply process_init|]. apply (process_setup demo_setup_env 2 ProcessImpl_new false true). by vm_compute.
Qed.

Definition demo_cancelled : ProcessRun :=
  mkProcessRun (SetUp true) (ProcessImpl_requestExecutionCancellation true (pr_process demo_setup)).2 false.

Lemma demo_cancelled_reachable : process_reachable demo_cancelled.
Proof. eapply process_more; [apply demo_setup_reachable|]. apply (process_cancel (SetUp true) (pr_process demo_setup) false true). Qed.

Lemma process_cancellation_kept_witness :
  length (workers_ (pr_process demo_cancelled)) = 2%nat /\
  Forall (fun w => (0 < cw_cancellations w)%nat) (workers_ (pr_process demo_cancelled)).
Proof. split; [done|]. by apply (process_cancellation_kept demo_cancelled demo_cancelled_reachable). Defined.

(** One more step of a run that is known to be reachable. *)
Ltac one_more R step := eapply process_more in R; [|solve [step; vm_compute; reflexivity]]; vm_compute in R.

(** The run of one worker and a flush worker, to its end; the timer fires once. *)
Definition demo_complete : WorkerImpl := mkWorker AtExitWait true true true false false false [DispatcherRan; WorkRan].

Definition demo_over : ProcessRun :=
  mkProcessRun RunReturned
    (mkProcess [mkClientWorker demo_complete 550001000 0] (Some (mkFlush demo_complete true (Some true) 1)) false false false)
    false.

Lemma demo_over_reachable : process_reachable demo_over.
Proof.
  assert (process_reachable (mkProcessRun (SetUp true)
    (mkProcess [mkClientWorker demo_started 550001000 0] (Some (mkFlush demo_started false None 0)) false false true)
    false)) as R.
  { eapply process_more; [apply process_init|]. apply (process_setup demo_setup_env 1 ProcessImpl_new false true). by vm_compute. }
  do 3 one_more R ltac:(eapply process_thread with (i := 0%nat)).
  one_more R ltac:(eapply process_wait with (i := 0%nat)).
  one_more R ltac:(eapply process_flush_thread).
  one_more R ltac:(eapply process_flush_timer).
  eapply process_more in R; [|apply process_workers_done; by repeat constructor]. vm_compute in R.
  do 2 one_more R ltac:(eapply process_flush_thread).
  one_more R ltac:(eapply process_flush_done). exact R.
Qed.

(** Of two workers one answers in time; the other's answer is dropped. *)
Definition demo_snapshot_one : SnapshotState := job_answer 0 [7] (job_begin 0 (job_begin 1 (snapshot_post (A := Z) 2))).

Definition demo_snapshot_taken : SnapshotState :=
  snapshot_take (mkPending [[7]; []] 1 false) demo_snapshot_one.

Lemma demo_snapshot_reachable : snapshot_reachable 2 demo_snapshot_taken.
Proof.
  eapply snapshot_more; [eapply snapshot_more; [eapply snapshot_more; [eapply snapshot_more; [apply snapshot_posted|]|]|]|].
  - by apply (snapshot_begin (snapshot_post 2) 1).
  - by apply (snapshot_begin (job_begin 1 (snapshot_post 2)) 0).
  - by apply (snapshot_answer (job_begin 0 (job_begin 1 (snapshot_post 2))) 0 [7]).
  - by apply (snapshot_taken demo_snapshot_one (mkPending [[7]; []] 1 false) 5 5).
Qed.

Lemma snapshot_exact_witness :
  sn_taken demo_snapshot_taken = Some [[7]; []] /\ sn_taken (job_answer 1 [8] demo_snapshot_taken) = Some [[7]; []].
Proof.
  split; [done|].
  exact (proj2 (proj2 (proj1 (proj2 (snapshot_exact 2 demo_snapshot_taken ltac:(done) demo_snapshot_reachable)) _ eq_refl) 1%nat [8])).
Defined.

Definition demo_reports : list (WorkerReport (A := SimpleStatistic)) :=
  [mkReport [("a_size"%string, st_setId "a_size" SimpleStatistic_new)] ∅ 10 (Some 7) [mkUserOutput "p" (TypedOutput "x")];
   mkReport [("a_size"%string, st_setId "a_size" SimpleStatistic_new)] ∅ 21 (Some 5) [mkUserOutput "p" (TypedOutput "y")]].

Definition demo_aggregate (_ : string) (l : list UserDefinedOutput) : string + string :=
  inr (fmt_u64 (Z.of_nat (length l))).

Definition demo_ends_with (s t : string) : bool := (sdrop (String.length s - String.length t) s =? t)%string.

Definition demo_run : outcome (list RunResult * bool) :=
  run_results (@StatisticImpl_toProto SimpleStatistic _) demo_ends_with demo_aggregate ["p"; "q"]%string ∅ demo_reports [].

Definition demo_results : list RunResult := match demo_run with Ok (results, _) => results | _ => [] end.

Lemma demo_results_ok : demo_run = Ok (demo_results, true).
Proof. by vm_compute. Qed.

Lemma run_results_spec_witness :
  length demo_results = 3%nat /\ exists g, last demo_results = Some g /\ result_execution_duration g = 15.
Proof.
  split; [by vm_compute|].
  destruct (run_results_spec (@StatisticImpl_toProto SimpleStatistic _) demo_ends_with demo_aggregate ["p"; "q"]%string ∅
              demo_reports []) as [Hspec _].
  destruct (Hspec demo_results true demo_results_ok) as (_ & rs & g & merged & E & _ & _ & _ & _ & _ & Hd & _).
  exists g. split; [rewrite E; by rewrite app_nil_l, last_snoc|]. apply Hd. cbn. lia.
Defined.

End ProcessDemo.
