(* ===== verification/TestServer.v ===== *)
(** * The filters of the test server

    Models [engine/source/server/configuration.cc],
    [engine/source/server/http_filter_config_base.cc],
    [engine/source/server/http_test_server_filter.{h,cc}],
    [engine/source/server/http_time_tracking_filter.{h,cc}],
    [engine/source/server/http_dynamic_delay_filter.{h,cc}] and
    [engine/source/common/thread_safe_monotonic_time_stopwatch.{h,cc}].

    Parsing JSON into a message, merging and validating messages are protobuf's
    and arguments here, and so are Envoy's header maps and the fault filter the
    delay filter derives from. *)

From S2P Require Import Prelude Double Text Uri RequestSource RequestSourceProofs.

(** ** Response options *)

(** [append] is a wrapper that may be missing. *)
Record HeaderValueOption : Type := mkHeaderOption { hvo_key : string; hvo_value : string; hvo_append : option bool }.

(** A duration in nanoseconds. *)
Inductive DelayOptions : Type :=
| DelayNotSet
| StaticDelay (delay : Z)
| ConcurrencyBasedLinearDelay (minimal_delay concurrency_delay_factor : Z).

Record ResponseOptions : Type := mkResponseOptions {
  response_headers : list HeaderValueOption;
  v3_response_headers : list HeaderValueOption;
  response_body_size : Z;
  echo_request_headers : bool;
  delay_options : DelayOptions;
  emit_previous_request_delta_in_response_header : string;
}.

Definition upgradeDeprecatedEnvoyV2HeaderValueOptionToV3 (o : HeaderValueOption) : HeaderValueOption :=
  mkHeaderOption (hvo_key o) (hvo_value o) (hvo_append o).

Definition validateResponseOptions (o : ResponseOptions) : outcome unit :=
  match response_headers o, v3_response_headers o with
  | _ :: _, _ :: _ => Panic "cannot specify both response_headers and v3_response_headers"
  | _, _ => Ok tt
  end.

Section Filters.
Context {H : Type} `{RequestHeaders H}.

Definition apply_header (h : H) (o : HeaderValueOption) : H :=
  let lower_case_key := LowerCaseString (hvo_key o) in
  let h := if default false (hvo_append o) then h else rh_remove lower_case_key h in
  rh_addCopy lower_case_key (hvo_value o) h.

Definition applyConfigToResponseHeaders (h : H) (o : ResponseOptions) : outcome H :=
  let* _ := validateResponseOptions o in
  let v3 := v3_response_headers o ++ (upgradeDeprecatedEnvoyV2HeaderValueOptionToV3 <$> response_headers o) in
  Ok (fold_left apply_header v3 h).

(** What protobuf and Envoy do with messages: an error's text or the message; the
    error of a message that is not valid. *)
Context (loadFromJson : string -> string + ResponseOptions).
Context (MergeFrom : ResponseOptions -> ResponseOptions -> ResponseOptions).
Context (validate : ResponseOptions -> option string).
(** The same for the name of the response header of the time-tracking filter. *)
Context (time_valid : string -> option string).

Definition mergeJsonConfig (json : string) (config : ResponseOptions) : string + ResponseOptions :=
  match loadFromJson json with
  | inl what => inl ("Error merging json config: " +:+ what)
  | inr json_config =>
      let config := MergeFrom config json_config in
      match validate config with
      | Some what => inl ("Error merging json config: " +:+ what)
      | None => inr config
      end
  end.

Definition multiple_headers : string := "Received multiple configuration headers in the request, expected only one.".

(** [values]: those of the header with the configuration. *)
Definition computeEffectiveConfiguration (base : ResponseOptions) (values : list string) : string + ResponseOptions :=
  match values with
  | [] => inr base
  | [json] => mergeJsonConfig json base
  | _ => inl multiple_headers
  end.

(** ** The test server filter *)

(** A reply the filter asks its callbacks for. *)
Record LocalReply : Type := mkReply { reply_code : Z; reply_body : string; reply_headers : H }.

(** [Some] for an error that was sent. *)
Definition validateOrSendError {A : Type} (filter_name : string) (headers : H) (config : string + A) : option LocalReply :=
  match config with
  | inl message => Some (mkReply 500 (filter_name +:+ " didn't understand the request: " +:+ message) headers)
  | inr _ => None
  end.

Record HttpTestServerDecoderFilter : Type := mkTestServerFilter {
  ts_effective_config_ : string + ResponseOptions;
  request_headers_dump_ : option string;
}.

(** [headers]: those a local reply begins with. *)
Definition HttpTestServerDecoderFilter_sendReply (headers : H) (f : HttpTestServerDecoderFilter) (o : ResponseOptions) :
    outcome LocalReply :=
  let response_body := String.string_of_list_ascii (repeat "a"%char (Z.to_nat (response_body_size o))) +:+
                       default EmptyString (request_headers_dump_ f) in
  let* headers := applyConfigToResponseHeaders headers o in
  Ok (mkReply 200 response_body headers).

(** [dump]: the headers as Envoy prints them. The reply, if one is sent. *)
Definition HttpTestServerDecoderFilter_decodeHeaders (base : ResponseOptions) (headers : H) (values : list string)
    (dump : string) (end_stream : bool) : outcome (option LocalReply * HttpTestServerDecoderFilter) :=
  let config := computeEffectiveConfiguration base values in
  let f := mkTestServerFilter config None in
  if end_stream then
    match config with
    | inl _ => Ok (validateOrSendError "test-server" headers config, f)
    | inr o =>
        let f := if echo_request_headers o
                 then mkTestServerFilter config (Some (NL +:+ "Request Headers:" +:+ NL +:+ dump)) else f in
        let* reply := HttpTestServerDecoderFilter_sendReply headers f o in
        Ok (Some reply, f)
    end
  else Ok (None, f).

Definition HttpTestServerDecoderFilter_decodeData (headers : H) (end_stream : bool) (f : HttpTestServerDecoderFilter) :
    outcome (option LocalReply) :=
  if end_stream then
    match ts_effective_config_ f with
    | inl _ => Ok (validateOrSendError "test-server" headers (ts_effective_config_ f))
    | inr o => let* reply := HttpTestServerDecoderFilter_sendReply headers f o in Ok (Some reply)
    end
  else Ok None.

Definition HttpTestServerDecoderFilter_decodeTrailers (f : HttpTestServerDecoderFilter) : outcome (option LocalReply) :=
  Ok None.

(** How a request ends: with its headers, with the data behind some pieces of it, or
    with trailers. *)
Inductive request_end : Type := EndsWithHeaders | EndsWithData (pieces : nat) | EndsWithTrailers (pieces : nat).

(** The pieces of data that do not end the request. *)
Fixpoint feed_data (headers : H) (pieces : nat) (f : HttpTestServerDecoderFilter) : outcome (list LocalReply) :=
  match pieces with
  | O => Ok []
  | S pieces =>
      let* r := HttpTestServerDecoderFilter_decodeData headers false f in
      let* rest := feed_data headers pieces f in
      Ok (match r with Some r => r :: rest | None => rest end)
  end.

(** The replies to a whole request. *)
Definition test_server_replies (base : ResponseOptions) (headers : H) (values : list string) (dump : string)
    (ends : request_end) : outcome (list LocalReply) :=
  let end_stream := match ends with EndsWithHeaders => true | _ => false end in
  let* rf := HttpTestServerDecoderFilter_decodeHeaders base headers values dump end_stream in
  let '(r, f) := rf in
  let first := match r with Some r => [r] | None => [] end in
  match ends with
  | EndsWithHeaders => Ok first
  | EndsWithData pieces =>
      let* more := feed_data headers pieces f in
      let* last := HttpTestServerDecoderFilter_decodeData headers true f in
      Ok (first ++ more ++ match last with Some r => [r] | None => [] end)
  | EndsWithTrailers pieces =>
      let* more := feed_data headers pieces f in
      let* last := HttpTestServerDecoderFilter_decodeTrailers f in
      Ok (first ++ more ++ match last with Some r => [r] | None => [] end)
  end.

(** ** The stopwatch and the time tracking filter *)

(** [start_] is [None] before the first request. *)
Definition getElapsedNsAndReset (new_time : Z) (start : option Z) : Z * option Z :=
  (match start with None => 0 | Some s => u64 (new_time - s) end, Some new_time).

(** What a filter does with a callback: it answers itself, lets the request go
    on, or leaves it to the fault filter, with the headers it sees. *)
Inductive FilterAction : Type :=
| FilterReplied (reply : LocalReply)
| FilterContinue
| FilterFault (headers : H).

(** The options of a header that set the name of the response header. *)
Definition cherryPickTimeTracking (json : string) (base : string) : string + string :=
  match loadFromJson json with
  | inl what => inl ("Error extracting json config: " +:+ what)
  | inr o =>
      let name := emit_previous_request_delta_in_response_header o in
      if (name =? EmptyString)%string then inr base
      else match time_valid name with
           | Some what => inl ("Error extracting json config: " +:+ what)
           | None => inr name
           end
  end.

Definition time_tracking_config (base : string) (values : list string) : string + string :=
  match values with
  | [] => inr base
  | [json] => cherryPickTimeTracking json base
  | _ => inl multiple_headers
  end.

(** The time-tracking filter of one request. *)
Record HttpTimeTrackingFilter : Type := mkTimeTracking {
  tt_effective_config_ : string + string;
  last_request_delta_ns_ : Z;
}.

(** The stopwatch is shared by the requests. *)
Definition HttpTimeTrackingFilter_setDecoderFilterCallbacks (now : Z) (stopwatch : option Z) (f : HttpTimeTrackingFilter) :
    HttpTimeTrackingFilter * option Z :=
  let '(elapsed, stopwatch) := getElapsedNsAndReset now stopwatch in
  (mkTimeTracking (tt_effective_config_ f) elapsed, stopwatch).

(** The end of [decodeHeaders], and [decodeData]; [reply]: the headers of a local
    reply. *)
Definition time_tracking_turn (reply : H) (end_stream : bool) (f : HttpTimeTrackingFilter) : FilterAction :=
  match if end_stream then validateOrSendError "time-tracking" reply (tt_effective_config_ f) else None with
  | Some error => FilterReplied error
  | None => FilterContinue
  end.

Definition HttpTimeTrackingFilter_decodeHeaders (base : string) (values : list string) (reply : H) (end_stream : bool)
    (f : HttpTimeTrackingFilter) : FilterAction * HttpTimeTrackingFilter :=
  let f := mkTimeTracking (time_tracking_config base values) (last_request_delta_ns_ f) in
  (time_tracking_turn reply end_stream f, f).

Definition HttpTimeTrackingFilter_decodeData (reply : H) (end_stream : bool) (f : HttpTimeTrackingFilter) : FilterAction :=
  time_tracking_turn reply end_stream f.

Definition HttpTimeTrackingFilter_encodeHeaders (f : HttpTimeTrackingFilter) (h : H) : H :=
  match tt_effective_config_ f with
  | inr name =>
      if negb (name =? EmptyString)%string && (0 <? last_request_delta_ns_ f)
      then rh_appendCopy (LowerCaseString name) (print_number (last_request_delta_ns_ f)) h else h
  | inl _ => h
  end.

(** ** The dynamic delay filter *)

Definition cherryPickDynamicDelay (json : string) (base : DelayOptions) : string + DelayOptions :=
  match loadFromJson json with
  | inl what => inl ("Error merging json config: " +:+ what)
  | inr o => match delay_options o with DelayNotSet => inr base | d => inr d end
  end.

Definition delay_config (base : DelayOptions) (values : list string) : string + DelayOptions :=
  match values with
  | [] => inr base
  | [json] => cherryPickDynamicDelay json base
  | _ => inl multiple_headers
  end.

(** The nanoseconds of a duration are 64 bits wide. The division by 1e6 is in
    doubles, and rounds. *)
Definition computeConcurrencyBasedLinearDelayMs (concurrency minimal_delay delay_factor : Z) : outcome Z :=
  let* ns := cast_i64 (Some (minimal_delay + i64 concurrency * delay_factor)) in
  cast_i64 (truncZ (dround (ddiv (d_of_Z ns) (d_of_Z 1000000)))).

(** [DurationToMilliseconds] truncates. *)
Definition computeDelayMs (config : DelayOptions) (concurrency : Z) : outcome (option Z) :=
  match config with
  | StaticDelay d => Ok (Some (Z.quot d 1000000))
  | ConcurrencyBasedLinearDelay m f => let* ms := computeConcurrencyBasedLinearDelayMs concurrency m f in Ok (Some ms)
  | DelayNotSet => Ok None
  end.

Definition maybeRequestFaultFilterDelay (delay_ms : option Z) (headers : H) : H :=
  match delay_ms with
  | Some ms => if 0 <? ms then rh_setCopy "x-envoy-fault-delay-request" (print_number ms) headers else headers
  | None => headers
  end.

(** The number of filters alive, across the process. *)
Definition incrementFilterInstanceCount (instances : Z) : Z := u64 (instances + 1).

Definition decrementFilterInstanceCount (instances : Z) : Z := u64 (instances - 1).

(** The filter of one request. *)
Record HttpDynamicDelayDecoderFilter : Type := mkDelayFilter {
  dd_effective_config_ : string + DelayOptions;
  destroyed_ : bool;
}.

Definition HttpDynamicDelayDecoderFilter_new (instances : Z) : HttpDynamicDelayDecoderFilter * Z :=
  (mkDelayFilter (inl EmptyString) false, incrementFilterInstanceCount instances).

Definition HttpDynamicDelayDecoderFilter_onDestroy (f : HttpDynamicDelayDecoderFilter) (instances : Z) :
    HttpDynamicDelayDecoderFilter * Z :=
  (mkDelayFilter (dd_effective_config_ f) true, decrementFilterInstanceCount instances).

(** The destructor. *)
Definition HttpDynamicDelayDecoderFilter_delete (f : HttpDynamicDelayDecoderFilter) : outcome unit :=
  if destroyed_ f then Ok tt else Panic "onDestroy() not called".

(** What both callbacks do with an error. *)
Definition delay_error (reply : H) (end_stream : bool) (config : string + DelayOptions) : FilterAction :=
  match if end_stream then validateOrSendError "dynamic-delay" reply config else None with
  | Some error => FilterReplied error
  | None => FilterContinue
  end.

Definition HttpDynamicDelayDecoderFilter_decodeHeaders (base : DelayOptions) (instances : Z) (values : list string)
    (headers reply : H) (end_stream : bool) (f : HttpDynamicDelayDecoderFilter) :
    outcome (FilterAction * HttpDynamicDelayDecoderFilter) :=
  let f := mkDelayFilter (delay_config base values) (destroyed_ f) in
  match dd_effective_config_ f with
  | inr config =>
      let* delay_ms := computeDelayMs config instances in
      Ok (FilterFault (maybeRequestFaultFilterDelay delay_ms headers), f)
  | inl _ => Ok (delay_error reply end_stream (dd_effective_config_ f), f)
  end.

(** With a good configuration the fault filter gets the data; [headers]: those it
    has seen. *)
Definition HttpDynamicDelayDecoderFilter_decodeData (headers reply : H) (end_stream : bool)
    (f : HttpDynamicDelayDecoderFilter) : FilterAction :=
  match dd_effective_config_ f with
  | inr _ => FilterFault headers
  | inl _ => delay_error reply end_stream (dd_effective_config_ f)
  end.

End Filters.

Arguments LocalReply : clear implicits.
Arguments FilterAction : clear implicits.

(** ** Theorems *)

Section FilterProofs.
Context {H : Type} `{RequestHeadersLaws H}.
Context (loadFromJson : string -> string + ResponseOptions).
Context (MergeFrom : ResponseOptions -> ResponseOptions -> ResponseOptions).
Context (validate : ResponseOptions -> option string).

(** All the headers of the options, as they are applied. *)
Definition option_headers (o : ResponseOptions) : list HeaderValueOption := v3_response_headers o ++ response_headers o.

Lemma apply_config_ok o (h : H) :
  (response_headers o = [] \/ v3_response_headers o = []) ->
  exists h', applyConfigToResponseHeaders h o = Ok h' /\
    (Forall (fun x => default false (hvo_append x) = false) (option_headers o) ->
     forall n, rh_get n h' =
       value_or (last_value n ((fun x => (hvo_key x, hvo_value x)) <$> option_headers o) None) (rh_get n h)).
Proof.
  intros Hone. unfold applyConfigToResponseHeaders.
  assert (validateResponseOptions o = Ok tt) as ->.
  { unfold validateResponseOptions. destruct Hone as [-> | ->]; [done|]. by destruct (response_headers o). }
  cbn [obind]. eexists. split; [done|].
  assert ((upgradeDeprecatedEnvoyV2HeaderValueOptionToV3 <$> response_headers o) = response_headers o) as ->.
  { rewrite <- (list_fmap_id (response_headers o)) at 2. apply list_fmap_ext. by intros i [k v a] _. }
  fold (option_headers o). intros Happ n.
  rewrite <- (fold_puts replace_header) by (intros h0 kv; apply replace_puts). f_equal. clear Hone.
  revert h. induction Happ as [|x l Hx _ IH]; intros h; [done|]. cbn. rewrite <- IH. f_equal.
  unfold apply_header, replace_header. by rewrite Hx.
Qed.

Lemma feed_data_none (headers : H) pieces f : feed_data headers pieces f = Ok [].
Proof. induction pieces as [|pieces IH]; [done|]. cbn. by rewrite IH. Qed.

(** The replies of the test server to a whole request. One that ends with its
    headers or with data gets exactly one reply: an error when the
    configuration in its headers is not understood; otherwise the body asked
    for, with the request headers behind it only when the request has no data,
    and the configured response headers over those of the reply. But a
    configuration with headers of both versions ends the process, and a request
    that ends with trailers gets no reply. *)
Lemma test_server_replies_spec base (headers : H) values dump ends :
  let config := computeEffectiveConfiguration loadFromJson MergeFrom validate base values in
  let replies := test_server_replies loadFromJson MergeFrom validate base headers values dump ends in
  match ends with
  | EndsWithTrailers _ => replies = Ok []
  | _ =>
      match config with
      | inl message => replies = Ok [mkReply 500 ("test-server didn't understand the request: " +:+ message) headers]
      | inr o =>
          (response_headers o <> [] -> v3_response_headers o <> [] -> exists e, replies = Panic e) /\
          (response_headers o = [] \/ v3_response_headers o = [] ->
           exists h, replies = Ok [mkReply 200
             (String.string_of_list_ascii (repeat "a"%char (Z.to_nat (response_body_size o))) +:+
              match ends with
              | EndsWithHeaders => if echo_request_headers o then NL +:+ "Request Headers:" +:+ NL +:+ dump else EmptyString
              | _ => EmptyString
              end) h] /\
             (Forall (fun x => default false (hvo_append x) = false) (option_headers o) ->
              forall n, rh_get n h =
                value_or (last_value n ((fun x => (hvo_key x, hvo_value x)) <$> option_headers o) None) (rh_get n headers)))
      end
  end.
Proof.
  cbv zeta. unfold test_server_replies, HttpTestServerDecoderFilter_decodeHeaders.
  set (config := computeEffectiveConfiguration _ _ _ base values). clearbody config.
  destruct ends as [|pieces|pieces]; cbn [obind]; rewrite ?feed_data_none; cbn [obind app]; [| |done].
  all: destruct config as [message|o]; [done|]; unfold HttpTestServerDecoderFilter_decodeData; cbn [ts_effective_config_];
    unfold HttpTestServerDecoderFilter_sendReply; split.
  1, 3: intros H1' H2'; unfold applyConfigToResponseHeaders, validateResponseOptions;
    destruct (response_headers o); [done|]; destruct (v3_response_headers o); [done|]; by eexists.
  all: intros Hone; destruct (apply_config_ok o headers Hone) as (h & -> & Hh); exists h; cbn [obind];
    split; [|exact Hh]; try done.
  by destruct (echo_request_headers o).
Qed.

(** The deltas of requests that arrive at these times. *)
Fixpoint stopwatch_deltas (times : list Z) (start : option Z) : list Z :=
  match times with
  | [] => []
  | t :: times => let '(delta, start) := getElapsedNsAndReset t start in delta :: stopwatch_deltas times start
  end.

(** The stopwatch: the first request has no delta, every later one has exactly
    the time since the one before it, and so the deltas add up to the time
    between the first request and the last. *)
Lemma stopwatch_telescopes t0 times :
  StronglySorted Z.le (t0 :: times) -> Forall (fun t => t - t0 < 2 ^ 64) times ->
  exists deltas, stopwatch_deltas (t0 :: times) None = 0 :: deltas /\
    length deltas = length times /\ Forall (fun d => 0 <= d) deltas /\
    (forall i d, deltas !! i = Some d -> exists a b, (t0 :: times) !! i = Some a /\ times !! i = Some b /\ d = b - a) /\
    foldr Z.add 0 deltas = List.last times t0 - t0.
Proof.
  intros Hs Hb. exists (stopwatch_deltas times (Some t0)). split; [done|]. revert t0 Hs Hb.
  induction times as [|t times IH]; intros t0 Hs Hb; cbn [stopwatch_deltas getElapsedNsAndReset].
  { cbn. split_and!; try done. lia. }
  apply StronglySorted_inv in Hs as [Hs Hle]. apply Forall_cons in Hle as [Ht0 Hle]. apply Forall_cons in Hb as [Htb Hb].
  destruct (IH t Hs) as (Hl & Hp & Hd & Hsum).
  { apply (Forall_impl _ _ _ Hb). intros x Hx. lia. }
  rewrite u64_small by (unfold in_u64; lia). split_and!.
  - cbn. by rewrite Hl.
  - constructor; [lia|done].
  - intros [|i] d Hi; cbn in Hi.
    + injection Hi as <-. by exists t0, t.
    + destruct (Hd i d Hi) as (a & b & Ha & Hb' & ->). by exists a, b.
  - cbn [foldr]. rewrite Hsum. destruct times as [|t' times]; [cbn; lia|].
    change (List.last (t :: t' :: times) t0) with (List.last (t' :: times) t0).
    assert (forall (l : list Z) x a b, List.last (x :: l) a = List.last (x :: l) b) as Hlast.
    { intros l. induction l as [|y l IHl]; intros x a b; [done|]. apply (IHl y). }
    rewrite (Hlast times t' t t0). lia.
Qed.

(** What the delay filter asks of the fault filter: a configuration that is not
    understood is answered with an error when the request is over and passed by
    before; a static delay is asked for in whole milliseconds, rounded down, and
    not at all below one; nothing is asked for without a delay. *)
Lemma delay_filter_spec base instances values (headers reply : H) end_stream f :
  let result := HttpDynamicDelayDecoderFilter_decodeHeaders loadFromJson base instances values headers reply
                  end_stream f in
  let name := "x-envoy-fault-delay-request"%string in
  match delay_config loadFromJson base values with
  | inl e => result = Ok (if end_stream
                          then FilterReplied (mkReply 500 ("dynamic-delay didn't understand the request: " +:+ e) reply)
                          else FilterContinue, mkDelayFilter (inl e) (destroyed_ f))
  | inr (StaticDelay d) =>
      exists h, result = Ok (FilterFault h, mkDelayFilter (inr (StaticDelay d)) (destroyed_ f)) /\
        rh_get name h = (if 1000000 <=? d then [print_number (d / 1000000)] else rh_get name headers)
  | inr DelayNotSet => result = Ok (FilterFault headers, mkDelayFilter (inr DelayNotSet) (destroyed_ f))
  | inr (ConcurrencyBasedLinearDelay m k) =>
      forall ms, computeConcurrencyBasedLinearDelayMs instances m k = Ok ms ->
      exists h, result = Ok (FilterFault h, mkDelayFilter (inr (ConcurrencyBasedLinearDelay m k)) (destroyed_ f)) /\
        rh_get name h = (if 0 <? ms then [print_number ms] else rh_get name headers)
  end.
Proof.
  cbn zeta. unfold HttpDynamicDelayDecoderFilter_decodeHeaders. cbn [dd_effective_config_].
  destruct (delay_config loadFromJson base values) as [e|[|d|m k]]; cbn [computeDelayMs obind].
  - by destruct end_stream.
  - done.
  - eexists. split; [done|]. unfold maybeRequestFaultFilterDelay. destruct (Z.leb_spec 1000000 d) as [Hd|Hd].
    + rewrite Z.quot_div_nonneg by lia. rewrite (proj2 (Z.ltb_lt _ _)); [apply rhl_set_eq|].
      apply Z.div_str_pos. lia.
    + rewrite (proj2 (Z.ltb_ge _ _)); [done|].
      destruct (Z.le_gt_cases 0 d); [rewrite Z.quot_small by lia; lia|].
      pose proof (Z.quot_opp_l d 1000000 ltac:(lia)). pose proof (Z.quot_pos (- d) 1000000 ltac:(lia) ltac:(lia)). lia.
  - intros ms ->. cbn [obind]. eexists. split; [done|]. unfold maybeRequestFaultFilterDelay.
    destruct (0 <? ms); [apply rhl_set_eq|done].
Qed.

(** The count of filters, over any sequence of filters made ([true]) and destroyed
    ([false]). *)
Fixpoint count_filters (events : list bool) (instances : Z) : Z :=
  match events with
  | [] => instances
  | made :: events =>
      count_filters events
        (if made then snd (HttpDynamicDelayDecoderFilter_new instances)
         else snd (HttpDynamicDelayDecoderFilter_onDestroy (mkDelayFilter (inr DelayNotSet) false) instances))
  end.

(** It is the number of filters alive, modulo 2^64, in whatever order they come and
    go. *)
Lemma filters_counted events instances :
  u64 (count_filters events instances) =
  u64 (instances + Z.of_nat (count_occ Bool.bool_dec events true) - Z.of_nat (count_occ Bool.bool_dec events false)).
Proof.
  revert instances. induction events as [|[] events IH]; intros instances; cbn [count_filters count_occ].
  - f_equal. cbn. lia.
  - rewrite IH. cbn. unfold incrementFilterInstanceCount, u64, wrap_u.
    rewrite <- Z.add_sub_assoc, Zplus_mod_idemp_l. f_equal. lia.
  - rewrite IH. cbn. unfold decrementFilterInstanceCount, u64, wrap_u.
    rewrite <- Z.add_sub_assoc, Zplus_mod_idemp_l. f_equal. lia.
Qed.

End FilterProofs.

(** ** Executions *)

Section FilterDemo.
#[local] Existing Instance pair_headers.
#[local] Existing Instance pair_laws.

Definition demo_response : ResponseOptions :=
  mkResponseOptions [] [mkHeaderOption "X" "1" None; mkHeaderOption "x" "2" None] 3 true DelayNotSet "".

(** JSON that sets a header of the older version. *)
Definition demo_load (json : string) : string + ResponseOptions :=
  if (json =? "v2")%string then inr (mkResponseOptions [mkHeaderOption "y" "1" None] [] 0 false DelayNotSet "")
  else inl "no JSON"%string.

Definition demo_merge (a b : ResponseOptions) : ResponseOptions :=
  mkResponseOptions (response_headers a ++ response_headers b) (v3_response_headers a ++ v3_response_headers b)
    (response_body_size a) (echo_request_headers a) (delay_options a)
    (emit_previous_request_delta_in_response_header a).

(** A request without data; one with trailers; and one whose header, of the older
    version, meets a configuration of the newer one. *)
Lemma test_server_replies_spec_witness :
  (exists h, test_server_replies demo_load demo_merge (fun _ => None) demo_response [] [] "d" EndsWithHeaders =
     Ok [mkReply 200 ("aaa" +:+ NL +:+ "Request Headers:" +:+ NL +:+ "d") h] /\ rh_get "x" h = ["2"%string]) /\
  test_server_replies demo_load demo_merge (fun _ => None) demo_response [] [] "d" (EndsWithTrailers 2) = Ok [] /\
  exists e, test_server_replies demo_load demo_merge (fun _ => None) demo_response [] ["v2"%string] "d" EndsWithHeaders = Panic e.
Proof.
  split_and!.
  - destruct (proj2 (test_server_replies_spec demo_load demo_merge (fun _ => None) demo_response [] [] "d" EndsWithHeaders))
      as (h & E & Hh); [by left|]. exists h. split; [exact E|]. apply Hh. by repeat constructor.
  - exact (test_server_replies_spec demo_load demo_merge (fun _ => None) demo_response [] [] "d" (EndsWithTrailers 2)).
  - by apply (proj1 (test_server_replies_spec demo_load demo_merge (fun _ => None) demo_response [] ["v2"%string] "d"
                       EndsWithHeaders)).
Defined.

Lemma stopwatch_telescopes_witness :
  exists deltas, stopwatch_deltas [5; 8; 20] None = 0 :: deltas /\ foldr Z.add 0 deltas = 15.
Proof.
  destruct (stopwatch_telescopes 5 [8; 20]) as (deltas & E & _ & _ & _ & Es).
  - repeat constructor; lia.
  - repeat constructor; lia.
  - by exists deltas.
Defined.

(** Half a millisecond and two at a time: a delay of three milliseconds for five. *)
Lemma demo_linear_delay : computeConcurrencyBasedLinearDelayMs 5 500000 500000 = Ok 3.
Proof. by vm_compute. Qed.

End FilterDemo.
