(* ===== verification/ServerChain.v ===== *)
(** * The chain of filters of the test server

    The factories that make the filters of the test server from its configuration
    ([engine/source/server/http_test_server_filter_config.cc],
    [http_time_tracking_filter_config.cc], [http_dynamic_delay_filter_config.cc] and
    [websocket_echo_filter_config.cc]), and the filters at work on a whole request,
    in the chain of time tracking, dynamic delay and test server.

    Envoy's filter manager is what it documents: it calls the filters in the order of
    the chain until one answers, and an answer goes through the filters that encode.
    The fault filter lets a request go on after the delay it is asked for. *)

From S2P Require Import Prelude Double Text Uri RequestSource RequestSourceProofs TestServer.

(** ** Factories *)

(** A configuration as Envoy hands it over, and the filters. *)
Inductive FilterConfig : Type :=
| TestServerFilter (base : ResponseOptions)
| TimeTrackingFilter (header : string)
| DynamicDelayFilter (base : DelayOptions)
| WebSocketEchoFilterKind.

(** [valid]: the error of the generated validation, which [downcastAndValidate]
    throws. *)
Definition HttpTestServerDecoderFilterConfig_create (valid : option string) (proto_config : ResponseOptions) :
    outcome FilterConfig :=
  match valid with
  | Some what => Throw (EnvoyException what)
  | None => validateResponseOptions proto_config ;;; Ok (TestServerFilter proto_config)
  end.

Definition HttpTimeTrackingFilterConfig_create (valid : option string) (proto_config : string) : outcome FilterConfig :=
  match valid with
  | Some what => Throw (EnvoyException what)
  | None => Ok (TimeTrackingFilter proto_config)
  end.

Definition HttpDynamicDelayDecoderFilterConfigFactory_create (valid : option string) (proto_config : DelayOptions) :
    outcome FilterConfig :=
  match valid with
  | Some what => Throw (EnvoyException what)
  | None => Ok (DynamicDelayFilter proto_config)
  end.

Definition WebSocketEchoFilterConfig_create : outcome FilterConfig := Ok WebSocketEchoFilterKind.

Definition factory_name (f : FilterConfig) : string :=
  match f with
  | TestServerFilter _ => "test-server"
  | TimeTrackingFilter _ => "time-tracking"
  | DynamicDelayFilter _ => "dynamic-delay"
  | WebSocketEchoFilterKind => "websocket-echo"
  end.

(** ** A request in the chain *)

Section Chain.
Context {H : Type} `{RequestHeaders H}.
Context (loadFromJson : string -> string + ResponseOptions).
Context (MergeFrom : ResponseOptions -> ResponseOptions -> ResponseOptions).
Context (validate : ResponseOptions -> option string).
Context (time_valid : string -> option string).
(** The request headers as Envoy prints them. *)
Context (dump : H -> string).

(** What the filters of the chain were made with. *)
Record ChainConfig : Type := mkChainConfig {
  cc_header : string;
  cc_delay : DelayOptions;
  cc_response : ResponseOptions;
}.

(** The filters of one request; that of the test server has seen its headers or not. *)
Record Chain : Type := mkChain {
  ch_time : HttpTimeTrackingFilter;
  ch_delay : HttpDynamicDelayDecoderFilter;
  ch_server : option HttpTestServerDecoderFilter;
}.

(** What the filters of all requests share. *)
Record Shared : Type := mkShared { sh_stopwatch : option Z; sh_instances : Z }.

Definition chain_open (now : Z) (s : Shared) : Chain * Shared :=
  let (time, stopwatch) :=
    HttpTimeTrackingFilter_setDecoderFilterCallbacks now (sh_stopwatch s) (mkTimeTracking (inl EmptyString) 0) in
  let (delay, instances) := HttpDynamicDelayDecoderFilter_new (sh_instances s) in
  (mkChain time delay None, mkShared stopwatch instances).

(** [instances]: the filters alive when the headers arrive; [values]: the
    configuration in the headers; [reply]: the headers a local reply begins with. *)
Definition chain_decodeHeaders (cfg : ChainConfig) (instances : Z) (values : list string) (headers reply : H)
    (end_stream : bool) (c : Chain) : outcome (option (LocalReply H) * Chain) :=
  let (action, time) :=
    HttpTimeTrackingFilter_decodeHeaders loadFromJson time_valid (cc_header cfg) values reply end_stream (ch_time c) in
  match action with
  | FilterReplied error => Ok (Some error, mkChain time (ch_delay c) (ch_server c))
  | _ =>
      let* ad := HttpDynamicDelayDecoderFilter_decodeHeaders loadFromJson (cc_delay cfg) instances values headers reply
                   end_stream (ch_delay c) in
      match ad.1 with
      | FilterReplied error => Ok (Some error, mkChain time ad.2 (ch_server c))
      | action =>
          let headers := match action with FilterFault headers => headers | _ => headers end in
          let* rs := HttpTestServerDecoderFilter_decodeHeaders loadFromJson MergeFrom validate (cc_response cfg) reply
                       values (dump headers) end_stream in
          Ok (rs.1, mkChain time ad.2 (Some rs.2))
      end
  end.

Definition chain_decodeData (headers reply : H) (end_stream : bool) (c : Chain) : outcome (option (LocalReply H)) :=
  match HttpTimeTrackingFilter_decodeData reply end_stream (ch_time c) with
  | FilterReplied error => Ok (Some error)
  | _ =>
      match HttpDynamicDelayDecoderFilter_decodeData headers reply end_stream (ch_delay c) with
      | FilterReplied error => Ok (Some error)
      | _ => match ch_server c with
             | Some f => HttpTestServerDecoderFilter_decodeData reply end_stream f
             | None => Ok None
             end
      end
  end.

(** The data of a request, up to and with its last piece. *)
Fixpoint chain_data (headers reply : H) (pieces : nat) (c : Chain) : outcome (option (LocalReply H)) :=
  match pieces with
  | O => chain_decodeData headers reply true c
  | S pieces =>
      let* r := chain_decodeData headers reply false c in
      match r with Some r => Ok (Some r) | None => chain_data headers reply pieces c end
  end.

(** The answer on its way back. *)
Definition chain_encode (r : LocalReply H) (c : Chain) : LocalReply H :=
  mkReply (reply_code r) (reply_body r) (HttpTimeTrackingFilter_encodeHeaders (ch_time c) (reply_headers r)).

(** A request of headers, or of headers and data, up to its answer; the filters are
    then destroyed. [alive]: the number of filters when the headers arrive, of those
    alive when the request began or other requests. *)
Definition chain_request (cfg : ChainConfig) (now alive : Z) (values : list string) (headers reply : H)
    (data : option nat) (s : Shared) : outcome (option (LocalReply H) * Shared) :=
  let (c, s) := chain_open now s in
  let* rc := chain_decodeHeaders cfg alive values headers reply (bool_decide (data = None)) c in
  let (r, c) := rc in
  let* r := match r, data with
            | None, Some pieces => chain_data headers reply pieces c
            | _, _ => Ok r
            end in
  let (delay, instances) := HttpDynamicDelayDecoderFilter_onDestroy (ch_delay c) (sh_instances s) in
  HttpDynamicDelayDecoderFilter_delete delay ;;;
  Ok ((fun r => chain_encode r c) <$> r, mkShared (sh_stopwatch s) instances).

(** ** What a request is answered with *)

Context {HL : RequestHeadersLaws H}.

(** The delay filter has an error exactly if the JSON of the one header cannot be
    read or there are several headers, which the time-tracking filter reports
    before. *)
Lemma delay_error_reported base header values e :
  delay_config loadFromJson base values = inl e -> exists e', time_tracking_config loadFromJson time_valid header values = inl e'.
Proof.
  unfold delay_config, time_tracking_config, cherryPickDynamicDelay, cherryPickTimeTracking.
  destruct values as [|json [|? ?]]; [done| |by eexists]. destruct (loadFromJson json) as [what|o]; [by eexists|]. by destruct (delay_options o).
Qed.

(** Pieces of data before the last change nothing. *)
Lemma chain_data_last (headers reply : H) pieces c :
  chain_data headers reply pieces c = chain_decodeData headers reply true c.
Proof.
  induction pieces as [|pieces IH]; [done|]. cbn [chain_data]. unfold chain_decodeData at 1, HttpTimeTrackingFilter_decodeData, time_tracking_turn.
  unfold HttpDynamicDelayDecoderFilter_decodeData, delay_error. destruct (dd_effective_config_ (ch_delay c)); destruct (ch_server c); exact IH.
Qed.

(** The count of filters is what it was once a request is over. *)
Lemma instances_restored n : in_u64 n -> decrementFilterInstanceCount (incrementFilterInstanceCount n) = n.
Proof.
  intros Hn. unfold decrementFilterInstanceCount, incrementFilterInstanceCount, u64, wrap_u.
  rewrite Zminus_mod_idemp_l, Z.add_simpl_r. apply Z.mod_small. unfold in_u64 in Hn. lia.
Qed.

Definition body_of (o : ResponseOptions) (data : option nat) (headers : H) : string :=
  String.string_of_list_ascii (repeat "a"%char (Z.to_nat (response_body_size o))) +:+
  (if echo_request_headers o && bool_decide (data = None) then NL +:+ "Request Headers:" +:+ NL +:+ dump headers else EmptyString).

Definition complaint (filter_name what : string) (reply : H) : LocalReply H :=
  mkReply 500 (filter_name +:+ " didn't understand the request: " +:+ what) reply.

(** The answer to a request, before it is encoded. *)
Definition answer (name : string + string) (options : string + ResponseOptions) (headers reply : H) (data : option nat) :
    outcome (LocalReply H) :=
  match name, options with
  | inl what, _ => Ok (complaint "time-tracking" what reply)
  | inr _, inl what => Ok (complaint "test-server" what reply)
  | inr _, inr o => let* h := applyConfigToResponseHeaders reply o in Ok (mkReply 200 (body_of o data headers) h)
  end.

Lemma body_of_data o pieces headers :
  body_of o (Some pieces) headers = String.string_of_list_ascii (repeat "a"%char (Z.to_nat (response_body_size o))) +:+ EmptyString.
Proof. unfold body_of. by rewrite andb_false_r. Qed.

Lemma chain_request_answer cfg now alive values (headers reply : H) data s ms :
  in_u64 (sh_instances s) ->
  let name := time_tracking_config loadFromJson time_valid (cc_header cfg) values in
  (forall d, delay_config loadFromJson (cc_delay cfg) values = inr d -> computeDelayMs d alive = Ok ms) ->
  chain_request cfg now alive values headers reply data s =
    let* r := answer name (computeEffectiveConfiguration loadFromJson MergeFrom validate (cc_response cfg) values)
                (maybeRequestFaultFilterDelay ms headers) reply data in
    Ok (Some (mkReply (reply_code r) (reply_body r)
                (HttpTimeTrackingFilter_encodeHeaders (mkTimeTracking name (getElapsedNsAndReset now (sh_stopwatch s)).1) (reply_headers r))),
        mkShared (Some now) (sh_instances s)).
Proof.
  intros Hin. cbv zeta. intros Hms. unfold chain_request, chain_open, HttpTimeTrackingFilter_setDecoderFilterCallbacks.
  cbn [getElapsedNsAndReset HttpDynamicDelayDecoderFilter_new tt_effective_config_ fst sh_instances].
  unfold chain_decodeHeaders, HttpTimeTrackingFilter_decodeHeaders, time_tracking_turn, HttpDynamicDelayDecoderFilter_decodeHeaders.
  cbn [tt_effective_config_ ch_time ch_delay last_request_delta_ns_ dd_effective_config_ ch_server].
  pose proof (delay_error_reported (cc_delay cfg) (cc_header cfg) values) as Hd.
  destruct (time_tracking_config loadFromJson time_valid (cc_header cfg) values) as [what|name];
    destruct (delay_config loadFromJson (cc_delay cfg) values) as [e|d];
    [| |by destruct (Hd e eq_refl)|]; try rewrite (Hms d eq_refl); clear Hms Hd;
    destruct (computeEffectiveConfiguration loadFromJson MergeFrom validate (cc_response cfg) values) as [e'|o] eqn:Eo;
    destruct data as [pieces|]; unfold HttpTestServerDecoderFilter_decodeHeaders; rewrite ?Eo; cbn; rewrite ?chain_data_last, ?instances_restored by done;
    unfold HttpTestServerDecoderFilter_sendReply; cbn; try done.
  all: unfold HttpTestServerDecoderFilter_sendReply, body_of; destruct (applyConfigToResponseHeaders reply o); cbn; try done;
    rewrite ?instances_restored by done; destruct (echo_request_headers o); done.
Qed.

(** C23. A request to a server with the three filters in its chain is answered
    exactly once, whether it ends with its headers or with data. When the
    configuration in its headers is not understood the answer is an error, of the
    time-tracking filter for JSON that is none, several headers or a header name
    that is not valid, of the test server for options that are not valid once
    merged; otherwise it has the body and headers asked for, with the time since the
    request before, and the request headers behind the body only when there was no
    data, with the delay that was asked of the fault filter among them. After it the
    count of filters is what it was and the stopwatch runs from the request. So a
    server whose configuration was accepted answers every request that brings no
    configuration with success. *)
Theorem chain_answers valid cfg f now alive values (headers reply : H) data s ms :
  HttpTestServerDecoderFilterConfig_create valid (cc_response cfg) = Ok f -> in_u64 (sh_instances s) ->
  let delay := delay_config loadFromJson (cc_delay cfg) values in
  let name := time_tracking_config loadFromJson time_valid (cc_header cfg) values in
  let options := computeEffectiveConfiguration loadFromJson MergeFrom validate (cc_response cfg) values in
  let elapsed := (getElapsedNsAndReset now (sh_stopwatch s)).1 in
  let result := chain_request cfg now alive values headers reply data s in
  (forall d, delay = inr d -> computeDelayMs d alive = Ok ms) ->
  let answered r := result = Ok (Some r, mkShared (Some now) (sh_instances s)) in
  match name, options with
  | inl what, _ => answered (complaint "time-tracking" what reply)
  | inr name, inl what =>
      answered (mkReply 500 (reply_body (complaint "test-server" what reply))
                  (HttpTimeTrackingFilter_encodeHeaders (mkTimeTracking (inr name) elapsed) reply))
  | inr name, inr o =>
      if bool_decide (response_headers o = [] \/ v3_response_headers o = []) then
        exists h, applyConfigToResponseHeaders reply o = Ok h /\
          answered (mkReply 200 (body_of o data (maybeRequestFaultFilterDelay ms headers))
                      (HttpTimeTrackingFilter_encodeHeaders (mkTimeTracking (inr name) elapsed) h))
      else exists what, result = Panic what
  end /\
  (values = [] -> exists r, answered r /\ reply_code r = 200).
Proof.
  intros Hf Hin. cbv zeta. intros Hms. rewrite (chain_request_answer cfg now alive values headers reply data s ms Hin Hms).
  assert (response_headers (cc_response cfg) = [] \/ v3_response_headers (cc_response cfg) = []) as Hone.
  { destruct valid; [done|]. unfold HttpTestServerDecoderFilterConfig_create, validateResponseOptions in Hf.
    destruct (response_headers (cc_response cfg)), (v3_response_headers (cc_response cfg)); cbn in Hf; auto. done. }
  split.
  - destruct (time_tracking_config _ _ _ _) as [what|name]; [done|].
    destruct (computeEffectiveConfiguration _ _ _ _ _) as [what|o]; [done|]. cbn [answer].
    case_bool_decide as Hk.
    + destruct (apply_config_ok o reply Hk) as (h & Eh & _). exists h. split; [done|]. by rewrite Eh.
    + unfold applyConfigToResponseHeaders, validateResponseOptions.
      destruct (response_headers o), (v3_response_headers o); try (exfalso; tauto). by eexists.
  - intros ->. cbn [time_tracking_config computeEffectiveConfiguration answer].
    destruct (apply_config_ok (cc_response cfg) reply Hone) as (h & -> & _). by eexists.
Qed.

End Chain.

(** ** A server *)

Section ChainDemo.

#[local] Existing Instances pair_headers pair_laws.

Definition demo_chain : ChainConfig := mkChainConfig "X-Delta" (StaticDelay 5000000) demo_response.

(** C23: the second request, 40 ns after the first, with no configuration of its own;
    the headers it came with are echoed. *)
Lemma chain_answers_witness :
  exists r, chain_request demo_load demo_merge (fun _ => None) (fun _ => None) (fun h => default EmptyString (head (rh_get "x-envoy-fault-delay-request" h)))
      demo_chain 140 1 [] [] [] None (mkShared (Some 100) 0) = Ok (Some r, mkShared (Some 140) 0) /\
    reply_code r = 200.
Proof.
  apply (chain_answers demo_load demo_merge (fun _ => None) (fun _ => None) (fun h => default EmptyString (head (rh_get "x-envoy-fault-delay-request" h)))
    None demo_chain (TestServerFilter demo_response) 140 1 [] [] [] None (mkShared (Some 100) 0) (Some 5)).
  - reflexivity.
  - by vm_compute.
  - by intros d [= <-].
  - reflexivity.
Defined.

(** Its answer: the body, the delay in the echoed headers, and the header with the
    time. *)
Example chain_answer :
  exists h, chain_request demo_load demo_merge (fun _ => None) (fun _ => None) (fun h => default EmptyString (head (rh_get "x-envoy-fault-delay-request" h)))
      demo_chain 140 1 [] [] [] None (mkShared (Some 100) 0) =
    Ok (Some (mkReply 200 ("aaa" +:+ NL +:+ "Request Headers:" +:+ NL +:+ "5") h), mkShared (Some 140) 0) /\
    rh_get "x-delta" h = ["40"%string] /\ rh_get "x" h = ["2"%string].
Proof. vm_compute. eexists. done. Qed.

End ChainDemo.
