(* ===== verification/Redaction.v ===== *)
(** * Redaction of private keys

    Models [engine/source/client/redaction.{h,cc}]: what is taken out of TLS
    contexts before a request, a response or a bootstrap is logged.

    The messages have the fields that matter here; the rest of each is one opaque
    value that redaction does not touch. *)

From S2P Require Import Prelude Text.

(** ** Messages *)

Inductive DataSource : Type :=
| SpecifierNotSet
| Filename (s : string)
| InlineBytes (s : string)
| InlineString (s : string)
| EnvironmentVariable (s : string).

Section Messages.
(** The rest of a certificate, a context, options and a cluster; how sizes are
    printed. *)
Context {C T O B : Type} (print_size : nat -> string).

Record TlsCertificate : Type := mkCertificate { private_key : option DataSource; certificate_rest : C }.

Record UpstreamTlsContext : Type := mkTlsContext { tls_certificates : list TlsCertificate; context_rest : T }.

(** The options of a request, and of the output of a response: the context of the
    target, the one of the tunnel, and the rest. *)
Record LoggedOptions : Type := mkLoggedOptions {
  tls_context : option UpstreamTlsContext;
  tunnel_tls_context : option UpstreamTlsContext;
  options_rest : O;
}.

(** A request or a response: its options if it has any, and the rest. *)
Record LoggedMessage : Type := mkLogged { logged_options : option LoggedOptions; logged_rest : B }.



(** ** Redaction *)

(** The size of an inline key; a key in a file has none here. *)
Definition key_size (key : DataSource) : nat :=
  match key with InlineBytes s => String.length s | InlineString s => String.length s | _ => 0 end.

Definition redact_certificate (c : TlsCertificate) : TlsCertificate :=
  match private_key c with
  | None => c
  | Some key =>
      if (0 <? key_size key)%nat
      then mkCertificate (Some (InlineString ("<redacted: " +:+ print_size (key_size key) +:+ " bytes>"))) (certificate_rest c)
      else c
  end.

Definition redactPrivateKeys (context : UpstreamTlsContext) : UpstreamTlsContext :=
  mkTlsContext (redact_certificate <$> tls_certificates context) (context_rest context).

Definition redactedForLog (m : LoggedMessage) : LoggedMessage :=
  match logged_options m with
  | Some o =>
      match tls_context o with
      | Some context =>
          mkLogged (Some (mkLoggedOptions (Some (redactPrivateKeys context)) (tunnel_tls_context o) (options_rest o)))
            (logged_rest m)
      | None => m
      end
  | None => m
  end.



(** ** Theorems *)

(** Two keys a log must not tell apart: the same, or inline with the same size. *)
Definition key_alike (k1 k2 : option DataSource) : Prop :=
  k1 = k2 \/ exists d1 d2, k1 = Some d1 /\ k2 = Some d2 /\ key_size d1 = key_size d2 /\ (0 < key_size d1)%nat.


#[export] Instance key_alike_refl : Reflexive key_alike.
Proof. intros k. by left. Qed.




(** The keys of the tunnel's context are not redacted: two requests that
    differ only in an inline private key of that context are logged
    differently, whatever the size of the key. *)
Lemma tunnel_keys_are_logged o1 o2 rest :
  tunnel_tls_context o1 <> tunnel_tls_context o2 ->
  redactedForLog (mkLogged (Some o1) rest) <> redactedForLog (mkLogged (Some o2) rest).
Proof.
  intros Hne E. apply Hne. unfold redactedForLog in E. cbn in E.
  destruct (tls_context o1), (tls_context o2); injection E; intros; subst; cbn in *; congruence.
Qed.

End Messages.

(** ** Executions *)

Definition demo_key_context (key : string) : UpstreamTlsContext (C := unit) (T := unit) :=
  mkTlsContext [mkCertificate (Some (InlineString key)) tt; mkCertificate (Some (Filename "key.pem")) tt] tt.

Definition demo_size (n : nat) : string := pretty (N.of_nat n).


Lemma tunnel_keys_are_logged_witness :
  redactedForLog (O := unit) (B := unit) demo_size (mkLogged (Some (mkLoggedOptions None (Some (demo_key_context "abc")) tt)) tt) <>
  redactedForLog demo_size (mkLogged (Some (mkLoggedOptions None (Some (demo_key_context "xyz")) tt)) tt).
Proof.
  by apply (tunnel_keys_are_logged demo_size (mkLoggedOptions None (Some (demo_key_context "abc")) tt)
              (mkLoggedOptions None (Some (demo_key_context "xyz")) tt) tt).
Defined.
