(* ===== verification/Options.v ===== *)
(** * Options

    Models [engine/source/client/options_impl.{h,cc}]: the members of
    [OptionsImpl] with their defaults, the message they are exchanged in
    ([CommandLineOptions] of [engine/api/client/options.proto]), the validation
    both constructors end with, and the conversion to the message. The two
    constructors are in OptionsCommandLine.v and OptionsMessages.v.

    A member [x_] of the class is the field [o_x], a field [x] of the message is
    [m_x], a member of a [oneof] is a constructor. Messages of Envoy's API are
    carried and never looked into, so they are values of one type. The JSON
    loader, the generated message validation, [TimeUtil] and the enumerators of
    Envoy's [RequestMethod] are arguments. *)

From stdpp Require Import gmap strings.
From S2P Require Import Prelude Text Uri Statistic BenchmarkClient.

(** ** Enumerations

    An enumeration of a proto3 message is open: a value without a name is kept. *)

Inductive ProtocolOptions : Type := HTTP1 | HTTP2 | HTTP3 | ProtocolUnrecognized (value : Z).

Inductive GrpcModeOptions : Type := GRPC_NONE | GRPC_UNARY | GRPC_BIDI_STREAM | GrpcModeUnrecognized (value : Z).

Inductive VerbosityOptions : Type :=
| VERBOSITY_DEFAULT | VERBOSITY_INFO | VERBOSITY_TRACE | VERBOSITY_DEBUG | VERBOSITY_WARN | VERBOSITY_ERROR
| VERBOSITY_CRITICAL | VerbosityUnrecognized (value : Z).

Inductive OutputFormatOptions : Type :=
| FORMAT_DEFAULT | FORMAT_JSON | FORMAT_HUMAN | FORMAT_YAML | FORMAT_DOTTED | FORMAT_FORTIO
| FORMAT_EXPERIMENTAL_FORTIO_PEDANTIC | FORMAT_CSV | FORMAT_PROMETHEUS | FormatUnrecognized (value : Z).

Inductive AddressFamilyOptions : Type := FAMILY_AUTO | FAMILY_V4 | FAMILY_V6 | FamilyUnrecognized (value : Z).

Inductive SequencerIdleStrategyOptions : Type :=
| IDLE_DEFAULT | IDLE_SPIN | IDLE_POLL | IDLE_SLEEP | IDLE_WAIT | IdleUnrecognized (value : Z).

Inductive H1ConnectionReuseStrategyOptions : Type := REUSE_DEFAULT | REUSE_MRU | REUSE_LRU | ReuseUnrecognized (value : Z).

#[export] Instance ProtocolOptions_eq_dec : EqDecision ProtocolOptions.
Proof. solve_decision. Defined.

#[export] Instance GrpcModeOptions_eq_dec : EqDecision GrpcModeOptions.
Proof. solve_decision. Defined.

#[export] Instance VerbosityOptions_eq_dec : EqDecision VerbosityOptions.
Proof. solve_decision. Defined.

#[export] Instance OutputFormatOptions_eq_dec : EqDecision OutputFormatOptions.
Proof. solve_decision. Defined.

#[export] Instance AddressFamilyOptions_eq_dec : EqDecision AddressFamilyOptions.
Proof. solve_decision. Defined.

#[export] Instance SequencerIdleStrategyOptions_eq_dec : EqDecision SequencerIdleStrategyOptions.
Proof. solve_decision. Defined.

#[export] Instance H1ConnectionReuseStrategyOptions_eq_dec : EqDecision H1ConnectionReuseStrategyOptions.
Proof. solve_decision. Defined.

(** ** What the options rely on *)

Inductive MessageType : Type :=
| Http3ProtocolOptions | UpstreamTlsContext | BindConfig | TransportSocket | TypedExtensionConfig | StatsSinkConfig.

(** Messages of Envoy's API: the default instance, [MergeFrom],
    [ByteSizeLong], and [MessageUtil::loadFromJson] into a default instance,
    which throws with a message. *)
Class Messages : Type := {
  message : Type;
  empty_message : message;
  MergeFrom : message -> message -> message;
  ByteSizeLong : message -> Z;
  loadFromJson : MessageType -> string -> message + string;
}.

(** A merge into a default instance is a copy, and only a default instance
    takes no bytes. *)
Class MessagesLaws `{Messages} : Prop := {
  merge_empty m : MergeFrom empty_message m = m;
  size_zero m : ByteSizeLong m <= 0 -> m = empty_message;
}.

(** [Protobuf::util::TimeUtil]. *)
Class TimeUtil : Type := {
  Duration_FromString : string -> option Duration;
  DurationToNanoseconds : Duration -> Z;
  DurationToMicroseconds : Duration -> Z;
  NanosecondsToDuration : Z -> Duration;
  NanosecondsToTimestamp : Z -> Duration;
}.

Class TimeUtilLaws `{TimeUtil} : Prop := {
  nanoseconds_range d : in_i64 (DurationToNanoseconds d);
  nanoseconds_zero : DurationToNanoseconds (mkDuration 0 0) = 0;
  microseconds_documented d : 0 <= seconds d < 2 ^ 40 -> 0 <= nanos d < 1000000000 ->
    DurationToMicroseconds d = seconds d * 1000000 + nanos d / 1000;
  duration_nanoseconds n : in_i64 n -> DurationToNanoseconds (NanosecondsToDuration n) = n;
  timestamp_nanoseconds n : in_i64 n -> seconds (NanosecondsToTimestamp n) = n / 1000000000 /\
    nanos (NanosecondsToTimestamp n) = n mod 1000000000;
}.

(** [envoy::config::core::v3::RequestMethod]. *)
Class RequestMethods : Type := {
  METHOD_UNSPECIFIED : Z;
  METHOD_GET : Z;
  METHOD_POST : Z;
  RequestMethod_Parse : string -> option Z;
}.

Class RequestMethodsLaws `{RequestMethods} : Prop := {
  get_specified : METHOD_GET <> METHOD_UNSPECIFIED;
  post_specified : METHOD_POST <> METHOD_UNSPECIFIED;
  get_not_post : METHOD_GET <> METHOD_POST;
}.

(** Nanoseconds in a tick of [std::chrono::system_clock], which the standard
    leaves to the library. *)
Class SystemClock : Type := { tick_ns : Z }.

(** ** The message *)

Section Data.
Context `{Messages}.

Record TunnelOptions : Type := mkTunnelOptions {
  m_tunnel_uri : string;
  m_tunnel_protocol : option ProtocolOptions;
  m_tunnel_tls_context : message;
}.

Record GrpcStreamOptions : Type := mkGrpcStreamOptions {
  m_gs_streams : option Z;
  m_gs_max_inflight_per_stream : option Z;
  m_gs_drain_duration : option Duration;
}.

Record WebSocketOptions : Type := mkWebSocketOptions {
  m_ws_streams : option Z;
  m_ws_max_inflight_per_stream : option Z;
  m_ws_drain_duration : option Duration;
  m_ws_binary : option bool;
}.

Record TcpOptions : Type := mkTcpOptions {
  m_tcp_connections : option Z;
  m_tcp_max_inflight_per_connection : option Z;
  m_tcp_expect_echo : option bool;
  m_tcp_drain_duration : option Duration;
  m_tcp_max_messages_per_connection : option Z;
}.

Record UdpOptions : Type := mkUdpOptions {
  m_udp_max_inflight : option Z;
  m_udp_timeout : option Duration;
}.

Record Endpoint : Type := mkEndpoint {
  endpoint_address : option string;
  endpoint_port : option Z;
}.

Record MultiTarget : Type := mkMultiTarget {
  m_use_https : option bool;
  m_endpoints : list Endpoint;
  m_path : option string;
}.

Record HeaderValueOption : Type := mkHeaderValueOption {
  header_key : string;
  header_value : string;
  header_append : option bool;
}.

Record RequestOptionsMessage : Type := mkRequestOptionsMessage {
  m_request_method : Z;
  m_request_headers : list HeaderValueOption;
  m_request_body_size : option Z;
  m_request_body : string;
}.

Inductive oneof_duration_options : Type :=
| DurationOptionsNotSet | DurationCase (d : Duration) | NoDurationCase (b : bool).

Inductive oneof_protocol : Type := ProtocolNotSet | H2Case (b : bool) | ProtocolCase (p : ProtocolOptions).

Inductive oneof_request_options : Type :=
| RequestOptionsNotSet
| RequestOptionsCase (r : RequestOptionsMessage)
| RequestSourceCase (uri : string)
| RequestSourcePluginCase (config : message).

Inductive oneof_uri : Type := UriNotSet | UriCase (uri : string) | MultiTargetCase (t : MultiTarget).

Inductive oneof_stats_flush_interval : Type :=
| StatsFlushNotSet | StatsFlushIntervalCase (seconds : Z) | StatsFlushDurationCase (d : Duration).

Record OptionsMessage : Type := mkOptionsMessage {
  m_requests_per_second : option Z;
  m_connections : option Z;
  m_duration_options : oneof_duration_options;
  m_timeout : option Duration;
  m_protocol : oneof_protocol;
  m_tunnel_options : option TunnelOptions;
  m_grpc_mode : option GrpcModeOptions;
  m_grpc_stream : option GrpcStreamOptions;
  m_websocket : option WebSocketOptions;
  m_tcp : option TcpOptions;
  m_udp : option UdpOptions;
  m_http3_protocol_options : option message;
  m_concurrency : option string;
  m_verbosity : option VerbosityOptions;
  m_output_format : option OutputFormatOptions;
  m_prefetch_connections : option bool;
  m_burst_size : option Z;
  m_address_family : option AddressFamilyOptions;
  m_request : oneof_request_options;
  m_tls_context : option message;
  m_max_pending_requests : option Z;
  m_max_active_requests : option Z;
  m_max_requests_per_connection : option Z;
  m_sequencer_idle_strategy : option SequencerIdleStrategyOptions;
  m_uri : oneof_uri;
  m_trace : option string;
  m_h1_connection_reuse_strategy : option H1ConnectionReuseStrategyOptions;
  m_termination_predicates : gmap string Z;
  m_failure_predicates : gmap string Z;
  m_no_default_failure_predicates : option bool;
  m_open_loop : option bool;
  m_jitter_uniform : option Duration;
  m_nighthawk_service : option string;
  m_h2_use_multiple_connections : option bool;
  m_max_concurrent_streams : option Z;
  m_labels : list string;
  m_upstream_bind_config : option message;
  m_transport_socket : option message;
  m_simple_warmup : option bool;
  m_stats_sinks : list message;
  m_stats_flush : oneof_stats_flush_interval;
  m_latency_response_header_name : option string;
  m_scheduled_start : option Duration;
  m_execution_id : option string;
  m_user_defined_plugin_configs : list message;
  m_rate_limiter_plugin_config : option message;
}.

(** ** The members of the class *)

Record OptionsImpl : Type := mkOptionsImpl {
  o_requests_per_second : Z;
  o_connections : Z;
  o_duration : Z;
  o_timeout : Z;
  o_uri : option string;
  o_h2 : bool;
  o_protocol : ProtocolOptions;
  o_http3_protocol_options : option message;
  o_concurrency : string;
  o_tunnel_protocol : ProtocolOptions;
  o_tunnel_uri : string;
  o_encap_port : Z;
  o_tunnel_tls_context : option message;
  o_verbosity : VerbosityOptions;
  o_output_format : OutputFormatOptions;
  o_prefetch_connections : bool;
  o_burst_size : Z;
  o_address_family : AddressFamilyOptions;
  o_request_method : Z;
  o_request_headers : list string;
  o_request_body_size : Z;
  o_request_body : string;
  o_grpc_mode : GrpcModeOptions;
  o_websocket : bool;
  o_websocket_binary : bool;
  o_tcp : bool;
  o_tcp_connections : Z;
  o_tcp_max_inflight : Z;
  o_tcp_expect_echo : bool;
  o_tcp_max_messages : Z;
  o_udp : bool;
  o_udp_max_inflight : Z;
  o_udp_timeout : Z;
  o_streams : Z;
  o_max_inflight_per_stream : Z;
  o_stream_drain_duration : Z;
  o_tls_context : message;
  o_upstream_bind_config : option message;
  o_transport_socket : option message;
  o_request_source_plugin_config : option message;
  o_rate_limiter_plugin_config : option message;
  o_max_pending_requests : Z;
  o_max_active_requests : Z;
  o_max_requests_per_connection : Z;
  o_max_concurrent_streams : Z;
  o_sequencer_idle_strategy : SequencerIdleStrategyOptions;
  o_request_source : string;
  o_trace : string;
  o_h1_connection_reuse_strategy : H1ConnectionReuseStrategyOptions;
  o_termination_predicates : gmap string Z;
  o_failure_predicates : gmap string Z;
  o_no_default_failure_predicates : bool;
  o_open_loop : bool;
  o_jitter_uniform : Z;
  o_nighthawk_service : string;
  o_h2_use_multiple_connections : bool;
  o_multi_target_endpoints : list Endpoint;
  o_multi_target_path : string;
  o_multi_target_use_https : bool;
  o_labels : list string;
  o_simple_warmup : bool;
  o_no_duration : bool;
  o_stats_sinks : list message;
  o_stats_flush_interval : Z;
  o_stats_flush_interval_duration : Duration;
  o_latency_response_header_name : string;
  o_scheduled_start : option Z;
  o_execution_id : option string;
  o_user_defined_output_plugin_configs : list message;
}.

End Data.

(** ** Defaults *)

Definition largest_acceptable_uint32_option_value : Z := UINT32_MAX - 30000.

Definition largest_acceptable_concurrent_streams_value : Z := 2147483647.

(** The concurrency, the failure predicates and the jitter. *)
Definition setNonTrivialDefaults : string * gmap string Z * Z :=
  ("1"%string,
   <["requestsource.upstream_rq_5xx" := 0]>
     (<["benchmark.stream_resets" := 0]>
        (<["benchmark.pool_connection_failure" := 0]>
           (<["benchmark.http_5xx" := 0]> (<["benchmark.http_4xx" := 0]> ∅)))),
   0).

Section Operations.
Context `{Messages} `{TimeUtil} `{RequestMethods} `{SystemClock}.

(** The members as the class initialises them, and [setNonTrivialDefaults()]. *)
Definition default_options : OptionsImpl := {|
  o_requests_per_second := 5;
  o_connections := 100;
  o_duration := 5;
  o_timeout := 30;
  o_uri := None;
  o_h2 := false;
  o_protocol := HTTP1;
  o_http3_protocol_options := None;
  o_concurrency := setNonTrivialDefaults.1.1;
  o_tunnel_protocol := HTTP1;
  o_tunnel_uri := EmptyString;
  o_encap_port := 0;
  o_tunnel_tls_context := None;
  o_verbosity := VERBOSITY_WARN;
  o_output_format := FORMAT_JSON;
  o_prefetch_connections := false;
  o_burst_size := 0;
  o_address_family := FAMILY_AUTO;
  o_request_method := METHOD_GET;
  o_request_headers := [];
  o_request_body_size := 0;
  o_request_body := EmptyString;
  o_grpc_mode := GRPC_NONE;
  o_websocket := false;
  o_websocket_binary := false;
  o_tcp := false;
  o_tcp_connections := 1;
  o_tcp_max_inflight := 256;
  o_tcp_expect_echo := true;
  o_tcp_max_messages := 0;
  o_udp := false;
  o_udp_max_inflight := 256;
  o_udp_timeout := 1000000000;
  o_streams := 20;
  o_max_inflight_per_stream := 256;
  o_stream_drain_duration := 500000000;
  o_tls_context := empty_message;
  o_upstream_bind_config := None;
  o_transport_socket := None;
  o_request_source_plugin_config := None;
  o_rate_limiter_plugin_config := None;
  o_max_pending_requests := 0;
  o_max_active_requests := 100;
  o_max_requests_per_connection := largest_acceptable_uint32_option_value;
  o_max_concurrent_streams := largest_acceptable_concurrent_streams_value;
  o_sequencer_idle_strategy := IDLE_SPIN;
  o_request_source := EmptyString;
  o_trace := EmptyString;
  o_h1_connection_reuse_strategy := REUSE_MRU;
  o_termination_predicates := ∅;
  o_failure_predicates := setNonTrivialDefaults.1.2;
  o_no_default_failure_predicates := false;
  o_open_loop := false;
  o_jitter_uniform := setNonTrivialDefaults.2;
  o_nighthawk_service := EmptyString;
  o_h2_use_multiple_connections := false;
  o_multi_target_endpoints := [];
  o_multi_target_path := EmptyString;
  o_multi_target_use_https := false;
  o_labels := [];
  o_simple_warmup := false;
  o_no_duration := false;
  o_stats_sinks := [];
  o_stats_flush_interval := 5;
  o_stats_flush_interval_duration := mkDuration 0 0;
  o_latency_response_header_name := EmptyString;
  o_scheduled_start := None;
  o_execution_id := None;
  o_user_defined_output_plugin_configs := [];
|}.

(** ** Modes *)

Definition isTcpUri `{AbslStrings} `{AbslMatch} (uri : string) : bool :=
  let lower := AsciiStrToLower uri in
  StartsWith lower "tcp://" || StartsWith lower "tcps://".

Definition isUdpUri `{AbslStrings} `{AbslMatch} (uri : string) : bool :=
  StartsWith (AsciiStrToLower uri) "udp://".

Definition grpcEnabled (mode : GrpcModeOptions) : bool := bool_decide (mode <> GRPC_NONE).

Definition grpcStreamEnabled (mode : GrpcModeOptions) : bool := bool_decide (mode = GRPC_BIDI_STREAM).

(** Either kind of long-lived stream. *)
Definition streamModeEnabled (mode : GrpcModeOptions) (websocket : bool) : bool :=
  grpcStreamEnabled mode || websocket.

(** [max_pending_requests_] after [raisePendingRequestsForStreams()]. *)
Definition raisePendingRequestsForStreams (mode : GrpcModeOptions) (websocket : bool) (concurrency : string)
    (streams max_pending_requests : Z) : Z :=
  if negb (streamModeEnabled mode websocket) then max_pending_requests
  else
    let parsed_concurrency :=
      if (concurrency =? "auto")%string then 1
      else match stoi concurrency with Some c => Z.max 1 c | None => 1 end in
    let streams_per_worker := Z.max 1 (streams / parsed_concurrency) in
    if max_pending_requests <? streams_per_worker then streams_per_worker else max_pending_requests.

(** [protocol()] and [tunnelProtocol()]: Envoy's protocol. *)
Definition OptionsImpl_protocol (o : OptionsImpl) : Protocol :=
  if o_h2 o || bool_decide (o_protocol o = HTTP2) then Http2
  else if bool_decide (o_protocol o = HTTP3) then Http3
  else Http11.

Definition OptionsImpl_tunnelProtocol (o : OptionsImpl) : Protocol :=
  if bool_decide (o_tunnel_protocol o = HTTP2) then Http2
  else if bool_decide (o_tunnel_protocol o = HTTP3) then Http3
  else Http11.

(** ** The conversion to the message *)

(** A header is split at the first colon that is not its first character. *)
Definition header_message `{AbslMatch} (header : string) : outcome HeaderValueOption :=
  let pos := if (header =? EmptyString)%string then None else find_from ":"%char (Some 1%nat) header in
  match pos with
  | Some pos =>
      Ok (mkHeaderValueOption (StripAsciiWhitespace (stake pos header))
            (StripAsciiWhitespace (sdrop (S pos) header)) (Some false))
  | None => Throw (MalformedArgvException "A ':' is required in a header.")
  end.

Fixpoint header_messages `{AbslMatch} (headers : list string) : outcome (list HeaderValueOption) :=
  match headers with
  | [] => Ok []
  | h :: headers => let* m := header_message h in let* ms := header_messages headers in Ok (m :: ms)
  end.

(** The member of [oneof_request_options] that is set. *)
Definition request_message `{AbslMatch} (o : OptionsImpl) : outcome oneof_request_options :=
  if negb (o_request_source o =? EmptyString)%string then Ok (RequestSourceCase (o_request_source o))
  else match o_request_source_plugin_config o with
       | Some config => Ok (RequestSourcePluginCase config)
       | None =>
           let* headers := header_messages (o_request_headers o) in
           Ok (RequestOptionsCase
                 (mkRequestOptionsMessage (o_request_method o) headers (Some (o_request_body_size o))
                    (if (o_request_body o =? EmptyString)%string then EmptyString else o_request_body o)))
       end.

Definition uri_message (o : OptionsImpl) : oneof_uri :=
  match o_uri o with
  | Some uri => UriCase uri
  | None =>
      MultiTargetCase
        (mkMultiTarget (Some (o_multi_target_use_https o))
           ((fun e => mkEndpoint (Some (default EmptyString (endpoint_address e))) (Some (default 0 (endpoint_port e))))
              <$> o_multi_target_endpoints o)
           (Some (o_multi_target_path o)))
  end.

(** The messages of the kinds of load that are not requests. *)
Definition stream_messages (o : OptionsImpl) :
    option GrpcStreamOptions * option UdpOptions * option TcpOptions * option WebSocketOptions :=
  let drain := NanosecondsToDuration (o_stream_drain_duration o) in
  ((if grpcStreamEnabled (o_grpc_mode o)
    then Some (mkGrpcStreamOptions (Some (o_streams o)) (Some (o_max_inflight_per_stream o)) (Some drain)) else None),
   (if o_udp o then Some (mkUdpOptions (Some (o_udp_max_inflight o)) (Some (NanosecondsToDuration (o_udp_timeout o))))
    else None),
   (if o_tcp o
    then Some (mkTcpOptions (Some (o_tcp_connections o)) (Some (o_tcp_max_inflight o)) (Some (o_tcp_expect_echo o))
                 (Some drain) (Some (o_tcp_max_messages o)))
    else None),
   (if o_websocket o
    then Some (mkWebSocketOptions (Some (o_streams o)) (Some (o_max_inflight_per_stream o)) (Some drain)
                 (Some (o_websocket_binary o)))
    else None)).

(** [map.insert] of every entry, into an empty map. *)
Definition predicates_message (predicates : gmap string Z) : gmap string Z :=
  map_fold (fun k v m => if decide (m !! k = None) then <[k := v]> m else m) ∅ predicates.

Definition stats_flush_message (o : OptionsImpl) : oneof_stats_flush_interval :=
  if (0 <? seconds (o_stats_flush_interval_duration o)) || (0 <? nanos (o_stats_flush_interval_duration o))
  then StatsFlushDurationCase (o_stats_flush_interval_duration o)
  else StatsFlushIntervalCase (o_stats_flush_interval o).

Definition toCommandLineOptionsInternal `{AbslMatch} (o : OptionsImpl) : outcome OptionsMessage :=
  let '(grpc_stream, udp, tcp, websocket) := stream_messages o in
  let* request := request_message o in
  Ok {|
    m_connections := Some (o_connections o);
    m_duration_options := if negb (o_no_duration o) then DurationCase (mkDuration (o_duration o) 0)
                          else NoDurationCase (o_no_duration o);
    m_requests_per_second := Some (o_requests_per_second o);
    m_timeout := Some (mkDuration (o_timeout o) 0);
    m_protocol := if o_h2 o then H2Case (o_h2 o) else ProtocolCase (o_protocol o);
    m_http3_protocol_options := o_http3_protocol_options o;
    m_uri := uri_message o;
    m_concurrency := Some (o_concurrency o);
    m_verbosity := Some (o_verbosity o);
    m_output_format := Some (o_output_format o);
    m_prefetch_connections := Some (o_prefetch_connections o);
    m_burst_size := Some (o_burst_size o);
    m_address_family := Some (o_address_family o);
    m_request := request;
    m_tunnel_options := None;
    m_grpc_mode := if grpcEnabled (o_grpc_mode o) then Some (o_grpc_mode o) else None;
    m_grpc_stream := grpc_stream;
    m_udp := udp;
    m_tcp := tcp;
    m_websocket := websocket;
    m_rate_limiter_plugin_config := o_rate_limiter_plugin_config o;
    m_tls_context := if 0 <? ByteSizeLong (o_tls_context o) then Some (o_tls_context o) else None;
    m_upstream_bind_config := o_upstream_bind_config o;
    m_transport_socket := o_transport_socket o;
    m_max_pending_requests := Some (o_max_pending_requests o);
    m_max_active_requests := Some (o_max_active_requests o);
    m_max_requests_per_connection := Some (o_max_requests_per_connection o);
    m_max_concurrent_streams := Some (o_max_concurrent_streams o);
    m_sequencer_idle_strategy := Some (o_sequencer_idle_strategy o);
    m_trace := Some (o_trace o);
    m_h1_connection_reuse_strategy := Some (o_h1_connection_reuse_strategy o);
    m_termination_predicates := predicates_message (o_termination_predicates o);
    m_failure_predicates := predicates_message (o_failure_predicates o);
    m_no_default_failure_predicates := Some (o_no_default_failure_predicates o);
    m_open_loop := Some (o_open_loop o);
    m_jitter_uniform := if 0 <? o_jitter_uniform o then Some (NanosecondsToDuration (o_jitter_uniform o)) else None;
    m_nighthawk_service := Some (o_nighthawk_service o);
    m_h2_use_multiple_connections := None;
    m_labels := o_labels o;
    m_simple_warmup := Some (o_simple_warmup o);
    m_stats_sinks := o_stats_sinks o;
    m_stats_flush := stats_flush_message o;
    m_latency_response_header_name := Some (o_latency_response_header_name o);
    m_scheduled_start := NanosecondsToTimestamp <$> o_scheduled_start o;
    m_execution_id := o_execution_id o;
    m_user_defined_plugin_configs := o_user_defined_output_plugin_configs o;
  |}.

(** ** Validation *)

(** [if (condition) throw MalformedArgvException(what)]. *)
Definition refuse (condition : bool) (what : string) : outcome unit :=
  if condition then Throw (MalformedArgvException what) else Ok tt.

(** Whether [std::stoi] finds no digit, and so throws [std::invalid_argument]
    rather than [std::out_of_range]. *)
Definition stoi_no_digit (s : string) : bool :=
  let s := strip_leading s in
  let s := match s with
           | String c t => if Ascii.eqb c "-"%char || Ascii.eqb c "+"%char then t else s
           | EmptyString => s
           end in
  negb (leading_digits 0 s).2.

Definition validate_grpc (o : OptionsImpl) : outcome unit :=
  if grpcEnabled (o_grpc_mode o) then
    (if o_h2 o then Ok tt else refuse (bool_decide (o_protocol o <> HTTP2)) "--grpc-mode requires --protocol http2") ;;;
    refuse (negb (o_request_method o =? METHOD_POST)) "--grpc-mode requires --request-method POST" ;;;
    refuse (negb (o_request_source o =? EmptyString)%string)
      "--grpc-mode is not supported together with --request-source"
  else Ok tt.

Definition validate_websocket (o : OptionsImpl) : outcome unit :=
  if o_websocket o then
    refuse (grpcEnabled (o_grpc_mode o)) "--websocket and --grpc-mode are mutually exclusive" ;;;
    refuse (bool_decide (o_protocol o <> HTTP1))
      ("--websocket requires HTTP/1.1 (the upgrade is an HTTP/1.1 " +:+ "request); leave --protocol unset") ;;;
    refuse (negb (o_request_method o =? METHOD_GET))
      ("--websocket requires --request-method GET (the upgrade " +:+ "request); leave it unset")
  else Ok tt.

(** The divisions and remainders are on [uint32_t], by a positive [int]. *)
Definition validate_streams `{UriEnv} (o : OptionsImpl) : outcome unit :=
  if streamModeEnabled (o_grpc_mode o) (o_websocket o) then
    let mode := if o_websocket o then "--websocket"%string else "--grpc-mode bidi-stream"%string in
    let parsed_concurrency :=
      if (o_concurrency o =? "auto")%string then 0 else default 0 (stoi (o_concurrency o)) in
    refuse (parsed_concurrency <=? 0)
      (mode +:+ " requires a numeric --concurrency (streams and rps are divided over the workers)") ;;;
    refuse (o_websocket o && (o_connections o <? o_streams o / Z.max parsed_concurrency 1))
      ("--websocket: every stream is a connection, so --connections (" +:+ fmt_u64 (o_connections o) +:+
       ") must be at least the streams per worker (" +:+ fmt_u64 (o_streams o / parsed_concurrency) +:+ ")") ;;;
    refuse ((o_streams o =? 0) || negb (o_streams o mod parsed_concurrency =? 0))
      "--streams must be a positive multiple of --concurrency" ;;;
    refuse (negb (o_requests_per_second o mod parsed_concurrency =? 0))
      ("--rps (aggregate message rate in " +:+ mode +:+ ") must be a multiple of --concurrency") ;;;
    refuse (o_max_inflight_per_stream o =? 0) "--max-inflight-per-stream must be greater than 0" ;;;
    refuse (o_max_active_requests o <? o_streams o / parsed_concurrency)
      ("--max-active-requests (" +:+ fmt_u64 (o_max_active_requests o) +:+
       ") must be at least the number of streams per worker (" +:+ fmt_u64 (o_streams o / parsed_concurrency) +:+ ")") ;;;
    refuse (bool_decide (is_Some (o_request_source_plugin_config o)))
      (mode +:+ " is not supported together with --request-source-plugin-config") ;;;
    refuse (negb (Nat.eqb (length (o_user_defined_output_plugin_configs o)) 0))
      (mode +:+ " is not supported together with --user-defined-plugin-config") ;;;
    refuse (o_simple_warmup o) (mode +:+ " is not supported together with --simple-warmup")
  else Ok tt.

(** ["auto"] or a positive number. *)
Definition validate_concurrency (o : OptionsImpl) : outcome unit :=
  if (o_concurrency o =? "auto")%string then Ok tt
  else match stoi (o_concurrency o) with
       | None =>
           if stoi_no_digit (o_concurrency o) then Throw (MalformedArgvException "Invalid value for --concurrency")
           else Throw (MalformedArgvException "Value out of range: --concurrency")
       | Some parsed_concurrency =>
           refuse (parsed_concurrency <=? 0) "Value for --concurrency should be greater then 0."
       end.

(** A [UriException] is replaced; what else may happen passes through. *)
Definition parse_uri_or `{UriEnv} `{AbslStrings} (uri default_scheme what : string) : outcome UriImpl :=
  match UriImpl_new uri default_scheme with
  | Throw (UriException _) => Throw (MalformedArgvException what)
  | r => r
  end.

Definition validate_request_source `{UriEnv} `{AbslStrings} (o : OptionsImpl) : outcome unit :=
  if negb (o_request_source o =? EmptyString)%string then
    let* uri := parse_uri_or (o_request_source o) "grpc" "Invalid replay source URI" in
    refuse (negb (scheme_ uri =? "grpc")%string) "Invalid replay source URI"
  else Ok tt.

(** What raw load cannot be combined with. *)
Definition has_other_requests (o : OptionsImpl) : bool :=
  negb (o_request_source o =? EmptyString)%string || bool_decide (is_Some (o_request_source_plugin_config o)) ||
  negb (Nat.eqb (length (o_user_defined_output_plugin_configs o)) 0) || o_simple_warmup o.

Definition no_body (o : OptionsImpl) : bool := (o_request_body o =? EmptyString)%string && (o_request_body_size o =? 0).

Definition validate_udp (o : OptionsImpl) : outcome unit :=
  if o_udp o then
    refuse (grpcEnabled (o_grpc_mode o) || o_websocket o)
      "a udp:// URI (UDP load) cannot be combined with --grpc-mode or --websocket" ;;;
    refuse (negb (Nat.eqb (length (o_request_headers o)) 0) || negb (o_request_method o =? METHOD_GET))
      ("a udp:// URI (UDP load) takes no --request-header or " +:+
       "--request-method: the request body is the datagram") ;;;
    refuse (no_body o)
      ("a udp:// URI needs a --request-body-file or " +:+ "--request-body-size: the datagram is what gets echoed") ;;;
    refuse (bool_decide (is_Some (o_transport_socket o)) || (0 <? ByteSizeLong (o_tls_context o)))
      ("a udp:// URI (UDP load) takes no --transport-socket or " +:+ "--tls-context: datagrams go unencrypted") ;;;
    refuse ((o_udp_max_inflight o =? 0) || (o_udp_timeout o <=? 0))
      "--udp-max-inflight and --udp-timeout must be positive" ;;;
    refuse (has_other_requests o)
      ("a udp:// URI (UDP load) is not supported together with " +:+
       "--request-source, --request-source-plugin-config, " +:+ "--user-defined-plugin-config or --simple-warmup")
  else Ok tt.

Definition validate_tcp (o : OptionsImpl) : outcome unit :=
  if o_tcp o then
    refuse (grpcEnabled (o_grpc_mode o) || o_websocket o)
      "a tcp:// URI (raw TCP load) cannot be combined with --grpc-mode or --websocket" ;;;
    refuse (negb (Nat.eqb (length (o_request_headers o)) 0) || negb (o_request_method o =? METHOD_GET))
      ("a tcp:// URI (raw TCP load) takes no --request-header or --request-method: the " +:+
       "request body is the message, there is no HTTP") ;;;
    refuse (o_tcp_expect_echo o && no_body o)
      ("a tcp:// URI needs a --request-body-file or --request-body-size: the message is " +:+
       "what gets echoed and matched (or --tcp-no-echo, to only count writes)") ;;;
    refuse ((o_tcp_connections o =? 0) || (o_tcp_max_inflight o =? 0))
      "--tcp-connections and --tcp-max-inflight-per-connection must be greater than 0" ;;;
    refuse (has_other_requests o)
      ("a tcp:// URI (raw TCP load) is not supported together " +:+
       "with --request-source, --request-source-plugin-config, " +:+ "--user-defined-plugin-config or --simple-warmup")
  else Ok tt.

(** The target: a URI, or endpoints and a path. *)
Definition validate_target `{UriEnv} `{AbslStrings} (o : OptionsImpl) : outcome unit :=
  match o_uri o with
  | Some uri =>
      let* _ := parse_uri_or uri "http" "Invalid target URI: ''" in
      validate_udp o ;;;
      validate_tcp o ;;;
      refuse (negb (Nat.eqb (length (o_multi_target_endpoints o)) 0) ||
              negb (o_multi_target_path o =? EmptyString)%string || o_multi_target_use_https o)
        "URI and --multi-target-* options cannot both be specified."
  | None =>
      refuse (Nat.eqb (length (o_multi_target_endpoints o)) 0)
        "A URI or --multi-target-* options must be specified." ;;;
      refuse (o_multi_target_path o =? EmptyString)%string "--multi-target-path must be specified."
  end.

(** [MessageUtil::validate] of the message: the rules of [options.proto], as
    the code generated from them checks them. [None] is a valid message. *)
Definition OptionsImpl_validate `{AbslMatch} `{UriEnv} `{AbslStrings} (message_error : OptionsMessage -> option string)
    (o : OptionsImpl) : outcome unit :=
  refuse (negb (o_request_body o =? EmptyString)%string && (0 <? o_request_body_size o))
    "--request-body-file and --request-body-size are mutually exclusive" ;;;
  validate_grpc o ;;;
  validate_websocket o ;;;
  validate_streams o ;;;
  refuse (o_h2_use_multiple_connections o)
    ("The experimental_h2_use_multiple_connections option is deprecated, set " +:+
     "max_concurrent_streams to one instead.") ;;;
  validate_concurrency o ;;;
  validate_request_source o ;;;
  validate_target o ;;;
  let* m := toCommandLineOptionsInternal o in
  match message_error m with
  | Some what => Throw (MalformedArgvException what)
  | None => Ok tt
  end.

End Operations.
