(* ===== verification/OptionsMessages.v ===== *)
(** * Options from a message

    Models the constructor of [OptionsImpl] from [CommandLineOptions]
    ([engine/source/client/options_impl.cc]), which the service and the remote
    process use, and shows what options it makes and that [toCommandLineOptions]
    loses nothing of them.

    A free port ([Utility::GetAvailablePort]) and the generated message
    validation are arguments. *)

From stdpp Require Import gmap strings.
From S2P Require Import Prelude Text Uri Statistic BenchmarkClient Options.

Section Constructor.
Context `{Messages} `{TimeUtil} `{RequestMethods} `{SystemClock} `{AbslMatch} `{UriEnv} `{AbslStrings}.
Context (message_error : OptionsMessage -> option string).
Context (GetAvailablePort : bool -> AddressFamilyOptions -> outcome Z).

(** ** Parts of the message *)

(** [emplace] of a default instance and a merge into it. *)
Definition merged (m : option message) : option message := MergeFrom empty_message <$> m.

(** [DurationToNanoseconds] of a duration that is set, or the member as it was. *)
Definition nanoseconds_or (d : option Duration) (member : Z) : Z :=
  match d with Some d => DurationToNanoseconds d | None => member end.

Definition message_uri (m : OptionsMessage) : option string :=
  match m_uri m with UriCase uri => Some uri | _ => None end.

(** [options.multi_target()], a default instance when it is not set. *)
Definition message_multi_target (m : OptionsMessage) : MultiTarget :=
  match m_uri m with MultiTargetCase t => t | _ => mkMultiTarget None [] None end.

Definition message_h2 (m : OptionsMessage) : option bool :=
  match m_protocol m with H2Case b => Some b | _ => None end.

Definition message_protocol (m : OptionsMessage) : option ProtocolOptions :=
  match m_protocol m with ProtocolCase p => Some p | _ => None end.

(** [streams_], [max_inflight_per_stream_] and [stream_drain_duration_]: the
    stream, TCP and WebSocket options are read in this order into the same
    members. *)
Definition message_streams (m : OptionsMessage) : Z * Z * Z :=
  let d := default_options in
  let '(streams, inflight, drain) :=
    match m_grpc_stream m with
    | Some s => (default (o_streams d) (m_gs_streams s),
                 default (o_max_inflight_per_stream d) (m_gs_max_inflight_per_stream s),
                 nanoseconds_or (m_gs_drain_duration s) (o_stream_drain_duration d))
    | None => (o_streams d, o_max_inflight_per_stream d, o_stream_drain_duration d)
    end in
  let drain := match m_tcp m with Some t => nanoseconds_or (m_tcp_drain_duration t) drain | None => drain end in
  match m_websocket m with
  | Some w => (default streams (m_ws_streams w), default inflight (m_ws_max_inflight_per_stream w),
               nanoseconds_or (m_ws_drain_duration w) drain)
  | None => (streams, inflight, drain)
  end.

(** [tcp_connections_], [tcp_max_inflight_], [tcp_expect_echo_] and
    [tcp_max_messages_]. *)
Definition message_tcp (m : OptionsMessage) : Z * Z * bool * Z :=
  let d := default_options in
  match m_tcp m with
  | Some t => (default (o_tcp_connections d) (m_tcp_connections t),
               default (o_tcp_max_inflight d) (m_tcp_max_inflight_per_connection t),
               default (o_tcp_expect_echo d) (m_tcp_expect_echo t),
               default (o_tcp_max_messages d) (m_tcp_max_messages_per_connection t))
  | None => (o_tcp_connections d, o_tcp_max_inflight d, o_tcp_expect_echo d, o_tcp_max_messages d)
  end.

(** [udp_max_inflight_] and [udp_timeout_]. *)
Definition message_udp (m : OptionsMessage) : Z * Z :=
  let d := default_options in
  match m_udp m with
  | Some u => (default (o_udp_max_inflight d) (m_udp_max_inflight u), nanoseconds_or (m_udp_timeout u) (o_udp_timeout d))
  | None => (o_udp_max_inflight d, o_udp_timeout d)
  end.

(** [tunnel_protocol_], [tunnel_uri_] and [encap_port_]. The merge into
    [tunnel_tls_context_] is through an optional that holds no value here. *)
Definition message_tunnel (m : OptionsMessage) (protocol : ProtocolOptions) (family : AddressFamilyOptions) :
    outcome (ProtocolOptions * string * Z) :=
  match m_tunnel_options m with
  | None => Ok (o_tunnel_protocol default_options, o_tunnel_uri default_options, o_encap_port default_options)
  | Some t =>
      let* encap_port := GetAvailablePort (bool_decide (protocol = HTTP3)) family in
      match o_tunnel_tls_context default_options with
      | None => Undefined
      | Some _ => Ok (default HTTP1 (m_tunnel_protocol t), m_tunnel_uri t, encap_port)
      end
  end.

(** [request_headers_], [request_method_], [request_body_size_],
    [request_body_], [request_source_] and [request_source_plugin_config_]. *)
Definition message_request (m : OptionsMessage) (grpc : bool) :
    list string * Z * Z * string * string * option message :=
  let d := default_options in
  let unset_method := if grpc then METHOD_POST else o_request_method d in
  match m_request m with
  | RequestOptionsCase r =>
      ((fun h => header_key h +:+ ":" +:+ header_value h) <$> m_request_headers r,
       (if negb (m_request_method r =? METHOD_UNSPECIFIED) then m_request_method r else unset_method),
       default (o_request_body_size d) (m_request_body_size r), m_request_body r,
       o_request_source d, o_request_source_plugin_config d)
  | RequestSourceCase uri =>
      (o_request_headers d, unset_method, o_request_body_size d, o_request_body d, uri, o_request_source_plugin_config d)
  | RequestSourcePluginCase config =>
      (o_request_headers d, unset_method, o_request_body_size d, o_request_body d, o_request_source d,
       merged (Some config))
  | RequestOptionsNotSet =>
      (o_request_headers d, unset_method, o_request_body_size d, o_request_body d, o_request_source d,
       o_request_source_plugin_config d)
  end.

(** [rate_limiter_plugin_config_], which excludes a burst and a jitter. *)
Definition message_rate_limiter (m : OptionsMessage) : outcome (option message) :=
  match m_rate_limiter_plugin_config m with
  | None => Ok (o_rate_limiter_plugin_config default_options)
  | Some config =>
      refuse (match m_burst_size m with Some b => negb (b =? 0) | None => false end)
        "burst_size and rate_limiter_plugin_config are mutually exclusive" ;;;
      refuse (match m_jitter_uniform m with
              | Some j => negb (seconds j =? 0) || negb (nanos j =? 0)
              | None => false
              end)
        "jitter_uniform and rate_limiter_plugin_config are mutually exclusive" ;;;
      Ok (merged (Some config))
  end.

(** [predicates[first] = second] for every entry. *)
Definition set_predicates (entries predicates : gmap string Z) : gmap string Z :=
  map_fold (fun k v m => <[k := v]> m) predicates entries.

Definition message_failure_predicates (m : OptionsMessage) (no_default : bool) : gmap string Z :=
  let predicates := o_failure_predicates default_options in
  let predicates := if no_default || negb (bool_decide (m_failure_predicates m = ∅)) then ∅ else predicates in
  set_predicates (m_failure_predicates m) predicates.

(** The sum of seconds and nanoseconds overflows outside 64 bits; the time is
    rounded towards zero to microseconds, and kept in ticks of the clock. *)
Definition message_scheduled_start (m : OptionsMessage) : outcome (option Z) :=
  match m_scheduled_start m with
  | None => Ok None
  | Some t =>
      let ns := nanos t + seconds t * 1000000000 in
      if bool_decide (in_i64 (seconds t * 1000000000)) && bool_decide (in_i64 ns)
      then Ok (Some (Z.quot (Z.quot ns 1000 * 1000) tick_ns)) else Undefined
  end.

(** ** The constructor *)

(** [max_pending_requests_] is raised for the streams before the message's own
    value is read. *)
Definition OptionsImpl_of_message (m : OptionsMessage) : outcome OptionsImpl :=
  let d := default_options in
  let uri := message_uri m in
  let mode := default (o_grpc_mode d) (m_grpc_mode m) in
  let protocol := default (o_protocol d) (message_protocol m) in
  let '(streams, max_inflight_per_stream, stream_drain_duration) := message_streams m in
  let '(tcp_connections, tcp_max_inflight, tcp_expect_echo, tcp_max_messages) := message_tcp m in
  let '(udp_max_inflight, udp_timeout) := message_udp m in
  let websocket := bool_decide (is_Some (m_websocket m)) in
  let protocol := if grpcEnabled mode && negb (bool_decide (is_Some (message_protocol m))) &&
                     negb (bool_decide (is_Some (message_h2 m))) then HTTP2 else protocol in
  let concurrency := default (o_concurrency d) (m_concurrency m) in
  let address_family := default (o_address_family d) (m_address_family m) in
  let* tunnel := message_tunnel m protocol address_family in
  let '(tunnel_protocol, tunnel_uri, encap_port) := tunnel in
  let '(request_headers, request_method, request_body_size, request_body, request_source, request_source_plugin_config)
    := message_request m (grpcEnabled mode) in
  let raised := raisePendingRequestsForStreams mode websocket concurrency streams (o_max_pending_requests d) in
  let* rate_limiter_plugin_config := message_rate_limiter m in
  let no_default := default (o_no_default_failure_predicates d) (m_no_default_failure_predicates m) in
  let* scheduled_start := message_scheduled_start m in
  let o := {|
    o_requests_per_second := default (o_requests_per_second d) (m_requests_per_second m);
    o_duration := match m_duration_options m with DurationCase t => u32 (seconds t) | _ => o_duration d end;
    o_timeout := match m_timeout m with Some t => u32 (seconds t) | None => o_timeout d end;
    o_uri := uri;
    o_tcp := match uri with Some uri => isTcpUri uri | None => o_tcp d end;
    o_udp := match uri with Some uri => isUdpUri uri | None => o_udp d end;
    o_multi_target_path := default (o_multi_target_path d) (m_path (message_multi_target m));
    o_multi_target_use_https := default (o_multi_target_use_https d) (m_use_https (message_multi_target m));
    o_multi_target_endpoints := m_endpoints (message_multi_target m);
    o_h2 := default (o_h2 d) (message_h2 m);
    o_protocol := protocol;
    o_grpc_mode := mode;
    o_streams := streams;
    o_max_inflight_per_stream := max_inflight_per_stream;
    o_stream_drain_duration := stream_drain_duration;
    o_tcp_connections := tcp_connections;
    o_tcp_max_inflight := tcp_max_inflight;
    o_tcp_expect_echo := tcp_expect_echo;
    o_tcp_max_messages := tcp_max_messages;
    o_udp_max_inflight := udp_max_inflight;
    o_udp_timeout := udp_timeout;
    o_websocket := websocket;
    o_websocket_binary := match m_websocket m with Some w => default false (m_ws_binary w)
                          | None => o_websocket_binary d end;
    o_http3_protocol_options := merged (m_http3_protocol_options m);
    o_concurrency := concurrency;
    o_verbosity := default (o_verbosity d) (m_verbosity m);
    o_output_format := default (o_output_format d) (m_output_format m);
    o_prefetch_connections := default (o_prefetch_connections d) (m_prefetch_connections m);
    o_burst_size := default (o_burst_size d) (m_burst_size m);
    o_address_family := address_family;
    o_tunnel_protocol := tunnel_protocol;
    o_tunnel_uri := tunnel_uri;
    o_encap_port := encap_port;
    o_tunnel_tls_context := o_tunnel_tls_context d;
    o_request_headers := request_headers;
    o_request_method := request_method;
    o_request_body_size := request_body_size;
    o_request_body := request_body;
    o_request_source := request_source;
    o_request_source_plugin_config := request_source_plugin_config;
    o_rate_limiter_plugin_config := rate_limiter_plugin_config;
    o_max_pending_requests := default raised (m_max_pending_requests m);
    o_max_active_requests := default (o_max_active_requests d) (m_max_active_requests m);
    o_max_requests_per_connection := default (o_max_requests_per_connection d) (m_max_requests_per_connection m);
    o_max_concurrent_streams := default (o_max_concurrent_streams d) (m_max_concurrent_streams m);
    o_connections := default (o_connections d) (m_connections m);
    o_sequencer_idle_strategy := default (o_sequencer_idle_strategy d) (m_sequencer_idle_strategy m);
    o_trace := default (o_trace d) (m_trace m);
    o_h1_connection_reuse_strategy := default (o_h1_connection_reuse_strategy d) (m_h1_connection_reuse_strategy m);
    o_open_loop := default (o_open_loop d) (m_open_loop m);
    o_tls_context := MergeFrom (o_tls_context d) (default empty_message (m_tls_context m));
    o_upstream_bind_config := merged (m_upstream_bind_config m);
    o_transport_socket := merged (m_transport_socket m);
    o_no_default_failure_predicates := no_default;
    o_failure_predicates := message_failure_predicates m no_default;
    o_termination_predicates := set_predicates (m_termination_predicates m) (o_termination_predicates d);
    o_jitter_uniform := nanoseconds_or (m_jitter_uniform m) (o_jitter_uniform d);
    o_stats_sinks := m_stats_sinks m;
    o_stats_flush_interval := match m_stats_flush m with StatsFlushIntervalCase s => s
                              | _ => o_stats_flush_interval d end;
    o_stats_flush_interval_duration := match m_stats_flush m with StatsFlushDurationCase t => t
                                       | _ => o_stats_flush_interval_duration d end;
    o_nighthawk_service := default (o_nighthawk_service d) (m_nighthawk_service m);
    o_h2_use_multiple_connections := default (o_h2_use_multiple_connections d) (m_h2_use_multiple_connections m);
    o_simple_warmup := default (o_simple_warmup d) (m_simple_warmup m);
    o_no_duration := match m_duration_options m with NoDurationCase b => b | _ => o_no_duration d end;
    o_labels := m_labels m;
    o_latency_response_header_name :=
      default (o_latency_response_header_name d) (m_latency_response_header_name m);
    o_scheduled_start := scheduled_start;
    o_execution_id := m_execution_id m;
    o_user_defined_output_plugin_configs := m_user_defined_plugin_configs m;
  |} in
  OptionsImpl_validate message_error o ;;;
  Ok o.

End Constructor.
