(* ===== verification/OptionsProofs.v ===== *)
(** * Options through a message

    What a trip through [CommandLineOptions] makes of validated options:
    [toCommandLineOptions] ([engine/source/client/options_impl.cc]) and then the
    constructor from the message. The members that belong to a kind of load that
    is not selected are not written, so they come back as defaults; everything
    else comes back as it was. *)

From stdpp Require Import gmap strings.
From S2P Require Import Prelude Text Uri Statistic BenchmarkClient Options OptionsMessages.

(** ** Helpers *)

Lemma refuse_Ok b what u : refuse b what = Ok u <-> b = false.
Proof. unfold refuse. destruct b, u; naive_solver. Qed.

Lemma obind_unit {A} (m : outcome unit) (k : outcome A) (a : A) :
  (m ;;; k) = Ok a <-> m = Ok tt /\ k = Ok a.
Proof. rewrite obind_Ok_iff. split; [intros ([] & ? & ?); done|intros [? ?]; by exists tt]. Qed.

Lemma predicates_message_id (p : gmap string Z) : predicates_message p = p.
Proof.
  unfold predicates_message. apply (map_fold_weak_ind (fun r m => r = m)); [done|].
  intros k v m r Hk ->. by rewrite decide_True.
Qed.

Lemma set_predicates_union (entries p : gmap string Z) : set_predicates entries p = entries ∪ p.
Proof.
  unfold set_predicates. apply (map_fold_weak_ind (fun r m => r = m ∪ p)).
  { by rewrite (left_id_L ∅ (∪)). }
  intros k v m r Hk ->. by rewrite insert_union_l.
Qed.

(** ** White space *)

Lemma strip_trailing_idem s : strip_trailing (strip_trailing s) = strip_trailing s.
Proof.
  induction s as [|c s IH]; [done|]. cbn. destruct (strip_trailing s) as [|d t] eqn:E.
  - destruct (ascii_isspace c) eqn:Hc; cbn; [done|]. by rewrite Hc.
  - change (strip_trailing (String c (String d t))) with
      (match strip_trailing (String d t) with
       | EmptyString => if ascii_isspace c then EmptyString else String c EmptyString
       | s' => String c s' end). by rewrite IH.
Qed.

Lemma strip_leading_head c s : ascii_isspace c = false -> strip_leading (String c s) = String c s.
Proof. intros Hc. cbn. by rewrite Hc. Qed.

Lemma strip_leading_cases s : strip_leading s = EmptyString \/ exists c t, strip_leading s = String c t /\ ascii_isspace c = false.
Proof. induction s as [|c s IH]; cbn; [by left|]. destruct (ascii_isspace c) eqn:Hc; [done|]. right. eauto. Qed.

Lemma strip_trailing_head c s :
  ascii_isspace c = false -> exists t, strip_trailing (String c s) = String c t.
Proof. intros Hc. cbn. destruct (strip_trailing s); [rewrite Hc|]; eauto. Qed.

Lemma strip_space_idem s : strip_space (strip_space s) = strip_space s.
Proof.
  unfold strip_space. destruct (strip_leading_cases s) as [->|(c & t & -> & Hc)]; [done|].
  destruct (strip_trailing_head c t Hc) as [u Hu]. rewrite Hu, strip_leading_head by done.
  by rewrite <- Hu, strip_trailing_idem.
Qed.

Lemma strip_trailing_chars P s : all_chars P s -> all_chars P (strip_trailing s).
Proof.
  induction s as [|c s IH]; [done|]. cbn. intros [Hc Hs]. specialize (IH Hs).
  destruct (strip_trailing s); [destruct (ascii_isspace c)|]; done.
Qed.

Lemma strip_leading_chars P s : all_chars P s -> all_chars P (strip_leading s).
Proof. induction s as [|c s IH]; [done|]. cbn. intros [Hc Hs]. destruct (ascii_isspace c); [by apply IH|done]. Qed.

(** Of a string with no [P] after its first character, no [P] is after the
    first character when white space is taken off. *)
Lemma strip_space_tail P c0 t c k :
  all_chars P t -> strip_space (String c0 t) = String c k -> all_chars P k.
Proof.
  unfold strip_space. intros Ht E.
  assert (exists d u, strip_leading (String c0 t) = String d u /\ all_chars P u) as (d & u & Hl & Hu).
  { cbn in E |- *. destruct (ascii_isspace c0); [|by eauto].
    pose proof (strip_leading_chars P t Ht) as Hc.
    destruct (strip_leading t) as [|d u]; [done|]. exists d, u. split; [done|]. apply Hc. }
  rewrite Hl in E. cbn in E. pose proof (strip_trailing_chars P u Hu) as Hk.
  destruct (strip_trailing u); [destruct (ascii_isspace d); [done|]|]; injection E as -> <-; done.
Qed.

(** ** Validation, part by part *)

(** The options as a conjunction of what each check lets through. *)
Definition valid_parts `{Messages} `{RequestMethods} `{UriEnv} `{AbslStrings} (o : OptionsImpl) : Prop :=
  (negb (o_request_body o =? EmptyString)%string && (0 <? o_request_body_size o) = false) /\
  validate_grpc o = Ok tt /\ validate_websocket o = Ok tt /\ validate_streams o = Ok tt /\
  o_h2_use_multiple_connections o = false /\ validate_concurrency o = Ok tt /\
  validate_request_source o = Ok tt /\ validate_target o = Ok tt.

(** What Abseil documents of [StripAsciiWhitespace]. *)
Class StripLaws `{AbslMatch} : Prop := {
  strip_documented s : StripAsciiWhitespace s = strip_space s;
}.

(** Envoy's API asks for at least one byte in the key of a header. *)
Definition checks_header_keys `{Messages} (message_error : OptionsMessage -> option string) : Prop :=
  forall m r, message_error m = None -> m_request m = RequestOptionsCase r ->
    Forall (fun h => header_key h <> EmptyString) (m_request_headers r).

Section Trip.
Context `{MessagesLaws} `{TimeUtilLaws} `{RequestMethodsLaws} `{SystemClock} `{StripLaws} `{UriEnv} `{AbslStrings}.

Lemma OptionsImpl_validate_Ok message_error o u :
  OptionsImpl_validate message_error o = Ok u <->
  valid_parts o /\ exists m, toCommandLineOptionsInternal o = Ok m /\ message_error m = None.
Proof.
  unfold OptionsImpl_validate, valid_parts. destruct u. rewrite !obind_unit, !refuse_Ok, obind_Ok_iff.
  assert (forall m : OptionsMessage,
    match message_error m with Some what => Throw (MalformedArgvException what) | None => Ok tt end = Ok tt <->
    message_error m = None) as Hm by (intros m; destruct (message_error m); naive_solver).
  setoid_rewrite Hm. tauto.
Qed.

(** ** What comes back *)

(** The member when it is written, its default when not. *)
Definition kept {A} (written : bool) (get : OptionsImpl -> A) (o : OptionsImpl) : A :=
  if written then get o else get default_options.

Definition normal_header (header : string) : string :=
  match header_message header with
  | Ok m => header_key m +:+ ":" +:+ header_value m
  | _ => header
  end.

Definition filled_endpoint (e : Endpoint) : Endpoint :=
  mkEndpoint (Some (default EmptyString (endpoint_address e))) (Some (default 0 (endpoint_port e))).

(** The requests are described by the options: there is no source and no
    plugin. *)
Definition own_requests (o : OptionsImpl) : bool :=
  (o_request_source o =? EmptyString)%string && negb (bool_decide (is_Some (o_request_source_plugin_config o))).

Definition flush_by_duration (o : OptionsImpl) : bool :=
  (0 <? seconds (o_stats_flush_interval_duration o)) || (0 <? nanos (o_stats_flush_interval_duration o)).

Definition canonical (o : OptionsImpl) : OptionsImpl :=
  let d := default_options in
  let streams := streamModeEnabled (o_grpc_mode o) (o_websocket o) in
  {|
    o_requests_per_second := o_requests_per_second o;
    o_connections := o_connections o;
    o_duration := kept (negb (o_no_duration o)) o_duration o;
    o_timeout := o_timeout o;
    o_uri := o_uri o;
    o_h2 := o_h2 o;
    o_protocol := kept (negb (o_h2 o)) o_protocol o;
    o_http3_protocol_options := o_http3_protocol_options o;
    o_concurrency := o_concurrency o;
    o_tunnel_protocol := o_tunnel_protocol d;
    o_tunnel_uri := o_tunnel_uri d;
    o_encap_port := o_encap_port d;
    o_tunnel_tls_context := o_tunnel_tls_context d;
    o_verbosity := o_verbosity o;
    o_output_format := o_output_format o;
    o_prefetch_connections := o_prefetch_connections o;
    o_burst_size := o_burst_size o;
    o_address_family := o_address_family o;
    o_request_method := if own_requests o then o_request_method o
                        else if grpcEnabled (o_grpc_mode o) then METHOD_POST else METHOD_GET;
    o_request_headers := if own_requests o then normal_header <$> o_request_headers o else [];
    o_request_body_size := kept (own_requests o) o_request_body_size o;
    o_request_body := kept (own_requests o) o_request_body o;
    o_grpc_mode := o_grpc_mode o;
    o_websocket := o_websocket o;
    o_websocket_binary := kept (o_websocket o) o_websocket_binary o;
    o_tcp := o_tcp o;
    o_tcp_connections := kept (o_tcp o) o_tcp_connections o;
    o_tcp_max_inflight := kept (o_tcp o) o_tcp_max_inflight o;
    o_tcp_expect_echo := kept (o_tcp o) o_tcp_expect_echo o;
    o_tcp_max_messages := kept (o_tcp o) o_tcp_max_messages o;
    o_udp := o_udp o;
    o_udp_max_inflight := kept (o_udp o) o_udp_max_inflight o;
    o_udp_timeout := kept (o_udp o) o_udp_timeout o;
    o_streams := kept streams o_streams o;
    o_max_inflight_per_stream := kept streams o_max_inflight_per_stream o;
    o_stream_drain_duration := kept (streams || o_tcp o) o_stream_drain_duration o;
    o_tls_context := o_tls_context o;
    o_upstream_bind_config := o_upstream_bind_config o;
    o_transport_socket := o_transport_socket o;
    o_request_source_plugin_config :=
      kept (o_request_source o =? EmptyString)%string o_request_source_plugin_config o;
    o_rate_limiter_plugin_config := o_rate_limiter_plugin_config o;
    o_max_pending_requests := o_max_pending_requests o;
    o_max_active_requests := o_max_active_requests o;
    o_max_requests_per_connection := o_max_requests_per_connection o;
    o_max_concurrent_streams := o_max_concurrent_streams o;
    o_sequencer_idle_strategy := o_sequencer_idle_strategy o;
    o_request_source := o_request_source o;
    o_trace := o_trace o;
    o_h1_connection_reuse_strategy := o_h1_connection_reuse_strategy o;
    o_termination_predicates := o_termination_predicates o;
    o_failure_predicates := o_failure_predicates o;
    o_no_default_failure_predicates := o_no_default_failure_predicates o;
    o_open_loop := o_open_loop o;
    o_jitter_uniform := kept (0 <? o_jitter_uniform o) o_jitter_uniform o;
    o_nighthawk_service := o_nighthawk_service o;
    o_h2_use_multiple_connections := o_h2_use_multiple_connections d;
    o_multi_target_endpoints := match o_uri o with Some _ => [] | None => filled_endpoint <$> o_multi_target_endpoints o end;
    o_multi_target_path := kept (bool_decide (o_uri o = None)) o_multi_target_path o;
    o_multi_target_use_https := kept (bool_decide (o_uri o = None)) o_multi_target_use_https o;
    o_labels := o_labels o;
    o_simple_warmup := o_simple_warmup o;
    o_no_duration := o_no_duration o;
    o_stats_sinks := o_stats_sinks o;
    o_stats_flush_interval := kept (negb (flush_by_duration o)) o_stats_flush_interval o;
    o_stats_flush_interval_duration := kept (flush_by_duration o) o_stats_flush_interval_duration o;
    o_latency_response_header_name := o_latency_response_header_name o;
    o_scheduled_start := o_scheduled_start o;
    o_execution_id := o_execution_id o;
    o_user_defined_output_plugin_configs := o_user_defined_output_plugin_configs o;
  |}.

(** ** What both constructors guarantee *)

Record consistent (o : OptionsImpl) : Prop := {
  c_duration : 0 <= o_duration o < 2 ^ 32;
  c_timeout : 0 <= o_timeout o < 2 ^ 32;
  c_tcp : o_tcp o = match o_uri o with Some uri => isTcpUri uri | None => false end;
  c_udp : o_udp o = match o_uri o with Some uri => isUdpUri uri | None => false end;
  c_protocol : o_h2 o = true -> o_protocol o = HTTP1;
  c_method : o_request_method o <> METHOD_UNSPECIFIED;
  c_drain : in_i64 (o_stream_drain_duration o);
  c_udp_timeout : in_i64 (o_udp_timeout o);
  c_jitter : in_i64 (o_jitter_uniform o);
  c_limiter : o_rate_limiter_plugin_config o <> None -> o_burst_size o = 0 /\ o_jitter_uniform o <= 0;
  c_failures : o_no_default_failure_predicates o = false -> o_failure_predicates o <> ∅;
  c_start : forall t, o_scheduled_start o = Some t ->
    in_i64 t /\ in_i64 (t / 1000000000 * 1000000000) /\ Z.quot (Z.quot t 1000 * 1000) tick_ns = t;
}.

(** ** The parts of the message that is written *)

Section Written.
Context (o : OptionsImpl) (m : OptionsMessage).
Hypothesis (Hc : consistent o).
Hypothesis (Hm : toCommandLineOptionsInternal o = Ok m).

Lemma written_request : request_message o = Ok (m_request m).
Proof. revert Hm. unfold toCommandLineOptionsInternal. destruct (request_message o); cbn; [|done..]. by intros [= <-]. Qed.

Ltac written := revert Hm; unfold toCommandLineOptionsInternal; destruct (request_message o); cbn; try discriminate;
  intros [= <-]; cbn.

Lemma written_streams :
  message_streams m = (o_streams (canonical o), o_max_inflight_per_stream (canonical o),
                       o_stream_drain_duration (canonical o)).
Proof.
  written. unfold message_streams, kept, streamModeEnabled, nanoseconds_or; cbn.
  destruct (grpcStreamEnabled (o_grpc_mode o)), (o_websocket o), (o_tcp o); cbn;
    rewrite ?duration_nanoseconds by apply Hc; done.
Qed.

Lemma written_tcp :
  message_tcp m = (o_tcp_connections (canonical o), o_tcp_max_inflight (canonical o),
                   o_tcp_expect_echo (canonical o), o_tcp_max_messages (canonical o)).
Proof. written. unfold message_tcp, kept; cbn. by destruct (o_tcp o). Qed.

Lemma written_udp : message_udp m = (o_udp_max_inflight (canonical o), o_udp_timeout (canonical o)).
Proof.
  written. unfold message_udp, kept, nanoseconds_or; cbn.
  destruct (o_udp o); cbn; rewrite ?duration_nanoseconds by apply Hc; done.
Qed.

Lemma header_messages_normal headers ms :
  header_messages headers = Ok ms ->
  (fun h => header_key h +:+ ":" +:+ header_value h) <$> ms = normal_header <$> headers.
Proof.
  revert ms. induction headers as [|h headers IH]; intros ms Hms; cbn in Hms; [by simplify_eq|].
  inv_bind. cbn. unfold normal_header at 1. rewrite Hok. f_equal. by apply IH.
Qed.

Lemma written_request_members :
  message_request m (grpcEnabled (o_grpc_mode o)) =
  (o_request_headers (canonical o), o_request_method (canonical o), o_request_body_size (canonical o),
   o_request_body (canonical o), o_request_source o, o_request_source_plugin_config (canonical o)).
Proof.
  pose proof written_request as Hr. unfold message_request, request_message in Hr |- *. cbn.
  unfold own_requests, kept.
  destruct (String.eqb_spec (o_request_source o) EmptyString) as [Hs|Hs]; cbn in Hr |- *.
  2: { injection Hr as <-. done. }
  destruct (o_request_source_plugin_config o) as [config|] eqn:Hp; cbn in Hr |- *.
  { injection Hr as <-. cbn. by rewrite merge_empty, Hs. }
  inv_bind. destruct (m_request m); try discriminate. injection Hr as <-. cbn.
  rewrite (header_messages_normal _ _ Hok), Hs, (proj2 (Z.eqb_neq _ _) (c_method _ Hc)). cbn.
  by destruct (String.eqb_spec (o_request_body o) EmptyString) as [->|].
Qed.

Lemma written_rate_limiter : message_rate_limiter m = Ok (o_rate_limiter_plugin_config o).
Proof.
  written. unfold message_rate_limiter; cbn. pose proof (c_limiter _ Hc) as Hl.
  destruct (o_rate_limiter_plugin_config o) as [config|]; [|done].
  destruct Hl as [-> Hj]; [done|]. cbn. rewrite (proj2 (Z.ltb_ge _ _) Hj). cbn. by rewrite merge_empty.
Qed.

Lemma written_failures :
  message_failure_predicates m (o_no_default_failure_predicates o) = o_failure_predicates o.
Proof.
  written. unfold message_failure_predicates; cbn. rewrite predicates_message_id, set_predicates_union.
  pose proof (c_failures _ Hc) as Hf. destruct (o_no_default_failure_predicates o); cbn.
  - by rewrite (right_id_L ∅ (∪)).
  - rewrite bool_decide_eq_false_2 by auto. cbn. by rewrite (right_id_L ∅ (∪)).
Qed.

Lemma written_start : message_scheduled_start m = Ok (o_scheduled_start o).
Proof.
  written. unfold message_scheduled_start; cbn. pose proof (c_start _ Hc) as Hs.
  destruct (o_scheduled_start o) as [t|]; [|done]. cbn. destruct (Hs t eq_refl) as (H64 & H64' & Ht).
  destruct (timestamp_nanoseconds t H64) as [-> ->].
  replace (t mod 1000000000 + t / 1000000000 * 1000000000) with t
    by (pose proof (Z.div_mod t 1000000000 ltac:(done)); lia).
  rewrite !bool_decide_eq_true_2 by done. cbn. by rewrite Ht.
Qed.

Lemma written_tls : MergeFrom empty_message (default empty_message (m_tls_context m)) = o_tls_context o.
Proof.
  written. rewrite merge_empty. destruct (Z.ltb_spec 0 (ByteSizeLong (o_tls_context o))); [done|].
  cbn. symmetry. by apply size_zero.
Qed.

Lemma merged_id (x : option message) : merged x = x.
Proof. destruct x as [x|]; [|done]. unfold merged. cbn. by rewrite merge_empty. Qed.

End Written.

(** ** Headers *)

Lemma header_message_split header m :
  header_message header = Ok m -> header_key m <> EmptyString ->
  exists c k, header_key m = String c k /\ all_chars (fun d => d <> ":"%char) k /\
    strip_space (header_key m) = header_key m /\ strip_space (header_value m) = header_value m /\
    header_append m = Some false.
Proof.
  unfold header_message. destruct header as [|c0 t]; [done|]. cbn [String.eqb find_from sdrop].
  destruct (find_char ":"%char t) as [p|] eqn:Hp; cbn [fmap option_fmap option_map]; [|done].
  intros [= <-]. cbn [header_key header_value header_append].
  rewrite !strip_documented. destruct (find_char_split _ _ _ Hp) as [_ Hk]. intros Hne. cbn [stake Nat.add] in *.
  destruct (strip_space (String c0 (stake p t))) as [|c k] eqn:E; [done|].
  exists c, k. split; [done|]. split; [by apply (strip_space_tail _ c0 (stake p t) c)|].
  rewrite <- E, !strip_space_idem. done.
Qed.

Lemma header_message_normal header m :
  header_message header = Ok m -> header_key m <> EmptyString -> header_message (normal_header header) = Ok m.
Proof.
  intros Hm Hne. destruct (header_message_split _ _ Hm Hne) as (c & k & Hk & Hck & Hsk & Hsv & Ha).
  unfold normal_header. rewrite Hm. unfold header_message. rewrite Hk, !sapp_cons. cbn [String.eqb find_from sdrop].
  rewrite sapp_nil, find_char_app by done. cbn [find_char Ascii.eqb Bool.eqb fmap option_fmap option_map].
  rewrite Nat.add_0_r. cbn [Nat.add stake]. rewrite stake_app.
  rewrite <- Hk, !strip_documented, Hsk.
  replace (S (String.length k)) with (String.length (k +:+ ":")) by (rewrite slength_app; cbn; lia).
  replace (k +:+ String ":" (header_value m)) with ((k +:+ ":") +:+ header_value m)
    by (by rewrite sapp_assoc, sapp_cons, sapp_nil).
  rewrite sdrop_app, Hsv, <- Ha. by destruct m.
Qed.

(** ** The constructor on what was written *)

Section Read.
Context (o : OptionsImpl) (m : OptionsMessage).
Hypothesis (Hc : consistent o).
Hypothesis (Hm : toCommandLineOptionsInternal o = Ok m).

Ltac written := revert Hm; unfold toCommandLineOptionsInternal; destruct (request_message o); cbn; try discriminate;
  intros [= <-]; cbn.

Lemma written_mode : default GRPC_NONE (m_grpc_mode m) = o_grpc_mode o.
Proof. written. unfold grpcEnabled. case_bool_decide as Hg; [done|]. by rewrite Hg. Qed.

Lemma written_protocol :
  default false (message_h2 m) = o_h2 o /\
  (if grpcEnabled (o_grpc_mode o) && negb (bool_decide (is_Some (message_protocol m))) &&
      negb (bool_decide (is_Some (message_h2 m))) then HTTP2 else default HTTP1 (message_protocol m)) =
  o_protocol (canonical o).
Proof.
  written. unfold kept, message_h2, message_protocol. cbn.
  destruct (o_h2 o), (grpcEnabled (o_grpc_mode o)); done.
Qed.

Lemma written_websocket :
  bool_decide (is_Some (m_websocket m)) = o_websocket o /\
  match m_websocket m with Some w => default false (m_ws_binary w) | None => false end =
  o_websocket_binary (canonical o).
Proof. written. unfold kept. by destruct (o_websocket o). Qed.

Lemma written_target :
  message_uri m = o_uri o /\
  default EmptyString (m_path (message_multi_target m)) = o_multi_target_path (canonical o) /\
  default false (m_use_https (message_multi_target m)) = o_multi_target_use_https (canonical o) /\
  m_endpoints (message_multi_target m) = o_multi_target_endpoints (canonical o).
Proof.
  written. unfold message_uri, message_multi_target, uri_message, kept. cbn.
  by destruct (o_uri o).
Qed.

Lemma written_durations :
  match m_duration_options m with DurationCase t => u32 (seconds t) | _ => 5 end = o_duration (canonical o) /\
  match m_duration_options m with NoDurationCase b => b | _ => false end = o_no_duration o /\
  match m_timeout m with Some t => u32 (seconds t) | None => 30 end = o_timeout o /\
  nanoseconds_or (m_jitter_uniform m) 0 = o_jitter_uniform (canonical o).
Proof.
  written. unfold kept, u32, wrap_u, nanoseconds_or. cbn.
  pose proof (c_duration _ Hc). pose proof (c_timeout _ Hc). rewrite (Z.mod_small (o_timeout o)) by done.
  split_and!.
  - destruct (o_no_duration o); cbn; [done|]. by rewrite Z.mod_small.
  - by destruct (o_no_duration o).
  - done.
  - destruct (0 <? o_jitter_uniform o); [|done]. cbn. apply duration_nanoseconds, Hc.
Qed.

Lemma written_flush :
  match m_stats_flush m with StatsFlushIntervalCase s => s | _ => 5 end = o_stats_flush_interval (canonical o) /\
  match m_stats_flush m with StatsFlushDurationCase t => t | _ => mkDuration 0 0 end =
  o_stats_flush_interval_duration (canonical o).
Proof. written. unfold kept, stats_flush_message, flush_by_duration. by destruct (_ || _). Qed.

Lemma read_written message_error GetAvailablePort :
  OptionsImpl_of_message message_error GetAvailablePort m =
  (OptionsImpl_validate message_error (canonical o) ;;; Ok (canonical o)).
Proof.
  unfold OptionsImpl_of_message. cbn [o_grpc_mode o_protocol o_h2 default_options].
  rewrite (written_streams o m Hc Hm), (written_tcp o m Hm), (written_udp o m Hc Hm), written_mode.
  rewrite (proj2 written_protocol), (proj1 written_protocol), (proj1 written_websocket).
  rewrite (written_request_members o m Hc Hm), (written_rate_limiter o m Hc Hm).
  rewrite (written_start o m Hc Hm), (proj1 written_target).
  assert (forall p f, message_tunnel GetAvailablePort m p f = Ok (HTTP1, EmptyString, 0)) as Ht by (intros; by written).
  rewrite Ht. cbn [obind].
  assert (forall a b : OptionsImpl, a = b -> (OptionsImpl_validate message_error a ;;; Ok a) =
    (OptionsImpl_validate message_error b ;;; Ok b)) as Hcong by (by intros ? ? ->).
  apply Hcong. clear Hcong.
  assert (default false (m_no_default_failure_predicates m) = o_no_default_failure_predicates o) as Hnd by (by written).
  cbn. rewrite Hnd, (written_failures o m Hc Hm), (written_tls o m Hm), set_predicates_union, !merged_id.
  destruct written_target as (_ & -> & -> & ->), written_durations as (-> & -> & -> & ->),
    written_flush as [-> ->].
  rewrite (proj2 written_websocket), <- (c_tcp _ Hc), <- (c_udp _ Hc).
  written. rewrite (right_id_L ∅ (∪)), predicates_message_id. done.
Qed.

End Read.

(** ** What comes back is written as it was *)

Lemma header_messages_again headers ms :
  header_messages headers = Ok ms -> Forall (fun h => header_key h <> EmptyString) ms ->
  header_messages (normal_header <$> headers) = Ok ms.
Proof.
  revert ms. induction headers as [|h headers IH]; intros ms Hms Hne; [done|]. cbn in Hms |- *. inv_bind.
  apply Forall_cons in Hne as [Hh Hne]. by rewrite (header_message_normal _ _ Hok Hh), (IH _ Hok0 Hne).
Qed.

Lemma request_message_again o r :
  request_message o = Ok r ->
  (forall ro, r = RequestOptionsCase ro -> Forall (fun h => header_key h <> EmptyString) (m_request_headers ro)) ->
  request_message (canonical o) = Ok r.
Proof.
  unfold request_message. cbn. unfold own_requests, kept. intros Hr Hk.
  destruct (String.eqb_spec (o_request_source o) EmptyString) as [Hs|Hs]; cbn in Hr |- *; [|done].
  destruct (o_request_source_plugin_config o); cbn in Hr |- *; [done|]. inv_bind.
  by rewrite (header_messages_again _ _ Hok (Hk _ eq_refl)).
Qed.

Lemma write_canonical o m :
  toCommandLineOptionsInternal o = Ok m ->
  (forall ro, m_request m = RequestOptionsCase ro -> Forall (fun h => header_key h <> EmptyString) (m_request_headers ro)) ->
  toCommandLineOptionsInternal (canonical o) = Ok m.
Proof.
  intros Hm Hk. pose proof (written_request o m Hm) as Hr. pose proof (request_message_again o _ Hr Hk) as Hr'.
  revert Hm. unfold toCommandLineOptionsInternal. rewrite Hr, Hr'. cbn. intros [= Hm]. f_equal. rewrite <- Hm at 2.
  unfold kept, streamModeEnabled. f_equal.
  all: try (by destruct (o_no_duration o)).
  all: try (by destruct (o_h2 o)).
  - by destruct (grpcStreamEnabled (o_grpc_mode o)), (o_websocket o), (o_tcp o).
  - by destruct (o_websocket o), (grpcStreamEnabled (o_grpc_mode o)), (o_tcp o).
  - by destruct (o_tcp o), (grpcStreamEnabled (o_grpc_mode o)), (o_websocket o).
  - by destruct (o_udp o).
  - unfold uri_message. cbn. destruct (o_uri o) eqn:Hu; [done|]. by rewrite <- list_fmap_compose.
  - destruct (0 <? o_jitter_uniform o) eqn:Hj; [by rewrite Hj|done].
  - unfold stats_flush_message. cbn. unfold kept.
    destruct (flush_by_duration o) eqn:Hf; cbn; [by unfold flush_by_duration in Hf; rewrite Hf|].
    by unfold flush_by_duration in Hf; rewrite Hf.
Qed.

(** ** What comes back is valid *)

Ltac checks_in H := rewrite ?obind_unit, ?refuse_Ok in H.

Lemma canonical_grpc o : validate_grpc o = Ok tt -> validate_grpc (canonical o) = Ok tt.
Proof.
  unfold validate_grpc. cbn. destruct (grpcEnabled (o_grpc_mode o)); [|done].
  intros Hv. checks_in Hv. destruct Hv as (Hp & Hmeth & Hs). rewrite !obind_unit, !refuse_Ok.
  split_and!; [|destruct (own_requests o); [done|by rewrite Z.eqb_refl]|done].
  unfold kept. by destruct (o_h2 o).
Qed.

Lemma canonical_websocket o : validate_websocket o = Ok tt -> validate_websocket (canonical o) = Ok tt.
Proof.
  unfold validate_websocket. cbn. destruct (o_websocket o); [|done].
  intros Hv. checks_in Hv. destruct Hv as (Hg & Hp & Hmeth). rewrite !obind_unit, !refuse_Ok, Hg.
  split_and!; [done| |destruct (own_requests o); [done|by rewrite Z.eqb_refl]].
  unfold kept. by destruct (o_h2 o).
Qed.

Lemma canonical_plugin_None o :
  bool_decide (is_Some (o_request_source_plugin_config o)) = false ->
  bool_decide (is_Some (o_request_source_plugin_config (canonical o))) = false.
Proof. cbn. unfold kept. by destruct (_ =? _)%string. Qed.

Lemma canonical_streams o : validate_streams o = Ok tt -> validate_streams (canonical o) = Ok tt.
Proof.
  unfold validate_streams. cbn -[canonical]. cbn [canonical o_grpc_mode o_websocket o_concurrency o_connections
    o_streams o_requests_per_second o_max_inflight_per_stream o_max_active_requests
    o_user_defined_output_plugin_configs o_simple_warmup].
  destruct (streamModeEnabled (o_grpc_mode o) (o_websocket o)); [|done]. unfold kept.
  intros Hv. checks_in Hv. rewrite !obind_unit, !refuse_Ok.
  destruct Hv as (? & ? & ? & ? & ? & ? & Hp & ? & ?). split_and!; auto using canonical_plugin_None.
Qed.

Lemma canonical_other_requests o : has_other_requests o = false -> own_requests o = true /\ has_other_requests (canonical o) = false.
Proof.
  unfold has_other_requests, own_requests. rewrite !orb_false_iff, negb_false_iff. intros [[[Hs Hp] Hu] Hw].
  rewrite (canonical_plugin_None _ Hp). cbn. by rewrite Hs, Hp, Hu, Hw.
Qed.

Lemma canonical_udp o : validate_udp o = Ok tt -> validate_udp (canonical o) = Ok tt.
Proof.
  unfold validate_udp, no_body. cbn -[has_other_requests canonical].
  cbn [canonical o_udp o_grpc_mode o_websocket o_request_headers o_request_method o_request_body o_request_body_size
       o_transport_socket o_tls_context o_udp_max_inflight o_udp_timeout].
  destruct (o_udp o); [|done]. unfold kept. intros Hv. checks_in Hv. rewrite !obind_unit, !refuse_Ok.
  destruct Hv as (Hg & Hh & Hb & Ht & Hi & Ho). destruct (canonical_other_requests o Ho) as [-> ->].
  rewrite length_fmap. done.
Qed.

Lemma canonical_tcp o : validate_tcp o = Ok tt -> validate_tcp (canonical o) = Ok tt.
Proof.
  unfold validate_tcp, no_body. cbn -[has_other_requests canonical].
  cbn [canonical o_tcp o_grpc_mode o_websocket o_request_headers o_request_method o_request_body o_request_body_size
       o_tcp_expect_echo o_tcp_connections o_tcp_max_inflight].
  destruct (o_tcp o); [|done]. unfold kept. intros Hv. checks_in Hv. rewrite !obind_unit, !refuse_Ok.
  destruct Hv as (Hg & Hh & Hb & Hi & Ho). destruct (canonical_other_requests o Ho) as [-> ->].
  rewrite length_fmap. done.
Qed.

Lemma canonical_valid o : valid_parts o -> valid_parts (canonical o).
Proof.
  intros (Hb & Hg & Hw & Hs & Hh & Hc & Hr & Ht). unfold valid_parts.
  split_and!; auto using canonical_grpc, canonical_websocket, canonical_streams.
  - cbn. unfold kept. by destruct (own_requests o).
  - revert Ht. unfold validate_target. cbn -[validate_udp validate_tcp canonical]. cbn [canonical o_uri
      o_multi_target_endpoints o_multi_target_path o_multi_target_use_https].
    destruct (o_uri o).
    + intros Ht. apply obind_Ok in Ht as (u & -> & Ht). cbn [obind]. rewrite !obind_unit, !refuse_Ok in Ht |- *.
      destruct Ht as (Hudp & Htcp & _). auto using canonical_udp, canonical_tcp.
    + intros Ht. rewrite !obind_unit, !refuse_Ok in Ht |- *. by rewrite length_fmap.
Qed.

End Trip.
