(* ===== verification/OptionsCommandLine.v ===== *)
(** * Options from the command line

    Models the constructor of [OptionsImpl] from the command line
    ([engine/source/client/options_impl.cc]), from what TCLAP has parsed to the
    validated options, with [Utility::parseHostPort]
    ([engine/source/common/utility.cc]) and the lists of allowed values.

    TCLAP itself, the regular expressions, reading a file and finding a free
    port are arguments. A value argument that was not given is [None]; a
    switch is given or not; a repeated argument is a list. *)

From stdpp Require Import gmap strings.
From S2P Require Import Prelude Text Uri Statistic BenchmarkClient Options OptionsMessages OptionsProofs.

(** ** Names of enumerators

    The tables of [options.proto], in its order, and the generated [_Parse]. *)

Definition ProtocolOptions_names : list (string * ProtocolOptions) :=
  [("HTTP1"%string, HTTP1); ("HTTP2"%string, HTTP2); ("HTTP3"%string, HTTP3)].

Definition VerbosityOptions_names : list (string * VerbosityOptions) :=
  [("DEFAULT"%string, VERBOSITY_DEFAULT); ("INFO"%string, VERBOSITY_INFO); ("TRACE"%string, VERBOSITY_TRACE);
   ("DEBUG"%string, VERBOSITY_DEBUG); ("WARN"%string, VERBOSITY_WARN); ("ERROR"%string, VERBOSITY_ERROR);
   ("CRITICAL"%string, VERBOSITY_CRITICAL)].

Definition OutputFormatOptions_names : list (string * OutputFormatOptions) :=
  [("DEFAULT"%string, FORMAT_DEFAULT); ("JSON"%string, FORMAT_JSON); ("HUMAN"%string, FORMAT_HUMAN);
   ("YAML"%string, FORMAT_YAML); ("DOTTED"%string, FORMAT_DOTTED); ("FORTIO"%string, FORMAT_FORTIO);
   ("EXPERIMENTAL_FORTIO_PEDANTIC"%string, FORMAT_EXPERIMENTAL_FORTIO_PEDANTIC); ("CSV"%string, FORMAT_CSV);
   ("PROMETHEUS"%string, FORMAT_PROMETHEUS)].

Definition AddressFamilyOptions_names : list (string * AddressFamilyOptions) :=
  [("AUTO"%string, FAMILY_AUTO); ("V4"%string, FAMILY_V4); ("V6"%string, FAMILY_V6)].

Definition SequencerIdleStrategyOptions_names : list (string * SequencerIdleStrategyOptions) :=
  [("DEFAULT"%string, IDLE_DEFAULT); ("SPIN"%string, IDLE_SPIN); ("POLL"%string, IDLE_POLL);
   ("SLEEP"%string, IDLE_SLEEP); ("WAIT"%string, IDLE_WAIT)].

Definition H1ConnectionReuseStrategyOptions_names : list (string * H1ConnectionReuseStrategyOptions) :=
  [("DEFAULT"%string, REUSE_DEFAULT); ("MRU"%string, REUSE_MRU); ("LRU"%string, REUSE_LRU)].

Fixpoint parse_name {A} (names : list (string * A)) (s : string) : option A :=
  match names with
  | [] => None
  | (n, v) :: names => if (n =? s)%string then Some v else parse_name names s
  end.

(** ** The values TCLAP lets through *)

Definition protocols : list string := ["http1"; "http2"; "http3"]%string.

Definition tunnel_protocols : list string := ["http1"; "http2"; "http3"]%string.

Definition log_levels : list string := ["trace"; "debug"; "info"; "warn"; "error"; "critical"]%string.

(** The names of the enumeration in lower case, less the first, which is the
    default. *)
Definition getLowerCaseOutputFormats `{AbslStrings} : list string :=
  AsciiStrToLower <$> tail OutputFormatOptions_names.*1.

Definition address_families : list string := ["auto"; "v4"; "v6"]%string.

Definition cli_request_methods : list string :=
  ["GET"; "HEAD"; "POST"; "PUT"; "DELETE"; "CONNECT"; "OPTIONS"; "TRACE"]%string.

Definition grpc_modes : list string := ["unary"; "bidi-stream"]%string.

Definition sequencer_idle_strategies : list string := ["spin"; "poll"; "sleep"; "wait"]%string.

Definition h1_connection_reuse_strategies : list string := ["mru"; "lru"]%string.

(** ** The parsed command line *)

Record CommandLine : Type := mkCommandLine {
  a_requests_per_second : option Z;
  a_connections : option Z;
  a_duration : option Z;
  a_timeout : option Z;
  a_h2 : bool;
  a_protocol : option string;
  a_http3_protocol_options : option string;
  a_tunnel_protocol : option string;
  a_tunnel_uri : option string;
  a_tunnel_tls_context : option string;
  a_concurrency : option string;
  a_verbosity : option string;
  a_output_format : option string;
  a_prefetch_connections : bool;
  a_burst_size : option Z;
  a_address_family : option string;
  a_request_method : option string;
  a_request_headers : list string;
  a_request_body_size : option Z;
  a_request_body_file : option string;
  a_grpc_mode : option string;
  a_websocket : bool;
  a_websocket_binary : bool;
  a_tcp_connections : option Z;
  a_tcp_max_inflight : option Z;
  a_tcp_no_echo : bool;
  a_tcp_max_messages : option Z;
  a_udp_max_inflight : option Z;
  a_udp_timeout : option string;
  a_streams : option Z;
  a_max_inflight_per_stream : option Z;
  a_stream_drain_duration : option string;
  a_tls_context : option string;
  a_upstream_bind_config : option string;
  a_transport_socket : option string;
  a_max_pending_requests : option Z;
  a_max_active_requests : option Z;
  a_max_requests_per_connection : option Z;
  a_max_concurrent_streams : option Z;
  a_sequencer_idle_strategy : option string;
  a_trace : option string;
  a_termination_predicates : list string;
  a_failure_predicates : list string;
  a_no_default_failure_predicates : bool;
  a_h1_connection_reuse_strategy : option string;
  a_open_loop : bool;
  a_jitter_uniform : option string;
  a_nighthawk_service : option string;
  a_h2_use_multiple_connections : bool;
  a_multi_target_endpoints : list string;
  a_multi_target_path : option string;
  a_multi_target_use_https : bool;
  a_labels : list string;
  a_uri : option string;
  a_request_source : option string;
  a_request_source_plugin_config : option string;
  a_rate_limiter_plugin_config : option string;
  a_simple_warmup : bool;
  a_no_duration : bool;
  a_stats_sinks : list string;
  a_stats_flush_interval : option Z;
  a_stats_flush_interval_duration : option string;
  a_latency_response_header_name : option string;
  a_user_defined_output_plugin_configs : list string;
}.

(** Members of a command line as TCLAP leaves them: a value with a constraint
    is one of the allowed ones. *)
Definition allowed (values : list string) (a : option string) : Prop :=
  match a with Some v => v ∈ values | None => True end.

Record constrained `{AbslStrings} (a : CommandLine) : Prop := {
  ok_protocol : allowed protocols (a_protocol a);
  ok_tunnel_protocol : allowed tunnel_protocols (a_tunnel_protocol a);
  ok_verbosity : allowed log_levels (a_verbosity a);
  ok_output_format : allowed getLowerCaseOutputFormats (a_output_format a);
  ok_address_family : allowed address_families (a_address_family a);
  ok_request_method : allowed cli_request_methods (a_request_method a);
  ok_idle_strategy : allowed sequencer_idle_strategies (a_sequencer_idle_strategy a);
  ok_reuse_strategy : allowed h1_connection_reuse_strategies (a_h1_connection_reuse_strategy a);
}.

(** ** What the constructor relies on *)

(** [absl::AsciiStrToUpper], [RE2::FullMatch] with a string and an [int]
    captured, and what reading a file gives: it cannot be opened, with why; it
    cannot be read; its contents. *)
Inductive FileRead : Type := OpenFailed (why : string) | ReadFailed | FileContents (contents : string).

Class CommandLineEnv : Type := {
  AsciiStrToUpper : string -> string;
  RE2_FullMatch : string -> string -> option (string * Z);
  read_file : string -> FileRead;
}.

Definition upper_case (s : string) : string :=
  smap (fun c => if is_lower c then ascii_of_N (N_of_ascii c - 32) else c) s.

Section Constructor.
Context `{Messages} `{TimeUtil} `{RequestMethods} `{SystemClock} `{AbslMatch} `{UriEnv} `{AbslStrings} `{CommandLineEnv}.
Context (message_error : OptionsMessage -> option string).
Context (GetAvailablePort : bool -> AddressFamilyOptions -> outcome Z).

(** ** Helpers *)

(** [!argument.getValue().empty()] with an empty string for default. *)
Definition given (a : option string) : bool := negb (default EmptyString a =? EmptyString)%string.

Definition load_json (type : MessageType) (json : string) : outcome message :=
  match loadFromJson type json with
  | inl m => Ok m
  | inr what => Throw (MalformedArgvException what)
  end.

(** A JSON argument, when its value is not empty. *)
Definition load_given (type : MessageType) (a : option string) : outcome (option message) :=
  if given a then let* m := load_json type (default EmptyString a) in Ok (Some m) else Ok None.

Fixpoint load_all (type : MessageType) (texts : list string) : outcome (list message) :=
  match texts with
  | [] => Ok []
  | t :: texts => let* m := load_json type t in let* ms := load_all type texts in Ok (m :: ms)
  end.

(** An enumerator given by name, in any case, or the member as it was. *)
Definition enum_or {A} (parse : string -> option A) (what : string) (a : option string) (member : A) : outcome A :=
  match a with
  | None => Ok member
  | Some name =>
      match parse (AsciiStrToUpper name) with
      | Some v => Ok v
      | None => Panic what
      end
  end.

(** A duration that is not negative, in nanoseconds. *)
Definition cli_nanoseconds (a : option string) (invalid out_of_range : string) (member : Z) : outcome Z :=
  match a with
  | None => Ok member
  | Some text =>
      match Duration_FromString text with
      | Some d =>
          if (0 <=? nanos d) && (0 <=? seconds d) then Ok (DurationToNanoseconds d)
          else Throw (MalformedArgvException out_of_range)
      | None => Throw (MalformedArgvException invalid)
      end
  end.

Definition readRequestBodyFile (path : string) : outcome string :=
  match read_file path with
  | OpenFailed why =>
      Throw (MalformedArgvException ("Failed to open --request-body-file '" +:+ path +:+ "': " +:+ why))
  | ReadFailed => Throw (MalformedArgvException ("Failed to read --request-body-file '" +:+ path +:+ "'"))
  | FileContents contents =>
      refuse (largest_acceptable_uint32_option_value <? Z.of_nat (String.length contents))
        ("--request-body-file '" +:+ path +:+ "' is larger than the maximum request body size of " +:+
         fmt_u64 largest_acceptable_uint32_option_value +:+ " bytes") ;;;
      Ok contents
  end.

(** ** Predicates *)

(** [absl::SkipWhitespace]: pieces of white space alone are dropped. *)
Definition split_predicate (predicate : string) : list string :=
  List.filter (fun piece => negb (StripAsciiWhitespace piece =? EmptyString)%string) (StrSplit ":"%char predicate).

Definition parsePredicate (predicate : string) (predicates : gmap string Z) : outcome (gmap string Z) :=
  match split_predicate predicate with
  | [name; threshold] =>
      match atoi_u64 threshold with
      | Some threshold => Ok (<[name := threshold]> predicates)
      | None => Throw (MalformedArgvException ("Termination predicate '" +:+ predicate +:+
                                               "' has an out of range threshold."))
      end
  | _ => Throw (MalformedArgvException ("Termination predicate '" +:+ predicate +:+ "' is badly formatted."))
  end.

Fixpoint parsePredicates_loop (arg : list string) (predicates : gmap string Z) : outcome (gmap string Z) :=
  match arg with
  | [] => Ok predicates
  | p :: arg => let* predicates := parsePredicate p predicates in parsePredicates_loop arg predicates
  end.

(** An argument that is set replaces what was there. *)
Definition parsePredicates (arg : list string) (predicates : gmap string Z) : outcome (gmap string Z) :=
  parsePredicates_loop arg (match arg with [] => predicates | _ => ∅ end).

(** ** Endpoints *)

Definition ipv4_port : string := "(\d+\.\d+\.\d+\.\d+):(\d+)".

Definition ipv6_port : string := "(\[[.:0-9a-fA-F]+\]):(\d+)".

Definition dns_port : string := "([-.0-9a-zA-Z]+):(\d+)".

Definition parseHostPort (host_port : string) : option (string * Z) :=
  match RE2_FullMatch host_port ipv4_port with
  | Some r => Some r
  | None => match RE2_FullMatch host_port ipv6_port with
            | Some r => Some r
            | None => RE2_FullMatch host_port dns_port
            end
  end.

(** The port, an [int], is kept as a [uint32_t]. *)
Fixpoint parse_endpoints (host_ports : list string) : outcome (list Endpoint) :=
  match host_ports with
  | [] => Ok []
  | host_port :: host_ports =>
      match parseHostPort host_port with
      | Some (host, port) =>
          let* endpoints := parse_endpoints host_ports in
          Ok (mkEndpoint (Some host) (Some (u32 port)) :: endpoints)
      | None =>
          Throw (MalformedArgvException
                   ("--multi-target-endpoint must be in the format " +:+ "IPv4:port, [IPv6]:port, or DNS:port. Got '" +:+
                    host_port +:+ "'"))
      end
  end.

(** ** Checks of the command line *)

Definition is_set {A} (a : option A) : bool := match a with Some _ => true | None => false end.

Definition not_empty {A} (l : list A) : bool := match l with [] => false | _ => true end.

Definition check_exclusive (a : CommandLine) : outcome unit :=
  refuse (a_h2_use_multiple_connections a)
    ("--experimental-h2-use-multiple-connections is deprecated, set " +:+ "--max-concurrent-streams to one instead") ;;;
  refuse (is_set (a_duration a) && a_no_duration a) "--duration and --no-duration are mutually exclusive" ;;;
  refuse (is_set (a_stats_flush_interval a) && is_set (a_stats_flush_interval_duration a))
    ("--stats-flush-interval and --stats-flush-interval-duration are " +:+ "mutually exclusive") ;;;
  refuse ((is_set (a_stats_flush_interval a) || is_set (a_stats_flush_interval_duration a)) &&
          negb (not_empty (a_stats_sinks a)))
    ("if --stats-flush-interval or --stats-flush-interval-duration is set, " +:+ "then --stats-sinks must also be set").

(** The values of the options that are capped against wrapped negatives. *)
Definition check_limits (requests_per_second connections duration timeout request_body_size burst_size
    max_pending_requests max_active_requests max_requests_per_connection max_concurrent_streams stats_flush_interval : Z) :
    outcome unit :=
  let large v := largest_acceptable_uint32_option_value <? v in
  refuse (large requests_per_second) "Invalid value for --rps" ;;;
  refuse (large connections) "Invalid value for --connections" ;;;
  refuse (large duration) "Invalid value for --duration" ;;;
  refuse (large timeout) "Invalid value for --timeout" ;;;
  refuse (large request_body_size) "Invalid value for --request-body-size" ;;;
  refuse (large burst_size) "Invalid value for --burst-size" ;;;
  refuse (large max_pending_requests) "Invalid value for --max-pending-requests" ;;;
  refuse (large max_active_requests) "Invalid value for --max-active-requests" ;;;
  refuse (large max_requests_per_connection) "Invalid value for --max-requests-per-connection" ;;;
  refuse (largest_acceptable_concurrent_streams_value <? max_concurrent_streams)
    ("Invalid value " +:+ fmt_u64 max_concurrent_streams +:+
     " for --max_concurrent_streams, the largest allowed value is " +:+
     fmt_u64 largest_acceptable_concurrent_streams_value +:+ ".") ;;;
  refuse (large stats_flush_interval) "Invalid value for --stats-flush-interval".

Definition cli_http3 (a : CommandLine) (protocol : ProtocolOptions) : outcome (option message) :=
  if given (a_http3_protocol_options a) then
    refuse (bool_decide (protocol <> HTTP3)) "--http3-protocol-options can only be used with --protocol http3" ;;;
    refuse (is_set (a_max_concurrent_streams a))
      "--http3-protocol-options and --max-concurrent-streams are mutually exclusive" ;;;
    load_given Http3ProtocolOptions (a_http3_protocol_options a)
  else Ok None.

Definition cli_request_method (a : CommandLine) (grpc : bool) : outcome Z :=
  match a_request_method a with
  | Some _ => enum_or RequestMethod_Parse "Failed to parse request method" (a_request_method a) METHOD_GET
  | None => Ok (if grpc then METHOD_POST else METHOD_GET)
  end.

Definition cli_stats_flush_duration (a : CommandLine) : outcome Duration :=
  match a_stats_flush_interval_duration a with
  | None => Ok (o_stats_flush_interval_duration default_options)
  | Some text =>
      match Duration_FromString text with
      | Some d =>
          refuse ((nanos d <? 0) || (seconds d <? 0)) "--stats-flush-interval-duration is out of range" ;;;
          Ok d
      | None => Throw (MalformedArgvException "Invalid value for --stats-flush-interval-duration")
      end
  end.

(** [tls_context_], [upstream_bind_config_] and [transport_socket_]. *)
Definition cli_transport (a : CommandLine) : outcome (message * option message * option message) :=
  refuse (given (a_tls_context a) && given (a_transport_socket a))
    "--tls-context and --transport-socket cannot both be set." ;;;
  let* tls := load_given UpstreamTlsContext (a_tls_context a) in
  let* bind := load_given BindConfig (a_upstream_bind_config a) in
  let* socket := load_given TransportSocket (a_transport_socket a) in
  Ok (default (o_tls_context default_options) tls, bind, socket).

(** [request_source_plugin_config_], [rate_limiter_plugin_config_] and
    [user_defined_output_plugin_configs_]. *)
Definition cli_plugins (a : CommandLine) : outcome (option message * option message * list message) :=
  refuse (given (a_request_source a) && given (a_request_source_plugin_config a))
    "--request-source and --request_source_plugin_config cannot both be set." ;;;
  let* source := load_given TypedExtensionConfig (a_request_source_plugin_config a) in
  let* limiter :=
    (if given (a_rate_limiter_plugin_config a) then
       refuse (is_set (a_burst_size a)) "--burst-size and --rate-limiter-plugin-config are mutually exclusive" ;;;
       refuse (is_set (a_jitter_uniform a)) "--jitter-uniform and --rate-limiter-plugin-config are mutually exclusive" ;;;
       load_given TypedExtensionConfig (a_rate_limiter_plugin_config a)
     else Ok None) in
  let* outputs := load_all TypedExtensionConfig (a_user_defined_output_plugin_configs a) in
  Ok (source, limiter, outputs).

(** [tunnel_protocol_], [tunnel_uri_], [encap_port_] and
    [tunnel_tls_context_]. *)
Definition cli_tunnel (a : CommandLine) (protocol : ProtocolOptions) (family : AddressFamilyOptions) :
    outcome (ProtocolOptions * string * Z * option message) :=
  let d := default_options in
  let* tunnel_protocol :=
    enum_or (parse_name ProtocolOptions_names) "Failed to parse tunnel protocol" (a_tunnel_protocol a)
      (o_tunnel_protocol d) in
  let* uri_port :=
    (if is_set (a_tunnel_protocol a) then
       match a_tunnel_uri a with
       | None => Throw (MalformedArgvException "--tunnel-protocol requires --tunnel-uri")
       | Some uri => let* port := GetAvailablePort (bool_decide (protocol = HTTP3)) family in Ok (uri, port)
       end
     else
       refuse (is_set (a_tunnel_uri a) || is_set (a_tunnel_tls_context a)) "tunnel flags require --tunnel-protocol" ;;;
       Ok (o_tunnel_uri d, o_encap_port d)) in
  let* tls :=
    (if given (a_tunnel_tls_context a) then load_given UpstreamTlsContext (a_tunnel_tls_context a)
     else
       refuse (bool_decide (tunnel_protocol = HTTP3))
         "--tunnel-tls-context is required to use --tunnel-protocol http3" ;;;
       Ok (o_tunnel_tls_context d)) in
  (if is_set (a_tunnel_protocol a) then
     refuse (bool_decide (tunnel_protocol = HTTP3) && bool_decide (protocol = HTTP3))
       "--protocol HTTP3 over --tunnel-protocol HTTP3 is not supported" ;;;
     refuse (bool_decide (tunnel_protocol = HTTP1) && bool_decide (protocol = HTTP3))
       "--protocol HTTP3 over --tunnel-protocol HTTP1 is not supported"
   else Ok tt) ;;;
  Ok (tunnel_protocol, uri_port.1, uri_port.2, tls).

(** ** The constructor *)

Definition cli_grpc_mode (a : CommandLine) : GrpcModeOptions :=
  match a_grpc_mode a with
  | Some mode => if (mode =? "unary")%string then GRPC_UNARY else GRPC_BIDI_STREAM
  | None => o_grpc_mode default_options
  end.

Definition cli_protocol (a : CommandLine) : outcome ProtocolOptions :=
  enum_or (parse_name ProtocolOptions_names) "Failed to parse protocol" (a_protocol a)
    (if grpcEnabled (cli_grpc_mode a) && negb (a_h2 a) && negb (is_set (a_protocol a)) then HTTP2
     else o_protocol default_options).

Definition cli_failure_predicates (a : CommandLine) : outcome (gmap string Z) :=
  parsePredicates (a_failure_predicates a)
    (if a_no_default_failure_predicates a then ∅ else o_failure_predicates default_options).

Definition OptionsImpl_of_command_line (a : CommandLine) : outcome OptionsImpl :=
  let d := default_options in
  check_exclusive a ;;;
  let requests_per_second := default (o_requests_per_second d) (a_requests_per_second a) in
  let connections := default (o_connections d) (a_connections a) in
  let duration := default (o_duration d) (a_duration a) in
  let timeout := default (o_timeout d) (a_timeout a) in
  refuse (a_h2 a && is_set (a_protocol a)) "--h2 and --protocol are mutually exclusive" ;;;
  let mode := cli_grpc_mode a in
  let* udp_timeout := cli_nanoseconds (a_udp_timeout a) "Invalid value for --udp-timeout"
                        "Invalid value for --udp-timeout" (o_udp_timeout d) in
  let streams := default (o_streams d) (a_streams a) in
  let* stream_drain_duration :=
    cli_nanoseconds (a_stream_drain_duration a) "Invalid value for --stream-drain-duration"
      "Invalid value for --stream-drain-duration" (o_stream_drain_duration d) in
  let concurrency := default (o_concurrency d) (a_concurrency a) in
  let* protocol := cli_protocol a in
  let* http3_protocol_options := cli_http3 a protocol in
  let* verbosity := enum_or (parse_name VerbosityOptions_names) "Failed to parse verbosity" (a_verbosity a)
                      VERBOSITY_INFO in
  let* output_format := enum_or (parse_name OutputFormatOptions_names) "Failed to parse output format"
                          (a_output_format a) FORMAT_HUMAN in
  let* address_family := enum_or (parse_name AddressFamilyOptions_names) "Failed to parse address family"
                           (a_address_family a) (o_address_family d) in
  let* request_method := cli_request_method a (grpcEnabled mode) in
  let* request_body := match a_request_body_file a with
                       | Some path => readRequestBodyFile path
                       | None => Ok (o_request_body d)
                       end in
  let max_pending_requests := raisePendingRequestsForStreams mode (a_websocket a) concurrency streams
                                (default (o_max_pending_requests d) (a_max_pending_requests a)) in
  let* sequencer_idle_strategy :=
    enum_or (parse_name SequencerIdleStrategyOptions_names) "Failed to parse sequencer idle strategy"
      (a_sequencer_idle_strategy a) (o_sequencer_idle_strategy d) in
  let* h1_connection_reuse_strategy :=
    enum_or (parse_name H1ConnectionReuseStrategyOptions_names) "Failed to parse h1 connection reuse strategy"
      (a_h1_connection_reuse_strategy a) (o_h1_connection_reuse_strategy d) in
  let* termination_predicates := parsePredicates (a_termination_predicates a) (o_termination_predicates d) in
  let* failure_predicates := cli_failure_predicates a in
  let* jitter_uniform := cli_nanoseconds (a_jitter_uniform a) "Invalid value for --jitter-uniform"
                           "--jitter-uniform is out of range" (o_jitter_uniform d) in
  let* multi_target_endpoints := parse_endpoints (a_multi_target_endpoints a) in
  let* stats_sinks := load_all StatsSinkConfig (a_stats_sinks a) in
  let* stats_flush_interval_duration := cli_stats_flush_duration a in
  let request_body_size := default (o_request_body_size d) (a_request_body_size a) in
  let burst_size := default (o_burst_size d) (a_burst_size a) in
  let max_active_requests := default (o_max_active_requests d) (a_max_active_requests a) in
  let max_requests_per_connection := default (o_max_requests_per_connection d) (a_max_requests_per_connection a) in
  let max_concurrent_streams := default (o_max_concurrent_streams d) (a_max_concurrent_streams a) in
  let stats_flush_interval := default (o_stats_flush_interval d) (a_stats_flush_interval a) in
  check_limits requests_per_second connections duration timeout request_body_size burst_size max_pending_requests
    max_active_requests max_requests_per_connection max_concurrent_streams stats_flush_interval ;;;
  let* transport := cli_transport a in
  let '(tls_context, upstream_bind_config, transport_socket) := transport in
  let* plugins := cli_plugins a in
  let '(request_source_plugin_config, rate_limiter_plugin_config, user_defined_output_plugin_configs) := plugins in
  let* tunnel := cli_tunnel a protocol address_family in
  let '(tunnel_protocol, tunnel_uri, encap_port, tunnel_tls_context) := tunnel in
  let o := {|
    o_requests_per_second := requests_per_second;
    o_connections := connections;
    o_duration := duration;
    o_timeout := timeout;
    o_uri := a_uri a;
    o_tcp := match a_uri a with Some uri => isTcpUri uri | None => o_tcp d end;
    o_udp := match a_uri a with Some uri => isUdpUri uri | None => o_udp d end;
    o_grpc_mode := mode;
    o_websocket := a_websocket a;
    o_websocket_binary := a_websocket_binary a;
    o_tcp_connections := default (o_tcp_connections d) (a_tcp_connections a);
    o_tcp_max_inflight := default (o_tcp_max_inflight d) (a_tcp_max_inflight a);
    o_tcp_expect_echo := negb (a_tcp_no_echo a);
    o_tcp_max_messages := default (o_tcp_max_messages d) (a_tcp_max_messages a);
    o_udp_max_inflight := default (o_udp_max_inflight d) (a_udp_max_inflight a);
    o_udp_timeout := udp_timeout;
    o_streams := streams;
    o_max_inflight_per_stream := default (o_max_inflight_per_stream d) (a_max_inflight_per_stream a);
    o_stream_drain_duration := stream_drain_duration;
    o_h2 := a_h2 a;
    o_concurrency := concurrency;
    o_protocol := protocol;
    o_http3_protocol_options := http3_protocol_options;
    o_verbosity := verbosity;
    o_output_format := output_format;
    o_prefetch_connections := a_prefetch_connections a;
    o_burst_size := burst_size;
    o_address_family := address_family;
    o_request_method := request_method;
    o_request_headers := a_request_headers a;
    o_request_body_size := request_body_size;
    o_request_body := request_body;
    o_max_pending_requests := max_pending_requests;
    o_max_active_requests := max_active_requests;
    o_max_requests_per_connection := max_requests_per_connection;
    o_max_concurrent_streams := max_concurrent_streams;
    o_sequencer_idle_strategy := sequencer_idle_strategy;
    o_request_source := default (o_request_source d) (a_request_source a);
    o_h1_connection_reuse_strategy := h1_connection_reuse_strategy;
    o_trace := default (o_trace d) (a_trace a);
    o_termination_predicates := termination_predicates;
    o_no_default_failure_predicates := a_no_default_failure_predicates a;
    o_failure_predicates := failure_predicates;
    o_open_loop := a_open_loop a;
    o_jitter_uniform := jitter_uniform;
    o_nighthawk_service := default (o_nighthawk_service d) (a_nighthawk_service a);
    o_h2_use_multiple_connections := o_h2_use_multiple_connections d;
    o_multi_target_use_https := a_multi_target_use_https a;
    o_multi_target_path := default (o_multi_target_path d) (a_multi_target_path a);
    o_multi_target_endpoints := multi_target_endpoints;
    o_labels := a_labels a;
    o_simple_warmup := a_simple_warmup a;
    o_no_duration := a_no_duration a;
    o_stats_sinks := stats_sinks;
    o_stats_flush_interval := stats_flush_interval;
    o_stats_flush_interval_duration := stats_flush_interval_duration;
    o_latency_response_header_name :=
      default (o_latency_response_header_name d) (a_latency_response_header_name a);
    o_tls_context := tls_context;
    o_upstream_bind_config := upstream_bind_config;
    o_transport_socket := transport_socket;
    o_request_source_plugin_config := request_source_plugin_config;
    o_rate_limiter_plugin_config := rate_limiter_plugin_config;
    o_user_defined_output_plugin_configs := user_defined_output_plugin_configs;
    o_tunnel_protocol := tunnel_protocol;
    o_tunnel_uri := tunnel_uri;
    o_encap_port := encap_port;
    o_tunnel_tls_context := tunnel_tls_context;
    o_scheduled_start := o_scheduled_start d;
    o_execution_id := o_execution_id d;
  |} in
  OptionsImpl_validate message_error o ;;;
  Ok o.

End Constructor.
