(* ===== verification/OptionsTheorems.v ===== *)
(** * Theorems on the options

    Both constructors of [OptionsImpl] ([engine/source/client/options_impl.cc])
    end with options or an exception, never with a failed assertion; what they
    make is consistent, survives a trip through [CommandLineOptions], and meets
    what the clients built from it assert. *)

From stdpp Require Import gmap strings.
From S2P Require Import Prelude Text Uri Statistic BenchmarkClient Options OptionsMessages OptionsProofs OptionsCommandLine.

(** ** Code that ends with a value or an exception of the program's own *)

(** The exceptions derived from [NighthawkException] that the main programs catch
    and report as a failure. *)
Definition reported (e : exn) : bool :=
  match e with EnvoyException _ | NoServingException => false | _ => true end.

Definition returns {A} (r : outcome A) : Prop :=
  match r with Ok _ => True | Throw e => reported e = true | Panic _ | Undefined => False end.

Create HintDb returns.

Lemma returns_Ok {A} (a : A) : returns (Ok a).
Proof. done. Qed.

Lemma returns_Throw {A} e : reported e = true -> returns (@Throw A e).
Proof. done. Qed.

Lemma returns_bind {A B} (r : outcome A) (f : A -> outcome B) :
  returns r -> (forall a, r = Ok a -> returns (f a)) -> returns (obind r f).
Proof. destruct r; cbn; auto. Qed.

Lemma returns_refuse b what : returns (refuse b what).
Proof. by destruct b. Qed.

Lemma returns_if {A} (b : bool) (r s : outcome A) : (b = true -> returns r) -> (b = false -> returns s) -> returns (if b then r else s).
Proof. destruct b; auto. Qed.

#[export] Hint Resolve returns_Ok returns_Throw returns_refuse : returns.
#[export] Hint Extern 1 (reported _ = true) => reflexivity : returns.

(** Goes through a sequence of binds, conditionals and matches. *)
Ltac returns_step :=
  match goal with
  | |- returns (obind _ _) => apply returns_bind; [|intros ? ?]
  | |- returns (if _ then _ else _) => apply returns_if; intros ?
  | |- returns (match ?x with _ => _ end) => destruct x
  | |- _ => solve [eauto with returns]
  end.

Section Returns.
Context `{Messages} `{TimeUtil} `{RequestMethods} `{SystemClock} `{AbslMatch} `{UriEnv} `{AbslStrings}.

Lemma returns_header_messages headers : returns (header_messages headers).
Proof. induction headers; cbn; unfold header_message; repeat returns_step. Qed.

Lemma returns_uri uri scheme : returns (UriImpl_new uri scheme).
Proof. unfold UriImpl_new. repeat returns_step. Qed.

Lemma returns_parse_uri uri scheme what : returns (parse_uri_or uri scheme what).
Proof. unfold parse_uri_or. pose proof (returns_uri uri scheme) as Hu. destruct (UriImpl_new uri scheme) as [| [] | |]; done. Qed.

#[local] Hint Resolve returns_header_messages returns_parse_uri : returns.

Lemma returns_toCommandLineOptions o : returns (toCommandLineOptionsInternal o).
Proof. unfold toCommandLineOptionsInternal, request_message. destruct (stream_messages o) as [[[? ?] ?] ?]. repeat returns_step. Qed.

#[local] Hint Resolve returns_toCommandLineOptions : returns.

Lemma returns_validate message_error o : returns (OptionsImpl_validate message_error o).
Proof.
  unfold OptionsImpl_validate, validate_grpc, validate_websocket, validate_streams, validate_concurrency,
    validate_request_source, validate_target, validate_udp, validate_tcp. cbv zeta.
  repeat returns_step.
Qed.

End Returns.

#[export] Hint Resolve returns_validate : returns.

(** ** What each check lets through *)

Ltac unneg := repeat match goal with H : ~ (_ <> _) |- _ => apply dec_stable in H end.

Section Checks.
Context `{Messages} `{RequestMethods} `{UriEnv} `{AbslStrings}.

(** The workers a concurrency stands for, when it is a number. *)
Definition numeric_concurrency (o : OptionsImpl) (c : Z) : Prop := stoi (o_concurrency o) = Some c /\ 0 < c.

Lemma valid_concurrency o :
  validate_concurrency o = Ok tt -> o_concurrency o = "auto"%string \/ exists c, numeric_concurrency o c.
Proof.
  unfold validate_concurrency, numeric_concurrency. destruct (String.eqb_spec (o_concurrency o) "auto"); [by left|].
  destruct (stoi (o_concurrency o)) as [c|]; [|by destruct (stoi_no_digit _)]. rewrite refuse_Ok.
  intros Hc. b2p. right. by exists c.
Qed.

Lemma valid_grpc o :
  validate_grpc o = Ok tt -> o_grpc_mode o <> GRPC_NONE ->
  OptionsImpl_protocol o = Http2 /\ o_request_method o = METHOD_POST.
Proof.
  unfold validate_grpc, grpcEnabled, OptionsImpl_protocol. intros Hv Hg. rewrite bool_decide_eq_true_2 in Hv by done.
  rewrite !obind_unit, !refuse_Ok in Hv. destruct Hv as (Hp & Hm & _). b2p. split; [|done].
  destruct (o_h2 o); [done|]. apply refuse_Ok in Hp. apply bool_decide_eq_false, dec_stable in Hp. by rewrite Hp.
Qed.

Lemma valid_websocket o :
  validate_websocket o = Ok tt -> o_websocket o = true ->
  o_grpc_mode o = GRPC_NONE /\ o_request_method o = METHOD_GET.
Proof.
  unfold validate_websocket, grpcEnabled. intros Hv Hw. rewrite Hw, !obind_unit, !refuse_Ok in Hv.
  destruct Hv as (Hg & _ & Hm). b2p. by unneg.
Qed.

Lemma valid_streams o :
  validate_streams o = Ok tt -> streamModeEnabled (o_grpc_mode o) (o_websocket o) = true ->
  exists c, numeric_concurrency o c /\ (c | o_streams o) /\ (c | o_requests_per_second o) /\ o_streams o <> 0 /\
    o_streams o / c <= o_max_active_requests o /\ o_max_inflight_per_stream o <> 0.
Proof.
  unfold validate_streams, numeric_concurrency. intros Hv Hmode. rewrite Hmode in Hv.
  rewrite !obind_unit, !refuse_Ok in Hv. destruct Hv as (Hc & _ & Hs & Hr & Hi & Hm & _).
  destruct (_ =? "auto")%string; [done|]. destruct (stoi (o_concurrency o)) as [c|]; [|done]. cbn in *. b2p.
  exists c. split_and!; try done; by apply Z.mod_divide; [lia|].
Qed.

Lemma valid_udp o :
  validate_udp o = Ok tt -> o_udp o = true ->
  o_grpc_mode o = GRPC_NONE /\ o_websocket o = false /\ o_udp_max_inflight o <> 0 /\ 0 < o_udp_timeout o /\
  no_body o = false.
Proof.
  unfold validate_udp, grpcEnabled. intros Hv Hu. rewrite Hu, !obind_unit, !refuse_Ok in Hv.
  destruct Hv as (Hg & _ & Hb & _ & Hi & _). b2p. by unneg.
Qed.

Lemma valid_tcp o :
  validate_tcp o = Ok tt -> o_tcp o = true ->
  o_grpc_mode o = GRPC_NONE /\ o_websocket o = false /\ o_tcp_connections o <> 0 /\ o_tcp_max_inflight o <> 0 /\
  (o_tcp_expect_echo o = true -> no_body o = false).
Proof.
  unfold validate_tcp, grpcEnabled. intros Hv Hu. rewrite Hu, !obind_unit, !refuse_Ok in Hv.
  destruct Hv as (Hg & _ & Hb & Hi & _). b2p. split_and!; try done.
  - by unneg.
  - intros He. by rewrite He in Hb.
Qed.

(** A URI that parses, with the raw modes checked, or endpoints and a path. *)
Lemma valid_target o :
  validate_target o = Ok tt ->
  match o_uri o with
  | Some uri => (exists u, UriImpl_new uri "http" = Ok u) /\ validate_udp o = Ok tt /\ validate_tcp o = Ok tt /\
      o_multi_target_endpoints o = []
  | None => o_multi_target_endpoints o <> [] /\ o_multi_target_path o <> EmptyString
  end.
Proof.
  unfold validate_target, parse_uri_or. destruct (o_uri o) as [uri|].
  - intros Hv. apply obind_Ok in Hv as (u & Hu & Hv). rewrite !obind_unit, !refuse_Ok in Hv.
    destruct Hv as (Hudp & Htcp & Hm). b2p. split_and!; try done.
    + exists u. destruct (UriImpl_new uri "http") as [|[]| |]; naive_solver.
    + by destruct (o_multi_target_endpoints o).
  - rewrite !obind_unit, !refuse_Ok. intros [He Hp]. split; [by destruct (o_multi_target_endpoints o)|].
    by destruct (String.eqb_spec (o_multi_target_path o) EmptyString).
Qed.

End Checks.

(** ** The command line *)

(** What Abseil documents of the case conversions, and Envoy's methods: every
    allowed name is a method other than [METHOD_UNSPECIFIED]. *)
Class CommandLineLaws `{CommandLineEnv} `{AbslStrings} `{RequestMethods} : Prop := {
  upper_documented s : AsciiStrToUpper s = upper_case s;
  lower_documented s : AsciiStrToLower s = lower_case s;
  method_documented name : name ∈ cli_request_methods ->
    exists v, RequestMethod_Parse (upper_case name) = Some v /\ v <> METHOD_UNSPECIFIED;
}.

Section CommandLines.
Context `{MessagesLaws} `{TimeUtilLaws} `{RequestMethodsLaws} `{SystemClock} `{AbslMatch} `{UriEnv} `{AbslStrings}
        `{CommandLineEnv} {CL : CommandLineLaws}.
Context (message_error : OptionsMessage -> option string).
Context (GetAvailablePort : bool -> AddressFamilyOptions -> outcome Z).

(** An allowed value is the name of an enumerator. *)
Lemma enum_or_allowed {A} (parse : string -> option A) what values a (member : A) :
  (forall v, v ∈ values -> parse (upper_case v) <> None) -> allowed values a ->
  returns (enum_or parse what a member).
Proof.
  intros Hp Ha. unfold enum_or. destruct a as [v|]; [|done]. rewrite upper_documented.
  specialize (Hp v Ha). by destruct (parse (upper_case v)).
Qed.

(** Checks every name of a list. *)
Lemma names_parsed {A} (names : list (string * A)) (values : list string) :
  forallb (fun v => is_set (parse_name names (upper_case v))) values = true ->
  forall v, v ∈ values -> parse_name names (upper_case v) <> None.
Proof.
  rewrite forallb_forall. intros Hf v Hv. specialize (Hf v (proj1 (list_elem_of_In _ _) Hv)).
  by destruct (parse_name names (upper_case v)).
Qed.

Lemma formats_parsed v : v ∈ getLowerCaseOutputFormats -> parse_name OutputFormatOptions_names (upper_case v) <> None.
Proof.
  apply names_parsed. unfold getLowerCaseOutputFormats. cbn. rewrite !lower_documented. reflexivity.
Qed.

Lemma returns_load_json type text : returns (load_json type text).
Proof. unfold load_json. by destruct (loadFromJson type text). Qed.

#[local] Hint Resolve returns_load_json : returns.

Lemma returns_load_given type a : returns (load_given type a).
Proof. unfold load_given. repeat returns_step. Qed.

Lemma returns_load_all type texts : returns (load_all type texts).
Proof. induction texts; cbn; repeat returns_step. Qed.

Lemma returns_nanoseconds a w w' member : returns (cli_nanoseconds a w w' member).
Proof. unfold cli_nanoseconds. repeat returns_step. Qed.

Lemma returns_predicates arg predicates : returns (parsePredicates arg predicates).
Proof.
  unfold parsePredicates. generalize (match arg with [] => predicates | _ => ∅ end).
  induction arg as [|p arg IH]; intros m; cbn; unfold parsePredicate; repeat returns_step.
Qed.

Lemma returns_endpoints host_ports : returns (parse_endpoints host_ports).
Proof. induction host_ports; cbn; repeat returns_step. Qed.

#[local] Hint Resolve returns_load_given returns_load_all returns_nanoseconds returns_predicates returns_endpoints : returns.

Lemma returns_request_method a grpc : constrained a -> returns (cli_request_method a grpc).
Proof.
  intros Ha. unfold cli_request_method. destruct (a_request_method a) eqn:E; [|done]. rewrite <- E.
  apply (enum_or_allowed _ _ cli_request_methods); [|apply Ha].
  intros v Hv. destruct (method_documented v Hv) as (w & -> & _). done.
Qed.

Lemma returns_tunnel a protocol family :
  constrained a -> (forall b f, returns (GetAvailablePort b f)) -> returns (cli_tunnel GetAvailablePort a protocol family).
Proof.
  intros Ha Hport. unfold cli_tunnel. apply returns_bind.
  { apply (enum_or_allowed _ _ tunnel_protocols); [by apply names_parsed|apply Ha]. }
  intros p Hp. repeat returns_step.
Qed.

Lemma returns_protocol a : constrained a -> returns (cli_protocol a).
Proof. intros []. by apply (enum_or_allowed _ _ protocols); [apply names_parsed|]. Qed.

Lemma returns_verbosity a w member :
  constrained a -> returns (enum_or (parse_name VerbosityOptions_names) w (a_verbosity a) member).
Proof. intros []. by apply (enum_or_allowed _ _ log_levels); [apply names_parsed|]. Qed.

Lemma returns_output_format a w member :
  constrained a -> returns (enum_or (parse_name OutputFormatOptions_names) w (a_output_format a) member).
Proof. intros []. apply (enum_or_allowed _ _ getLowerCaseOutputFormats); [apply formats_parsed|done]. Qed.

Lemma returns_address_family a w member :
  constrained a -> returns (enum_or (parse_name AddressFamilyOptions_names) w (a_address_family a) member).
Proof. intros []. by apply (enum_or_allowed _ _ address_families); [apply names_parsed|]. Qed.

Lemma returns_idle_strategy a w member :
  constrained a ->
  returns (enum_or (parse_name SequencerIdleStrategyOptions_names) w (a_sequencer_idle_strategy a) member).
Proof. intros []. by apply (enum_or_allowed _ _ sequencer_idle_strategies); [apply names_parsed|]. Qed.

Lemma returns_reuse_strategy a w member :
  constrained a ->
  returns (enum_or (parse_name H1ConnectionReuseStrategyOptions_names) w (a_h1_connection_reuse_strategy a) member).
Proof. intros []. by apply (enum_or_allowed _ _ h1_connection_reuse_strategies); [apply names_parsed|]. Qed.

#[local] Hint Resolve returns_request_method returns_tunnel returns_protocol returns_verbosity returns_output_format
  returns_address_family returns_idle_strategy returns_reuse_strategy : returns.

(** No command line that passes TCLAP makes the constructor of the options
    fail an assertion: every [RELEASE_ASSERT] on the name of an enumerator holds,
    because each value TCLAP allows is the name of one, and the constructor ends
    with options or with an exception of the program's own. *)
Lemma command_line_total a :
  constrained a -> (forall b f, returns (GetAvailablePort b f)) ->
  returns (OptionsImpl_of_command_line message_error GetAvailablePort a).
Proof.
  intros Ha Hport. unfold OptionsImpl_of_command_line, check_exclusive, cli_http3, readRequestBodyFile,
    cli_failure_predicates, cli_stats_flush_duration, check_limits, cli_transport, cli_plugins. cbv zeta.
  repeat returns_step.
Qed.

(** ** Consistency *)

Lemma nanoseconds_or_range d member : in_i64 member -> in_i64 (nanoseconds_or d member).
Proof. destruct d; [intros _; apply nanoseconds_range|done]. Qed.

Lemma message_streams_range m : in_i64 (message_streams m).2.
Proof.
  unfold message_streams.
  assert (in_i64 (o_stream_drain_duration default_options)) by (split; vm_compute; congruence).
  destruct (m_grpc_stream m), (m_tcp m), (m_websocket m); cbn; auto using nanoseconds_or_range.
Qed.

Lemma message_udp_range m : in_i64 (message_udp m).2.
Proof.
  unfold message_udp. assert (in_i64 (o_udp_timeout default_options)) by (split; vm_compute; congruence).
  destruct (m_udp m); cbn; auto using nanoseconds_or_range.
Qed.

Lemma message_request_method m grpc hs meth size body source plugin :
  message_request m grpc = (hs, meth, size, body, source, plugin) -> meth <> METHOD_UNSPECIFIED.
Proof.
  unfold message_request. intros E. pose proof get_specified. pose proof post_specified.
  destruct (m_request m); simplify_eq/=; [by destruct grpc| |by destruct grpc..].
  destruct (Z.eqb_spec (m_request_method r) METHOD_UNSPECIFIED); cbn; [by destruct grpc|done].
Qed.

Lemma message_limiter m config :
  message_rate_limiter m = Ok config -> config <> None ->
  default 0 (m_burst_size m) = 0 /\ nanoseconds_or (m_jitter_uniform m) 0 <= 0.
Proof.
  unfold message_rate_limiter. destruct (m_rate_limiter_plugin_config m); [|by intros [= <-]].
  rewrite !obind_unit, !refuse_Ok. intros (Hb & Hj & _) _. split.
  - destruct (m_burst_size m); [|done]. cbn. by b2p.
  - destruct (m_jitter_uniform m) as [[s n]|]; [|done]. cbn in *. b2p. subst. by rewrite nanoseconds_zero.
Qed.

Lemma message_failures_nonempty m : message_failure_predicates m false <> ∅.
Proof.
  unfold message_failure_predicates. rewrite set_predicates_union. cbn.
  case_bool_decide as He; cbn; [rewrite He, (left_id_L ∅ (∪))|by rewrite (right_id_L ∅ (∪))].
  apply insert_non_empty.
Qed.

(** A [Timestamp] as Protobuf documents it: the nanoseconds count forward. *)
Definition timestamp_ok (m : OptionsMessage) : Prop :=
  match m_scheduled_start m with Some t => 0 <= nanos t < 1000000000 | None => True end.

Lemma message_start m start t :
  tick_ns = 1 -> timestamp_ok m -> message_scheduled_start m = Ok start -> start = Some t ->
  in_i64 t /\ in_i64 (t / 1000000000 * 1000000000) /\ Z.quot (Z.quot t 1000 * 1000) tick_ns = t.
Proof.
  unfold timestamp_ok, message_scheduled_start. intros -> Hn. destruct (m_scheduled_start m) as [[s n]|]; [|naive_solver].
  cbn in *. rewrite Z.quot_1_r. set (ns := n + s * 1000000000).
  case_bool_decide as Hs; case_bool_decide as Hns; cbn; try discriminate. intros [= <-] [= <-].
  rewrite Z.quot_1_r, Z.quot_mul by done. unfold in_i64 in *.
  pose proof (Z.quot_rem ns 1000 ltac:(done)) as Hq.
  destruct (Z.le_gt_cases 0 ns).
  - pose proof (Z.rem_bound_pos ns 1000 ltac:(lia) ltac:(lia)).
    pose proof (Z.div_mod (Z.quot ns 1000 * 1000) 1000000000 ltac:(done)).
    pose proof (Z.mod_pos_bound (Z.quot ns 1000 * 1000) 1000000000 ltac:(done)).
    assert (0 <= Z.quot ns 1000 * 1000 / 1000000000) by (apply Z.div_pos; lia). lia.
  - pose proof (Z.rem_bound_abs ns 1000 ltac:(done)). pose proof (Z.rem_nonpos ns 1000 ltac:(done) ltac:(lia)).
    pose proof (Z.div_mod (Z.quot ns 1000 * 1000) 1000000000 ltac:(done)).
    pose proof (Z.mod_pos_bound (Z.quot ns 1000 * 1000) 1000000000 ltac:(done)).
    assert (s <= Z.quot ns 1000 * 1000 / 1000000000) by (apply Z.div_le_lower_bound; lia). lia.
Qed.

Lemma message_consistent m o :
  tick_ns = 1 -> timestamp_ok m -> OptionsImpl_of_message message_error GetAvailablePort m = Ok o -> consistent o.
Proof.
  intros Htick Htime. unfold OptionsImpl_of_message.
  pose proof (message_streams_range m) as Hsr. pose proof (message_udp_range m) as Hur.
  destruct (message_streams m) as [[streams inflight] drain], (message_tcp m) as [[[? ?] ?] ?],
    (message_udp m) as [? ?].
  destruct (message_request m _) as [[[[[hs meth] size] body] source] plugin] eqn:Hreq.
  intros Hok. inv_bind. destruct a as [[? ?] ?]. inv_bind.
  assert (forall z, 0 <= u32 z < 2 ^ 32) as Hu by (intros; apply Z.mod_pos_bound; lia).
  constructor; cbn.
  - destruct (m_duration_options m); [done|apply Hu|done].
  - destruct (m_timeout m); [apply Hu|done].
  - by destruct (message_uri m).
  - by destruct (message_uri m).
  - unfold message_h2, message_protocol. destruct (m_protocol m); cbn; try done.
    rewrite andb_false_r. done.
  - by eapply message_request_method.
  - done.
  - done.
  - apply nanoseconds_or_range. split; vm_compute; congruence.
  - by eapply message_limiter.
  - intros ->. apply message_failures_nonempty.
  - intros t Ht. by eapply message_start.
Qed.

(** The numbers of a command line are of their types. *)
Definition in_u32_option (a : option Z) : Prop := match a with Some v => 0 <= v < 2 ^ 32 | None => True end.

Lemma default_u32 d a : 0 <= d < 2 ^ 32 -> in_u32_option a -> 0 <= default d a < 2 ^ 32.
Proof. by destruct a. Qed.

Lemma cli_nanoseconds_range a w w' member n :
  in_i64 member -> cli_nanoseconds a w w' member = Ok n -> in_i64 n.
Proof.
  unfold cli_nanoseconds. intros Hd. destruct a as [t|]; [|by intros [= <-]].
  destruct (Duration_FromString t); [|done]. destruct (_ && _); [|done]. intros [= <-]. apply nanoseconds_range.
Qed.

Lemma parsePredicates_loop_nonempty arg m m' :
  parsePredicates_loop arg m = Ok m' -> arg <> [] \/ m <> ∅ -> m' <> ∅.
Proof.
  revert m. induction arg as [|p arg IH]; intros m E Hne; cbn in E; [simplify_eq; by destruct Hne|].
  inv_bind. apply (IH _ E). right. revert Hok. unfold parsePredicate.
  destruct (split_predicate p) as [|x [|y [|]]]; try discriminate. destruct (atoi_u64 y); [|discriminate].
  intros [= <-]. apply insert_non_empty.
Qed.

Lemma cli_failures_nonempty a m :
  cli_failure_predicates a = Ok m -> a_no_default_failure_predicates a = false -> m <> ∅.
Proof.
  unfold cli_failure_predicates, parsePredicates. intros E Hd. rewrite Hd in E.
  apply (parsePredicates_loop_nonempty _ _ _ E). destruct (a_failure_predicates a); [right; apply insert_non_empty|by left].
Qed.

Lemma cli_limiter a plugins :
  cli_plugins a = Ok plugins -> plugins.1.2 <> None -> a_burst_size a = None /\ a_jitter_uniform a = None.
Proof.
  unfold cli_plugins. intros E Hne. inv_bind. cbn in Hne. destruct (given (a_rate_limiter_plugin_config a)); [|naive_solver].
  rewrite !obind_unit, !refuse_Ok in Hok1. destruct Hok1 as (Hb & Hj & _).
  by destruct (a_burst_size a), (a_jitter_uniform a).
Qed.

Lemma cli_method_specified a grpc meth :
  constrained a -> cli_request_method a grpc = Ok meth -> meth <> METHOD_UNSPECIFIED.
Proof.
  intros Ha. pose proof get_specified. pose proof post_specified. unfold cli_request_method, enum_or.
  destruct (a_request_method a) as [name|] eqn:E; [|intros [= <-]; by destruct grpc].
  rewrite upper_documented. pose proof (ok_request_method _ Ha) as Hn. rewrite E in Hn.
  destruct (method_documented name Hn) as (v & -> & Hv). by intros [= <-].
Qed.

Lemma cli_protocol_h2 a p :
  cli_protocol a = Ok p -> a_h2 a = true -> is_set (a_protocol a) = false -> p = HTTP1.
Proof.
  unfold cli_protocol, enum_or. intros E Hh Hp. destruct (a_protocol a); [done|]. rewrite Hh, andb_false_r in E.
  by injection E as <-.
Qed.

Lemma command_line_consistent a o :
  constrained a -> in_u32_option (a_duration a) -> in_u32_option (a_timeout a) ->
  OptionsImpl_of_command_line message_error GetAvailablePort a = Ok o -> consistent o.
Proof.
  intros Ha Hdur Htim. unfold OptionsImpl_of_command_line. cbv zeta. intros Hok.
  do 4 (inv_bind; repeat match goal with p : (_ * _)%type |- _ => destruct p end).
  assert (forall member w w' arg n, in_i64 member -> cli_nanoseconds arg w w' member = Ok n -> in_i64 n) as Hns
    by (intros; by eapply cli_nanoseconds_range).
  constructor; cbn.
  - by apply default_u32.
  - by apply default_u32.
  - by destruct (a_uri a).
  - by destruct (a_uri a).
  - intros Hh. eapply cli_protocol_h2; [eassumption|done|].
    match goal with E : refuse (a_h2 a && _) _ = Ok _ |- _ => apply refuse_Ok in E; by rewrite Hh in E end.
  - by eapply cli_method_specified.
  - eapply Hns; [|eassumption]. split; vm_compute; congruence.
  - eapply (Hns (o_udp_timeout default_options)); [|eassumption]. split; vm_compute; congruence.
  - eapply (Hns (o_jitter_uniform default_options)); [|eassumption]. split; vm_compute; congruence.
  - intros Hl. match goal with E : cli_plugins a = Ok _ |- _ => destruct (cli_limiter _ _ E Hl) as [Hb Hj] end.
    rewrite Hb. match goal with E : cli_nanoseconds (a_jitter_uniform a) _ _ _ = Ok _ |- _ => rewrite Hj in E; injection E as <- end.
    done.
  - intros Hd. by eapply cli_failures_nonempty.
  - done.
Qed.

(** ** The trip through a message *)

(** Options that one of the two constructors has made. *)
Inductive constructed : OptionsImpl -> Prop :=
| from_command_line a o :
    constrained a -> in_u32_option (a_duration a) -> in_u32_option (a_timeout a) ->
    OptionsImpl_of_command_line message_error GetAvailablePort a = Ok o -> constructed o
| from_message m o :
    tick_ns = 1 -> timestamp_ok m -> OptionsImpl_of_message message_error GetAvailablePort m = Ok o -> constructed o.

Lemma constructed_consistent o : constructed o -> consistent o.
Proof. intros []; [by eapply command_line_consistent|by eapply message_consistent]. Qed.

Lemma constructed_validated o : constructed o -> OptionsImpl_validate message_error o = Ok tt.
Proof.
  intros [a o' _ _ _ Hok|m o' _ _ Hok].
  - unfold OptionsImpl_of_command_line in Hok. cbv zeta in Hok.
    do 4 (inv_bind; repeat match goal with p : (_ * _)%type |- _ => destruct p end).
    by match goal with u : unit |- _ => destruct u end.
  - unfold OptionsImpl_of_message in Hok.
    destruct (message_streams m) as [[? ?] ?], (message_tcp m) as [[[? ?] ?] ?], (message_udp m) as [? ?],
      (message_request m _) as [[[[[? ?] ?] ?] ?] ?].
    do 2 (inv_bind; repeat match goal with p : (_ * _)%type |- _ => destruct p end).
    by match goal with u : unit |- _ => destruct u end.
Qed.


(** *** What validation promises to the rest of the program *)

(** C7. What every constructed [OptionsImpl] satisfies, whichever constructor
    made it: the concurrency is ["auto"] or a positive number; the target is a
    URI that parses or a list of endpoints with a path, never both; gRPC,
    WebSocket and raw load exclude each other; gRPC is POST over HTTP/2; with
    streams the number of workers is known, divides the streams and the rate, and
    the streams of a worker fit its request limit; raw TCP and UDP have positive
    limits and, when echoes are matched, a message to send. *)
Theorem validated_options o :
  constructed o ->
  (o_concurrency o = "auto"%string \/ exists c, numeric_concurrency o c) /\
  match o_uri o with
  | Some uri => (exists u, UriImpl_new uri "http" = Ok u) /\ o_multi_target_endpoints o = []
  | None => o_multi_target_endpoints o <> [] /\ o_multi_target_path o <> EmptyString /\ o_tcp o = false /\ o_udp o = false
  end /\
  (o_websocket o = true -> o_grpc_mode o = GRPC_NONE /\ o_request_method o = METHOD_GET) /\
  (o_tcp o = true \/ o_udp o = true -> o_grpc_mode o = GRPC_NONE /\ o_websocket o = false) /\
  (o_grpc_mode o <> GRPC_NONE -> OptionsImpl_protocol o = Http2 /\ o_request_method o = METHOD_POST) /\
  (streamModeEnabled (o_grpc_mode o) (o_websocket o) = true ->
     exists c, numeric_concurrency o c /\ (c | o_streams o) /\ (c | o_requests_per_second o) /\ o_streams o <> 0 /\
       o_streams o / c <= o_max_active_requests o /\ o_max_inflight_per_stream o <> 0) /\
  (o_udp o = true -> o_udp_max_inflight o <> 0 /\ 0 < o_udp_timeout o /\ no_body o = false) /\
  (o_tcp o = true -> o_tcp_connections o <> 0 /\ o_tcp_max_inflight o <> 0 /\
     (o_tcp_expect_echo o = true -> no_body o = false)).
Proof.
  intros Ho. pose proof (constructed_validated o Ho) as Hv. apply constructed_consistent in Ho as Hc.
  apply OptionsImpl_validate_Ok in Hv as ((_ & Hg & Hw & Hs & _ & Hn & _ & Ht) & _).
  apply valid_target in Ht as Hu. pose proof (c_tcp _ Hc) as Htcp. pose proof (c_udp _ Hc) as Hudp.
  destruct (o_uri o) as [uri|]; [destruct Hu as (Hu & Hvu & Hvt & He)|].
  - split; [by apply valid_concurrency|]. split; [done|]. split; [by apply valid_websocket|]. split_and!.
    + intros [Hr|Hr]; [destruct (valid_tcp o Hvt Hr) as (? & ? & _)|destruct (valid_udp o Hvu Hr) as (? & ? & _)]; done.
    + by apply valid_grpc.
    + by apply valid_streams.
    + intros Hr. by destruct (valid_udp o Hvu Hr) as (_ & _ & ?).
    + intros Hr. by destruct (valid_tcp o Hvt Hr) as (_ & _ & ?).
  - rewrite Htcp, Hudp. split; [by apply valid_concurrency|]. split; [by destruct Hu|].
    split; [by apply valid_websocket|]. split_and!; try done.
    + by intros [].
    + by apply valid_grpc.
    + by apply valid_streams.
Qed.

(** ** Pending requests *)

(** All the streams of a worker fit the queue of its pool. *)
Lemma raised_holds_streams mode websocket concurrency streams pending c :
  streamModeEnabled mode websocket = true -> stoi concurrency = Some c -> 0 < c ->
  streams / c <= raisePendingRequestsForStreams mode websocket concurrency streams pending.
Proof.
  unfold raisePendingRequestsForStreams. intros -> Hc Hpos. cbn.
  destruct (String.eqb_spec concurrency "auto") as [->|_]; [done|]. rewrite Hc, (Z.max_r 1 c) by lia.
  destruct (Z.ltb_spec pending (Z.max 1 (streams / c))); lia.
Qed.

(** With gRPC or WebSocket streams, the limit on pending requests is never
    below the streams a worker opens at once, whatever limit the command line
    asks for: the streams, all opened before the first connection is up, are
    never refused by the pool's circuit breaker. A message has the same effect
    only when it leaves the limit unset. *)
Lemma pending_requests_hold_streams o c :
  (exists a, OptionsImpl_of_command_line message_error GetAvailablePort a = Ok o) \/
  (exists m, OptionsImpl_of_message message_error GetAvailablePort m = Ok o /\ m_max_pending_requests m = None) ->
  streamModeEnabled (o_grpc_mode o) (o_websocket o) = true -> numeric_concurrency o c ->
  o_streams o / c <= o_max_pending_requests o.
Proof.
  intros [[a Hok]|(m & Hok & Hunset)] Hmode [Hc Hpos].
  - unfold OptionsImpl_of_command_line in Hok. cbv zeta in Hok.
    do 4 (inv_bind; repeat match goal with p : (_ * _)%type |- _ => destruct p end).
    cbn in *. by apply raised_holds_streams.
  - unfold OptionsImpl_of_message in Hok. rewrite Hunset in Hok.
    destruct (message_streams m) as [[? ?] ?], (message_tcp m) as [[[? ?] ?] ?], (message_udp m) as [? ?],
      (message_request m _) as [[[[[? ?] ?] ?] ?] ?].
    do 2 (inv_bind; repeat match goal with p : (_ * _)%type |- _ => destruct p end).
    cbn in *. by apply raised_holds_streams.
Qed.

(** A message that sets the limit has it as it is. *)
Lemma message_pending_as_set m o p :
  OptionsImpl_of_message message_error GetAvailablePort m = Ok o -> m_max_pending_requests m = Some p ->
  o_max_pending_requests o = p.
Proof.
  intros Hok Hp. unfold OptionsImpl_of_message in Hok. rewrite Hp in Hok.
  destruct (message_streams m) as [[? ?] ?], (message_tcp m) as [[[? ?] ?] ?], (message_udp m) as [? ?],
    (message_request m _) as [[[[[? ?] ?] ?] ?] ?].
  by do 2 (inv_bind; repeat match goal with q : (_ * _)%type |- _ => destruct q end).
Qed.

(** Options with a tunnel cannot be read from a message: once a port is found,
    the merge of the TLS context goes through an optional without a value. *)
Lemma message_tunnel_undefined m t :
  m_tunnel_options m = Some t -> (forall b f, exists port, GetAvailablePort b f = Ok port) ->
  OptionsImpl_of_message message_error GetAvailablePort m = Undefined.
Proof.
  intros Ht Hport. unfold OptionsImpl_of_message, message_tunnel.
  destruct (message_streams m) as [[? ?] ?], (message_tcp m) as [[[? ?] ?] ?], (message_udp m) as [? ?]. cbv zeta.
  rewrite Ht. by edestruct Hport as [port ->].
Qed.

End CommandLines.

(** ** Concrete command lines and messages *)

Section Examples.

(** A message is its serialized form, which merges by concatenation. *)
Definition demo_messages : Messages := {|
  message := string;
  empty_message := EmptyString;
  MergeFrom := String.app;
  ByteSizeLong m := Z.of_nat (String.length m);
  loadFromJson type text := if (text =? "{")%string then inr "Unable to parse JSON"%string else inl text;
|}.

#[local] Existing Instance demo_messages.

Definition demo_time : TimeUtil := {|
  Duration_FromString s := match digits 0 (stake (String.length s - 1) s) with
                           | Some n => Some (mkDuration n 0)
                           | None => None
                           end;
  DurationToNanoseconds d := i64 (seconds d * 1000000000 + nanos d);
  DurationToMicroseconds d := seconds d * 1000000 + Z.quot (nanos d) 1000;
  NanosecondsToDuration n := mkDuration (Z.quot n 1000000000) (Z.rem n 1000000000);
  NanosecondsToTimestamp n := mkDuration (n / 1000000000) (n mod 1000000000);
|}.

#[local] Existing Instance demo_time.

Definition demo_methods : RequestMethods := {|
  METHOD_UNSPECIFIED := 0;
  METHOD_GET := 1;
  METHOD_POST := 3;
  RequestMethod_Parse := parse_name [("METHOD_UNSPECIFIED"%string, 0); ("GET"%string, 1); ("HEAD"%string, 2);
    ("POST"%string, 3); ("PUT"%string, 4); ("DELETE"%string, 5); ("CONNECT"%string, 6); ("OPTIONS"%string, 7);
    ("TRACE"%string, 8); ("PATCH"%string, 9)];
|}.

#[local] Existing Instance demo_methods.

Definition demo_clock : SystemClock := {| tick_ns := 1 |}.

#[local] Existing Instance demo_clock.
#[local] Existing Instance absl_documented.
#[local] Existing Instance absl_match_documented.
#[local] Existing Instance uri_env_documented.

Definition demo_cli_env : CommandLineEnv := {|
  AsciiStrToUpper := upper_case;
  RE2_FullMatch s pattern :=
    match rfind_char ":"%char s with
    | Some p => match digits 0 (sdrop (S p) s) with Some port => Some (stake p s, port) | None => None end
    | None => None
    end;
  read_file path := if (path =? "/body")%string then FileContents "hello" else OpenFailed "No such file or directory";
|}.

#[local] Existing Instance demo_cli_env.

Lemma demo_messages_laws : MessagesLaws.
Proof.
  constructor; [done|]. intros m Hm. destruct m; [done|]. cbn in Hm. lia.
Qed.

Lemma demo_time_laws : TimeUtilLaws.
Proof.
  constructor.
  - intros d. cbn. unfold i64, wrap_s, in_i64. pose proof (Z.mod_pos_bound (seconds d * 1000000000 + nanos d + 2 ^ (64 - 1)) (2 ^ 64)). lia.
  - done.
  - intros d Hs Hn. cbn. by rewrite Z.quot_div_nonneg by lia.
  - intros n Hn. cbn. rewrite (Z.mul_comm (Z.quot n 1000000000)), <- Z.quot_rem by done. by apply i64_small.
  - done.
Qed.

Lemma demo_methods_laws : RequestMethodsLaws.
Proof. done. Qed.

Lemma demo_cli_laws : CommandLineLaws.
Proof.
  constructor; [done..|]. intros name Hn. unfold cli_request_methods in Hn. rewrite !elem_of_cons, elem_of_nil in Hn.
  destruct_or! Hn; subst; try done; eexists; (split; [reflexivity|done]).
Qed.


#[local] Existing Instances demo_messages_laws demo_time_laws demo_methods_laws demo_cli_laws.

(** The generated validation, of the rule on header keys alone. *)
Definition demo_message_error (m : OptionsMessage) : option string :=
  match m_request m with
  | RequestOptionsCase r =>
      if existsb (fun h => (header_key h =? EmptyString)%string) (m_request_headers r)
      then Some "HeaderValueValidationError.Key: value length must be at least 1 bytes"%string else None
  | _ => None
  end.


Definition demo_port (udp : bool) (family : AddressFamilyOptions) : outcome Z := Ok 45000.

Definition demo_command_line (uri : string) (body_size : option Z) (h2 websocket : bool) (mode concurrency : option string) (streams rps pending : option Z)
    (headers : list string) : CommandLine := {|
  a_requests_per_second := rps; a_connections := None; a_duration := None; a_timeout := None; a_h2 := h2;
  a_protocol := None; a_http3_protocol_options := None; a_tunnel_protocol := None; a_tunnel_uri := None;
  a_tunnel_tls_context := None; a_concurrency := concurrency; a_verbosity := None; a_output_format := Some "csv"%string;
  a_prefetch_connections := false; a_burst_size := None; a_address_family := None; a_request_method := None;
  a_request_headers := headers; a_request_body_size := body_size; a_request_body_file := None; a_grpc_mode := mode;
  a_websocket := websocket; a_websocket_binary := false; a_tcp_connections := None; a_tcp_max_inflight := None;
  a_tcp_no_echo := false; a_tcp_max_messages := None; a_udp_max_inflight := None; a_udp_timeout := None;
  a_streams := streams; a_max_inflight_per_stream := None; a_stream_drain_duration := Some "3s"%string; a_tls_context := None;
  a_upstream_bind_config := None; a_transport_socket := None; a_max_pending_requests := pending;
  a_max_active_requests := None; a_max_requests_per_connection := None; a_max_concurrent_streams := None;
  a_sequencer_idle_strategy := None; a_trace := None; a_termination_predicates := []; a_failure_predicates := ["benchmark.http_5xx:7"%string];
  a_no_default_failure_predicates := false; a_h1_connection_reuse_strategy := None; a_open_loop := false;
  a_jitter_uniform := None; a_nighthawk_service := None; a_h2_use_multiple_connections := false;
  a_multi_target_endpoints := []; a_multi_target_path := None; a_multi_target_use_https := false; a_labels := [];
  a_uri := Some uri; a_request_source := None; a_request_source_plugin_config := None; a_rate_limiter_plugin_config := None;
  a_simple_warmup := false; a_no_duration := false; a_stats_sinks := []; a_stats_flush_interval := None;
  a_stats_flush_interval_duration := None; a_latency_response_header_name := None;
  a_user_defined_output_plugin_configs := [];
|}.

Definition demo_uri_text : string := "http://127.0.0.1:8080/echo".

(** Streams over gRPC, four of them on two workers, with a header and less
    room for pending requests than a worker has streams. *)
Definition grpc_command_line : CommandLine :=
  demo_command_line demo_uri_text None false false (Some "bidi-stream"%string) (Some "2"%string) (Some 4) (Some 10) (Some 1)
    ["x-tenant:  a b "%string].

Definition options_of (a : CommandLine) : OptionsImpl :=
  match OptionsImpl_of_command_line demo_message_error demo_port a with Ok o => o | _ => default_options end.

Lemma grpc_command_line_Ok :
  OptionsImpl_of_command_line demo_message_error demo_port grpc_command_line = Ok (options_of grpc_command_line).
Proof. vm_compute. reflexivity. Qed.

Lemma demo_constrained uri size h2 ws mode concurrency streams rps pending headers :
  constrained (demo_command_line uri size h2 ws mode concurrency streams rps pending headers).
Proof.
  constructor; try done. change ("csv"%string ∈ getLowerCaseOutputFormats).
  apply (bool_decide_unpack _). vm_compute. done.
Qed.

Lemma grpc_constructed : constructed demo_message_error demo_port (options_of grpc_command_line).
Proof.
  apply (from_command_line _ _ grpc_command_line); [apply demo_constrained|done..|apply grpc_command_line_Ok].
Qed.

(** The command line above, which TCLAP lets through. *)
Lemma command_line_total_witness :
  returns (OptionsImpl_of_command_line demo_message_error demo_port grpc_command_line).
Proof. apply command_line_total; [apply demo_constrained|done]. Defined.


(** C7: its streams are divided over two workers. *)
Lemma validated_options_witness :
  exists c, numeric_concurrency (options_of grpc_command_line) c /\ (c | o_streams (options_of grpc_command_line)).
Proof.
  destruct (validated_options demo_message_error demo_port _ grpc_constructed) as (_ & _ & _ & _ & _ & Hs & _).
  destruct Hs as (c & Hc & Hd & _); [vm_compute; reflexivity|]. by exists c.
Defined.

(** Two streams per worker, so two pending requests, not one. *)
Lemma pending_requests_hold_streams_witness :
  o_max_pending_requests (options_of grpc_command_line) = 2 /\
  o_streams (options_of grpc_command_line) / 2 <= o_max_pending_requests (options_of grpc_command_line).
Proof.
  split; [vm_compute; reflexivity|].
  apply (pending_requests_hold_streams demo_message_error demo_port);
    [left; exists grpc_command_line; apply grpc_command_line_Ok|vm_compute; reflexivity|split; vm_compute; reflexivity].
Defined.

(** *** Behaviour to be aware of *)

(** The check that WebSocket load uses HTTP/1.1 looks at [--protocol] alone, so
    the deprecated [--h2] passes it. *)
Definition websocket_h2_command_line : CommandLine :=
  demo_command_line demo_uri_text None true true None (Some "1"%string) (Some 4) (Some 10) None [].

Lemma websocket_h2_accepted :
  OptionsImpl_of_command_line demo_message_error demo_port websocket_h2_command_line =
    Ok (options_of websocket_h2_command_line) /\
  o_websocket (options_of websocket_h2_command_line) = true /\
  OptionsImpl_protocol (options_of websocket_h2_command_line) = Http2.
Proof. split_and!; vm_compute; reflexivity. Qed.

(** What follows the number of a concurrency is ignored. *)
Lemma concurrency_suffix_accepted :
  o_concurrency (options_of (demo_command_line demo_uri_text None false false None (Some "3x"%string) None None None [])) = "3x"%string.
Proof. vm_compute. reflexivity. Qed.

End Examples.

(** The start of a run is written as if the clock counted nanoseconds. Where it
    counts microseconds, as libc++'s does, a start comes back a thousand times
    earlier: here the year 2023 becomes January 1970. *)
Lemma scheduled_start_ticks :
  let start := message_scheduled_start (H := demo_messages) (H2 := {| tick_ns := 1000 |}) in
  forall m, m_scheduled_start (H := demo_messages) m = Some (mkDuration 1700000000 0) ->
  start m = Ok (Some 1700000000000000) /\
  NanosecondsToTimestamp (TimeUtil := demo_time) 1700000000000000 = mkDuration 1700000 0.
Proof. intros start m Hm. unfold start, message_scheduled_start. rewrite Hm. split; vm_compute; reflexivity. Qed.
