(* ===== verification/ClientFactory.v ===== *)
(** * The factories that read the options

    Models [BenchmarkClientFactoryImpl::create], [StatisticFactoryImpl::create]
    and [OutputFormatterFactoryImpl::create] of
    [engine/source/client/factories_impl.cc], and the part of the options that
    the request source and the rate limiter are made from, and shows that
    validated options make every constructor succeed.

    The client that is made is the one of the component's own file. *)

From stdpp Require Import gmap strings.
From S2P Require Import Prelude Text Double Uri Statistic RateLimiter RateLimiterFactory BenchmarkClient TcpClient.
From S2P Require Import UdpClient GrpcStreamClient WebSocketClient RequestSource Options OptionsMessages OptionsProofs OptionsCommandLine OptionsTheorems.

(** ** Clients *)

Inductive BenchmarkClientPtr (Plugin : Type) : Type :=
| UdpClientPtr (c : UdpBenchmarkClientImpl)
| TcpClientPtr (c : TcpBenchmarkClientImpl)
| WebSocketClientPtr (c : WebSocketStreamBenchmarkClientImpl)
| GrpcStreamClientPtr (c : GrpcStreamBenchmarkClientImpl)
| HttpClientPtr (c : BenchmarkClientHttpImpl (Plugin := Plugin)) (max_requests_per_connection : Z).

Arguments UdpClientPtr {Plugin}.
Arguments TcpClientPtr {Plugin}.
Arguments WebSocketClientPtr {Plugin}.
Arguments GrpcStreamClientPtr {Plugin}.
Arguments HttpClientPtr {Plugin}.

Section Create.
Context `{Messages} {Plugin : Type}.

(** [streams() / concurrency], with the concurrency of [std::stoi]. *)
Definition streams_per_worker (o : OptionsImpl) : outcome Z :=
  match stoi (o_concurrency o) with
  | None => Throw (EnvoyException "stoi")
  | Some c => if u32 c =? 0 then Undefined else Ok (o_streams o / u32 c)
  end.

(** [timeout()] is in seconds. *)
Definition BenchmarkClientFactoryImpl_create (o : OptionsImpl) (plugins : list Plugin) :
    outcome (BenchmarkClientPtr Plugin) :=
  if o_udp o then
    let* c := UdpBenchmarkClientImpl_new
                (mkUdpConfig (Z.to_nat (o_udp_max_inflight o)) (o_udp_timeout o) (o_stream_drain_duration o)) in
    Ok (UdpClientPtr c)
  else if o_tcp o then
    let* c := TcpBenchmarkClientImpl_new
                (mkTcpConfig (Z.to_nat (o_tcp_connections o)) (Z.to_nat (o_tcp_max_inflight o)) (o_tcp_expect_echo o)
                   (o_stream_drain_duration o) (o_timeout o) (o_tcp_max_messages o) []) in
    Ok (TcpClientPtr c)
  else if o_websocket o then
    let* streams := streams_per_worker o in
    let* c := WebSocketStreamBenchmarkClientImpl_new
                (mkWsConfig (Z.to_nat streams) (Z.to_nat (o_max_inflight_per_stream o)) (o_stream_drain_duration o)
                   (o_timeout o) (o_websocket_binary o)) in
    Ok (WebSocketClientPtr c)
  else if bool_decide (o_grpc_mode o = GRPC_BIDI_STREAM) then
    let* streams := streams_per_worker o in
    let* c := GrpcStreamBenchmarkClientImpl_new
                (mkGrpcConfig (Z.to_nat streams) (Z.to_nat (o_max_inflight_per_stream o)) (o_stream_drain_duration o)
                   (o_timeout o)) in
    Ok (GrpcStreamClientPtr c)
  else
    Ok (HttpClientPtr
          (BenchmarkClientHttpImpl_new
             (mkClientConfig (OptionsImpl_protocol o) (o_timeout o) (o_connections o) (o_max_pending_requests o)
                (o_max_active_requests o) (negb (o_open_loop o)) (o_latency_response_header_name o)
                (bool_decide (o_grpc_mode o <> GRPC_NONE)))
             plugins)
          (o_max_requests_per_connection o)).

End Create.

(** ** Formatters *)

Inductive OutputFormatterPtr : Type :=
| ConsoleOutputFormatter | JsonOutputFormatter | YamlOutputFormatter | DottedStringOutputFormatter | FortioOutputFormatter
| FortioPedanticOutputFormatter | CsvOutputFormatter | PrometheusOutputFormatter.

Definition OutputFormatterFactoryImpl_create (output_format : OutputFormatOptions) : outcome OutputFormatterPtr :=
  match output_format with
  | FORMAT_HUMAN => Ok ConsoleOutputFormatter
  | FORMAT_JSON => Ok JsonOutputFormatter
  | FORMAT_YAML => Ok YamlOutputFormatter
  | FORMAT_DOTTED => Ok DottedStringOutputFormatter
  | FORMAT_FORTIO => Ok FortioOutputFormatter
  | FORMAT_EXPERIMENTAL_FORTIO_PEDANTIC => Ok FortioPedanticOutputFormatter
  | FORMAT_CSV => Ok CsvOutputFormatter
  | FORMAT_PROMETHEUS => Ok PrometheusOutputFormatter
  | FORMAT_DEFAULT | FormatUnrecognized _ => Panic "not reached"
  end.

(** ** What other factories read *)

Section Views.
Context `{Messages} `{TimeUtil} `{RequestMethods} `{AbslMatch}.

(** [plugin]: the rate limiter's plug-in configuration, as it is read. *)
Definition pacing_options (plugin : option PluginConfig) (o : OptionsImpl) : PacingOptions := {|
  RateLimiterFactory.opt_requestsPerSecond := o_requests_per_second o;
  opt_concurrency := o_concurrency o;
  opt_grpcBidiStream := bool_decide (o_grpc_mode o = GRPC_BIDI_STREAM);
  opt_websocket := o_websocket o;
  opt_burstSize := o_burst_size o;
  opt_jitterUniform := o_jitter_uniform o;
  opt_noDuration := o_no_duration o;
  opt_duration := o_duration o;
  opt_rateLimiterPluginConfig := plugin;
|}.

(** [toCommandLineOptions()->request_options().request_headers()]: a default
    instance when the message holds something else. *)
Definition option_request_headers (o : OptionsImpl) : outcome (list (string * string)) :=
  let* m := toCommandLineOptionsInternal o in
  Ok (match m_request m with
      | RequestOptionsCase r => (fun h => (header_key h, header_value h)) <$> m_request_headers r
      | _ => []
      end).

(** [plugin]: the request source's plug-in configuration, as it is read. *)
Definition source_options (plugin : option RequestSource.TypedExtensionConfig) (o : OptionsImpl) : outcome SourceOptions :=
  let* headers := option_request_headers o in
  Ok {|
    opt_uri := o_uri o;
    opt_multiTargetPath := o_multi_target_path o;
    opt_multiTargetUseHttps := o_multi_target_use_https o;
    opt_requestMethod := o_request_method o;
    opt_requestBody := o_request_body o;
    opt_grpcMode := bool_decide (o_grpc_mode o <> GRPC_NONE);
    opt_requestBodySize := o_request_body_size o;
    opt_request_headers := headers;
    opt_requestSource := o_request_source o;
    opt_requestSourcePluginConfig := plugin;
    RequestSource.opt_requestsPerSecond := o_requests_per_second o;
  |}.

(** Headers given on the command line together with a request source, or a
    plug-in for one, reach no request. *)
Lemma headers_ignored_with_source o headers :
  own_requests o = false -> option_request_headers o = Ok headers -> headers = [].
Proof.
  unfold option_request_headers, own_requests. intros Ho Hh. inv_bind.
  pose proof (written_request o _ Hok) as Hr. unfold request_message in Hr.
  destruct (String.eqb_spec (o_request_source o) EmptyString); cbn in Hr, Ho; [|by injection Hr as <-].
  destruct (o_request_source_plugin_config o); [by injection Hr as <-|done].
Qed.

End Views.

(** ** Validated options make the clients *)

Inductive LoadKind : Type := UdpLoad | TcpLoad | WebSocketLoad | GrpcStreamLoad | HttpLoad.

Definition load_kind `{Messages} (o : OptionsImpl) : LoadKind :=
  if o_udp o then UdpLoad else if o_tcp o then TcpLoad else if o_websocket o then WebSocketLoad
  else if bool_decide (o_grpc_mode o = GRPC_BIDI_STREAM) then GrpcStreamLoad else HttpLoad.

Definition client_kind {Plugin} (c : BenchmarkClientPtr Plugin) : LoadKind :=
  match c with
  | UdpClientPtr _ => UdpLoad
  | TcpClientPtr _ => TcpLoad
  | WebSocketClientPtr _ => WebSocketLoad
  | GrpcStreamClientPtr _ => GrpcStreamLoad
  | HttpClientPtr _ _ => HttpLoad
  end.

(** The members that are of an unsigned type. *)
Record unsigned_members `{Messages} (o : OptionsImpl) : Prop := {
  u_streams : 0 <= o_streams o;
  u_inflight : 0 <= o_max_inflight_per_stream o;
  u_tcp_connections : 0 <= o_tcp_connections o;
  u_tcp_inflight : 0 <= o_tcp_max_inflight o;
  u_udp_inflight : 0 <= o_udp_max_inflight o;
  u_body_size : 0 <= o_request_body_size o;
}.

Section Created.
Context `{MessagesLaws} `{TimeUtilLaws} `{RequestMethodsLaws} `{SystemClock} `{AbslMatch} `{UriEnv} `{AbslStrings}
        `{CommandLineEnv} {CL : CommandLineLaws} {Plugin : Type}.
Context (message_error : OptionsMessage -> option string).
Context (GetAvailablePort : bool -> AddressFamilyOptions -> outcome Z).

(** In a mode with streams each worker has a share of them, and of the rate. *)
Lemma share_of_worker o :
  validate_streams o = Ok tt -> unsigned_members o -> streamModeEnabled (o_grpc_mode o) (o_websocket o) = true ->
  exists c, numeric_concurrency o c /\ streams_per_worker o = Ok (o_streams o / c) /\ 0 < o_streams o / c /\
    c * (o_streams o / c) = o_streams o /\
    forall plugin, exists rps, perWorkerRequestsPerSecond (pacing_options plugin o) = Ok rps /\
      c * rps = o_requests_per_second o.
Proof.
  intros Hv Hu Hs. destruct (valid_streams o Hv Hs) as (c & [Hc Hpos] & Hds & Hdr & Hne & _ & _).
  assert (u32 c = c) as Hu32.
  { apply Z.mod_small. unfold stoi in Hc. repeat case_match; simplify_eq; b2p; lia. }
  pose proof (u_streams _ Hu). destruct Hds as [k Hk], Hdr as [j Hj]. exists c.
  unfold streams_per_worker, perWorkerRequestsPerSecond. cbn.
  rewrite Hc, Hu32, (proj2 (Z.eqb_neq c 0)) by lia.
  rewrite Hk, Z.div_mul by lia. split_and!; try done; [nia|nia|].
  intros plugin. exists j. unfold streamModeEnabled, grpcStreamEnabled in Hs. rewrite Hs.
  split; [|lia]. by rewrite Hj, Z.div_mul by lia.
Qed.

(** The checks of raw load apply when the URI selects it. *)
Lemma raw_checked o :
  consistent o -> validate_target o = Ok tt -> unsigned_members o ->
  (o_udp o = true -> 0 < o_udp_max_inflight o /\ 0 < o_udp_timeout o) /\
  (o_tcp o = true -> 0 < o_tcp_connections o /\ 0 < o_tcp_max_inflight o).
Proof.
  intros Hc Ht Hu. apply valid_target in Ht. pose proof (c_tcp _ Hc) as Htcp. pose proof (c_udp _ Hc) as Hudp.
  destruct (o_uri o); [|by rewrite Htcp, Hudp]. destruct Ht as (_ & Hvu & Hvt & _). destruct Hu. split; intros Hr.
  - destruct (valid_udp o Hvu Hr) as (_ & _ & ? & ? & _). lia.
  - destruct (valid_tcp o Hvt Hr) as (_ & _ & ? & ? & _). lia.
Qed.

Lemma udp_made cfg :
  (0 < max_inflight_ cfg)%nat -> 0 < udp_timeout_ cfg -> exists c, UdpBenchmarkClientImpl_new cfg = Ok c.
Proof.
  intros Hi Ht. unfold UdpBenchmarkClientImpl_new.
  rewrite (proj2 (Nat.eqb_neq _ _)), (proj2 (Z.leb_gt _ _)) by lia. by eexists.
Qed.

Lemma tcp_made cfg :
  (0 < connection_count_ cfg)%nat -> (0 < max_inflight_per_connection_ cfg)%nat ->
  exists c, TcpBenchmarkClientImpl_new cfg = Ok c.
Proof. intros Hn Hi. unfold TcpBenchmarkClientImpl_new. rewrite !(proj2 (Nat.eqb_neq _ _)) by lia. by eexists. Qed.

Lemma ws_made cfg :
  (0 < ws_stream_count_ cfg)%nat -> (0 < ws_max_inflight_per_stream_ cfg)%nat ->
  exists c, WebSocketStreamBenchmarkClientImpl_new cfg = Ok c.
Proof.
  intros Hn Hi. unfold WebSocketStreamBenchmarkClientImpl_new. rewrite !(proj2 (Nat.eqb_neq _ _)) by lia. by eexists.
Qed.

Lemma grpc_made cfg :
  (0 < stream_count_ cfg)%nat -> (0 < max_inflight_per_stream_ cfg)%nat ->
  exists c, GrpcStreamBenchmarkClientImpl_new cfg = Ok c.
Proof.
  intros Hn Hi. unfold GrpcStreamBenchmarkClientImpl_new. rewrite !(proj2 (Nat.eqb_neq _ _)) by lia. by eexists.
Qed.

(** C8. The composition of the options with the factory of clients: from any
    constructed options the factory makes a client, of the kind the options
    select, and no assertion of any client's constructor fails; with streams the
    workers' shares of streams and rate add up to what was asked for. *)
Theorem client_factory_creates o (plugins : list Plugin) :
  constructed message_error GetAvailablePort o -> unsigned_members o ->
  (exists c, BenchmarkClientFactoryImpl_create o plugins = Ok c /\ client_kind c = load_kind o) /\
  (streamModeEnabled (o_grpc_mode o) (o_websocket o) = true ->
   exists w, numeric_concurrency o w /\ streams_per_worker o = Ok (o_streams o / w) /\
     w * (o_streams o / w) = o_streams o /\
     forall plugin, exists rps, perWorkerRequestsPerSecond (pacing_options plugin o) = Ok rps /\
       w * rps = o_requests_per_second o).
Proof.
  intros Ho Hu. pose proof (constructed_validated _ _ o Ho) as Hv.
  apply OptionsImpl_validate_Ok in Hv as ((_ & _ & _ & Hs & _ & _ & _ & Ht) & _).
  pose proof (constructed_consistent _ _ o Ho) as Hc.
  split; [|intros Hm; destruct (share_of_worker o Hs Hu Hm) as (w & ? & ? & _ & ? & ?); by exists w].
  destruct (raw_checked o Hc Ht Hu) as [Hudp Htcp]. unfold BenchmarkClientFactoryImpl_create, load_kind.
  destruct (o_udp o); [destruct (Hudp eq_refl) as (? & ?);
    edestruct udp_made as [c ->]; [..|by eexists]; cbn; lia|].
  destruct (o_tcp o); [destruct (Htcp eq_refl) as (? & ?);
    edestruct tcp_made as [c ->]; [..|by eexists]; cbn; lia|].
  assert (streamModeEnabled (o_grpc_mode o) (o_websocket o) = true ->
    exists n, streams_per_worker o = Ok n /\ 0 < n /\ 0 < o_max_inflight_per_stream o) as Hshare.
  { intros Hm. destruct (share_of_worker o Hs Hu Hm) as (w & _ & ? & ? & _).
    destruct (valid_streams o Hs Hm) as (_ & _ & _ & _ & _ & _ & ?). pose proof (u_inflight _ Hu).
    exists (o_streams o / w). split_and!; [done..|lia]. }
  unfold streamModeEnabled, grpcStreamEnabled in Hshare.
  destruct (o_websocket o).
  { destruct Hshare as (n & -> & ? & ?); [apply orb_true_r|]. cbn [obind].
    edestruct ws_made as [c ->]; [..|by eexists]; cbn; lia. }
  destruct (bool_decide _); [|by eexists].
  destruct Hshare as (n & -> & ? & ?); [done|]. cbn [obind].
  edestruct grpc_made as [c ->]; [..|by eexists]; cbn; lia.
Qed.

(** ** Raw messages *)

(** The message a raw client takes from the source in [prepare()]: the body of
    the static source's request through [rawMessageGenerator]. *)
Definition raw_message {Hd : Type} (o : OptionsImpl) (header : Hd) : option (list Z) :=
  (fun r => to_bytes (request_body r)) <$>
  rawMessageGenerator (Z.to_nat (o_request_body_size o)) (Some (mkRequest header (o_request_body o))).

Lemma to_bytes_nonempty s : s <> EmptyString -> to_bytes s <> [].
Proof. by destruct s. Qed.

Lemma raw_message_nonempty {Hd : Type} o (header : Hd) :
  no_body o = false -> 0 <= o_request_body_size o -> exists message, raw_message o header = Some message /\ message <> [].
Proof.
  unfold no_body, raw_message, rawMessageGenerator. intros Hb Hs. cbn.
  destruct (String.eqb_spec (o_request_body o) EmptyString) as [He|He]; cbn in *.
  - apply Z.eqb_neq in Hb. rewrite (proj2 (Z.ltb_lt _ _)) by lia. eexists. split; [reflexivity|]. cbn.
    apply to_bytes_nonempty. destruct (Z.to_nat (o_request_body_size o)) eqn:E; [lia|done].
  - eexists. split; [reflexivity|]. by apply to_bytes_nonempty.
Qed.

(** Raw TCP load always has what it needs to begin: the client's [prepare()]
    does not fail its assertions, that the source yields a request and that an
    echoed message is not empty, on any options that were validated, whether the
    message comes from a file or is generated. *)
Lemma tcp_prepare_succeeds {Hd : Type} o (plugins : list Plugin) (header : Hd) e c (s0 : TcpBenchmarkClientImpl) :
  constructed message_error GetAvailablePort o -> unsigned_members o -> o_tcp o = true ->
  BenchmarkClientFactoryImpl_create o plugins = Ok (TcpClientPtr s0) ->
  exists s, prepare e c (raw_message o header) s0 = Ok s.
Proof.
  intros Ho Hu Ht Hcreate. destruct (validated_options _ _ o Ho) as (_ & _ & _ & _ & _ & _ & _ & Hv).
  destruct (Hv Ht) as (_ & _ & Hb). unfold BenchmarkClientFactoryImpl_create in Hcreate.
  destruct (o_udp o); [by inv_bind|]. rewrite Ht in Hcreate. inv_bind. unfold prepare.
  assert (expect_echo_ (tcp_config s0) = o_tcp_expect_echo o) as He.
  { unfold TcpBenchmarkClientImpl_new in Hok. cbn in Hok. repeat case_match; simplify_eq. done. }
  assert (exists message, raw_message o header = Some message /\ (o_tcp_expect_echo o = true -> message <> []))
    as (message & -> & Hm).
  { destruct (o_tcp_expect_echo o) eqn:E; cycle 1.
    { unfold raw_message, rawMessageGenerator. case_match; by eexists. }
    destruct (raw_message_nonempty o header (Hb eq_refl) (u_body_size _ Hu)) as (m & ? & ?). by exists m. }
  rewrite He. destruct (o_tcp_expect_echo o); cbn; [|by eexists].
  destruct message; [by specialize (Hm eq_refl)|]. by eexists.
Qed.

End Created.

(** ** Concrete options *)

Section Examples.

#[local] Existing Instances demo_messages demo_time demo_methods demo_clock absl_documented absl_match_documented
  uri_env_documented demo_cli_env.
#[local] Existing Instances demo_messages_laws demo_time_laws demo_methods_laws demo_cli_laws.

(** Raw TCP with a generated message of three bytes. *)
Definition tcp_command_line : CommandLine :=
  demo_command_line "tcp://127.0.0.1:9000" (Some 3) false false None (Some "2"%string) None (Some 10) None [].

Lemma tcp_constructed : constructed demo_message_error demo_port (options_of tcp_command_line).
Proof.
  apply (from_command_line _ _ tcp_command_line); [apply demo_constrained|done..|vm_compute; reflexivity].
Qed.

Definition demo_tcp_client : TcpBenchmarkClientImpl :=
  match BenchmarkClientFactoryImpl_create (options_of tcp_command_line) ([] : list unit) with
  | Ok (TcpClientPtr c) => c
  | _ => mkTcp (mkTcpConfig 0 0 false 0 0 0 []) tcp_counters_init [] [] 0 0 false Nothing false false [] [] [] [] 0
  end.

(** The options of the gRPC streams of OptionsTheorems.v: two workers, two
    streams and five messages a second each. *)
Lemma client_factory_creates_witness :
  (exists c, BenchmarkClientFactoryImpl_create (options_of grpc_command_line) ([] : list unit) = Ok c /\
     client_kind c = GrpcStreamLoad) /\
  exists w, numeric_concurrency (options_of grpc_command_line) w.
Proof.
  destruct (client_factory_creates demo_message_error demo_port (options_of grpc_command_line) ([] : list unit))
    as [Hc Hw]; [apply grpc_constructed|constructor; vm_compute; congruence|].
  split; [exact Hc|]. destruct Hw as (w & Hw & _); [vm_compute; reflexivity|]. by exists w.
Defined.

Lemma tcp_prepare_succeeds_witness :
  raw_message (options_of tcp_command_line) tt = Some [97; 97; 97] /\
  exists s, prepare (fun _ => mkEnv 0 (fun _ => true)) (fun _ => Some None)
    (raw_message (options_of tcp_command_line) tt) demo_tcp_client = Ok s.
Proof.
  split; [vm_compute; reflexivity|].
  apply (tcp_prepare_succeeds demo_message_error demo_port (options_of tcp_command_line) ([] : list unit));
    [apply tcp_constructed|constructor; vm_compute; congruence|vm_compute; reflexivity|vm_compute; reflexivity].
Defined.

End Examples.
