(* ===== verification/OutputFormatter.v ===== *)
(** * Rendering of results

    Models [engine/source/client/output_formatter_impl.cc]: the text for the
    console, the comma-separated and the dotted text, the messages for Fortio and
    the metrics for Prometheus, from the message [Output] of
    [engine/api/client/output.proto].

    A member of a [oneof] that may be a duration or a plain value is a sum; one
    that is not set reads as the value zero. How numbers are formatted and how a
    message is written as JSON or YAML are arguments. A cast of a double to
    [int64_t] is undefined outside its range. *)

From stdpp Require Import gmap strings.
From S2P Require Import Prelude Double Text Uri Statistic BenchmarkClient Options.

(** ** The output *)

Record StatisticMessage : Type := mkStatisticMessage {
  om_id : string;
  om_count : Z;
  om_mean : Duration + double;
  om_pstdev : Duration + double;
  om_min : Duration + Z;
  om_max : Duration + Z;
  om_percentiles : list Percentile;
}.

Record CounterMessage : Type := mkCounterMessage { oc_name : string; oc_value : Z }.

Record ResultMessage : Type := mkResultMessage {
  or_name : string;
  or_statistics : list StatisticMessage;
  or_counters : list CounterMessage;
  or_execution_duration : Duration;
}.

(** [ou_version]: the version as [VersionInfo::toVersionString] gives it. *)
Record OutputMessage `{Messages} : Type := mkOutputMessage {
  ou_timestamp : Duration;
  ou_options : OptionsMessage;
  ou_results : list ResultMessage;
  ou_version : string;
}.

(** ** Formatting *)

(** [fmt::format] of an integer and of a double with ["{}"], with ["{:03}"], of a
    double with ["{:.8g}"], ["{:.2f}"] and ["{:.0f}"], and of a string padded on
    the right to a width. *)
Class Fmt : Type := {
  fmt_int : Z -> string;
  fmt_double : double -> string;
  fmt_03 : Z -> string;
  fmt_g8 : double -> string;
  fmt_f2 : double -> string;
  fmt_f0 : double -> string;
  fmt_left : string -> nat -> string;
}.

Definition quote : string := String (ascii_of_nat 34) EmptyString.

Definition endl : string := String (ascii_of_nat 10) EmptyString.

(** Strings one after the other. *)
Fixpoint sconcat (l : list string) : string :=
  match l with [] => EmptyString | s :: l => s +:+ sconcat l end.

(** ** Percentiles *)

Definition dfrac (n d : Z) : double := ddiv (d_of_Z n) (d_of_Z d).

Definition reported_percentiles : list double :=
  [d0; dfrac 5 10; dfrac 75 100; dfrac 8 10; dfrac 9 10; dfrac 95 100; dfrac 99 100; dfrac 999 1000; d1].

(** The inner loop: the first percentile that is at least [p] and above the last
    one written. *)
Fixpoint next_percentile (p last_percentile : double) (percentiles : list Percentile) : option Percentile :=
  match percentiles with
  | [] => None
  | x :: percentiles =>
      if dleb p (pct_percentile x) && dltb last_percentile (pct_percentile x) then Some x
      else next_percentile p last_percentile percentiles
  end.

Fixpoint iterate_from (ps : list double) (last_percentile : double) (percentiles : list Percentile) : list Percentile :=
  match ps with
  | [] => []
  | p :: ps =>
      match next_percentile p last_percentile percentiles with
      | Some x => x :: iterate_from ps (pct_percentile x) percentiles
      | None => iterate_from ps last_percentile percentiles
      end
  end.

(** The percentiles the callback is called with, in order. *)
Definition iteratePercentiles (statistic : StatisticMessage) : list Percentile :=
  iterate_from reported_percentiles (d_of_Z (-1)) (om_percentiles statistic).

Section Formatters.
Context `{Messages} `{TimeUtil} `{Fmt}.

(** ** The console and comma-separated text *)

(** Remainders and quotients are of [int64_t]. *)
Definition formatProtoDuration (d : Duration) : string :=
  let microseconds := DurationToMicroseconds d in
  fmt_int (Z.quot (Z.rem microseconds 1000000000) 1000000) +:+ "s " +:+
  fmt_03 (Z.quot (Z.rem microseconds 1000000) 1000) +:+ "ms " +:+
  fmt_03 (Z.rem microseconds 1000) +:+ "us".

Definition statIdtoFriendlyStatName (stat_id : string) : string :=
  if (stat_id =? "benchmark_http_client.queue_to_connect")%string then "Queueing and connection setup latency"
  else if (stat_id =? "benchmark_http_client.request_to_response")%string then "Request start to response end"
  else if (stat_id =? "sequencer.callback")%string then "Initiation to completion"
  else if (stat_id =? "sequencer.blocking")%string
  then "Blocking. Results are skewed when significant numbers are reported here."
  else if (stat_id =? "benchmark_http_client.response_body_size")%string then "Response body size in bytes"
  else if (stat_id =? "benchmark_http_client.response_header_size")%string then "Response header size in bytes"
  else stat_id.

(** The comma-separated text has its own copies of both. *)
Definition csv_formatProtoDuration (d : Duration) : string :=
  let microseconds := DurationToMicroseconds d in
  fmt_int (Z.quot (Z.rem microseconds 1000000000) 1000000) +:+ "s " +:+
  fmt_03 (Z.quot (Z.rem microseconds 1000000) 1000) +:+ "ms " +:+
  fmt_03 (Z.rem microseconds 1000) +:+ "us".

Definition csv_statIdtoFriendlyStatName (stat_id : string) : string :=
  if (stat_id =? "benchmark_http_client.queue_to_connect")%string then "Queueing and connection setup latency"
  else if (stat_id =? "benchmark_http_client.request_to_response")%string then "Request start to response end"
  else if (stat_id =? "sequencer.callback")%string then "Initiation to completion"
  else if (stat_id =? "sequencer.blocking")%string
  then "Blocking. Results are skewed when significant numbers are reported here."
  else if (stat_id =? "benchmark_http_client.response_body_size")%string then "Response body size in bytes"
  else if (stat_id =? "benchmark_http_client.response_header_size")%string then "Response header size in bytes"
  else stat_id.

(** A duration by [format], or a plain value by [plain]. *)
Definition format_either {A} (format : Duration -> string) (plain : A -> string) (v : Duration + A) : string :=
  match v with inl d => format d | inr a => plain a end.

(** [static_cast<int64_t>(raw_value())], formatted. *)
Definition percentile_value (format : Duration -> string) (x : Percentile) : outcome string :=
  match pct_value x with
  | inl d => Ok (format d)
  | inr v => let* n := cast_i64 (truncZ v) in Ok (fmt_int n)
  end.

(** Not the smallest and the largest value, which are shown apart. *)
Definition between (x : Percentile) : bool := dltb d0 (pct_percentile x) && dltb (pct_percentile x) d1.

(** The rows of a table of percentiles, with a header before the first one. *)
Fixpoint percentile_rows (header : string) (row : Percentile -> outcome string) (header_written : bool)
    (percentiles : list Percentile) : outcome string :=
  match percentiles with
  | [] => Ok EmptyString
  | x :: percentiles =>
      if between x then
        let* line := row x in
        let* rest := percentile_rows header row true percentiles in
        Ok ((if header_written then EmptyString else header) +:+ line +:+ rest)
      else percentile_rows header row header_written percentiles
  end.

Definition sample_line (s : StatisticMessage) : string :=
  statIdtoFriendlyStatName (om_id s) +:+ " (" +:+ fmt_int (om_count s) +:+ " samples)" +:+ endl.

Definition console_header : string :=
  endl +:+ "  " +:+ fmt_left "Percentile" 12 +:+ fmt_left "Count" 12 +:+ fmt_left "Value" 15 +:+ endl.

Definition console_row (x : Percentile) : outcome string :=
  let* value := percentile_value formatProtoDuration x in
  Ok ("  " +:+ fmt_left (fmt_g8 (pct_percentile x)) 12 +:+ fmt_left (fmt_int (pct_count x)) 12 +:+
      fmt_left value 15 +:+ endl).

Definition console_statistic (s : StatisticMessage) : outcome string :=
  if om_count s =? 0 then Ok EmptyString
  else
    let* rows := percentile_rows console_header console_row false (iteratePercentiles s) in
    Ok (sample_line s +:+
        "  min: " +:+ format_either formatProtoDuration fmt_int (om_min s) +:+ " | " +:+
        "mean: " +:+ format_either formatProtoDuration fmt_double (om_mean s) +:+ " | " +:+
        "max: " +:+ format_either formatProtoDuration fmt_int (om_max s) +:+ " | " +:+
        "pstdev: " +:+ format_either formatProtoDuration fmt_double (om_pstdev s) +:+ endl +:+
        rows +:+ endl).

(** [counter.value() / (nanos / 1e9)]. *)
Definition per_second (r : ResultMessage) (c : CounterMessage) : double :=
  ddiv (d_of_Z (oc_value c)) (ddiv (d_of_Z (DurationToNanoseconds (or_execution_duration r))) d1e9).

Definition console_counter (r : ResultMessage) (c : CounterMessage) : string :=
  fmt_left (oc_name c) 40 +:+ fmt_left (fmt_int (oc_value c)) 12 +:+ fmt_f2 (per_second r c) +:+ endl.

Fixpoint each {A} (f : A -> outcome string) (l : list A) : outcome string :=
  match l with
  | [] => Ok EmptyString
  | a :: l => let* s := f a in let* rest := each f l in Ok (s +:+ rest)
  end.

Definition is_global (r : ResultMessage) : bool := (or_name r =? "global")%string.

Definition console_result (r : ResultMessage) : outcome string :=
  if is_global r then
    let* statistics := each console_statistic (or_statistics r) in
    Ok (statistics +:+ fmt_left "Counter" 40 +:+ fmt_left "Value" 12 +:+ "Per second" +:+ endl +:+
        sconcat (console_counter r <$> or_counters r) +:+ endl)
  else Ok EmptyString.

Definition banner : string := "Nighthawk - A layer 7 protocol benchmarking tool." +:+ endl +:+ endl.

Definition ConsoleOutputFormatterImpl_formatProto (output : OutputMessage) : outcome string :=
  let* results := each console_result (ou_results output) in
  Ok (banner +:+ results).

Definition csv_sample_line (s : StatisticMessage) : string :=
  csv_statIdtoFriendlyStatName (om_id s) +:+ " (" +:+ fmt_int (om_count s) +:+ " samples)" +:+ endl.

Definition csv_header : string := "Percentile,Count,Value(microseconds),Value" +:+ endl.

(** The third column is of [percentile.duration()], a default instance for a
    plain value. *)
Definition csv_row (x : Percentile) : outcome string :=
  let* value := percentile_value csv_formatProtoDuration x in
  let d := match pct_value x with inl d => d | inr _ => mkDuration 0 0 end in
  Ok (fmt_g8 (pct_percentile x) +:+ "," +:+ fmt_int (pct_count x) +:+ "," +:+ fmt_int (DurationToMicroseconds d) +:+
      "," +:+ value +:+ endl).

Definition csv_statistic (s : StatisticMessage) : outcome string :=
  if om_count s =? 0 then Ok EmptyString
  else
    let* rows := percentile_rows csv_header csv_row false (iteratePercentiles s) in
    Ok (csv_sample_line s +:+ "Min,Mean,Max,Pstdev" +:+ endl +:+
        format_either csv_formatProtoDuration fmt_int (om_min s) +:+ "," +:+
        format_either csv_formatProtoDuration fmt_double (om_mean s) +:+ "," +:+
        format_either csv_formatProtoDuration fmt_int (om_max s) +:+ "," +:+
        format_either csv_formatProtoDuration fmt_double (om_pstdev s) +:+ endl +:+ rows +:+ endl).

Definition csv_counter (r : ResultMessage) (c : CounterMessage) : string :=
  oc_name c +:+ "," +:+ fmt_int (oc_value c) +:+ "," +:+ fmt_f2 (per_second r c) +:+ endl.

Definition csv_result (r : ResultMessage) : outcome string :=
  if is_global r then
    let* statistics := each csv_statistic (or_statistics r) in
    Ok (statistics +:+ "Counter,Value,Per second" +:+ endl +:+ sconcat (csv_counter r <$> or_counters r) +:+ endl)
  else Ok EmptyString.

Definition CsvOutputFormatterImpl_formatProto (output : OutputMessage) : outcome string :=
  let* results := each csv_result (ou_results output) in
  Ok (banner +:+ results).

(** ** The dotted text *)

Definition microseconds_text (d : Duration) : string := fmt_int (DurationToMicroseconds d).

Definition dotted_percentile (prefix : string) (x : Percentile) : outcome string :=
  let percentile_prefix := prefix +:+ ".permilles-" +:+ fmt_f0 (dmul (pct_percentile x) (d_of_Z 1000)) in
  let* value := match pct_value x with
                | inl d => Ok (percentile_prefix +:+ ".microseconds: " +:+ microseconds_text d)
                | inr v => let* n := cast_i64 (truncZ v) in Ok (percentile_prefix +:+ ".value: " +:+ fmt_int n)
                end in
  Ok (percentile_prefix +:+ ".count: " +:+ fmt_int (pct_count x) +:+ endl +:+ value +:+ endl).

Definition dotted_statistic (r : ResultMessage) (s : StatisticMessage) : outcome string :=
  let prefix := or_name r +:+ "." +:+ om_id s in
  let* percentiles := each (dotted_percentile prefix) (iteratePercentiles s) in
  Ok (prefix +:+ ".samples: " +:+ fmt_int (om_count s) +:+ endl +:+
      prefix +:+ ".mean: " +:+ format_either microseconds_text fmt_double (om_mean s) +:+ endl +:+
      prefix +:+ ".pstdev: " +:+ format_either microseconds_text fmt_double (om_pstdev s) +:+ endl +:+
      prefix +:+ ".min: " +:+ format_either microseconds_text fmt_int (om_min s) +:+ endl +:+
      prefix +:+ ".max: " +:+ format_either microseconds_text fmt_int (om_max s) +:+ endl +:+ percentiles).

Definition dotted_counter (r : ResultMessage) (c : CounterMessage) : string :=
  or_name r +:+ "." +:+ oc_name c +:+ ":" +:+ fmt_int (oc_value c) +:+ endl.

Definition dotted_result (r : ResultMessage) : outcome string :=
  let* statistics := each (dotted_statistic r) (or_statistics r) in
  Ok (statistics +:+ sconcat (dotted_counter r <$> or_counters r)).

Definition DottedStringOutputFormatterImpl_formatProto (output : OutputMessage) : outcome string :=
  each dotted_result (ou_results output).

(** ** Prometheus *)

(** [std::map<std::string, std::stringstream>]: the entries in the order of
    their keys, and [metrics_output[key] << text]. *)
Fixpoint append_metric (key text : string) (metrics : list (string * string)) : list (string * string) :=
  match metrics with
  | [] => [(key, text)]
  | (k, t) :: metrics' =>
      match String.compare key k with
      | Lt => (key, text) :: metrics
      | Eq => (k, t +:+ text) :: metrics'
      | Gt => (k, t) :: append_metric key text metrics'
      end
  end.

Definition metric_line (metric_name metric_name_suffix metric_labels metric_value : string) : string :=
  metric_name +:+ metric_name_suffix +:+ "{" +:+ metric_labels +:+ "} " +:+ metric_value +:+ endl.

Definition populateMetric (metric_name metric_type metric_labels metric_value : string)
    (metrics_output : list (string * string)) (metric_name_suffix : string) : list (string * string) :=
  append_metric (metric_name +:+ " " +:+ metric_type)
    (metric_line metric_name metric_name_suffix metric_labels metric_value) metrics_output.

(** [std::replace(begin, end, '.', '_')]. *)
Definition underscored (s : string) : string := smap (fun c => if Ascii.eqb c "."%char then "_"%char else c) s.

Definition scope_label (r : ResultMessage) : string := "scope=" +:+ quote +:+ or_name r +:+ quote.

Definition quantile_label (r : ResultMessage) (x : Percentile) : string :=
  scope_label r +:+ ",quantile=" +:+ quote +:+ fmt_double (pct_percentile x) +:+ quote.

Fixpoint prometheus_percentiles (r : ResultMessage) (s_name : string) (percentiles : list Percentile)
    (metrics_output : list (string * string)) : outcome (list (string * string)) :=
  match percentiles with
  | [] => Ok metrics_output
  | x :: percentiles =>
      let* value := percentile_value microseconds_text x in
      prometheus_percentiles r s_name percentiles
        (populateMetric s_name "summary" (quantile_label r x) value metrics_output "")
  end.

Definition prometheus_mean (s : StatisticMessage) : double :=
  match om_mean s with inl d => d_of_Z (DurationToMicroseconds d) | inr v => v end.

Definition prometheus_statistic (r : ResultMessage) (s : StatisticMessage) (metrics_output : list (string * string)) :
    outcome (list (string * string)) :=
  if (om_id s =? EmptyString)%string then Ok metrics_output
  else
    let s_name := "nighthawk_" +:+ underscored (om_id s) in
    let s_min := format_either microseconds_text fmt_int (om_min s) in
    let s_max := format_either microseconds_text fmt_int (om_max s) in
    let s_pstdev := format_either microseconds_text fmt_double (om_pstdev s) in
    let s_mean := prometheus_mean s in
    let s_sum := dmul s_mean (d_of_Z (om_count s)) in
    let m := populateMetric (s_name +:+ "_min") "counter" (scope_label r) s_min metrics_output "" in
    let m := populateMetric (s_name +:+ "_max") "counter" (scope_label r) s_max m "" in
    let m := populateMetric (s_name +:+ "_mean") "counter" (scope_label r) (fmt_double s_mean) m "" in
    let m := populateMetric (s_name +:+ "_pstdev") "counter" (scope_label r) s_pstdev m "" in
    let* m := prometheus_percentiles r s_name (iteratePercentiles s) m in
    match om_percentiles s with
    | [] =>
        let m := populateMetric (s_name +:+ "_count") "counter" (scope_label r) (fmt_int (om_count s)) m "" in
        Ok (populateMetric (s_name +:+ "_sum") "counter" (scope_label r) (fmt_double s_sum) m "")
    | _ =>
        let m := populateMetric s_name "summary" (scope_label r) (fmt_int (om_count s)) m "_count" in
        Ok (populateMetric s_name "summary" (scope_label r) (fmt_double s_sum) m "_sum")
    end.

Fixpoint prometheus_statistics (r : ResultMessage) (statistics : list StatisticMessage)
    (metrics_output : list (string * string)) : outcome (list (string * string)) :=
  match statistics with
  | [] => Ok metrics_output
  | s :: statistics =>
      let* m := prometheus_statistic r s metrics_output in
      prometheus_statistics r statistics m
  end.

Definition prometheus_counter (r : ResultMessage) (metrics_output : list (string * string)) (c : CounterMessage) :
    list (string * string) :=
  populateMetric ("nighthawk_" +:+ underscored (oc_name c)) "counter" (scope_label r) (fmt_int (oc_value c))
    metrics_output "".

Fixpoint prometheus_results (results : list ResultMessage) (metrics_output : list (string * string)) :
    outcome (list (string * string)) :=
  match results with
  | [] => Ok metrics_output
  | r :: results =>
      let* m := prometheus_statistics r (or_statistics r) metrics_output in
      prometheus_results results (fold_left (prometheus_counter r) (or_counters r) m)
  end.

Definition metric_entry (entry : string * string) : string := "# TYPE " +:+ entry.1 +:+ endl +:+ entry.2.

Definition PrometheusOutputFormatterImpl_formatProto (output : OutputMessage) : outcome string :=
  let* metrics_output := prometheus_results (ou_results output) [] in
  Ok (sconcat (metric_entry <$> metrics_output)).

(** ** Fortio *)

Record DataEntry : Type := mkDataEntry {
  de_percent : double;
  de_count : Z;
  de_start : double;
  de_end : double;
}.

Record DurationHistogram : Type := mkHistogram {
  dh_count : Z;
  dh_min : double;
  dh_max : double;
  dh_sum : double;
  dh_avg : double;
  dh_stddev : double;
  dh_data : list DataEntry;
  dh_percentiles : list (double * double);
}.

Record FortioResult : Type := mkFortio {
  fo_labels : string;
  fo_version : string;
  fo_starttime : Duration;
  fo_requestedqps : Z;
  fo_url : string;
  fo_requestedduration : Duration;
  fo_actualduration : double;
  fo_jitter : bool;
  fo_runtype : string;
  fo_numthreads : Z;
  fo_actualqps : double;
  fo_bytesreceived : Z;
  fo_bytessent : Z;
  fo_retcodes : gmap string Z;
  fo_durationhistogram : option DurationHistogram;
  fo_sizes : option DurationHistogram;
  fo_headersizes : option DurationHistogram;
}.

Fixpoint getGlobalResult (results : list ResultMessage) : option ResultMessage :=
  match results with
  | [] => None
  | r :: results => if is_global r then Some r else getGlobalResult results
  end.

Fixpoint getCounterValue (counters : list CounterMessage) (counter_name : string) (value_if_not_found : Z) : Z :=
  match counters with
  | [] => value_if_not_found
  | c :: counters =>
      if (oc_name c =? counter_name)%string then oc_value c else getCounterValue counters counter_name value_if_not_found
  end.

Fixpoint findStatistic (statistics : list StatisticMessage) (stat_id : string) : option StatisticMessage :=
  match statistics with
  | [] => None
  | s :: statistics => if (om_id s =? stat_id)%string then Some s else findStatistic statistics stat_id
  end.

(** The last result; that it is the global one is asserted in debug builds only.
    [inl] is a status that is not ok. *)
Definition getAverageExecutionDuration (output : OutputMessage) : string + Z :=
  match last (ou_results output) with
  | None => inl "getAverageExecutionDuration found no results in output"%string
  | Some r => inr (DurationToNanoseconds (or_execution_duration r))
  end.

Definition durationToSeconds (d : Duration) : double := ddiv (d_of_Z (DurationToNanoseconds d)) d1e9.

Definition seconds_or {A} (plain : A -> double) (v : Duration + A) : double :=
  match v with inl d => durationToSeconds d | inr a => plain a end.

(** The loop over the percentiles; [prev_end] is empty for the first one, whose
    start is its end. Counts are differences of [uint64_t]. *)
Fixpoint fortio_data (prev_count : Z) (prev_end : option double) (percentiles : list Percentile) : list DataEntry :=
  match percentiles with
  | [] => []
  | x :: percentiles =>
      let value := seconds_or (fun v => v) (pct_value x) in
      mkDataEntry (dmul (pct_percentile x) (d_of_Z 100)) (u64 (pct_count x - prev_count)) (default value prev_end) value ::
      fortio_data (pct_count x) (Some value) percentiles
  end.

(** [std::floor(percentile * 1000) / 10]. *)
Definition dfloor (x : double) : double := match floorZ x with Some n => d_of_Z n | None => x end.

Definition fortio_percentile (x : Percentile) : double * double :=
  (ddiv (dfloor (dmul (pct_percentile x) (d_of_Z 1000))) (d_of_Z 10), seconds_or (fun v => v) (pct_value x)).

Definition renderFortioDurationHistogram (s : StatisticMessage) : DurationHistogram :=
  let avg := seconds_or (fun v => v) (om_mean s) in
  {|
    dh_data := fortio_data 0 None (om_percentiles s);
    dh_count := om_count s;
    dh_avg := avg;
    dh_min := seconds_or d_of_Z (om_min s);
    dh_sum := dmul (d_of_Z (om_count s)) avg;
    dh_max := seconds_or d_of_Z (om_max s);
    dh_stddev := seconds_or (fun v => v) (om_pstdev s);
    dh_percentiles := fortio_percentile <$> List.filter between (iteratePercentiles s);
  |}.

(** [absl::StripSuffix(labels, " ")] of the labels with a blank after each. *)
Definition fortio_labels (labels : list string) : string :=
  let joined := sconcat ((fun l => l +:+ " ") <$> labels) in
  stake (String.length joined - 1) joined.

Definition fortio_result (output : OutputMessage) : string + FortioResult :=
  let results := ou_results output in
  let size := Z.of_nat (length results) in
  let number_of_workers := if size =? 1 then 1 else u32 (size - 1) in
  let options := ou_options output in
  match getAverageExecutionDuration output with
  | inl message => inl message
  | inr actual_duration =>
      match getGlobalResult results with
      | None => inl "formatProto global result not found"%string
      | Some global =>
          let counter name := getCounterValue (or_counters global) name 0 in
          let histogram id := renderFortioDurationHistogram <$> findStatistic (or_statistics global) id in
          inr {|
            fo_labels := fortio_labels (m_labels options);
            fo_version := ou_version output;
            fo_starttime := ou_timestamp output;
            fo_requestedqps := u32 (number_of_workers * default 0 (m_requests_per_second options));
            fo_url := match m_uri options with UriCase uri => uri | _ => EmptyString end;
            fo_requestedduration := match m_duration_options options with DurationCase d => d | _ => mkDuration 0 0 end;
            fo_actualduration := d_of_Z actual_duration;
            fo_jitter := match m_jitter_uniform options with
                         | Some j => (0 <? nanos j) || (0 <? seconds j)
                         | None => false
                         end;
            fo_runtype := "HTTP";
            fo_numthreads := u32 (default 0 (m_connections options) * number_of_workers);
            fo_actualqps := ddiv (d_of_Z (counter "upstream_rq_total"%string)) (ddiv (d_of_Z actual_duration) d1e9);
            fo_bytesreceived := counter "upstream_cx_rx_bytes_total"%string;
            fo_bytessent := counter "upstream_cx_tx_bytes_total"%string;
            fo_retcodes := <["200"%string := counter "benchmark.http_2xx"%string]> ∅;
            fo_durationhistogram := histogram "benchmark_http_client.request_to_response"%string;
            fo_sizes := histogram "benchmark_http_client.response_body_size"%string;
            fo_headersizes := histogram "benchmark_http_client.response_header_size"%string;
          |}
      end
  end.

(** [json]: [MessageUtil::getJsonStringFromMessage]. *)
Definition FortioOutputFormatterImpl_formatProto (json : FortioResult -> string) (output : OutputMessage) : string + string :=
  match fortio_result output with
  | inl message => inl message
  | inr r => inr (json r)
  end.

(** ** Fortio, pedantic *)

(** The digits a string begins with, and the rest. *)
Fixpoint span_digits (s : string) : string * string :=
  match s with
  | String c t => if is_digit c then (String c (span_digits t).1, (span_digits t).2) else (EmptyString, s)
  | EmptyString => (EmptyString, EmptyString)
  end.

Definition qps_key : string := quote +:+ "RequestedQPS" +:+ quote +:+ ": ".

(** [regex_replace] of the key and the digits that follow it by the same with the
    digits in quotes; [fuel] is at least the length of what is left. *)
Fixpoint quote_requested_qps (fuel : nat) (s : string) : string :=
  match fuel with
  | O => s
  | S fuel =>
      if sprefix qps_key s then
        let '(number, rest) := span_digits (sdrop (String.length qps_key) s) in
        qps_key +:+ quote +:+ number +:+ quote +:+ quote_requested_qps fuel rest
      else match s with
           | EmptyString => EmptyString
           | String c t => String c (quote_requested_qps fuel t)
           end
  end.

(** Three digits, or one of the names. *)
Definition match_number_key (s : string) : option string :=
  match s with
  | String a (String b (String c _)) =>
      if is_digit a && is_digit b && is_digit c then Some (String a (String b (String c EmptyString)))
      else if sprefix "Count" s then Some "Count"%string
      else if sprefix "BytesSent" s then Some "BytesSent"%string
      else if sprefix "BytesReceived" s then Some "BytesReceived"%string
      else None
  | _ => None
  end.

(** A key in quotes with a number in quotes, at the beginning of [s]: the key, the
    number and the rest. *)
Definition match_quoted_number (s : string) : option (string * string * string) :=
  if sprefix quote s then
    match match_number_key (sdrop 1 s) with
    | Some key =>
        let s := sdrop (1 + String.length key) s in
        let separator := quote +:+ ": " +:+ quote in
        if sprefix separator s then
          let '(number, rest) := span_digits (sdrop (String.length separator) s) in
          if sprefix quote rest then Some (key, number, sdrop 1 rest) else None
        else None
    | None => None
    end
  else None.

(** [regex_replace] of such matches by the number without its quotes. *)
Fixpoint unquote_numbers (fuel : nat) (s : string) : string :=
  match fuel with
  | O => s
  | S fuel =>
      match match_quoted_number s with
      | Some (key, number, rest) => quote +:+ key +:+ quote +:+ ": " +:+ number +:+ unquote_numbers fuel rest
      | None => match s with
                | EmptyString => EmptyString
                | String c t => String c (unquote_numbers fuel t)
                end
      end
  end.

Definition FortioPedanticOutputFormatterImpl_formatProto (json : FortioResult -> string) (output : OutputMessage) :
    string + string :=
  match FortioOutputFormatterImpl_formatProto json output with
  | inl message => inl message
  | inr res =>
      let res := quote_requested_qps (String.length res) res in
      inr (unquote_numbers (String.length res) res)
  end.

End Formatters.
