(* ===== verification/OutputFormatterProofs.v ===== *)
(** * Theorems on the rendering of results

    Of [engine/source/client/output_formatter_impl.cc]: which percentiles are
    reported, that the metrics of Prometheus are grouped under one type line each,
    that the histograms for Fortio partition the samples, and what the durations
    on the console stand for. *)

From stdpp Require Import gmap strings sorting.
From S2P Require Import Prelude Double Text Uri Statistic BenchmarkClient Options OptionsTheorems OutputFormatter.

(** ** Percentiles *)

Lemma next_percentile_spec p prev l x :
  next_percentile p prev l = Some x ->
  x ∈ l /\ dleb p (pct_percentile x) = true /\ dltb prev (pct_percentile x) = true.
Proof.
  induction l as [|y l IH]; cbn; [done|]. destruct (_ && _) eqn:E.
  - intros [= <-]. b2p. split; [apply list_elem_of_here|done].
  - intros Hx. destruct (IH Hx) as (? & ?). split; [by apply list_elem_of_further|done].
Qed.

(** Each percentile above the one before it. *)
Fixpoint rising (prev : double) (l : list Percentile) : Prop :=
  match l with
  | [] => True
  | x :: l => dltb prev (pct_percentile x) = true /\ rising (pct_percentile x) l
  end.

Lemma iterate_from_spec ps prev l :
  rising prev (iterate_from ps prev l) /\ (forall x, x ∈ iterate_from ps prev l -> x ∈ l) /\
  (length (iterate_from ps prev l) <= length ps)%nat.
Proof.
  revert prev. induction ps as [|p ps IH]; intros prev; cbn; [split_and!; [done|intros x Hx; by apply elem_of_nil in Hx|lia]|].
  destruct (next_percentile p prev l) as [x|] eqn:E.
  - destruct (next_percentile_spec _ _ _ _ E) as (Hx & _ & Hlt), (IH (pct_percentile x)) as (Hr & Hin & Hn).
    cbn. split; [done|]. split; [|lia]. intros y Hy. apply elem_of_cons in Hy as [->|Hy]; auto.
  - destruct (IH prev) as (Hr & Hin & Hn). split_and!; [done..|lia].
Qed.

(** [x] is the first percentile of the list that is at least [p]. *)
Lemma next_percentile_first p prev l before x after :
  l = before ++ x :: after -> Forall (fun y => dleb p (pct_percentile y) = false) before ->
  dleb p (pct_percentile x) = true -> dltb prev (pct_percentile x) = true -> next_percentile p prev l = Some x.
Proof.
  intros -> Hb Hx Hlt. induction Hb as [|y before Hy Hb IH]; cbn; [by rewrite Hx, Hlt|]. by rewrite Hy.
Qed.

(** ** Prometheus *)

Lemma string_compare_refl s : String.compare s s = Eq.
Proof. induction s as [|c s IH]; [done|]. cbn. unfold Ascii.compare. by rewrite N.compare_refl. Qed.

Lemma string_compare_trans s t u : String.compare s t = Lt -> String.compare t u = Lt -> String.compare s u = Lt.
Proof.
  revert t u. induction s as [|a s IH]; intros [|b t] [|c u]; cbn; try done.
  unfold Ascii.compare. destruct (N.compare_spec (N_of_ascii a) (N_of_ascii b)) as [E|E|E]; try done;
    destruct (N.compare_spec (N_of_ascii b) (N_of_ascii c)) as [E'|E'|E']; try done;
    destruct (N.compare_spec (N_of_ascii a) (N_of_ascii c)) as [E''|E''|E'']; try done; try lia.
  apply IH.
Qed.

Definition key_before (a b : string * string) : Prop := String.compare a.1 b.1 = Lt.

Lemma append_metric_keys key text m k : k ∈ (append_metric key text m).*1 <-> k = key \/ k ∈ m.*1.
Proof.
  induction m as [|[k' t'] m IH]; cbn; [rewrite elem_of_cons; tauto|].
  destruct (String.compare key k') eqn:E; cbn; rewrite !elem_of_cons; [|tauto|rewrite IH; tauto].
  apply String.compare_eq_iff in E as ->. tauto.
Qed.

Lemma append_metric_sorted key text m : StronglySorted key_before m -> StronglySorted key_before (append_metric key text m).
Proof.
  induction 1 as [|[k t] m Hs IH Hf]; cbn; [by repeat constructor|].
  destruct (String.compare key k) eqn:E.
  - by constructor.
  - constructor; [by constructor|]. constructor; [done|]. eapply Forall_impl; [exact Hf|]. intros [k' t'] Hk.
    unfold key_before in *. cbn in *. by eapply string_compare_trans.
  - constructor; [done|]. apply Forall_forall. intros [k' t'] Hin. unfold key_before. cbn.
    assert (k' ∈ (append_metric key text m).*1) as Hk by (apply list_elem_of_fmap; by exists (k', t')).
    apply append_metric_keys in Hk as [->|Hk].
    + rewrite String.compare_antisym, E. done.
    + apply list_elem_of_fmap in Hk as ([k'' t''] & -> & Hin'). rewrite Forall_forall in Hf. by apply (Hf _ Hin').
Qed.

(** The text of a key, empty when there is none. *)
Fixpoint metric_text (key : string) (m : list (string * string)) : string :=
  match m with
  | [] => EmptyString
  | (k, t) :: m => if (k =? key)%string then t else metric_text key m
  end.

Lemma metric_text_absent key m : ~ key ∈ m.*1 -> metric_text key m = EmptyString.
Proof.
  induction m as [|[k t] m IH]; cbn; [done|]. rewrite not_elem_of_cons. intros [Hne Hk].
  destruct (String.eqb_spec k key); [congruence|]. by apply IH.
Qed.

Lemma metric_text_append key text k m :
  StronglySorted key_before m ->
  metric_text k (append_metric key text m) =
  if (key =? k)%string then metric_text k m +:+ text else metric_text k m.
Proof.
  induction 1 as [|[k' t'] m Hs IH Hf]; cbn.
  { destruct (key =? k)%string; by rewrite ?sapp_nil. }
  destruct (String.compare key k') eqn:E; cbn.
  - apply String.compare_eq_iff in E as <-. by destruct (key =? k)%string.
  - destruct (String.eqb_spec key k) as [<-|]; [|done].
    rewrite metric_text_absent; [|].
    + assert (k' <> key) as Hne by (intros ->; by rewrite string_compare_refl in E).
      rewrite (proj2 (String.eqb_neq _ _) Hne). by rewrite sapp_nil.
    + intros Hin. apply list_elem_of_fmap in Hin as ([k'' t''] & -> & Hin). rewrite Forall_forall in Hf.
      specialize (Hf _ Hin). unfold key_before in Hf. cbn in *.
      pose proof (string_compare_trans _ _ _ E Hf) as Ht. by rewrite string_compare_refl in Ht.
  - rewrite IH. destruct (String.eqb_spec k' k) as [->|]; [|done].
    destruct (String.eqb_spec key k) as [->|]; [|done]. by rewrite string_compare_refl in E.
Qed.

(** *** The samples, without the map *)

Section Prometheus.
Context `{Messages} `{TimeUtil} `{Fmt}.

(** A sample: the type line it belongs to and its own line. *)
Definition sample (name type labels value suffix : string) : string * string :=
  (name +:+ " " +:+ type, metric_line name suffix labels value).

Fixpoint percentile_samples (r : ResultMessage) (s_name : string) (percentiles : list Percentile) :
    outcome (list (string * string)) :=
  match percentiles with
  | [] => Ok []
  | x :: percentiles =>
      let* value := percentile_value microseconds_text x in
      let* rest := percentile_samples r s_name percentiles in
      Ok (sample s_name "summary" (quantile_label r x) value "" :: rest)
  end.

Definition statistic_samples (r : ResultMessage) (s : StatisticMessage) : outcome (list (string * string)) :=
  if (om_id s =? EmptyString)%string then Ok []
  else
    let name := "nighthawk_" +:+ underscored (om_id s) in
    let sum := fmt_double (dmul (prometheus_mean s) (d_of_Z (om_count s))) in
    let* percentiles := percentile_samples r name (iteratePercentiles s) in
    Ok ([sample (name +:+ "_min") "counter" (scope_label r) (format_either microseconds_text fmt_int (om_min s)) "";
         sample (name +:+ "_max") "counter" (scope_label r) (format_either microseconds_text fmt_int (om_max s)) "";
         sample (name +:+ "_mean") "counter" (scope_label r) (fmt_double (prometheus_mean s)) "";
         sample (name +:+ "_pstdev") "counter" (scope_label r)
           (format_either microseconds_text fmt_double (om_pstdev s)) ""] ++
        percentiles ++
        match om_percentiles s with
        | [] => [sample (name +:+ "_count") "counter" (scope_label r) (fmt_int (om_count s)) "";
                 sample (name +:+ "_sum") "counter" (scope_label r) sum ""]
        | _ => [sample name "summary" (scope_label r) (fmt_int (om_count s)) "_count";
                sample name "summary" (scope_label r) sum "_sum"]
        end).

Fixpoint collect {A} (f : A -> outcome (list (string * string))) (l : list A) : outcome (list (string * string)) :=
  match l with
  | [] => Ok []
  | a :: l => let* x := f a in let* rest := collect f l in Ok (x ++ rest)
  end.

Definition result_samples (r : ResultMessage) : outcome (list (string * string)) :=
  let* statistics := collect (statistic_samples r) (or_statistics r) in
  Ok (statistics ++
      ((fun c => sample ("nighthawk_" +:+ underscored (oc_name c)) "counter" (scope_label r) (fmt_int (oc_value c)) "")
         <$> or_counters r)).

Definition output_samples (output : OutputMessage) : outcome (list (string * string)) :=
  collect result_samples (ou_results output).

(** All of them put into the map. *)
Definition add_samples (samples m : list (string * string)) : list (string * string) :=
  fold_left (fun m e => append_metric e.1 e.2 m) samples m.

Lemma add_samples_app a b m : add_samples (a ++ b) m = add_samples b (add_samples a m).
Proof. apply fold_left_app. Qed.

Lemma prometheus_percentiles_samples r name l m :
  prometheus_percentiles r name l m = (let* ev := percentile_samples r name l in Ok (add_samples ev m)).
Proof.
  revert m. induction l as [|x l IH]; intros m; cbn; [done|].
  destruct (percentile_value _ x); cbn; [|done..]. rewrite IH. by destruct (percentile_samples r name l).
Qed.

Lemma prometheus_statistic_samples r s m :
  prometheus_statistic r s m = (let* ev := statistic_samples r s in Ok (add_samples ev m)).
Proof.
  unfold prometheus_statistic, statistic_samples. destruct (_ =? _)%string; [done|]. cbv zeta.
  rewrite prometheus_percentiles_samples. destruct (percentile_samples r _ _) as [ev| | |]; cbn [obind]; [|done..].
  rewrite !add_samples_app. by destruct (om_percentiles s).
Qed.

Lemma prometheus_statistics_samples r l m :
  prometheus_statistics r l m = (let* ev := collect (statistic_samples r) l in Ok (add_samples ev m)).
Proof.
  revert m. induction l as [|s l IH]; intros m; cbn; [done|]. rewrite prometheus_statistic_samples.
  destruct (statistic_samples r s); cbn; [|done..]. rewrite IH.
  destruct (collect _ l); cbn; [|done..]. by rewrite add_samples_app.
Qed.

Lemma prometheus_counters_samples r l m :
  fold_left (prometheus_counter r) l m =
  add_samples ((fun c => sample ("nighthawk_" +:+ underscored (oc_name c)) "counter" (scope_label r) (fmt_int (oc_value c)) "")
                 <$> l) m.
Proof. revert m. induction l as [|c l IH]; intros m; [done|]. apply IH. Qed.

Lemma prometheus_results_samples l m :
  prometheus_results l m = (let* ev := collect result_samples l in Ok (add_samples ev m)).
Proof.
  revert m. induction l as [|r l IH]; intros m; cbn; [done|]. rewrite prometheus_statistics_samples.
  unfold result_samples at 1. destruct (collect (statistic_samples r) _); cbn; [|done..].
  rewrite prometheus_counters_samples, IH. destruct (collect result_samples l); cbn; [|done..].
  by rewrite !add_samples_app.
Qed.

(** *** Groups *)

Definition lines_of (key : string) (samples : list (string * string)) : list string :=
  (List.filter (fun e => (e.1 =? key)%string) samples).*2.

Lemma sconcat_app a b : sconcat (a ++ b) = sconcat a +:+ sconcat b.
Proof. induction a as [|s a IH]; [done|]. cbn. by rewrite IH, sapp_assoc. Qed.

Lemma add_samples_grouped samples m :
  StronglySorted key_before m ->
  StronglySorted key_before (add_samples samples m) /\
  (forall k, k ∈ (add_samples samples m).*1 <-> k ∈ m.*1 \/ k ∈ samples.*1) /\
  (forall k, metric_text k (add_samples samples m) = metric_text k m +:+ sconcat (lines_of k samples)).
Proof.
  revert m. induction samples as [|[k t] samples IH]; intros m Hm; cbn.
  { split_and!; [done|intros k; rewrite elem_of_nil; tauto|intros k; by rewrite sapp_nil_r]. }
  destruct (IH (append_metric k t m)) as (Hs & Hk & Ht); [by apply append_metric_sorted|]. split_and!; [done|..].
  - intros k'. rewrite Hk, append_metric_keys, elem_of_cons. tauto.
  - intros k'. rewrite Ht, metric_text_append by done. unfold lines_of. cbn.
    destruct (k =? k')%string; cbn; [by rewrite sapp_assoc|done].
Qed.

(** The metrics for Prometheus are grouped as its text format asks: each type
    line is written once, in order, and is followed by every sample of that
    metric, of all workers and of the whole, in the order they were rendered, and
    by no other. *)
Lemma prometheus_grouped output text :
  PrometheusOutputFormatterImpl_formatProto output = Ok text ->
  exists samples groups,
    output_samples output = Ok samples /\ text = sconcat (metric_entry <$> groups) /\
    StronglySorted key_before groups /\ (forall k, k ∈ groups.*1 <-> k ∈ samples.*1) /\
    forall k, metric_text k groups = sconcat (lines_of k samples).
Proof.
  unfold PrometheusOutputFormatterImpl_formatProto. rewrite prometheus_results_samples. intros E. inv_bind.
  destruct (add_samples_grouped a0 []) as (Hs & Hk & Ht); [constructor|].
  exists a0, (add_samples a0 []). split_and!; try done.
  intros k. rewrite Hk. cbn. rewrite elem_of_nil. tauto.
Qed.

End Prometheus.

(** ** Durations on the console *)

Section Durations.
Context `{Messages} `{TimeUtilLaws} `{Fmt}.

(** A duration below a thousand seconds is shown exactly, to the microsecond:
    the seconds, milliseconds and microseconds that are printed add up to it, and
    the last two are below a thousand. From a thousand seconds on, the thousands
    of seconds are not shown. *)
Lemma console_duration d :
  0 <= seconds d < 2 ^ 40 -> 0 <= nanos d < 1000000000 ->
  exists s ms us,
    formatProtoDuration d = fmt_int s +:+ "s " +:+ fmt_03 ms +:+ "ms " +:+ fmt_03 us +:+ "us" /\
    s = seconds d mod 1000 /\ 0 <= ms < 1000 /\ 0 <= us < 1000 /\
    1000 * ms + us = nanos d / 1000 /\
    (seconds d < 1000 -> 1000000 * s + 1000 * ms + us = DurationToMicroseconds d).
Proof.
  intros Hs Hn. unfold formatProtoDuration. rewrite (microseconds_documented d Hs Hn).
  set (n := nanos d / 1000). assert (0 <= n < 1000000) as Hn'.
  { split; [apply Z.div_pos; lia|]. apply Z.div_lt_upper_bound; lia. }
  set (us := seconds d * 1000000 + n).
  assert (Z.rem us 1000000000 = seconds d mod 1000 * 1000000 + n) as E9.
  { rewrite Z.rem_mod_nonneg by lia. symmetry. apply (Z.mod_unique_pos _ _ (seconds d / 1000)).
    - pose proof (Z.mod_pos_bound (seconds d) 1000 ltac:(done)). lia.
    - unfold us. pose proof (Z.div_mod (seconds d) 1000 ltac:(done)). lia. }
  assert (Z.rem us 1000000 = n) as E6.
  { rewrite Z.rem_mod_nonneg by lia. unfold us. rewrite Z.add_comm, Z.mod_add by done. by apply Z.mod_small. }
  assert (Z.rem us 1000 = n mod 1000) as E3.
  { rewrite Z.rem_mod_nonneg by lia. unfold us. replace (seconds d * 1000000 + n) with (n + seconds d * 1000 * 1000) by lia.
    by apply Z.mod_add. }
  rewrite E9, E6, E3. pose proof (Z.mod_pos_bound (seconds d) 1000 ltac:(done)).
  rewrite !Z.quot_div_nonneg by lia. rewrite Z.div_add_l, (Z.div_small n), Z.add_0_r by lia.
  exists (seconds d mod 1000), (n / 1000), (n mod 1000).
  pose proof (Z.div_mod n 1000 ltac:(done)). pose proof (Z.mod_pos_bound n 1000 ltac:(done)).
  split_and!; try done; try lia; try (apply Z.div_lt_upper_bound; lia); try (apply Z.div_pos; lia).
  intros Hlt. rewrite (Z.mod_small (seconds d)) by lia. lia.
Qed.

End Durations.

(** ** Fortio *)

Section Fortio.
Context `{Messages} `{TimeUtil}.

(** The counts of the percentiles never go down. *)
Fixpoint counts_rise (prev : Z) (l : list Percentile) : Prop :=
  match l with [] => True | x :: l => prev <= pct_count x < 2 ^ 64 /\ counts_rise (pct_count x) l end.

(** Each entry begins where the one before it ended. *)
Fixpoint contiguous (prev : double) (l : list DataEntry) : Prop :=
  match l with [] => True | e :: l => de_start e = prev /\ contiguous (de_end e) l end.

Fixpoint total_count (l : list DataEntry) : Z :=
  match l with [] => 0 | e :: l => de_count e + total_count l end.

Fixpoint final_count (prev : Z) (l : list Percentile) : Z :=
  match l with [] => prev | x :: l => final_count (pct_count x) l end.

Lemma fortio_data_spec prev prev_end l :
  0 <= prev -> counts_rise prev l ->
  contiguous prev_end (fortio_data prev (Some prev_end) l) /\
  total_count (fortio_data prev (Some prev_end) l) = final_count prev l - prev /\
  Forall (fun e => 0 <= de_count e) (fortio_data prev (Some prev_end) l).
Proof.
  revert prev prev_end. induction l as [|x l IH]; intros prev prev_end Hp Hc; cbn; [split_and!; [done|lia|constructor]|].
  destruct Hc as [Hx Hc]. destruct (IH (pct_count x) (seconds_or (fun v => v) (pct_value x))) as (Hi & Ht & Hf);
    [lia|done|]. rewrite Ht. unfold u64, wrap_u. rewrite Z.mod_small by lia.
  split_and!; [done|done|lia|]. constructor; [cbn; lia|done].
Qed.

Lemma fortio_data_length prev prev_end l : length (fortio_data prev prev_end l) = length l.
Proof. revert prev prev_end. induction l as [|x l IH]; intros prev prev_end; [done|]. cbn. by rewrite IH. Qed.

(** The histogram for Fortio partitions the samples: one entry per
    percentile, each beginning where the one before it ended and the first where
    it ends; with counts that accumulate no entry's count is negative or wraps,
    and together they are the count of the last percentile. *)
Lemma fortio_histogram_partitions s :
  counts_rise 0 (om_percentiles s) ->
  let data := dh_data (renderFortioDurationHistogram s) in
  length data = length (om_percentiles s) /\
  match data with [] => True | e :: _ => contiguous (de_end e) data end /\
  total_count data = final_count 0 (om_percentiles s) /\ Forall (fun e => 0 <= de_count e) data.
Proof.
  intros Hc data. unfold data, renderFortioDurationHistogram. cbn. split.
  { apply fortio_data_length. }
  destruct (om_percentiles s) as [|x l]; [done|]. cbn in *. destruct Hc as [Hx Hc].
  destruct (fortio_data_spec (pct_count x) (seconds_or (fun v => v) (pct_value x)) l) as (Hi & Ht & Hf); [lia|done|].
  rewrite Z.sub_0_r, Ht. unfold u64, wrap_u. rewrite Z.mod_small by lia.
  split_and!; [done|done|lia|]. constructor; [cbn; lia|done].
Qed.

(** The output for Fortio fails exactly when there is no result named
    "global", as for an output without results; it never fails otherwise. *)
Lemma fortio_fails_without_global json (output : OutputMessage) :
  (exists message, FortioOutputFormatterImpl_formatProto json output = inl message) <->
  Forall (fun r => is_global r = false) (ou_results output).
Proof.
  unfold FortioOutputFormatterImpl_formatProto, fortio_result, getAverageExecutionDuration.
  assert (getGlobalResult (ou_results output) = None <-> Forall (fun r => is_global r = false) (ou_results output)) as Hg.
  { induction (ou_results output) as [|r l IH]; cbn; [by split|]. rewrite Forall_cons.
    destruct (is_global r); [split; [done|by intros [? ?]]|]. rewrite IH. tauto. }
  destruct (last (ou_results output)) as [r|] eqn:El.
  - rewrite <- Hg. destruct (getGlobalResult (ou_results output)); [split; [by intros [? ?]|done]|].
    split; [done|]. intros _. by eexists.
  - apply last_None in El. rewrite El. split; [constructor|]. intros _. by eexists.
Qed.

End Fortio.

(** ** Fortio, pedantic *)

Definition is_quote (c : ascii) : bool := Ascii.eqb c (ascii_of_nat 34).

Fixpoint without_quotes (s : string) : string :=
  match s with
  | EmptyString => EmptyString
  | String c s => if is_quote c then without_quotes s else String c (without_quotes s)
  end.

Lemma without_quotes_app s t : without_quotes (s +:+ t) = without_quotes s +:+ without_quotes t.
Proof.
  induction s as [|c s IH]; [done|]. rewrite sapp_cons. cbn [without_quotes]. rewrite IH.
  destruct (is_quote c); [done|]. by rewrite sapp_cons.
Qed.

Lemma span_digits_whole s : s = (span_digits s).1 +:+ (span_digits s).2.
Proof. induction s as [|c s IH]; [done|]. cbn. destruct (is_digit c); [|done]. cbn. by rewrite sapp_cons, <- IH. Qed.

Lemma quote_requested_qps_quotes fuel s : without_quotes (quote_requested_qps fuel s) = without_quotes s.
Proof.
  revert s. induction fuel as [|fuel IH]; intros s; cbn [quote_requested_qps]; [done|].
  destruct (sprefix qps_key s) eqn:E.
  - apply sprefix_drop in E. rewrite E at 2. rewrite (without_quotes_app qps_key).
    pose proof (span_digits_whole (sdrop (String.length qps_key) s)) as Hd.
    destruct (span_digits (sdrop (String.length qps_key) s)) as [number rest]. cbn [fst snd] in Hd. rewrite Hd.
    rewrite !without_quotes_app, IH. by rewrite sapp_nil.
  - destruct s as [|c s]; [done|]. cbn. by rewrite IH.
Qed.

Lemma match_number_key_prefix s key : match_number_key s = Some key -> s = key +:+ sdrop (String.length key) s.
Proof.
  unfold match_number_key. destruct s as [|a [|b [|c t]]]; try done.
  repeat case_match; intros [= <-]; try done; by apply sprefix_drop.
Qed.

Lemma match_quoted_number_whole s key number rest :
  match_quoted_number s = Some (key, number, rest) ->
  s = quote +:+ key +:+ quote +:+ ": " +:+ quote +:+ number +:+ quote +:+ rest.
Proof.
  unfold match_quoted_number. destruct (sprefix quote s) eqn:Eq; [|done]. apply sprefix_drop in Eq.
  change (String.length quote) with 1%nat in Eq.
  destruct (match_number_key (sdrop 1 s)) as [k|] eqn:Ek; [|done]. apply match_number_key_prefix in Ek.
  rewrite sdrop_sdrop in Ek. cbn [Nat.add] in Ek |- *.
  set (t := sdrop (S (String.length k)) s) in *.
  destruct (sprefix _ t) eqn:Es; [|done]. apply sprefix_drop in Es.
  pose proof (span_digits_whole (sdrop (String.length (quote +:+ ": " +:+ quote)) t)) as Hd.
  destruct (span_digits _) as [n r]. cbn [fst snd] in Hd. destruct (sprefix quote r) eqn:Er; [|done].
  apply sprefix_drop in Er. change (String.length quote) with 1%nat in Er. intros [= <- <- <-].
  rewrite Eq, Ek, Es, Hd, Er at 1. by rewrite !sapp_assoc.
Qed.

Lemma unquote_numbers_quotes fuel s : without_quotes (unquote_numbers fuel s) = without_quotes s.
Proof.
  revert s. induction fuel as [|fuel IH]; intros s; cbn [unquote_numbers]; [done|].
  destruct (match_quoted_number s) as [[[key number] rest]|] eqn:E.
  - apply match_quoted_number_whole in E. rewrite E, !without_quotes_app, IH. done.
  - destruct s as [|c s]; [done|]. cbn. by rewrite IH.
Qed.

(** The pedantic output differs from the other one in quotes alone. *)
Lemma pedantic_only_quotes `{Messages} `{TimeUtil} json (output : OutputMessage) res res' :
  FortioOutputFormatterImpl_formatProto json output = inr res ->
  FortioPedanticOutputFormatterImpl_formatProto json output = inr res' ->
  without_quotes res' = without_quotes res.
Proof.
  unfold FortioPedanticOutputFormatterImpl_formatProto. intros ->. intros [= <-].
  by rewrite unquote_numbers_quotes, quote_requested_qps_quotes.
Qed.

(** ** A concrete output *)

Section Examples.

#[local] Existing Instances demo_messages demo_time demo_time_laws.

Definition demo_number (z : Z) : string := fmt_u64 (UriEnv := uri_env_documented) z.

Definition demo_double (x : double) : string :=
  match truncZ x with Some n => demo_number n | None => "nan"%string end.

Definition demo_fmt : Fmt := {|
  fmt_int := demo_number;
  fmt_double := demo_double;
  fmt_03 n := (if n <? 10 then "00" else if n <? 100 then "0" else "") +:+ demo_number n;
  fmt_g8 := demo_double;
  fmt_f2 := demo_double;
  fmt_f0 := demo_double;
  fmt_left s n := s +:+ String.string_of_list_ascii (repeat " "%char (n - String.length s));
|}.

#[local] Existing Instance demo_fmt.

Definition demo_statistic : StatisticMessage := {|
  om_id := "sequencer.callback";
  om_count := 4;
  om_mean := inl (mkDuration 0 3000);
  om_pstdev := inl (mkDuration 0 1000);
  om_min := inl (mkDuration 0 1000);
  om_max := inl (mkDuration 1 5000);
  om_percentiles := [mkPercentile (inl (mkDuration 0 1000)) d0 1; mkPercentile (inl (mkDuration 0 2000)) (dfrac 5 10) 2;
                     mkPercentile (inl (mkDuration 1 5000)) d1 4];
|}.

Definition demo_result (name : string) : ResultMessage :=
  mkResultMessage name [demo_statistic] [mkCounterMessage "benchmark.http_2xx" 4] (mkDuration 2 0).

Definition demo_options_message : OptionsMessage := {|
  m_requests_per_second := Some 2; m_connections := None; m_duration_options := DurationOptionsNotSet; m_timeout := None;
  m_protocol := ProtocolNotSet; m_tunnel_options := None; m_grpc_mode := None; m_grpc_stream := None; m_websocket := None;
  m_tcp := None; m_udp := None; m_http3_protocol_options := None; m_concurrency := None; m_verbosity := None;
  m_output_format := None; m_prefetch_connections := None; m_burst_size := None; m_address_family := None;
  m_request := RequestOptionsNotSet; m_tls_context := None; m_max_pending_requests := None; m_max_active_requests := None;
  m_max_requests_per_connection := None; m_sequencer_idle_strategy := None; m_uri := UriCase "http://a/"; m_trace := None;
  m_h1_connection_reuse_strategy := None; m_termination_predicates := ∅; m_failure_predicates := ∅;
  m_no_default_failure_predicates := None; m_open_loop := None; m_jitter_uniform := None; m_nighthawk_service := None;
  m_h2_use_multiple_connections := None; m_max_concurrent_streams := None; m_labels := ["a"%string; "b"%string];
  m_upstream_bind_config := None; m_transport_socket := None; m_simple_warmup := None; m_stats_sinks := [];
  m_stats_flush := StatsFlushNotSet; m_latency_response_header_name := None; m_scheduled_start := None;
  m_execution_id := None; m_user_defined_plugin_configs := []; m_rate_limiter_plugin_config := None;
|}.

Definition demo_output : OutputMessage :=
  mkOutputMessage _ (mkDuration 0 0) demo_options_message [demo_result "worker_0"; demo_result "global"] "1.0".

Definition demo_text : string :=
  match PrometheusOutputFormatterImpl_formatProto demo_output with Ok t => t | _ => EmptyString end.

(** The samples of the worker and of the whole are under one type line. *)
Lemma prometheus_grouped_witness :
  exists samples groups, output_samples demo_output = Ok samples /\ demo_text = sconcat (metric_entry <$> groups) /\
    metric_text "nighthawk_sequencer_callback_min counter" groups =
    "nighthawk_sequencer_callback_min{scope=" +:+ quote +:+ "worker_0" +:+ quote +:+ "} 1" +:+ endl +:+
    "nighthawk_sequencer_callback_min{scope=" +:+ quote +:+ "global" +:+ quote +:+ "} 1" +:+ endl.
Proof.
  destruct (prometheus_grouped demo_output demo_text) as (samples & groups & Hs & Ht & _ & _ & Hl);
    [vm_compute; reflexivity|].
  exists samples, groups. split; [exact Hs|]. split; [exact Ht|]. rewrite Hl.
  vm_compute in Hs. injection Hs as <-. vm_compute. reflexivity.
Defined.

(** Four samples in three entries. *)
Lemma fortio_histogram_partitions_witness :
  total_count (dh_data (renderFortioDurationHistogram demo_statistic)) = 4.
Proof.
  destruct (fortio_histogram_partitions demo_statistic) as (_ & _ & Ht & _); [cbn; lia|].
  exact Ht.
Defined.

Lemma console_duration_witness :
  formatProtoDuration (mkDuration 61 2003000) = "61s 002ms 003us"%string /\
  exists s ms us, formatProtoDuration (mkDuration 61 2003000) =
    fmt_int s +:+ "s " +:+ fmt_03 ms +:+ "ms " +:+ fmt_03 us +:+ "us" /\
    1000000 * s + 1000 * ms + us = DurationToMicroseconds (mkDuration 61 2003000).
Proof.
  split; [vm_compute; reflexivity|].
  destruct (console_duration (mkDuration 61 2003000)) as (s & ms & us & Hf & _ & _ & _ & _ & He); [cbn; lia|cbn; lia|].
  exists s, ms, us. split; [exact Hf|]. apply He. cbn. lia.
Defined.

(** Twenty minutes are shown as two hundred seconds. *)
Lemma console_duration_wraps : formatProtoDuration (mkDuration 1200 0) = "200s 000ms 000us"%string.
Proof. vm_compute. reflexivity. Qed.

(** A value that is not a duration has a column of zero microseconds in the
    comma-separated text. *)
Lemma csv_raw_microseconds :
  csv_row (mkPercentile (inr (d_of_Z 512)) (dfrac 5 10) 7) = Ok ("0,7,0,512" +:+ endl).
Proof. vm_compute. reflexivity. Qed.

End Examples.
