(* ===== verification/Bootstrap.v ===== *)
(** * The configuration Envoy is started with

    Models [engine/source/client/process_bootstrap.{h,cc}]: the targets and the
    request source that are resolved, the clusters of the workers with their
    protocol, circuit breakers and transport socket, the configuration of the
    encapsulating subprocess, and the life of that subprocess.

    Resolution, the system calls and how numbers are printed are arguments.
    Messages of Envoy are records of what the code sets in them; a TLS context is
    the one given and what is set on top of it. *)

From stdpp Require Import gmap strings.
From S2P Require Import Prelude Text Uri Statistic BenchmarkClient.
From S2P Require Import Options OptionsMessages OptionsProofs OptionsCommandLine OptionsTheorems.

(** ** Clusters *)

Record TlsContext `{Messages} : Type := mkTlsContext {
  tls_given : message;
  tls_sni : option string;
  tls_alpn : list string;
}.

(** The one given on the command line, or ["envoy.transport_sockets.tls"] or
    ["envoy.transport_sockets.quic"] with a context. *)
Inductive TransportSocketConfig `{Messages} : Type :=
| GivenSocket (socket : message)
| TlsSocket (context : TlsContext)
| QuicSocket (context : TlsContext).

(** [explicit_http_config]. *)
Inductive ExplicitHttpConfig `{Messages} : Type :=
| ExplicitHttp1
| ExplicitHttp2 (max_concurrent_streams : option Z)
| ExplicitHttp3 (max_concurrent_streams : option Z)
| GivenHttp3 (options : message).

Record HttpProtocolOptions `{Messages} : Type := mkHttpProtocolOptions {
  hp_config : ExplicitHttpConfig;
  hp_max_requests_per_connection : option Z;
}.

Record CircuitBreakers : Type := mkCircuitBreakers {
  cb_max_retries : Z;
  cb_max_connections : Z;
  cb_max_pending_requests : Z;
  cb_max_requests : Z;
}.

(** A cluster of type [STATIC]; [cl_endpoints] are the addresses and ports of its
    one group of endpoints, and its load assignment is named as it is. *)
Record Cluster `{Messages} : Type := mkCluster {
  cl_name : string;
  cl_connect_timeout : Z;
  cl_http_options : option HttpProtocolOptions;
  cl_circuit_breakers : option CircuitBreakers;
  cl_endpoints : list (string * Z);
  cl_transport_socket : option TransportSocketConfig;
}.

Record BootstrapConfig `{Messages} : Type := mkBootstrap {
  bs_clusters : list Cluster;
  bs_stats_sinks : list message;
  bs_stats_flush_interval : Duration;
  bs_upstream_bind_config : option message;
}.

Arguments mkTlsContext {_}.
Arguments GivenSocket {_}.
Arguments TlsSocket {_}.
Arguments QuicSocket {_}.
Arguments ExplicitHttp1 {_}.
Arguments ExplicitHttp2 {_}.
Arguments ExplicitHttp3 {_}.
Arguments GivenHttp3 {_}.
Arguments mkHttpProtocolOptions {_}.
Arguments mkCluster {_}.
Arguments mkBootstrap {_}.

Section Bootstrap.
Context `{Messages} `{UriEnv} `{AbslStrings} `{AbslMatch}.

(** A URI and the address it was resolved to. *)
Record ResolvedUri : Type := mkResolved { ru_uri : UriImpl; ru_address : Address }.

Definition addUriToEndpoints (uri : ResolvedUri) : string * Z := (address_ip (ru_address uri), port_ (ru_uri uri)).

(** The names of the clusters a client worker asks its request source and its
    benchmark client to use, as its constructor hands them to the factories. *)
Definition request_source_cluster (worker_number : Z) : string := fmt_u64 worker_number +:+ ".requestsource".

Definition benchmark_cluster (worker_number : Z) : string := fmt_u64 worker_number.

Definition createRequestSourceClusterForWorker (o : OptionsImpl) (request_source_uri : ResolvedUri) (worker_number : Z) :
    Cluster :=
  mkCluster (fmt_u64 worker_number +:+ ".requestsource") (o_timeout o)
    (Some (mkHttpProtocolOptions (ExplicitHttp2 None) None)) None [addUriToEndpoints request_source_uri] None.

(** [uris[0]] is undefined when there are none. *)
Definition needTransportSocket (o : OptionsImpl) (uris : list ResolvedUri) : outcome bool :=
  match uris with
  | [] => Undefined
  | u :: _ =>
      Ok ((scheme_ (ru_uri u) =? "https")%string || (scheme_ (ru_uri u) =? "tcps")%string ||
          bool_decide (is_Some (o_transport_socket o)))
  end.

(** Envoy's protocols with an [:authority] header. *)
Definition has_authority (p : Protocol) : bool := match p with Http2 | Http3 => true | Http10 | Http11 => false end.

Definition createTransportSocket (o : OptionsImpl) (uris : list ResolvedUri) : outcome TransportSocketConfig :=
  match o_transport_socket o, uris with
  | Some socket, _ => Ok (GivenSocket socket)
  | None, [] => Undefined
  | None, u :: _ =>
      let sni_host := computeSniHost (ru_uri <$> uris) (o_request_headers o) (has_authority (OptionsImpl_protocol o)) in
      let context alpn :=
        mkTlsContext (o_tls_context o) (if (sni_host =? EmptyString)%string then None else Some sni_host) alpn in
      Ok (if (scheme_ (ru_uri u) =? "tcps")%string then TlsSocket (context [])
          else match OptionsImpl_protocol o with
               | Http2 => TlsSocket (context ["h2"%string])
               | Http3 => QuicSocket (context ["h3"%string])
               | _ => TlsSocket (context ["http/1.1"%string])
               end)
  end.

Definition createCircuitBreakers (o : OptionsImpl) : CircuitBreakers := {|
  cb_max_retries := 0;
  cb_max_connections := o_connections o;
  cb_max_pending_requests := if o_max_pending_requests o =? 0 then 1 else o_max_pending_requests o;
  cb_max_requests := o_max_active_requests o;
|}.

Definition http_protocol_options (o : OptionsImpl) : HttpProtocolOptions :=
  mkHttpProtocolOptions
    match OptionsImpl_protocol o with
    | Http2 => ExplicitHttp2 (Some (o_max_concurrent_streams o))
    | Http3 => match o_http3_protocol_options o with
               | Some given => GivenHttp3 given
               | None => ExplicitHttp3 (Some (o_max_concurrent_streams o))
               end
    | _ => ExplicitHttp1
    end
    (Some (o_max_requests_per_connection o)).

Definition createNighthawkClusterForWorker (o : OptionsImpl) (uris : list ResolvedUri) (worker_number : Z) : Cluster :=
  if o_tcp o || o_udp o then
    mkCluster (fmt_u64 worker_number) (o_timeout o) None None (addUriToEndpoints <$> uris) None
  else
    mkCluster (fmt_u64 worker_number) (o_timeout o) (Some (http_protocol_options o)) (Some (createCircuitBreakers o))
      (addUriToEndpoints <$> uris) None.

(** ** Targets *)

Context (dns : string -> DnsLookupFamily -> option (list (string * ip_version))).

Definition family_option (f : AddressFamilyOptions) : AddressFamilyOption :=
  match f with
  | FAMILY_V4 => FamilyV4
  | FAMILY_V6 => FamilyV6
  | FAMILY_AUTO => FamilyAuto
  | FamilyUnrecognized _ => FamilyDefault
  end.

(** [resolve()] of a URI that was just made. *)
Definition resolve_uri (o : OptionsImpl) (u : UriImpl) : outcome ResolvedUri :=
  let* family := translateFamilyOptionString (family_option (o_address_family o)) in
  let* address := fst (UriImpl_resolve dns family u (mkResolution None false)) in
  match address with
  | Some a => Ok (mkResolved u a)
  | None => Undefined
  end.

Fixpoint each_uri {A B} (f : A -> outcome B) (l : list A) : outcome (list B) :=
  match l with
  | [] => Ok []
  | a :: l => let* b := f a in let* rest := each_uri f l in Ok (b :: rest)
  end.

Definition endpoint_uri (o : OptionsImpl) (e : Endpoint) : string :=
  (if o_multi_target_use_https o then "https" else "http") +:+ "://" +:+ default EmptyString (endpoint_address e) +:+ ":" +:+
  fmt_u64 (default 0 (endpoint_port e)) +:+ o_multi_target_path o.

Definition target_uris (o : OptionsImpl) : outcome (list UriImpl) :=
  match o_uri o with
  | Some uri => let* u := UriImpl_new uri "http" in Ok [u]
  | None => each_uri (fun e => UriImpl_new (endpoint_uri o e) "http") (o_multi_target_endpoints o)
  end.

(** The targets are all parsed and then all resolved; the encapsulation and the
    request source follow, each parsed and resolved. *)
Definition resolve_all (o : OptionsImpl) : outcome (list ResolvedUri * option ResolvedUri * option ResolvedUri) :=
  let* uris := target_uris o in
  let* uris := each_uri (resolve_uri o) uris in
  let* encap :=
    (if (o_tunnel_uri o =? EmptyString)%string then Ok None
     else
       let* u := UriImpl_new ("https://localhost:" +:+ fmt_u64 (o_encap_port o)) "http" in
       let* r := resolve_uri o u in Ok (Some r)) in
  let* source :=
    (if (o_request_source o =? EmptyString)%string then Ok None
     else
       let* u := UriImpl_new (o_request_source o) "http" in
       let* r := resolve_uri o u in Ok (Some r)) in
  Ok (uris, encap, source).

(** A [UriException] is turned into a status, [inl]. *)
Definition extractAndResolveUrisFromOptions (o : OptionsImpl) :
    outcome (string + list ResolvedUri * option ResolvedUri * option ResolvedUri) :=
  match resolve_all o with
  | Ok r => Ok (inr r)
  | Throw (UriException what) =>
      Ok (inl ("URI exception (for example, malformed URI syntax, bad MultiTarget path, " +:+
               "unresolvable host DNS): " +:+ what))
  | Throw e => Throw e
  | Panic w => Panic w
  | Undefined => Undefined
  end.

(** ** The configuration *)

Definition with_transport_socket (s : TransportSocketConfig) (c : Cluster) : Cluster :=
  mkCluster (cl_name c) (cl_connect_timeout c) (cl_http_options c) (cl_circuit_breakers c) (cl_endpoints c) (Some s).

(** The clusters of one worker. *)
Definition worker_clusters (o : OptionsImpl) (uris encap_uris : list ResolvedUri) (source : option ResolvedUri)
    (worker_number : Z) : outcome (string + list Cluster) :=
  let is_tunneling := negb (o_tunnel_uri o =? EmptyString)%string in
  if is_tunneling && (length encap_uris =? 0)%nat then Ok (inl "No encapsulation URI for tunneling"%string)
  else
    let cluster := createNighthawkClusterForWorker o (if is_tunneling then encap_uris else uris) worker_number in
    let* need := needTransportSocket o uris in
    let* cluster := (if need then let* s := createTransportSocket o uris in Ok (with_transport_socket s cluster)
                     else Ok cluster) in
    Ok (inr (cluster :: match source with
                        | Some u => [createRequestSourceClusterForWorker o u worker_number]
                        | None => []
                        end)).

Fixpoint all_clusters (o : OptionsImpl) (uris encap_uris : list ResolvedUri) (source : option ResolvedUri)
    (worker_number : Z) (todo : nat) : outcome (string + list Cluster) :=
  match todo with
  | O => Ok (inr [])
  | S todo =>
      let* mine := worker_clusters o uris encap_uris source worker_number in
      match mine with
      | inl status => Ok (inl status)
      | inr mine =>
          let* rest := all_clusters o uris encap_uris source (worker_number + 1) todo in
          match rest with
          | inl status => Ok (inl status)
          | inr rest => Ok (inr (mine ++ rest))
          end
      end
  end.

Definition bootstrap_flush_interval (o : OptionsImpl) : Duration :=
  let d := o_stats_flush_interval_duration o in
  if (0 <? seconds d) || (0 <? nanos d) then d else mkDuration (o_stats_flush_interval o) 0.

(** [resolver]: that the resolver could be made, or why not. *)
Definition createBootstrapConfiguration (resolver : option string) (o : OptionsImpl) (number_of_workers : nat) :
    outcome (string + BootstrapConfig) :=
  match resolver with
  | Some status => Ok (inl status)
  | None =>
      let* extracted := extractAndResolveUrisFromOptions o in
      match extracted with
      | inl status => Ok (inl status)
      | inr (uris, encap_uri, source) =>
          let* clusters := all_clusters o uris (option_list encap_uri) source 0 number_of_workers in
          match clusters with
          | inl status => Ok (inl status)
          | inr clusters =>
              Ok (inr (mkBootstrap clusters (o_stats_sinks o) (bootstrap_flush_interval o) (o_upstream_bind_config o)))
          end
      end
  end.

(** ** The encapsulating Envoy *)

Inductive SocketProtocol : Type := SOCKET_TCP | SOCKET_UDP.

(** The proxy of the listener: UDP sessions in capsules, or TCP by CONNECT. *)
Inductive EncapProxy : Type :=
| UdpProxy (cluster proxy_host target_host : string) (default_target_port max_connect_attempts max_buffered_datagrams
    max_buffered_bytes : Z) (headers : list (string * string))
| TcpProxy (cluster hostname : string) (headers : list (string * string)).

Record EncapBootstrap : Type := mkEncapBootstrap {
  eb_address : string;
  eb_port : Z;
  eb_protocol : SocketProtocol;
  eb_proxy : EncapProxy;
  eb_cluster : Cluster;
}.

Definition encap_proxy (is_udp : bool) : EncapProxy :=
  let headers := [("original_dst_port"%string, "%DOWNSTREAM_LOCAL_PORT%"%string)] in
  if is_udp
  then UdpProxy "cluster_0" "%FILTER_STATE(proxy.host.key:PLAIN)%" "%FILTER_STATE(target.host.key:PLAIN)%" 443 2 1024
         16384 headers
  else TcpProxy "cluster_0" "host.com:443" headers.

(** The transport of the tunnel; [*options.tunnelTlsContext()] of no value is
    undefined. *)
Definition encap_transport (o : OptionsImpl) : outcome (ExplicitHttpConfig * option TransportSocketConfig) :=
  let context tls := mkTlsContext tls None [] in
  match OptionsImpl_tunnelProtocol o with
  | Http3 => match o_tunnel_tls_context o with
             | Some tls => Ok (ExplicitHttp3 None, Some (QuicSocket (context tls)))
             | None => Undefined
             end
  | Http2 => Ok (ExplicitHttp2 None, TlsSocket ∘ context <$> o_tunnel_tls_context o)
  | _ => Ok (ExplicitHttp1, TlsSocket ∘ context <$> o_tunnel_tls_context o)
  end.

Definition createEncapBootstrap (o : OptionsImpl) (tunnel_uri : UriImpl) : outcome EncapBootstrap :=
  let is_udp := match OptionsImpl_protocol o with Http3 => true | _ => false end in
  let* u := UriImpl_new ("http://localhost:" +:+ fmt_u64 (o_encap_port o)) "http" in
  let* encap_uri := resolve_uri o u in
  let* transport := encap_transport o in
  let* tunnel := resolve_uri o tunnel_uri in
  Ok (mkEncapBootstrap (address_ip (ru_address encap_uri)) (port_ (ru_uri encap_uri))
        (if is_udp then SOCKET_UDP else SOCKET_TCP) (encap_proxy is_udp)
        (mkCluster "cluster_0" 5 (Some (mkHttpProtocolOptions transport.1 None)) None [addUriToEndpoints tunnel]
           transport.2)).

End Bootstrap.

(** ** The subprocess *)

(** [pid_], and whether the semaphore is still mapped. *)
Record EncapsulationSubProcessRunner : Type := mkRunner { pid_ : Z; semaphore_mapped : bool }.

(** [sem_initialised]: [sem_init] returned zero. *)
Definition EncapsulationSubProcessRunner_new (sem_initialised : bool) : outcome EncapsulationSubProcessRunner :=
  if sem_initialised then Ok (mkRunner (-1) true)
  else Throw (NighthawkException "Could not initialise semaphore").

(** What the process does: the child runs Envoy and leaves through [_exit(0)]; the
    parent waits for the semaphore and starts the run. *)
Inductive RunEvent : Type := RunEnvoy | ChildExit (status : Z) | SemWait | RunNighthawk.

(** [fork]: what it returned. The events, the status when the call returns, and
    the runner. *)
Definition RunWithSubprocess (fork : Z) (r : EncapsulationSubProcessRunner) :
    list RunEvent * option (option string) * EncapsulationSubProcessRunner :=
  let r := mkRunner fork (semaphore_mapped r) in
  if fork =? -1 then ([], Some (Some "fork failed"%string), r)
  else if fork =? 0 then ([RunEnvoy; ChildExit 0], None, r)
  else ([SemWait; RunNighthawk], Some None, r).

(** How the encapsulating Envoy fares: its construction throws an
    [EnvoyException], or it runs, reaches [PostInit] or not, and [run()] returns or
    throws one. *)
Inductive EncapFate : Type := MainThrows | MainRuns (post_init : bool) (throws : bool).

(** [envoy_routine]: how often it posts the semaphore. *)
Definition envoy_routine (tunnel_uri : string) (fate : EncapFate) : nat :=
  if (tunnel_uri =? EmptyString)%string then 1
  else match fate with
       | MainThrows => 1
       | MainRuns post_init throws => (if post_init then 1 else 0) + (if throws then 1 else 0)
       end.

(** An answer of [waitpid]: not yet, an error, or the status of the child and
    whether it exited with zero. *)
Inductive WaitAnswer : Type := StillRunning | WaitError | Reaped (status : Z) (clean : bool).

(** The loop of 150 attempts, 100ms apart: its answer, or that there was none. *)
Fixpoint reap_loop (wait : nat -> WaitAnswer) (i : nat) (todo : nat) : option WaitAnswer :=
  match todo with
  | O => None
  | S todo => match wait i with StillRunning => reap_loop wait (S i) todo | a => Some a end
  end.

Definition reap_attempts : nat := 150.

(** [terminated]: [kill(SIGTERM)] succeeded or the process was gone; [killed]: what
    the blocking [waitpid] after [SIGKILL] answers. The status, whether [SIGKILL]
    was sent, and the runner. *)
Definition TerminateEncapSubProcess (fmt : Z -> string) (terminated : bool) (wait : nat -> WaitAnswer) (killed : WaitAnswer)
    (r : EncapsulationSubProcessRunner) : option string * bool * EncapsulationSubProcessRunner :=
  if (pid_ r =? -1) || (pid_ r =? 0) then (None, false, r)
  else if negb terminated then (Some "Failed to kill encapsulation subprocess"%string, false, r)
  else
    let r := mkRunner (-1) (semaphore_mapped r) in
    let '(answer, forced) := match reap_loop wait 0 reap_attempts with
                             | Some a => (a, false)
                             | None => (killed, true)
                             end in
    (match answer with
     | Reaped status false => Some ("Envoy crashed with code: " +:+ fmt status)
     | _ => None
     end, forced, r).

(** The destructor: the semaphore is unmapped in the child alone. *)
Definition EncapsulationSubProcessRunner_delete (fmt : Z -> string) (terminated : bool) (wait : nat -> WaitAnswer)
    (killed : WaitAnswer) (r : EncapsulationSubProcessRunner) : EncapsulationSubProcessRunner :=
  let '(_, _, r) := TerminateEncapSubProcess fmt terminated wait killed r in
  if pid_ r =? 0 then mkRunner (pid_ r) false else r.
