(* ===== verification/BootstrapProofs.v ===== *)
(** * Theorems on the configuration Envoy is started with

    About [engine/source/client/process_bootstrap.{h,cc}] as modelled by
    [Bootstrap]: which clusters the workers get and what they point to, that the
    configuration fits the options it is made from, that the tunnel's listener is
    where the workers send their traffic, and how the subprocess ends. *)

From stdpp Require Import gmap strings.
From S2P Require Import Prelude Text Uri Statistic BenchmarkClient.
From S2P Require Import Options OptionsMessages OptionsProofs OptionsCommandLine OptionsTheorems Bootstrap.

(** ** Resolution *)

(** Ends with a value or with the exception that becomes a status. *)
Definition uri_throws {A} (r : outcome A) : Prop :=
  match r with Ok _ | Throw (UriException _) => True | _ => False end.

Lemma uri_throws_bind {A B} (r : outcome A) (f : A -> outcome B) :
  uri_throws r -> (forall a, r = Ok a -> uri_throws (f a)) -> uri_throws (obind r f).
Proof. destruct r as [| [] | |]; cbn; auto. Qed.

Section Resolution.
Context `{Messages} `{UriEnv} `{AbslStrings} `{AbslMatch}.
Context (dns : string -> DnsLookupFamily -> option (list (string * ip_version))).

Lemma uri_new_throws uri scheme : uri_throws (UriImpl_new uri scheme).
Proof.
  unfold UriImpl_new. destruct (extractHostPathFromUri uri) as [host path]. destruct (_ =? _)%string; [done|].
  apply uri_throws_bind.
  - destruct (findPortSeparator host); [|done]. by destruct (atoi_u64 _).
  - intros u _. by destruct (UriImpl_isValid u).
Qed.

Lemma each_uri_throws {A B} (f : A -> outcome B) l : (forall a, uri_throws (f a)) -> uri_throws (each_uri f l).
Proof.
  intros Hf. induction l as [|a l IH]; cbn; [done|]. apply uri_throws_bind; [done|]. intros b _.
  by apply uri_throws_bind.
Qed.

Lemma each_uri_Ok {A B} (f : A -> outcome B) l bs : each_uri f l = Ok bs -> Forall2 (fun a b => f a = Ok b) l bs.
Proof. revert bs. induction l as [|a l IH]; intros bs E; cbn in E; inv_bind; constructor; auto. Qed.

(** An address family the enumeration names. *)
Definition known_family (o : OptionsImpl) : Prop := forall z, o_address_family o <> FamilyUnrecognized z.

Lemma family_known o : known_family o -> exists f, translateFamilyOptionString (family_option (o_address_family o)) = Ok f.
Proof. intros Hf. unfold known_family in Hf. destruct (o_address_family o); cbn; eauto. exfalso. by eapply Hf. Qed.

(** The first address of the name, in the family asked for, and the port of the
    URI. *)
Lemma resolve_uri_Ok o u v :
  resolve_uri dns o u = Ok v ->
  ru_uri v = u /\ exists family version rest, translateFamilyOptionString (family_option (o_address_family o)) = Ok family /\
    dns (lookup_name u) family = Some ((address_ip (ru_address v), version) :: rest) /\
    address_port (ru_address v) = port_ u.
Proof.
  unfold resolve_uri. intros E. apply obind_Ok in E as (family & Hf & E).
  pose proof (uri_resolved_once dns family u (mkResolution None false)) as Hr.
  destruct (UriImpl_resolve _ _ _ _) as [result r']. destruct Hr as (_ & _ & Hr). destruct (Hr eq_refl eq_refl) as [Ha _].
  cbn [fst] in E. apply obind_Ok in E as (a & -> & E). destruct (Ha a eq_refl) as (_ & ip & version & rest & -> & Hd & _).
  injection E as <-. split; [done|]. by exists family, version, rest.
Qed.

Lemma resolve_uri_throws o u : known_family o -> uri_throws (resolve_uri dns o u).
Proof.
  intros [f Hf]%family_known. unfold resolve_uri. rewrite Hf. cbn [obind].
  unfold UriImpl_resolve, performDnsLookup. cbn.
  destruct (dns (lookup_name u) f) as [[|[ip version] rest]|]; try done. cbn. by destruct (family_fits f _).
Qed.

Lemma resolve_all_throws o : known_family o -> uri_throws (resolve_all dns o).
Proof.
  intros Hf. unfold resolve_all.
  assert (forall uri, uri_throws (let* u := UriImpl_new uri "http" in let* r := resolve_uri dns o u in Ok (Some r))) as Hone.
  { intros uri. apply uri_throws_bind; [apply uri_new_throws|]. intros u _. apply uri_throws_bind; [by apply resolve_uri_throws|done]. }
  apply uri_throws_bind.
  { unfold target_uris. destruct (o_uri o).
    - apply uri_throws_bind; [apply uri_new_throws|done].
    - apply each_uri_throws. intros. apply uri_new_throws. }
  intros uris _. apply uri_throws_bind; [apply each_uri_throws; intros; by apply resolve_uri_throws|]. intros ruris _.
  apply uri_throws_bind; [by destruct (_ =? _)%string|]. intros encap _.
  apply uri_throws_bind; [by destruct (_ =? _)%string|done].
Qed.

(** A target that was parsed: its port is one a socket has. *)
Definition good_target (u : ResolvedUri) : Prop := UriImpl_isValid (ru_uri u) = true.

Lemma new_valid uri d u : UriImpl_new uri d = Ok u -> UriImpl_isValid u = true.
Proof.
  unfold UriImpl_new. destruct (extractHostPathFromUri uri) as [host path]. destruct (_ =? _)%string; [done|].
  intros E. apply obind_Ok in E as (v & _ & E). destruct (UriImpl_isValid v) eqn:Ev; [|done]. by injection E as <-.
Qed.

Lemma resolve_one_good o uri r :
  (let* u := UriImpl_new uri "http" in let* v := resolve_uri dns o u in Ok (Some v)) = Ok r ->
  exists v, r = Some v /\ good_target v.
Proof.
  intros E. inv_bind. exists a0. split; [done|]. apply resolve_uri_Ok in Hok0 as [E _]. unfold good_target. rewrite E.
  by eapply new_valid.
Qed.

(** What is resolved: targets in the order of the options, the encapsulation when
    there is a tunnel, the request source when there is one. *)
Lemma resolve_all_Ok o uris encap source :
  resolve_all dns o = Ok (uris, encap, source) ->
  Forall good_target uris /\
  length uris = match o_uri o with Some _ => 1%nat | None => length (o_multi_target_endpoints o) end /\
  (is_Some encap <-> o_tunnel_uri o <> EmptyString) /\ (is_Some source <-> o_request_source o <> EmptyString) /\
  from_option good_target True encap /\ from_option good_target True source.
Proof.
  unfold resolve_all. intros E. apply obind_Ok in E as (targets & Ht & E). apply obind_Ok in E as (ruris & Hr & E).
  apply obind_Ok in E as (e & He & E). apply obind_Ok in E as (s & Hs & E). injection E as <- <- <-.
  assert (Forall (fun u => UriImpl_isValid u = true) targets /\
          length targets = match o_uri o with Some _ => 1%nat | None => length (o_multi_target_endpoints o) end) as [Hv Hl].
  { unfold target_uris in Ht. destruct (o_uri o).
    - inv_bind. split; [|done]. repeat constructor. by eapply new_valid.
    - apply each_uri_Ok in Ht. split; [|by apply Forall2_length in Ht]. clear -Ht.
      induction Ht; constructor; auto. by eapply new_valid. }
  apply each_uri_Ok in Hr. refine (conj _ (conj _ (conj _ (conj _ (conj _ _))))).
  - clear -Hr Hv. induction Hr as [|u v ? ? Hu Hr IH]; inversion Hv; subst; constructor; auto.
    apply resolve_uri_Ok in Hu as [E _]. unfold good_target. by rewrite E.
  - apply Forall2_length in Hr. by rewrite <- Hr.
  - destruct (String.eqb_spec (o_tunnel_uri o) EmptyString) as [->|]; [injection He as <-; split; [by intros []|done]|].
    apply resolve_one_good in He as (v & -> & _). by split.
  - destruct (String.eqb_spec (o_request_source o) EmptyString) as [->|]; [injection Hs as <-; split; [by intros []|done]|].
    apply resolve_one_good in Hs as (v & -> & _). by split.
  - destruct (o_tunnel_uri o =? _)%string; [by injection He as <-|]. by apply resolve_one_good in He as (v & -> & Hg).
  - destruct (o_request_source o =? _)%string; [by injection Hs as <-|]. by apply resolve_one_good in Hs as (v & -> & Hg).
Qed.

End Resolution.

(** ** The clusters of the workers *)

Section Clusters.
Context `{Messages} `{UriEnv} `{AbslStrings} `{AbslMatch} {UL : UriEnvLaws}.
Context (dns : string -> DnsLookupFamily -> option (list (string * ip_version))).

(** The transport socket, the same for every worker. *)
Definition main_socket (o : OptionsImpl) (uris : list ResolvedUri) : outcome (option TransportSocketConfig) :=
  let* need := needTransportSocket o uris in
  if need then let* s := createTransportSocket o uris in Ok (Some s) else Ok None.

Definition main_cluster (o : OptionsImpl) (targets : list ResolvedUri) (socket : option TransportSocketConfig) (i : Z) : Cluster :=
  let c := createNighthawkClusterForWorker o targets i in
  match socket with Some s => with_transport_socket s c | None => c end.

Definition clusters_of (o : OptionsImpl) (targets : list ResolvedUri) (source : option ResolvedUri)
    (socket : option TransportSocketConfig) (i : Z) : list Cluster :=
  main_cluster o targets socket i ::
  match source with Some u => [createRequestSourceClusterForWorker o u i] | None => [] end.

(** Where the workers send their traffic. *)
Definition worker_targets (o : OptionsImpl) (uris : list ResolvedUri) (encap : option ResolvedUri) : list ResolvedUri :=
  if (o_tunnel_uri o =? EmptyString)%string then uris else option_list encap.

Lemma worker_clusters_Ok o uris encap source i l :
  worker_clusters o uris (option_list encap) source i = Ok (inr l) ->
  exists socket, main_socket o uris = Ok socket /\ l = clusters_of o (worker_targets o uris encap) source socket i.
Proof.
  unfold worker_clusters, main_socket, clusters_of, main_cluster, worker_targets.
  destruct (o_tunnel_uri o =? EmptyString)%string; cbn [negb andb].
  all: try (destruct (length (option_list encap) =? 0)%nat; [discriminate|]).
  all: intros E; apply obind_Ok in E as (need & -> & E); apply obind_Ok in E as (c & Hc & E); injection E as <-; cbn.
  all: destruct need; [|injection Hc as <-; by exists None].
  all: apply obind_Ok in Hc as (s & -> & Hc); injection Hc as <-; by exists (Some s).
Qed.

Lemma all_clusters_Ok o uris encap source i todo l :
  all_clusters o uris (option_list encap) source i todo = Ok (inr l) ->
  exists socket, (todo <> O -> main_socket o uris = Ok socket) /\
    l = seqZ i (Z.of_nat todo) ≫= clusters_of o (worker_targets o uris encap) source socket.
Proof.
  revert i l. induction todo as [|todo IH]; intros i l E; cbn [all_clusters] in E; [injection E as <-; by exists None|].
  apply obind_Ok in E as (mine & Hm & E). destruct mine as [|mine]; [discriminate|].
  apply obind_Ok in E as (rest & Hr & E). destruct rest as [|rest]; [discriminate|]. injection E as <-.
  apply worker_clusters_Ok in Hm as (socket & Hs & ->). destruct (IH _ _ Hr) as (socket' & Hs' & ->).
  exists socket. split; [done|]. rewrite Nat2Z.inj_succ, (seqZ_cons i), Z.pred_succ, bind_cons, Z.add_1_r by lia. f_equal.
  destruct todo; [done|]. rewrite Hs in Hs'. by injection (Hs' ltac:(done)) as <-.
Qed.

Lemma bootstrap_inv resolver o n b :
  createBootstrapConfiguration dns resolver o n = Ok (inr b) ->
  exists uris encap source socket, resolve_all dns o = Ok (uris, encap, source) /\
    (n <> O -> main_socket o uris = Ok socket) /\
    bs_clusters b = seqZ 0 (Z.of_nat n) ≫= clusters_of o (worker_targets o uris encap) source socket.
Proof.
  unfold createBootstrapConfiguration, extractAndResolveUrisFromOptions. destruct resolver; [done|].
  destruct (resolve_all dns o) as [[[uris encap] source]|[]| |]; cbn [obind]; try done.
  intros E. apply obind_Ok in E as (clusters & Hc & E). destruct clusters as [|clusters]; [done|]. injection E as <-.
  apply all_clusters_Ok in Hc as (socket & Hs & Hc). by exists uris, encap, source, socket.
Qed.

(** *** Names *)

Definition worker_names (source : option ResolvedUri) (i : Z) : list string :=
  fmt_u64 i :: match source with Some _ => [fmt_u64 i +:+ ".requestsource"] | None => [] end.

Lemma names_of o targets source socket i : cl_name <$> clusters_of o targets source socket i = worker_names source i.
Proof.
  unfold clusters_of, worker_names, main_cluster, createNighthawkClusterForWorker.
  destruct socket, (_ || _), source; done.
Qed.

Lemma fmt_inj i j : in_u64 i -> in_u64 j -> fmt_u64 i = fmt_u64 j -> i = j.
Proof. intros Hi Hj E. pose proof (fmt_parsed i Hi) as Ei. rewrite E, fmt_parsed in Ei by done. by injection Ei. Qed.

(** No number ends in a suffix that is not digits. *)
Lemma fmt_no_suffix i s : in_u64 i -> ~ all_chars (fun c => is_digit c = true) s -> fmt_u64 i <> s.
Proof. intros Hi Hs E. apply Hs. rewrite <- E. by apply fmt_digits. Qed.

Lemma source_name_not_digits i : ~ all_chars (fun c => is_digit c = true) (fmt_u64 i +:+ ".requestsource").
Proof. rewrite all_chars_app. intros [_ [Hd _]]. by vm_compute in Hd. Qed.

Lemma app_suffix_inj (a b c : string) : a +:+ c = b +:+ c -> a = b.
Proof.
  revert b. induction a as [|x a IH]; intros b E; destruct b as [|y b].
  - done.
  - apply (f_equal String.length) in E. rewrite !slength_app in E. cbn in E. lia.
  - apply (f_equal String.length) in E. rewrite !slength_app in E. cbn in E. lia.
  - rewrite !sapp_cons in E. injection E as -> E. f_equal. by apply IH.
Qed.

Lemma worker_names_apart source i j name :
  in_u64 i -> in_u64 j -> name ∈ worker_names source i -> name ∈ worker_names source j -> i = j.
Proof.
  unfold worker_names. intros Hi Hj Hni Hnj.
  assert (forall k, name ∈ fmt_u64 k :: match source with Some _ => [fmt_u64 k +:+ ".requestsource"] | None => [] end ->
            name = fmt_u64 k \/ name = fmt_u64 k +:+ ".requestsource") as Hcases
    by (intros k; destruct source; rewrite ?elem_of_cons, ?elem_of_nil; tauto).
  destruct (Hcases i Hni) as [Ei|Ei], (Hcases j Hnj) as [Ej|Ej]; rewrite Ei in Ej.
  - by apply fmt_inj.
  - by apply fmt_no_suffix in Ej; [|done|apply source_name_not_digits].
  - symmetry in Ej. by apply fmt_no_suffix in Ej; [|done|apply source_name_not_digits].
  - apply app_suffix_inj in Ej. by apply fmt_inj.
Qed.

Lemma fmap_bind_list {A B C} (f : A -> list B) (g : B -> C) (l : list A) : g <$> (l ≫= f) = l ≫= (fun a => g <$> f a).
Proof. induction l as [|a l IH]; [done|]. rewrite !bind_cons, fmap_app. by rewrite IH. Qed.

Lemma names_unique o targets source socket n :
  Z.of_nat n <= 2 ^ 64 ->
  NoDup (cl_name <$> (seqZ 0 (Z.of_nat n) ≫= clusters_of o targets source socket)).
Proof.
  intros Hn. rewrite fmap_bind_list.
  assert (forall k, k ∈ seqZ 0 (Z.of_nat n) -> in_u64 k) as Hr by (intros k Hk%elem_of_seqZ; unfold in_u64, UINT64_MAX; lia).
  apply NoDup_bind; [| |apply NoDup_seqZ].
  - intros i j name Hi Hj. rewrite !names_of. apply worker_names_apart; auto.
  - intros i Hi. rewrite names_of. unfold worker_names. destruct source; [|apply NoDup_singleton].
    apply NoDup_cons. split; [|apply NoDup_singleton]. rewrite list_elem_of_singleton.
    apply fmt_no_suffix; [auto|apply source_name_not_digits].
Qed.

End Clusters.

(** ** Fitness for the options *)

(** What Abseil documents of the functions that find the scheme of a target. *)
Class SchemeLaws `{AbslStrings} `{AbslMatch} : Prop := {
  scheme_lower s : AsciiStrToLower s = lower_case s;
  scheme_prefix s t : StartsWith s t = true <-> exists v, s = t +:+ v;
}.

Section Schemes.
Context `{UriEnv} `{SchemeLaws}.

Lemma lower_app s t : lower_case (s +:+ t) = lower_case s +:+ lower_case t.
Proof. unfold lower_case. induction s as [|c s IH]; [done|]. rewrite sapp_cons. cbn [smap]. by rewrite IH, sapp_cons. Qed.

Lemma lower_split u s t : lower_case u = s +:+ t -> exists a b, u = a +:+ b /\ lower_case a = s /\ lower_case b = t.
Proof.
  revert u. induction s as [|c s IH]; intros u E.
  - by exists EmptyString, u.
  - rewrite sapp_cons in E. destruct u as [|d u]; [done|]. cbn in E. injection E as Ec E.
    destruct (IH u E) as (a & b & -> & <- & <-). exists (String d a), b. split; [done|]. by rewrite <- Ec.
Qed.

(** Lowering changes letters alone. *)
Lemma tolower_mark c d : ascii_tolower c = d -> d = ":"%char \/ d = "/"%char -> c = d.
Proof.
  destruct c as [[] [] [] [] [] [] [] []]; intros <- [E|E]; vm_compute in E; try discriminate; reflexivity.
Qed.

Lemma lower_mark s : lower_case s = "://"%string -> s = "://"%string.
Proof.
  destruct s as [|a [|b [|c [|]]]]; try done. cbn. intros [= Ea Eb Ec].
  rewrite (tolower_mark a _ Ea (or_introl eq_refl)), (tolower_mark b _ Eb (or_intror eq_refl)),
    (tolower_mark c _ Ec (or_intror eq_refl)). done.
Qed.

Lemma lower_no_colon s : all_chars (fun c => c <> ":"%char) (lower_case s) -> all_chars (fun c => c <> ":"%char) s.
Proof. induction s as [|c s IH]; [done|]. intros [Hc Hs]. split; [intros ->; by apply Hc|auto]. Qed.

Lemma find_string_split t s p : find_string t s = Some p -> exists a rest, s = a +:+ t +:+ rest /\ String.length a = p.
Proof.
  revert p. induction s as [|c s IH]; intros p E; cbn [find_string] in E.
  - destruct (sprefix t EmptyString) eqn:Ep; [|done]. injection E as <-. apply sprefix_spec in Ep as [v Ev].
    by exists EmptyString, v.
  - destruct (sprefix t (String c s)) eqn:Ep.
    + injection E as <-. apply sprefix_spec in Ep as [v Ev]. by exists EmptyString, v.
    + destruct (find_string t s) as [q|]; [|done]. injection E as <-. destruct (IH q eq_refl) as (a & rest & -> & <-).
      by exists (String c a), rest.
Qed.

(** The scheme of a URI is the one its text begins with, in whatever case. *)
Lemma scheme_spec uri u scheme :
  UriImpl_new uri "http" = Ok u -> scheme <> "http"%string -> all_chars (fun c => c <> ":"%char) scheme ->
  scheme_ u = scheme <-> StartsWith (AsciiStrToLower uri) (scheme +:+ "://") = true.
Proof.
  intros Hu Hne Hs.
  assert (scheme_ u = match find_string "://" uri with Some n => AsciiStrToLower (stake n uri) | None => "http"%string end) as ->.
  { revert Hu. unfold UriImpl_new. destruct (extractHostPathFromUri uri). destruct (_ =? _)%string; [done|].
    intros E. apply obind_Ok in E as (v & Hv & E). destruct (UriImpl_isValid v); [|done]. injection E as <-.
    destruct (findPortSeparator _); [destruct (atoi_u64 _); [|done]|]; by injection Hv as <-. }
  rewrite scheme_prefix, !scheme_lower. split.
  - destruct (find_string "://" uri) as [p|] eqn:Ep; [|congruence].
    apply find_string_split in Ep as (a & rest & -> & <-). rewrite scheme_lower, stake_app. intros <-.
    exists (lower_case rest). by rewrite !lower_app, sapp_assoc.
  - intros [v Ev]. rewrite sapp_assoc in Ev. apply lower_split in Ev as (a & b & -> & Ha & Eb).
    apply lower_split in Eb as (m & c & -> & Hm%lower_mark & _). subst m.
    rewrite find_scheme by (apply lower_no_colon; by rewrite Ha). by rewrite scheme_lower, stake_app.
Qed.

Lemma tcps_is_tcp uri u : UriImpl_new uri "http" = Ok u -> scheme_ u = "tcps"%string -> isTcpUri uri = true.
Proof.
  intros Hu Hs. unfold isTcpUri. apply orb_true_iff. right. by apply (scheme_spec uri u "tcps" Hu); [|repeat constructor|].
Qed.

Lemma raw_schemes uri u :
  UriImpl_new uri "http" = Ok u -> isTcpUri uri = true \/ isUdpUri uri = true ->
  scheme_ u = "tcp"%string \/ scheme_ u = "tcps"%string \/ scheme_ u = "udp"%string.
Proof.
  intros Hu. unfold isTcpUri, isUdpUri. rewrite orb_true_iff.
  intros [[Hp|Hp]|Hp]; [left|right; left|right; right];
    (refine (proj2 (scheme_spec uri u _ Hu _ _) _); [done|by repeat constructor|exact Hp]).
Qed.

End Schemes.

(** ** Theorems *)

(** The protocols offered on the connection, for an HTTP configuration. *)
Definition alpn_of `{Messages} (c : ExplicitHttpConfig) : list string :=
  match c with
  | ExplicitHttp1 => ["http/1.1"%string]
  | ExplicitHttp2 _ => ["h2"%string]
  | ExplicitHttp3 _ | GivenHttp3 _ => ["h3"%string]
  end.

Definition over_quic `{Messages} (c : ExplicitHttpConfig) : bool :=
  match c with ExplicitHttp3 _ | GivenHttp3 _ => true | _ => false end.

Section Theorems.
Context `{MessagesLaws} `{TimeUtilLaws} `{RequestMethodsLaws} `{SystemClock} `{AbslMatch} `{UriEnv} `{AbslStrings}
        `{CommandLineEnv} {CL : CommandLineLaws} {UL : UriEnvLaws} {SL : SchemeLaws}.
Context (message_error : OptionsMessage -> option string).
Context (GetAvailablePort : bool -> AddressFamilyOptions -> outcome Z).
Context (dns : string -> DnsLookupFamily -> option (list (string * ip_version))).

Lemma constructed_target o : constructed message_error GetAvailablePort o -> validate_target o = Ok tt.
Proof. intros Hv%constructed_validated. apply OptionsImpl_validate_Ok in Hv as [Hp _]. apply Hp. Qed.

Lemma targets_nonempty o uris encap source :
  constructed message_error GetAvailablePort o -> resolve_all dns o = Ok (uris, encap, source) -> uris <> [].
Proof.
  intros Ho%constructed_target%valid_target Hr. apply resolve_all_Ok in Hr as (_ & Hl & _).
  destruct (o_uri o); [by destruct uris|]. destruct Ho as [Hne _]. by destruct uris, (o_multi_target_endpoints o).
Qed.

Lemma main_socket_total o uris : uris <> [] -> exists socket, main_socket o uris = Ok socket.
Proof.
  unfold main_socket, needTransportSocket, createTransportSocket. destruct uris as [|u uris]; [done|]. intros _. cbn [obind].
  destruct (_ || _); [|by exists None]. destruct (o_transport_socket o); eexists; reflexivity.
Qed.

Lemma all_clusters_total o uris encap source i n :
  uris <> [] -> (o_tunnel_uri o <> EmptyString -> is_Some encap) ->
  exists r, all_clusters o uris (option_list encap) source i n = Ok r.
Proof.
  intros Hu He. revert i. induction n as [|n IH]; intros i; cbn [all_clusters]; [eauto|].
  assert (exists r, worker_clusters o uris (option_list encap) source i = Ok r) as [mine ->].
  { unfold worker_clusters. destruct (negb _ && _); [eauto|]. destruct (main_socket_total o uris Hu) as [socket Hs].
    unfold main_socket in Hs. inv_bind. rewrite Hok. cbn. destruct a; inv_bind; [|eauto]. rewrite Hok0. cbn. eauto. }
  cbn. destruct mine; [eauto|]. destruct (IH (i + 1)) as [r ->]. cbn. destruct r; eauto.
Qed.

(** For every [OptionsImpl] a constructor has made, with an address family the
    enumeration names, computing the configuration of Envoy returns a status or a
    configuration: no exception leaves it, a malformed or unresolvable URI being
    turned into a status, and [uris[0]] is never read from no targets. *)
Lemma bootstrap_total resolver o n :
  constructed message_error GetAvailablePort o -> known_family o ->
  exists r, createBootstrapConfiguration dns resolver o n = Ok r.
Proof.
  intros Ho Hf. unfold createBootstrapConfiguration. destruct resolver as [status|]; [by exists (inl status)|].
  pose proof (resolve_all_throws dns o Hf) as Ht. unfold extractAndResolveUrisFromOptions.
  destruct (resolve_all dns o) as [[[uris encap] source]|[]| |] eqn:Hr; cbn [obind]; try done; [|eauto].
  pose proof (targets_nonempty o uris encap source Ho Hr) as Hu. apply resolve_all_Ok in Hr as (_ & _ & He & _).
  destruct (all_clusters_total o uris encap source 0 n Hu (proj2 He)) as [r ->]. cbn. destruct r; eauto.
Qed.

(** A message can name a family that is none: the lookup then ends the process. *)
Lemma unknown_family_panics o z uri u n :
  o_uri o = Some uri -> UriImpl_new uri "http" = Ok u -> o_address_family o = FamilyUnrecognized z ->
  createBootstrapConfiguration dns None o n = Panic "not reached".
Proof.
  intros Hu Hnew Hf. unfold createBootstrapConfiguration, extractAndResolveUrisFromOptions, resolve_all, target_uris.
  rewrite Hu, Hnew. cbn. unfold resolve_uri. by rewrite Hf.
Qed.

Lemma cluster_endpoints o targets socket i : cl_endpoints (main_cluster o targets socket i) = addUriToEndpoints <$> targets.
Proof. unfold main_cluster, createNighthawkClusterForWorker. by destruct socket, (_ || _). Qed.

Definition endpoints_ok (c : Cluster) : Prop :=
  cl_endpoints c <> [] /\ Forall (fun e => 1 <= e.2 <= 65535) (cl_endpoints c).

Lemma targets_ok l : l <> [] -> Forall good_target l -> addUriToEndpoints <$> l <> [] /\ Forall (fun e => 1 <= e.2 <= 65535) (addUriToEndpoints <$> l).
Proof.
  intros Hne Hg. split; [by destruct l|]. apply Forall_fmap. eapply Forall_impl; [exact Hg|]. intros u Hu.
  apply valid_inv in Hu as (_ & Hp & _). apply Hp.
Qed.

Lemma clusters_of_ok o uris encap source socket i :
  constructed message_error GetAvailablePort o -> resolve_all dns o = Ok (uris, encap, source) ->
  Forall endpoints_ok (clusters_of o (worker_targets o uris encap) source socket i).
Proof.
  intros Ho Hr. pose proof (targets_nonempty o uris encap source Ho Hr) as Hne.
  apply resolve_all_Ok in Hr as (Hg & _ & He & _ & Hge & Hgs). unfold clusters_of. constructor.
  - unfold endpoints_ok. rewrite cluster_endpoints. unfold worker_targets.
    destruct (String.eqb_spec (o_tunnel_uri o) EmptyString) as [|Ht]; [by apply targets_ok|].
    apply He in Ht as [e ->]. apply targets_ok; [done|by repeat constructor].
  - destruct source as [u|]; [|done]. constructor; [|done]. apply (targets_ok [u]); [done|by constructor].
Qed.

(** C13. A configuration made for [n] workers has the cluster each worker looks up
    by its number, pointing to all the targets, in order, at the addresses they
    were resolved to, or with a tunnel to the encapsulating listener alone; with a
    request source each worker has a second cluster, pointing to it. No two
    clusters share a name, and every cluster has endpoints, all with a port a
    socket has. *)
Theorem bootstrap_clusters o n b :
  constructed message_error GetAvailablePort o -> Z.of_nat n <= 2 ^ 64 ->
  createBootstrapConfiguration dns None o n = Ok (inr b) ->
  exists uris encap source, resolve_all dns o = Ok (uris, encap, source) /\
    (forall i, 0 <= i < Z.of_nat n ->
       (exists c, c ∈ bs_clusters b /\ cl_name c = benchmark_cluster i /\
          cl_endpoints c = addUriToEndpoints <$> (if (o_tunnel_uri o =? EmptyString)%string then uris else option_list encap)) /\
       (forall u, source = Some u ->
          exists c, c ∈ bs_clusters b /\ cl_name c = request_source_cluster i /\ cl_endpoints c = [addUriToEndpoints u])) /\
    length (bs_clusters b) = (match source with Some _ => 2 | None => 1 end * n)%nat /\
    NoDup (cl_name <$> bs_clusters b) /\ Forall endpoints_ok (bs_clusters b).
Proof.
  intros Ho Hn Hb. apply bootstrap_inv in Hb as (uris & encap & source & socket & Hr & _ & ->).
  exists uris, encap, source. split; [done|]. split_and!.
  - intros i Hi. assert (i ∈ seqZ 0 (Z.of_nat n)) as Hin by (apply elem_of_seqZ; lia). split.
    + exists (main_cluster o (worker_targets o uris encap) socket i). split_and!; [|pose proof (names_of o (worker_targets o uris encap) source socket i) as E; by injection E|apply cluster_endpoints].
      apply list_elem_of_bind. exists i. split; [apply list_elem_of_here|done].
    + intros u ->. exists (createRequestSourceClusterForWorker o u i). split_and!; [|done..].
      apply list_elem_of_bind. exists i. split; [apply list_elem_of_further, list_elem_of_here|done].
  - rewrite <- (Nat2Z.id n) at 2. rewrite <- (length_seqZ 0 (Z.of_nat n)).
    induction (seqZ 0 (Z.of_nat n)) as [|i l IH]; [by destruct source|]. rewrite bind_cons, length_app, IH.
    destruct source; cbn; lia.
  - by apply names_unique.
  - apply Forall_bind, Forall_forall. intros i _. by apply clusters_of_ok.
Qed.




(** Raw TCP over TLS is raw load, and raw load is of a raw scheme. *)
Lemma first_scheme o u uris encap source :
  constructed message_error GetAvailablePort o -> resolve_all dns o = Ok (u :: uris, encap, source) ->
  (scheme_ (ru_uri u) = "tcps"%string -> o_tcp o || o_udp o = true) /\
  (o_tcp o || o_udp o = true ->
     scheme_ (ru_uri u) = "tcp"%string \/ scheme_ (ru_uri u) = "tcps"%string \/ scheme_ (ru_uri u) = "udp"%string).
Proof.
  intros Hc%constructed_consistent Hr. unfold resolve_all in Hr. apply obind_Ok in Hr as (targets & Ht & Hr).
  apply obind_Ok in Hr as (ruris & Hall & Hr). apply obind_Ok in Hr as (? & _ & Hr). apply obind_Ok in Hr as (? & _ & Hr).
  injection Hr as -> _ _. apply each_uri_Ok in Hall. inversion Hall as [|t ? rest ? Hu _]; subst.
  apply resolve_uri_Ok in Hu as [-> _]. unfold target_uris in Ht. rewrite (c_tcp _ Hc), (c_udp _ Hc).
  destruct (o_uri o) as [uri|]; inv_bind.
  - split; [intros Hs; by rewrite (tcps_is_tcp uri t)|]. intros Hraw%orb_true_iff. by apply (raw_schemes uri).
  - split; [|done]. destruct (o_multi_target_endpoints o) as [|e es]; cbn [each_uri] in Ht; [done|]. inv_bind.
    intros Hs. apply (scheme_spec (endpoint_uri o e) _ "tcps" Hok) in Hs; [|done|by repeat constructor].
    apply scheme_prefix in Hs as [v Hv]. rewrite scheme_lower in Hv. unfold endpoint_uri in Hv.
    by destruct (o_multi_target_use_https o).
Qed.

(** The socket of a worker's cluster, when the user gave none. *)
Lemma main_socket_cases o u uris socket :
  o_transport_socket o = None -> main_socket o (u :: uris) = Ok socket ->
  match socket with
  | Some (TlsSocket context) =>
      scheme_ (ru_uri u) = "tcps"%string /\ tls_alpn context = [] \/
      scheme_ (ru_uri u) = "https"%string /\ tls_alpn context = alpn_of (hp_config (http_protocol_options o)) /\
      over_quic (hp_config (http_protocol_options o)) = false
  | Some (QuicSocket context) =>
      scheme_ (ru_uri u) = "https"%string /\ tls_alpn context = ["h3"%string] /\
      over_quic (hp_config (http_protocol_options o)) = true
  | Some (GivenSocket _) => False
  | None => True
  end.
Proof.
  intros Hnone. unfold main_socket, needTransportSocket, createTransportSocket, http_protocol_options. rewrite Hnone. cbn.
  destruct (String.eqb_spec (scheme_ (ru_uri u)) "https") as [Hh|_],
    (String.eqb_spec (scheme_ (ru_uri u)) "tcps") as [Ht|_]; cbn; try congruence; try (by intros [= <-]; auto).
  unfold OptionsImpl_protocol. intros [= <-].
  destruct (_ || _); [by right|]. case_bool_decide; cbn; [|by right]. by destruct (o_http3_protocol_options o).
Qed.

(** The transport of every cluster speaks the protocol the cluster is set up
    for, unless the user gave a transport socket: over TLS exactly the protocol of
    the cluster's HTTP options is offered, HTTP/3 has the QUIC transport and
    nothing else has, and raw TCP over TLS offers no protocol. *)
Lemma transport_matches_protocol o n b c :
  constructed message_error GetAvailablePort o -> o_transport_socket o = None ->
  createBootstrapConfiguration dns None o n = Ok (inr b) -> c ∈ bs_clusters b ->
  match cl_transport_socket c, cl_http_options c with
  | Some (TlsSocket context), Some http => tls_alpn context = alpn_of (hp_config http) /\ over_quic (hp_config http) = false
  | Some (QuicSocket context), Some http => tls_alpn context = ["h3"%string] /\ over_quic (hp_config http) = true
  | Some (TlsSocket context), None => tls_alpn context = []
  | Some _, _ => False
  | None, _ => True
  end.
Proof.
  intros Ho Hnone Hb Hc. apply bootstrap_inv in Hb as (uris & encap & source & socket & Hr & Hs & E). rewrite E in Hc.
  apply list_elem_of_bind in Hc as (i & Hc & Hi%elem_of_seqZ). specialize (Hs ltac:(lia)).
  unfold clusters_of in Hc. apply elem_of_cons in Hc as [->|Hc].
  2: { destruct source; [|by apply elem_of_nil in Hc]. apply list_elem_of_singleton in Hc as ->. done. }
  specialize (targets_nonempty o uris encap source Ho Hr) as Hne. destruct uris as [|u uris]; [done|].
  destruct (first_scheme o u uris encap source Ho Hr) as [Htcps Hraw]. pose proof (main_socket_cases o u uris socket Hnone Hs) as Hcase.
  unfold main_cluster, createNighthawkClusterForWorker. destruct socket as [s|]; [|by destruct (_ || _)].
  destruct (o_tcp o || o_udp o); cbn.
  - specialize (Hraw eq_refl). destruct s; [done| |destruct Hcase as [Hc _]; by destruct_or! Hraw; rewrite Hraw in Hc].
    destruct Hcase as [[_ Ha]|[Hc _]]; [done|]. by destruct_or! Hraw; rewrite Hraw in Hc.
  - destruct s; try tauto. destruct Hcase as [[Hc _]|(_ & Ha & Hq)]; [|done]. by specialize (Htcps Hc).
Qed.

(** *** The tunnel *)

Lemma localhost_uri scheme port u :
  scheme ∈ known_schemes -> in_u64 port ->
  UriImpl_new (scheme +:+ "://" +:+ "localhost" +:+ ":" +:+ fmt_u64 port) "http" = Ok u ->
  host_without_port_ u = "localhost"%string /\ port_ u = port.
Proof.
  intros Hs Hport. pose proof (fmt_digits _ Hport) as Hd. unfold UriImpl_new.
  rewrite extract_host; [|by apply known_scheme_chars|done|].
  2: { rewrite !all_chars_app. split; [by repeat constructor|]. split; [by repeat constructor|]. by apply (digits_not "/"%char). }
  destruct (_ =? _)%string; [done|].
  rewrite (separator_added "localhost" (fmt_u64 port)); [|done|done|done|by apply (digits_not ":"%char)].
  assert (sdrop (S (String.length "localhost")) ("localhost" +:+ ":" +:+ fmt_u64 port) = fmt_u64 port) as -> by done.
  rewrite fmt_parsed by done. cbn [obind]. destruct (UriImpl_isValid _); [|done]. by intros [= <-].
Qed.

Lemma resolve_encap o uris encap source :
  resolve_all dns o = Ok (uris, encap, source) -> o_tunnel_uri o <> EmptyString ->
  exists e u, encap = Some e /\ UriImpl_new ("https://localhost:" +:+ fmt_u64 (o_encap_port o)) "http" = Ok u /\
    resolve_uri dns o u = Ok e.
Proof.
  unfold resolve_all. intros Hr Ht. destruct (String.eqb_spec (o_tunnel_uri o) EmptyString); [done|].
  apply obind_Ok in Hr as (? & _ & Hr). apply obind_Ok in Hr as (? & _ & Hr). apply obind_Ok in Hr as (e & He & Hr).
  apply obind_Ok in Hr as (? & _ & Hr). injection Hr as _ -> _. apply obind_Ok in He as (u & Hu & He).
  apply obind_Ok in He as (r & Hr & He). injection He as <-. by exists r, u.
Qed.

(** Traffic of a tunnelled run arrives: every worker's cluster has one
    endpoint, the very address and port the encapsulating Envoy listens on, which
    is the port that was found free for it; that Envoy's own cluster points to the
    terminating proxy. *)
Lemma tunnel_reaches_listener o n b tunnel eb i :
  o_tunnel_uri o <> EmptyString -> in_u64 (o_encap_port o) ->
  createBootstrapConfiguration dns None o n = Ok (inr b) -> createEncapBootstrap dns o tunnel = Ok eb ->
  0 <= i < Z.of_nat n ->
  (exists c, c ∈ bs_clusters b /\ cl_name c = fmt_u64 i /\ cl_endpoints c = [(eb_address eb, eb_port eb)]) /\
  eb_port eb = o_encap_port o /\
  exists ip, cl_endpoints (eb_cluster eb) = [(ip, port_ tunnel)].
Proof.
  intros Ht Hport Hb He Hi. apply bootstrap_inv in Hb as (uris & encap & source & socket & Hr & _ & ->).
  unfold createEncapBootstrap in He. apply obind_Ok in He as (u & Hu & He). apply obind_Ok in He as (listener & Hl & He).
  apply obind_Ok in He as (transport & _ & He). apply obind_Ok in He as (far & Hfar & He). injection He as <-. cbn.
  apply (localhost_uri "http") in Hu as [Eh Ep]; [|by repeat constructor|done].
  apply resolve_uri_Ok in Hl as (El & f & v & rest & Hf & Hd & _). apply resolve_uri_Ok in Hfar as (Efar & _).
  unfold addUriToEndpoints. rewrite El, Efar. split; [|split; [done|by eexists]].
  apply resolve_encap in Hr as (e & u' & -> & Hu' & He'); [|done].
  apply (localhost_uri "https") in Hu' as [Eh' Ep']; [|by repeat constructor|done].
  apply resolve_uri_Ok in He' as (Ee & f' & v' & rest' & Hf' & Hd' & _).
  exists (main_cluster o (worker_targets o uris (Some e)) socket i). split_and!.
  - apply list_elem_of_bind. exists i. split; [apply list_elem_of_here|apply elem_of_seqZ; lia].
  - pose proof (names_of o (worker_targets o uris (Some e)) source socket i) as E. by injection E.
  - rewrite cluster_endpoints. unfold worker_targets. destruct (String.eqb_spec (o_tunnel_uri o) EmptyString); [done|].
    cbn. unfold addUriToEndpoints. rewrite Ee, Ep, Ep'. rewrite Hf in Hf'. injection Hf' as <-.
    unfold lookup_name in Hd, Hd'. rewrite Eh in Hd. rewrite Eh', Hd in Hd'. by injection Hd' as -> _ _.
Qed.

(** What the checks of a command line leave of a tunnel. *)
Lemma cli_tunnel_Ok a protocol family tp uri port tls :
  cli_tunnel GetAvailablePort a protocol family = Ok (tp, uri, port, tls) -> uri <> EmptyString ->
  (tp = HTTP3 -> is_Some tls) /\ (protocol = HTTP3 -> tp <> HTTP3 /\ tp <> HTTP1).
Proof.
  unfold cli_tunnel. intros E Hne. inv_bind.
  assert (is_set (a_tunnel_protocol a) = true) as Hset.
  { destruct (is_set (a_tunnel_protocol a)); [done|]. inv_bind. by destruct Hne. }
  rewrite Hset in *. split.
  - intros ->. destruct (given (a_tunnel_tls_context a)) eqn:Eg.
    + match goal with X : load_given _ _ = Ok tls |- _ => unfold load_given in X; rewrite Eg in X; inv_bind end. by eexists.
    + inv_bind. match goal with X : refuse (bool_decide (HTTP3 = HTTP3)) _ = Ok _ |- _ => by apply refuse_Ok in X end.
  - intros ->. match goal with X : obind _ _ = Ok ?u |- _ => destruct u; rewrite obind_unit, !refuse_Ok in X; destruct X as [Hx3 Hx1] end.
    rewrite (bool_decide_eq_true_2 (HTTP3 = HTTP3)), andb_true_r, bool_decide_eq_false in Hx1, Hx3 by done. done.
Qed.

Lemma parse_name_In {A} (names : list (string * A)) s v : parse_name names s = Some v -> v ∈ names.*2.
Proof.
  induction names as [|[n w] names IH]; cbn; [done|]. destruct (n =? s)%string; [|intros E; right; auto].
  intros [= <-]. left.
Qed.

Lemma enum_or_In {A} (names : list (string * A)) what a member v :
  enum_or (parse_name names) what a member = Ok v -> v ∈ names.*2 \/ v = member.
Proof.
  unfold enum_or. destruct a as [t|]; [|intros [= <-]; by right]. destruct (parse_name _ _) eqn:E; [|done].
  intros [= <-]. left. by eapply parse_name_In.
Qed.

Lemma command_line_tunnel a o :
  OptionsImpl_of_command_line message_error GetAvailablePort a = Ok o ->
  known_family o /\
  cli_tunnel GetAvailablePort a (o_protocol o) (o_address_family o) =
    Ok (o_tunnel_protocol o, o_tunnel_uri o, o_encap_port o, o_tunnel_tls_context o).
Proof.
  unfold OptionsImpl_of_command_line. cbv zeta. intros Hok.
  do 4 (inv_bind; repeat match goal with p : (_ * _)%type |- _ => destruct p end). split; [|done].
  match goal with X : enum_or (parse_name AddressFamilyOptions_names) _ _ _ = Ok ?f |- _ => apply enum_or_In in X; rename X into Hf end.
  intros k E. cbn in E, Hf. rewrite E, !elem_of_cons, elem_of_nil in Hf. by destruct_or! Hf.
Qed.

Lemma tunnel_protocol_known a protocol family tp uri port tls :
  cli_tunnel GetAvailablePort a protocol family = Ok (tp, uri, port, tls) -> tp = HTTP1 \/ tp = HTTP2 \/ tp = HTTP3.
Proof.
  unfold cli_tunnel. intros E. inv_bind.
  match goal with X : enum_or (parse_name ProtocolOptions_names) _ _ _ = Ok _ |- _ => apply enum_or_In in X; rename X into Hp end.
  cbn in Hp. rewrite !elem_of_cons, elem_of_nil in Hp. tauto.
Qed.

(** A command line that asks for a tunnel gets one that can be set up: the
    configuration of the encapsulating Envoy is computed, or the exception is about
    a URI; the TLS context an HTTP/3 tunnel reads is always there. HTTP/3 traffic,
    and no other, is taken as datagrams, and then the tunnel is HTTP/2. *)
Lemma tunnel_command_line a o tunnel :
  OptionsImpl_of_command_line message_error GetAvailablePort a = Ok o -> o_tunnel_uri o <> EmptyString ->
  uri_throws (createEncapBootstrap dns o tunnel) /\
  forall eb, createEncapBootstrap dns o tunnel = Ok eb ->
    (eb_protocol eb = SOCKET_UDP <-> OptionsImpl_protocol o = Http3) /\
    (eb_protocol eb = SOCKET_UDP ->
     hp_config <$> cl_http_options (eb_cluster eb) = Some (ExplicitHttp2 None) /\ eb_proxy eb = encap_proxy true).
Proof.
  intros Hok Hne. apply command_line_tunnel in Hok as [Hf Ht].
  pose proof (tunnel_protocol_known _ _ _ _ _ _ _ Ht) as Hknown. destruct (cli_tunnel_Ok _ _ _ _ _ _ _ Ht Hne) as [Htls Hover].
  unfold createEncapBootstrap. split.
  - apply uri_throws_bind; [apply uri_new_throws|]. intros u _. apply uri_throws_bind; [by apply resolve_uri_throws|].
    intros r _. apply uri_throws_bind; [|intros t _; apply uri_throws_bind; [by apply resolve_uri_throws|done]].
    unfold encap_transport, OptionsImpl_tunnelProtocol. case_bool_decide; [done|]. case_bool_decide; [|done].
    by destruct (Htls ltac:(done)) as [tls ->].
  - intros eb He. inv_bind. cbn. destruct (OptionsImpl_protocol o) eqn:Ep; cbn; try by split.
    split; [done|]. intros _. split; [|done].
    assert (o_protocol o = HTTP3) as Hp.
    { revert Ep. unfold OptionsImpl_protocol. destruct (_ || _); [done|]. by case_bool_decide. }
    destruct (Hover Hp) as [Hn3 Hn1]. unfold encap_transport, OptionsImpl_tunnelProtocol in *.
    destruct_or! Hknown; try done. rewrite bool_decide_eq_true_2 in * by done. inv_bind. done.
Qed.

End Theorems.

(** ** The end of the subprocess *)

Lemma reap_loop_spec wait i todo :
  match reap_loop wait i todo with
  | Some a => a <> StillRunning /\ exists k, (i <= k < i + todo)%nat /\ wait k = a /\ forall j, (i <= j < k)%nat -> wait j = StillRunning
  | None => forall j, (i <= j < i + todo)%nat -> wait j = StillRunning
  end.
Proof.
  revert i. induction todo as [|todo IH]; intros i; cbn [reap_loop]; [intros; lia|]. specialize (IH (S i)).
  destruct (wait i) as [| |status clean] eqn:E.
  - destruct (reap_loop wait (S i) todo) as [a|].
    + destruct IH as (Hn & k & Hk & Hw & Hb). split; [done|]. exists k. split_and!; [lia|lia|done|]. intros j Hj.
      destruct (decide (j = i)) as [->|]; [done|]. apply Hb. lia.
    + intros j Hj. destruct (decide (j = i)) as [->|]; [done|]. apply IH. lia.
  - split; [done|]. exists i. split_and!; [lia|lia|done|]. intros; lia.
  - split; [done|]. exists i. split_and!; [lia|lia|done|]. intros; lia.
Qed.

(** Ending the encapsulating subprocess: when one was started and the signal
    could be sent, the runner has no subprocess afterwards, so a second call, by the
    destructor or by a shutdown after a cancellation, finds nothing to do and sends
    no signal to a number that may be another process's by then. [SIGKILL] is sent
    exactly when none of the 150 looks found the subprocess gone, and an error is
    reported exactly when the answer is of a subprocess that did not exit with
    zero. When the signal could not be sent, the subprocess is kept for the next
    call. *)
Lemma subprocess_terminated fmt terminated wait killed r :
  pid_ r <> -1 -> pid_ r <> 0 ->
  let '(status, forced, r') := TerminateEncapSubProcess fmt terminated wait killed r in
  (terminated = false -> is_Some status /\ forced = false /\ r' = r) /\
  (terminated = true ->
     pid_ r' = -1 /\
     (forall terminated' wait' killed', TerminateEncapSubProcess fmt terminated' wait' killed' r' = (None, false, r')) /\
     (forced = true <-> forall j, (j < 150)%nat -> wait j = StillRunning) /\
     (is_Some status <->
      exists code, if forced then killed = Reaped code false
                   else exists j, (j < 150)%nat /\ wait j = Reaped code false /\ forall k, (k < j)%nat -> wait k = StillRunning)).
Proof.
  intros Hm Hz. unfold TerminateEncapSubProcess.
  replace ((pid_ r =? -1) || (pid_ r =? 0)) with false by lia.
  destruct terminated; cbn [negb]; [|by split].
  pose proof (reap_loop_spec wait 0 reap_attempts) as Hl. destruct (reap_loop wait 0 reap_attempts) as [a|].
  - destruct Hl as (Hn & k & Hk & Hw & Hb). split; [done|]. intros _. split; [done|]. split; [done|]. split.
    + split; [done|]. intros Hall. rewrite Hall in Hw by (unfold reap_attempts in Hk; lia). by destruct Hn.
    + split.
      * intros [m Hs]. destruct a as [| |code []]; try done. exists code, k. unfold reap_attempts in Hk.
        split_and!; [lia|done|]. intros j Hj. apply Hb. lia.
      * intros (code & j & Hj & Hwj & Hbj). destruct (Nat.lt_trichotomy j k) as [Hlt|[->|Hlt]].
        -- rewrite Hb in Hwj by lia. done.
        -- rewrite Hwj in Hw. subst a. by eexists.
        -- rewrite Hbj in Hw by lia. by destruct Hn.
  - split; [done|]. intros _. split; [done|]. split; [done|]. split.
    + split; [|done]. intros _ j Hj. apply Hl. unfold reap_attempts. lia.
    + split; [intros [m Hs]; destruct killed as [| |code []]; try done; by exists code|]. intros [code ->]. by eexists.
Qed.

(** The parent never releases the semaphore: only a process that is the child
    reaches the code that does, and the child leaves through [_exit]. *)
Lemma semaphore_kept fmt fork terminated wait killed r events status r' :
  RunWithSubprocess fork r = (events, Some status, r') ->
  semaphore_mapped (EncapsulationSubProcessRunner_delete fmt terminated wait killed r') = semaphore_mapped r.
Proof.
  unfold RunWithSubprocess, EncapsulationSubProcessRunner_delete, TerminateEncapSubProcess.
  destruct (Z.eqb_spec fork (-1)) as [->|Hm]; [by intros [= <- <- <-]|].
  destruct (Z.eqb_spec fork 0) as [->|Hz]; [done|]. intros [= <- <- <-]. cbn [pid_ semaphore_mapped].
  replace ((fork =? -1) || (fork =? 0)) with false by lia. destruct terminated; cbn [negb].
  - by destruct (reap_loop wait 0 reap_attempts).
  - cbn. by replace (fork =? 0) with false by lia.
Qed.

(** The parent's wait ends when Envoy comes up or fails with one of its
    exceptions; not when [run()] returns before [PostInit]. *)
Lemma routine_posts uri fate :
  envoy_routine uri fate = 0%nat <-> uri <> EmptyString /\ fate = MainRuns false false.
Proof.
  unfold envoy_routine. destruct (String.eqb_spec uri EmptyString) as [->|Hne]; [split; [done|by intros []]|].
  destruct fate as [|[] []]; cbn; split; try done; by intros [].
Qed.

(** ** Concrete configurations *)

Section Examples.

#[local] Existing Instances demo_messages demo_time demo_methods demo_clock absl_documented absl_match_documented
  uri_env_documented demo_cli_env demo_messages_laws demo_time_laws demo_methods_laws demo_cli_laws.

#[local] Existing Instance uri_env_laws.

Lemma demo_scheme_laws : SchemeLaws.
Proof. constructor; [done|]. intros s t. apply sprefix_spec. Qed.

#[local] Existing Instance demo_scheme_laws.

Definition demo_dns (name : string) (family : DnsLookupFamily) : option (list (string * ip_version)) :=
  Some [("127.0.0.1"%string, IPv4)].

Definition config_of (o : OptionsImpl) (n : nat) : BootstrapConfig :=
  match createBootstrapConfiguration demo_dns None o n with
  | Ok (inr b) => b
  | _ => mkBootstrap [] [] (mkDuration 0 0) None
  end.

Definition grpc_options : OptionsImpl := options_of grpc_command_line.

Lemma grpc_config : createBootstrapConfiguration demo_dns None grpc_options 2 = Ok (inr (config_of grpc_options 2)).
Proof. vm_compute. reflexivity. Qed.

(** C13: two workers, two clusters, named 0 and 1. *)
Lemma bootstrap_clusters_witness :
  cl_name <$> bs_clusters (config_of grpc_options 2) = ["0"; "1"]%string /\
  NoDup (cl_name <$> bs_clusters (config_of grpc_options 2)) /\ Forall endpoints_ok (bs_clusters (config_of grpc_options 2)).
Proof.
  split; [vm_compute; reflexivity|].
  destruct (bootstrap_clusters demo_message_error demo_port demo_dns grpc_options 2 (config_of grpc_options 2) grpc_constructed)
    as (uris & encap & source & _ & _ & _ & Hn & He); [done|apply grpc_config|]. done.
Defined.


Definition https_command_line : CommandLine :=
  demo_command_line "HTTPS://example.org/" None true false None (Some "1"%string) None None None [].

Definition https_options : OptionsImpl := options_of https_command_line.

Lemma https_command_line_Ok :
  OptionsImpl_of_command_line demo_message_error demo_port https_command_line = Ok https_options.
Proof. vm_compute. reflexivity. Qed.

Lemma https_constructed : constructed demo_message_error demo_port https_options.
Proof.
  apply (from_command_line _ _ https_command_line); [apply demo_constrained|done..|apply https_command_line_Ok].
Qed.

Lemma https_config : createBootstrapConfiguration demo_dns None https_options 1 = Ok (inr (config_of https_options 1)).
Proof. vm_compute. reflexivity. Qed.

Definition https_cluster : Cluster :=
  main_cluster https_options
    [mkResolved (mkUri "example.org:443" "example.org" "/" 443 "https") (mkAddress "127.0.0.1" IPv4 443)]
    (Some (TlsSocket (mkTlsContext EmptyString (Some "example.org"%string) ["h2"%string]))) 0.

(** HTTP/2 over TLS. *)
Lemma transport_matches_protocol_witness :
  https_cluster ∈ bs_clusters (config_of https_options 1) /\
  match cl_transport_socket https_cluster, cl_http_options https_cluster with
  | Some (TlsSocket context), Some http => tls_alpn context = alpn_of (hp_config http) /\ over_quic (hp_config http) = false
  | _, _ => False
  end.
Proof.
  assert (https_cluster ∈ bs_clusters (config_of https_options 1)) as Hin.
  { assert (bs_clusters (config_of https_options 1) = [https_cluster]) as -> by (vm_compute; reflexivity). left. }
  split; [done|].
  exact (transport_matches_protocol demo_message_error demo_port demo_dns https_options 1 (config_of https_options 1) https_cluster
    https_constructed eq_refl https_config Hin).
Defined.

(** The same command line with a tunnel. *)
Definition with_tunnel (protocol uri : string) (tls : option string) (a : CommandLine) : CommandLine := {|
  a_requests_per_second := a_requests_per_second a; a_connections := a_connections a; a_duration := a_duration a;
  a_timeout := a_timeout a; a_h2 := a_h2 a; a_protocol := a_protocol a; a_http3_protocol_options :=
  a_http3_protocol_options a; a_tunnel_protocol := Some protocol; a_tunnel_uri := Some uri; a_tunnel_tls_context := tls;
  a_concurrency := a_concurrency a; a_verbosity := a_verbosity a; a_output_format := a_output_format a;
  a_prefetch_connections := a_prefetch_connections a; a_burst_size := a_burst_size a; a_address_family :=
  a_address_family a; a_request_method := a_request_method a; a_request_headers := a_request_headers a;
  a_request_body_size := a_request_body_size a; a_request_body_file := a_request_body_file a; a_grpc_mode := a_grpc_mode
  a; a_websocket := a_websocket a; a_websocket_binary := a_websocket_binary a; a_tcp_connections := a_tcp_connections a;
  a_tcp_max_inflight := a_tcp_max_inflight a; a_tcp_no_echo := a_tcp_no_echo a; a_tcp_max_messages := a_tcp_max_messages
  a; a_udp_max_inflight := a_udp_max_inflight a; a_udp_timeout := a_udp_timeout a; a_streams := a_streams a;
  a_max_inflight_per_stream := a_max_inflight_per_stream a; a_stream_drain_duration := a_stream_drain_duration a;
  a_tls_context := a_tls_context a; a_upstream_bind_config := a_upstream_bind_config a; a_transport_socket :=
  a_transport_socket a; a_max_pending_requests := a_max_pending_requests a; a_max_active_requests :=
  a_max_active_requests a; a_max_requests_per_connection := a_max_requests_per_connection a; a_max_concurrent_streams :=
  a_max_concurrent_streams a; a_sequencer_idle_strategy := a_sequencer_idle_strategy a; a_trace := a_trace a;
  a_termination_predicates := a_termination_predicates a; a_failure_predicates := a_failure_predicates a;
  a_no_default_failure_predicates := a_no_default_failure_predicates a; a_h1_connection_reuse_strategy :=
  a_h1_connection_reuse_strategy a; a_open_loop := a_open_loop a; a_jitter_uniform := a_jitter_uniform a;
  a_nighthawk_service := a_nighthawk_service a; a_h2_use_multiple_connections := a_h2_use_multiple_connections a;
  a_multi_target_endpoints := a_multi_target_endpoints a; a_multi_target_path := a_multi_target_path a;
  a_multi_target_use_https := a_multi_target_use_https a; a_labels := a_labels a; a_uri := a_uri a; a_request_source :=
  a_request_source a; a_request_source_plugin_config := a_request_source_plugin_config a; a_rate_limiter_plugin_config
  := a_rate_limiter_plugin_config a; a_simple_warmup := a_simple_warmup a; a_no_duration := a_no_duration a;
  a_stats_sinks := a_stats_sinks a; a_stats_flush_interval := a_stats_flush_interval a; a_stats_flush_interval_duration
  := a_stats_flush_interval_duration a; a_latency_response_header_name := a_latency_response_header_name a;
  a_user_defined_output_plugin_configs := a_user_defined_output_plugin_configs a
|}.

Definition tunnel_line : CommandLine := with_tunnel "http3" "https://proxy.example:4443" (Some "tls"%string) https_command_line.

Definition tunnel_options : OptionsImpl := options_of tunnel_line.

Lemma tunnel_line_Ok : OptionsImpl_of_command_line demo_message_error demo_port tunnel_line = Ok tunnel_options.
Proof. vm_compute. reflexivity. Qed.

Definition proxy_uri : UriImpl := mkUri "proxy.example:4443" "proxy.example" "/" 4443 "https".

Definition demo_encap : EncapBootstrap :=
  mkEncapBootstrap "127.0.0.1" 45000 SOCKET_TCP (encap_proxy false)
    (mkCluster "cluster_0" 5 (Some (mkHttpProtocolOptions (ExplicitHttp3 None) None)) None [("127.0.0.1"%string, 4443)]
       (Some (QuicSocket (mkTlsContext "tls"%string None [])))).

Lemma demo_encap_Ok : createEncapBootstrap demo_dns tunnel_options proxy_uri = Ok demo_encap.
Proof. vm_compute. reflexivity. Qed.

(** The worker sends to port 45000, where the tunnel begins. *)
Lemma tunnel_reaches_listener_witness :
  (exists c, c ∈ bs_clusters (config_of tunnel_options 1) /\ cl_name c = "0"%string /\
     cl_endpoints c = [("127.0.0.1"%string, 45000)]) /\
  eb_port demo_encap = o_encap_port tunnel_options /\ exists ip, cl_endpoints (eb_cluster demo_encap) = [(ip, 4443)].
Proof.
  destruct (tunnel_reaches_listener demo_dns tunnel_options 1 (config_of tunnel_options 1) proxy_uri demo_encap 0)
    as [Hc Hrest]; [by vm_compute|by vm_compute|vm_compute; reflexivity|apply demo_encap_Ok|lia|]. split; [exact Hc|exact Hrest].
Defined.

(** HTTP/2 through an HTTP/3 tunnel is taken over TCP. *)
Lemma tunnel_command_line_witness :
  uri_throws (createEncapBootstrap demo_dns tunnel_options proxy_uri) /\ eb_protocol demo_encap <> SOCKET_UDP.
Proof.
  destruct (tunnel_command_line demo_message_error demo_port demo_dns tunnel_line tunnel_options proxy_uri) as [Hu He];
    [apply tunnel_line_Ok|by vm_compute|]. split; [done|]. intros Hp. destruct (He demo_encap demo_encap_Ok) as [[Hudp _] _].
  specialize (Hudp Hp). assert (OptionsImpl_protocol tunnel_options = Http2) as E by (vm_compute; reflexivity). congruence.
Defined.

(** A subprocess that is gone at the third look. *)
Lemma subprocess_terminated_witness :
  let wait j := if (j <? 2)%nat then StillRunning else Reaped 0 true in
  let '(status, forced, r') := TerminateEncapSubProcess fmt_u64 true wait WaitError (mkRunner 77 true) in
  status = None /\ forced = false /\ pid_ r' = -1.
Proof.
  cbv zeta.
  pose proof (subprocess_terminated fmt_u64 true (fun j => if (j <? 2)%nat then StillRunning else Reaped 0 true) WaitError
    (mkRunner 77 true) ltac:(done) ltac:(done)) as Ht.
  destruct (TerminateEncapSubProcess _ _ _ _ _) as [[status forced] r'] eqn:E. destruct Ht as [_ Ht].
  destruct (Ht eq_refl) as (Hp & _). vm_compute in E. by injection E as <- <- <-.
Defined.

End Examples.
