(* ===== verification/SignalHandler.v ===== *)
(** * Signal handling

    Models [engine/source/common/signal_handler.{h,cc}]: the handler installed for
    [SIGTERM] and [SIGINT], the pipe it writes to, the thread that waits on the
    pipe and runs the callback, and the destructor. The thread, the destructor and
    every handler in progress take their steps in any order; signals arrive at any
    time. *)

From stdpp Require Import list.
From S2P Require Import Prelude.

(** ** State *)

(** What a signal does: [signal_handler], or what was there before. *)
Inductive disposition : Type := Ours | Previous.

(** Where the shutdown thread is: at the call it makes next. *)
Inductive thread_pc : Type :=
| ThRead | ThCloseRead | ThCloseWrite | ThClear | ThTest | ThRestoreTerm | ThRestoreInt | ThCallback | ThOver.

(** Where the destructor is. [DTest] and [DWrite] are the two halves of
    [initiateShutdown()]. *)
Inductive destructor_pc : Type := NotCalled | DRestoreTerm | DRestoreInt | DTest | DWrite | DJoin | DDelegate | DOver.

(** Where an invocation of [signal_handler] is. *)
Inductive handler_pc : Type := HDelegate | HTest | HWrite.

(** [sh_fds]: [pipe_fds_] holds its two descriptors; [sh_bytes]: the numbers in
    the pipe; [sh_delegate]: [signal_handler_delegate] is set; [sh_delivered]: the
    signals [signal_handler] was called for; [sh_default]: a signal took the action
    that was there before. *)
Record SignalHandler : Type := mkSignalHandler {
  sh_fds : bool;
  sh_read_open : bool;
  sh_write_open : bool;
  sh_bytes : nat;
  sh_term : disposition;
  sh_int : disposition;
  sh_delegate : bool;
  sh_destructing : bool;
  sh_thread : thread_pc;
  sh_destructor : destructor_pc;
  sh_handlers : list handler_pc;
  sh_callbacks : nat;
  sh_delivered : nat;
  sh_default : bool;
}.

Definition set_thread (t : thread_pc) (s : SignalHandler) : SignalHandler :=
  mkSignalHandler (sh_fds s) (sh_read_open s) (sh_write_open s) (sh_bytes s) (sh_term s) (sh_int s) (sh_delegate s)
    (sh_destructing s) t (sh_destructor s) (sh_handlers s) (sh_callbacks s) (sh_delivered s) (sh_default s).

Definition set_destructor (d : destructor_pc) (s : SignalHandler) : SignalHandler :=
  mkSignalHandler (sh_fds s) (sh_read_open s) (sh_write_open s) (sh_bytes s) (sh_term s) (sh_int s) (sh_delegate s)
    (sh_destructing s) (sh_thread s) d (sh_handlers s) (sh_callbacks s) (sh_delivered s) (sh_default s).

Definition set_handlers (h : list handler_pc) (s : SignalHandler) : SignalHandler :=
  mkSignalHandler (sh_fds s) (sh_read_open s) (sh_write_open s) (sh_bytes s) (sh_term s) (sh_int s) (sh_delegate s)
    (sh_destructing s) (sh_thread s) (sh_destructor s) h (sh_callbacks s) (sh_delivered s) (sh_default s).

Definition set_pipe (fds read_open write_open : bool) (bytes : nat) (s : SignalHandler) : SignalHandler :=
  mkSignalHandler fds read_open write_open bytes (sh_term s) (sh_int s) (sh_delegate s) (sh_destructing s) (sh_thread s)
    (sh_destructor s) (sh_handlers s) (sh_callbacks s) (sh_delivered s) (sh_default s).

Definition set_dispositions (term int : disposition) (s : SignalHandler) : SignalHandler :=
  mkSignalHandler (sh_fds s) (sh_read_open s) (sh_write_open s) (sh_bytes s) term int (sh_delegate s) (sh_destructing s)
    (sh_thread s) (sh_destructor s) (sh_handlers s) (sh_callbacks s) (sh_delivered s) (sh_default s).

Definition count_callback (s : SignalHandler) : SignalHandler :=
  mkSignalHandler (sh_fds s) (sh_read_open s) (sh_write_open s) (sh_bytes s) (sh_term s) (sh_int s) (sh_delegate s)
    (sh_destructing s) (sh_thread s) (sh_destructor s) (sh_handlers s) (S (sh_callbacks s)) (sh_delivered s) (sh_default s).

Definition set_destructing (s : SignalHandler) : SignalHandler :=
  mkSignalHandler (sh_fds s) (sh_read_open s) (sh_write_open s) (sh_bytes s) (sh_term s) (sh_int s) (sh_delegate s)
    true (sh_thread s) (sh_destructor s) (sh_handlers s) (sh_callbacks s) (sh_delivered s) (sh_default s).

Definition clear_delegate (s : SignalHandler) : SignalHandler :=
  mkSignalHandler (sh_fds s) (sh_read_open s) (sh_write_open s) (sh_bytes s) (sh_term s) (sh_int s) false
    (sh_destructing s) (sh_thread s) (sh_destructor s) (sh_handlers s) (sh_callbacks s) (sh_delivered s) (sh_default s).

(** ** Operations *)

(** The constructor, when [pipe] and [signal] succeed. *)
Definition SignalHandler_new : SignalHandler :=
  mkSignalHandler true true true 0 Ours Ours true false ThRead NotCalled [] 0 0 false.

(** The second half of [initiateShutdown()]: [pipe_fds_[1]] of an empty vector is
    undefined, a write to a closed pipe fails. *)
Definition initiateShutdown_write (s : SignalHandler) : outcome SignalHandler :=
  if negb (sh_fds s) then Undefined
  else if negb (sh_read_open s && sh_write_open s) then Panic "write failed"
  else Ok (set_pipe (sh_fds s) (sh_read_open s) (sh_write_open s) (S (sh_bytes s)) s).

(** A step of the shutdown thread; [None] while [read] blocks. *)
Definition shutdown_thread_step (s : SignalHandler) : option (outcome SignalHandler) :=
  match sh_thread s with
  | ThRead =>
      match sh_bytes s with
      | O => None
      | S n => Some (Ok (set_thread ThCloseRead (set_pipe (sh_fds s) (sh_read_open s) (sh_write_open s) n s)))
      end
  | ThCloseRead =>
      Some (if sh_read_open s
            then Ok (set_thread ThCloseWrite (set_pipe (sh_fds s) false (sh_write_open s) (sh_bytes s) s))
            else Panic "read side close failed")
  | ThCloseWrite =>
      Some (if sh_write_open s
            then Ok (set_thread ThClear (set_pipe (sh_fds s) (sh_read_open s) false (sh_bytes s) s))
            else Panic "write side close failed")
  | ThClear => Some (Ok (set_thread ThTest (set_pipe false (sh_read_open s) (sh_write_open s) (sh_bytes s) s)))
  | ThTest => Some (Ok (set_thread (if sh_destructing s then ThOver else ThRestoreTerm) s))
  | ThRestoreTerm => Some (Ok (set_thread ThRestoreInt (set_dispositions Previous (sh_int s) s)))
  | ThRestoreInt => Some (Ok (set_thread ThCallback (set_dispositions (sh_term s) Previous s)))
  | ThCallback => Some (Ok (set_thread ThOver (count_callback s)))
  | ThOver => None
  end.

(** A step of the destructor; [None] while [join] blocks and when it is over. *)
Definition destructor_step (s : SignalHandler) : option (outcome SignalHandler) :=
  match sh_destructor s with
  | NotCalled => Some (Ok (set_destructor DRestoreTerm (set_destructing s)))
  | DRestoreTerm => Some (Ok (set_destructor DRestoreInt (set_dispositions Previous (sh_int s) s)))
  | DRestoreInt => Some (Ok (set_destructor DTest (set_dispositions (sh_term s) Previous s)))
  | DTest => Some (Ok (set_destructor (if sh_fds s then DWrite else DJoin) s))
  | DWrite => Some (let* s := initiateShutdown_write s in Ok (set_destructor DJoin s))
  | DJoin => match sh_thread s with ThOver => Some (Ok (set_destructor DDelegate s)) | _ => None end
  | DDelegate => Some (Ok (set_destructor DOver (clear_delegate s)))
  | DOver => None
  end.

(** A step of the [i]-th invocation of [signal_handler] in progress. After the
    destructor there is no object to read. *)
Definition signal_handler_step (i : nat) (s : SignalHandler) : option (outcome SignalHandler) :=
  let others := delete i (sh_handlers s) in
  match sh_handlers s !! i with
  | None => None
  | Some HDelegate => Some (Ok (set_handlers (if sh_delegate s then HTest :: others else others) s))
  | Some HTest =>
      Some (match sh_destructor s with
            | DOver => Undefined
            | _ => Ok (set_handlers (if sh_fds s then HWrite :: others else others) s)
            end)
  | Some HWrite =>
      Some (match sh_destructor s with
            | DOver => Undefined
            | _ => let* s' := initiateShutdown_write s in Ok (set_handlers others s')
            end)
  end.

(** A signal arrives. *)
Definition signal_arrives (d : disposition) (s : SignalHandler) : SignalHandler :=
  match d with
  | Ours => mkSignalHandler (sh_fds s) (sh_read_open s) (sh_write_open s) (sh_bytes s) (sh_term s) (sh_int s) (sh_delegate s)
              (sh_destructing s) (sh_thread s) (sh_destructor s) (HDelegate :: sh_handlers s) (sh_callbacks s)
              (S (sh_delivered s)) (sh_default s)
  | Previous => mkSignalHandler (sh_fds s) (sh_read_open s) (sh_write_open s) (sh_bytes s) (sh_term s) (sh_int s) (sh_delegate s)
              (sh_destructing s) (sh_thread s) (sh_destructor s) (sh_handlers s) (sh_callbacks s)
              (sh_delivered s) true
  end.

(** The steps of the program itself. *)
Inductive own_step (s : SignalHandler) : outcome SignalHandler -> Prop :=
| step_thread r : shutdown_thread_step s = Some r -> own_step s r
| step_destructor r : destructor_step s = Some r -> own_step s r
| step_handler i r : signal_handler_step i s = Some r -> own_step s r.

Inductive signal_step (s : SignalHandler) : outcome SignalHandler -> Prop :=
| step_own r : own_step s r -> signal_step s r
| step_sigterm : signal_step s (Ok (signal_arrives (sh_term s) s))
| step_sigint : signal_step s (Ok (signal_arrives (sh_int s) s)).

Inductive signal_reachable : SignalHandler -> Prop :=
| signal_initial : signal_reachable SignalHandler_new
| signal_next s s' : signal_reachable s -> signal_step s (Ok s') -> signal_reachable s'.

(** ** Invariant *)

Definition thread_stage (t : thread_pc) : nat :=
  match t with
  | ThRead => 0 | ThCloseRead => 1 | ThCloseWrite => 2 | ThClear => 3 | ThTest => 4
  | ThRestoreTerm => 5 | ThRestoreInt => 6 | ThCallback => 7 | ThOver => 8
  end.

Definition destructor_stage (d : destructor_pc) : nat :=
  match d with
  | NotCalled => 0 | DRestoreTerm => 1 | DRestoreInt => 2 | DTest => 3 | DWrite => 4 | DJoin => 5 | DDelegate => 6 | DOver => 7
  end.

Record signal_ok (s : SignalHandler) : Prop := mkSignalOk {
  so_fds : sh_fds s = bool_decide (thread_stage (sh_thread s) <= 3)%nat;
  so_read : sh_read_open s = bool_decide (thread_stage (sh_thread s) <= 1)%nat;
  so_write : sh_write_open s = bool_decide (thread_stage (sh_thread s) <= 2)%nat;
  so_destructing : sh_destructing s = bool_decide (1 <= destructor_stage (sh_destructor s))%nat;
  so_join : (5 <= destructor_stage (sh_destructor s))%nat -> sh_thread s = ThRead -> (0 < sh_bytes s)%nat;
  so_joined : (6 <= destructor_stage (sh_destructor s))%nat -> sh_thread s = ThOver;
  so_delegate : sh_delegate s = bool_decide (destructor_stage (sh_destructor s) <= 6)%nat;
  so_restored_term : (6 <= thread_stage (sh_thread s) <= 7)%nat \/ (0 < sh_callbacks s)%nat \/
    (2 <= destructor_stage (sh_destructor s))%nat -> sh_term s = Previous;
  so_restored_int : sh_thread s = ThCallback \/ (0 < sh_callbacks s)%nat \/
    (3 <= destructor_stage (sh_destructor s))%nat -> sh_int s = Previous;
  so_once : (sh_callbacks s <= 1)%nat;
  so_called : (0 < sh_callbacks s)%nat -> sh_thread s = ThOver;
}.

Lemma write_inv s s' :
  initiateShutdown_write s = Ok s' -> sh_fds s = true /\ s' = set_pipe true (sh_read_open s) (sh_write_open s) (S (sh_bytes s)) s /\
    sh_read_open s = true /\ sh_write_open s = true.
Proof.
  unfold initiateShutdown_write. destruct (sh_fds s); [|done]. cbn.
  destruct (sh_read_open s), (sh_write_open s); cbn; try done. by intros [= <-].
Qed.

(** Uses the implications of the invariant. *)
Ltac signal_case :=
  intros;
  repeat match goal with X : _ \/ _ |- _ => destruct X | X : _ /\ _ |- _ => destruct X end; subst; cbn in *;
  try done; try lia; try congruence; try (repeat case_bool_decide; done || lia);
  try match goal with
  | X : _ -> ?x = Previous |- ?x = Previous => apply X; first [lia | by left | right; lia]
  | X : (6 <= _)%nat -> _ = ThOver |- _ => exfalso; by discriminate (X ltac:(lia))
  | X : (0 < _)%nat -> _ = ThOver |- _ => exfalso; by discriminate (X ltac:(lia))
  | X : (6 <= _)%nat -> _ = ThOver |- _ => apply X; lia
  | X : (0 < _)%nat -> _ = ThOver |- _ => apply X; lia
  | X : (5 <= _)%nat -> _ -> (0 < _)%nat |- (0 < _)%nat => apply X; [lia|done]
  end.

Lemma thread_ok s s' : signal_ok s -> shutdown_thread_step s = Some (Ok s') -> signal_ok s'.
Proof.
  destruct s as [f r w n term int d g t dt hs c e u]. intros [? ? ? ? Hj Hjd ? Ht Hi Hc1 Hc2] E. cbn in *. subst.
  unfold shutdown_thread_step in E. cbn in E. destruct (bool_decide (1 <= destructor_stage dt)%nat) eqn:Eb;
    destruct t; cbn in *; simplify_eq/=; try (destruct n; simplify_eq/=); constructor; signal_case.
  all: destruct c; [lia|discriminate (Hc2 ltac:(lia))].
Qed.

Lemma destructor_ok s s' : signal_ok s -> destructor_step s = Some (Ok s') -> signal_ok s'.
Proof.
  destruct s as [f r w n term int d g t dt hs c e u]. intros [Hf Hr Hw ? Hj Hjd ? Ht Hi Hc1 Hc2] E. cbn in *. subst.
  unfold destructor_step in E. cbn in E.
  destruct dt; cbn in *; simplify_eq/=.
  1-3, 7: constructor; signal_case.
  - destruct (decide (thread_stage t <= 3)%nat); [rewrite bool_decide_eq_true_2 by done|rewrite bool_decide_eq_false_2 by done];
      constructor; signal_case. subst t. cbn in *. lia.
  - apply obind_Ok in E as (s & Hs & E). apply write_inv in Hs as (Hfds & -> & _). cbn in Hfds. injection E as <-.
    constructor; signal_case.
  - destruct t; simplify_eq/=. constructor; signal_case.
Qed.

Lemma handlers_ok hs s : signal_ok s -> signal_ok (set_handlers hs s).
Proof. intros []. by constructor. Qed.

Lemma written_ok s s' : signal_ok s -> initiateShutdown_write s = Ok s' -> signal_ok s'.
Proof.
  intros [Hf] (E & -> & _)%write_inv. constructor; cbn in *; auto with lia. congruence.
Qed.

Lemma handler_ok i s s' : signal_ok s -> signal_handler_step i s = Some (Ok s') -> signal_ok s'.
Proof.
  intros Hs E. unfold signal_handler_step in E. destruct (sh_handlers s !! i) as [[]|]; try discriminate.
  - injection E as <-. by apply handlers_ok.
  - destruct (sh_destructor s); try discriminate; injection E as <-; by apply handlers_ok.
  - destruct (sh_destructor s); try discriminate; injection E as E; apply obind_Ok in E as (s1 & Hw & E); injection E as <-;
      by eapply handlers_ok, written_ok.
Qed.

Lemma arrives_ok d s : signal_ok s -> signal_ok (signal_arrives d s).
Proof. intros []. destruct d; constructor; auto. Qed.

Lemma signal_ok_reachable s : signal_reachable s -> signal_ok s.
Proof.
  induction 1 as [|s s' _ IH Hs]; [constructor; signal_case|]. inversion Hs as [r Ho|E|E]; subst.
  - inversion Ho; subst; eauto using thread_ok, destructor_ok, handler_ok.
  - by apply arrives_ok.
  - by apply arrives_ok.
Qed.

(** ** Theorems *)

(** No step of the program is a signal. *)
Lemma own_delivered s s' : own_step s (Ok s') -> sh_delivered s' = sh_delivered s.
Proof.
  intros Ho. inversion Ho as [r E|r E|i r E]; subst.
  - unfold shutdown_thread_step in E. repeat case_match; by simplify_eq.
  - unfold destructor_step in E. destruct (sh_destructor s); simplify_eq/=; try done.
    + apply obind_Ok in E as (s1 & Hs & E). apply write_inv in Hs as (_ & -> & _). by injection E as <-.
    + by destruct (sh_thread s); simplify_eq/=.
  - unfold signal_handler_step in E. destruct (sh_handlers s !! i) as [[]|]; simplify_eq/=; try done.
    + by destruct (sh_destructor s); simplify_eq/=.
    + destruct (sh_destructor s); simplify_eq/=; apply obind_Ok in E as (s1 & Hs & E);
        apply write_inv in Hs as (_ & -> & _); by injection E as <-.
Qed.

(** C31. The callback runs at most once, whatever signals arrive and however the
    threads interleave, and never before both dispositions are what they were: from
    the moment it begins, also while it blocks, any further signal takes the action
    that was there before the handler, so a run that hangs in its shutdown can be
    ended by a second signal. *)
Theorem signal_callback_once s :
  signal_reachable s ->
  (sh_callbacks s <= 1)%nat /\
  (sh_thread s = ThCallback \/ sh_callbacks s = 1%nat ->
   sh_term s = Previous /\ sh_int s = Previous /\
   forall s', signal_step s (Ok s') -> sh_delivered s' = sh_delivered s).
Proof.
  intros [? ? ? ? ? ? ? Ht Hi Hc1 Hc2]%signal_ok_reachable. split; [done|]. intros Hc.
  assert (sh_term s = Previous /\ sh_int s = Previous) as [Et Ei].
  { destruct Hc as [E|E]; [split; [apply Ht; rewrite E; cbn; lia|apply Hi; by left]|split; [apply Ht; lia|apply Hi; right; lia]]. }
  split_and!; try done. intros s' Hs. inversion Hs as [r Ho|E|E]; subst; rewrite ?Et, ?Ei; try done.
  by apply own_delivered.
Qed.

(** *** Without a signal *)

Record quiet (s : SignalHandler) : Prop := mkQuiet {
  q_handlers : sh_handlers s = [];
  q_thread : sh_thread s <> ThRead \/ (0 < sh_bytes s)%nat -> (5 <= destructor_stage (sh_destructor s))%nat;
  q_stage : (thread_stage (sh_thread s) <= 4)%nat \/ sh_thread s = ThOver;
  q_callbacks : sh_callbacks s = 0%nat;
}.

Lemma quiet_thread s s' : signal_ok s -> quiet s -> shutdown_thread_step s = Some (Ok s') -> quiet s'.
Proof.
  intros Hs [Hh Ht Hg Hc] E. pose proof (so_destructing _ Hs) as Hd. unfold shutdown_thread_step in E.
  destruct (sh_thread s) eqn:Et; try (exfalso; cbn in Hg; destruct Hg; (lia || discriminate)).
  - destruct (sh_bytes s) eqn:Eb; simplify_eq/=. constructor; cbn; auto with lia.
  - destruct (sh_read_open s); simplify_eq/=. constructor; cbn; auto with lia.
  - destruct (sh_write_open s); simplify_eq/=. constructor; cbn; auto with lia.
  - simplify_eq/=. constructor; cbn; auto with lia.
  - simplify_eq/=. rewrite Hd, bool_decide_eq_true_2 by (specialize (Ht ltac:(by left)); lia). constructor; cbn; auto with lia.
Qed.

Lemma quiet_destructor s s' : quiet s -> destructor_step s = Some (Ok s') -> quiet s'.
Proof.
  intros [Hh Ht Hg Hc] E. unfold destructor_step in E.
  destruct (sh_destructor s) eqn:Ed; simplify_eq/=; try (constructor; cbn; auto; intros X; specialize (Ht X); cbn in *; lia).
  - apply obind_Ok in E as (s1 & Hw & E). apply write_inv in Hw as (_ & -> & _). injection E as <-. constructor; cbn; auto with lia.
  - destruct (sh_thread s) eqn:Et; simplify_eq/=. constructor; cbn; rewrite ?Et; auto with lia.
Qed.

Lemma quiet_reachable s : signal_reachable s -> sh_delivered s = 0%nat -> quiet s.
Proof.
  induction 1 as [|s s' Hr IH Hs]; intros Hd.
  - constructor; cbn; auto with lia. intros [|]; [done|lia].
  - apply signal_ok_reachable in Hr. inversion Hs as [r Ho|E|E]; subst.
    + rewrite (own_delivered _ _ Ho) in Hd. specialize (IH Hd). inversion Ho as [r E|r E|i r E]; subst.
      * by eapply quiet_thread.
      * by eapply quiet_destructor.
      * unfold signal_handler_step in E. rewrite (q_handlers _ IH), lookup_nil in E. done.
    + destruct (sh_term s); [done|]. destruct (IH Hd). by constructor.
    + destruct (sh_int s); [done|]. destruct (IH Hd). by constructor.
Qed.

(** A handler no signal was delivered to comes and goes without a trace: none
    of its assertions can fail, no descriptor is used after it is closed, the
    callback is never run, and when the destructor is over the thread has ended,
    the pipe is closed and both dispositions are what they were. *)
Lemma quiet_destruction s :
  signal_reachable s -> sh_delivered s = 0%nat ->
  (forall r, own_step s r -> exists s', r = Ok s') /\ sh_callbacks s = 0%nat /\
  (sh_destructor s = DOver ->
   sh_thread s = ThOver /\ sh_fds s = false /\ sh_read_open s = false /\ sh_write_open s = false /\
   sh_term s = Previous /\ sh_int s = Previous).
Proof.
  intros Hr Hd. destruct (quiet_reachable s Hr Hd) as [Hh Hq Hg Hc]. destruct (signal_ok_reachable s Hr) as [Hf Hro Hwo ? ? Hj ? Ht Hi ? ?].
  split_and!; [|done|].
  - intros r Ho. inversion Ho as [r' E|r' E|i r' E]; subst.
    + unfold shutdown_thread_step in E. rewrite Hro, Hwo in E.
      destruct (sh_thread s); cbn in E; simplify_eq/=; eauto. destruct (sh_bytes s); simplify_eq/=; eauto.
    + unfold destructor_step in E. destruct (sh_destructor s) eqn:Ed; simplify_eq/=; eauto; [|destruct (sh_thread s); simplify_eq/=; eauto].
      destruct (sh_thread s) eqn:Et; try (specialize (Hq ltac:(left; discriminate)); cbn in Hq; lia).
      unfold initiateShutdown_write. rewrite Hf, Hro, Hwo. cbn. eauto.
    + unfold signal_handler_step in E. by rewrite Hh, lookup_nil in E.
  - intros Ed. rewrite Ed in *. cbn in *. specialize (Hj ltac:(lia)). rewrite Hj in *. cbn in *.
    split_and!; auto. apply Ht. lia. apply Hi. right. lia.
Qed.

(** *** The destructor returns *)






(** *** A race *)

Inductive actor : Type := Signal | Handler | Thread | Destructor.

(** One actor's step. *)
Definition act (a : actor) (s : SignalHandler) : option (outcome SignalHandler) :=
  match a with
  | Signal => Some (Ok (signal_arrives (sh_term s) s))
  | Handler => signal_handler_step 0 s
  | Thread => shutdown_thread_step s
  | Destructor => destructor_step s
  end.

Fixpoint acts (l : list actor) (s : SignalHandler) : option SignalHandler :=
  match l with
  | [] => Some s
  | a :: l => match act a s with Some (Ok s) => acts l s | _ => None end
  end.

Lemma act_step a s r : act a s = Some r -> signal_step s r.
Proof.
  destruct a; cbn; intros E; [injection E as <-; apply step_sigterm|apply step_own..].
  - by apply step_handler with 0%nat.
  - by apply step_thread.
  - by apply step_destructor.
Qed.

Lemma acts_reachable l s s' : signal_reachable s -> acts l s = Some s' -> signal_reachable s'.
Proof.
  revert s. induction l as [|a l IH]; intros s Hr E; cbn in E; [by simplify_eq|].
  destruct (act a s) as [[s1| | |]|] eqn:Ea; try done. eapply IH; [|done]. eapply signal_next; [done|]. by eapply act_step.
Qed.

Lemma acts_default l : signal_reachable (default SignalHandler_new (acts l SignalHandler_new)).
Proof.
  destruct (acts l SignalHandler_new) as [s|] eqn:E; cbn; [|apply signal_initial].
  eapply acts_reachable; [apply signal_initial|done].
Qed.

(** One signal that arrives as the run ends: the destructor sees the descriptors,
    the thread, woken by the signal, closes and clears them, and the destructor
    reads the second of an empty vector. *)
Definition race : list actor :=
  [Signal; Handler; Handler; Handler; Destructor; Destructor; Destructor; Destructor; Thread; Thread; Thread; Thread].

Lemma signal_race :
  exists s, signal_reachable s /\ sh_delivered s = 1%nat /\ own_step s Undefined.
Proof.
  destruct (acts race SignalHandler_new) as [s|] eqn:E; [|by vm_compute in E]. exists s.
  split; [eapply acts_reachable; [apply signal_initial|done]|]. vm_compute in E. injection E as <-.
  split; [done|]. by apply step_destructor.
Qed.

(** ** Witnesses *)

(** A signal, and the thread up to the callback. *)
Definition demo_caught : SignalHandler :=
  default SignalHandler_new
    (acts [Signal; Handler; Handler; Handler; Thread; Thread; Thread; Thread; Thread; Thread; Thread] SignalHandler_new).

Lemma demo_caught_reachable : signal_reachable demo_caught.
Proof. apply acts_default. Qed.

(** C31: the callback is about to run. *)
Lemma signal_callback_once_witness : sh_thread demo_caught = ThCallback /\ sh_term demo_caught = Previous.
Proof.
  destruct (signal_callback_once demo_caught demo_caught_reachable) as [_ Hc].
  split; [done|]. destruct Hc as [Ht _]; [by left|done].
Defined.

(** The whole life of a handler without a signal. *)
Definition demo_unused : SignalHandler :=
  default SignalHandler_new
    (acts [Destructor; Destructor; Destructor; Destructor; Destructor; Thread; Thread; Thread; Thread; Thread; Destructor;
           Destructor] SignalHandler_new).

Lemma demo_unused_reachable : signal_reachable demo_unused.
Proof. apply acts_default. Qed.

(** Its end. *)
Lemma quiet_destruction_witness : sh_destructor demo_unused = DOver /\ sh_thread demo_unused = ThOver.
Proof.
  destruct (quiet_destruction demo_unused demo_unused_reachable eq_refl) as (_ & _ & Ho).
  split; [done|]. by destruct (Ho eq_refl) as [Ht _].
Defined.



