(* ===== verification/Plugins.v ===== *)
(** * Plugins

    Models [engine/source/user_defined_output/log_response_headers_plugin.cc] (the
    plugin that logs response headers, its configuration and its factory),
    [user_defined_output_plugin_creator.cc] (the plugins of a worker), how the HTTP
    client asks them for their results ([getUserDefinedOutputResults] of
    [engine/source/client/benchmark_client_impl.cc]), and
    [engine/source/stats_sink/envoy_stats_sink_adapter.cc] with the names of the
    statistics it is given ([engine/source/common/statistic_impl.cc]).

    Envoy's header map, the status it reads from one, unpacking of an [Any] and the
    registered factories are arguments. *)

From stdpp Require Import gmap strings sorting.
From S2P Require Import Prelude Text Uri Statistic BenchmarkClient Process.

(** ** Headers *)

(** Envoy's [LowerCaseString], [HeaderMap::get], and
    [Http::Utility::getResponseStatus]. A header is its name and value. *)
Class HeaderMapEnv : Type := {
  LowerCaseString : string -> string;
  header_get : string -> list (string * string) -> list (string * string);
  getResponseStatus : list (string * string) -> outcome Z;
}.

(** The entries of a name, in order. *)
Class HeaderMapLaws `{HeaderMapEnv} : Prop := {
  get_documented name headers : header_get name headers = filter (fun h => h.1 = name) headers;
}.

Inductive LoggingMode : Type :=
| LM_UNKNOWN | LM_LOG_ALL_RESPONSES | LM_SKIP_200_LEVEL_RESPONSES | LoggingModeUnrecognized (value : Z).

#[export] Instance LoggingMode_eq_dec : EqDecision LoggingMode.
Proof. solve_decision. Defined.

Record LogResponseHeadersConfig : Type := mkLogConfig {
  log_headers_with_name : list string;
  logging_mode : LoggingMode;
}.

Section LogResponseHeaders.
Context `{HeaderMapEnv}.

Definition shouldLogResponse (config : LogResponseHeadersConfig) (response_headers : list (string * string)) : outcome bool :=
  if bool_decide (logging_mode config = LM_SKIP_200_LEVEL_RESPONSES) then
    let* response_code := getResponseStatus response_headers in
    Ok (negb ((200 <=? response_code) && (response_code <? 300)))
  else Ok true.

(** What is handed to the logger, in order. *)
Definition logAllHeaders (response_headers : list (string * string)) : list (string * string) := response_headers.

Fixpoint logSpecifiedHeaders (names : list string) (response_headers : list (string * string)) : list (string * string) :=
  match names with
  | [] => []
  | header_name :: names =>
      header_get (LowerCaseString header_name) response_headers ++ logSpecifiedHeaders names response_headers
  end.

(** The loop over the names: the first complaint. *)
Fixpoint validate_names (names : list string) (header_names : gset string) : option string :=
  match names with
  | [] => None
  | header_name :: names =>
      if (header_name =? EmptyString)%string
      then Some "Invalid configuration for LogResponseHeadersPlugin. Received empty header"%string
      else if bool_decide (LowerCaseString header_name ∈ header_names)
      then Some ("Invalid configuration for LogResponseHeadersPlugin. Duplicate header " +:+ header_name)
      else validate_names names ({[LowerCaseString header_name]} ∪ header_names)
  end.

Definition validateConfig (config : LogResponseHeadersConfig) : option string :=
  if bool_decide (logging_mode config = LM_UNKNOWN)
  then Some "Invalid configuration for LogResponseHeadersPlugin. Must provide a valid LoggingMode"%string
  else validate_names (log_headers_with_name config) ∅.

(** The headers logged; the status is always ok. *)
Definition LogResponseHeadersPlugin_handleResponseHeaders (config : LogResponseHeadersConfig)
    (response_headers : list (string * string)) : outcome (list (string * string)) :=
  let* log := shouldLogResponse config response_headers in
  Ok (if log then
        match log_headers_with_name config with
        | [] => logAllHeaders response_headers
        | names => logSpecifiedHeaders names response_headers
        end
      else []).

(** [unpacked]: the configuration, or why the [Any] does not hold one. *)
Definition LogResponseHeadersPluginFactory_create (unpacked : string + LogResponseHeadersConfig) :
    string + LogResponseHeadersConfig :=
  match unpacked with
  | inl status => inl status
  | inr config => match validateConfig config with Some status => inl status | None => inr config end
  end.

(** ** Theorems on the plugin *)

Lemma validate_names_spec names seen :
  validate_names names seen = None <->
  Forall (fun n => n <> EmptyString) names /\ NoDup (LowerCaseString <$> names) /\
  Forall (fun n => LowerCaseString n ∉ seen) names.
Proof.
  revert seen. induction names as [|n names IH]; intros seen; cbn [validate_names].
  { split; [|done]. intros _. split_and!; constructor. }
  destruct (String.eqb_spec n EmptyString) as [->|Hn].
  { split; [done|]. intros [Hf _]. by apply Forall_cons in Hf as [? _]. }
  case_bool_decide as Hin.
  { split; [done|]. intros (_ & _ & Hf). by apply Forall_cons in Hf as [? _]. }
  rewrite IH, fmap_cons, NoDup_cons, !Forall_cons. split.
  - intros (Hf & Hd & Hs). rewrite Forall_forall in Hs. split_and!; auto.
    + intros (m & E & Hm)%list_elem_of_fmap. apply (Hs m Hm). rewrite elem_of_union, elem_of_singleton. by left.
    + apply Forall_forall. intros m Hm Hseen. apply (Hs m Hm), elem_of_union. by right.
  - intros ([_ Hf] & [Hni Hd] & [_ Hs]). split_and!; auto. rewrite Forall_forall in *. intros m Hm.
    rewrite elem_of_union, elem_of_singleton. intros [E|E]; [|by apply (Hs m Hm)].
    apply Hni. rewrite <- E. by apply list_elem_of_fmap_2.
Qed.

(** What the factory accepts: a mode, and names that are not empty and do not
    differ in case alone. *)
Lemma validateConfig_spec config :
  validateConfig config = None <->
  logging_mode config <> LM_UNKNOWN /\ Forall (fun n => n <> EmptyString) (log_headers_with_name config) /\
  NoDup (LowerCaseString <$> log_headers_with_name config).
Proof.
  unfold validateConfig. case_bool_decide as Hm; [by split; [|intros []]|].
  rewrite validate_names_spec. split; [tauto|]. intros (_ & Hf & Hd). split_and!; auto.
  apply Forall_forall. intros n _. apply not_elem_of_empty.
Qed.

Lemma filter_disjoint_permutation names (headers : list (string * string)) (n : string) :
  n ∉ names ->
  filter (fun h => h.1 = n) headers ++ filter (fun h => h.1 ∈ names) headers ≡ₚ filter (fun h => h.1 ∈ n :: names) headers.
Proof.
  intros Hn. induction headers as [|h headers IH]; [done|]. rewrite !filter_cons.
  destruct (decide (h.1 = n)) as [E|E], (decide (h.1 ∈ names)) as [I|I], (decide (h.1 ∈ n :: names)) as [J|J];
    rewrite ?elem_of_cons in J; try (exfalso; subst; tauto).
  - cbn. by rewrite IH.
  - rewrite <- Permutation_middle. by rewrite IH.
  - done.
Qed.

Lemma logSpecifiedHeaders_filter `{!HeaderMapLaws} names headers :
  NoDup (LowerCaseString <$> names) ->
  logSpecifiedHeaders names headers ≡ₚ filter (fun h => h.1 ∈ LowerCaseString <$> names) headers.
Proof.
  induction names as [|n names IH]; intros Hd; cbn [logSpecifiedHeaders].
  - cbn. assert (filter (fun h => h.1 ∈ @nil string) headers = []) as ->; [|done].
    induction headers as [|h headers IHh]; [done|]. rewrite filter_cons_False; [done|apply not_elem_of_nil].
  - rewrite fmap_cons, NoDup_cons in Hd. destruct Hd as [Hn Hd]. rewrite get_documented, (IH Hd). by apply filter_disjoint_permutation.
Qed.

(** With a configuration the factory accepts, a response is logged whole, or
    exactly its headers of the configured names are, each of them once however the
    names were written; or it is not logged at all, which happens for a status
    from 200 to 299 in the mode that skips those and never otherwise. *)
Lemma response_headers_logged `{!HeaderMapLaws} unpacked config headers status logged :
  LogResponseHeadersPluginFactory_create unpacked = inr config -> getResponseStatus headers = Ok status ->
  LogResponseHeadersPlugin_handleResponseHeaders config headers = Ok logged ->
  let skipped := logging_mode config = LM_SKIP_200_LEVEL_RESPONSES /\ 200 <= status < 300 in
  (skipped -> logged = []) /\
  (~ skipped -> log_headers_with_name config = [] -> logged = headers) /\
  (~ skipped -> log_headers_with_name config <> [] ->
   logged ≡ₚ filter (fun h => h.1 ∈ LowerCaseString <$> log_headers_with_name config) headers).
Proof.
  intros Hc Hst. unfold LogResponseHeadersPluginFactory_create in Hc. destruct unpacked as [|c]; [done|].
  destruct (validateConfig c) eqn:Hv; [done|]. injection Hc as ->. apply validateConfig_spec in Hv as (_ & _ & Hd).
  unfold LogResponseHeadersPlugin_handleResponseHeaders, shouldLogResponse.
  assert (forall log : bool, Ok (if log then match log_headers_with_name config with [] => logAllHeaders headers
            | names => logSpecifiedHeaders names headers end else []) = Ok logged ->
          if log then (log_headers_with_name config = [] -> logged = headers) /\
            (log_headers_with_name config <> [] -> logged ≡ₚ filter (fun h => h.1 ∈ LowerCaseString <$> log_headers_with_name config) headers)
          else logged = []) as Hlog.
  { intros [] [= <-]; [|done]. destruct (log_headers_with_name config) as [|n ns] eqn:En; [done|]. split; [done|]. intros _.
    by apply (logSpecifiedHeaders_filter (n :: ns)). }
  intros E. apply obind_Ok in E as (log & Hl & E). apply Hlog in E. case_bool_decide as Hm.
  - rewrite Hst in Hl. injection Hl as <-. destruct (Z.leb_spec 200 status), (Z.ltb_spec status 300); cbn in E;
      (split; [|split]); intros Hs; try done; try lia; try (by destruct E); exfalso; apply Hs; by split.
  - injection Hl as <-. destruct E as [E1 E2]. split; [tauto|]. by split; intros _.
Qed.

End LogResponseHeaders.

(** ** The plugins of a worker *)

Section WorkerPlugins.
Context {Config Plugin : Type}.

(** A factory: its name, and what it makes of a configuration and the number of
    the worker, or why it makes nothing. *)
Record PluginFactory : Type := mkFactory {
  factory_name : string;
  createUserDefinedOutputPlugin : Config -> Z -> string + Plugin;
}.

Fixpoint createUserDefinedOutputPlugins (factory_pairs : list (Config * PluginFactory)) (worker_number : Z) :
    string + list (string * Plugin) :=
  match factory_pairs with
  | [] => inr []
  | (config, factory) :: factory_pairs =>
      match createUserDefinedOutputPlugin factory config worker_number with
      | inl status => inl status
      | inr plugin =>
          match createUserDefinedOutputPlugins factory_pairs worker_number with
          | inl status => inl status
          | inr plugins => inr ((factory_name factory, plugin) :: plugins)
          end
      end
  end.

(** [getPerWorkerOutput]: the [Any], or the status as text. *)
Definition BenchmarkClientHttpImpl_getUserDefinedOutputResults (getPerWorkerOutput : Plugin -> string + string)
    (plugins : list (string * Plugin)) : list UserDefinedOutput :=
  map (fun '(name, plugin) =>
         mkUserOutput name (match getPerWorkerOutput plugin with
                            | inl status => OutputError status
                            | inr any => TypedOutput any
                            end)) plugins.

(** The whole configuration of a run: one pair per configured plugin, with the
    factory that was registered for it, or the name nobody registered. *)
Fixpoint getUserDefinedFactoryConfigPairs (registered : Config -> string + PluginFactory) (configs : list Config) :
    outcome (list (Config * PluginFactory)) :=
  match configs with
  | [] => Ok []
  | config :: configs =>
      match registered config with
      | inl what => Throw (EnvoyException what)
      | inr factory =>
          let* pairs := getUserDefinedFactoryConfigPairs registered configs in Ok ((config, factory) :: pairs)
      end
  end.

Lemma created_plugins pairs n plugins :
  createUserDefinedOutputPlugins pairs n = inr plugins ->
  Forall2 (fun p q => q.1 = factory_name p.2 /\ createUserDefinedOutputPlugin p.2 p.1 n = inr q.2) pairs plugins.
Proof.
  revert plugins. induction pairs as [|[config factory] pairs IH]; intros plugins E; cbn in E; [injection E as <-; constructor|].
  destruct (createUserDefinedOutputPlugin factory config n) as [|plugin] eqn:Ep; [done|].
  destruct (createUserDefinedOutputPlugins pairs n) as [|rest]; [done|]. injection E as <-. constructor; [done|auto].
Qed.

Lemma result_names (getPerWorkerOutput : Plugin -> string + string) plugins :
  plugin_name <$> BenchmarkClientHttpImpl_getUserDefinedOutputResults getPerWorkerOutput plugins = plugins.*1.
Proof.
  unfold BenchmarkClientHttpImpl_getUserDefinedOutputResults. induction plugins as [|[name plugin] plugins IH]; [done|].
  rewrite map_cons, !fmap_cons. by rewrite IH.
Qed.

Lemma created_names pairs n plugins :
  createUserDefinedOutputPlugins pairs n = inr plugins -> plugins.*1 = (fun p => factory_name p.2) <$> pairs.
Proof.
  intros E%created_plugins. induction E as [|p q ps qs [Hq _] _ IH]; [done|]. rewrite !fmap_cons. by rewrite Hq, IH.
Qed.

Lemma collect_all (outputs : list (list UserDefinedOutput)) m :
  fold_left collectUserDefinedOutputs outputs m = collectUserDefinedOutputs m (concat outputs).
Proof. revert m. induction outputs as [|l outputs IH]; intros m; [done|].
  cbn [fold_left concat]. by rewrite IH, collect_app.
Qed.

Lemma outputs_of_found name (l : list UserDefinedOutput) : name ∈ plugin_name <$> l -> outputs_of name l <> [].
Proof.
  intros (o & -> & Ho)%list_elem_of_fmap E. assert (In o (outputs_of (plugin_name o) l)) as Hin.
  { apply filter_In. split; [by apply list_elem_of_In|]. apply String.eqb_refl. } by rewrite E in Hin.
Qed.

(** Every configured plugin is heard. A worker that could be created has one
    plugin per configured one, in the order of the configuration and under the
    name of its factory, and each contributes one output of that name to the
    worker's results; collected over all workers, every factory is handed exactly
    what its plugins on all workers put out, which is not nothing, and the global
    result of the plugin is what it makes of that. *)
Lemma plugins_collected (getPerWorkerOutput : Plugin -> string + string) aggregate pairs workers plugins :
  workers <> [] ->
  Forall2 (fun n ps => createUserDefinedOutputPlugins pairs n = inr ps) workers plugins ->
  let names := (fun p => factory_name p.2) <$> pairs in
  let outputs := map (BenchmarkClientHttpImpl_getUserDefinedOutputResults getPerWorkerOutput) plugins in
  Forall (fun l => plugin_name <$> l = names) outputs /\
  Forall (fun name => outputs_of name (concat outputs) <> []) names /\
  compileGlobalUserDefinedPluginOutputs aggregate (fold_left collectUserDefinedOutputs outputs ∅) names =
    (fun name => mkUserOutput name (match aggregate name (outputs_of name (concat outputs)) with
                                    | inr any => TypedOutput any
                                    | inl status => OutputError status
                                    end)) <$> names.
Proof.
  intros Hne Hall names outputs.
  assert (Forall (fun l => plugin_name <$> l = names) outputs) as Hnames.
  { unfold outputs. clear Hne. induction Hall as [|n ps ns pss Hps _ IH]; cbn; constructor; [|done].
    rewrite result_names. by eapply created_names. }
  assert (Forall (fun name => outputs_of name (concat outputs) <> []) names) as Hfound.
  { apply Forall_forall. intros name Hin. apply outputs_of_found. destruct Hall as [|n ps ns pss]; [done|].
    apply Forall_cons in Hnames as [Hn _]. cbn. rewrite fmap_app, Hn. by apply elem_of_app; left. }
  split; [done|]. split; [done|]. unfold compileGlobalUserDefinedPluginOutputs.
  rewrite collect_all. clear Hnames. induction Hfound as [|name l Hf _ IH]; [done|]. rewrite !fmap_cons, IH. f_equal. f_equal.
  rewrite collect_lookup, lookup_empty. by destruct (outputs_of name (concat outputs)).
Qed.

End WorkerPlugins.

(** ** Statistics in sinks *)

(** A histogram as a sink sees it; [sinkable]: it is one of Nighthawk's
    statistics, with the worker it belongs to. *)
Inductive Unit : Type := Unspecified | Bytes | Microseconds | Milliseconds.

Record Histogram : Type := mkHistogram {
  hist_name : string;
  hist_tagExtractedName : string;
  hist_tags : list (string * string);
  hist_unit : Unit;
  sinkable : option (option Z);
}.

Section StatsSink.
Context (fmt_int : Z -> string).

(** [SinkableHdrStatistic] and [SinkableCircllhistStatistic]. *)
Definition SinkableStatistic_tagExtractedName (worker_id : option Z) (id : string) : string :=
  match worker_id with
  | Some w => fmt_int w +:+ "." +:+ id
  | None => id
  end.

Definition SinkableStatistic_histogram (worker_id : option Z) (id : string) : Histogram :=
  mkHistogram id (SinkableStatistic_tagExtractedName worker_id id) [] Unspecified (Some worker_id).

(** A statistic and the values the store was asked to deliver to the sinks; adding a
    value records it. *)
Definition SinkableStatistic_recordValue {S} `{Statistic S} (value : Z) (s : S * list Z) : S * list Z :=
  (st_addValue value s.1, s.2 ++ [value]).

(** A statistic with sinks is the one without them, and the sinks are handed every
    value, once and in order. *)
Lemma recorded_and_delivered {S} `{Statistic S} (values : list Z) (s : S) delivered :
  fold_left (fun s v => SinkableStatistic_recordValue v s) values (s, delivered) =
  (fold_left (fun s v => st_addValue v s) values s, delivered ++ values).
Proof.
  revert s delivered. induction values as [|v values IH]; intros s delivered; cbn; [by rewrite app_nil_r|].
  unfold SinkableStatistic_recordValue at 2. cbn. by rewrite IH, <- app_assoc.
Qed.

(** Envoy's name of the tag of a cluster. *)
Context (CLUSTER_NAME : string).

Definition LatencyHistogramView (histogram : Histogram) (worker_id : option Z) : Histogram :=
  match worker_id with
  | Some w => mkHistogram ("cluster." +:+ fmt_int w +:+ "." +:+ hist_name histogram) ("cluster." +:+ hist_name histogram)
                (hist_tags histogram ++ [(CLUSTER_NAME, fmt_int w)]) Microseconds None
  | None => mkHistogram (hist_name histogram) (hist_name histogram) (hist_tags histogram) Microseconds None
  end.

Definition nanosecondsToMicroseconds (nanoseconds : Z) : Z := u64 (nanoseconds + 500) / 1000.

(** What the Envoy sink is called with. *)
Definition EnvoyStatsSinkAdapter_onHistogramComplete (histogram : Histogram) (value : Z) : Histogram * Z :=
  match sinkable histogram with
  | None => (histogram, value)
  | Some worker_id => (LatencyHistogramView histogram worker_id, nanosecondsToMicroseconds value)
  end.

(** The factory: the configuration of the sink behind the adapter unpacked, its
    factory found, its configuration translated, the sink made; each may throw. *)
Definition EnvoyStatsSinkAdapterFactory_createStatsSink {AdapterConfig EnvoyFactory EnvoyConfig EnvoySink : Type}
    (unpackTo : outcome AdapterConfig) (getAndCheckFactory : AdapterConfig -> outcome EnvoyFactory)
    (translateToFactoryConfig : AdapterConfig -> EnvoyFactory -> outcome EnvoyConfig)
    (createStatsSink : EnvoyFactory -> EnvoyConfig -> outcome EnvoySink) : outcome EnvoySink :=
  let* adapter_config := unpackTo in
  let* envoy_factory := getAndCheckFactory adapter_config in
  let* envoy_config := translateToFactoryConfig adapter_config envoy_factory in
  createStatsSink envoy_factory envoy_config.

(** A latency reaches an Envoy sink as a histogram in microseconds, rounded to
    the nearest one and so off by at most half a microsecond. Its name carries the worker, and taking
    the worker out of the name gives the tag-extracted name and the value of the
    cluster tag. Any other histogram is passed on as it is. *)
Lemma sink_latency worker_id id value :
  0 <= value <= UINT64_MAX - 500 ->
  let '(view, us) := EnvoyStatsSinkAdapter_onHistogramComplete (SinkableStatistic_histogram worker_id id) value in
  hist_unit view = Microseconds /\ value - 500 < 1000 * us <= value + 500 /\
  match worker_id with
  | Some w => hist_name view = "cluster." +:+ fmt_int w +:+ "." +:+ id /\ hist_tagExtractedName view = "cluster." +:+ id /\
      hist_tags view = [(CLUSTER_NAME, fmt_int w)]
  | None => hist_name view = id /\ hist_tagExtractedName view = id /\ hist_tags view = []
  end.
Proof.
  intros Hv. unfold EnvoyStatsSinkAdapter_onHistogramComplete, nanosecondsToMicroseconds. cbn.
  rewrite u64_small by (unfold in_u64, UINT64_MAX in *; lia).
  pose proof (Z.div_mod (value + 500) 1000 ltac:(lia)). pose proof (Z.mod_pos_bound (value + 500) 1000 ltac:(lia)).
  split; [by destruct worker_id|]. split; [lia|]. by destruct worker_id.
Qed.

(** The sum wraps for the last half microsecond of the range. *)
Lemma sink_latency_wraps value : UINT64_MAX - 500 < value <= UINT64_MAX -> nanosecondsToMicroseconds value = 0.
Proof.
  intros Hv. unfold nanosecondsToMicroseconds. assert (u64 (value + 500) = value + 500 - 2 ^ 64) as ->.
  { unfold u64, wrap_u, UINT64_MAX in *. symmetry. apply Z.mod_unique with 1; lia. }
  apply Z.div_small. unfold UINT64_MAX in *. lia.
Qed.

End StatsSink.

(** ** Concrete plugins *)

Section Examples.

#[local] Existing Instances uri_env_documented absl_documented.

Definition demo_header_env : HeaderMapEnv := {|
  LowerCaseString := lower_case;
  header_get name headers := filter (fun h => h.1 = name) headers;
  getResponseStatus headers :=
    match filter (fun h : string * string => h.1 = ":status"%string) headers with
    | (_, v) :: _ => match atoi_u64 v with
                     | Some code => Ok code
                     | None => Throw (EnvoyException ":status must be specified and a valid unsigned long")
                     end
    | [] => Throw (EnvoyException ":status must be specified and a valid unsigned long")
    end;
|}.

#[local] Existing Instance demo_header_env.

Lemma demo_header_laws : HeaderMapLaws.
Proof. done. Qed.

#[local] Existing Instance demo_header_laws.

Definition demo_log_config : LogResponseHeadersConfig := mkLogConfig ["X-B"; "x-a"]%string LM_SKIP_200_LEVEL_RESPONSES.

Definition demo_response : list (string * string) :=
  [(":status", "503"); ("x-a", "1"); ("x-b", "2"); ("x-c", "3"); ("x-a", "4")]%string.

(** Both values of one header and the one of the other. *)
Lemma response_headers_logged_witness :
  [("x-b", "2"); ("x-a", "1"); ("x-a", "4")]%string ≡ₚ
  filter (fun h => h.1 ∈ LowerCaseString <$> log_headers_with_name demo_log_config) demo_response.
Proof.
  destruct (response_headers_logged (inr demo_log_config) demo_log_config demo_response 503
    [("x-b", "2"); ("x-a", "1"); ("x-a", "4")]%string) as (_ & _ & Hl); [vm_compute; reflexivity..|].
  apply Hl; [intros [_ Hs]; lia|done].
Defined.

Definition demo_factory : PluginFactory (Config := string) (Plugin := string) :=
  mkFactory "demo" (fun config n => inr (config +:+ fmt_u64 n)).

(** Two workers, two plugins of one factory. *)
Lemma plugins_collected_witness :
  let plugins := [[("demo", "a0"); ("demo", "b0")]; [("demo", "a1"); ("demo", "b1")]]%string in
  let outputs := map (BenchmarkClientHttpImpl_getUserDefinedOutputResults inr) plugins in
  Forall (fun name => outputs_of name (concat outputs) <> []) ["demo"; "demo"]%string.
Proof.
  cbv zeta.
  destruct (plugins_collected inr (fun _ _ => inl "none"%string) [("a"%string, demo_factory); ("b"%string, demo_factory)] [0; 1]
    [[("demo", "a0"); ("demo", "b0")]; [("demo", "a1"); ("demo", "b1")]]%string) as (_ & Hf & _);
    [done|repeat constructor|]. exact Hf.
Defined.

(** 1500 nanoseconds are two microseconds. *)
Lemma sink_latency_witness :
  let '(view, us) := EnvoyStatsSinkAdapter_onHistogramComplete fmt_u64 "envoy.cluster_name"
                       (SinkableStatistic_histogram fmt_u64 (Some 3) "latency") 1500 in
  us = 2 /\ hist_name view = "cluster.3.latency"%string.
Proof.
  pose proof (sink_latency fmt_u64 "envoy.cluster_name" (Some 3) "latency" 1500) as Hs.
  destruct (EnvoyStatsSinkAdapter_onHistogramComplete _ _ _ _) as [view us].
  destruct Hs as (_ & Hus & Hn & _); [vm_compute; split; discriminate|]. split; [lia|exact Hn].
Defined.

End Examples.
