(* ===== verification/ClientPool.v ===== *)
(** * Connection pools and the statistics of a worker

    Models [Http1PoolImpl::newStream] and the statistics the HTTP client hands out
    ([engine/source/client/benchmark_client_impl.cc]), the pool a cluster is given
    ([ClusterManagerFactory] of [engine/source/client/process_impl.cc]), and the
    statistics of a worker ([engine/source/client/client_worker_impl.cc],
    [engine/source/common/sequencer_impl.cc]).

    The pool of Envoy is an argument: what an attempt to open a connection comes to,
    and what its own [newStream] does. *)

From stdpp Require Import gmap strings.
From S2P Require Import Prelude Text Statistic BenchmarkClient Sequencer Options.

(** ** Pools *)

Inductive ConnectionReuseStrategy : Type := MRU | LRU.

#[export] Instance ConnectionReuseStrategy_eq_dec : EqDecision ConnectionReuseStrategy.
Proof. solve_decision. Defined.

(** Envoy's [ConnectionResult]: [CreatedNewConnection], or one of the others, and
    whether a connection is counted all the same. *)
Inductive ConnectionResult : Type := CreatedNewConnection | OtherResult (counted : bool).

(** [pool_connections]: the connections the resource manager counts against
    [pool_limit]; [pool_ready]: [ready_clients_], the most recently used first;
    [pool_attached]: the clients a stream was attached to, latest first. *)
Record Http1PoolImpl : Type := mkPool {
  connection_reuse_strategy_ : ConnectionReuseStrategy;
  prefetch_connections_ : bool;
  pool_connections : Z;
  pool_limit : Z;
  pool_ready : list Z;
  pool_attached : list Z;
}.

Definition canCreate (p : Http1PoolImpl) : bool := pool_connections p <? pool_limit p.

(** [tryCreateNewConnection]: the answer to the [i]-th attempt; a connection that
    was created is counted. *)
Definition tryCreateNewConnection (answers : nat -> ConnectionResult) (i : nat) (p : Http1PoolImpl) :
    ConnectionResult * Http1PoolImpl :=
  let counted := match answers i with CreatedNewConnection => true | OtherResult counted => counted end in
  (answers i,
   mkPool (connection_reuse_strategy_ p) (prefetch_connections_ p) (pool_connections p + (if counted then 1 else 0)) (pool_limit p)
     (pool_ready p) (pool_attached p)).

(** The loop of the prefetch; [None] when the fuel runs out. *)
Fixpoint prefetch_loop (answers : nat -> ConnectionResult) (i fuel : nat) (p : Http1PoolImpl) : option Http1PoolImpl :=
  if canCreate p then
    match fuel with
    | O => None
    | S fuel =>
        let '(result, p) := tryCreateNewConnection answers i p in
        match result with
        | CreatedNewConnection => prefetch_loop answers (S i) fuel p
        | _ => Some p
        end
    end
  else Some p.

(** What becomes of the stream: it is attached to a ready client, or it is left to
    Envoy's pool. *)
Inductive NewStream : Type := AttachedTo (client : Z) | VanillaPool.

(** [attachStreamToClient] takes the client off the ready ones. *)
Definition attachStreamToClient (client : Z) (p : Http1PoolImpl) : Http1PoolImpl :=
  mkPool (connection_reuse_strategy_ p) (prefetch_connections_ p) (pool_connections p) (pool_limit p)
    (removelast (pool_ready p)) (client :: pool_attached p).

Definition prefetch_fuel (p : Http1PoolImpl) : nat := Z.to_nat (pool_limit p - pool_connections p).

Definition Http1PoolImpl_newStream (answers : nat -> ConnectionResult) (p : Http1PoolImpl) : option (NewStream * Http1PoolImpl) :=
  let prefetched := if prefetch_connections_ p then prefetch_loop answers 0 (prefetch_fuel p) p else Some p in
  match prefetched with
  | None => None
  | Some p =>
      match last (pool_ready p) with
      | Some oldest =>
          if bool_decide (connection_reuse_strategy_ p = LRU)
          then Some (AttachedTo oldest, attachStreamToClient oldest p)
          else Some (VanillaPool, p)
      | None => Some (VanillaPool, p)
      end
  end.

(** [allocateConnPool]: this program's pool for HTTP/1, Envoy's otherwise. *)
Inductive PoolKind : Type := OurHttp1Pool (strategy : ConnectionReuseStrategy) (prefetch : bool) | EnvoyPool (p : Protocol).

Definition ClusterManagerFactory_allocateConnPool (strategy : ConnectionReuseStrategy) (prefetch : bool)
    (protocols : list Protocol) : outcome PoolKind :=
  match protocols with
  | [p] => Ok (match p with
               | Http11 | Http10 => OurHttp1Pool strategy prefetch
               | _ => EnvoyPool p
               end)
  | _ => Panic "Expected a single protocol in protocols vector."
  end.

(** The settings [runInternal] makes. *)
Definition pool_settings `{Messages} (o : OptionsImpl) : ConnectionReuseStrategy * bool :=
  (if bool_decide (o_h1_connection_reuse_strategy o = REUSE_LRU) then LRU else MRU, o_prefetch_connections o).

(** ** Theorems on pools *)

(** An attempt changes the count alone. *)
Lemma try_create answers i p result p' :
  tryCreateNewConnection answers i p = (result, p') ->
  result = answers i /\ pool_connections p <= pool_connections p' <= pool_connections p + 1 /\
  (result = CreatedNewConnection -> pool_connections p' = pool_connections p + 1) /\ pool_limit p' = pool_limit p /\
  pool_ready p' = pool_ready p /\ pool_attached p' = pool_attached p /\
  connection_reuse_strategy_ p' = connection_reuse_strategy_ p.
Proof.
  unfold tryCreateNewConnection. intros [= <- <-]. cbn. destruct (answers i) as [|[]]; split_and!; try done; lia.
Qed.

(** Enough fuel is the room there is, and the loop ends with no room or at the
    first attempt that did not create a connection. *)
Lemma prefetch_loop_ends answers i fuel p :
  pool_limit p - pool_connections p <= Z.of_nat fuel ->
  exists p', prefetch_loop answers i fuel p = Some p' /\
    pool_connections p <= pool_connections p' <= Z.max (pool_connections p) (pool_limit p) /\ pool_limit p' = pool_limit p /\
    pool_ready p' = pool_ready p /\ pool_attached p' = pool_attached p /\
    connection_reuse_strategy_ p' = connection_reuse_strategy_ p /\
    (pool_limit p <= pool_connections p' \/ exists k, (i <= k)%nat /\ answers k <> CreatedNewConnection).
Proof.
  revert i p. induction fuel as [|fuel IH]; intros i p Hf; cbn [prefetch_loop]; unfold canCreate.
  - destruct (Z.ltb_spec (pool_connections p) (pool_limit p)); [lia|]. exists p. split_and!; try done; lia.
  - destruct (Z.ltb_spec (pool_connections p) (pool_limit p)) as [Hlt|Hge].
    2: { exists p. split_and!; try done; lia. }
    destruct (tryCreateNewConnection answers i p) as [result p1] eqn:Et.
    apply try_create in Et as (-> & Hc & Hc1 & El & Er & Eatt & Es). destruct (answers i) as [|counted] eqn:Ea.
    + specialize (Hc1 eq_refl). destruct (IH (S i) p1 ltac:(lia)) as (p' & -> & Hb & Hl & Hr & Hat & Hs & He). exists p'.
      rewrite El, Hc1 in *. split_and!; try congruence; try lia.
      destruct He as [He|(k & Hk & He)]; [by left|]. right. exists k. split; [lia|done].
    + exists p1. split_and!; try done; try lia. right. exists i. split; [lia|]. by rewrite Ea.
Qed.

(** A new stream on an HTTP/1 connection always gets through the pool, the
    loop that opens connections ahead having at most as many turns as there is
    room for connections. With that loop, the pool is full afterwards or the last
    attempt failed, and it is never over its limit; without it no connection is
    opened here. The stream goes to the connection that was idle longest when that
    strategy is set and some connection is ready, and that connection alone is no
    longer ready; otherwise Envoy's own pool decides. *)
Lemma new_stream_placed answers p :
  pool_connections p <= pool_limit p ->
  exists placed p', Http1PoolImpl_newStream answers p = Some (placed, p') /\
    pool_connections p <= pool_connections p' <= pool_limit p /\
    (if prefetch_connections_ p
     then pool_connections p' = pool_limit p \/ exists k, answers k <> CreatedNewConnection
     else pool_connections p' = pool_connections p) /\
    match placed with
    | AttachedTo c => connection_reuse_strategy_ p = LRU /\ pool_ready p = pool_ready p' ++ [c] /\ pool_attached p' = c :: pool_attached p
    | VanillaPool => (connection_reuse_strategy_ p = MRU \/ pool_ready p = []) /\ pool_ready p' = pool_ready p /\
        pool_attached p' = pool_attached p
    end.
Proof.
  intros Hle. unfold Http1PoolImpl_newStream.
  assert (exists p1, (if prefetch_connections_ p then prefetch_loop answers 0 (prefetch_fuel p) p else Some p) = Some p1 /\
    pool_connections p <= pool_connections p1 <= pool_limit p /\ pool_ready p1 = pool_ready p /\ pool_attached p1 = pool_attached p /\
    connection_reuse_strategy_ p1 = connection_reuse_strategy_ p /\
    (if prefetch_connections_ p
     then pool_connections p1 = pool_limit p \/ exists k, answers k <> CreatedNewConnection
     else pool_connections p1 = pool_connections p)) as (p1 & -> & Hb & Hr & Ha & Hs & Hp).
  { destruct (prefetch_connections_ p); [|exists p; split_and!; (done || lia)].
    destruct (prefetch_loop_ends answers 0 (prefetch_fuel p) p) as (p1 & E & Hb & _ & Hr & Ha & Hs & He);
      [unfold prefetch_fuel; lia|]. exists p1. split_and!; try done; try lia.
    destruct He as [He|(k & _ & He)]; [left; lia|right; by exists k]. }
  rewrite Hr. destruct (last (pool_ready p)) as [c|] eqn:El.
  - rewrite Hs. case_bool_decide as Hst.
    + eexists (AttachedTo c), _. split; [done|]. cbn. split_and!; try done; try lia; [|by rewrite Ha].
      apply last_Some in El as [l El]. by rewrite Hr, El, removelast_last.
    + eexists VanillaPool, p1. split; [done|]. split_and!; try done; try lia. left. by destruct (connection_reuse_strategy_ p).
  - eexists VanillaPool, p1. split; [done|]. split_and!; try done; try lia. right. by apply last_None in El.
Qed.

(** ** The statistics of a worker *)

(** [statistics()] of the HTTP client, by the names its constructor sets. *)
Definition BenchmarkClientHttpImpl_statistics (s : BenchmarkClientStatistic) : gmap string (list Z) :=
  list_to_map
    [("benchmark_http_client.queue_to_connect"%string, connect_statistic s);
     ("benchmark_http_client.request_to_response"%string, response_statistic s);
     ("benchmark_http_client.response_header_size"%string, response_header_size_statistic s);
     ("benchmark_http_client.response_body_size"%string, response_body_size_statistic s);
     ("benchmark_http_client.latency_1xx"%string, latency_1xx_statistic s);
     ("benchmark_http_client.latency_2xx"%string, latency_2xx_statistic s);
     ("benchmark_http_client.latency_3xx"%string, latency_3xx_statistic s);
     ("benchmark_http_client.latency_4xx"%string, latency_4xx_statistic s);
     ("benchmark_http_client.latency_5xx"%string, latency_5xx_statistic s);
     ("benchmark_http_client.latency_xxx"%string, latency_xxx_statistic s);
     ("benchmark_http_client.origin_latency_statistic"%string, origin_latency_statistic s);
     ("benchmark_http_client.latency_grpc_ok"%string, latency_grpc_ok_statistic s)].

Definition SequencerImpl_statistics {R} (s : SequencerImpl R) : gmap string (list Z) :=
  list_to_map [("sequencer.callback"%string, latency_statistic_ s); ("sequencer.blocking"%string, blocked_statistic_ s)].

(** [std::map::insert] keeps what is there. *)
Definition ClientWorkerImpl_statistics {R} (c : BenchmarkClientStatistic) (s : SequencerImpl R) : gmap string (list Z) :=
  BenchmarkClientHttpImpl_statistics c ∪ SequencerImpl_statistics s.

(** Nothing is lost on the way: all fourteen statistics are in the map. *)
Lemma worker_statistics_all {R} (c : BenchmarkClientStatistic) (s : SequencerImpl R) :
  size (ClientWorkerImpl_statistics c s) = 14%nat /\
  ClientWorkerImpl_statistics c s !! "sequencer.callback"%string = Some (latency_statistic_ s) /\
  ClientWorkerImpl_statistics c s !! "sequencer.blocking"%string = Some (blocked_statistic_ s) /\
  ClientWorkerImpl_statistics c s !! "benchmark_http_client.request_to_response"%string = Some (response_statistic c).
Proof. destruct c, s. split_and!; vm_compute; reflexivity. Qed.

(** ** Witnesses *)

(** Room for two more connections, the second of which fails; the oldest ready
    connection is taken. *)
Lemma new_stream_placed_witness :
  let p := mkPool LRU true 1 3 [7; 5] [] in
  let answers i := match i with O => CreatedNewConnection | _ => OtherResult false end in
  Http1PoolImpl_newStream answers p = Some (AttachedTo 5, mkPool LRU true 2 3 [7] [5]) /\
  exists placed p', Http1PoolImpl_newStream answers p = Some (placed, p') /\ 1 <= pool_connections p' <= 3.
Proof.
  cbv zeta. split; [reflexivity|].
  destruct (new_stream_placed (fun i => match i with O => CreatedNewConnection | _ => OtherResult false end)
    (mkPool LRU true 1 3 [7; 5] [])) as (placed & p' & E & Hb & _); [by cbn|]. by exists placed, p'.
Defined.
