(* ===== verification/Executables.v ===== *)
(** * The programs

    Models what the executables do around the components: a run on a remote service
    ([engine/source/client/remote_process_impl.cc] and
    [engine/source/common/nighthawk_service_client_impl.cc]), the creation of a
    process, its tracing and its [run()] ([engine/source/client/process_impl.cc]),
    the main programs of the client ([client.cc]), of the service
    ([service_main.cc]) and of the transformation of outputs
    ([output_transform_main.cc]), and the utilities they use ([parseCommand] and
    [GetAvailablePort] of [engine/source/common/utility.cc]).

    gRPC, the terminal, JSON and the system calls are arguments. *)

From stdpp Require Import gmap strings.
From S2P Require Import Prelude Text Uri Statistic BenchmarkClient BackendName Worker Process.
From S2P Require Import Options OptionsMessages OptionsProofs OptionsCommandLine OptionsTheorems ClientFactory Bootstrap BootstrapProofs.

(** ** Command lines *)

(** What TCLAP does with the arguments: it parses them, throws an [ArgException],
    after which [failure] prints and throws an [ExitException] or returns, or, for
    [--help] and [--version], throws an [ExitException]. *)
Inductive Parse : Type := Parsed | ArgError (what : string) (failure_exits : bool) | Exited.

Definition Utility_parseCommand (p : Parse) : outcome unit :=
  match p with
  | Parsed => Ok tt
  | ArgError what true => Throw (MalformedArgvException what)
  | ArgError _ false => Ok tt
  | Exited => Throw NoServingException
  end.

(** ** A port that is free *)

Inductive BindAnswer : Type := Bound | AddressInUse | BindFailed (details : string).

(** What the system answers, and the port in host order. *)
Record SocketCalls : Type := mkSocketCalls {
  call_socket : option string;
  call_setsockopt : option string;
  call_bind : BindAnswer;
  call_getsockname : option string;
  call_port : Z;
  call_close : option string;
}.

(** The port, and whether the socket is left open. [None] of a call is success. *)
Definition Utility_GetAvailablePort (calls : SocketCalls) : outcome Z * bool :=
  match call_socket calls with
  | Some details => (Throw (NighthawkException ("could not create socket: " +:+ details)), false)
  | None =>
      match call_setsockopt calls with
      | Some details => (Throw (NighthawkException ("setsockopt: " +:+ details)), true)
      | None =>
          match call_bind calls with
          | AddressInUse => (Throw (NighthawkException "Port allocated already in use"), true)
          | BindFailed details => (Throw (NighthawkException ("Could not bind to process: " +:+ details)), true)
          | Bound =>
              match call_getsockname calls with
              | Some details => (Throw (NighthawkException ("Could not get sock name: " +:+ details)), true)
              | None =>
                  let port := u16 (call_port calls) in
                  match call_close calls with
                  | Some details => (Throw (NighthawkException ("Could not close socket: " +:+ details)), true)
                  | None => (Ok port, false)
                  end
              end
          end
      end
  end.

(** It returns a port or throws, as the constructors of the options assume; a
    failure after the socket was created leaks it. *)
Lemma available_port calls :
  let '(r, leaked) := Utility_GetAvailablePort calls in
  returns r /\ (forall p, r = Ok p -> 0 <= p < 65536 /\ leaked = false) /\
  (leaked = false -> is_Some (call_socket calls) \/ exists p, r = Ok p).
Proof.
  unfold Utility_GetAvailablePort. repeat case_match; simplify_eq; split_and!; try done; intros; simplify_eq/=; eauto.
  split; [|done]. apply Z.mod_pos_bound. lia.
Qed.

(** ** Remote runs *)

(** What one call of the service comes to. *)
Record Exchange (Response : Type) : Type := mkExchange {
  wrote : bool;
  writes_done : bool;
  responses : list Response;
  finished : option string;
}.

Arguments mkExchange {Response}.
Arguments wrote {Response}.
Arguments writes_done {Response}.
Arguments responses {Response}.
Arguments finished {Response}.

Section Remote.
Context `{MessagesLaws} `{TimeUtilLaws} `{RequestMethodsLaws} `{SystemClock} `{AbslMatch} `{UriEnv} `{AbslStrings}
        `{CommandLineEnv} {CL : CommandLineLaws}.
Context (message_error : OptionsMessage -> option string).
Context (GetAvailablePort : bool -> AddressFamilyOptions -> outcome Z).

(** [options->mutable_nighthawk_service()->Clear()]. *)
Definition clear_service (m : OptionsMessage) : OptionsMessage := {|
  m_requests_per_second := m_requests_per_second m;
  m_connections := m_connections m;
  m_duration_options := m_duration_options m;
  m_timeout := m_timeout m;
  m_protocol := m_protocol m;
  m_tunnel_options := m_tunnel_options m;
  m_grpc_mode := m_grpc_mode m;
  m_grpc_stream := m_grpc_stream m;
  m_websocket := m_websocket m;
  m_tcp := m_tcp m;
  m_udp := m_udp m;
  m_http3_protocol_options := m_http3_protocol_options m;
  m_concurrency := m_concurrency m;
  m_verbosity := m_verbosity m;
  m_output_format := m_output_format m;
  m_prefetch_connections := m_prefetch_connections m;
  m_burst_size := m_burst_size m;
  m_address_family := m_address_family m;
  m_request := m_request m;
  m_tls_context := m_tls_context m;
  m_max_pending_requests := m_max_pending_requests m;
  m_max_active_requests := m_max_active_requests m;
  m_max_requests_per_connection := m_max_requests_per_connection m;
  m_sequencer_idle_strategy := m_sequencer_idle_strategy m;
  m_uri := m_uri m;
  m_trace := m_trace m;
  m_h1_connection_reuse_strategy := m_h1_connection_reuse_strategy m;
  m_termination_predicates := m_termination_predicates m;
  m_failure_predicates := m_failure_predicates m;
  m_no_default_failure_predicates := m_no_default_failure_predicates m;
  m_open_loop := m_open_loop m;
  m_jitter_uniform := m_jitter_uniform m;
  m_nighthawk_service := Some EmptyString;
  m_h2_use_multiple_connections := m_h2_use_multiple_connections m;
  m_max_concurrent_streams := m_max_concurrent_streams m;
  m_labels := m_labels m;
  m_upstream_bind_config := m_upstream_bind_config m;
  m_transport_socket := m_transport_socket m;
  m_simple_warmup := m_simple_warmup m;
  m_stats_sinks := m_stats_sinks m;
  m_stats_flush := m_stats_flush m;
  m_latency_response_header_name := m_latency_response_header_name m;
  m_scheduled_start := m_scheduled_start m;
  m_execution_id := m_execution_id m;
  m_user_defined_plugin_configs := m_user_defined_plugin_configs m;
  m_rate_limiter_plugin_config := m_rate_limiter_plugin_config m;
|}.

(** A status, [inl], or the response. *)
Definition PerformNighthawkBenchmark {Response} (service : OptionsMessage -> Exchange Response) (options : OptionsMessage) :
    outcome (string + Response) :=
  let e := service options in
  if negb (wrote e) then Ok (inl "Failed to write request to the Nighthawk Service gRPC channel."%string)
  else if negb (writes_done e) then Ok (inl "WritesDone() failed on the Nighthawk Service gRPC channel."%string)
  else match responses e with
       | [] => Ok (inl "Nighthawk Service did not send a gRPC response."%string)
       | [response] => match finished e with Some status => Ok (inl status) | None => Ok (inr response) end
       | _ :: _ :: _ => Panic "Nighthawk Service has started responding with more than one message."
       end.

(** What the collector is given, if anything; [run()] returns whether it was. *)
Definition RemoteProcessImpl_run {Response} (service : OptionsMessage -> Exchange Response) (o : OptionsImpl) :
    outcome (option Response) :=
  let* options := toCommandLineOptionsInternal o in
  let* result := PerformNighthawkBenchmark service (clear_service options) in
  match result with
  | inr response => Ok (Some response)
  | inl _ => Ok None
  end.

Definition RemoteProcessImpl_requestExecutionCancellation : bool := false.







(** A service that sends more than one message ends the client. *)
Lemma remote_second_response {Response} (service : OptionsMessage -> Exchange Response) o m a b rest :
  toCommandLineOptionsInternal o = Ok m -> wrote (service (clear_service m)) = true ->
  writes_done (service (clear_service m)) = true -> responses (service (clear_service m)) = a :: b :: rest ->
  exists what, RemoteProcessImpl_run service o = Panic what.
Proof.
  intros Hm Hw Hd Hr. unfold RemoteProcessImpl_run, PerformNighthawkBenchmark. rewrite Hm. cbn [obind].
  rewrite Hw, Hd, Hr. by eexists.
Qed.

End Remote.

(** ** Processes *)

(** How [process->run()] ends: it returns, or an exception leaves it, the process
    being what it then is. *)
Inductive RunEnd (P : Type) : Type := RunDone (result : bool) (p : P) | RunThrew (e : exn) (p : P).

Arguments RunDone {P}.
Arguments RunThrew {P}.

Section Processes.
Context `{MessagesLaws} `{TimeUtilLaws} `{RequestMethodsLaws} `{SystemClock} `{AbslMatch} `{UriEnv} `{AbslStrings}
        `{CommandLineEnv} {CL : CommandLineLaws}.
Context (message_error : OptionsMessage -> option string).
Context (GetAvailablePort : bool -> AddressFamilyOptions -> outcome Z).
Context (dns : string -> DnsLookupFamily -> option (list (string * ip_version))).

(** *** Tracing *)

(** [ZipkinConfig] and the name of the driver. *)
Record TracingConfig : Type := mkTracing { tr_name : string; tr_collector_cluster : string; tr_collector_endpoint : string }.

Definition setupTracingImplementation (uri : UriImpl) : outcome TracingConfig :=
  if (scheme_ uri =? "zipkin")%string then Ok (mkTracing ("envoy." +:+ scheme_ uri) "tracing" (path_ uri))
  else Panic "Only zipkin is supported".

Definition addTracingCluster (o : OptionsImpl) (uri : ResolvedUri) (clusters : list Cluster) : list Cluster :=
  clusters ++ [mkCluster "tracing" (o_timeout o) None None [addUriToEndpoints uri] None].

(** The part of the set-up of a run that adds tracing. *)
Definition run_tracing (o : OptionsImpl) (tracing_uri : option ResolvedUri) (clusters : list Cluster) :
    outcome (option TracingConfig * list Cluster) :=
  match tracing_uri with
  | None => Ok (None, clusters)
  | Some uri =>
      let* tracing := setupTracingImplementation (ru_uri uri) in
      Ok (Some tracing, addTracingCluster o uri clusters)
  end.

(** [run()]: [resolver_ok], and [runInternal], which is given the tracing URI. An
    exception of [runInternal] is logged and thrown on. *)
Definition ProcessImpl_run (resolver_ok : bool) (o : OptionsImpl) (runInternal : option ResolvedUri -> outcome bool) : outcome bool :=
  if negb resolver_ok then Ok false
  else
    let tracing := (if (o_trace o =? EmptyString)%string then Ok None
                    else let* u := UriImpl_new (o_trace o) "http" in let* r := resolve_uri dns o u in Ok (Some r)) in
    match tracing with
    | Ok tracing_uri => runInternal tracing_uri
    | Throw (UriException _) => Ok false
    | Throw e => Throw e
    | Panic w => Panic w
    | Undefined => Undefined
    end.

(** *** Creation *)

(** A process as [CreateProcessImpl] hands it out. *)
Record CreatedProcess (Factory : Type) : Type := mkCreated {
  cp_workers : Z;
  cp_bootstrap : BootstrapConfig;
  cp_factories : list Factory;
  cp_process : ProcessImpl;
}.

Arguments mkCreated {Factory}.

(** [pairs]: [getUserDefinedFactoryConfigPairs(options)]. A process that is not
    handed out is shut down before it is destroyed. *)
Definition CreateProcessImpl {Factory} (cpus : Z) (resolver : option string) (pairs : outcome (list Factory)) (o : OptionsImpl) :
    outcome (string + CreatedProcess Factory) :=
  let* number_of_workers := determineConcurrency cpus (o_concurrency o) in
  let process := ProcessImpl_new in
  let* bootstrap := createBootstrapConfiguration dns resolver o (Z.to_nat number_of_workers) in
  match bootstrap with
  | inl status =>
      let* process := ProcessImpl_shutdown process in
      ProcessImpl_delete process ;;; Ok (inl status)
  | inr bootstrap =>
      match pairs with
      | Ok factories => Ok (inr (mkCreated number_of_workers bootstrap factories process))
      | Throw e => ProcessImpl_delete process ;;; Throw e
      | Panic w => Panic w
      | Undefined => Undefined
      end
  end.

(** ** The client *)

(** The end of [Main::run()] once there is a process: what is printed and the
    result. [format]: what the formatter makes of the output, [None] when it has an
    error. An exception leaves through the destructor of the process. *)
Definition Main_finish {P} (shutdown : P -> outcome P) (delete : P -> outcome unit) (o : OptionsImpl)
    (format : OutputFormatterPtr -> option string) (e : RunEnd P) : outcome (option string * bool) :=
  match e with
  | RunThrew e p => delete p ;;; Throw e
  | RunDone result p =>
      let* formatter := OutputFormatterFactoryImpl_create (o_output_format o) in
      let result := match format formatter with Some _ => result | None => false end in
      let* p := shutdown p in
      delete p ;;; Ok (format formatter, result)
  end.

(** [Main::run()]: [remote] runs on the service at an address, [local] creates a
    process here. *)
Definition Main_run (o : OptionsImpl) (remote : string -> outcome (option string * bool))
    (local : outcome (string + ProcessImpl)) (run : ProcessImpl -> RunEnd ProcessImpl)
    (format : OutputFormatterPtr -> option string) : outcome (option string * bool) :=
  if negb (o_nighthawk_service o =? EmptyString)%string then
    match UriImpl_new (o_nighthawk_service o) "http" with
    | Ok u => remote (host_without_port_ u +:+ ":" +:+ fmt_u64 (port_ u))
    | Throw (UriException _) => Ok (None, false)
    | Throw e => Throw e
    | Panic w => Panic w
    | Undefined => Undefined
    end
  else
    let* created := local in
    match created with
    | inl _ => Ok (None, false)
    | inr p => Main_finish ProcessImpl_shutdown ProcessImpl_delete o format (run p)
    end.

(** ** Theorems *)

Lemma constructed_concurrency o :
  constructed message_error GetAvailablePort o -> o_concurrency o = "auto"%string \/ exists c, numeric_concurrency o c.
Proof.
  intros Hv%constructed_validated. apply OptionsImpl_validate_Ok in Hv as ((_ & _ & _ & _ & _ & Hn & _) & _). by apply valid_concurrency.
Qed.

Lemma stoi_range s c : stoi s = Some c -> - 2 ^ 31 <= c < 2 ^ 31.
Proof.
  unfold stoi. destruct (match strip_leading s with EmptyString => _ | String _ _ => _ end) as [neg t].
  destruct (leading_digits 0 t) as [v any]. destruct (_ && _ && _) eqn:E; [|done]. intros [= <-]. b2p. lia.
Qed.

Lemma workers_determined cpus o :
  constructed message_error GetAvailablePort o -> 1 <= cpus < 2 ^ 32 ->
  exists n, determineConcurrency cpus (o_concurrency o) = Ok n /\ 1 <= n < 2 ^ 32.
Proof.
  intros Ho Hcpus. unfold determineConcurrency. destruct (constructed_concurrency o Ho) as [->|(c & Hc & Hpos)]; [by exists cpus|].
  destruct (String.eqb_spec (o_concurrency o) "auto"); [by exists cpus|]. rewrite Hc. exists (u32 c). split; [done|].
  pose proof (stoi_range _ _ Hc). unfold u32, wrap_u. rewrite Z.mod_small; lia.
Qed.

(** From options a constructor has made, a process is created or a status is
    returned, nothing else, given the plugins that are asked for are registered;
    a process that is handed out has at least one worker and a configuration with
    the cluster of every worker it will start. One that is not handed out has been
    shut down before it is destroyed. *)
Lemma process_created {Factory} cpus resolver (factories : list Factory) o :
  constructed message_error GetAvailablePort o -> known_family o -> 1 <= cpus < 2 ^ 32 ->
  exists r, CreateProcessImpl cpus resolver (Ok factories) o = Ok r /\
    match r with
    | inl _ => True
    | inr c => 1 <= cp_workers _ c /\ cp_factories _ c = factories /\
        forall i, 0 <= i < cp_workers _ c -> exists cluster, cluster ∈ bs_clusters (cp_bootstrap _ c) /\ cl_name cluster = fmt_u64 i
    end.
Proof.
  intros Ho Hf Hcpus. destruct (workers_determined cpus o Ho Hcpus) as (n & Hn & Hr). unfold CreateProcessImpl. rewrite Hn. cbn [obind].
  destruct (bootstrap_total message_error GetAvailablePort dns resolver o (Z.to_nat n) Ho Hf) as [b Hb]. rewrite Hb. cbn [obind].
  destruct b as [status|b].
  - exists (inl status). split; [|done]. vm_compute. reflexivity.
  - eexists (inr _). split; [done|]. cbn. split_and!; [lia|done|]. intros i Hi.
    apply bootstrap_inv in Hb as (uris & encap & source & socket & _ & _ & ->).
    exists (main_cluster o (worker_targets o uris encap) socket i). split.
    + apply list_elem_of_bind. exists i. split; [apply list_elem_of_here|]. apply elem_of_seqZ. lia.
    + pose proof (names_of o (worker_targets o uris encap) source socket i) as E. by injection E.
Qed.

(** C16. A run of the client that returned is wound up cleanly: whatever its result
    was, the output is formatted and printed, the process is shut down and then
    destroyed, with every thread joined and no assertion failing; the result is
    that of the run, or failure when the output could not be formatted. *)
Theorem client_winds_up o s result format formatter :
  process_reachable s -> run_returned (pr_pc s) = true -> OutputFormatterFactoryImpl_create (o_output_format o) = Ok formatter ->
  Main_finish ProcessImpl_shutdown ProcessImpl_delete o format (RunDone result (pr_process s)) =
    Ok (format formatter, result && bool_decide (is_Some (format formatter))).
Proof.
  intros Hs Hret Hfmt. destruct (reachable_shutdown s Hs Hret) as (p & E & _ & _ & Hd & _). cbn. rewrite Hfmt. cbn [obind].
  rewrite E. cbn [obind]. rewrite Hd. cbn [obind]. destruct (format formatter); cbn; [by rewrite andb_true_r|by rewrite andb_false_r].
Qed.

(** *** Behaviour to be aware of *)

(** A trace URI is never checked: any scheme but [zipkin], the one of a text
    without a scheme included, ends the process when the run is set up. *)
Lemma trace_scheme_panics o uri clusters :
  scheme_ (ru_uri uri) <> "zipkin"%string -> run_tracing o (Some uri) clusters = Panic "Only zipkin is supported".
Proof. intros Hs. cbn. unfold setupTracingImplementation. by destruct (String.eqb_spec (scheme_ (ru_uri uri)) "zipkin"). Qed.

(** With it the clusters keep their names apart. *)
Lemma tracing_cluster_apart {UL : UriEnvLaws} o uri resolver n b :
  Z.of_nat n <= 2 ^ 64 -> createBootstrapConfiguration dns resolver o n = Ok (inr b) ->
  NoDup (cl_name <$> addTracingCluster o uri (bs_clusters b)).
Proof.
  intros Hn Hb. apply bootstrap_inv in Hb as (uris & encap & source & socket & _ & _ & ->).
  unfold addTracingCluster. rewrite fmap_app. apply NoDup_app. split_and!; [by apply names_unique| |apply NoDup_singleton].
  intros name Hname. cbn. rewrite list_elem_of_singleton. intros ->. rewrite fmap_bind_list in Hname.
  apply list_elem_of_bind in Hname as (i & Hi & Hr%elem_of_seqZ). rewrite names_of in Hi. unfold worker_names in Hi.
  assert (in_u64 i) as Hu by (unfold in_u64, UINT64_MAX; lia). pose proof (fmt_digits i Hu) as Hd.
  apply elem_of_cons in Hi as [E|Hi]; [rewrite <- E in Hd; by destruct Hd|].
  destruct source; [|by apply elem_of_nil in Hi]. apply list_elem_of_singleton in Hi.
  destruct (fmt_u64 i) as [|c rest]; [done|]. rewrite sapp_cons in Hi. injection Hi as <- _. by destruct Hd.
Qed.

End Processes.

(** ** The transformation of outputs *)

Section Transform.
Context `{RequestMethods} `{AbslStrings} `{CommandLineEnv} {CL : CommandLineLaws}.

(** The exit code and what is printed. [loaded]: the output read as JSON, or what
    is wrong with it. *)
Definition OutputTransformMain_run {Output} (output_format : string) (loaded : string + Output)
    (format : OutputFormatterPtr -> Output -> option string) : outcome (Z * option string) :=
  match parse_name OutputFormatOptions_names (AsciiStrToUpper output_format) with
  | None => Panic "Invalid output format"
  | Some translated_format =>
      match loaded with
      | inl _ => Ok (1, None)
      | inr output =>
          let* formatter := OutputFormatterFactoryImpl_create translated_format in
          match format formatter output with
          | None => Ok (1, None)
          | Some text => Ok (0, Some text)
          end
      end
  end.

(** Every format TCLAP allows has a formatter. *)
Lemma allowed_format_known f :
  f ∈ getLowerCaseOutputFormats ->
  exists translated formatter, parse_name OutputFormatOptions_names (AsciiStrToUpper f) = Some translated /\
    OutputFormatterFactoryImpl_create translated = Ok formatter.
Proof.
  unfold getLowerCaseOutputFormats. cbn. rewrite !lower_documented. cbn. rewrite !elem_of_cons, elem_of_nil. intros Hf.
  destruct_or! Hf; try done; subst f; rewrite upper_documented; do 2 eexists; (split; [vm_compute; reflexivity|reflexivity]).
Qed.

(** The transformation of an output ends with an exit code for every format its
    command line allows and every input: zero and the formatted output, or one and
    nothing printed, which is the case when the input is no output or the formatter
    reports an error. *)
Lemma output_transformed {Output} f (loaded : string + Output) format :
  f ∈ getLowerCaseOutputFormats ->
  exists formatter,
    OutputTransformMain_run f loaded format =
    Ok match loaded with
       | inr output => match format formatter output with Some text => (0, Some text) | None => (1, None) end
       | inl _ => (1, None)
       end.
Proof.
  intros (translated & formatter & Hp & Hf)%allowed_format_known. exists formatter. unfold OutputTransformMain_run. rewrite Hp.
  destruct loaded as [|output]; [done|]. rewrite Hf. cbn. by destruct (format formatter output).
Qed.

End Transform.

(** ** The service *)

(** Abseil's functions on suffixes. *)
Class AbslSuffix : Type := {
  EndsWith : string -> string -> bool;
  StripSuffix : string -> string -> string;
}.

Class AbslSuffixLaws `{AbslSuffix} : Prop := {
  ends_with_documented s t : EndsWith s t = true <-> exists v, s = v +:+ t;
  strip_suffix_documented v t : StripSuffix (v +:+ t) t = v;
}.

Record ServiceArgs : Type := mkServiceArgs {
  sa_listen : option string;
  sa_listener_address_file : option string;
  sa_service : option string;
  sa_max_concurrent_executions : option Z;
  sa_backend_name : option string;
}.

Inductive RunningService : Type := TrafficGenerator (max_concurrent : Z) (backend_name : string) | DummyRequestSource.

Record ServiceMain : Type := mkServiceMain {
  service_ : RunningService;
  listener_bound_address_ : string;
  listener_output_path_ : string;
}.

Definition appendDefaultPortIfNeeded (host_and_maybe_port : string) : string :=
  match findPortSeparator host_and_maybe_port with
  | None => host_and_maybe_port +:+ ":8443"
  | Some _ => host_and_maybe_port
  end.

Fixpoint all_ascii (s : string) : bool :=
  match s with
  | EmptyString => true
  | String c s => (code c <? 128) && all_ascii s
  end.

Definition ServiceMain_new `{AbslMatch} (a : ServiceArgs) : outcome ServiceMain :=
  let max_concurrent := default 1 (sa_max_concurrent_executions a) in
  let name := default EmptyString (sa_backend_name a) in
  refuse (max_concurrent =? 0) "--max-concurrent-executions must be at least 1" ;;;
  refuse (largest_acceptable_uint32_option_value <? max_concurrent) "Invalid value for --max-concurrent-executions" ;;;
  refuse (negb (all_ascii name)) "--backend-name must be ASCII" ;;;
  let backend_name := sanitizeBackendName name in
  refuse (is_set (sa_backend_name a) && (backend_name =? EmptyString)%string)
    "--backend-name needs at least one letter, digit or underscore to name metrics by" ;;;
  let service := default "traffic-generator-service"%string (sa_service a) in
  let* service_ :=
    (if (service =? "traffic-generator-service")%string then Ok (TrafficGenerator max_concurrent backend_name)
     else if (service =? "dummy-request-source")%string then Ok DummyRequestSource
     else Panic "Service mapping failed") in
  Ok (mkServiceMain service_ (appendDefaultPortIfNeeded (default "0.0.0.0:8443"%string (sa_listen a)))
        (default EmptyString (sa_listener_address_file a))).

(** [built]: the server could be built; [port]: the port it was given. The result
    has the address it listens on and what is written to the file. *)
Definition ServiceMain_start `{AbslSuffix} (fmt_int : Z -> string) (built : bool) (port : Z) (s : ServiceMain) :
    outcome (ServiceMain * option string) :=
  if negb built then Throw (NighthawkException "Could not start the grpc service.")
  else
    let address := if EndsWith (listener_bound_address_ s) ":0"
                   then StripSuffix (listener_bound_address_ s) "0" +:+ fmt_int port
                   else listener_bound_address_ s in
    Ok (mkServiceMain (service_ s) address (listener_output_path_ s),
        if (listener_output_path_ s =? EmptyString)%string then None else Some address).

Lemma last_char_app s t : t <> EmptyString -> last_char (s +:+ t) = last_char t.
Proof.
  intros Ht. induction s as [|c s IH]; [by rewrite sapp_nil|]. rewrite sapp_cons, <- IH. cbn. destruct (s +:+ t) eqn:E; [|done].
  by destruct s, t.
Qed.

(** Port 0 is recognised and the default is not mistaken for it. *)
Lemma bound_address `{AbslSuffixLaws} h (port : string) :
  EndsWith (h +:+ ":8443") ":0" = false /\
  EndsWith (h +:+ ":0") ":0" = true /\ StripSuffix (h +:+ ":0") "0" +:+ port = h +:+ ":" +:+ port.
Proof.
  split_and!.
  - apply not_true_iff_false. rewrite ends_with_documented. intros [v E%(f_equal last_char)].
    by rewrite !last_char_app in E.
  - apply ends_with_documented. by exists h.
  - change (h +:+ ":0") with (h +:+ ":" +:+ "0"). rewrite <- sapp_assoc, strip_suffix_documented. by rewrite sapp_assoc.
Qed.

(** What the service is started with. A command line TCLAP allows gives a
    service or an exception: the number of executions at once is from 1 to the
    largest value an option may have, a name that was given is made of the
    characters of a metric name and is not empty. The address has a port, 8443 when
    none was given; port 0 is replaced by the port that was assigned, and the
    address written to the file is the one that is listened on. *)
Lemma service_started `{AbslMatchLaws} `{AbslSuffixLaws} fmt_int a port :
  sa_service a = None \/ sa_service a = Some "traffic-generator-service"%string \/ sa_service a = Some "dummy-request-source"%string ->
  0 <= default 1 (sa_max_concurrent_executions a) ->
  returns (ServiceMain_new a) /\
  forall s, ServiceMain_new a = Ok s ->
    match service_ s with
    | TrafficGenerator n name =>
        1 <= n <= largest_acceptable_uint32_option_value /\ all_chars (fun c => name_char c = true) name /\
        (sa_backend_name a <> None -> name <> EmptyString)
    | DummyRequestSource => True
    end /\
    exists s' file, ServiceMain_start fmt_int true port s = Ok (s', file) /\ service_ s' = service_ s /\
      (forall h, sa_listen a = Some h -> findPortSeparator h = None -> listener_bound_address_ s' = h +:+ ":8443") /\
      (forall h, sa_listen a = Some (h +:+ ":0") -> findPortSeparator (h +:+ ":0") <> None ->
         listener_bound_address_ s' = h +:+ ":" +:+ fmt_int port) /\
      (forall path, sa_listener_address_file a = Some path -> path <> EmptyString -> file = Some (listener_bound_address_ s')).
Proof.
  intros Hsvc Hmax. split.
  { unfold ServiceMain_new. cbv zeta. repeat returns_step. destruct_or! Hsvc; rewrite Hsvc in *; done. }
  intros s Hs. unfold ServiceMain_new in Hs. cbv zeta in Hs. rewrite !obind_unit, !refuse_Ok in Hs.
  destruct Hs as (Hz & Hl & _ & Hn & Hs). apply obind_Ok in Hs as (svc & Hk & Hs). injection Hs as <-. cbn [service_]. split.
  - destruct svc as [n name|]; [|done].
    assert (TrafficGenerator n name = TrafficGenerator (default 1 (sa_max_concurrent_executions a))
              (sanitizeBackendName (default EmptyString (sa_backend_name a)))) as E.
    { destruct (_ =? "traffic-generator-service")%string; [congruence|]. by destruct (_ =? "dummy-request-source")%string. }
    injection E as -> ->. b2p. split_and!; [lia|lia|apply sanitized_chars|]. intros Hset E.
    destruct (sa_backend_name a) as [name|]; [|done]. cbn in *. rewrite E in Hn. done.
  - unfold ServiceMain_start. cbn [negb listener_bound_address_ listener_output_path_ service_].
    eexists _, _. split; [done|]. cbn [service_ listener_bound_address_]. split_and!; [done|..].
    + intros h -> Hno. cbn. unfold appendDefaultPortIfNeeded. rewrite Hno. by rewrite (proj1 (bound_address h EmptyString)).
    + intros h -> Hsep. cbn. unfold appendDefaultPortIfNeeded. destruct (findPortSeparator (h +:+ ":0")); [|done].
      destruct (bound_address h (fmt_int port)) as (_ & -> & ->). done.
    + intros path -> Hp. cbn. by destruct (String.eqb_spec path EmptyString).
Qed.

(** ** Concrete programs *)

Section Examples.

#[local] Existing Instances demo_messages demo_time demo_methods demo_clock absl_documented absl_match_documented
  uri_env_documented demo_cli_env demo_messages_laws demo_time_laws demo_methods_laws demo_cli_laws uri_env_laws.





(** Its process has two workers. *)
Lemma process_created_witness :
  exists r, CreateProcessImpl demo_dns 8 None (Ok (@nil Z)) grpc_options = Ok r /\
    match r with inl _ => True | inr c => 1 <= cp_workers _ c end.
Proof.
  destruct (process_created demo_message_error demo_port demo_dns 8 None (@nil Z) grpc_options grpc_constructed) as (r & Hr & Hc);
    [intros z; vm_compute; discriminate|lia|]. exists r. split; [done|]. destruct r; [done|]. by destruct Hc.
Defined.

(** C16: a run that is over, whose output is printed. *)
Lemma client_winds_up_witness :
  Main_finish ProcessImpl_shutdown ProcessImpl_delete grpc_options (fun _ => Some "csv"%string) (RunDone true (pr_process demo_over)) =
    Ok (Some "csv"%string, true).
Proof.
  apply (client_winds_up grpc_options demo_over true (fun _ => Some "csv"%string) CsvOutputFormatter demo_over_reachable);
    vm_compute; reflexivity.
Defined.

(** An output that is no JSON. *)
Lemma output_transformed_witness :
  exists formatter : OutputFormatterPtr,
    OutputTransformMain_run "csv" (@inl string Z "Input error"%string) (fun _ _ => None) = Ok (1, None).
Proof.
  apply (output_transformed "csv" (@inl string Z "Input error"%string) (fun _ _ => None)).
  apply (bool_decide_unpack _). vm_compute. done.
Defined.

Definition demo_suffix : AbslSuffix := {|
  EndsWith s t := (sdrop (String.length s - String.length t) s =? t)%string;
  StripSuffix s t := if (sdrop (String.length s - String.length t) s =? t)%string then stake (String.length s - String.length t) s else s;
|}.

#[local] Existing Instance demo_suffix.

Lemma sdrop_suffix v t : sdrop (String.length (v +:+ t) - String.length t) (v +:+ t) = t.
Proof. rewrite slength_app. replace (String.length v + String.length t - String.length t)%nat with (String.length v) by lia. apply sdrop_app. Qed.

Lemma demo_suffix_laws : AbslSuffixLaws.
Proof.
  constructor; cbn.
  - intros s t. split.
    + intros E%String.eqb_eq. exists (stake (String.length s - String.length t) s). rewrite <- E at 2. by rewrite stake_sdrop.
    + intros [v ->]. by rewrite sdrop_suffix, String.eqb_refl.
  - intros v t. rewrite sdrop_suffix, String.eqb_refl, slength_app.
    replace (String.length v + String.length t - String.length t)%nat with (String.length v) by lia. apply stake_app.
Qed.

#[local] Existing Instances demo_suffix_laws absl_match_laws.

Definition demo_service_args : ServiceArgs :=
  mkServiceArgs (Some "127.0.0.1:0"%string) (Some "/tmp/address"%string) None (Some 3) (Some "Node-A.example"%string).

(** Three executions at once, on a port that is assigned. *)
Lemma service_started_witness :
  exists s s' file, ServiceMain_new demo_service_args = Ok s /\ service_ s = TrafficGenerator 3 "node_a_example" /\
    ServiceMain_start fmt_u64 true 4711 s = Ok (s', file) /\ listener_bound_address_ s' = "127.0.0.1:4711"%string /\
    file = Some "127.0.0.1:4711"%string.
Proof.
  destruct (service_started fmt_u64 demo_service_args 4711) as [_ Hs]; [by left|by cbn|].
  destruct (ServiceMain_new demo_service_args) as [s| | |] eqn:E; try (vm_compute in E; discriminate).
  destruct (Hs s eq_refl) as (_ & s' & file & Hst & _ & _ & Hz & Hf). exists s, s', file.
  assert (listener_bound_address_ s' = "127.0.0.1:4711"%string) as Ha by (apply (Hz "127.0.0.1"%string); [done|by vm_compute]).
  split; [done|]. split; [vm_compute in E; by injection E as <-|]. split; [done|]. split; [done|].
  rewrite <- Ha. by apply (Hf "/tmp/address"%string).
Defined.

End Examples.
