(* ===== verification/WorkerLoop.v ===== *)
(** * A worker at work: sequencer, client and streams together

    [ClientWorkerImpl] of [engine/source/client/client_worker_impl.cc] gives its
    sequencer a target that calls [tryStartRequest] of its benchmark client; the
    completion callback of the sequencer travels with the request and is called by
    the decoder of the stream. This file puts the models of the three together:
    the state is a sequencer, a client and the requests started so far, each with
    the decoder and phase of its stream and the callback it carries. What Envoy's
    pool and the request source answer is an oracle. The steps are those of the
    dispatcher of the worker.

    The theorems: an execution of the worker is one of the sequencer and one of the
    client at the same time, so what holds of either holds here; and the books of
    the two agree. *)

From S2P Require Import Prelude Text Double RateLimiter Termination Sequencer SequencerPacing.
From S2P Require Import StreamDecoder BenchmarkClient.

(** ** Sums over lists *)

Definition tally {A} (f : A -> Z) (l : list A) : Z := foldr (fun a n => f a + n) 0 l.

Lemma tally_snoc {A} (f : A -> Z) l a : tally f (l ++ [a]) = tally f l + f a.
Proof. unfold tally. induction l as [|b l IH]; cbn; [lia|]. rewrite IH. lia. Qed.

Lemma tally_insert {A} (f : A -> Z) l i a b :
  l !! i = Some a -> tally f (<[i := b]> l) = tally f l - f a + f b.
Proof.
  revert i. induction l as [|c l IH]; intros [|i] Hi; try done; cbn in Hi.
  - injection Hi as ->. change (f b + tally f l = f a + tally f l - f a + f b). lia.
  - change (f c + tally f (<[i := b]> l) = f c + tally f l - f a + f b). rewrite (IH _ Hi). lia.
Qed.

Lemma tally_le {A} (f g : A -> Z) l : (forall a, f a <= g a) -> tally f l <= tally g l.
Proof. unfold tally. intros Hle. induction l as [|a l IH]; cbn; [done|]. specialize (Hle a). lia. Qed.

Lemma tally_plus {A} (f g : A -> Z) l : tally (fun a => f a + g a) l = tally f l + tally g l.
Proof. unfold tally. induction l as [|a l IH]; cbn; [done|]. rewrite IH. lia. Qed.

(** ** The worker *)

Section Loop.

Context {A : AbslStrings} {Plugin : Type}.
Context (plugin_headers : option ResponseHeaders -> Plugin -> bool * Plugin).
Context (plugin_data : string -> Plugin -> bool * Plugin).

Abbreviation client := (@BenchmarkClientHttpImpl Plugin).

Abbreviation callbacks := (BenchmarkClientHttpImpl_callbacks plugin_headers plugin_data).

(** A request that was started. Its completion callback is the sequencer's, known
    by the time it captured, or that of the warm-up. *)
Record RequestState : Type := mkRequestState {
  rq_stream : StreamDecoder * stream_phase;
  rq_origin : option Z;
}.

Record World : Type := mkWorld {
  w_client : client;
  w_requests : list RequestState;
  w_calls : nat;
}.

(** What a call of [tryStartRequest] meets: the time, whether there is a pool, what
    the source yields, and what the pool and the codec tell the decoder before the
    call returns. *)
Record Answer : Type := mkAnswer {
  an_time : Z;
  an_pool : bool;
  an_request : option Request;
  an_events : list (clock * decoder_event);
}.

(** Events of a stream in their order, up to its end; the clock at which the
    completion callback was called, if it was. An event that cannot come in its
    phase does not come. *)
Fixpoint deliver (es : list (clock * decoder_event)) (d : StreamDecoder) (p : stream_phase) (c : client) :
    outcome (StreamDecoder * stream_phase * client * option clock) :=
  match es with
  | [] => Ok (d, p, c, None)
  | (clk, e) :: es =>
      match next_phase p e with
      | None => Ok (d, p, c, None)
      | Some q =>
          let* r := @decoder_step client _ callbacks (monotonicTime clk) e d c in
          match q with
          | Over => Ok (r.1, Over, r.2, Some clk)
          | _ => deliver es r.1 q r.2
          end
      end
  end.

(** The constructor's target, [benchmark_client_->tryStartRequest(std::move(f))],
    with the callbacks it ran before it returned. An outcome that is no value
    stays. *)
Definition target_turn (a : Answer) (now : Z) (w : World) : bool * list (Z * clock) * outcome World :=
  match tryStartRequest (an_time a) (an_pool a) (an_request a) (w_client w) with
  | (None, c) => (false, [], Ok (mkWorld c (w_requests w) (S (w_calls w))))
  | (Some d, c) =>
      match deliver (an_events a) d InPool c with
      | Ok (d, p, c, called) =>
          (true, (fun clk => (now, clk)) <$> option_list called,
           Ok (mkWorld c (w_requests w ++ [mkRequestState (d, p) (Some now)]) (S (w_calls w))))
      | Throw e => (false, [], Throw e)
      | Panic what => (false, [], Panic what)
      | Undefined => (false, [], Undefined)
      end
  end.

Context (answers : nat -> clock -> Answer).

Definition http_target (c : clock) (now : Z) (x : outcome World) : bool * list (Z * clock) * outcome World :=
  match x with
  | Ok w => target_turn (answers (w_calls w) c) now w
  | _ => (false, [], x)
  end.

(** [work()] up to the phase: latencies are not measured before it; the warm-up
    sends one request and runs the dispatcher until its callback asks it to
    exit. [initOnThread()] is the request source's; [prepare()] of the HTTP client
    does nothing. *)
Definition worker_begin (cfg : ClientConfig) (plugins : list Plugin) (warmup : option Answer) (measure : bool) :
    outcome World :=
  let c := setShouldMeasureLatencies false (BenchmarkClientHttpImpl_new cfg plugins) in
  let* p := match warmup with
            | None => Ok (c, [])
            | Some a =>
                match tryStartRequest (an_time a) (an_pool a) (an_request a) c with
                | (None, c) => Ok (c, [])
                | (Some d, c) =>
                    let* r := deliver (an_events a) d InPool c in
                    Ok (r.1.2, [mkRequestState r.1.1 None])
                end
            end in
  Ok (mkWorld (setShouldMeasureLatencies measure p.1) p.2 0).

(** ** Executions *)

Context {R : Type} `{RateLimiter R}.
Context (evaluate_chain : clock -> outcome World -> Status).

Abbreviation seq := (SequencerImpl R).

(** The callback of a request whose stream ended at [c]. *)
Definition call_origin (origin : option Z) (q : stream_phase) (c : clock) (s : seq) : seq :=
  match q, origin with
  | Over, Some now => on_completion now c s
  | _, _ => s
  end.

(** What the dispatcher of the worker does until [t1]. *)
Inductive worker_step (t1 : Z) : seq * World -> seq * World -> Prop :=
| worker_periodic fuel c s w s' w' :
    is_enabled (periodic_timer_ s) = true ->
    monotonicTime (cached_clock s) <= monotonicTime c <= t1 ->
    run http_target evaluate_chain fuel c true (set_periodic s TimerDisabled) (Ok w) = Ok (Some (s', Ok w')) ->
    worker_step t1 (s, w) (s', w')
| worker_spin fuel c s w s' w' :
    is_enabled (spin_timer_ s) = true ->
    monotonicTime (cached_clock s) <= monotonicTime c <= t1 ->
    run http_target evaluate_chain fuel c false (set_spin s TimerDisabled) (Ok w) = Ok (Some (s', Ok w')) ->
    worker_step t1 (s, w) (s', w')
| worker_event i c e s w d p q d' c' origin :
    w_requests w !! i = Some (mkRequestState (d, p) origin) -> next_phase p e = Some q ->
    monotonicTime (cached_clock s) <= monotonicTime c <= t1 ->
    @decoder_step client _ callbacks (monotonicTime c) e d (w_client w) = Ok (d', c') ->
    worker_step t1 (s, w)
      (call_origin origin q c s,
       mkWorld c' (<[i := mkRequestState (d', q) origin]> (w_requests w)) (w_calls w))
| worker_abandon s w :
    worker_step t1 (s, w) (s, mkWorld (abandonOutstandingWork (w_client w)) (w_requests w) (w_calls w)).

Definition over (r : RequestState) : Prop := r.(rq_stream).2 = Over.

Inductive worker_reachable (t1 : Z) (r : R) (idle : IdleStrategy) (w0 : World) (t0 : Z) : seq * World -> Prop :=
| worker_started fuel c0 c s w :
    monotonicTime c0 = t0 -> monotonicTime c0 <= monotonicTime c <= t1 ->
    start http_target evaluate_chain fuel c (SequencerImpl_new r c0 idle) (Ok w0) = Ok (Some (s, Ok w)) ->
    worker_reachable t1 r idle w0 t0 (s, w)
| worker_more p q :
    worker_reachable t1 r idle w0 t0 p -> worker_step t1 p q -> worker_reachable t1 r idle w0 t0 q.

End Loop.

(** ** The books agree *)

Section Books.

Context {A : AbslStrings} {Plugin : Type}.
Context (plugin_headers : option ResponseHeaders -> Plugin -> bool * Plugin).
Context (plugin_data : string -> Plugin -> bool * Plugin).

Abbreviation client := (@BenchmarkClientHttpImpl Plugin).

Abbreviation client_step := (system_step plugin_headers plugin_data).

(** A request the sequencer started, one of those that is over, and the warm-up. *)
Definition sequenced (r : RequestState) : Z := match rq_origin r with Some _ => 1 | None => 0 end.

Definition done_for (r : RequestState) : Z :=
  match (rq_stream r).2, rq_origin r with Over, Some _ => 1 | _, _ => 0 end.

Definition warm (r : RequestState) : Z := match rq_origin r with Some _ => 0 | None => 1 end.

(** The client's side of a world. *)
Definition client_side (w : World) : client * list (StreamDecoder * stream_phase) :=
  (w_client w, rq_stream <$> w_requests w).

Lemma deliver_steps es d p c d' p' c' called ss i :
  deliver plugin_headers plugin_data es d p c = Ok (d', p', c', called) -> ss !! i = Some (d, p) -> p <> Over ->
  rtc client_step (c, ss) (c', <[i := (d', p')]> ss) /\
  match called with Some clk => p' = Over /\ clk ∈ es.*1 | None => p' <> Over end.
Proof.
  revert d p c ss. induction es as [|[clk e] es IH]; intros d p c ss Hd Hi Hp; cbn in Hd.
  { simplify_eq. by rewrite list_insert_id. }
  destruct (next_phase p e) as [q|] eqn:Eq; [|simplify_eq; by rewrite list_insert_id].
  apply obind_Ok in Hd as ([d1 c1] & Hs & Hd). cbn [fst snd] in Hd.
  pose proof (sys_event plugin_headers plugin_data i _ e c ss d p q d1 c1 Hi Eq Hs) as Hstep.
  assert (q <> Over -> deliver plugin_headers plugin_data es d1 q c1 = Ok (d', p', c', called) ->
    rtc client_step (c, ss) (c', <[i := (d', p')]> ss) /\
    match called with Some k => p' = Over /\ k ∈ clk :: es.*1 | None => p' <> Over end) as Hgo.
  { intros Hq Hd'. destruct (IH d1 q c1 (<[i := (d1, q)]> ss) Hd') as [Hr Hc];
      [by apply list_lookup_insert_eq, lookup_lt_is_Some; eexists|done|].
    rewrite list_insert_insert_eq in Hr. split; [by eapply rtc_l|].
    destruct called; [|done]. destruct Hc. split; [done|]. by apply list_elem_of_further. }
  destruct q; try (by apply Hgo). simplify_eq. split; [by apply rtc_once|]. split; [done|]. apply list_elem_of_here.
Qed.

(** What a call of the target leaves: nothing was started, or one more request,
    whose callback ran exactly if its stream is over already. *)
Lemma target_turn_steps a now (w w' : World) could cbs :
  requests_initiated_ (w_client w) + 1 < 2 ^ 64 ->
  target_turn plugin_headers plugin_data a now w = (could, cbs, Ok w') ->
  rtc client_step (client_side w) (client_side w') /\
  if could then
    exists stream called, w_requests w' = w_requests w ++ [mkRequestState stream (Some now)] /\
      cbs = (fun clk => (now, clk)) <$> option_list called /\
      match called with Some clk => stream.2 = Over /\ clk ∈ (an_events a).*1 | None => stream.2 <> Over end
  else cbs = [] /\ w_requests w' = w_requests w.
Proof.
  intros Hmax Ht. unfold target_turn in Ht. destruct (tryStartRequest _ _ _ _) as [[d|] c] eqn:Es.
  - destruct (deliver _ _ _ _ _ _) as [[[[d' p'] c'] called]| | |] eqn:Ed; simplify_eq. unfold client_side. cbn.
    pose proof (sys_start plugin_headers plugin_data _ _ _ _ (rq_stream <$> w_requests w) _ _ Hmax Es) as Hs.
    set (n := length (rq_stream <$> w_requests w)) in *.
    eapply (deliver_steps _ _ _ _ _ _ _ _ _ n) in Ed as [Hr Hc];
      [|by apply list_lookup_middle|done].
    replace n with (n + 0)%nat in Hr by lia. unfold n in Hr. rewrite insert_app_r in Hr. cbn in Hr.
    split; [|by exists (d', p'), called]. eapply rtc_l; [exact Hs|]. by rewrite fmap_app.
  - simplify_eq. unfold client_side. cbn. split; [|done]. apply rtc_once. by eapply sys_refused.
Qed.

(** A target that did not start says so when the outcome is no value. *)
Lemma target_broken answers c now x could cbs x' :
  http_target plugin_headers plugin_data answers c now x = (could, cbs, x') ->
  (forall w, x' <> Ok w) -> could = false /\ cbs = [].
Proof.
  unfold http_target, target_turn. intros E Hx. destruct x as [w| | |]; try by simplify_eq.
  destruct (tryStartRequest _ _ _ _) as [[d|] c1]; [|simplify_eq; by edestruct Hx].
  destruct (deliver _ _ _ _ _ _) as [[[[d' p'] c'] called]| | |]; simplify_eq; [by edestruct Hx|done..].
Qed.

End Books.

(** ** The invariant *)

Section Invariant.

Context {A : AbslStrings} {Plugin : Type}.
Context (plugin_headers : option ResponseHeaders -> Plugin -> bool * Plugin).
Context (plugin_data : string -> Plugin -> bool * Plugin).
Context (answers : nat -> clock -> Answer).
Context {R : Type} `{RateLimiter R}.
Context (evaluate_chain : clock -> outcome (@World Plugin) -> Status).
Context (t1 bound : Z) (I : Z -> Z -> R -> Prop).
Context `{!PacingInvariant t1 bound I}.
Context (cfg : ClientConfig) (plugins : list Plugin) (W : Z).

Abbreviation client_step := (system_step plugin_headers plugin_data).

Abbreviation target := (http_target plugin_headers plugin_data answers).

Hypothesis limits : 0 <= max_in_flight cfg.

(** At most one request was started by the warm-up. *)
Hypothesis warm_once : W <= 1.

(** Time does not go back while the target runs. *)
Hypothesis answers_timed : forall n c,
  Forall (fun e => monotonicTime c <= monotonicTime e <= t1) (an_events (answers n c)).*1.

(** What the sequencer and the client say of the same requests. *)
Record in_step (s : SequencerImpl R) (w : World) : Prop := mkInStep {
  is_client : rtc client_step (BenchmarkClientHttpImpl_new cfg plugins, []) (client_side w);
  is_initiated : targets_initiated_ s = tally sequenced (w_requests w);
  is_completed : targets_completed_ s = tally done_for (w_requests w);
  is_warm : tally warm (w_requests w) = W;
  is_captured : Forall (fun r => match rq_origin r with
                                 | Some now => now <= monotonicTime (cached_clock s)
                                 | None => over r
                                 end) (w_requests w);
  is_latencies : Z.of_nat (length (Sequencer.latency_statistic_ s)) = targets_completed_ s /\
    Forall (Z.le 0) (Sequencer.latency_statistic_ s);
}.

(** The part of the sequencer that matters. *)
Definition view (s : SequencerImpl R) : Z * Z * clock * list Z :=
  (targets_initiated_ s, targets_completed_ s, cached_clock s, Sequencer.latency_statistic_ s).

Lemma in_step_view s s' w : view s' = view s -> in_step s w -> in_step s' w.
Proof. unfold view. intros [= E1 E2 E3 E4] []. split; by rewrite ?E1, ?E2, ?E3, ?E4. Qed.

Lemma in_step_clock s s' w :
  targets_initiated_ s' = targets_initiated_ s -> targets_completed_ s' = targets_completed_ s ->
  Sequencer.latency_statistic_ s' = Sequencer.latency_statistic_ s ->
  monotonicTime (cached_clock s) <= monotonicTime (cached_clock s') -> in_step s w -> in_step s' w.
Proof.
  intros E1 E2 E3 Hc []. split; rewrite ?E1, ?E2, ?E3; try done.
  eapply Forall_impl; [exact is_captured0|]. intros r. cbn. destruct (rq_origin r); [lia|done].
Qed.

Lemma counts_of (w : @World Plugin) :
  tally sequenced (w_requests w) + tally warm (w_requests w) = Z.of_nat (length (w_requests w)) /\
  0 <= tally done_for (w_requests w) <= tally sequenced (w_requests w).
Proof.
  split; [|split].
  - rewrite <-tally_plus. unfold tally. induction (w_requests w) as [|r l IH]; [done|]. cbn [foldr length].
    rewrite IH. unfold sequenced, warm. destruct (rq_origin r); lia.
  - transitivity (tally (fun _ : RequestState => 0) (w_requests w)).
    + unfold tally. by induction (w_requests w).
    + apply tally_le. intros [[d []] []]; cbn; lia.
  - apply tally_le. intros [[d []] []]; cbn; lia.
Qed.

Lemma in_step_requests s w :
  in_step s w ->
  system_ok (client_side w) /\ requests_initiated_ (w_client w) = targets_initiated_ s + W /\
  targets_initiated_ s - targets_completed_ s = requests_outstanding_ (w_client w) /\
  0 <= targets_completed_ s <= targets_initiated_ s.
Proof.
  intros [Hc Hi Hd Hw Hcap _]. destruct (counts_of w) as [Hn Hle].
  pose proof (system_steps_ok _ _ _ _ Hc (system_new_ok cfg plugins limits)) as Hok.
  destruct (Hok) as [_ Ho Hini _]. cbn in Ho, Hini. rewrite length_fmap in Hini.
  split_and!; try done; try lia. rewrite Hi, Hd, Ho. clear -Hcap. unfold tally, open_streams.
  induction Hcap as [|r l Hr _ IH]; [done|]. cbn. rewrite <-IH.
  destruct r as [[d p] [now|]]; unfold sequenced, done_for, is_open, over in *; cbn in *; [destruct p; lia|]. subst p. lia.
Qed.

(** The sequencer's callback, in the books: one more is completed. *)
Lemma on_completion_view now c s :
  view (on_completion now c s) =
  (targets_initiated_ s, u64 (targets_completed_ s + 1), c,
   Sequencer.latency_statistic_ s ++ [monotonicTime c - now]).
Proof. unfold on_completion. cbn. by destruct (running_ s). Qed.

Lemma http_target_timed c now x could cbs x' :
  target c now x = (could, cbs, x') -> callbacks_timed (monotonicTime c) t1 cbs.
Proof.
  unfold http_target, target_turn. destruct x as [w| | |]; intros; simplify_eq; try done.
  destruct (tryStartRequest _ _ _ _) as [[d|] c1]; [|by simplify_eq].
  destruct (deliver _ _ _ _ _ _) as [[[[d' p'] c'] [clk|]]| | |] eqn:Ed; simplify_eq; try done.
  split; [|done]. eapply (deliver_steps _ _ _ _ _ _ _ _ _ _ [(d, InPool)] 0) in Ed as [_ [_ Hin]]; [|done..].
  pose proof (answers_timed (w_calls w) c) as Ht. rewrite Forall_forall in Ht. by apply Ht.
Qed.

(** One turn of the acquiring loop. *)
Lemma turn_in_step now s (w w' : World) could cbs :
  in_step s w -> now <= monotonicTime (cached_clock s) -> targets_initiated_ s + 1 < 2 ^ 64 - 1 ->
  target (cached_clock s) now (Ok w) = (could, cbs, Ok w') ->
  let s' := run_callbacks cbs s in
  now <= monotonicTime (cached_clock s') /\ targets_initiated_ s' = targets_initiated_ s /\
  in_step (if could then set_initiated s' (u64 (targets_initiated_ s' + 1)) else s') w'.
Proof.
  intros Hin Hnow Hmax Ht. pose proof (http_target_timed _ _ _ _ _ _ Ht) as Htime.
  destruct (in_step_requests s w Hin) as (_ & Hreq & _ & Hcount). destruct Hin as [Hc Hi Hd Hw Hcap [Hl Hpos]].
  cbn in Ht. apply target_turn_steps in Ht as [Hr Ht]; [|lia].
  assert (rtc client_step (BenchmarkClientHttpImpl_new cfg plugins, []) (client_side w')) as Hc'
    by by etransitivity.
  destruct could.
  2:{ destruct Ht as [-> Ew]. cbn. split_and!; [done|done|]. split; rewrite ?Ew; done. }
  destruct Ht as (stream & called & Ew & -> & Hcall).
  set (r := mkRequestState stream (Some now)) in *.
  assert (sequenced r = 1 /\ warm r = 0 /\ done_for r = match called with Some _ => 1 | None => 0 end) as (E1 & E2 & E3).
  { split_and!; [done|done|]. unfold done_for. cbn. destruct called; [by destruct Hcall as [-> _]|]. by destruct stream as [d []]. }
  destruct called as [clk|]; cbn.
  - destruct Htime as [Htime _]. pose proof (on_completion_view now clk s) as Ev. cbn in Htime.
    unfold view in Ev. injection Ev as V1 V2 V3 V4. split_and!; [rewrite V3; lia|done|].
    split; cbn; rewrite ?V1, ?V2, ?V3, ?V4, ?Ew, ?tally_snoc, ?E1, ?E2, ?E3, ?u64_small by (unfold in_u64; lia);
      try done; try lia.
    + apply Forall_app. split; [|repeat constructor; cbn; lia].
      eapply Forall_impl; [exact Hcap|]. intros r'. cbn. destruct (rq_origin r'); [lia|done].
    + rewrite length_app. cbn. split; [lia|]. apply Forall_app. split; [done|]. repeat constructor. lia.
  - split_and!; [done|done|].
    split; cbn; rewrite ?Ew, ?tally_snoc, ?E1, ?E2, ?E3, ?u64_small by (unfold in_u64; lia); try done; try lia.
    apply Forall_app. split; [done|]. by repeat constructor.
Qed.

Lemma unblock_view now s : view (unblockAndUpdateStatisticIfNeeded now s) = view s.
Proof. unfold unblockAndUpdateStatisticIfNeeded. by destruct (blocked_ s). Qed.

Lemma block_view s : view (updateStartBlockingTimeIfNeeded s) = view s.
Proof. unfold updateStartBlockingTimeIfNeeded. by destruct (blocked_ s). Qed.

Lemma stop_view failed s : view (stop failed s) = view s.
Proof.
  unfold stop, completionsPerSecond, executionDuration. cbn.
  destruct (stopped_after_ s) as [d|]; [|destruct (elapsed _ _) as [e r]];
    cbn; unfold unblockAndUpdateStatisticIfNeeded; cbn; destruct (blocked_ s);
    destruct (elapsed _ _) as [e' r']; cbn; by destruct (blocked_ s).
Qed.

Lemma view_fields s s' :
  view s' = view s -> cached_clock s' = cached_clock s /\ targets_initiated_ s' = targets_initiated_ s.
Proof. unfold view. by intros [=]. Qed.

(** The loop keeps the books. *)
Lemma loop_in_step fuel now s (w w' : World) s' :
  in_step s w -> paced t1 I s -> now <= monotonicTime (cached_clock s) ->
  acquire_loop target fuel now s (Ok w) = Ok (Some (s', Ok w')) -> in_step s' w'.
Proof.
  revert s w. induction fuel as [|fuel IH]; intros s w Hin Hp Hnow Hl; cbn [acquire_loop] in Hl; [done|].
  apply obind_Ok in Hl as ([b r] & Hacq & Hl). cbn [fst snd] in Hl.
  destruct b; [|injection Hl as <- <-; by apply (in_step_view s)].
  destruct (target (cached_clock (set_limiter s r)) now (Ok w)) as [[could cbs] x1] eqn:Et.
  destruct (acquire_turn target t1 bound I http_target_timed now s (Ok w) true r could cbs x1 Hp Hacq Et) as [_ Hgo].
  destruct (Hgo eq_refl) as [Hg Hi]. clear Hgo.
  pose proof (granted_bound t1 bound I _ _ Hg) as Hb. pose proof (pacing_bound_u64 (I := I)) as Hmax.
  destruct x1 as [w1| | |].
  2-4: destruct (target_broken _ _ _ _ _ _ _ _ _ Et ltac:(done)) as [-> _]; inv_bind; done.
  apply turn_in_step in Et as (Hnow' & Hi' & Hin'); [|by apply (in_step_view s)|done|cbn in *; lia].
  destruct could.
  - pose proof (unblock_view now (run_callbacks cbs (set_limiter s r))) as Hv.
    destruct (view_fields _ _ Hv) as [Hck Hini].
    rewrite <-Hi in Hg. destruct (started_paced t1 bound I now _ Hg) as [Hp' _].
    eapply IH; [| | |exact Hl].
    + eapply in_step_view; [|exact Hin']. unfold view in *. cbn. injection Hv as -> -> -> ->. done.
    + exact Hp'.
    + cbn. by rewrite Hck.
  - apply obind_Ok in Hl as (r' & _ & [= <- <-]). eapply in_step_view; [|exact Hin']. apply (block_view (run_callbacks cbs (set_limiter s r))).
Qed.

Lemma run_in_step fuel c from_periodic s (w w' : World) s' :
  in_step s w -> paced t1 I s -> monotonicTime (cached_clock s) <= monotonicTime c <= t1 ->
  run target evaluate_chain fuel c from_periodic s (Ok w) = Ok (Some (s', Ok w')) -> in_step s' w'.
Proof.
  intros Hin Hp Hc Hrun. unfold run in Hrun.
  match type of Hrun with context [set_status (set_clock s c) ?st] =>
    pose proof (set_clock_status_paced t1 I c st s Hp Hc) as Hp';
    assert (in_step (set_status (set_clock s c) st) w) as Hin'
      by (apply (in_step_clock s); [done..|cbn; lia|done]) end.
  destruct (decide (_ = PROCEED)) as [Hpro|Hpro] in Hrun.
  - apply obind_Ok in Hrun as (o & Hl & Hrun). destruct o as [[s1 x1]|]; [|done].
    apply obind_Ok in Hrun as (s2 & Hr & [= <- ->]). apply (loop_in_step _ _ _ _ _ _ Hin' Hp') in Hl; [|cbn; lia].
    eapply in_step_view; [|exact Hl]. unfold run_rearm in Hr.
    assert (scheduleRun s1 = Ok s2 -> view s2 = view s1) as Hsched
      by (intros Hs; by apply scheduleRun_arms in Hs as (us & r & _ & ->)).
    destruct (decide (idle_strategy_ s1 = WAIT)); [by apply Hsched|]. destruct from_periodic; [by apply Hsched|].
    destruct (_ && _); [by injection Hr as <-|]. destruct (decide (idle_strategy_ s1 = SLEEP)); by injection Hr as <-.
  - injection Hrun as <- <-. eapply in_step_view; [apply stop_view|exact Hin'].
Qed.

(** ** Executions of the worker *)

Lemma new_in_step r c0 idle (w0 : World) :
  rtc client_step (BenchmarkClientHttpImpl_new cfg plugins, []) (client_side w0) ->
  Forall (fun q => rq_origin q = None /\ over q) (w_requests w0) -> tally warm (w_requests w0) = W ->
  in_step (SequencerImpl_new r c0 idle) w0.
Proof.
  intros Hc Ho Hw. split; try done; cbn.
  - unfold tally. clear Hc Hw. induction Ho as [|q l [Eq _] _ IH]; [done|]. cbn. unfold sequenced at 1. rewrite Eq. lia.
  - unfold tally. clear Hc Hw. induction Ho as [|q l [Eq _] _ IH]; [done|]. cbn. unfold done_for at 1. rewrite Eq.
    destruct (rq_stream q).2; lia.
  - eapply Forall_impl; [exact Ho|]. cbn. by intros q [-> Hq].
Qed.

Lemma insert_origin w i d p d' q origin :
  w_requests w !! i = Some (mkRequestState (d, p) origin) ->
  rq_stream <$> <[i := mkRequestState (d', q) origin]> (w_requests w) =
  <[i := (d', q)]> (rq_stream <$> w_requests (Plugin := Plugin) w).
Proof. intros Hi. by rewrite list_fmap_insert. Qed.

Lemma call_origin_fields now q c (s : SequencerImpl R) :
  let s' := call_origin (Some now) q c s in
  targets_initiated_ s' = targets_initiated_ s /\
  targets_completed_ s' = (match q with Over => u64 (targets_completed_ s + 1) | _ => targets_completed_ s end) /\
  cached_clock s' = (match q with Over => c | _ => cached_clock s end) /\
  Sequencer.latency_statistic_ s' = Sequencer.latency_statistic_ s ++
    match q with Over => [monotonicTime c - now] | _ => [] end.
Proof.
  destruct q; cbn; rewrite ?app_nil_r; try done. pose proof (on_completion_view now c s) as E.
  unfold view in E. by injection E as -> -> -> ->.
Qed.

(** An event of one stream, and the callback it may lead to. *)
Lemma event_in_step i c e s (w : World) d p q d' c' origin :
  in_step s w -> paced t1 I s ->
  w_requests w !! i = Some (mkRequestState (d, p) origin) -> next_phase p e = Some q ->
  monotonicTime (cached_clock s) <= monotonicTime c <= t1 ->
  @decoder_step _ _ (BenchmarkClientHttpImpl_callbacks plugin_headers plugin_data) (monotonicTime c) e d (w_client w) = Ok (d', c') ->
  in_step (call_origin origin q c s) (mkWorld c' (<[i := mkRequestState (d', q) origin]> (w_requests w)) (w_calls w)).
Proof.
  intros Hin Hp Hi Hq Hc Hs. pose proof (in_step_requests s w Hin) as (_ & _ & _ & Hcount).
  pose proof (granted_bound t1 bound I _ _ Hp) as Hb. pose proof (pacing_bound_u64 (I := I)) as Hmax.
  destruct Hin as [Hr Hini Hd Hw Hcap [Hl Hpos]].
  assert (p <> Over) as Hopen by (by destruct p).
  pose proof (proj1 (Forall_lookup _ _) Hcap i _ Hi) as Hcapt. cbn in Hcapt.
  assert (rtc client_step (BenchmarkClientHttpImpl_new cfg plugins, [])
    (c', rq_stream <$> <[i := mkRequestState (d', q) origin]> (w_requests w))) as Hr'.
  { eapply rtc_r; [exact Hr|]. unfold client_side. rewrite (insert_origin w i d p d' q origin Hi).
    eapply sys_event; [|exact Hq|exact Hs]. by rewrite list_lookup_fmap, Hi. }
  destruct origin as [now|]; [|done].
  assert (targets_completed_ s = tally done_for (<[i := mkRequestState (d', q) (Some now)]> (w_requests w))
            - match q with Over => 1 | _ => 0 end) as Hd'.
  { rewrite (tally_insert _ _ _ _ _ Hi), Hd. unfold done_for at 3 4. cbn. destruct p, q; done || lia. }
  assert (forall t, monotonicTime (cached_clock s) <= t ->
    Forall (fun r => match rq_origin r with Some n => n <= t | None => over r end)
      (<[i := mkRequestState (d', q) (Some now)]> (w_requests w))) as Hcap'.
  { intros t Ht. apply Forall_insert; [|cbn; lia]. eapply Forall_impl; [exact Hcap|]. intros r. cbn.
    destruct (rq_origin r); [lia|done]. }
  destruct (call_origin_fields now q c s) as (V1 & V2 & V3 & V4). cbv zeta in *.
  split; cbn [w_requests w_client client_side]; rewrite ?V1, ?V2, ?V4; try done.
  - rewrite (tally_insert _ _ _ _ _ Hi), Hini. unfold sequenced at 3 4. cbn. lia.
  - destruct q; rewrite ?u64_small by (unfold in_u64; lia); lia.
  - rewrite (tally_insert _ _ _ _ _ Hi). unfold warm at 2 3. cbn. lia.
  - apply Hcap'. rewrite V3. destruct q; lia.
  - destruct q; rewrite ?app_nil_r, ?length_app, ?u64_small by (unfold in_u64; lia); try done.
    cbn. split; [lia|]. apply Forall_app. split; [done|]. repeat constructor. lia.
Qed.

Lemma tally_warm rs : Forall (fun q => rq_origin q = None) rs -> tally warm rs = Z.of_nat (length rs).
Proof. unfold tally. induction 1 as [|q l E _ IH]; [done|]. cbn [foldr length]. rewrite IH. unfold warm. rewrite E. lia. Qed.

(** An execution of the worker is one of the sequencer, with the books in step. *)
Lemma worker_simulates r idle (w0 : World) t0 s w :
  rtc client_step (BenchmarkClientHttpImpl_new cfg plugins, []) (client_side w0) ->
  Forall (fun q => rq_origin q = None /\ over q) (w_requests w0) -> tally warm (w_requests w0) = W ->
  I t0 0 r -> worker_reachable plugin_headers plugin_data answers evaluate_chain t1 r idle w0 t0 (s, w) ->
  reachable target evaluate_chain t1 r idle (Ok w0) t0 (s, Ok w) /\ in_step s w.
Proof.
  intros Hc0 Ho0 Hw0 Hr. remember (s, w) as p eqn:Ep. intros Hreach. revert s w Ep.
  induction Hreach as [fuel c0 c s w Ht Hc Hstart|p q _ IH Hstep]; intros s1 w1 E; simplify_eq.
  { split; [by eapply reachable_start|]. unfold start in Hstart. apply obind_Ok in Hstart as (s2 & Hs2 & Hrun).
    pose proof Hs2 as Harm. apply scheduleRun_arms in Harm as (us & r1 & _ & Es2).
    eapply run_in_step; [| | |exact Hrun].
    - apply (in_step_view (SequencerImpl_new r c0 idle)); [by rewrite Es2|by apply new_in_step].
    - apply (scheduleRun_paced t1 bound I _ _) in Hs2; [done|]. exists (monotonicTime c0). cbn. split; [lia|done].
    - by rewrite Es2. }
  destruct p as [s w]. destruct (IH s w eq_refl) as [Hseq Hin].
  pose proof (reachable_paced target evaluate_chain t1 bound I http_target_timed r idle (Ok w0) t0 _ Hr Hseq) as Hp.
  cbn in Hp. inversion Hstep; subst; clear Hstep IH.
  - split; [eapply reachable_step; [exact Hseq|by eapply step_periodic]|].
    eapply (run_in_step _ _ _ (set_periodic s TimerDisabled)); [by apply (in_step_view s)|exact Hp|done|eassumption].
  - split; [eapply reachable_step; [exact Hseq|by eapply step_spin]|].
    eapply (run_in_step _ _ _ (set_spin s TimerDisabled)); [by apply (in_step_view s)|exact Hp|done|eassumption].
  - split; [|by eapply event_in_step].
    match goal with |- context [call_origin ?o ?q] => destruct q, o as [now|] end; cbn;
      try (eapply reachable_step; [exact Hseq|apply step_client]).
    eapply reachable_step; [eapply reachable_step; [exact Hseq|apply step_client]|]. apply step_completion; [|done].
    exact (proj1 (Forall_lookup _ _) (is_captured _ _ Hin) _ _ ltac:(eassumption)).
  - split; [eapply reachable_step; [exact Hseq|apply step_client]|]. destruct Hin as [H1 H2 H3 H4 H5 H6]. split; try done.
    eapply rtc_r; [exact H1|]. apply sys_abandon.
Qed.

Lemma worker_begin_steps warmup measure w0 :
  worker_begin plugin_headers plugin_data cfg plugins warmup measure = Ok w0 ->
  rtc client_step (BenchmarkClientHttpImpl_new cfg plugins, []) (client_side w0) /\
  Forall (fun q => rq_origin q = None) (w_requests w0) /\ tally warm (w_requests w0) <= 1.
Proof.
  unfold worker_begin. intros Hw. apply obind_Ok in Hw as ([c rs] & Hp & [= <-]). unfold client_side. cbn.
  set (c0 := setShouldMeasureLatencies false (BenchmarkClientHttpImpl_new cfg plugins)) in *.
  assert (rtc client_step (BenchmarkClientHttpImpl_new cfg plugins, []) (c0, [])) as H0
    by apply rtc_once, sys_measure.
  assert (forall cs, rtc client_step (BenchmarkClientHttpImpl_new cfg plugins, []) cs ->
    rtc client_step (BenchmarkClientHttpImpl_new cfg plugins, []) (setShouldMeasureLatencies measure cs.1, cs.2)) as Hlast
    by (intros [c1 ss] Hcs; eapply rtc_r; [exact Hcs|apply sys_measure]).
  destruct warmup as [a|]; [|injection Hp as <- <-; split_and!; [by apply (Hlast (c0, []))|done|done]].
  destruct (tryStartRequest _ _ _ _) as [[d|] c1] eqn:Es.
  - apply obind_Ok in Hp as ([[[d' p'] c'] called] & Hd & [= <- <-]).
    eapply (deliver_steps _ _ _ _ _ _ _ _ _ _ [(d, InPool)] 0) in Hd as [Hr _]; [|done..]. cbn in Hr |- *.
    split_and!; [|by repeat constructor|done]. apply (Hlast (c', [(d', p')])). etransitivity; [exact H0|].
    eapply rtc_l; [|exact Hr]. eapply (sys_start _ _ _ _ _ c0 []); [cbn; lia|exact Es].
  - injection Hp as <- <-. split_and!; [|done|done]. apply (Hlast (c1, [])). eapply rtc_r; [exact H0|]. by eapply sys_refused.
Qed.

End Invariant.

(** ** Theorems *)

Section Theorems.

Context {A : AbslStrings} {Plugin : Type}.
Context (plugin_headers : option ResponseHeaders -> Plugin -> bool * Plugin).
Context (plugin_data : string -> Plugin -> bool * Plugin).
Context (answers : nat -> clock -> Answer).
Context {R : Type} `{RateLimiter R}.
Context (evaluate_chain : clock -> outcome (@World Plugin) -> Status).

(** Nothing the pool tells during a call comes before the call or after [t1]. *)
Definition timed_answers (t1 : Z) : Prop :=
  forall n c, Forall (fun e => monotonicTime c <= monotonicTime e <= t1) (an_events (answers n c)).*1.

Lemma worker_execution t1 bound (I : Z -> Z -> R -> Prop) `{!PacingInvariant t1 bound I}
    cfg plugins warmup measure r idle t0 w0 s w :
  0 <= max_in_flight cfg -> timed_answers t1 -> I t0 0 r ->
  worker_begin plugin_headers plugin_data cfg plugins warmup measure = Ok w0 -> Forall over (w_requests w0) ->
  worker_reachable plugin_headers plugin_data answers evaluate_chain t1 r idle w0 t0 (s, w) ->
  tally warm (w_requests w0) <= 1 /\
  reachable (http_target plugin_headers plugin_data answers) evaluate_chain t1 r idle (Ok w0) t0 (s, Ok w) /\
  in_step plugin_headers plugin_data cfg plugins (tally warm (w_requests w0)) s w.
Proof.
  intros Hm Ht Hr Hw0 Ho Hreach. apply worker_begin_steps in Hw0 as (Hc & Hn & H1). split; [done|].
  eapply (worker_simulates _ _ _ _ t1 bound I); try done. apply Forall_and. by split.
Qed.


(** C5. The books of the sequencer and of the client agree: the requests the client started are the sequencer's targets and the warm-up;
    what the sequencer counts as started and not completed is what the client has
    outstanding, so every callback was called exactly once; each completion left
    one latency, none negative; no more were started than the rate allows; and in
    a closed loop what is in flight or failed in the pool is within the limits of
    the client. *)
Theorem worker_books_agree t1 bound (I : Z -> Z -> R -> Prop) `{!PacingInvariant t1 bound I}
    cfg plugins warmup measure r idle t0 w0 s w :
  0 <= max_in_flight cfg -> timed_answers t1 -> I t0 0 r ->
  worker_begin plugin_headers plugin_data cfg plugins warmup measure = Ok w0 -> Forall over (w_requests w0) ->
  worker_reachable plugin_headers plugin_data answers evaluate_chain t1 r idle w0 t0 (s, w) ->
  requests_initiated_ (w_client w) = targets_initiated_ s + Z.of_nat (length (w_requests w0)) /\
  targets_initiated_ s - targets_completed_ s = requests_outstanding_ (w_client w) /\
  requests_outstanding_ (w_client w) = open_streams (rq_stream <$> w_requests w) /\
  Z.of_nat (length (Sequencer.latency_statistic_ s)) = targets_completed_ s /\
  Forall (Z.le 0) (Sequencer.latency_statistic_ s) /\
  0 <= targets_completed_ s <= targets_initiated_ s /\ targets_initiated_ s <= bound /\
  (provide_resource_backpressure_ cfg = true ->
   targets_initiated_ s - targets_completed_ s + pool_failures (counters (w_client w)) <= max_in_flight cfg).
Proof.
  intros Hm Ht Hr Hw0 Ho Hreach.
  destruct (worker_execution _ _ _ _ _ _ _ _ _ _ _ _ _ Hm Ht Hr Hw0 Ho Hreach) as (H1 & Hseq & Hin).
  apply (reachable_paced _ _ t1 bound I) in Hseq; [|by intros; eapply http_target_timed|done].
  pose proof (granted_bound t1 bound I _ _ Hseq) as Hb.
  destruct (in_step_requests _ _ _ _ _ Hm s w Hin) as ([Hbal Hout _ Hcap] & Hreq & Hdiff & Hcount).
  apply worker_begin_steps in Hw0 as (_ & Hn & _). destruct (is_latencies _ _ _ _ _ _ _ Hin) as [Hl Hpos].
  pose proof (system_steps_config _ _ _ _ (is_client _ _ _ _ _ _ _ Hin) (system_new_ok cfg plugins Hm)) as Ecfg.
  cbn in Ecfg, Hb. rewrite (tally_warm _ Hn) in Hreq. split_and!; try done; try lia.
  cbn in Hcap. rewrite Ecfg in Hcap. intros Hbp. specialize (Hcap Hbp). pose proof (bal_requests _ Hbal) as E. cbn in E. lia.
Qed.

End Theorems.

(** ** An execution

    A worker at 1 kHz with a warm-up. Of the first two requests one overflows the
    pool before the call returns, the other is answered later. *)

Section Demo.

#[local] Existing Instance absl_documented.

Definition demo_request : option Request := Some (mkRequest None "").

Definition demo_answers (n : nat) (c : clock) : Answer :=
  mkAnswer (monotonicTime c) true demo_request
    (if (n =? 0)%nat && (monotonicTime c <=? 4000000) then [(c, PoolFailure PoolOverflow)] else []).

Definition demo_warmup : Answer :=
  mkAnswer 0 true demo_request [(Clock 0 0, PoolReady); (Clock 0 0, Headers demo_headers true)].

Definition open_config : ClientConfig := mkClientConfig Http11 30 4 0 100 true "" false.

Definition demo_begin : outcome (@World unit) :=
  worker_begin no_plugin_headers no_plugin_data open_config [] (Some demo_warmup) true.

Definition demo_world : @World unit :=
  match demo_begin with Ok w => w | _ => mkWorld (BenchmarkClientHttpImpl_new open_config []) [] 0 end.

Definition going_on (c : clock) (x : outcome (@World unit)) : Status := PROCEED.

Abbreviation demo_target := (http_target no_plugin_headers no_plugin_data demo_answers).

Abbreviation demo_state := (SequencerImpl LinearRateLimiter * @World unit)%type.

Definition demo_idle : demo_state := (SequencerImpl_new khz_limiter (Clock 0 0) POLL, demo_world).

Definition value_of (o : outcome (option (SequencerImpl LinearRateLimiter * outcome (@World unit)))) : demo_state :=
  match o with Ok (Some (s, Ok w)) => (s, w) | _ => demo_idle end.

Definition demo_begun : demo_state :=
  value_of (start demo_target going_on 9 (Clock 7 0) (SequencerImpl_new khz_limiter (Clock 0 0) POLL) (Ok demo_world)).

Definition demo_two : demo_state :=
  value_of (run demo_target going_on 9 (Clock 2600007 0) true (set_periodic (fst demo_begun) TimerDisabled)
              (Ok (snd demo_begun))).

Lemma demo_two_reachable :
  worker_reachable no_plugin_headers no_plugin_data demo_answers going_on 4000000 khz_limiter POLL demo_world 0 demo_two.
Proof.
  apply (worker_more _ _ _ _ _ _ _ _ _ demo_begun).
  - rewrite (surjective_pairing demo_begun).
    apply (worker_started _ _ _ _ _ _ _ _ _ 9 (Clock 0 0) (Clock 7 0)); [done|cbn; lia|vm_compute; reflexivity].
  - rewrite (surjective_pairing demo_begun), (surjective_pairing demo_two).
    apply (worker_periodic _ _ _ _ _ 9 (Clock 2600007 0)); [vm_compute; reflexivity|vm_compute; split; discriminate|].
    vm_compute. reflexivity.
Qed.

Lemma demo_answers_timed : timed_answers demo_answers 4000000.
Proof.
  intros n c. unfold demo_answers. cbn. destruct (_ && _) eqn:E; [|constructor]. b2p. repeat constructor; cbn; lia.
Qed.

Lemma demo_world_over : Forall over (w_requests demo_world).
Proof. vm_compute. repeat constructor. Qed.

Lemma demo_paced : linear_paced (Frequency_ 1000) 1000000 500000 0 4000000 0 0 khz_limiter.
Proof. split; [lia|done]. Qed.

#[local] Instance demo_pacing :
  PacingInvariant 4000000 (due_by 1000000 500000 4000000 0) (linear_paced (Frequency_ 1000) 1000000 500000 0 4000000).
Proof. exact (linear_PacingInvariant (Frequency_ 1000) 1000000 500000 0 4000000 exact_period_1kHz ltac:(lia)). Qed.


(** C5: three targets and the warm-up; one target is over already. *)
Lemma worker_books_agree_witness :
  requests_initiated_ (w_client (snd demo_two)) = 4 /\ targets_initiated_ (fst demo_two) = 3 /\
  targets_completed_ (fst demo_two) = 1 /\
  targets_initiated_ (fst demo_two) - targets_completed_ (fst demo_two) +
    pool_failures (counters (w_client (snd demo_two))) <= max_in_flight open_config.
Proof.
  split; [vm_compute; reflexivity|]. split; [vm_compute; reflexivity|]. split; [vm_compute; reflexivity|].
  destruct (worker_books_agree no_plugin_headers no_plugin_data demo_answers going_on 4000000 _ _ open_config []
           (Some demo_warmup) true khz_limiter POLL 0 demo_world (fst demo_two) (snd demo_two))
    as (_ & _ & _ & _ & _ & _ & _ & Hc);
    [vm_compute; discriminate|exact demo_answers_timed|exact demo_paced|vm_compute; reflexivity|
     exact demo_world_over|rewrite <-surjective_pairing; exact demo_two_reachable|].
  exact (Hc eq_refl).
Defined.

End Demo.
