(* ===== verification/Run.v ===== *)
(** * The beginning of a run

    Models [ProcessImpl::runInternal] of [engine/source/client/process_impl.cc] up to
    the wait for the workers: the check of the scheduled start, the tunnel, and
    [nigthawk_fn], which sets Envoy up, makes the workers and starts them, every
    early return and exception included. [Process.v] models the same set-up with one
    answer for all of Envoy, as a step among those of the threads; here each part
    that can fail is apart, and the two are shown to agree.

    What Envoy answers is an argument. The state of the process is kept when an
    exception is thrown, because its destructor runs then. *)

From S2P Require Import Prelude Text Uri Statistic BenchmarkClient Worker Process.
From S2P Require Import Options OptionsMessages OptionsProofs OptionsCommandLine OptionsTheorems Bootstrap BootstrapProofs Executables.

#[local] Instance RunEvent_eq_dec : EqDecision RunEvent.
Proof. solve_decision. Defined.

(** ** Parts of the set-up *)

Section Setup.
Context `{Messages} `{UriEnv} `{AbslStrings} `{AbslMatch}.
Context (dns : string -> DnsLookupFamily -> option (list (string * ip_version))).

(** A sink for each configuration; a configuration without a factory makes
    [getAndCheckFactory] throw. *)
Fixpoint setupStatsSinks {Sink} (createStatsSink : message -> outcome Sink) (configured : list message) : outcome (list Sink) :=
  match configured with
  | [] => Ok []
  | stats_sink :: configured =>
      let* sink := createStatsSink stats_sink in
      let* sinks := setupStatsSinks createStatsSink configured in
      Ok (sink :: sinks)
  end.

(** [driver]: making the driver of a configuration. *)
Definition maybeCreateTracingDriver (driver : TracingConfig -> outcome unit) (configuration : option TracingConfig) : outcome unit :=
  match configuration with
  | Some http => driver http
  | None => Ok tt
  end.

(** What the set-up meets: whether each part of Envoy can be made, the plugins of
    each worker, the clocks, and what the factories do. *)
Record EnvoyAnswers : Type := mkAnswers {
  ea_tag_producer : bool;
  ea_plugins : Z -> bool;
  ea_loader : bool;
  ea_cluster_manager : bool;
  ea_initialize : bool;
  ea_driver : TracingConfig -> outcome unit;
  ea_runtime : bool;
  ea_sink : message -> outcome unit;
  ea_system_now : Z;
  ea_monotonic_now : Z;
}.

Definition has_sinks (o : OptionsImpl) : bool := match o_stats_sinks o with [] => false | _ => true end.

(** The same, for the set-up of [Process.v]. *)
Definition setup_env (ea : EnvoyAnswers) (o : OptionsImpl) : SetupEnv :=
  mkSetupEnv (has_sinks o) (ea_tag_producer ea) (ea_plugins ea)
    (ea_loader ea && ea_cluster_manager ea && ea_initialize ea && ea_runtime ea)
    (ea_system_now ea) (ea_monotonic_now ea) (o_scheduled_start o) (o_requests_per_second o).

(** An outcome with the process it leaves. *)
Definition leaving {A B} (p : ProcessImpl) (m : outcome A) (k : A -> outcome B * ProcessImpl) : outcome B * ProcessImpl :=
  match m with
  | Ok a => k a
  | Throw e => (Throw e, p)
  | Panic what => (Panic what, p)
  | Undefined => (Undefined, p)
  end.

(** The end of [nigthawk_fn]: the flush worker, if there are sinks, and the
    workers are started. *)
Definition start_workers (o : OptionsImpl) (p : ProcessImpl) : outcome bool * ProcessImpl :=
  leaving p (if has_sinks o
             then let* w := WorkerImpl_start WorkerImpl_new in Ok (Some (set_fw_worker w FlushWorkerImpl_new))
             else Ok (flush_worker_ p)) (fun flush =>
  leaving p (start_all (workers_ p)) (fun started =>
  (Ok true, mkProcess started flush (process_shutdown_ p) (cancelled_ p) true))).

Definition nigthawk_fn (ea : EnvoyAnswers) (o : OptionsImpl) (tracing_uri : option ResolvedUri) (b : BootstrapConfig)
    (number_of_workers : Z) (p : ProcessImpl) : outcome bool * ProcessImpl :=
  if cancelled_ p then (Ok true, p)
  else
    let p := mkProcess (workers_ p) (flush_worker_ p) false (cancelled_ p) (workers_running_ p) in
    if has_sinks o && negb (ea_tag_producer ea) then (Ok false, p)
    else leaving p (createWorkers (setup_env ea o) number_of_workers p) (fun '(ok, p) =>
      if negb ok then (Ok false, p)
      else if negb (ea_loader ea) then (Ok false, p)
      else leaving p (run_tracing o tracing_uri (bs_clusters b)) (fun '(tracing, clusters) =>
        if negb (ea_cluster_manager ea) then (Ok false, p)
        else if negb (ea_initialize ea) then (Ok false, p)
        else leaving p (maybeCreateTracingDriver (ea_driver ea) tracing) (fun _ =>
          if negb (ea_runtime ea) then (Ok false, p)
          else leaving p (setupStatsSinks (ea_sink ea) (o_stats_sinks o)) (fun _ => start_workers o p)))).

(** ** The beginning *)

(** Whether [runInternal] has returned, or waits for its workers. *)
Inductive Begun : Type := Returned (result : bool) | Waiting.

Definition begun_with (result : bool) (status : option string) : Begun :=
  if negb result then Returned false
  else match status with Some _ => Returned false | None => Waiting end.

(** [sem_initialised] and [fork] are what the system answers when there is a
    tunnel; the process looked at is the parent. *)
Definition runInternal (ea : EnvoyAnswers) (o : OptionsImpl) (tracing_uri : option ResolvedUri) (b : BootstrapConfig)
    (number_of_workers : Z) (sem_initialised : bool) (fork : Z) (p : ProcessImpl) : outcome Begun * ProcessImpl :=
  let now := ea_system_now ea in
  if default now (o_scheduled_start o) <? now then (Ok (Returned false), p)
  else if (o_tunnel_uri o =? EmptyString)%string then
    let '(r, p) := nigthawk_fn ea o tracing_uri b number_of_workers p in
    leaving p r (fun result => (Ok (begun_with result None), p))
  else leaving p (let* tunnel := UriImpl_new (o_tunnel_uri o) "http" in createEncapBootstrap dns o tunnel) (fun _ =>
    leaving p (EncapsulationSubProcessRunner_new sem_initialised) (fun runner =>
      let '(events, status, _) := RunWithSubprocess fork runner in
      match status with
      | None => (Undefined, p)
      | Some status =>
          if bool_decide (RunNighthawk ∈ events) then
            let '(r, p) := nigthawk_fn ea o tracing_uri b number_of_workers p in
            leaving p r (fun result => (Ok (begun_with result status), p))
          else (Ok (begun_with true status), p)
      end)).

End Setup.

(** ** What the beginning leaves *)

Definition unstarted (p : ProcessImpl) : Prop :=
  Forall (fun w => cw_worker w = WorkerImpl_new) (workers_ p) /\ flush_worker_ p = None /\ workers_running_ p = false.

(** A process before its first run. *)
Definition fresh_process (p : ProcessImpl) : Prop :=
  workers_ p = [] /\ flush_worker_ p = None /\ workers_running_ p = false /\ process_shutdown_ p = true.

Lemma fresh_unstarted p : fresh_process p -> unstarted p.
Proof. intros (Hw & Hf & Hr & _). split_and!; try done. by rewrite Hw. Qed.

Lemma leaving_inv {A B} p (m : outcome A) (k : A -> outcome B * ProcessImpl) (P : outcome B * ProcessImpl -> Prop) :
  (forall a, m = Ok a -> P (k a)) -> (forall r, (forall b, r <> Ok b) -> P (r, p)) -> P (leaving p m k).
Proof. intros Hok Hbad. destruct m; cbn; [by apply Hok|by apply Hbad..]. Qed.

Lemma create_loop_length plugins first delay n todo workers workers' :
  create_loop plugins first delay n todo workers = (true, workers') -> length workers' = (length workers + todo)%nat.
Proof.
  revert n workers. induction todo as [|todo IH]; intros n workers; cbn; [intros [= <-]; lia|].
  destruct (plugins n); [|done]. intros E. rewrite (IH _ _ E), length_app. cbn. lia.
Qed.

Lemma createWorkers_fresh env n p ok p' :
  workers_ p = [] -> createWorkers env n p = Ok (ok, p') ->
  Forall (fun w => cw_worker w = WorkerImpl_new) (workers_ p') /\ (ok = true -> length (workers_ p') = Z.to_nat n) /\
  flush_worker_ p' = flush_worker_ p /\ process_shutdown_ p' = process_shutdown_ p /\
  cancelled_ p' = cancelled_ p /\ workers_running_ p' = workers_running_ p.
Proof.
  intros Hw Hc. unfold createWorkers in Hc. apply obind_Ok in Hc as (delay & _ & Hc). rewrite Hw in Hc.
  destruct (create_loop _ _ _ _ _ _) as [b ws] eqn:El. injection Hc as <- <-. cbn. split_and!; try done.
  - by apply create_loop_fresh in El.
  - intros ->. rewrite (create_loop_length _ _ _ _ _ _ _ El). cbn. lia.
Qed.

(** Every worker there is has a thread. *)
Definition all_started (p : ProcessImpl) : Prop :=
  Forall (fun w => started_at (thread_ (cw_worker w)) = true) (workers_ p) /\ workers_running_ p = true.

Lemma start_all_started workers :
  Forall (fun w => cw_worker w = WorkerImpl_new) workers ->
  exists started, start_all workers = Ok started /\ length started = length workers /\
    Forall (fun w => started_at (thread_ (cw_worker w)) = true) started.
Proof.
  induction 1 as [|w ws Hw _ (started & E & El & IH)]; [by exists []|]. cbn. rewrite Hw, E. cbn.
  eexists. split; [done|]. cbn. split; [by rewrite El|]. by constructor.
Qed.

Section Beginnings.
Context `{Messages} `{UriEnv} `{AbslStrings} `{AbslMatch}.
Context (dns : string -> DnsLookupFamily -> option (list (string * ip_version))).

(** What [nigthawk_fn] comes to. *)
Definition setup_over (o : OptionsImpl) (n : Z) (p : ProcessImpl) (result : outcome bool * ProcessImpl) : Prop :=
  match result.1 with
  | Ok true =>
      if cancelled_ p then result.2 = p
      else all_started result.2 /\ length (workers_ result.2) = Z.to_nat n /\
           (is_Some (flush_worker_ result.2) <-> o_stats_sinks o <> [])
  | _ => unstarted result.2 /\ process_shutdown_ result.2 = false
  end.

Lemma nigthawk_fn_over ea o tracing_uri b n p :
  fresh_process p -> setup_over o n p (nigthawk_fn ea o tracing_uri b n p).
Proof.
  intros (Hw & Hf & Hr & _). unfold nigthawk_fn. destruct (cancelled_ p) eqn:Ec; [unfold setup_over; cbn; by rewrite Ec|].
  set (p1 := mkProcess _ _ false _ _).
  assert (forall r p', (forall x, r <> Ok x) \/ r = Ok false -> unstarted p' -> process_shutdown_ p' = false ->
    setup_over o n p (r, p')) as Hstop.
  { intros r p' Hbad Hu Hs. unfold setup_over. cbn. destruct r as [[]| | |]; try done. destruct Hbad as [Hx|]; [by edestruct Hx|done]. }
  assert (unstarted p1) as Hu1 by (split_and!; cbn; [by rewrite Hw|done|done]).
  destruct (has_sinks o && negb (ea_tag_producer ea)); [by apply Hstop; auto|].
  apply leaving_inv; [|intros; by apply Hstop; auto]. intros [ok p2] E2.
  apply createWorkers_fresh in E2 as (Hn & Hlen & Efl & Esh & Eca & Eru); [|done].
  assert (unstarted p2) as Hu2 by (split_and!; [done|by rewrite Efl|by rewrite Eru]).
  assert (process_shutdown_ p2 = false) as Hs2 by by rewrite Esh.
  destruct ok; cbn [negb]; [|by apply Hstop; auto].
  destruct (ea_loader ea); cbn [negb]; [|by apply Hstop; auto].
  apply leaving_inv; [|intros; by apply Hstop; auto]. intros [tracing clusters] _.
  destruct (ea_cluster_manager ea); cbn [negb]; [|by apply Hstop; auto].
  destruct (ea_initialize ea); cbn [negb]; [|by apply Hstop; auto].
  apply leaving_inv; [|intros; by apply Hstop; auto]. intros _ _.
  destruct (ea_runtime ea); cbn [negb]; [|by apply Hstop; auto].
  apply leaving_inv; [|intros; by apply Hstop; auto]. intros _ _.
  destruct (start_all_started _ Hn) as (started & Es & El & Hst). unfold start_workers, has_sinks, setup_over. rewrite Es.
  destruct (o_stats_sinks o); cbn; rewrite Ec; unfold all_started; cbn; rewrite El, Hlen; try done.
  by rewrite (proj1 (proj2 Hu2)).
Qed.

(** The detailed set-up is that of [Process.v], unless something is thrown. *)
Lemma nigthawk_fn_run_setup ea o tracing_uri b n p r p' :
  nigthawk_fn ea o tracing_uri b n p = (Ok r, p') -> run_setup (setup_env ea o) n p = Ok (r, p').
Proof.
  unfold nigthawk_fn, run_setup, leaving, start_workers. destruct (cancelled_ p); [by intros [= <- <-]|].
  cbn [se_stats_sinks se_tag_producer setup_env]. destruct (has_sinks o && negb (ea_tag_producer ea)); [by intros [= <- <-]|].
  fold (setup_env ea o). destruct (createWorkers _ _ _) as [[ok p1]| | |]; try done. cbn [obind se_envoy setup_env].
  destruct ok; cbn [negb]; [|by intros [= <- <-]].
  destruct (ea_loader ea); cbn [negb andb]; [|by intros [= <- <-]].
  destruct (run_tracing _ _ _) as [[tracing clusters]| | |]; try done.
  destruct (ea_cluster_manager ea); cbn [negb andb]; [|by intros [= <- <-]].
  destruct (ea_initialize ea); cbn [negb andb]; [|by intros [= <- <-]].
  destruct (maybeCreateTracingDriver _ _); try done.
  destruct (ea_runtime ea); cbn [negb andb]; [|by intros [= <- <-]].
  destruct (setupStatsSinks _ _); try done.
  destruct (has_sinks o); cbn [obind]; destruct (start_all _); try done; by intros [= <- <-].
Qed.

Lemma shutdown_unstarted p : unstarted p -> exists p', ProcessImpl_shutdown p = Ok p' /\ workers_ p' = [] /\ ProcessImpl_delete p' = Ok tt.
Proof.
  intros (Hw & Hf & _). destruct (shutdown_ok p (fresh_ok _ Hw)) as (p' & E & Ew & _ & _ & _ & Ed & _); [by rewrite Hf|eauto].
Qed.

(** C27. What the beginning of a run comes to, whatever Envoy, the plugins, the
    tunnel and the clock answer. It waits for its workers only when every part was
    set up: then there are as many workers as the options ask for, all started, and
    a flush worker exactly if there are sinks, or it was cancelled before and there
    are none. In every other case, a scheduled start that has passed, a failed
    fork, any status or exception in the set-up, no thread of a worker has been
    started: no load is generated by a run that reports a failure at its beginning,
    and the process can be shut down and destroyed. It never claims success
    here. *)
Theorem run_begins ea o tracing_uri b n sem fork p :
  fresh_process p ->
  let '(r, p') := runInternal dns ea o tracing_uri b n sem fork p in
  match r with
  | Ok Waiting =>
      if cancelled_ p then workers_ p' = []
      else all_started p' /\ length (workers_ p') = Z.to_nat n /\ (is_Some (flush_worker_ p') <-> o_stats_sinks o <> [])
  | Ok (Returned true) => False
  | _ => unstarted p' /\ exists p'', ProcessImpl_shutdown p' = Ok p'' /\ ProcessImpl_delete p'' = Ok tt
  end.
Proof.
  intros Hp. pose proof (nigthawk_fn_over ea o tracing_uri b n p Hp) as Hn. pose proof (fresh_unstarted p Hp) as Hu.
  assert (forall q, unstarted q -> unstarted q /\ exists p'', ProcessImpl_shutdown q = Ok p'' /\ ProcessImpl_delete p'' = Ok tt)
    as Hstop by (intros q Hq; destruct (shutdown_unstarted q Hq) as (p'' & ? & _ & ?); eauto).
  unfold runInternal. destruct (_ <? _); [by apply Hstop|]. unfold setup_over in Hn.
  destruct (nigthawk_fn ea o tracing_uri b n p) as [r1 p1]. cbn [fst snd] in Hn.
  destruct (o_tunnel_uri o =? EmptyString)%string.
  { destruct r1 as [[]| | |]; cbn; try (by apply Hstop, Hn). destruct (cancelled_ p); [by rewrite Hn; apply Hp|done]. }
  destruct (let* _ := _ in _) as [e| | |]; cbn [leaving]; try (by apply Hstop).
  destruct (EncapsulationSubProcessRunner_new sem); cbn [leaving]; try (by apply Hstop).
  unfold RunWithSubprocess. destruct (fork =? -1) eqn:E1; [by apply Hstop|]. destruct (fork =? 0) eqn:E0; [by apply Hstop|].
  rewrite bool_decide_true by (apply list_elem_of_further, list_elem_of_here).
  destruct r1 as [[]| | |]; cbn; try (by apply Hstop, Hn). destruct (cancelled_ p); [by rewrite Hn; apply Hp|done].
Qed.

(** An exception of the set-up, as a sink without a factory throws one, leaves a
    process that may not be destroyed before it is shut down. *)
Lemma setup_exception_panics ea o tracing_uri b n p e p' :
  fresh_process p -> nigthawk_fn ea o tracing_uri b n p = (Throw e, p') -> exists what, ProcessImpl_delete p' = Panic what.
Proof.
  intros Hp E. pose proof (nigthawk_fn_over ea o tracing_uri b n p Hp) as Hn. rewrite E in Hn.
  destruct Hn as [_ Hs]. unfold ProcessImpl_delete. cbn in Hs. rewrite Hs. by eexists.
Qed.

End Beginnings.

(** ** Two runs *)

Section Examples.

#[local] Existing Instances demo_messages demo_time demo_methods demo_clock absl_documented absl_match_documented
  uri_env_documented.

(** Envoy comes up; there is no factory for a sink. *)
Definition demo_envoy : EnvoyAnswers :=
  mkAnswers true (fun _ => true) true true true (fun _ => Ok tt) true (fun _ => Throw (EnvoyException "no factory")) 100 1000.

Definition demo_bootstrap : BootstrapConfig := mkBootstrap [] [] (mkDuration 5 0) None.

(** C27: two workers are started. *)
Lemma run_begins_witness :
  exists p', runInternal demo_dns demo_envoy grpc_options None demo_bootstrap 2 true 0 ProcessImpl_new = (Ok Waiting, p') /\
    all_started p' /\ length (workers_ p') = 2%nat.
Proof.
  pose proof (run_begins demo_dns demo_envoy grpc_options None demo_bootstrap 2 true 0 ProcessImpl_new ltac:(done)) as Hr.
  destruct (runInternal demo_dns demo_envoy grpc_options None demo_bootstrap 2 true 0 ProcessImpl_new) as [r p'] eqn:E.
  assert (r = Ok Waiting) as -> by (vm_compute in E; by injection E as <- _).
  exists p'. split; [done|]. destruct Hr as (Hs & Hl & _). by split.
Defined.

End Examples.
