(* ===== verification/Snapshot.v ===== *)
(** * Progress reports

    Models what a snapshot of a running process says: the copies a worker makes of
    its statistics ([ClientWorkerImpl::snapshotStatistics] of
    [engine/source/client/client_worker_impl.cc]), and [ProcessImpl::snapshot] of
    [engine/source/client/process_impl.cc], which merges the copies of the workers
    that answered in time into one result. How the jobs interleave with the wait is
    in [Process.v]; the copies taken there are what is merged here. *)

From S2P Require Import Prelude Double Text Statistic Uri Worker Process.

Inductive SnapshotDetail : Type := Summary | Full.

(** ** Copies *)

Section Copies.
Context {S : Type} `{Statistic S}.



(** The job of a worker: no copies are made for a snapshot that is not wanted any
    more. The statistics are in the order of their map. *)
Definition ClientWorkerImpl_snapshotStatistics {C} (copy : string * S -> C) (still_wanted : bool) (statistics : list (string * S)) :
    option (list C) :=
  if still_wanted then Some (copy <$> statistics) else None.

End Copies.

(** ** The report *)

Section Report.
Context {C : Type} `{Statistic C} `{UriEnv}.
Variable toProto : SerializationDomain -> C -> outcome StatisticProto.
Variable EndsWith : string -> string -> bool.


End Report.

(** ** Merging what was answered *)

Section Merging.
Context {C : Type} `{Represents C R}.







End Merging.

(** ** What a report says *)


Section Reports.
Context {S : Type} `{Represents S R}.






End Reports.

(** ** A report *)

Section Demo.

#[local] Existing Instance uri_env_documented.




End Demo.
