(* ===== verification/Entry.v ===== *)
(** * From the arguments to the exit code

    Models the command lines of the three programs and their [main()]: the
    arguments the constructor of [OptionsImpl] declares to TCLAP
    ([engine/source/client/options_impl.cc]), those of [ServiceMain] and
    [OutputTransformMain] ([service_main.cc], [output_transform_main.cc]), how the
    parsed arguments reach the constructors, and the exit codes
    ([engine/source/exe]).

    TCLAP is an argument: it is given the declarations and the words of the
    command line. *)

From stdpp Require Import gmap strings.
From S2P Require Import Prelude Text Uri Statistic BenchmarkClient BackendName Worker Process.
From S2P Require Import Options OptionsMessages OptionsProofs OptionsCommandLine OptionsTheorems ClientFactory Bootstrap BootstrapProofs Executables.

(** ** Declarations *)

(** The classes of TCLAP's arguments the programs use; a value of text may be
    limited to some values. *)
Inductive ArgKind : Type :=
| SwitchArg
| ValueArg_uint32
| ValueArg_string (constraint : option (list string))
| MultiArg
| UnlabeledValueArg.

(** The flag, which is empty or a letter, the name, and whether the argument has to
    be given. *)
Record Arg : Type := mkArg {
  arg_flag : string;
  arg_name : string;
  arg_kind : ArgKind;
  arg_required : bool;
}.

(** *** Of the client, in the order of the source *)

(** Lines 66 to 151. *)
Definition load_arguments : list Arg := [
  mkArg EmptyString "rps" ValueArg_uint32 false;
  mkArg EmptyString "connections" ValueArg_uint32 false;
  mkArg EmptyString "duration" ValueArg_uint32 false;
  mkArg EmptyString "timeout" ValueArg_uint32 false;
  mkArg EmptyString "h2" SwitchArg false;
  mkArg "p" "protocol" (ValueArg_string (Some protocols)) false;
  mkArg EmptyString "http3-protocol-options" (ValueArg_string None) false;
  mkArg EmptyString "tunnel-protocol" (ValueArg_string (Some tunnel_protocols)) false;
  mkArg EmptyString "tunnel-uri" (ValueArg_string None) false;
  mkArg EmptyString "tunnel-tls-context" (ValueArg_string None) false;
  mkArg EmptyString "concurrency" (ValueArg_string None) false
].

(** Lines 156 to 247. *)
Definition output_arguments `{AbslStrings} : list Arg := [
  mkArg "v" "verbosity" (ValueArg_string (Some log_levels)) false;
  mkArg EmptyString "output-format" (ValueArg_string (Some getLowerCaseOutputFormats)) false;
  mkArg EmptyString "prefetch-connections" SwitchArg false;
  mkArg EmptyString "burst-size" ValueArg_uint32 false;
  mkArg EmptyString "address-family" (ValueArg_string (Some address_families)) false;
  mkArg EmptyString "request-method" (ValueArg_string (Some cli_request_methods)) false;
  mkArg EmptyString "request-header" MultiArg false;
  mkArg EmptyString "request-body-size" ValueArg_uint32 false;
  mkArg EmptyString "request-body-file" (ValueArg_string None) false;
  mkArg EmptyString "grpc-mode" (ValueArg_string (Some grpc_modes)) false
].

(** Lines 248 to 314. *)
Definition stream_arguments : list Arg := [
  mkArg EmptyString "websocket" SwitchArg false;
  mkArg EmptyString "websocket-binary" SwitchArg false;
  mkArg EmptyString "tcp-connections" ValueArg_uint32 false;
  mkArg EmptyString "tcp-max-inflight-per-connection" ValueArg_uint32 false;
  mkArg EmptyString "tcp-no-echo" SwitchArg false;
  mkArg EmptyString "tcp-max-messages-per-connection" ValueArg_uint32 false;
  mkArg EmptyString "udp-max-inflight" ValueArg_uint32 false;
  mkArg EmptyString "udp-timeout" (ValueArg_string None) false;
  mkArg EmptyString "streams" ValueArg_uint32 false;
  mkArg EmptyString "max-inflight-per-stream" ValueArg_uint32 false;
  mkArg EmptyString "stream-drain-duration" (ValueArg_string None) false
].

(** Lines 316 to 382. *)
Definition connection_arguments : list Arg := [
  mkArg EmptyString "tls-context" (ValueArg_string None) false;
  mkArg EmptyString "upstream-bind-config" (ValueArg_string None) false;
  mkArg EmptyString "transport-socket" (ValueArg_string None) false;
  mkArg EmptyString "max-pending-requests" ValueArg_uint32 false;
  mkArg EmptyString "max-active-requests" ValueArg_uint32 false;
  mkArg EmptyString "max-requests-per-connection" ValueArg_uint32 false;
  mkArg EmptyString "max-concurrent-streams" ValueArg_uint32 false;
  mkArg EmptyString "sequencer-idle-strategy" (ValueArg_string (Some sequencer_idle_strategies)) false
].

(** Lines 384 to 435. *)
Definition schedule_arguments : list Arg := [
  mkArg EmptyString "trace" (ValueArg_string None) false;
  mkArg EmptyString "termination-predicate" MultiArg false;
  mkArg EmptyString "failure-predicate" MultiArg false;
  mkArg EmptyString "no-default-failure-predicates" SwitchArg false;
  mkArg EmptyString "experimental-h1-connection-reuse-strategy" (ValueArg_string (Some h1_connection_reuse_strategies)) false;
  mkArg EmptyString "open-loop" SwitchArg false;
  mkArg EmptyString "jitter-uniform" (ValueArg_string None) false;
  mkArg EmptyString "nighthawk-service" (ValueArg_string None) false;
  mkArg EmptyString "experimental-h2-use-multiple-connections" SwitchArg false
].

(** Lines 437 to 496. *)
Definition target_arguments : list Arg := [
  mkArg EmptyString "multi-target-endpoint" MultiArg false;
  mkArg EmptyString "multi-target-path" (ValueArg_string None) false;
  mkArg EmptyString "multi-target-use-https" SwitchArg false;
  mkArg EmptyString "label" MultiArg false;
  mkArg EmptyString "uri" UnlabeledValueArg false;
  mkArg EmptyString "request-source" (ValueArg_string None) false;
  mkArg EmptyString "request-source-plugin-config" (ValueArg_string None) false;
  mkArg EmptyString "rate-limiter-plugin-config" (ValueArg_string None) false
].

(** Lines 498 to 550. *)
Definition execution_arguments : list Arg := [
  mkArg EmptyString "simple-warmup" SwitchArg false;
  mkArg EmptyString "no-duration" SwitchArg false;
  mkArg EmptyString "stats-sinks" MultiArg false;
  mkArg EmptyString "stats-flush-interval" ValueArg_uint32 false;
  mkArg EmptyString "stats-flush-interval-duration" (ValueArg_string None) false;
  mkArg EmptyString "latency-response-header-name" (ValueArg_string None) false;
  mkArg EmptyString "user-defined-plugin-config" MultiArg false
].

Definition client_arguments `{AbslStrings} : list Arg :=
  load_arguments ++ output_arguments ++ stream_arguments ++ connection_arguments ++ schedule_arguments ++
  target_arguments ++ execution_arguments.

(** *** Of the service and of the transformation of outputs *)

Definition service_names : list string := ["traffic-generator-service"; "dummy-request-source"]%string.

Definition service_arguments : list Arg := [
  mkArg EmptyString "listen" (ValueArg_string None) false;
  mkArg EmptyString "listener-address-file" (ValueArg_string None) false;
  mkArg EmptyString "service" (ValueArg_string (Some service_names)) false;
  mkArg EmptyString "max-concurrent-executions" ValueArg_uint32 false;
  mkArg EmptyString "backend-name" (ValueArg_string None) false
].

Definition transform_arguments `{AbslStrings} : list Arg := [
  mkArg EmptyString "output-format" (ValueArg_string (Some getLowerCaseOutputFormats)) true
].

(** ** What TCLAP does with them *)

(** What an argument holds after parsing: whether a switch was given, the value of
    an argument with [isSet()], the values of one that may be repeated. *)
Inductive Given : Type :=
| Flag (b : bool)
| Number (v : option Z)
| Word (v : option string)
| Words (l : list string).

Definition fits (k : ArgKind) (g : Given) : bool :=
  match k, g with
  | SwitchArg, Flag _ => true
  | ValueArg_uint32, Number None => true
  | ValueArg_uint32, Number (Some n) => (0 <=? n) && (n <? 2 ^ 32)
  | ValueArg_string (Some values), Word (Some w) => bool_decide (w ∈ values)
  | ValueArg_string _, Word _ => true
  | UnlabeledValueArg, Word _ => true
  | MultiArg, Words _ => true
  | _, _ => false
  end.

Definition is_given (g : Given) : bool :=
  match g with
  | Flag b => b
  | Number v => is_set v
  | Word v => is_set v
  | Words l => negb (bool_decide (l = []))
  end.

(** Of an argument TCLAP asks for a flag of at most a letter and a name or a flag;
    of a command line that no two arguments, the ones TCLAP adds itself included
    ([-h], [--help], [--version] and [--ignore_rest]), have the same flag or the
    same name. Otherwise declaring throws. *)
Definition reserved_names : list string := ["help"; "version"; "ignore_rest"]%string.

Definition reserved_flags : list string := ["h"; "-"]%string.

Definition well_declared (args : list Arg) : bool :=
  forallb (fun a => (String.length (arg_flag a) <=? 1)%nat && negb (arg_name a =? EmptyString)%string) args &&
  bool_decide (NoDup (reserved_names ++ (arg_name <$> args))) &&
  bool_decide (NoDup (reserved_flags ++ filter (fun f => f <> EmptyString) (arg_flag <$> args))).

(** TCLAP: how parsing ends, and what each argument, by its name, then holds. *)
Class Tclap : Type := { tclap : list Arg -> list string -> Parse * (string -> Given) }.

(** What it documents, of arguments that can be declared: after parsing each has a
    value of its type, an allowed one if it has a constraint, and a required one has
    been given; after an error [failure()] leaves with an [ExitException]. *)
Class TclapLaws `{Tclap} : Prop := {
  tclap_fits args argv a :
    well_declared args = true -> a ∈ args -> (tclap args argv).1 = Parsed ->
    fits (arg_kind a) ((tclap args argv).2 (arg_name a)) = true;
  tclap_required args argv a :
    well_declared args = true -> a ∈ args -> arg_required a = true -> (tclap args argv).1 = Parsed ->
    is_given ((tclap args argv).2 (arg_name a)) = true;
  tclap_failure_exits args argv what exits : (tclap args argv).1 = ArgError what exits -> exits = true;
}.

(** [isSet()] and [getValue()]. *)
Definition flag (g : Given) : bool := match g with Flag b => b | _ => false end.

Definition number (g : Given) : option Z := match g with Number v => v | _ => None end.

Definition text (g : Given) : option string := match g with Word v => v | _ => None end.

Definition texts (g : Given) : list string := match g with Words l => l | _ => [] end.

(** ** Reading the arguments *)

Definition command_line_of (given_value : string -> Given) : CommandLine := {|
  a_requests_per_second := number (given_value "rps");
  a_connections := number (given_value "connections");
  a_duration := number (given_value "duration");
  a_timeout := number (given_value "timeout");
  a_h2 := flag (given_value "h2");
  a_protocol := text (given_value "protocol");
  a_http3_protocol_options := text (given_value "http3-protocol-options");
  a_tunnel_protocol := text (given_value "tunnel-protocol");
  a_tunnel_uri := text (given_value "tunnel-uri");
  a_tunnel_tls_context := text (given_value "tunnel-tls-context");
  a_concurrency := text (given_value "concurrency");
  a_verbosity := text (given_value "verbosity");
  a_output_format := text (given_value "output-format");
  a_prefetch_connections := flag (given_value "prefetch-connections");
  a_burst_size := number (given_value "burst-size");
  a_address_family := text (given_value "address-family");
  a_request_method := text (given_value "request-method");
  a_request_headers := texts (given_value "request-header");
  a_request_body_size := number (given_value "request-body-size");
  a_request_body_file := text (given_value "request-body-file");
  a_grpc_mode := text (given_value "grpc-mode");
  a_websocket := flag (given_value "websocket");
  a_websocket_binary := flag (given_value "websocket-binary");
  a_tcp_connections := number (given_value "tcp-connections");
  a_tcp_max_inflight := number (given_value "tcp-max-inflight-per-connection");
  a_tcp_no_echo := flag (given_value "tcp-no-echo");
  a_tcp_max_messages := number (given_value "tcp-max-messages-per-connection");
  a_udp_max_inflight := number (given_value "udp-max-inflight");
  a_udp_timeout := text (given_value "udp-timeout");
  a_streams := number (given_value "streams");
  a_max_inflight_per_stream := number (given_value "max-inflight-per-stream");
  a_stream_drain_duration := text (given_value "stream-drain-duration");
  a_tls_context := text (given_value "tls-context");
  a_upstream_bind_config := text (given_value "upstream-bind-config");
  a_transport_socket := text (given_value "transport-socket");
  a_max_pending_requests := number (given_value "max-pending-requests");
  a_max_active_requests := number (given_value "max-active-requests");
  a_max_requests_per_connection := number (given_value "max-requests-per-connection");
  a_max_concurrent_streams := number (given_value "max-concurrent-streams");
  a_sequencer_idle_strategy := text (given_value "sequencer-idle-strategy");
  a_trace := text (given_value "trace");
  a_termination_predicates := texts (given_value "termination-predicate");
  a_failure_predicates := texts (given_value "failure-predicate");
  a_no_default_failure_predicates := flag (given_value "no-default-failure-predicates");
  a_h1_connection_reuse_strategy := text (given_value "experimental-h1-connection-reuse-strategy");
  a_open_loop := flag (given_value "open-loop");
  a_jitter_uniform := text (given_value "jitter-uniform");
  a_nighthawk_service := text (given_value "nighthawk-service");
  a_h2_use_multiple_connections := flag (given_value "experimental-h2-use-multiple-connections");
  a_multi_target_endpoints := texts (given_value "multi-target-endpoint");
  a_multi_target_path := text (given_value "multi-target-path");
  a_multi_target_use_https := flag (given_value "multi-target-use-https");
  a_labels := texts (given_value "label");
  a_uri := text (given_value "uri");
  a_request_source := text (given_value "request-source");
  a_request_source_plugin_config := text (given_value "request-source-plugin-config");
  a_rate_limiter_plugin_config := text (given_value "rate-limiter-plugin-config");
  a_simple_warmup := flag (given_value "simple-warmup");
  a_no_duration := flag (given_value "no-duration");
  a_stats_sinks := texts (given_value "stats-sinks");
  a_stats_flush_interval := number (given_value "stats-flush-interval");
  a_stats_flush_interval_duration := text (given_value "stats-flush-interval-duration");
  a_latency_response_header_name := text (given_value "latency-response-header-name");
  a_user_defined_output_plugin_configs := texts (given_value "user-defined-plugin-config");
|}.

Definition service_args_of (given_value : string -> Given) : ServiceArgs :=
  mkServiceArgs (text (given_value "listen")) (text (given_value "listener-address-file")) (text (given_value "service"))
    (number (given_value "max-concurrent-executions")) (text (given_value "backend-name")).

(** ** The programs *)

(** How a program ends: with an exit code and what [main()] itself printed to the
    standard error, or by [std::terminate], for an assertion or an exception that nothing
    catches. *)
Inductive MainEnd : Type := Exits (code : Z) (error : option string) | Terminates.

Definition what_of (e : exn) : string :=
  match e with
  | NighthawkException w | UriException w | EnvoyException w | MalformedArgvException w => w
  | NoServingException => "NoServingException"
  end.

(** The exceptions derived from [NighthawkException]. *)
Definition of_nighthawk (e : exn) : bool :=
  match e with EnvoyException _ => false | _ => true end.

(** The [catch] clauses of a [main()]: [malformed] and [other] are what is printed
    for a [MalformedArgvException] and for another exception of the program. *)
Definition catch_clauses (malformed other : string -> option string) (e : exn) : MainEnd :=
  match e with
  | NoServingException => Exits 0 None
  | MalformedArgvException what => Exits 1 (malformed what)
  | e => if of_nighthawk e then Exits 1 (other (what_of e)) else Terminates
  end.

Section Programs.
Context `{Messages} `{TimeUtil} `{RequestMethods} `{SystemClock} `{AbslMatch} `{UriEnv} `{AbslStrings} `{CommandLineEnv}
        `{AbslSuffix} `{Tclap}.
Context (message_error : OptionsMessage -> option string).
Context (GetAvailablePort : bool -> AddressFamilyOptions -> outcome Z).

(** The constructors, from the words of the command line. *)
Definition OptionsImpl_of_argv (argv : list string) : outcome OptionsImpl :=
  let (parse, given_value) := tclap client_arguments argv in
  Utility_parseCommand parse ;;;
  OptionsImpl_of_command_line message_error GetAvailablePort (command_line_of given_value).

Definition ServiceMain_of_argv (argv : list string) : outcome ServiceMain :=
  let (parse, given_value) := tclap service_arguments argv in
  Utility_parseCommand parse ;;; ServiceMain_new (service_args_of given_value).

Definition OutputTransformMain_new (argv : list string) : outcome string :=
  let (parse, given_value) := tclap transform_arguments argv in
  Utility_parseCommand parse ;;; Ok (default EmptyString (text (given_value "output-format"%string))).

(** [client->run() ? EXIT_SUCCESS : EXIT_FAILURE], which is outside of the [try]. *)
Definition exit_of_run (r : outcome (option string * bool)) : MainEnd :=
  match r with
  | Ok (_, true) => Exits 0 None
  | Ok (_, false) => Exits 1 None
  | Throw _ | Panic _ | Undefined => Terminates
  end.

Definition client_main (argv : list string) (run : OptionsImpl -> outcome (option string * bool)) : MainEnd :=
  match OptionsImpl_of_argv argv with
  | Ok o => exit_of_run (run o)
  | Throw e => catch_clauses (fun what => Some ("Bad argument: " +:+ what))
                             (fun what => Some ("An unknown error occurred: " +:+ what)) e
  | Panic _ | Undefined => Terminates
  end.

(** [wait()] returns once the server has been shut down. *)
Definition service_main (fmt_int : Z -> string) (built : bool) (port : Z) (argv : list string) : MainEnd :=
  match (let* s := ServiceMain_of_argv argv in ServiceMain_start fmt_int built port s) with
  | Ok _ => Exits 0 None
  | Throw e => catch_clauses (fun _ => None) (fun what => Some ("Failure: " +:+ what)) e
  | Panic _ | Undefined => Terminates
  end.

Definition output_transform_main {Output} (loaded : string + Output) (format : OutputFormatterPtr -> Output -> option string)
    (argv : list string) : MainEnd :=
  match (let* f := OutputTransformMain_new argv in OutputTransformMain_run f loaded format) with
  | Ok (code, _) => Exits code None
  | Throw e => catch_clauses (fun what => Some ("Invalid args: " +:+ what)) (fun what => Some ("Failure: " +:+ what)) e
  | Panic _ | Undefined => Terminates
  end.

End Programs.

(** ** The declarations are accepted *)

Section Declared.
Context `{RequestMethods} `{AbslStrings} `{CommandLineEnv} {CL : CommandLineLaws}.

(** None of the programs declares an argument TCLAP refuses. *)
Lemma client_well_declared : well_declared client_arguments = true.
Proof. vm_compute. reflexivity. Qed.

Lemma service_well_declared : well_declared service_arguments = true.
Proof. vm_compute. reflexivity. Qed.

Lemma transform_well_declared : well_declared transform_arguments = true.
Proof. vm_compute. reflexivity. Qed.

End Declared.

(** ** Every argument reaches the constructor *)


Definition all_fit (args : list Arg) (given_value : string -> Given) : Prop :=
  Forall (fun a => fits (arg_kind a) (given_value (arg_name a)) = true) args.




Section Reading.
Context `{AbslStrings}.



End Reading.

(** ** The programs end as they should *)

Section Ends.
Context `{MessagesLaws} `{TimeUtilLaws} `{RequestMethodsLaws} `{SystemClock} `{AbslMatchLaws} `{UriEnv} `{AbslStrings}
        `{CommandLineEnv} {CL : CommandLineLaws} `{AbslSuffixLaws} `{TclapLaws}.
Context (message_error : OptionsMessage -> option string).
Context (GetAvailablePort : bool -> AddressFamilyOptions -> outcome Z).

(** What was parsed fits the declarations. *)
Lemma parsed_fits args argv g : well_declared args = true -> tclap args argv = (Parsed, g) -> all_fit args g.
Proof.
  intros Hw E. apply Forall_forall. intros a Ha. pose proof (tclap_fits args argv a Hw Ha) as Hf. rewrite E in Hf. by apply Hf.
Qed.

Lemma fits_named args g flag name k required :
  all_fit args g -> mkArg flag name k required ∈ args -> fits k (g name) = true.
Proof. intros Hg Ha. exact (proj1 (Forall_forall _ _) Hg _ Ha). Qed.

Lemma fits_allowed values g : fits (ValueArg_string (Some values)) g = true -> allowed values (text g).
Proof. destruct g as [| |[w|]|]; cbn; try done. intros Hw. by case_bool_decide. Qed.

Lemma fits_u32 g : fits ValueArg_uint32 g = true -> in_u32_option (number g).
Proof. destruct g as [|[n|]| |]; cbn; try done. intros Hn. b2p. lia. Qed.

(** A declared argument, by its place. *)
Ltac declared :=
  unfold client_arguments; cbn [app load_arguments output_arguments stream_arguments connection_arguments
    schedule_arguments target_arguments execution_arguments service_arguments transform_arguments];
  repeat first [apply list_elem_of_here|apply list_elem_of_further].

(** The command line the constructor is given has only allowed values. *)
Lemma parsed_constrained g : all_fit client_arguments g -> constrained (command_line_of g).
Proof.
  intros Hg. constructor; cbn [command_line_of a_protocol a_tunnel_protocol a_verbosity a_output_format a_address_family
    a_request_method a_sequencer_idle_strategy a_h1_connection_reuse_strategy];
  apply fits_allowed; eapply (fits_named _ _ _ _ _ _ Hg); declared.
Qed.

Lemma parsed_u32 g :
  all_fit client_arguments g -> in_u32_option (a_duration (command_line_of g)) /\ in_u32_option (a_timeout (command_line_of g)).
Proof.
  intros Hg. split; apply fits_u32; eapply (fits_named _ _ _ _ _ _ Hg); declared.
Qed.

Lemma parsed_total g :
  all_fit client_arguments g -> (forall b f, returns (GetAvailablePort b f)) ->
  returns (OptionsImpl_of_command_line message_error GetAvailablePort (command_line_of g)).
Proof. intros Hg Hport. by apply command_line_total; [apply parsed_constrained|]. Qed.

(** The mode that is not [unary] is [bidi-stream], as the constructor takes it to
    be. *)
Lemma parsed_grpc_mode g mode :
  all_fit client_arguments g -> a_grpc_mode (command_line_of g) = Some mode -> mode = "unary"%string \/ mode = "bidi-stream"%string.
Proof.
  intros Hg E. assert (allowed grpc_modes (text (g "grpc-mode"%string))) as Hm.
  { apply fits_allowed. eapply (fits_named _ _ _ _ _ _ Hg). declared. }
  cbn in E. rewrite E in Hm. unfold allowed, grpc_modes in Hm. rewrite !elem_of_cons, elem_of_nil in Hm. destruct_or! Hm; auto.
Qed.

(** Options from the words of a command line, which fit what TCLAP documents, are
    options in the sense of the theorems on the constructors. *)
Lemma argv_options argv :
  (forall b f, returns (GetAvailablePort b f)) ->
  match OptionsImpl_of_argv message_error GetAvailablePort argv with
  | Ok _ => True
  | Throw e => of_nighthawk e = true
  | Panic _ | Undefined => False
  end /\
  forall o, OptionsImpl_of_argv message_error GetAvailablePort argv = Ok o -> constructed message_error GetAvailablePort o.
Proof.
  intros Hport. unfold OptionsImpl_of_argv. destruct (tclap client_arguments argv) as [p g] eqn:E.
  destruct p as [|what exits|]; cbn [Utility_parseCommand obind].
  - pose proof (parsed_fits _ _ _ client_well_declared E) as Hg. pose proof (parsed_total g Hg Hport) as Hr.
    split; [by destruct (OptionsImpl_of_command_line _ _ _) as [|[]| |]|]. intros o Ho. destruct (parsed_u32 g Hg). by eapply from_command_line; [apply parsed_constrained|..].
  - pose proof (tclap_failure_exits client_arguments argv what exits) as Hx. rewrite E in Hx. rewrite Hx by done. done.
  - done.
Qed.

(** C9. The client, given any words for a command line, does not crash before it
    runs. Asked for its usage or version it exits with success; words TCLAP refuses
    are reported as a bad argument and it exits with failure; otherwise it either
    reports what is wrong with the options and exits with failure, or the options
    are ones a constructor has made, valid and consistent, and the exit code is that
    of the run. *)
Theorem client_program_ends argv run :
  (forall b f, returns (GetAvailablePort b f)) ->
  let program := client_main message_error GetAvailablePort argv run in
  match (tclap client_arguments argv).1 with
  | Exited => program = Exits 0 None
  | ArgError what _ => program = Exits 1 (Some ("Bad argument: " +:+ what))
  | Parsed =>
      (exists o, constructed message_error GetAvailablePort o /\ program = exit_of_run (run o)) \/
      exists problem, program = Exits 1 (Some problem)
  end.
Proof.
  intros Hport. cbv zeta. destruct (argv_options argv Hport) as [_ Ho]. unfold client_main.
  pose proof (tclap_failure_exits client_arguments argv) as Hx.
  unfold OptionsImpl_of_argv in *. destruct (tclap client_arguments argv) as [[|what exits|] g] eqn:Et; cbn [fst] in *.
  - cbn [Utility_parseCommand obind] in *. pose proof (parsed_fits _ _ _ client_well_declared Et) as Hg.
    pose proof (parsed_total g Hg Hport) as Hr.
    destruct (OptionsImpl_of_command_line _ _ _) as [o|e| |] eqn:E; [|right|done..].
    + left. exists o. auto.
    + destruct e; try done; by eexists.
  - by rewrite (Hx what exits eq_refl).
  - done.
Qed.

(** A run that throws is not caught: [client->run()] is outside of the [try]. *)
Lemma run_exception_terminates argv run o e :
  OptionsImpl_of_argv message_error GetAvailablePort argv = Ok o -> run o = Throw e ->
  client_main message_error GetAvailablePort argv run = Terminates.
Proof. intros Ho Hr. unfold client_main. by rewrite Ho, Hr. Qed.

(** The service exits with success when it has been shut down, and with failure
    when its command line is refused or it cannot listen; it never crashes on a
    command line. *)
Lemma service_program_ends fmt_int built port argv :
  let program := service_main fmt_int built port argv in
  match (tclap service_arguments argv).1 with
  | Exited => program = Exits 0 None
  | ArgError _ _ => program = Exits 1 None
  | Parsed => program = Exits 0 None /\ built = true \/ exists problem, program = Exits 1 problem
  end.
Proof.
  cbv zeta. pose proof (tclap_failure_exits service_arguments argv) as Hx. unfold service_main, ServiceMain_of_argv.
  destruct (tclap service_arguments argv) as [[|what exits|] g] eqn:E; cbn [fst] in *; [|by rewrite (Hx what exits eq_refl)|done].
  pose proof (parsed_fits _ _ _ service_well_declared E) as Hg. cbn [Utility_parseCommand obind].
  destruct (service_started fmt_int (service_args_of g) port) as [Hr _].
  { assert (allowed service_names (text (g "service"%string))) as Hs.
    { apply fits_allowed. eapply (fits_named _ _ _ _ _ _ Hg). declared. }
    cbn [service_args_of sa_service]. destruct (text (g "service"%string)); [|by left]. unfold allowed, service_names in Hs.
    rewrite !elem_of_cons, elem_of_nil in Hs. destruct_or! Hs; subst; auto. }
  { assert (in_u32_option (number (g "max-concurrent-executions"%string))) as Hn.
    { apply fits_u32. eapply (fits_named _ _ _ _ _ _ Hg). declared. }
    cbn [service_args_of sa_max_concurrent_executions]. destruct (number _); cbn in *; lia. }
  destruct (ServiceMain_new _) as [s|e| |]; [..|done|done]; cbn [obind].
  - unfold ServiceMain_start. destruct built; cbn; [by left|right; by eexists].
  - right. destruct e; try done; by eexists.
Qed.

(** The transformation of an output exits with success exactly when it has
    formatted one, and never crashes. *)
Lemma transform_program_ends {Output} (loaded : string + Output) format argv :
  let program := output_transform_main loaded format argv in
  match (tclap transform_arguments argv).1 with
  | Exited => program = Exits 0 None
  | ArgError what _ => program = Exits 1 (Some ("Invalid args: " +:+ what))
  | Parsed => exists formatter : OutputFormatterPtr,
      program = Exits (match loaded with
                       | inr output => match format formatter output with Some _ => 0 | None => 1 end
                       | inl _ => 1
                       end) None
  end.
Proof.
  cbv zeta. pose proof (tclap_failure_exits transform_arguments argv) as Hx. unfold output_transform_main, OutputTransformMain_new.
  destruct (tclap transform_arguments argv) as [[|what exits|] g] eqn:E; cbn [fst] in *; [|by rewrite (Hx what exits eq_refl)|done].
  pose proof (parsed_fits _ _ _ transform_well_declared E) as Hg. cbn [Utility_parseCommand obind].
  assert (is_given (g "output-format"%string) = true) as Hgiven.
  { pose proof (tclap_required transform_arguments argv _ transform_well_declared (list_elem_of_here _ _) eq_refl) as Hq.
    rewrite E in Hq. by apply Hq. }
  assert (fits (ValueArg_string (Some getLowerCaseOutputFormats)) (g "output-format"%string) = true) as Hf.
  { eapply (fits_named _ _ _ _ _ _ Hg). declared. }
  destruct (g "output-format"%string) as [| |[f|]|]; try done. apply fits_allowed in Hf. cbn [text allowed] in *. change (default EmptyString (Some f)) with f.
  destruct (output_transformed f loaded format Hf) as [formatter ->]. exists formatter.
  destruct loaded as [|output]; [done|]. by destruct (format formatter output).
Qed.

End Ends.

(** ** Concrete command lines *)

Section Examples.

#[local] Existing Instances demo_messages demo_time demo_methods demo_clock absl_documented absl_match_documented
  uri_env_documented demo_cli_env demo_messages_laws demo_time_laws demo_methods_laws demo_cli_laws uri_env_laws demo_suffix.

(** Long names, each value a word of its own; any other word is for the argument
    without a name. *)
Fixpoint demo_scan (args : list Arg) (argv : list string) : option (list (string * string)) :=
  match argv with
  | [] => Some []
  | word :: argv =>
      match List.find (fun a => ("--" +:+ arg_name a =? word)%string) args, argv with
      | Some (mkArg _ name SwitchArg _), _ => (cons (name, EmptyString)) <$> demo_scan args argv
      | Some a, value :: argv => (cons (arg_name a, value)) <$> demo_scan args argv
      | Some _, [] => None
      | None, _ =>
          match List.find (fun a => match arg_kind a with UnlabeledValueArg => true | _ => false end) args with
          | Some a => (cons (arg_name a, word)) <$> demo_scan args argv
          | None => None
          end
      end
  end.

Definition demo_given (args : list Arg) (found : list (string * string)) (name : string) : Given :=
  let values := (filter (fun p => p.1 = name) found).*2 in
  match arg_kind <$> List.find (fun a => (arg_name a =? name)%string) args with
  | Some SwitchArg => Flag (negb (bool_decide (values = [])))
  | Some ValueArg_uint32 => Number ((fun v => default (-1) (digits 0 v)) <$> head values)
  | Some MultiArg => Words values
  | _ => Word (head values)
  end.

Definition demo_check (g : string -> Given) (a : Arg) : bool :=
  fits (arg_kind a) (g (arg_name a)) && implb (arg_required a) (is_given (g (arg_name a))).

Definition demo_tclap : Tclap := {|
  tclap args argv :=
    if bool_decide ("--help"%string ∈ argv) then (Exited, demo_given args [])
    else match demo_scan args argv with
         | None => (ArgError "Couldn't find match for argument" true, demo_given args [])
         | Some found =>
             let g := demo_given args found in
             if forallb (demo_check g) args then (Parsed, g)
             else (ArgError "Value does not meet constraint" true, g)
         end;
|}.

#[local] Existing Instance demo_tclap.

Lemma demo_tclap_checked args argv a :
  a ∈ args -> (tclap args argv).1 = Parsed -> demo_check (tclap args argv).2 a = true.
Proof.
  intros Ha. cbn [tclap demo_tclap]. case_bool_decide; [done|]. destruct (demo_scan args argv) as [found|]; [|done].
  destruct (forallb _ args) eqn:E; [|done]. intros _. cbn [snd]. rewrite forallb_forall in E. by apply E, list_elem_of_In.
Qed.

Lemma demo_tclap_laws : TclapLaws.
Proof.
  constructor.
  - intros args argv a _ Ha Hp. pose proof (demo_tclap_checked args argv a Ha Hp) as Hc. unfold demo_check in Hc. by b2p.
  - intros args argv a _ Ha Hr Hp. pose proof (demo_tclap_checked args argv a Ha Hp) as Hc. unfold demo_check in Hc.
    rewrite Hr in Hc. by b2p.
  - intros args argv what exits. cbn [tclap demo_tclap]. case_bool_decide; [done|].
    destruct (demo_scan args argv); [|naive_solver]. cbv zeta. destruct (forallb _ args); naive_solver.
Qed.

#[local] Existing Instance demo_tclap_laws.

Definition demo_argv : list string := ["--rps"; "10"; "--h2"; "--label"; "a"; "http://127.0.0.1:8080/echo"; "--label"; "b"]%string.


(** A run that succeeds when it was given two labels. *)
Definition demo_labels_run (o : OptionsImpl) : outcome (option string * bool) :=
  Ok (None, bool_decide (length (o_labels o) = 2%nat)).



(** C9: the command line with both labels runs, and the exit code is that of the
    run. *)
Lemma client_program_ends_witness :
  let program := client_main demo_message_error demo_port demo_argv demo_labels_run in
  program = Exits 0 None /\
  ((exists o, constructed demo_message_error demo_port o /\ program = exit_of_run (demo_labels_run o)) \/
   exists problem, program = Exits 1 (Some problem)).
Proof.
  split; [vm_compute; reflexivity|].
  pose proof (client_program_ends demo_message_error demo_port demo_argv demo_labels_run (fun _ _ => I)) as Hp. exact Hp.
Defined.

(** One that is refused by TCLAP, one the constructor refuses, and a question for
    the usage. *)
Example client_refusals :
  client_main demo_message_error demo_port ["--protocol"; "http4"]%string demo_labels_run =
    Exits 1 (Some "Bad argument: Value does not meet constraint"%string) /\
  client_main demo_message_error demo_port ["--h2"; "--protocol"; "http1"; demo_uri_text]%string demo_labels_run =
    Exits 1 (Some "Bad argument: --h2 and --protocol are mutually exclusive"%string) /\
  client_main demo_message_error demo_port ["--help"]%string demo_labels_run = Exits 0 None.
Proof. vm_compute. done. Qed.

End Examples.
